(* ===== verification/_CoqProject ===== *)
-Q . S2P
Prelude.v
Memory.v
Pmm.v
Heap.v
Block.v
Ata.v
Path.v
Fs.v
Fat16.v
Fat16Write.v
Fat16Spec.v
Paging.v
Spaces.v
Session.v
Handles.v
Gdt.v
Keyboard.v
Task.v
Registry.v
Scheduler.v
Waits.v
Lifetime.v
Exits.v
Irq.v
Elf.v
ElfCheck.v
Steps.v
Process.v
Terminal.v
SnakeModel.v
Snake.v
Syscall.v
SyscallSafe.v
Library.v
UserShell.v
Commands.v
Report.v
Recovery.v
Boot.v
