(* ===== verification/Prelude.v ===== *)
(** * rum: a verification library for the rum kernel

    rum is a small operating system for 32-bit x86 in C. This library models the parts
    of its kernel that keep state and carry its guarantees, function by function, and
    proves what makes them correct.

    ** The program and its models

    - Physical pages, [src/kernel/mm/pmm.c]: Pmm.v. Two bitmaps and a next-fit cursor;
      the validation of the boot loader's memory map.
    - Kernel heap, [src/kernel/mm/heap.c]: Heap.v. The list of block headers over a
      window of pages obtained through the interface [PageBacking].
    - Address spaces, [src/arch/i386/paging.c]: Paging.v (page directories and tables as
      words of physical memory, kernel stacks, user pages, copies to and from user
      memory) and Spaces.v (what each operation does to the registered spaces).
    - Block layer, [src/kernel/io/block.c]: Block.v. Guards and serialises a driver, a
      record of operations with the law [DriverLaw]. Disk driver,
      [src/drivers/storage/ata.c]: Ata.v, programmed input and output over parameters for
      the port instructions.
    - Paths, [src/kernel/fs/path.c]: Path.v. Virtual filesystem, [src/kernel/fs/fs.c]:
      Fs.v, over a backend with the law [BackendLaw].
    - FAT16, [src/kernel/fs/fat16.c] and [fat16-write.c]: Fat16.v (reading, mounting),
      Fat16Write.v (allocation, copy-on-write replacement, directories, removal) and
      Fat16Spec.v (what these compute). Fat16Write.v discharges [BackendLaw] for any disk
      with the laws [DiskLaw] and [DiskWriteLaw].
    - Console sessions, [src/kernel/process/session.c]: Session.v. Process handles,
      [src/kernel/process/handles.c]: Handles.v. Task-state segments,
      [src/arch/i386/gdt.c]: Gdt.v. Keyboard, [src/drivers/input/]: Keyboard.v.
    - Tasks, [src/kernel/process/task.c], and the timer, [src/hal/pc/pit.c]: Task.v, every
      function over the components above, with the two interrupt handlers. Registry.v is
      its invariant and the vocabulary of its steps, [kstep]; Scheduler.v, Waits.v and
      Lifetime.v prove its guarantees, and Exits.v that a task that may end does
      ([may_end], [ends_alone]). Steps.v is what code above the registry may do: any
      sequence of [kstep]s, with the heap's law [HeapLaw].
    - Interrupts, [src/hal/pc/pic.c], [irq.c] and the gates of
      [src/arch/i386/exceptions.c]: Irq.v, over the class [Controllers].
    - Programs, [src/kernel/process/elf.c]: Elf.v (validation, placement, the first
      stack), [src/kernel/process/process.c]: Process.v (launch), and the build's checker
      [src/sdk/tools/check-user-elf.c]: ElfCheck.v.
    - Text terminal and serial port: Terminal.v. The game, [src/kernel/recovery/]:
      SnakeModel.v (rules) and Snake.v, whose [system] is the machine, the display and the
      game together.
    - System calls, [src/kernel/process/syscall.c]: Syscall.v, every handler, and
      SyscallSafe.v, what they guarantee.
    - Diagnostics and exceptions, [src/kernel/debug/] and [src/arch/i386/exceptions.c]:
      Report.v. The recovery shell, [src/kernel/recovery/shell.c]: Recovery.v. Boot options
      and the sessions of the boot task, [src/kernel/core/init.c]: Boot.v.
    - User side: the library [src/sdk/lib/]: Library.v; the shell [src/system/shell/]:
      UserShell.v, over the class [ShellWorld] of what a kernel is to it; the commands
      [src/system/commands/]: Commands.v.
    - Byte loops, [src/kernel/core/memory.c]: Memory.v.

    ** Conventions

    An integer of [w] bits is a [Z] with its wrap-around written where the source can
    overflow. An array is a finite map in which an absent index holds zero. A pointer to
    an element of a static array is its index; NULL is [None]. A function that changes
    static data takes the state and returns it. Interrupts that arrive while an operation
    runs with interrupts enabled are an argument of it, [w]. From Task.v on, [None] is
    [cpu_halt], and an operation ends where [schedule] switches contexts: its tail is a
    definition of its own, run when the context is chosen again. A handler above that may
    wait returns where it waits as a value ([RunBlocked], the [Waits] outcome of a system
    call, [Launching] in the recovery shell, the states of Boot.v's [supervisor]), and a
    [..._resume] or a step goes on from there.

    Loops that are not structural take fuel: the number of pages of a bitmap scan, of
    list nodes, of bytes of a path, of clusters of a chain, of slots of a table, of
    characters of a page. In each case the source's own bound, or the size of the
    structure the loop walks, is the fuel; theorems on the results ([heap_refines],
    [fs_path_parse_refines], [fat16_chain_exact], [exit_abandons_exactly],
    [console_handoff], [wait_child_returns], [boot_options_exact]) show that it is enough.
    [WAIT_CHILD_PASSES] is two: the second pass of a wait cannot go round, by
    [wait_child_returns]. Where a loop ends only because of another program's behaviour,
    the number of passes is a parameter and running out is [None] or [Spins]: the file
    loops of Recovery.v ([cat_ends] says how many passes [cat] needs) and of Commands.v,
    and the completions of UserShell.v.

    ** What the theorems show

    - Refinement of an abstract specification: page and heap allocators of disjoint owned
      ranges ([pmm_refines], [heap_refines]); paths to their canonical components; the
      filesystem as a table of counted references; opening a handle; the keyboard ring as
      a bounded queue; a dispatched interrupt as the step Task.v has for it; the game as
      its rules.
    - Invariants of every reachable state: the console's sessions and counters
      ([console_invariant]), the task registry ([registry_invariant]), a mounted FAT. The
      code above the registry keeps it too: every system call
      ([syscalls_keep_the_registry]), the recovery shell ([recovery_keeps_the_registry]),
      the session that restarts the shell ([shell_restarts_are_bounded]).
    - Safety: guarded block requests, user copies that reach exactly the user's pages,
      system calls that no user buffer can make halt the machine, mutations that spare open
      files, no lost wake-up, no stop of the machine when giving up the processor, no stale
      reference to a released console record, a pool of pages clear of every range the boot
      loader announces ([pmm_initialize_sound]), faults that end the one process they come
      from or, in the kernel, halt for good ([faults_are_contained]).
    - Function: the sectors a disk transfer reports are those whose words crossed the data
      port ([ata_transfer_exact]); the shell starts exactly what was typed
      ([shell_runs_what_was_typed]).
    - Equivalence: the build's checker with the kernel's loader; the option loop with the
      words of the command line; byte loops with moves, fills and comparisons.
    - Round trips: packets the user library builds and the kernel reads; directory entries.
    - Liveness and termination: round-robin dispatch, sleeps that end on time, chains,
      destruction of handles and waits for children that end.
    - Errors: interrupted writes fault the volume, launches are all or nothing, deferred
      transfer errors are reported once.

    ** Not modelled

    Assembly and inline assembly (interrupt entry, context switch, port instructions, TLB
    invalidation, loading of descriptor tables): where C calls it, its effect on the
    modelled state is written out, and device ports are parameters. [kernel_main] in
    [src/kernel/core/init.c]: it runs the initialisers, each modelled with its component
    on that component's state, one after the other, and prints a banner. The [help]
    command prints one text. *)

From stdpp Require Export base numbers list list_numbers gmap option.
From Stdlib Require Export ZArith Lia.

#[global] Open Scope Z_scope.

(** ** Fixed-width unsigned integers

    A [w]-bit C integer is a [Z]; the wrap-around of its arithmetic is written
    where the source can overflow. *)

Definition UINT8_MAX : Z := 0xff.
Definition UINT16_MAX : Z := 0xffff.
Definition UINT32_MAX : Z := 0xffffffff.
Definition UINT64_MAX : Z := 0xffffffffffffffff.
Definition INT32_MAX : Z := 0x7fffffff.

Definition wrap8 (x : Z) : Z := x mod 0x100.
Definition wrap16 (x : Z) : Z := x mod 0x10000.
Definition wrap32 (x : Z) : Z := x mod 0x100000000.
Definition wrap64 (x : Z) : Z := x mod 0x10000000000000000.
(** [~x] at 32 bits. *)
Definition not32 (x : Z) : Z := Z.lxor x UINT32_MAX.

(** ** Arrays

    A zero-initialised C array of integers is a finite map from indices to
    values: an absent index holds zero. *)

Definition aget (a : gmap Z Z) (i : Z) : Z := default 0 (a !! i).
Definition aset (a : gmap Z Z) (i v : Z) : gmap Z Z := <[i := v]> a.

(** ** Attempts

    C functions that return [bool] and update static data: a state
    transformer with a success flag. [and_then] is [&&] (or an early
    [return false]): the second computation runs only after success, and the
    state reached before a failure is kept. *)

Section Attempt.
Context {S : Type}.
Definition attempt : Type := S → bool * S.
Definition check (b : bool) : attempt := λ s, (b, s).
Definition and_then (m1 m2 : attempt) : attempt := λ s,
  let '(ok, s') := m1 s in if ok then m2 s' else (false, s').
Definition when (b : bool) (m : attempt) : attempt := λ s,
  if b then m s else (true, s).
End Attempt.
Arguments attempt : clear implicits.

Declare Scope rum_scope.
Delimit Scope rum_scope with rum.
Notation "m1 &&> m2" := (and_then m1 m2)
  (at level 59, right associativity) : rum_scope.
#[global] Open Scope rum_scope.

(** ** Counting loops

    [for_range first last body s] is
    [for (i = first; i < last; ++i) s = body(i, s)];
    [all_range] is the loop that leaves on the first index failing a test and
    [count_range] the loop that counts the indices passing one. *)

Fixpoint for_loop {S : Type} (n : nat) (i : Z) (body : Z → S → S) (s : S) : S :=
  match n with O => s | Datatypes.S n => for_loop n (i + 1) body (body i s) end.
Definition for_range {S : Type} (first last : Z) (body : Z → S → S) (s : S) : S :=
  for_loop (Z.to_nat (last - first)) first body s.

Fixpoint all_loop (n : nat) (i : Z) (f : Z → bool) : bool :=
  match n with O => true | S n => if f i then all_loop n (i + 1) f else false end.
Definition all_range (first last : Z) (f : Z → bool) : bool :=
  all_loop (Z.to_nat (last - first)) first f.

Definition count_range (first last : Z) (f : Z → bool) : Z :=
  for_range first last (λ i n, if f i then n + 1 else n) 0.

Section Loops.
Context {S : Type}.
Implicit Types (s : S) (body : Z → S → S) (P : Z → S → Prop).

Lemma for_loop_snoc n i body s :
  for_loop (Datatypes.S n) i body s = body (i + Z.of_nat n) (for_loop n i body s).
Proof.
  revert i s; induction n as [|n IH]; intros i s.
  - cbn. by rewrite Z.add_0_r.
  - change (for_loop (Datatypes.S (Datatypes.S n)) i body s)
      with (for_loop (Datatypes.S n) (i + 1) body (body i s)).
    rewrite IH; cbn [for_loop]. f_equal; lia.
Qed.

Lemma for_range_nil first last body s : last ≤ first → for_range first last body s = s.
Proof. intros. unfold for_range. by replace (Z.to_nat (last - first)) with O by lia. Qed.

Lemma for_range_snoc first last body s :
  first ≤ last →
  for_range first (last + 1) body s = body last (for_range first last body s).
Proof.
  intros. unfold for_range.
  replace (Z.to_nat (last + 1 - first)) with (Datatypes.S (Z.to_nat (last - first))) by lia.
  rewrite for_loop_snoc. f_equal; lia.
Qed.

Lemma for_loop_inv P n i body s :
  P i s →
  (∀ j t, i ≤ j < i + Z.of_nat n → P j t → P (j + 1) (body j t)) →
  P (i + Z.of_nat n) (for_loop n i body s).
Proof.
  revert i s; induction n as [|n IH]; intros i s H0 Hstep; cbn [for_loop].
  - by rewrite Z.add_0_r.
  - replace (i + Z.of_nat (Datatypes.S n)) with (i + 1 + Z.of_nat n) by lia.
    apply IH; [apply Hstep; [lia|done]|]. intros j t Hj. apply Hstep; lia.
Qed.

(** The loop rule: an assertion indexed by the loop counter. *)
Lemma for_range_inv P first last body s :
  first ≤ last →
  P first s →
  (∀ i t, first ≤ i < last → P i t → P (i + 1) (body i t)) →
  P last (for_range first last body s).
Proof.
  intros Hle H0 Hstep. unfold for_range.
  replace last with (first + Z.of_nat (Z.to_nat (last - first))) at 1 by lia.
  apply for_loop_inv; [done|]. intros j t Hj. apply Hstep; lia.
Qed.

(** An assertion that does not mention the counter holds whatever the bounds. *)
Lemma for_range_pres (Q : S → Prop) first last body s :
  Q s → (∀ i t, first ≤ i < last → Q t → Q (body i t)) → Q (for_range first last body s).
Proof.
  intros H0 Hstep. destruct (decide (first ≤ last)).
  - by apply (for_range_inv (λ _, Q)).
  - by rewrite for_range_nil by lia.
Qed.

Lemma for_range_ext first last body body' s :
  (∀ i t, first ≤ i < last → body i t = body' i t) →
  for_range first last body s = for_range first last body' s.
Proof.
  intros Hext. destruct (decide (first ≤ last)) as [Hle|]; [|by rewrite !for_range_nil by lia].
  assert (∀ n i t, first ≤ i → i + Z.of_nat n ≤ last →
    for_loop n i body t = for_loop n i body' t) as Hn.
  { induction n as [|n IH]; intros i t ??; cbn; [done|]. rewrite Hext by lia. apply IH; lia. }
  apply Hn; lia.
Qed.
End Loops.

Lemma all_loop_true n first f :
  all_loop n first f = true ↔ ∀ i, first ≤ i < first + Z.of_nat n → f i = true.
Proof.
  revert first; induction n as [|n IH]; intros first; cbn [all_loop].
  - split; [intros; exfalso; lia|done].
  - destruct (f first) eqn:E.
    + rewrite IH. split; intros H i Hi; [|apply H; lia].
      destruct (decide (i = first)) as [->|]; [done|]. apply H; lia.
    + split; [done|]. intros H. rewrite <- E. apply H. lia.
Qed.

Lemma all_range_true first last f :
  all_range first last f = true ↔ ∀ i, first ≤ i < last → f i = true.
Proof.
  unfold all_range. rewrite all_loop_true.
  split; intros H i Hi; apply H; lia.
Qed.

Section Counting.
Implicit Types (f g h : Z → bool) (a b c d : Z).

Lemma count_range_nil a b f : b ≤ a → count_range a b f = 0.
Proof. apply for_range_nil. Qed.

Lemma count_range_snoc a b f :
  a ≤ b → count_range a (b + 1) f = count_range a b f + (if f b then 1 else 0).
Proof. intros. unfold count_range. rewrite for_range_snoc by done. case_match; lia. Qed.

(** Induction on the length of a range. *)
Lemma range_ind (P : Z → Z → Prop) :
  (∀ a b, b ≤ a → P a b) →
  (∀ a b, a ≤ b → P a b → P a (b + 1)) →
  ∀ a b, P a b.
Proof.
  intros Hnil Hsnoc a b. destruct (decide (a ≤ b)) as [Hle|]; [|apply Hnil; lia].
  replace b with (a + (b - a)) by lia. pattern (b - a). apply natlike_ind; [| |lia].
  - apply Hnil; lia.
  - intros x Hx IH. replace (a + Z.succ x) with (a + x + 1) by lia. apply Hsnoc; [lia|done].
Qed.

Lemma count_range_ext a b f g :
  (∀ i, a ≤ i < b → f i = g i) → count_range a b f = count_range a b g.
Proof. intros H. apply for_range_ext. intros i t Hi. by rewrite H. Qed.

Lemma count_range_sum a b f g h :
  (∀ i, a ≤ i < b → f i = g i || h i) → (∀ i, a ≤ i < b → g i && h i = false) →
  count_range a b f = count_range a b g + count_range a b h.
Proof.
  revert a b; apply (range_ind (λ a b, _ → _ → _)); intros a b Hab.
  - intros _ _. by rewrite !count_range_nil by done.
  - intros IH Hor Hand. rewrite !count_range_snoc by done.
    rewrite IH by (intros; (apply Hor || apply Hand); lia).
    specialize (Hor b ltac:(lia)). specialize (Hand b ltac:(lia)).
    rewrite Hor. destruct (g b), (h b); cbn in *; lia || done.
Qed.

Lemma count_range_bounds a b f : a ≤ b → 0 ≤ count_range a b f ≤ b - a.
Proof.
  revert a b; apply (range_ind (λ a b, _ → _)); intros a b Hab.
  - intros. rewrite count_range_nil by done. lia.
  - intros IH _. rewrite count_range_snoc by done. specialize (IH Hab). case_match; lia.
Qed.

Lemma count_range_zero a b f : count_range a b f = 0 ↔ ∀ i, a ≤ i < b → f i = false.
Proof.
  revert a b; apply (range_ind (λ a b, _ ↔ _)); intros a b Hab.
  - rewrite count_range_nil by done. split; [intros; exfalso; lia|done].
  - intros IH. rewrite count_range_snoc by done.
    pose proof (count_range_bounds a b f Hab). split.
    + intros H0 i Hi. destruct (decide (i = b)) as [->|].
      * destruct (f b); [lia|done].
      * apply IH; [|lia]. destruct (f b); lia.
    + intros H0. rewrite (H0 b) by lia. rewrite Z.add_0_r. apply IH. intros; apply H0; lia.
Qed.

Lemma count_range_interval a b c d :
  a ≤ c ≤ d → d ≤ b → count_range a b (λ i, (c <=? i) && (i <? d)) = d - c.
Proof.
  intros Hac Hdb.
  assert (∀ a' b', a' = a → count_range a' b' (λ i, (c <=? i) && (i <? d)) =
    Z.max 0 (Z.min b' d - c)) as H; [|rewrite (H a b eq_refl); lia].
  apply (range_ind (λ a' b', _ → _)); intros a' b' Hle.
  - intros ->. rewrite count_range_nil by done. lia.
  - intros IH ->. rewrite count_range_snoc, IH by done.
    destruct (c <=? b') eqn:?, (b' <? d) eqn:?; cbn; lia.
Qed.

Lemma count_range_point a b p f g :
  a ≤ p < b → f p = true → g p = false → (∀ i, a ≤ i < b → i ≠ p → f i = g i) →
  count_range a b f = count_range a b g + 1.
Proof.
  intros Hp Hf Hg Heq.
  rewrite (count_range_sum a b f g (λ i, (p <=? i) && (i <? p + 1))).
  - rewrite count_range_interval by lia. lia.
  - intros i Hi. destruct (decide (i = p)) as [->|Hne].
    + rewrite Hf, Hg. cbn. lia.
    + rewrite Heq by done. destruct (g i); cbn; lia.
  - intros i Hi. destruct (decide (i = p)) as [->|Hne]; [by rewrite Hg|].
    destruct (g i); cbn; lia.
Qed.
End Counting.

(** Sums over a range. *)
Definition sum_range (first last : Z) (f : Z → Z) : Z := for_range first last (λ i n, n + f i) 0.

Section Sums.
Implicit Types (f g : Z → Z) (a b p : Z).

Lemma sum_range_snoc a b f : a ≤ b → sum_range a (b + 1) f = sum_range a b f + f b.
Proof. intros. unfold sum_range. by rewrite for_range_snoc. Qed.
Lemma sum_range_ext a b f g : (∀ i, a ≤ i < b → f i = g i) → sum_range a b f = sum_range a b g.
Proof. intros H. apply for_range_ext. intros i t Hi. by rewrite H. Qed.
Lemma sum_range_all_zero a b f : (∀ i, a ≤ i < b → f i = 0) → sum_range a b f = 0.
Proof. intros H. unfold sum_range. apply (for_range_pres (λ n, n = 0)); [done|]. intros i n Hi ->. by rewrite H. Qed.
Lemma sum_range_point a b p f g : a ≤ p < b → (∀ i, a ≤ i < b → i ≠ p → f i = g i) →
  sum_range a b f = sum_range a b g + (f p - g p).
Proof.
  revert a b; apply (range_ind (λ a b, _ → _ → _)); intros a b Hab; [lia|]. intros IH Hp Heq. rewrite !sum_range_snoc by done.
  destruct (decide (p = b)) as [->|].
  - rewrite (sum_range_ext a b f g) by (intros; apply Heq; lia). lia.
  - rewrite IH, (Heq b) by (lia || (intros; apply Heq; lia)). lia.
Qed.
Lemma sum_range_zero a b f : (∀ i, a ≤ i < b → 0 ≤ f i) → 0 < sum_range a b f → ∃ i, a ≤ i < b ∧ 0 < f i.
Proof.
  revert a b; apply (range_ind (λ a b, _ → _ → _)); intros a b Hab.
  - intros _. unfold sum_range. rewrite for_range_nil by done. lia.
  - intros IH H0. rewrite sum_range_snoc by done. intros Hs. destruct (decide (0 < f b)); [exists b; split; [lia|done]|].
    destruct IH as (i & Hi & Hf); [intros; apply H0; lia|specialize (H0 b ltac:(lia)); lia|]. exists i. split; [lia|done].
Qed.
Lemma sum_range_bounds a b f hi : a ≤ b → (∀ i, a ≤ i < b → 0 ≤ f i ≤ hi) → 0 ≤ sum_range a b f ≤ hi * (b - a).
Proof.
  revert a b; apply (range_ind (λ a b, _ → _ → _)); intros a b Hab.
  - intros ? _. unfold sum_range. rewrite for_range_nil by done. replace (b - a) with 0 by lia. lia.
  - intros IH _ H0. rewrite sum_range_snoc by done. specialize (IH Hab ltac:(intros; apply H0; lia)). specialize (H0 b ltac:(lia)). nia.
Qed.
Lemma sum_range_each_zero a b f : (∀ i, a ≤ i < b → 0 ≤ f i) → sum_range a b f = 0 → ∀ i, a ≤ i < b → f i = 0.
Proof.
  revert a b; apply (range_ind (λ a b, (∀ i, a ≤ i < b → 0 ≤ f i) → sum_range a b f = 0 → ∀ i, a ≤ i < b → f i = 0)); intros a b Hab; [intros; lia|]. intros IH H0. rewrite sum_range_snoc by done. intros Hs i Hi.
  assert (0 ≤ sum_range a b f) as Hn.
  { unfold sum_range. apply (for_range_pres (λ n, 0 ≤ n)); [done|]. intros j t Hj Ht. specialize (H0 j ltac:(lia)). lia. }
  pose proof (H0 b ltac:(lia)). destruct (decide (i = b)) as [->|]; [lia|]. apply IH; [intros; apply H0; lia|lia|lia].
Qed.
End Sums.

(** ** Masks and bits *)

Lemma mask_testbit w b : 0 ≤ b → negb (Z.land w (Z.shiftl 1 b) =? 0) = Z.testbit w b.
Proof.
  intros Hb. destruct (Z.testbit w b) eqn:E.
  - destruct (Z.eqb_spec (Z.land w (Z.shiftl 1 b)) 0) as [H|H]; [|done].
    assert (Z.testbit (Z.land w (Z.shiftl 1 b)) b = true) as H1.
    { rewrite Z.land_spec, E, Z.shiftl_spec, Z.sub_diag by done. done. }
    by rewrite H, Z.testbit_0_l in H1.
  - enough (Z.land w (Z.shiftl 1 b) = 0) as -> by done.
    apply Z.bits_inj'. intros n Hn. rewrite Z.land_spec, Z.shiftl_spec, Z.testbit_0_l by done.
    destruct (decide (n = b)) as [->|]; [by rewrite E|].
    rewrite <- (Z.pow_0_r 2), Z.pow2_bits_false by lia. apply andb_false_r.
Qed.

Lemma shiftl1_testbit b n : 0 ≤ b → 0 ≤ n → Z.testbit (Z.shiftl 1 b) n = (n =? b).
Proof.
  intros. rewrite Z.shiftl_spec, <- (Z.pow_0_r 2), Z.pow2_bits_eqb by lia.
  destruct (Z.eqb_spec 0 (n - b)), (Z.eqb_spec n b); done || lia.
Qed.

Lemma uint32_max_testbit n : 0 ≤ n < 32 → Z.testbit UINT32_MAX n = true.
Proof. intros. change UINT32_MAX with (Z.ones 32). apply Z.ones_spec_low; lia. Qed.

(** A low part and a shifted high part do not overlap. *)
Lemma lor_shiftl a b n : 0 ≤ n → 0 ≤ a < 2 ^ n → Z.lor a (Z.shiftl b n) = a + b * 2 ^ n.
Proof.
  intros Hn Ha. rewrite <- Z.shiftl_mul_pow2 by done.
  assert (Z.land a (Z.shiftl b n) = 0) as H0.
  { apply Z.bits_inj'. intros i Hi. rewrite Z.land_spec, Z.shiftl_spec, Z.testbit_0_l by done.
    destruct (decide (i < n)) as [Hlt|Hge].
    - rewrite (Z.testbit_neg_r b) by lia. apply andb_false_r.
    - destruct (decide (a = 0)) as [->|]; [by rewrite Z.testbit_0_l|].
      assert (Z.log2 a < n) by (apply Z.log2_lt_pow2; lia). rewrite (Z.bits_above_log2 a) by lia. done. }
  by rewrite <- Z.lxor_lor, Z.add_nocarry_lxor.
Qed.

Lemma wrap32_small x : 0 ≤ x ≤ UINT32_MAX → wrap32 x = x.
Proof. intros. apply Z.mod_small. unfold UINT32_MAX in *. lia. Qed.
Lemma wrap32_bound x : 0 ≤ wrap32 x ≤ UINT32_MAX.
Proof. unfold wrap32, UINT32_MAX. pose proof (Z.mod_pos_bound x 0x100000000). lia. Qed.

(** ** Attempts: what a sequence of attempts preserves or establishes *)

Section AttemptLemmas.
Context {S : Type}.
Implicit Types (m : attempt S) (R : S → S → Prop) (P : S → Prop).

(** [m] relates its input and output states by the preorder [R]. *)
Definition moves R m : Prop := ∀ s, R s (snd (m s)).

Lemma moves_check R `{!Reflexive R} b : moves R (check b).
Proof. intros s. cbn. reflexivity. Qed.
Lemma moves_and_then R `{!Transitive R} m1 m2 : moves R m1 → moves R m2 → moves R (m1 &&> m2).
Proof.
  intros H1 H2 s. unfold and_then. specialize (H1 s).
  destruct (m1 s) as [[] s']; cbn in *; [|done]. by transitivity s'.
Qed.
Lemma moves_when R `{!Reflexive R} b m : moves R m → moves R (when b m).
Proof. intros H s. unfold when. destruct b; [apply H|cbn; reflexivity]. Qed.

(** A successful run of [m] ends in a state satisfying [P]. *)
Definition ensures m P : Prop := ∀ s s', m s = (true, s') → P s'.

Lemma ensures_l R m1 m2 P :
  (∀ s s', R s s' → P s → P s') → moves R m2 → ensures m1 P → ensures (m1 &&> m2) P.
Proof.
  intros Hcl H2 H1 s s'. unfold and_then. destruct (m1 s) as [[] t] eqn:E; [|done].
  intros E2. specialize (H2 t). rewrite E2 in H2. eapply Hcl; [exact H2|]. by apply (H1 s).
Qed.
Lemma ensures_r m1 m2 P : ensures m2 P → ensures (m1 &&> m2) P.
Proof. intros H2 s s'. unfold and_then. destruct (m1 s) as [[] t]; [|done]. apply H2. Qed.
Lemma ensures_when b m P : b = true → ensures m P → ensures (when b m) P.
Proof. by intros ->. Qed.

Lemma and_then_true m1 m2 s s' :
  (m1 &&> m2) s = (true, s') → ∃ t, m1 s = (true, t) ∧ m2 t = (true, s').
Proof. unfold and_then. destruct (m1 s) as [[] t]; intros; [eauto|done]. Qed.
End AttemptLemmas.

Create HintDb rum.
#[export] Hint Resolve moves_and_then moves_when moves_check : rum.

Lemma pair_true {A : Type} (x : bool * A) : fst x = true → x = (true, snd x).
Proof. by destruct x as [[] a]. Qed.

Lemma Forall_mid {A : Type} (P : A → Prop) l1 x l2 : Forall P (l1 ++ x :: l2) → P x.
Proof. intros [_ H]%Forall_app. by inversion H. Qed.
