(* ===== verification/Memory.v ===== *)
(** * Memory primitives (kernel/core/memory.c)

    The four byte loops, on one memory, so that source and destination may overlap. The
    components model these calls as updates of arrays; here is why they may. Objects do
    not wrap around the address space, so addresses are not reduced. *)

From S2P Require Import Prelude.

(** ** Operations *)

Definition memcpy (destination source length : Z) (m : gmap Z Z) : gmap Z Z :=
  for_range 0 length (λ i m, aset m (destination + i) (aget m (source + i))) m.
Definition memmove (destination source length : Z) (m : gmap Z Z) : gmap Z Z :=
  if destination <? source then for_range 0 length (λ i m, aset m (destination + i) (aget m (source + i))) m
  else for_range 0 length (λ k m, let i := length - k in aset m (destination + (i - 1)) (aget m (source + (i - 1)))) m.
Definition memset (destination value length : Z) (m : gmap Z Z) : gmap Z Z :=
  for_range 0 length (λ i m, aset m (destination + i) (wrap8 value)) m.
Fixpoint memcmp_loop (n : nat) (left right : Z) (m : gmap Z Z) : Z :=
  match n with
  | O => 0
  | S n => if negb (aget m left =? aget m right) then aget m left - aget m right else memcmp_loop n (left + 1) (right + 1) m
  end.
Definition memcmp (left right length : Z) (m : gmap Z Z) : Z := memcmp_loop (Z.to_nat length) left right m.

(** ** Copies *)

Lemma get_set (m : gmap Z Z) i v j : aget (aset m i v) j = if decide (j = i) then v else aget m j.
Proof. unfold aget, aset. destruct (decide (j = i)) as [->|]; [by rewrite lookup_insert_eq|by rewrite lookup_insert_ne]. Qed.
(** The bytes from [source] on, moved to [destination]. *)
Definition moved (destination source length : Z) (m : gmap Z Z) (j : Z) : Z :=
  if decide (destination ≤ j < destination + length) then aget m (source + (j - destination)) else aget m j.
(** Upwards it is right unless the destination begins inside the source. *)
Lemma copy_up d s n m : 0 ≤ n → d ≤ s ∨ s + n ≤ d → ∀ j, aget (memcpy d s n m) j = moved d s n m j.
Proof.
  intros Hn Ho. unfold memcpy. refine (for_range_inv (λ i t, i ≤ n → ∀ j, aget t j = moved d s i m j) 0 n _ m Hn _ _ ltac:(lia)).
  - intros _ j. unfold moved. destruct (decide _); [lia|done].
  - intros i t Hi H Hin j. rewrite get_set, !H by lia. unfold moved. repeat destruct (decide _); subst; try lia; try done; f_equal; lia.
Qed.
Lemma copy_down d s n m : 0 ≤ n → s ≤ d → ∀ j,
  aget (for_range 0 n (λ k m, let i := n - k in aset m (d + (i - 1)) (aget m (s + (i - 1)))) m) j = moved d s n m j.
Proof.
  intros Hn Ho j. match goal with |- aget (for_range 0 n ?body m) j = _ =>
    assert (∀ j, aget (for_range 0 n body m) j = if decide (d + (n - n) ≤ j < d + n) then aget m (s + (j - d)) else aget m j) as H end.
  { refine (for_range_inv (λ k t, ∀ j, aget t j = if decide (d + (n - k) ≤ j < d + n) then aget m (s + (j - d)) else aget m j) 0 n _ m Hn _ _).
    - intros i. destruct (decide _); [lia|done].
    - intros k t Hk H i. cbv zeta. rewrite get_set, !H. repeat destruct (decide _); subst; try lia; try done; f_equal; lia. }
  rewrite H. unfold moved. repeat destruct (decide _); lia || done.
Qed.
Lemma memcmp_loop_spec n l r m : let v := memcmp_loop n l r m in
  (v = 0 ↔ ∀ i, 0 ≤ i < Z.of_nat n → aget m (l + i) = aget m (r + i)) ∧
  (v ≠ 0 → ∃ i, 0 ≤ i < Z.of_nat n ∧ (∀ j, 0 ≤ j < i → aget m (l + j) = aget m (r + j)) ∧ v = aget m (l + i) - aget m (r + i)).
Proof.
  revert l r. induction n as [|n IH]; intros l r; cbn [memcmp_loop]; [split; [split; [lia|done]|done]|]. destruct (Z.eqb_spec (aget m l) (aget m r)) as [E|N]; cbn [negb].
  - destruct (IH (l + 1) (r + 1)) as [A B]. split.
    + rewrite A. split; intros H i Hi.
      * destruct (Z.eq_dec i 0) as [->|]; [by rewrite !Z.add_0_r|]. specialize (H (i - 1) ltac:(lia)). by replace (l + 1 + (i - 1)) with (l + i) in H by lia; replace (r + 1 + (i - 1)) with (r + i) in H by lia.
      * specialize (H (i + 1) ltac:(lia)). by replace (l + (i + 1)) with (l + 1 + i) in H by lia; replace (r + (i + 1)) with (r + 1 + i) in H by lia.
    + intros V. destruct (B V) as (i & Hi & Hj & ->). exists (i + 1). split; [lia|]. split; [|f_equal; f_equal; lia].
      intros j Hjj. destruct (Z.eq_dec j 0) as [->|]; [by rewrite !Z.add_0_r|]. specialize (Hj (j - 1) ltac:(lia)). by replace (l + 1 + (j - 1)) with (l + j) in Hj by lia; replace (r + 1 + (j - 1)) with (r + j) in Hj by lia.
  - split; [split; [lia|intros H; exfalso; apply N; specialize (H 0 ltac:(lia)); by rewrite !Z.add_0_r in H]|]. intros _. exists 0. rewrite !Z.add_0_r. split; [lia|]. split; [lia|done].
Qed.

(** The primitives do what their names say. [memmove] moves the bytes however the two
    ranges lie, and changes nothing outside; [memcpy] does so when the destination does
    not begin inside the source; [memset] fills exactly its range; [memcmp] is zero
    exactly when the ranges agree, and is otherwise the difference at the first byte
    where they do not. *)
Theorem memory_primitives_exact (d s n v : Z) (m : gmap Z Z) : 0 ≤ n →
  (∀ j, aget (memmove d s n m) j = moved d s n m j) ∧
  (d ≤ s ∨ s + n ≤ d → ∀ j, aget (memcpy d s n m) j = moved d s n m j) ∧
  (∀ j, aget (memset d v n m) j = if decide (d ≤ j < d + n) then wrap8 v else aget m j) ∧
  (memcmp d s n m = 0 ↔ ∀ i, 0 ≤ i < n → aget m (d + i) = aget m (s + i)) ∧
  (memcmp d s n m ≠ 0 → ∃ i, 0 ≤ i < n ∧ (∀ j, 0 ≤ j < i → aget m (d + j) = aget m (s + j)) ∧ memcmp d s n m = aget m (d + i) - aget m (s + i)).
Proof.
  intros Hn. split_and!.
  - unfold memmove. destruct (Z.ltb_spec d s); [apply copy_up; [done|lia]|by apply copy_down].
  - intros Ho. by apply copy_up.
  - unfold memset. refine (for_range_inv (λ i t, ∀ j, aget t j = if decide (d ≤ j < d + i) then wrap8 v else aget m j) 0 n _ m Hn _ _).
    + intros j. destruct (decide _); [lia|done].
    + intros i t Hi H j. rewrite get_set, H. repeat destruct (decide _); lia || done.
  - pose proof (memcmp_loop_spec (Z.to_nat n) d s m) as [A _]. rewrite Z2Nat.id in A by lia. exact A.
  - pose proof (memcmp_loop_spec (Z.to_nat n) d s m) as [_ B]. rewrite Z2Nat.id in B by lia. exact B.
Qed.
