(* ===== verification/Pmm.v ===== *)
(** * Physical page allocator (kernel/mm/pmm.c)

    Two bitmaps of 4 KiB pages below 1 GiB, [managed] (pages the kernel may
    hand out) and [allocated], with counters and a next-fit cursor. The boot
    half validates a Multiboot memory map and reserves every boot structure;
    the run-time half allocates and frees single pages and contiguous runs.
    [PmmSpec] is the contract: a set of owned pages inside a fixed pool. *)

From S2P Require Import Prelude.

(** ** Constants (pmm.h, memory_layout.h) *)

Definition PAGE_SIZE : Z := 0x1000.
Definition RUM_LOW_RESERVED_END : Z := 0x100000.
Definition PMM_PHYSICAL_LIMIT : Z := 0x40000000.
Definition PAGE_COUNT : Z := 0x40000. (* PMM_PHYSICAL_LIMIT / PAGE_SIZE *)
Definition ADDRESS_SPACE_END : Z := 0x100000000.
Definition MULTIBOOT_MEMORY_MAP : Z := 0x40.

(** ** Multiboot structures (multiboot.h)

    [mem a] is the byte of physical memory at address [a]; records hold the
    decoded fields of the packed little-endian structures. *)

Definition memory : Type := Z → Z.
Definition load16 (mem : memory) (a : Z) : Z := mem a + 0x100 * mem (a + 1).
Definition load32 (mem : memory) (a : Z) : Z := load16 mem a + 0x10000 * load16 mem (a + 2).
Definition load64 (mem : memory) (a : Z) : Z := load32 mem a + 0x100000000 * load32 mem (a + 4).

Record multiboot_info := MultibootInfo {
  flags : Z; cmdline : Z; mods_count : Z; mods_addr : Z;
  symbols0 : Z; symbols1 : Z; symbols2 : Z;
  mmap_length : Z; mmap_addr : Z; drives_length : Z; drives_addr : Z;
  config_table : Z; boot_loader_name : Z; apm_table : Z;
  vbe_control_info : Z; vbe_mode_info : Z;
  vbe_interface_seg : Z; vbe_interface_off : Z; vbe_interface_len : Z;
  framebuffer_addr : Z; framebuffer_pitch : Z; framebuffer_height : Z;
  framebuffer_type : Z; framebuffer_color_info : Z (* address of the six bytes *)
}.
Definition sizeof_multiboot_info : Z := 116.
Definition sizeof_multiboot_module : Z := 16.
Definition sizeof_multiboot_mmap_entry : Z := 24.

(** The structure a boot loader left at physical address [a]. *)
Definition multiboot_info_at (mem : memory) (a : Z) : multiboot_info := {|
  flags := load32 mem a; cmdline := load32 mem (a + 16);
  mods_count := load32 mem (a + 20); mods_addr := load32 mem (a + 24);
  symbols0 := load32 mem (a + 28); symbols1 := load32 mem (a + 32); symbols2 := load32 mem (a + 36);
  mmap_length := load32 mem (a + 44); mmap_addr := load32 mem (a + 48);
  drives_length := load32 mem (a + 52); drives_addr := load32 mem (a + 56);
  config_table := load32 mem (a + 60); boot_loader_name := load32 mem (a + 64);
  apm_table := load32 mem (a + 68);
  vbe_control_info := load32 mem (a + 72); vbe_mode_info := load32 mem (a + 76);
  vbe_interface_seg := load16 mem (a + 82); vbe_interface_off := load16 mem (a + 84);
  vbe_interface_len := load16 mem (a + 86);
  framebuffer_addr := load64 mem (a + 88); framebuffer_pitch := load32 mem (a + 96);
  framebuffer_height := load32 mem (a + 104);
  framebuffer_type := mem (a + 109); framebuffer_color_info := a + 110 |}.

Record multiboot_mmap_entry := MmapEntry {
  entry_size : Z; entry_address : Z; entry_length : Z; entry_type : Z
}.
Definition mmap_entry_at (mem : memory) (a : Z) : multiboot_mmap_entry := {|
  entry_size := load32 mem a; entry_address := load64 mem (a + 4);
  entry_length := load64 mem (a + 12); entry_type := load32 mem (a + 20) |}.

(** ** Static state *)

Record pmm := Pmm {
  managed : gmap Z Z; allocated : gmap Z Z;
  usable_pages : Z; managed_pages : Z; free_pages : Z; limit : Z;
  next_page : Z; ready : bool
}.
Record pmm_statistics := PmmStatistics {
  st_usable_pages : Z; st_managed_pages : Z; st_free_pages : Z; st_limit : Z
}.

Definition set_next_page (n : Z) (s : pmm) : pmm :=
  Pmm (managed s) (allocated s) (usable_pages s) (managed_pages s) (free_pages s) (limit s) n (ready s).
Definition set_allocated (a : gmap Z Z) (s : pmm) : pmm :=
  Pmm (managed s) a (usable_pages s) (managed_pages s) (free_pages s) (limit s) (next_page s) (ready s).
Definition set_free_pages (n : Z) (s : pmm) : pmm :=
  Pmm (managed s) (allocated s) (usable_pages s) (managed_pages s) n (limit s) (next_page s) (ready s).

(** ** Bitmaps *)

Definition bit (bitmap : gmap Z Z) (page : Z) : bool :=
  negb (Z.land (aget bitmap (page / 32)) (Z.shiftl 1 (page mod 32)) =? 0).

Definition set_bit (bitmap : gmap Z Z) (page : Z) (value : bool) : gmap Z Z :=
  let mask := Z.shiftl 1 (page mod 32) in
  let word := aget bitmap (page / 32) in
  if value then aset bitmap (page / 32) (Z.lor word mask)
  else aset bitmap (page / 32) (Z.land word (not32 mask)).

(** [for (page = first; page < last; ++page) set_bit(bitmap, page, value)] *)
Definition set_bits (bitmap : gmap Z Z) (first last : Z) (value : bool) : gmap Z Z :=
  for_range first last (λ page m, set_bit m page value) bitmap.

(** ** Boot: ranges and reservations. The state is the [managed] bitmap. *)

Definition range (start end_ : Z) (usable : bool) (m : gmap Z Z) : gmap Z Z :=
  if start >=? PMM_PHYSICAL_LIMIT then m else
  let end_ := if end_ >? PMM_PHYSICAL_LIMIT then PMM_PHYSICAL_LIMIT else end_ in
  let first := if usable then (start + PAGE_SIZE - 1) / PAGE_SIZE else start / PAGE_SIZE in
  let last := if usable then end_ / PAGE_SIZE else (end_ + PAGE_SIZE - 1) / PAGE_SIZE in
  set_bits m first last usable.

Definition reserve (address bytes : Z) : attempt (gmap Z Z) := λ m,
  if (address >=? ADDRESS_SPACE_END) || (bytes >? ADDRESS_SPACE_END - address) then (false, m)
  else (true, if bytes =? 0 then m else range address (address + bytes) false m).

Fixpoint reserve_string_loop (fuel : nat) (mem : memory) (address size : Z) : attempt (gmap Z Z) :=
  match fuel with
  | O => check false
  | S fuel =>
      if (size <? PAGE_SIZE) && (address + size <? ADDRESS_SPACE_END) then
        if mem (address + size) =? 0 then reserve address (size + 1)
        else reserve_string_loop fuel mem address (size + 1)
      else check false
  end.
Definition reserve_string (mem : memory) (address : Z) : attempt (gmap Z Z) :=
  if address =? 0 then check true
  else reserve_string_loop (Z.to_nat PAGE_SIZE + 1) mem address 0.

(** What one pass does with one entry: mark or reserve its pages if the
    pass is about its kind. *)
Definition map_entry (available : bool) (entry : multiboot_mmap_entry) (m : gmap Z Z) : gmap Z Z :=
  if negb (entry_length entry =? 0) && Bool.eqb (entry_type entry =? 1) available
  then range (entry_address entry) (entry_address entry + entry_length entry) available m
  else m.

(** One pass over the memory map; every entry is at least 24 bytes long, so
    [mmap_length] iterations are enough. *)
Fixpoint map_pass_loop (fuel : nat) (mem : memory) (info : multiboot_info)
    (available : bool) (offset : Z) : attempt (gmap Z Z) :=
  match fuel with
  | O => check true
  | S fuel => λ m,
      if offset <? mmap_length info then
        if mmap_length info - offset <? sizeof_multiboot_mmap_entry then (false, m) else
        let entry := mmap_entry_at mem (mmap_addr info + offset) in
        let stride := entry_size entry + 4 in
        if (entry_size entry <? 20) || (stride >? mmap_length info - offset) ||
           (entry_length entry >? UINT64_MAX - entry_address entry) then (false, m) else
        map_pass_loop fuel mem info available (offset + stride) (map_entry available entry m)
      else (true, m)
  end.
Definition map_pass (mem : memory) (info : multiboot_info) (available : bool) : attempt (gmap Z Z) :=
  map_pass_loop (S (Z.to_nat (mmap_length info))) mem info available 0.

Definition flag (info : multiboot_info) (n : Z) : bool :=
  negb (Z.land (flags info) (Z.shiftl 1 n) =? 0).

Fixpoint reserve_modules (n : nat) (mem : memory) (info : multiboot_info) (i : Z) : attempt (gmap Z Z) :=
  match n with
  | O => check true
  | S n =>
      let a := mods_addr info + i * sizeof_multiboot_module in
      let start := load32 mem a in let end_ := load32 mem (a + 4) in let string := load32 mem (a + 8) in
      check (negb (end_ <? start)) &&> reserve start (end_ - start) &&> reserve_string mem string &&>
      reserve_modules n mem info (i + 1)
  end.

Fixpoint reserve_sections (n : nat) (mem : memory) (info : multiboot_info) (i : Z) : attempt (gmap Z Z) :=
  match n with
  | O => check true
  | S n =>
      let a := symbols2 info + wrap32 (i * symbols1 info) in
      let address := load32 mem (wrap32 (a + 12)) in let size := load32 mem (wrap32 (a + 20)) in
      when (negb (address =? 0)) (reserve address size) &&>
      reserve_sections n mem info (i + 1)
  end.

Definition reserve_framebuffer (mem : memory) (info : multiboot_info) : attempt (gmap Z Z) :=
  let bytes := framebuffer_pitch info * framebuffer_height info in
  check (negb (bytes >? UINT64_MAX - framebuffer_addr info)) &&>
  when (negb (bytes =? 0))
    (λ m, (true, range (framebuffer_addr info) (framebuffer_addr info + bytes) false m)) &&>
  when (framebuffer_type info =? 0)
    (reserve (load32 mem (framebuffer_color_info info))
             (load16 mem (framebuffer_color_info info + 4) * 3)).

Definition reserve_boot_data (mem : memory) (address : Z) (info : multiboot_info) : attempt (gmap Z Z) :=
  reserve address sizeof_multiboot_info &&>
  reserve (mmap_addr info) (mmap_length info) &&>
  when (flag info 2) (reserve_string mem (cmdline info)) &&>
  when (flag info 9) (reserve_string mem (boot_loader_name info)) &&>
  when (flag info 3)
    (let bytes := mods_count info * sizeof_multiboot_module in
     check (negb (negb (bytes =? 0) && (mods_addr info =? 0))) &&>
     reserve (mods_addr info) bytes &&>
     reserve_modules (Z.to_nat (mods_count info)) mem info 0) &&>
  check (negb (Z.land (flags info) 0x30 =? 0x30)) &&>
  when (flag info 4) (reserve (symbols2 info) (symbols0 info + symbols1 info)) &&>
  when (flag info 5)
    (let bytes := symbols0 info * symbols1 info in
     check (negb (negb (bytes =? 0) && ((symbols2 info =? 0) || (symbols1 info <? 40)))) &&>
     reserve (symbols2 info) bytes &&>
     reserve_sections (Z.to_nat (symbols0 info)) mem info 0) &&>
  when (flag info 7) (reserve (drives_addr info) (drives_length info)) &&>
  when (flag info 8 && negb (config_table info =? 0))
    (check (negb (config_table info + 2 >? ADDRESS_SPACE_END)) &&>
     reserve (config_table info) (load16 mem (config_table info) + 2)) &&>
  when (flag info 10) (reserve (apm_table info) 20) &&>
  when (flag info 11)
    (reserve (vbe_control_info info) 512 &&> reserve (vbe_mode_info info) 256 &&>
     reserve (vbe_interface_seg info * 16 + vbe_interface_off info) (vbe_interface_len info)) &&>
  when (flag info 12) (reserve_framebuffer mem info).

(** End of the highest managed page, zero if there is none: the loop of
    pmm_initialize that assigns [statistics.limit]. *)
Definition highest_limit (m : gmap Z Z) : Z :=
  for_range 0 PAGE_COUNT (λ page l, if bit m page then (page + 1) * PAGE_SIZE else l) 0.

Definition pmm_reset (s : pmm) : pmm := Pmm ∅ ∅ 0 0 0 0 (next_page s) false.

(** [address = 0] is the NULL pointer. *)
Definition pmm_initialize (mem : memory) (address kernel_start kernel_end : Z) (s : pmm) : bool * pmm :=
  let s := pmm_reset s in
  let info := multiboot_info_at mem address in
  if (address =? 0) || (address + sizeof_multiboot_info >? ADDRESS_SPACE_END) ||
     (Z.land (flags info) MULTIBOOT_MEMORY_MAP =? 0) || (mmap_addr info =? 0) || (mmap_length info =? 0) ||
     (mmap_addr info + mmap_length info >? ADDRESS_SPACE_END) ||
     (kernel_end <? kernel_start) || (kernel_end >? PMM_PHYSICAL_LIMIT) then (false, s) else
  let '(ok, m) := (map_pass mem info true &&> map_pass mem info false) ∅ in
  let s := Pmm m ∅ 0 0 0 0 (next_page s) false in
  if negb ok then (false, s) else
  let kernel_first := kernel_start / PAGE_SIZE in
  let kernel_last := (kernel_end + PAGE_SIZE - 1) / PAGE_SIZE in
  if negb (all_range kernel_first kernel_last (bit m)) then (false, s) else
  let usable := count_range 0 PAGE_COUNT (bit m) in
  let limit := highest_limit m in
  let s := Pmm m ∅ usable 0 0 limit (next_page s) false in
  if limit =? 0 then (false, s) else
  let '(ok, m) := (reserve 0 RUM_LOW_RESERVED_END &&>
                   reserve kernel_start (kernel_end - kernel_start) &&>
                   reserve_boot_data mem address info) m in
  if negb ok then (false, Pmm m ∅ usable 0 0 limit (next_page s) false) else
  let managed_pages := count_range 0 (limit / PAGE_SIZE) (bit m) in
  (true, Pmm m ∅ usable managed_pages managed_pages limit (RUM_LOW_RESERVED_END / PAGE_SIZE) true).

(** ** Run time *)

Definition page_free (s : pmm) (page : Z) : bool :=
  bit (managed s) page && negb (bit (allocated s) page).

Fixpoint allocate_scan (fuel : nat) (pages : Z) (s : pmm) : Z * pmm :=
  match fuel with
  | O => (0, s)
  | S fuel =>
      let page := next_page s in
      let s := set_next_page ((next_page s + 1) mod pages) s in
      if page_free s page then
        (page * PAGE_SIZE,
         set_free_pages (wrap32 (free_pages s - 1)) (set_allocated (set_bit (allocated s) page true) s))
      else allocate_scan fuel pages s
  end.
Definition pmm_allocate_page (s : pmm) : Z * pmm :=
  if ready s && negb (free_pages s =? 0) then
    let pages := limit s / PAGE_SIZE in allocate_scan (Z.to_nat pages) pages s
  else (0, s).

Definition pmm_is_managed (s : pmm) (physical : Z) : bool :=
  ready s && (physical mod PAGE_SIZE =? 0) && (physical <? limit s) && bit (managed s) (physical / PAGE_SIZE).

Definition pmm_is_allocated (s : pmm) (physical : Z) : bool :=
  pmm_is_managed s physical && bit (allocated s) (physical / PAGE_SIZE).

Fixpoint contiguous_scan (fuel : nat) (count run page : Z) (s : pmm) : Z * pmm :=
  match fuel with
  | O => (0, s)
  | S fuel =>
      let run := if page_free s page then run + 1 else 0 in
      if run =? count then
        let first := page + 1 - count in
        (first * PAGE_SIZE,
         set_free_pages (wrap32 (free_pages s - count))
           (set_allocated (set_bits (allocated s) first (page + 1) true) s))
      else contiguous_scan fuel count run (page + 1) s
  end.
Definition pmm_allocate_contiguous (count : Z) (s : pmm) : Z * pmm :=
  if ready s && negb (count =? 0) && (count <=? free_pages s) then
    let pages := limit s / PAGE_SIZE in
    let first := RUM_LOW_RESERVED_END / PAGE_SIZE in
    contiguous_scan (Z.to_nat (pages - first)) count 0 first s
  else (0, s).

Definition pmm_free_contiguous (physical count : Z) (s : pmm) : bool * pmm :=
  let first := physical / PAGE_SIZE in
  let valid := ready s && negb (count =? 0) && (physical mod PAGE_SIZE =? 0) && (physical <? limit s) &&
               (count <=? (limit s - physical) / PAGE_SIZE) in
  let valid := valid && all_range first (first + count) (λ page, bit (managed s) page && bit (allocated s) page) in
  if valid then
    let s := set_free_pages (wrap32 (free_pages s + count))
               (set_allocated (set_bits (allocated s) first (first + count) false) s) in
    (true, if first <? next_page s then set_next_page first s else s)
  else (false, s).

Definition pmm_free_page (physical : Z) (s : pmm) : bool * pmm :=
  if pmm_is_allocated s physical then
    let page := physical / PAGE_SIZE in
    let s := set_free_pages (wrap32 (free_pages s + 1))
               (set_allocated (set_bit (allocated s) page false) s) in
    (true, if page <? next_page s then set_next_page page s else s)
  else (false, s).

Definition pmm_stats (s : pmm) : pmm_statistics :=
  if ready s then PmmStatistics (usable_pages s) (managed_pages s) (free_pages s) (limit s)
  else PmmStatistics 0 0 0 0.

(** ** Bitmap lemmas *)

Lemma bit_testbit m p : bit m p = Z.testbit (aget m (p / 32)) (p mod 32).
Proof. apply mask_testbit. pose proof (Z.mod_pos_bound p 32). lia. Qed.

Lemma bit_empty p : bit ∅ p = false.
Proof. rewrite bit_testbit. unfold aget. rewrite lookup_empty. apply Z.testbit_0_l. Qed.

Lemma bit_set_bit m p v q : bit (set_bit m p v) q = if q =? p then v else bit m q.
Proof.
  pose proof (Z.mod_pos_bound p 32 ltac:(lia)). pose proof (Z.mod_pos_bound q 32 ltac:(lia)).
  pose proof (Z.div_mod p 32 ltac:(lia)). pose proof (Z.div_mod q 32 ltac:(lia)).
  rewrite !bit_testbit. unfold set_bit, aget, aset.
  destruct (decide (q / 32 = p / 32)) as [Hw|Hw].
  - replace (q =? p) with (q mod 32 =? p mod 32)
      by (destruct (Z.eqb_spec (q mod 32) (p mod 32)), (Z.eqb_spec q p); congruence || lia).
    rewrite Hw. destruct v; rewrite lookup_insert_eq; cbn [default id].
    + rewrite Z.lor_spec, shiftl1_testbit by lia. destruct (_ =? _); [apply orb_true_r|apply orb_false_r].
    + unfold not32. rewrite Z.land_spec, Z.lxor_spec, shiftl1_testbit, uint32_max_testbit by lia.
      destruct (_ =? _); cbn; [apply andb_false_r|apply andb_true_r].
  - replace (q =? p) with false by (destruct (Z.eqb_spec q p); congruence).
    destruct v; by rewrite lookup_insert_ne.
Qed.

Lemma bit_set_bits m a b v q :
  bit (set_bits m a b v) q = if (a <=? q) && (q <? b) then v else bit m q.
Proof.
  unfold set_bits. destruct (decide (a ≤ b)).
  - apply (for_range_inv (λ i t, bit t q = if (a <=? q) && (q <? i) then v else bit m q)); [done| |].
    + destruct (_ <=? _) eqn:?, (_ <? _) eqn:?; done || lia.
    + intros i t Hi IH. rewrite bit_set_bit, IH.
      destruct (Z.eqb_spec q i), (a <=? q) eqn:?, (q <? i) eqn:?, (q <? i + 1) eqn:?; done || lia.
  - rewrite for_range_nil by lia. destruct (_ <=? _) eqn:?, (_ <? _) eqn:?; done || lia.
Qed.
#[export] Hint Rewrite bit_empty bit_set_bit bit_set_bits : rum.

(** ** The invariant *)

Definition pages (s : pmm) : Z := limit s / PAGE_SIZE.

Record pmm_wf (s : pmm) : Prop := PmmWf {
  wf_ready : ready s = true;
  wf_limit : limit s = pages s * PAGE_SIZE;
  wf_pages : 0 < pages s ≤ PAGE_COUNT;
  wf_managed p : bit (managed s) p = true → 0x100 ≤ p < pages s;
  wf_allocated p : bit (allocated s) p = true → bit (managed s) p = true;
  wf_free : free_pages s = count_range 0 (pages s) (page_free s);
  wf_next : 0 ≤ next_page s < Z.max (pages s) 0x101
}.

(** Every static state the kernel can reach: unready, or well formed. *)
Definition pmm_inv (s : pmm) : Prop := ready s = true → pmm_wf s.

(** ** The contract: a pool of managed pages, some of them free *)

Module PmmSpec.
Record pool := Pool { pool_managed : gset Z; pool_free : gset Z }.

(** [count] consecutive free pages from [first]. *)
Definition run (free : gset Z) (first count : Z) : Prop :=
  ∀ p, first ≤ p < first + count → p ∈ free.
Definition block (first count : Z) : gset Z := list_to_set (seqZ first count).

Inductive op := AllocatePage | AllocateRun (count : Z) | FreePage (physical : Z)
              | FreeRun (physical count : Z).

(** [step o r c c']: the call [o] may return [r] (a boolean as 0 or 1) and
    take the pool from [c] to [c']. Runs are allocated first fit. *)
Inductive step : op → Z → pool → pool → Prop :=
| StepPage m f p : p ∈ f → step AllocatePage (p * PAGE_SIZE) (Pool m f) (Pool m (f ∖ {[p]}))
| StepPageNone m : step AllocatePage 0 (Pool m ∅) (Pool m ∅)
| StepRun m f count a :
    0 < count → run f a count → (∀ a', a' < a → ¬ run f a' count) →
    step (AllocateRun count) (a * PAGE_SIZE) (Pool m f) (Pool m (f ∖ block a count))
| StepRunNone m f count :
    (0 < count → ∀ a, ¬ run f a count) → step (AllocateRun count) 0 (Pool m f) (Pool m f)
| StepFree m f p :
    p ∈ m ∖ f → step (FreePage (p * PAGE_SIZE)) 1 (Pool m f) (Pool m (f ∪ {[p]}))
| StepFreeBad m f a :
    (∀ p, a = p * PAGE_SIZE → p ∉ m ∖ f) → step (FreePage a) 0 (Pool m f) (Pool m f)
| StepFreeRun m f p count :
    0 < count → block p count ⊆ m ∖ f →
    step (FreeRun (p * PAGE_SIZE) count) 1 (Pool m f) (Pool m (f ∪ block p count))
| StepFreeRunBad m f a count :
    (∀ p, a = p * PAGE_SIZE → 0 < count → ¬ block p count ⊆ m ∖ f) →
    step (FreeRun a count) 0 (Pool m f) (Pool m f).
End PmmSpec.

Definition bits_set (m : gmap Z Z) (n : Z) : gset Z :=
  list_to_set (filter (λ p, bit m p = true) (seqZ 0 n)).
Definition free_set (s : pmm) : gset Z :=
  list_to_set (filter (λ p, page_free s p = true) (seqZ 0 (pages s))).
Definition pool_of (s : pmm) : PmmSpec.pool :=
  PmmSpec.Pool (bits_set (managed s) (pages s)) (free_set s).

Definition pmm_exec (o : PmmSpec.op) (s : pmm) : Z * pmm :=
  match o with
  | PmmSpec.AllocatePage => pmm_allocate_page s
  | PmmSpec.AllocateRun count => pmm_allocate_contiguous count s
  | PmmSpec.FreePage a => let '(b, s') := pmm_free_page a s in (Z.b2z b, s')
  | PmmSpec.FreeRun a count => let '(b, s') := pmm_free_contiguous a count s in (Z.b2z b, s')
  end.

(** The arguments of a call are 32-bit unsigned. *)
Definition op_ok (o : PmmSpec.op) : Prop :=
  match o with
  | PmmSpec.AllocatePage => True
  | PmmSpec.AllocateRun n => 0 ≤ n ≤ UINT32_MAX
  | PmmSpec.FreePage a => 0 ≤ a ≤ UINT32_MAX
  | PmmSpec.FreeRun a n => 0 ≤ a ≤ UINT32_MAX ∧ 0 ≤ n ≤ UINT32_MAX
  end.

(** ** Abstraction lemmas *)

Section Abstraction.
Context (s : pmm) (Hwf : pmm_wf s).

Lemma page_free_managed p : page_free s p = true → bit (managed s) p = true.
Proof. unfold page_free. by intros [? _]%andb_true_iff. Qed.

Lemma elem_of_free_set p : p ∈ free_set s ↔ page_free s p = true.
Proof.
  unfold free_set. rewrite elem_of_list_to_set, list_elem_of_filter, elem_of_seqZ.
  split; [tauto|]. intros H. split; [done|].
  pose proof (wf_managed s Hwf p (page_free_managed p H)). lia.
Qed.

Lemma elem_of_managed_set p : p ∈ bits_set (managed s) (pages s) ↔ bit (managed s) p = true.
Proof.
  unfold bits_set. rewrite elem_of_list_to_set, list_elem_of_filter, elem_of_seqZ.
  split; [tauto|]. intros H. split; [done|]. pose proof (wf_managed s Hwf p H). lia.
Qed.

Lemma elem_of_owned p :
  p ∈ bits_set (managed s) (pages s) ∖ free_set s ↔ bit (allocated s) p = true.
Proof.
  rewrite elem_of_difference, elem_of_managed_set, elem_of_free_set. unfold page_free. split.
  - intros [Hm Hf]. rewrite Hm in Hf. by destruct (bit (allocated s) p).
  - intros Ha. rewrite (wf_allocated s Hwf p Ha), Ha. done.
Qed.

Lemma free_set_empty : free_pages s = 0 → free_set s = ∅.
Proof.
  intros H0. apply set_eq. intros p. rewrite elem_of_free_set.
  split; [|set_solver]. intros Hp.
  rewrite (wf_free s Hwf), count_range_zero in H0.
  pose proof (wf_managed s Hwf p (page_free_managed p Hp)).
  rewrite H0 in Hp by lia. done.
Qed.

Lemma free_pages_bound : 0 ≤ free_pages s ≤ PAGE_COUNT.
Proof.
  pose proof (wf_pages s Hwf). rewrite (wf_free s Hwf).
  pose proof (count_range_bounds 0 (pages s) (page_free s)). lia.
Qed.
End Abstraction.

Lemma elem_of_block p a n : p ∈ PmmSpec.block a n ↔ a ≤ p < a + n.
Proof. unfold PmmSpec.block. by rewrite elem_of_list_to_set, elem_of_seqZ. Qed.

(** ** Taking and returning a run of pages *)

Definition take_run (a n : Z) (s : pmm) : pmm :=
  set_free_pages (wrap32 (free_pages s - n)) (set_allocated (set_bits (allocated s) a (a + n) true) s).
Definition give_run (a n : Z) (s : pmm) : pmm :=
  set_free_pages (wrap32 (free_pages s + n)) (set_allocated (set_bits (allocated s) a (a + n) false) s).
Definition free_run (s : pmm) (a n : Z) : Prop := ∀ p, a ≤ p < a + n → page_free s p = true.
Definition owned_run (s : pmm) (a n : Z) : Prop := ∀ p, a ≤ p < a + n → bit (allocated s) p = true.

Lemma set_bits_one m p v : set_bits m p (p + 1) v = set_bit m p v.
Proof. unfold set_bits, for_range. by replace (p + 1 - p) with 1 by lia. Qed.

Lemma set_next_page_wf k s : pmm_wf s → 0 ≤ k < Z.max (pages s) 0x101 → pmm_wf (set_next_page k s).
Proof. intros [] Hk. by constructor. Qed.

Lemma run_in_pages s a n : pmm_wf s → 0 < n → (∀ p, a ≤ p < a + n → bit (managed s) p = true) →
  0x100 ≤ a ∧ a + n ≤ pages s.
Proof.
  intros Hwf Hn H.
  pose proof (wf_managed s Hwf a (H a ltac:(lia))).
  pose proof (wf_managed s Hwf (a + n - 1) (H (a + n - 1) ltac:(lia))). lia.
Qed.

Section TakeGive.
Context (s : pmm) (Hwf : pmm_wf s) (a n : Z) (Hn : 0 < n).

Lemma page_free_take p :
  page_free (take_run a n s) p = page_free s p && negb ((a <=? p) && (p <? a + n)).
Proof.
  unfold page_free, take_run. cbn. rewrite bit_set_bits.
  destruct (bit (managed s) p), (bit (allocated s) p), ((a <=? p) && (p <? a + n)); done.
Qed.
Lemma page_free_give p : owned_run s a n →
  page_free (give_run a n s) p = page_free s p || ((a <=? p) && (p <? a + n)).
Proof.
  intros Ho. unfold page_free, give_run. cbn. rewrite bit_set_bits.
  destruct ((a <=? p) && (p <? a + n)) eqn:E; [|by rewrite orb_false_r].
  rewrite (wf_allocated s Hwf p (Ho p ltac:(lia))). cbn. by rewrite orb_true_r.
Qed.

Lemma take_run_count : free_run s a n → free_pages (take_run a n s) = free_pages s - n ∧
  free_pages s - n = count_range 0 (pages s) (page_free (take_run a n s)).
Proof.
  intros Hf. destruct (run_in_pages s a n Hwf Hn) as [Ha Hb].
  { intros p Hp. by apply page_free_managed, Hf. }
  assert (free_pages s = count_range 0 (pages s) (page_free (take_run a n s)) + n) as Hc.
  { rewrite (wf_free s Hwf).
    rewrite (count_range_sum 0 (pages s) (page_free s) (page_free (take_run a n s))
               (λ i, (a <=? i) && (i <? a + n))).
    - rewrite count_range_interval by lia. lia.
    - intros i Hi. rewrite page_free_take.
      destruct ((a <=? i) && (i <? a + n)) eqn:E; cbn; [|by rewrite andb_true_r, orb_false_r].
      rewrite orb_true_r. apply Hf. lia.
    - intros i Hi. rewrite page_free_take. destruct (_ && (i <? _)); [|by rewrite andb_false_r].
      by rewrite andb_false_r. }
  pose proof (count_range_bounds 0 (pages s) (page_free (take_run a n s)) ltac:(lia)).
  pose proof (free_pages_bound s Hwf). split; [|lia].
  cbn. apply wrap32_small. unfold PAGE_COUNT, UINT32_MAX in *. lia.
Qed.

Lemma give_run_count : owned_run s a n → free_pages (give_run a n s) = free_pages s + n ∧
  free_pages s + n = count_range 0 (pages s) (page_free (give_run a n s)).
Proof.
  intros Ho. destruct (run_in_pages s a n Hwf Hn) as [Ha Hb].
  { intros p Hp. by apply wf_allocated, Ho. }
  assert (count_range 0 (pages s) (page_free (give_run a n s)) = free_pages s + n) as Hc.
  { rewrite (wf_free s Hwf).
    rewrite (count_range_sum 0 (pages s) (page_free (give_run a n s)) (page_free s)
               (λ i, (a <=? i) && (i <? a + n))).
    - rewrite count_range_interval by lia. lia.
    - intros i Hi. by apply page_free_give.
    - intros i Hi. unfold page_free. destruct ((a <=? i) && (i <? a + n)) eqn:E; [|apply andb_false_r].
      rewrite (Ho i) by lia. by rewrite andb_false_r. }
  pose proof (count_range_bounds 0 (pages s) (page_free (give_run a n s)) ltac:(pose proof (wf_pages s Hwf); lia)).
  pose proof (free_pages_bound s Hwf). pose proof (wf_pages s Hwf). split; [|lia].
  cbn. apply wrap32_small. unfold PAGE_COUNT, UINT32_MAX in *. lia.
Qed.

Lemma take_run_wf : free_run s a n → pmm_wf (take_run a n s).
Proof.
  intros Hf. destruct (take_run_count Hf) as [E1 E2]. destruct Hwf. constructor; try done.
  - intros p. cbn. rewrite bit_set_bits. destruct (_ && _) eqn:E; [|apply wf_allocated0].
    intros _. apply page_free_managed, Hf. lia.
  - by rewrite E1.
Qed.
Lemma give_run_wf : owned_run s a n → pmm_wf (give_run a n s).
Proof.
  intros Ho. destruct (give_run_count Ho) as [E1 E2]. destruct Hwf. constructor; try done.
  - intros p. cbn. rewrite bit_set_bits. destruct (_ && _) eqn:E; [done|apply wf_allocated0].
  - by rewrite E1.
Qed.

Lemma pool_take : free_run s a n →
  pool_of (take_run a n s) =
  PmmSpec.Pool (bits_set (managed s) (pages s)) (free_set s ∖ PmmSpec.block a n).
Proof.
  intros Hf. pose proof (take_run_wf Hf). unfold pool_of. f_equal.
  apply set_eq. intros p. rewrite elem_of_difference, !elem_of_free_set, elem_of_block by done.
  rewrite page_free_take, andb_true_iff, negb_true_iff. split.
  - intros [? ?]. split; [done|]. lia.
  - intros [? ?]. split; [done|]. lia.
Qed.
Lemma pool_give : owned_run s a n →
  pool_of (give_run a n s) =
  PmmSpec.Pool (bits_set (managed s) (pages s)) (free_set s ∪ PmmSpec.block a n).
Proof.
  intros Ho. pose proof (give_run_wf Ho). unfold pool_of. f_equal.
  apply set_eq. intros p. rewrite elem_of_union, !elem_of_free_set, elem_of_block by done.
  rewrite page_free_give, orb_true_iff by done.
  split; (intros [?|?]; [by left|right; lia]).
Qed.
End TakeGive.

(** ** The two searches *)

(** The next-fit search takes the first free page, in cyclic order from the
    cursor, among the [fuel] pages it examines. *)
Lemma allocate_scan_spec fuel s P :
  0 ≤ next_page s < P →
  (∃ k, 0 ≤ k < Z.of_nat fuel ∧
     (∀ j, 0 ≤ j < k → page_free s ((next_page s + j) mod P) = false) ∧
     let page := (next_page s + k) mod P in
     page_free s page = true ∧
     allocate_scan fuel P s =
       (page * PAGE_SIZE, take_run page 1 (set_next_page ((page + 1) mod P) s))) ∨
  ((∀ j, 0 ≤ j < Z.of_nat fuel → page_free s ((next_page s + j) mod P) = false) ∧
   ∃ n, 0 ≤ n < P ∧ allocate_scan fuel P s = (0, set_next_page n s)).
Proof.
  revert s; induction fuel as [|fuel IH]; intros s Hn.
  - right. split; [intros; exfalso; lia|]. exists (next_page s). split; [done|]. by destruct s.
  - cbn [allocate_scan]. set (t := set_next_page ((next_page s + 1) mod P) s).
    assert (page_free t (next_page s) = page_free s (next_page s)) as -> by done.
    destruct (page_free s (next_page s)) eqn:E.
    + left. exists 0. split; [lia|]. split; [intros; exfalso; lia|].
      rewrite Z.add_0_r, (Z.mod_small (next_page s)) by done. split; [done|].
      unfold take_run. by rewrite set_bits_one.
    + assert (0 ≤ next_page t < P) as Ht by (apply Z.mod_pos_bound; lia).
      assert (next_page t = (next_page s + 1) mod P) as Hnt by done.
      assert (∀ j, page_free s ((next_page t + j) mod P) = page_free s ((next_page s + (j + 1)) mod P)) as Hj.
      { intros j. rewrite Hnt, Z.add_mod_idemp_l by lia. do 2 f_equal. lia. }
      assert (∀ b, (∀ j, 0 ≤ j < b → page_free s ((next_page t + j) mod P) = false) →
        ∀ j, 0 ≤ j < b + 1 → page_free s ((next_page s + j) mod P) = false) as Hall.
      { intros b Hb j Hj'. destruct (decide (j = 0)) as [->|].
        - by rewrite Z.add_0_r, Z.mod_small.
        - replace j with (j - 1 + 1) by lia. rewrite <- Hj. apply Hb. lia. }
      destruct (IH t Ht) as [(k & Hk & Hbefore & Hfree & Heq)|(Hnone & n & Hn' & Heq)].
      * left. exists (k + 1). split; [lia|]. split; [by apply Hall|].
        rewrite Heq. change (page_free t) with (page_free s) in Hfree. rewrite Hj in Hfree.
        assert ((next_page t + k) mod P = (next_page s + (k + 1)) mod P) as ->.
        { rewrite Hnt, Z.add_mod_idemp_l by lia. f_equal. lia. }
        split; [done|]. done.
      * right. split.
        -- intros j Hj'. apply (Hall (Z.of_nat fuel)); [done|lia].
        -- exists n. split; [done|]. by rewrite Heq.
Qed.

(** The first-fit search: the lowest run of [count] free pages from [base]. *)
Lemma contiguous_scan_spec base count s fuel run page :
  0 ≤ run < count → base ≤ page - run →
  free_run s (page - run) run →
  (page - run = base ∨ page_free s (page - run - 1) = false) →
  (∀ a, base ≤ a → a + count ≤ page → ¬ free_run s a count) →
  (∃ a, base ≤ a ∧ a + count ≤ page + Z.of_nat fuel ∧ free_run s a count ∧
     (∀ a', base ≤ a' < a → ¬ free_run s a' count) ∧
     contiguous_scan fuel count run page s = (a * PAGE_SIZE, take_run a count s)) ∨
  ((∀ a, base ≤ a → a + count ≤ page + Z.of_nat fuel → ¬ free_run s a count) ∧
   contiguous_scan fuel count run page s = (0, s)).
Proof.
  revert run page; induction fuel as [|fuel IH]; intros run page Hrun Hbase Hfr Hmax Hno.
  - right. split; [|done]. intros a ??. apply Hno; lia.
  - cbn [contiguous_scan].
    assert (∀ a, base ≤ a → a < page - run → a + count = page + 1 → ¬ free_run s a count) as Hleft.
    { intros a Ha Hlt Hle Hr. destruct Hmax as [|Hmax]; [lia|].
      rewrite (Hr (page - run - 1)) in Hmax by lia. done. }
    destruct (page_free s page) eqn:E.
    + destruct (Z.eqb_spec (run + 1) count) as [Hc|Hc].
      * left. exists (page + 1 - count).
        assert (free_run s (page + 1 - count) count) as Hfull.
        { intros p Hp. destruct (decide (p = page)) as [->|]; [done|]. apply Hfr. lia. }
        split; [lia|]. split; [lia|]. split; [done|]. split.
        -- intros a' Ha'. apply Hno; lia.
        -- unfold take_run. do 4 f_equal. lia.
      * destruct (IH (run + 1) (page + 1)) as [H|[H1 H2]]; try lia.
        -- intros p Hp. destruct (decide (p = page)) as [->|]; [done|]. apply Hfr. lia.
        -- replace (page + 1 - (run + 1)) with (page - run) by lia. done.
        -- intros a Ha Hle. destruct (decide (a + count ≤ page)); [apply Hno; lia|].
           apply Hleft; lia.
        -- left. destruct H as (a & ? & ? & H). exists a. split; [done|]. split; [lia|done].
        -- right. split; [|done]. intros a ??. apply H1; lia.
    + destruct (Z.eqb_spec 0 count) as [Hc|Hc]; [lia|].
      destruct (IH 0 (page + 1)) as [H|[H1 H2]]; try lia.
      * intros p Hp. lia.
      * right. replace (page + 1 - 0 - 1) with page by lia. done.
      * intros a Ha Hle Hr. destruct (decide (a + count ≤ page)); [by apply (Hno a)|].
        rewrite (Hr page) in E by lia. done.
      * left. destruct H as (a & ? & ? & H). exists a. split; [done|]. split; [lia|done].
      * right. split; [|done]. intros a ??. apply H1; lia.
Qed.

(** ** Behaviour of the operations *)

Lemma pmm_allocate_page_wf s : pmm_wf s →
  (∃ p, page_free s p = true ∧ fst (pmm_allocate_page s) = p * PAGE_SIZE ∧
     ∃ n, 0 ≤ n < pages s ∧ snd (pmm_allocate_page s) = take_run p 1 (set_next_page n s)) ∨
  (free_pages s = 0 ∧ pmm_allocate_page s = (0, s)).
Proof.
  intros Hwf. unfold pmm_allocate_page. rewrite (wf_ready s Hwf). cbn [andb].
  destruct (Z.eqb_spec (free_pages s) 0) as [H0|H0]; [by right|]. left. cbn [negb].
  change (limit s / PAGE_SIZE) with (pages s).
  pose proof (wf_pages s Hwf) as HP.
  assert (∃ p, page_free s p = true) as [q Hq].
  { destruct (set_choose_or_empty (free_set s)) as [[p Hp]|Hne].
    - exists p. by apply elem_of_free_set.
    - exfalso. apply H0. rewrite (wf_free s Hwf). apply count_range_zero. intros i Hi.
      destruct (page_free s i) eqn:E; [|done]. exfalso.
      apply (not_elem_of_empty (C := gset Z) i), Hne. by apply elem_of_free_set. }
  pose proof (wf_managed s Hwf q (page_free_managed s q Hq)) as Hq'.
  pose proof (wf_next s Hwf) as Hnext.
  destruct (allocate_scan_spec (Z.to_nat (pages s)) s (pages s)) as [(k & Hk & _ & Hf & Heq)|[Hnone _]]; [lia| |].
  - exists ((next_page s + k) mod pages s). rewrite Heq. split; [done|]. split; [done|].
    eexists; split; [|done]. apply Z.mod_pos_bound. lia.
  - exfalso. specialize (Hnone ((q - next_page s) mod pages s)).
    pose proof (Z.mod_pos_bound (q - next_page s) (pages s) ltac:(lia)).
    rewrite Z.add_mod_idemp_r in Hnone by lia.
    replace (next_page s + (q - next_page s)) with q in Hnone by lia.
    rewrite (Z.mod_small q) in Hnone by lia. rewrite Hnone in Hq by lia. done.
Qed.

Lemma pmm_allocate_contiguous_wf s count : pmm_wf s → 0 ≤ count →
  (0 < count ∧ ∃ a, free_run s a count ∧ (∀ a', a' < a → ¬ free_run s a' count) ∧
     pmm_allocate_contiguous count s = (a * PAGE_SIZE, take_run a count s)) ∨
  ((0 < count → ∀ a, ¬ free_run s a count) ∧ pmm_allocate_contiguous count s = (0, s)).
Proof.
  intros Hwf Hc. unfold pmm_allocate_contiguous. rewrite (wf_ready s Hwf). cbn [andb].
  destruct (Z.eqb_spec count 0) as [->|H0]; [right; split; [lia|done]|]. cbn [negb andb].
  assert (∀ a, free_run s a count → 0x100 ≤ a ∧ a + count ≤ pages s) as Hin.
  { intros a Hr. apply (run_in_pages s a count Hwf ltac:(lia)).
    intros p Hp. by apply page_free_managed, Hr. }
  destruct (Z.leb_spec count (free_pages s)) as [Hle|Hgt].
  - change (limit s / PAGE_SIZE) with (pages s). change (RUM_LOW_RESERVED_END / PAGE_SIZE) with 0x100.
    destruct (contiguous_scan_spec 0x100 count s (Z.to_nat (pages s - 0x100)) 0 0x100)
      as [(a & Ha & Hb & Hr & Hmin & Heq)|[Hno Heq]];
      [lia|lia|intros p Hp; lia|left; lia|intros a Ha Hle' _; lia| |].
    + left. split; [lia|]. exists a. split; [done|]. split; [|done].
      intros a' Hlt Hr'. destruct (Hin a' Hr'). by apply (Hmin a'); [lia|].
    + right. split; [|done]. intros _ a Hr. destruct (Hin a Hr). apply (Hno a); [lia..|done].
  - right. split; [|done]. intros _ a Hr.
    pose proof (take_run_count s Hwf a count ltac:(lia) Hr) as [_ E].
    pose proof (wf_pages s Hwf).
    pose proof (count_range_bounds 0 (pages s) (page_free (take_run a count s)) ltac:(lia)). lia.
Qed.

Lemma page_address a s : pmm_wf s → 0 ≤ a →
  (a mod PAGE_SIZE =? 0) && (a <? limit s) = true ↔ ∃ p, a = p * PAGE_SIZE ∧ 0 ≤ p < pages s.
Proof.
  intros Hwf Ha. rewrite (wf_limit s Hwf). unfold PAGE_SIZE. split.
  - rewrite andb_true_iff. intros [Hm Hl]. exists (a / 0x1000).
    pose proof (Z.div_mod a 0x1000). pose proof (Z.div_pos a 0x1000). lia.
  - intros (p & -> & Hp). rewrite Z.mod_mul by lia. cbn. lia.
Qed.

Lemma page_div p : p * PAGE_SIZE / PAGE_SIZE = p.
Proof. by apply Z.div_mul. Qed.

Lemma lower_next_page_wf s p : pmm_wf s → 0 ≤ p →
  pmm_wf (if p <? next_page s then set_next_page p s else s).
Proof.
  intros Hwf Hp. destruct (Z.ltb_spec p (next_page s)); [|done].
  apply set_next_page_wf; [done|]. pose proof (wf_next s Hwf). lia.
Qed.

Lemma pmm_is_allocated_spec s a : pmm_wf s → 0 ≤ a →
  pmm_is_allocated s a = true ↔ ∃ p, a = p * PAGE_SIZE ∧ bit (allocated s) p = true.
Proof.
  intros Hwf Ha. unfold pmm_is_allocated, pmm_is_managed. rewrite (wf_ready s Hwf). cbn [andb].
  rewrite andb_true_iff, andb_true_iff, page_address by done. split.
  - intros [[(p & -> & _) _] Hb]. rewrite page_div in Hb. eauto.
  - intros (p & -> & Hb). rewrite page_div. pose proof (wf_allocated s Hwf p Hb) as Hm.
    split; [split|]; [|done..]. exists p. split; [done|]. pose proof (wf_managed s Hwf p Hm). lia.
Qed.

Lemma owned_run_iff s a n :
  all_range a (a + n) (λ p, bit (managed s) p && bit (allocated s) p) = true ↔
  ∀ p, a ≤ p < a + n → bit (managed s) p = true ∧ bit (allocated s) p = true.
Proof.
  rewrite all_range_true.
  split; intros H p Hp; specialize (H p Hp); by apply andb_true_iff.
Qed.

Lemma pmm_free_page_wf s a : pmm_wf s → 0 ≤ a →
  (∃ p, a = p * PAGE_SIZE ∧ bit (allocated s) p = true ∧ pmm_free_page a s =
     (true, let t := give_run p 1 s in if p <? next_page t then set_next_page p t else t)) ∨
  ((∀ p, a = p * PAGE_SIZE → bit (allocated s) p = false) ∧ pmm_free_page a s = (false, s)).
Proof.
  intros Hwf Ha. unfold pmm_free_page. pose proof (pmm_is_allocated_spec s a Hwf Ha) as Hspec.
  destruct (pmm_is_allocated s a) eqn:E.
  - left. destruct (proj1 Hspec eq_refl) as (p & -> & Hb). exists p. split; [done|]. split; [done|].
    rewrite page_div. unfold give_run. by rewrite set_bits_one.
  - right. split; [|done]. intros p ->. destruct (bit (allocated s) p) eqn:Hb; [|done].
    discriminate (proj2 Hspec (ex_intro _ p (conj eq_refl Hb))).
Qed.

Lemma pmm_free_contiguous_wf s a n : pmm_wf s → 0 ≤ a → 0 ≤ n →
  (∃ p, a = p * PAGE_SIZE ∧ 0 < n ∧ owned_run s p n ∧ pmm_free_contiguous a n s =
     (true, let t := give_run p n s in if p <? next_page t then set_next_page p t else t)) ∨
  ((∀ p, a = p * PAGE_SIZE → 0 < n → ¬ owned_run s p n) ∧ pmm_free_contiguous a n s = (false, s)).
Proof.
  intros Hwf Ha Hn. unfold pmm_free_contiguous. rewrite (wf_ready s Hwf). cbn [andb].
  destruct (_ && _ && _ && _ && _) eqn:E.
  - rewrite !andb_true_iff, owned_run_iff in E. destruct E as [[[[Hn0 Hm] Hl] Hfit] Hall].
    destruct (proj1 (page_address a s Hwf Ha)) as (p & -> & Hp); [by rewrite Hm, Hl|].
    rewrite page_div in *. left. exists p. split; [done|]. split; [lia|]. split; [|done].
    intros q Hq. by apply Hall.
  - right. split; [|done]. intros p -> Hn0 Ho. rewrite page_div in E.
    destruct (run_in_pages s p n Hwf Hn0) as [H1 H2]. { intros q Hq. by apply wf_allocated, Ho. }
    rewrite (proj2 (owned_run_iff s p n)) in E.
    2:{ intros q Hq. split; [by apply wf_allocated, Ho|by apply Ho]. }
    rewrite Z.mod_mul, (wf_limit s Hwf), <- Z.mul_sub_distr_r, page_div in E by done.
    unfold PAGE_SIZE in E. lia.
Qed.

(** ** Refinement of the contract *)

Lemma run_free_run s a n : pmm_wf s → PmmSpec.run (free_set s) a n ↔ free_run s a n.
Proof.
  intros Hwf. unfold PmmSpec.run, free_run.
  split; intros H p Hp; apply (elem_of_free_set s Hwf); by apply H.
Qed.

Lemma block_owned_run s a n : pmm_wf s →
  PmmSpec.block a n ⊆ bits_set (managed s) (pages s) ∖ free_set s ↔ owned_run s a n.
Proof.
  intros Hwf. unfold owned_run. split.
  - intros Hsub p Hp. apply (elem_of_owned s Hwf), Hsub. by apply elem_of_block.
  - intros H p Hp%elem_of_block. apply (elem_of_owned s Hwf). by apply H.
Qed.

Lemma block_one p : PmmSpec.block p 1 = {[p]}.
Proof. apply set_eq. intros q. rewrite elem_of_block, elem_of_singleton. lia. Qed.

Lemma pool_of_lower_next s p : pool_of (if p <? next_page s then set_next_page p s else s) = pool_of s.
Proof. by destruct (_ <? _). Qed.

(** C1: Every call of the page allocator on a well-formed state behaves as the
    pool contract says and leaves a well-formed state: a page allocation
    returns a page that was free and only fails when none is, a contiguous
    allocation returns the lowest run that fits and only fails when there is
    none, and frees succeed exactly on pages that are owned. *)
Theorem pmm_refines (o : PmmSpec.op) (s : pmm) (Hwf : pmm_wf s) (Ho : op_ok o) :
  pmm_wf (snd (pmm_exec o s)) ∧
  PmmSpec.step o (fst (pmm_exec o s)) (pool_of s) (pool_of (snd (pmm_exec o s))).
Proof.
  destruct o as [|n|a|a n]; cbn [pmm_exec op_ok] in *.
  - destruct (pmm_allocate_page_wf s Hwf) as [(p & Hf & Hr & k & Hk & Hs)|[H0 Heq]].
    + assert (pmm_wf (set_next_page k s)) as Hwf' by (apply set_next_page_wf; [done|lia]).
      assert (free_run (set_next_page k s) p 1) as Hfr by (intros q Hq; by replace q with p by lia).
      rewrite Hr, Hs. split; [by apply take_run_wf|].
      rewrite (pool_take _ Hwf') by done. rewrite block_one.
      apply PmmSpec.StepPage. by apply elem_of_free_set.
    + rewrite Heq. split; [done|]. cbn. unfold pool_of. rewrite (free_set_empty s Hwf H0). constructor.
  - destruct (pmm_allocate_contiguous_wf s n Hwf) as [(Hn & a & Hr & Hmin & Heq)|[Hno Heq]]; [lia| |].
    + rewrite Heq. cbn [fst snd]. split; [by apply take_run_wf|]. rewrite pool_take by done.
      apply PmmSpec.StepRun; [done|by apply run_free_run|].
      intros a' Hlt H. apply (Hmin a' Hlt). by apply run_free_run.
    + rewrite Heq. split; [done|]. apply PmmSpec.StepRunNone. intros Hn a H.
      apply (Hno Hn a). by apply run_free_run.
  - destruct (pmm_free_page_wf s a Hwf) as [(p & -> & Hb & Heq)|[Hno Heq]]; [lia| |].
    + assert (owned_run s p 1) as Hr by (intros q Hq; by replace q with p by lia).
      rewrite Heq. cbn [fst snd Z.b2z]. split.
      * apply lower_next_page_wf; [by apply give_run_wf|].
        pose proof (wf_managed s Hwf p (wf_allocated s Hwf p Hb)). lia.
      * rewrite pool_of_lower_next, pool_give, block_one by done.
        apply PmmSpec.StepFree. by apply elem_of_owned.
    + rewrite Heq. split; [done|]. apply PmmSpec.StepFreeBad. intros p ->.
      rewrite (elem_of_owned s Hwf). by rewrite Hno.
  - destruct Ho as [Ha Hn].
    destruct (pmm_free_contiguous_wf s a n Hwf) as [(p & -> & Hn0 & Hr & Heq)|[Hno Heq]]; [lia|lia| |].
    + rewrite Heq. cbn [fst snd Z.b2z]. split.
      * apply lower_next_page_wf; [by apply give_run_wf|].
        destruct (run_in_pages s p n Hwf Hn0); [|lia]. intros q Hq. by apply wf_allocated, Hr.
      * rewrite pool_of_lower_next, pool_give by done.
        apply PmmSpec.StepFreeRun; [done|by apply block_owned_run].
    + rewrite Heq. split; [done|]. apply PmmSpec.StepFreeRunBad. intros p -> Hn0.
      rewrite (block_owned_run s p n Hwf). by apply Hno.
Qed.

(** ** Boot: what initialization establishes *)

(** Page [p] meets the [n] bytes from [a]. *)
Definition overlaps (p a n : Z) : Prop := 0 < n ∧ p * PAGE_SIZE < a + n ∧ a < (p + 1) * PAGE_SIZE.
Definition bytes_ok (mem : memory) : Prop := ∀ a, 0 ≤ mem a < 0x100.
(** Bits are only ever set below [PAGE_COUNT]. *)
Definition in_window (m : gmap Z Z) : Prop := ∀ p, bit m p = true → 0 ≤ p < PAGE_COUNT.
Definition shrinks (m m' : gmap Z Z) : Prop := ∀ p, bit m' p = true → bit m p = true.

#[export] Instance shrinks_preorder : PreOrder shrinks.
Proof. split; [intros m p; done|]. intros m1 m2 m3 H1 H2 p Hp. by apply H1, H2. Qed.

Lemma load16_nonneg mem a : bytes_ok mem → 0 ≤ load16 mem a.
Proof. intros H. unfold load16. pose proof (H a). pose proof (H (a + 1)). lia. Qed.
Lemma load32_nonneg mem a : bytes_ok mem → 0 ≤ load32 mem a.
Proof.
  intros H. unfold load32. pose proof (load16_nonneg mem a H). pose proof (load16_nonneg mem (a + 2) H). lia.
Qed.
Lemma load64_nonneg mem a : bytes_ok mem → 0 ≤ load64 mem a.
Proof.
  intros H. unfold load64. pose proof (load32_nonneg mem a H). pose proof (load32_nonneg mem (a + 4) H). lia.
Qed.

Lemma page_bounds x : x / PAGE_SIZE * PAGE_SIZE ≤ x < (x / PAGE_SIZE + 1) * PAGE_SIZE.
Proof. unfold PAGE_SIZE. pose proof (Z.div_mod x 0x1000). pose proof (Z.mod_pos_bound x 0x1000). lia. Qed.

Lemma range_reserve_shrinks a b m : shrinks m (range a b false m).
Proof.
  intros p. unfold range. destruct (_ >=? _); [done|]. rewrite bit_set_bits. by destruct (_ && _).
Qed.

Lemma range_reserve_covers a n m p :
  0 ≤ p < PAGE_COUNT → bit (range a (a + n) false m) p = true → ¬ overlaps p a n.
Proof.
  intros Hp Hb (Hn & H1 & H2). unfold range in Hb.
  destruct (a >=? PMM_PHYSICAL_LIMIT) eqn:E.
  { unfold PMM_PHYSICAL_LIMIT, PAGE_SIZE, PAGE_COUNT in *. lia. }
  rewrite bit_set_bits in Hb. set (e := if a + n >? PMM_PHYSICAL_LIMIT then _ else _) in Hb.
  assert (p * PAGE_SIZE < e).
  { unfold e. destruct (_ >? _); [|done]. unfold PMM_PHYSICAL_LIMIT, PAGE_SIZE, PAGE_COUNT in *. lia. }
  pose proof (page_bounds a). pose proof (page_bounds (e + PAGE_SIZE - 1)).
  destruct (_ && _) eqn:E'; [done|]. unfold PAGE_SIZE in *. lia.
Qed.

Lemma range_usable a n m p : 0 ≤ a →
  bit (range a (a + n) true m) p = true →
  bit m p = true ∨ 0 ≤ p < PAGE_COUNT ∧ a ≤ p * PAGE_SIZE ∧ (p + 1) * PAGE_SIZE ≤ a + n.
Proof.
  intros Ha. unfold range. destruct (a >=? PMM_PHYSICAL_LIMIT); [by left|].
  rewrite bit_set_bits. set (e := if a + n >? PMM_PHYSICAL_LIMIT then _ else _).
  assert (e ≤ a + n ∧ e ≤ PMM_PHYSICAL_LIMIT).
  { unfold e. destruct (_ >? _) eqn:?; lia. }
  pose proof (page_bounds e). pose proof (page_bounds (a + PAGE_SIZE - 1)).
  destruct (_ && _) eqn:E'; [|by left]. intros _. right.
  unfold PMM_PHYSICAL_LIMIT, PAGE_SIZE, PAGE_COUNT in *. lia.
Qed.

Lemma reserve_shrinks a n : moves shrinks (reserve a n).
Proof.
  intros m. unfold reserve. destruct (_ || _); cbn; [done|].
  destruct (n =? 0); [done|]. apply range_reserve_shrinks.
Qed.
Lemma reserve_covers a n m m' p : reserve a n m = (true, m') →
  0 ≤ p < PAGE_COUNT → bit m' p = true → ¬ overlaps p a n.
Proof.
  unfold reserve. destruct (_ || _); [done|]. intros [= <-] Hp.
  destruct (Z.eqb_spec n 0) as [->|]; [intros _ (? & _); lia|]. by apply range_reserve_covers.
Qed.

Lemma reserve_string_shrinks mem a : moves shrinks (reserve_string mem a).
Proof.
  unfold reserve_string. destruct (a =? 0); [apply moves_check, _|].
  generalize 0 as size. generalize (Z.to_nat PAGE_SIZE + 1)%nat as fuel.
  induction fuel as [|fuel IH]; intros size; cbn [reserve_string_loop]; [apply moves_check, _|].
  destruct (_ && _); [|apply moves_check, _]. destruct (_ =? _); [apply reserve_shrinks|apply IH].
Qed.
#[export] Hint Resolve reserve_shrinks reserve_string_shrinks : rum.
Ltac shrink :=
  cbv zeta;
  repeat first
    [ solve [eauto with rum]
    | apply moves_and_then; [apply _| |]
    | apply moves_when; [apply _|]
    | apply moves_check; apply _ ].

Lemma reserve_modules_shrinks n mem info i : moves shrinks (reserve_modules n mem info i).
Proof. revert i; induction n; intros i; cbn [reserve_modules]; shrink. Qed.
Lemma reserve_sections_shrinks n mem info i : moves shrinks (reserve_sections n mem info i).
Proof. revert i; induction n; intros i; cbn [reserve_sections]; shrink. Qed.
#[export] Hint Resolve reserve_modules_shrinks reserve_sections_shrinks : rum.

Lemma reserve_framebuffer_shrinks mem info : moves shrinks (reserve_framebuffer mem info).
Proof.
  unfold reserve_framebuffer. apply moves_and_then; [apply _|shrink|].
  apply moves_and_then; [apply _| |shrink].
  apply moves_when; [apply _|]. intros m. apply range_reserve_shrinks.
Qed.
#[export] Hint Resolve reserve_framebuffer_shrinks : rum.

Lemma reserve_boot_data_shrinks mem a info : moves shrinks (reserve_boot_data mem a info).
Proof. unfold reserve_boot_data. shrink. Qed.

(** No managed page meets the [n] bytes from [a]. *)
Definition avoids (a n : Z) (m : gmap Z Z) : Prop :=
  ∀ p, 0 ≤ p < PAGE_COUNT → bit m p = true → ¬ overlaps p a n.

Lemma avoids_shrinks a n m m' : shrinks m m' → avoids a n m → avoids a n m'.
Proof. intros Hs Ha p Hp Hb. apply Ha; [done|]. by apply Hs. Qed.
Lemma reserve_avoids a n : ensures (reserve a n) (avoids a n).
Proof. intros m m' E p Hp Hb. by apply (reserve_covers a n m m'). Qed.
#[export] Hint Resolve reserve_avoids : rum.

(** Walk down a sequence of attempts to the one that establishes the goal. *)
Ltac establish :=
  cbv zeta;
  first
    [ solve [eauto with rum]
    | apply ensures_l with shrinks; [apply avoids_shrinks|solve [shrink]|establish]
    | apply ensures_r; establish
    | apply ensures_when; [assumption|establish] ].

(** [n] bytes of text from [a], the NUL that ends it included. *)
Definition text_at (mem : memory) (a n : Z) : Prop :=
  a ≠ 0 ∧ 0 < n ∧ mem (a + n - 1) = 0 ∧ ∀ k, 0 ≤ k < n - 1 → mem (a + k) ≠ 0.

Lemma reserve_string_avoids mem a n : text_at mem a n → ensures (reserve_string mem a) (avoids a n).
Proof.
  intros (Ha & Hn & Hz & Hk). unfold reserve_string. rewrite (proj2 (Z.eqb_neq a 0) Ha).
  assert (∀ fuel size, 0 ≤ size ≤ n - 1 → ensures (reserve_string_loop fuel mem a size) (avoids a n)) as H; [|apply H; lia].
  induction fuel as [|fuel IH]; intros size Hs; cbn [reserve_string_loop]; [done|].
  destruct (_ && _); [|done]. destruct (Z.eqb_spec (mem (a + size)) 0) as [E|E].
  - replace size with (n - 1) by (destruct (decide (size = n - 1)); [done|]; destruct (Hk size); [lia|done]).
    replace (n - 1 + 1) with n by lia. apply reserve_avoids.
  - apply IH. destruct (decide (size = n - 1)) as [->|]; [|lia]. replace (a + (n - 1)) with (a + n - 1) in E by lia. done.
Qed.
#[export] Hint Resolve reserve_string_avoids : rum.

Definition module_start (mem : memory) (info : multiboot_info) (i : Z) : Z :=
  load32 mem (mods_addr info + i * sizeof_multiboot_module).
Definition module_end (mem : memory) (info : multiboot_info) (i : Z) : Z :=
  load32 mem (mods_addr info + i * sizeof_multiboot_module + 4).
Definition module_string (mem : memory) (info : multiboot_info) (i : Z) : Z :=
  load32 mem (mods_addr info + i * sizeof_multiboot_module + 8).
Definition section_address (mem : memory) (info : multiboot_info) (i : Z) : Z :=
  load32 mem (wrap32 (symbols2 info + wrap32 (i * symbols1 info) + 12)).
Definition section_size (mem : memory) (info : multiboot_info) (i : Z) : Z :=
  load32 mem (wrap32 (symbols2 info + wrap32 (i * symbols1 info) + 20)).

(** Everything the Multiboot structure [info] at [a] points to, as an address and a length,
    each under the flag that says it is there. *)
Inductive boot_range (mem : memory) (a : Z) (info : multiboot_info) : Z → Z → Prop :=
| boot_info : boot_range mem a info a sizeof_multiboot_info
| boot_map : boot_range mem a info (mmap_addr info) (mmap_length info)
| boot_cmdline n : flag info 2 = true → text_at mem (cmdline info) n → boot_range mem a info (cmdline info) n
| boot_loader n : flag info 9 = true → text_at mem (boot_loader_name info) n → boot_range mem a info (boot_loader_name info) n
| boot_modules : flag info 3 = true → boot_range mem a info (mods_addr info) (mods_count info * sizeof_multiboot_module)
| boot_module i : flag info 3 = true → 0 ≤ i < mods_count info →
    boot_range mem a info (module_start mem info i) (module_end mem info i - module_start mem info i)
| boot_module_string i n : flag info 3 = true → 0 ≤ i < mods_count info → text_at mem (module_string mem info i) n →
    boot_range mem a info (module_string mem info i) n
| boot_aout : flag info 4 = true → boot_range mem a info (symbols2 info) (symbols0 info + symbols1 info)
| boot_sections : flag info 5 = true → boot_range mem a info (symbols2 info) (symbols0 info * symbols1 info)
| boot_section i : flag info 5 = true → 0 ≤ i < symbols0 info → section_address mem info i ≠ 0 →
    boot_range mem a info (section_address mem info i) (section_size mem info i)
| boot_drives : flag info 7 = true → boot_range mem a info (drives_addr info) (drives_length info)
| boot_config : flag info 8 = true → config_table info ≠ 0 →
    boot_range mem a info (config_table info) (load16 mem (config_table info) + 2)
| boot_apm : flag info 10 = true → boot_range mem a info (apm_table info) 20
| boot_vbe_control : flag info 11 = true → boot_range mem a info (vbe_control_info info) 512
| boot_vbe_mode : flag info 11 = true → boot_range mem a info (vbe_mode_info info) 256
| boot_vbe_interface : flag info 11 = true →
    boot_range mem a info (vbe_interface_seg info * 16 + vbe_interface_off info) (vbe_interface_len info)
| boot_framebuffer : flag info 12 = true →
    boot_range mem a info (framebuffer_addr info) (framebuffer_pitch info * framebuffer_height info)
| boot_palette : flag info 12 = true → framebuffer_type info = 0 →
    boot_range mem a info (load32 mem (framebuffer_color_info info)) (load16 mem (framebuffer_color_info info + 4) * 3).

Lemma reserve_modules_avoids n mem info i j : i ≤ j < i + Z.of_nat n →
  ensures (reserve_modules n mem info i)
    (avoids (module_start mem info j) (module_end mem info j - module_start mem info j)).
Proof.
  revert i; induction n as [|n IH]; intros i Hj; cbn [reserve_modules]; [lia|].
  destruct (decide (j = i)) as [->|].
  - change (load32 mem (mods_addr info + i * sizeof_multiboot_module)) with (module_start mem info i).
    change (load32 mem (mods_addr info + i * sizeof_multiboot_module + 4)) with (module_end mem info i).
    establish.
  - do 3 apply ensures_r. apply IH. lia.
Qed.
Lemma reserve_modules_strings n mem info i j x : i ≤ j < i + Z.of_nat n → text_at mem (module_string mem info j) x →
  ensures (reserve_modules n mem info i) (avoids (module_string mem info j) x).
Proof.
  revert i; induction n as [|n IH]; intros i Hj T; cbn [reserve_modules]; [lia|]. destruct (decide (j = i)) as [->|].
  - change (load32 mem (mods_addr info + i * sizeof_multiboot_module + 8)) with (module_string mem info i). establish.
  - do 3 apply ensures_r. apply IH; [lia|done].
Qed.
Lemma reserve_sections_avoids n mem info i j : i ≤ j < i + Z.of_nat n → section_address mem info j ≠ 0 →
  ensures (reserve_sections n mem info i) (avoids (section_address mem info j) (section_size mem info j)).
Proof.
  revert i; induction n as [|n IH]; intros i Hj N; cbn [reserve_sections]; [lia|]. destruct (decide (j = i)) as [->|].
  - apply Z.eqb_neq, negb_true_iff in N. apply ensures_l with shrinks; [apply avoids_shrinks|shrink|].
    apply ensures_when; [exact N|]. apply reserve_avoids.
  - apply ensures_r. apply IH; [lia|done].
Qed.
Lemma reserve_framebuffer_avoids mem info :
  ensures (reserve_framebuffer mem info) (avoids (framebuffer_addr info) (framebuffer_pitch info * framebuffer_height info)).
Proof.
  unfold reserve_framebuffer. apply ensures_r, ensures_l with shrinks; [apply avoids_shrinks|shrink|]. unfold when.
  destruct (Z.eqb_spec (framebuffer_pitch info * framebuffer_height info) 0) as [->|].
  - intros m m' _ p _ _ [H _]. lia.
  - intros m m' [= <-] p Hp Hb. by eapply range_reserve_covers.
Qed.

Section BootData.
Context (mem : memory) (a : Z) (info : multiboot_info).

(** What sits in a nested part: the modules, the sections, the framebuffer. *)
Ltac nested := apply ensures_l with shrinks; [apply avoids_shrinks|shrink|]; apply ensures_when; [assumption|]; cbv zeta.
Lemma boot_data_avoids x n : boot_range mem a info x n → ensures (reserve_boot_data mem a info) (avoids x n).
Proof.
  intros B. unfold reserve_boot_data. destruct B as [| |? ? ?|? ? ?|?|i ? ?|i ? ? ? ?|?|?|i ? ? N|?|F N|?|?|?|?|F|F T].
  1-5, 8, 9, 11, 13-16: establish.
  - do 4 apply ensures_r. nested. do 2 apply ensures_r. apply reserve_modules_avoids. lia.
  - do 4 apply ensures_r. nested. do 2 apply ensures_r. apply reserve_modules_strings; [lia|done].
  - do 7 apply ensures_r. nested. do 2 apply ensures_r. apply reserve_sections_avoids; [lia|done].
  - assert (flag info 8 && negb (config_table info =? 0) = true) as H by (by rewrite F, (proj2 (Z.eqb_neq _ _) N)). establish.
  - do 12 apply ensures_r. apply ensures_when; [done|]. apply reserve_framebuffer_avoids.
  - apply Z.eqb_eq in T. do 12 apply ensures_r. apply ensures_when; [done|]. unfold reserve_framebuffer. establish.
Qed.
End BootData.

(** Offsets of the entries of the memory map, from offset [o]. *)
Inductive map_offset (mem : memory) (info : multiboot_info) (o : Z) : Z → Prop :=
| map_offset_here : map_offset mem info o o
| map_offset_next o' :
    map_offset mem info o o' → o' < mmap_length info →
    map_offset mem info o (o' + (entry_size (mmap_entry_at mem (mmap_addr info + o')) + 4)).

Lemma map_offset_cons mem info o o' : o < mmap_length info →
  map_offset mem info (o + (entry_size (mmap_entry_at mem (mmap_addr info + o)) + 4)) o' →
  map_offset mem info o o'.
Proof. intros Ho H. induction H; [by apply map_offset_next, Ho; constructor|by constructor]. Qed.

Lemma map_offset_inv mem info o o' : map_offset mem info o o' →
  o' = o ∨ map_offset mem info (o + (entry_size (mmap_entry_at mem (mmap_addr info + o)) + 4)) o'.
Proof.
  induction 1 as [|o' H IH Hlt]; [by left|]. right.
  destruct IH as [->|IH]; [constructor|by constructor].
Qed.

Section MapPass.
Context (mem : memory) (info : multiboot_info) (Hmem : bytes_ok mem).
Let entry (o : Z) : multiboot_mmap_entry := mmap_entry_at mem (mmap_addr info + o).

Lemma map_offset_le o o' : map_offset mem info o o' → o ≤ o'.
Proof.
  induction 1 as [|o' H IH Hlt]; [done|].
  pose proof (load32_nonneg mem (mmap_addr info + o') Hmem). cbn. lia.
Qed.

(** One step of a pass that succeeds from an offset inside the map. *)
Lemma map_pass_step fuel available o m m' :
  o < mmap_length info →
  map_pass_loop (S fuel) mem info available o m = (true, m') →
  20 ≤ entry_size (entry o) ∧
  map_pass_loop fuel mem info available (o + (entry_size (entry o) + 4))
    (map_entry available (entry o) m) = (true, m').
Proof.
  intros Ho. cbn [map_pass_loop]. fold (entry o). rewrite (proj2 (Z.ltb_lt _ _) Ho).
  destruct (mmap_length info - o <? _); [done|].
  destruct (_ || _ || _) eqn:E; [done|]. intros H. split; [|exact H]. lia.
Qed.

(** The second pass removes every page that meets a region of another type. *)
Lemma map_pass_reserved fuel o m m' :
  mmap_length info - o < Z.of_nat fuel →
  map_pass_loop fuel mem info false o m = (true, m') →
  shrinks m m' ∧
  ∀ o', map_offset mem info o o' → o' < mmap_length info → entry_type (entry o') ≠ 1 →
    avoids (entry_address (entry o')) (entry_length (entry o')) m'.
Proof.
  revert o m; induction fuel as [|fuel IH]; intros o m Hfuel.
  { intros [= <-]. split; [done|]. intros o' Ho'%map_offset_le Hlt. lia. }
  destruct (Z.ltb_spec o (mmap_length info)) as [Ho|Ho].
  2:{ cbn [map_pass_loop]. rewrite (proj2 (Z.ltb_ge _ _) Ho). intros [= <-].
      split; [done|]. intros o' Ho'%map_offset_le Hlt. lia. }
  intros [Hsz E]%map_pass_step; [|done]. apply IH in E as [Hs Hall]; [|lia].
  assert (shrinks m (map_entry false (entry o) m)) as Hm1
    by (unfold map_entry; destruct (_ && _); [apply range_reserve_shrinks|done]).
  split; [by etransitivity|]. intros o' [->|Hin]%map_offset_inv Hlt Hty; [|by apply Hall].
  apply (avoids_shrinks _ _ _ _ Hs). unfold map_entry.
  destruct (Z.eqb_spec (entry_length (entry o)) 0) as [->|]; cbn [negb andb].
  - intros p _ _ (? & _). lia.
  - rewrite (proj2 (Z.eqb_neq _ _) Hty). cbn. intros p Hp Hb. by apply range_reserve_covers in Hb.
Qed.

(** The first pass adds only whole pages of available regions. *)
Lemma map_pass_available fuel o m m' p :
  map_pass_loop fuel mem info true o m = (true, m') → bit m' p = true →
  bit m p = true ∨ 0 ≤ p < PAGE_COUNT ∧
    ∃ o', map_offset mem info o o' ∧ o' < mmap_length info ∧ entry_type (entry o') = 1 ∧
      entry_address (entry o') ≤ p * PAGE_SIZE ∧
      (p + 1) * PAGE_SIZE ≤ entry_address (entry o') + entry_length (entry o').
Proof.
  revert o m; induction fuel as [|fuel IH]; intros o m.
  { intros [= <-]. by left. }
  destruct (Z.ltb_spec o (mmap_length info)) as [Ho|Ho].
  2:{ cbn [map_pass_loop]. rewrite (proj2 (Z.ltb_ge _ _) Ho). intros [= <-]. by left. }
  intros [Hsz E]%map_pass_step Hb; [|done].
  apply IH in E as [Hm|(Hp & o' & Ho' & H)]; [| |done].
  - unfold map_entry in Hm. destruct (_ && _) eqn:Econd; [|by left].
    apply range_usable in Hm as [?|(Hp & H1 & H2)];
      [by left| |cbn; by apply load64_nonneg].
    right. split; [done|]. exists o. split; [constructor|]. split; [done|].
    split; [|done]. apply andb_true_iff in Econd as [_ Heq%Bool.eqb_prop]. lia.
  - right. split; [done|]. exists o'. split; [|done]. by apply map_offset_cons.
Qed.
End MapPass.

Lemma highest_limit_spec m :
  (∀ p, 0 ≤ p < PAGE_COUNT → bit m p = true → (p + 1) * PAGE_SIZE ≤ highest_limit m) ∧
  ∃ n, highest_limit m = n * PAGE_SIZE ∧ 0 ≤ n ≤ PAGE_COUNT.
Proof.
  unfold highest_limit.
  apply (for_range_inv (λ i l, (∀ p, 0 ≤ p < i → bit m p = true → (p + 1) * PAGE_SIZE ≤ l) ∧
    ∃ n, l = n * PAGE_SIZE ∧ 0 ≤ n ≤ i)); [done| |].
  - split; [lia|]. exists 0. lia.
  - intros i l Hi (Hl & n & -> & Hn). destruct (bit m i) eqn:E.
    + split; [|exists (i + 1); lia]. intros p Hp _. unfold PAGE_SIZE. lia.
    + split; [|exists n; lia]. intros p Hp Hb. destruct (decide (p = i)) as [->|]; [congruence|].
      apply Hl; [lia|done].
Qed.

#[local] Opaque highest_limit count_range.

(** What the managed pages avoid after a successful initialization. *)
Record boot_safe (mem : memory) (address kernel_start kernel_end : Z) (m : gmap Z Z) : Prop := BootSafe {
  safe_low : avoids 0 RUM_LOW_RESERVED_END m;
  safe_kernel : avoids kernel_start (kernel_end - kernel_start) m;
  safe_boot_data a n : boot_range mem address (multiboot_info_at mem address) a n → avoids a n m;
  safe_reserved o : let info := multiboot_info_at mem address in
    let entry := mmap_entry_at mem (mmap_addr info + o) in
    map_offset mem info 0 o → o < mmap_length info → entry_type entry ≠ 1 →
    avoids (entry_address entry) (entry_length entry) m;
  safe_available p : let info := multiboot_info_at mem address in
    bit m p = true → 0 ≤ p < PAGE_COUNT ∧ ∃ o,
      let entry := mmap_entry_at mem (mmap_addr info + o) in
      map_offset mem info 0 o ∧ o < mmap_length info ∧ entry_type entry = 1 ∧
      entry_address entry ≤ p * PAGE_SIZE ∧ (p + 1) * PAGE_SIZE ≤ entry_address entry + entry_length entry
}.

Lemma boot_passes mem address m m' : bytes_ok mem →
  let info := multiboot_info_at mem address in
  (map_pass mem info true &&> map_pass mem info false) ∅ = (true, m) →
  shrinks m m' →
  (∀ p, bit m' p = true → 0 ≤ p < PAGE_COUNT ∧ ∃ o,
     let entry := mmap_entry_at mem (mmap_addr info + o) in
     map_offset mem info 0 o ∧ o < mmap_length info ∧ entry_type entry = 1 ∧
     entry_address entry ≤ p * PAGE_SIZE ∧
     (p + 1) * PAGE_SIZE ≤ entry_address entry + entry_length entry) ∧
  (∀ o, let entry := mmap_entry_at mem (mmap_addr info + o) in
     map_offset mem info 0 o → o < mmap_length info → entry_type entry ≠ 1 →
     avoids (entry_address entry) (entry_length entry) m').
Proof.
  intros Hmem info (m1 & E1 & E2)%and_then_true Hs.
  apply (map_pass_reserved mem info Hmem) in E2 as [Hs1 Hres]; [|lia]. split.
  - intros p Hp%Hs%Hs1. apply (map_pass_available mem info Hmem _ _ _ _ p) in E1; [|done].
    by rewrite bit_empty in E1; destruct E1.
  - intros o entry H1 H2 H3. eapply avoids_shrinks; [exact Hs|]. by apply Hres.
Qed.

(** C2: A boot that the allocator accepts yields a well-formed allocator with
    nothing allocated, whose pool holds only whole pages of regions the memory
    map calls available, and no page that meets low memory, the kernel image,
    any region of another type, even where the firmware reports overlapping
    ranges, or any of the Multiboot data that the structure's flags announce:
    the structure itself, the memory map, the command line and the loader's
    name up to their NUL, the module table, each module and its string, the
    a.out symbols or the ELF section headers and each loaded section, the
    drives, the configuration table, the APM table, the VBE blocks, the
    framebuffer and its palette. *)
Theorem pmm_initialize_sound (mem : memory) (address kernel_start kernel_end : Z) (s s' : pmm)
  (Hmem : bytes_ok mem)
  (E : pmm_initialize mem address kernel_start kernel_end s = (true, s')) :
  pmm_wf s' ∧ (∀ p, bit (allocated s') p = false) ∧ free_pages s' = managed_pages s' ∧
  boot_safe mem address kernel_start kernel_end (managed s').
Proof.
  unfold pmm_initialize in E. set (info := multiboot_info_at mem address) in E.
  destruct (_ || _ || _ || _ || _ || _ || _ || _); [discriminate E|].
  destruct ((map_pass mem info true &&> map_pass mem info false) ∅) as [[] m] eqn:Epass; cbn [negb] in E; [|discriminate E].
  destruct (all_range _ _ _); cbn [negb] in E; [|discriminate E].
  destruct (Z.eqb_spec (highest_limit m) 0) as [|Hlim]; [discriminate E|].
  destruct ((reserve 0 RUM_LOW_RESERVED_END &&> _) m) as [[] m'] eqn:Eres; cbn [negb] in E; [|discriminate E].
  injection E as <-. cbn [managed allocated free_pages managed_pages].
  assert (shrinks m m') as Hs.
  { assert (moves shrinks (reserve 0 RUM_LOW_RESERVED_END &&>
       reserve kernel_start (kernel_end - kernel_start) &&> reserve_boot_data mem address info)) as Hmv.
    { pose proof (reserve_boot_data_shrinks mem address info). shrink. }
    specialize (Hmv m). by rewrite Eres in Hmv. }
  destruct (boot_passes mem address m m' Hmem Epass Hs) as [Hav Hnon].
  assert (∀ P, ensures (reserve 0 RUM_LOW_RESERVED_END &&>
    reserve kernel_start (kernel_end - kernel_start) &&> reserve_boot_data mem address info) P → P m') as Hens.
  { intros P HP. by apply (HP m). }
  pose proof (reserve_boot_data_shrinks mem address info) as Hbd.
  assert (avoids 0 RUM_LOW_RESERVED_END m') as Hlow by (apply Hens; establish).
  assert (avoids kernel_start (kernel_end - kernel_start) m') as Hker by (apply Hens; establish).
  destruct (highest_limit_spec m) as (Htop & n & Hn & Hn').
  assert (highest_limit m / PAGE_SIZE = n) as Hdiv by (rewrite Hn; apply page_div).
  assert (∀ p, bit m' p = true → 0x100 ≤ p < n) as Hwin.
  { intros p Hp. destruct (Hav p Hp) as [Hin _]. specialize (Hlow p Hin Hp).
    specialize (Htop p Hin (Hs p Hp)). unfold overlaps, RUM_LOW_RESERVED_END, PAGE_SIZE in *. lia. }
  split; [|split; [apply bit_empty|split; [reflexivity|]]].
  - constructor; unfold pages; cbn [ready limit managed allocated free_pages next_page]; rewrite ?Hdiv.
    + done.
    + done.
    + split; [|lia]. destruct (decide (n = 0)) as [->|]; [|lia]. exfalso. by apply Hlim.
    + done.
    + intros p. by rewrite bit_empty.
    + apply count_range_ext. intros i Hi. unfold page_free. cbn. by rewrite bit_empty, andb_true_r.
    + change (RUM_LOW_RESERVED_END / PAGE_SIZE) with 0x100. lia.
  - constructor; [done|done| |exact Hnon|exact Hav]. intros x y Hb. apply Hens. do 2 apply ensures_r. by apply boot_data_avoids.
Qed.

(** ** Concrete states *)

(** Four managed pages just above low memory. *)
Definition demo_pool : pmm := Pmm (set_bits ∅ 0x100 0x104 true) ∅ 4 4 4 0x104000 0x100 true.

Lemma demo_pool_wf : pmm_wf demo_pool.
Proof.
  constructor; try (vm_compute; done).
  - intros p. change (pages demo_pool) with 0x104. cbn [demo_pool managed].
    rewrite bit_set_bits, bit_empty. destruct (_ && _) eqn:E; [lia|done].
Qed.

Lemma pmm_refines_witness :
  pmm_wf (snd (pmm_exec (PmmSpec.AllocateRun 3) demo_pool)) ∧
  fst (pmm_exec (PmmSpec.AllocateRun 3) demo_pool) = 0x100000.
Proof.
  split; [|vm_compute; reflexivity].
  exact (proj1 (pmm_refines (PmmSpec.AllocateRun 3) demo_pool demo_pool_wf
                  ltac:(split; vm_compute; discriminate))).
Defined.

(** A boot loader's data: the structure at 64 KiB, one map entry that makes
    1 MiB to 5 MiB available, one that reserves a page of it, and a command
    line of two characters at 3 MiB. *)
Definition le_bytes (n : nat) (x : Z) : list Z :=
  (λ i, (x / 256 ^ Z.of_nat i) mod 256) <$> seq 0 n.
Definition place (a : Z) (l : list Z) (m : gmap Z Z) : gmap Z Z :=
  list_to_map (zip (seqZ a (Z.of_nat (length l))) l) ∪ m.
Definition demo_bytes : gmap Z Z :=
  place 0x10000 (le_bytes 4 0x44) (place (0x10000 + 16) (le_bytes 4 0x300000) (place 0x300000 [114; 111; 0] (place (0x10000 + 44) (le_bytes 4 48 ++ le_bytes 4 0x20000)
  (place 0x20000 (le_bytes 4 20 ++ le_bytes 8 0x100000 ++ le_bytes 8 0x400000 ++ le_bytes 4 1)
  (place 0x20018 (le_bytes 4 20 ++ le_bytes 8 0x400000 ++ le_bytes 8 0x1000 ++ le_bytes 4 2) ∅))))).
Definition demo_memory : memory := aget demo_bytes.

Lemma demo_memory_ok : bytes_ok demo_memory.
Proof.
  intros a. unfold demo_memory, aget.
  assert (map_Forall (λ _ v, 0 ≤ v < 0x100) demo_bytes) as H
    by (apply (bool_decide_unpack _); vm_compute; exact I).
  destruct (demo_bytes !! a) as [v|] eqn:E; cbn; [|lia]. exact (H a v E).
Qed.

Lemma pmm_initialize_sound_witness :
  let s := snd (pmm_initialize demo_memory 0x10000 0x200000 0x201000 demo_pool) in
  boot_safe demo_memory 0x10000 0x200000 0x201000 (managed s) ∧ avoids 0x300000 3 (managed s).
Proof.
  assert (boot_safe demo_memory 0x10000 0x200000 0x201000 (managed (snd (pmm_initialize demo_memory 0x10000 0x200000 0x201000 demo_pool)))) as B.
  { exact (proj2 (proj2 (proj2 (pmm_initialize_sound demo_memory 0x10000 0x200000 0x201000 demo_pool
      _ demo_memory_ok (pair_true (pmm_initialize demo_memory 0x10000 0x200000 0x201000 demo_pool)
                          ltac:(vm_compute; reflexivity)))))). }
  split; [exact B|]. apply (safe_boot_data _ _ _ _ _ B). change 0x300000 with (cmdline (multiboot_info_at demo_memory 0x10000)).
  apply boot_cmdline; [vm_compute; reflexivity|]. split; [vm_compute; discriminate|]. split; [done|]. split; [vm_compute; reflexivity|].
  intros k Hk. assert (k = 0 ∨ k = 1) as [-> | ->] by lia; vm_compute; discriminate.
Defined.
