(* ===== verification/Heap.v ===== *)
(** * Kernel heap (kernel/mm/heap.c)

    A doubly linked list of block headers that tiles the mapped part of the
    4 MiB heap window. [block] and the pointer operations follow the source;
    [chain] and [tiles] relate the pointer structure to a list of segments,
    and [HeapSpec] is the contract towards callers: a map from live payload
    addresses to their capacities. Pages come from a [PageBacking], the
    interface the page allocator and the paging code provide. *)

From S2P Require Import Prelude.

Definition HEAP_BASE : Z := 0x40000000.
Definition HEAP_LIMIT : Z := 0x400000. (* RUM_HEAP_END - RUM_HEAP_BASE *)
Definition HEAP_ALIGNMENT : Z := 16.
Definition HEAP_PAGE : Z := 0x1000.
Definition sizeof_block : Z := 16. (* size_t, two pointers and a bool, aligned to 16 *)

(** ** Interface to the page allocator and the kernel page tables *)

Class PageBacking (B : Type) := {
  pb_allocate : B → Z * B;          (* pmm_allocate_page: 0 is failure *)
  pb_free : Z → B → bool * B;       (* pmm_free_page *)
  pb_map : Z → Z → B → bool * B;    (* paging_map_page(kernel space, virtual, physical, writable) *)
  pb_unmap : Z → B → option Z * B   (* paging_unmap_page(kernel space, virtual, &physical) *)
}.

(** ** State. Pointers are addresses and 0 is NULL; [bytes] is the payload memory. *)

Record block := Block { size : Z; previous : Z; next : Z; free : bool }.
Record heap := Heap {
  blocks : gmap Z block; heap_first : Z; heap_last : Z; heap_mapped : Z; ready : bool;
  bytes : gmap Z Z
}.
Record heap_statistics := HeapStatistics {
  mapped_bytes : Z; used_bytes : Z; free_bytes : Z; allocations : Z
}.

Definition null_block : block := Block 0 0 0 false.
Definition hget (h : heap) (p : Z) : block := default null_block (blocks h !! p).
Definition hput (p : Z) (b : block) (h : heap) : heap :=
  Heap (<[p := b]> (blocks h)) (heap_first h) (heap_last h) (heap_mapped h) (ready h) (bytes h).
Definition set_first (p : Z) (h : heap) : heap :=
  Heap (blocks h) p (heap_last h) (heap_mapped h) (ready h) (bytes h).
Definition set_last (p : Z) (h : heap) : heap :=
  Heap (blocks h) (heap_first h) p (heap_mapped h) (ready h) (bytes h).
Definition set_mapped (n : Z) (h : heap) : heap :=
  Heap (blocks h) (heap_first h) (heap_last h) n (ready h) (bytes h).
Definition set_ready (b : bool) (h : heap) : heap :=
  Heap (blocks h) (heap_first h) (heap_last h) (heap_mapped h) b (bytes h).
Definition set_bytes (m : gmap Z Z) (h : heap) : heap :=
  Heap (blocks h) (heap_first h) (heap_last h) (heap_mapped h) (ready h) m.

Definition put_size (n : Z) (b : block) : block := Block n (previous b) (next b) (free b).
Definition put_previous (p : Z) (b : block) : block := Block (size b) p (next b) (free b).
Definition put_next (p : Z) (b : block) : block := Block (size b) (previous b) p (free b).
Definition put_free (f : bool) (b : block) : block := Block (size b) (previous b) (next b) f.
Definition hupd (p : Z) (f : block → block) (h : heap) : heap := hput p (f (hget h p)) h.

(** ** Operations *)

Definition aligned (n : Z) : Z :=
  if (n =? 0) || (n >? HEAP_LIMIT - sizeof_block) then 0
  else Z.land (n + HEAP_ALIGNMENT - 1) (not32 (HEAP_ALIGNMENT - 1)).

Section Grow.
Context `{PageBacking B}.

(** The mapping loop of [grow]: bytes added and the backing it leaves. *)
Fixpoint grow_map (fuel : nat) (base growth added : Z) (b : B) : Z * B :=
  match fuel with
  | O => (added, b)
  | S fuel =>
      if added <? growth then
        let '(physical, b) := pb_allocate b in
        if physical =? 0 then (added, b) else
        let '(mapped, b) := pb_map (base + added) physical b in
        if mapped then grow_map fuel base growth (added + HEAP_PAGE) b
        else (added, snd (pb_free physical b))
      else (added, b)
  end.

(** The rollback loop. *)
Fixpoint grow_unmap (fuel : nat) (base added : Z) (b : B) : B :=
  match fuel with
  | O => b
  | S fuel =>
      if added =? 0 then b else
      let added := added - HEAP_PAGE in
      let '(physical, b) := pb_unmap (base + added) b in
      grow_unmap fuel base added
        (match physical with Some frame => snd (pb_free frame b) | None => b end)
  end.

(** Extend the last free block, or append a new one over the new pages. *)
Definition grow_blocks (growth : Z) (h : heap) : heap :=
  let h :=
    if negb (heap_last h =? 0) && free (hget h (heap_last h)) then
      hupd (heap_last h) (λ b, put_size (size b + growth) b) h
    else
      let block := HEAP_BASE + heap_mapped h in
      let h := hput block (Block (growth - sizeof_block) (heap_last h) 0 true) h in
      let h := if negb (heap_last h =? 0) then hupd (heap_last h) (put_next block) h
               else set_first block h in
      set_last block h in
  set_mapped (heap_mapped h + growth) h.

Definition grow (n : Z) (s : heap * B) : bool * (heap * B) :=
  let '(h, b) := s in
  let growth := Z.land (wrap32 (n + HEAP_PAGE - 1)) (not32 (HEAP_PAGE - 1)) in
  if (growth =? 0) || (growth >? HEAP_LIMIT - heap_mapped h) then (false, s) else
  let base := HEAP_BASE + heap_mapped h in
  let fuel := Z.to_nat (growth / HEAP_PAGE) in
  let '(added, b) := grow_map fuel base growth 0 b in
  if negb (added =? growth) then (false, (h, grow_unmap fuel base added b))
  else (true, (grow_blocks growth h, b)).
End Grow.

(** [for (block = first; block; block = block->next) if (test) return block;] The
    list has at most one header per 32 mapped bytes. *)
Fixpoint search (fuel : nat) (h : heap) (p : Z) (test : Z → block → bool) : Z :=
  match fuel with
  | O => 0
  | S fuel =>
      if p =? 0 then 0 else
      if test p (hget h p) then p else search fuel h (next (hget h p)) test
  end.
Definition walk (h : heap) (test : Z → block → bool) : Z :=
  search (S (Z.to_nat (heap_mapped h / 32))) h (heap_first h) test.

Definition find (pointer : Z) (h : heap) : Z :=
  walk h (λ p b, (p + sizeof_block =? pointer) && negb (free b)).

Definition join_next (p : Z) (h : heap) : heap :=
  let n := next (hget h p) in
  let h := hupd p (λ b, put_size (size b + (sizeof_block + size (hget h n))) b) h in
  let h := hupd p (put_next (next (hget h n))) h in
  let n := next (hget h p) in
  if negb (n =? 0) then hupd n (put_previous p) h else set_last p h.

Definition split (p n : Z) (h : heap) : heap :=
  let b := hget h p in
  if wrap32 (size b - n) <? sizeof_block + HEAP_ALIGNMENT then h else
  let rest := p + sizeof_block + n in
  let h := hput rest (Block (size b - n - sizeof_block) p (next b) true) h in
  let h := if negb (next b =? 0) then hupd (next b) (put_previous rest) h else set_last rest h in
  let h := hupd p (put_next rest) h in
  let h := hupd p (put_size n) h in
  let r := hget h rest in
  if negb (next r =? 0) && free (hget h (next r)) then join_next rest h else h.

(** [split(block, size); block->free = false; return block + 1;] *)
Definition claim (p n : Z) (h : heap) : Z * heap :=
  (p + sizeof_block, hupd p (put_free false) (split p n h)).

Section Allocate.
Context `{PageBacking B}.

Definition allocate (n : Z) (s : heap * B) : Z * (heap * B) :=
  let '(h, b) := s in
  let n := aligned n in
  if negb (ready h) || (n =? 0) then (0, s) else
  let p := walk h (λ _ b, free b && (n <=? size b)) in
  if negb (p =? 0) then let '(r, h) := claim p n h in (r, (h, b)) else
  let last := hget h (heap_last h) in
  let needed := if free last then n - size last else n + sizeof_block in
  let '(ok, (h, b)) := grow needed (h, b) in
  if negb ok then (0, (h, b)) else
  let '(r, h) := claim (heap_last h) n h in (r, (h, b)).
End Allocate.

Definition release (p : Z) (h : heap) : heap :=
  let h := hupd p (put_free true) h in
  let n := next (hget h p) in
  let h := if negb (n =? 0) && free (hget h n) then join_next p h else h in
  let q := previous (hget h p) in
  if negb (q =? 0) && free (hget h q) then join_next q h else h.

(** memset and memcpy on the payload memory. *)
Definition fill (a n v : Z) (m : gmap Z Z) : gmap Z Z :=
  for_range 0 n (λ i m, aset m (a + i) v) m.
Definition copy (dst src n : Z) (m : gmap Z Z) : gmap Z Z :=
  for_range 0 n (λ i m, aset m (dst + i) (aget m (src + i))) m.

Section Public.
Context `{PageBacking B}.

Definition heap_initialize (s : heap * B) : bool * (heap * B) :=
  if ready (fst s) then (false, s) else
  let '(ok, (h, b)) := grow HEAP_PAGE s in
  if ok then (true, (set_ready true h, b)) else (false, (h, b)).

Definition kmalloc (n : Z) (s : heap * B) : Z * (heap * B) := allocate n s.

Definition kcalloc (count n : Z) (s : heap * B) : Z * (heap * B) :=
  if (count =? 0) || (n =? 0) || (count >? UINT32_MAX / n) then (0, s) else
  let '(p, (h, b)) := kmalloc (count * n) s in
  (p, (if negb (p =? 0) then set_bytes (fill p (count * n) 0 (bytes h)) h else h, b)).

Definition kfree (pointer : Z) (s : heap * B) : bool * (heap * B) :=
  let '(h, b) := s in
  if pointer =? 0 then (true, s) else
  let p := find pointer h in
  (negb (p =? 0), ((if negb (p =? 0) then release p h else h), b)).

Definition krealloc (pointer n : Z) (s : heap * B) : Z * (heap * B) :=
  if pointer =? 0 then kmalloc n s else
  if n =? 0 then (0, snd (kfree pointer s)) else
  let '(h, b) := s in
  let p := find pointer h in
  let wanted := aligned n in
  if (p =? 0) || (wanted =? 0) then (0, s) else
  let blk := hget h p in
  if wanted <=? size blk then (pointer, (split p wanted h, b)) else
  if negb (next blk =? 0) && free (hget h (next blk)) &&
     (wanted <=? size blk + sizeof_block + size (hget h (next blk))) then
    (pointer, (split p wanted (join_next p h), b))
  else
    let '(result, (h, b)) := allocate wanted (h, b) in
    if negb (result =? 0) then
      let h := set_bytes (copy result pointer (size (hget h p)) (bytes h)) h in
      (result, (release p h, b))
    else (0, (h, b)).
End Public.

(** [heap_stats]: one pass over the list. *)
Fixpoint stats_loop (fuel : nat) (h : heap) (p : Z) (st : heap_statistics) : heap_statistics :=
  match fuel with
  | O => st
  | S fuel =>
      if p =? 0 then st else
      let b := hget h p in
      stats_loop fuel h (next b)
        (if free b then
           HeapStatistics (mapped_bytes st) (used_bytes st) (free_bytes st + size b) (allocations st)
         else
           HeapStatistics (mapped_bytes st) (used_bytes st + size b) (free_bytes st) (allocations st + 1))
  end.
Definition heap_stats (h : heap) : heap_statistics :=
  stats_loop (S (Z.to_nat (heap_mapped h / 32))) h (heap_first h) (HeapStatistics (heap_mapped h) 0 0 0).

(** ** The list view

    A segment is one block; a heap represents a list of segments when its
    headers form the doubly linked chain of that list. Headers of blocks that
    were joined away stay in memory and are not part of the chain. *)

Record seg := Seg { addr : Z; cap : Z; unused : bool }.
Definition payload (x : seg) : Z := addr x + sizeof_block.
Definition seg_end (x : seg) : Z := addr x + sizeof_block + cap x.

Definition first_addr (l : list seg) (d : Z) : Z := match l with [] => d | x :: _ => addr x end.
Fixpoint last_addr (l : list seg) (d : Z) : Z :=
  match l with [] => d | x :: l => last_addr l (addr x) end.

Fixpoint chain (g : Z → block) (prev : Z) (l : list seg) (nxt : Z) : Prop :=
  match l with
  | [] => True
  | x :: l =>
      g (addr x) = Block (cap x) prev (first_addr l nxt) (unused x) ∧ chain g (addr x) l nxt
  end.

(** Segments tile the bytes from [a] to [e] with 16-byte granules. *)
Fixpoint tiles (a : Z) (l : list seg) (e : Z) : Prop :=
  match l with
  | [] => a = e
  | x :: l => addr x = a ∧ 16 ≤ cap x ∧ (16 | cap x) ∧ tiles (seg_end x) l e
  end.

(** No two neighbours are both free. *)
Fixpoint separated (l : list seg) : Prop :=
  match l with
  | x :: ((y :: _) as l') => (unused x && unused y = false) ∧ separated l'
  | _ => True
  end.

Record represents (h : heap) (l : list seg) : Prop := Represents {
  rep_chain : chain (hget h) 0 l 0;
  rep_first : heap_first h = first_addr l 0;
  rep_last : heap_last h = last_addr l 0;
  rep_tiles : tiles HEAP_BASE l (HEAP_BASE + heap_mapped h);
  rep_mapped : 0 ≤ heap_mapped h ≤ HEAP_LIMIT ∧ (HEAP_PAGE | heap_mapped h);
  rep_nonempty : ready h = true → l ≠ []
}.
Definition heap_inv (h : heap) (l : list seg) : Prop := represents h l ∧ separated l.

(** ** Lemmas on chains and tilings *)

Lemma first_addr_app l1 l2 d : first_addr (l1 ++ l2) d = first_addr l1 (first_addr l2 d).
Proof. by destruct l1. Qed.
Lemma last_addr_app l1 l2 d : last_addr (l1 ++ l2) d = last_addr l2 (last_addr l1 d).
Proof. revert d; induction l1; intros d; cbn; auto. Qed.

Lemma chain_app g prev l1 l2 nxt :
  chain g prev (l1 ++ l2) nxt ↔
  chain g prev l1 (first_addr l2 nxt) ∧ chain g (last_addr l1 prev) l2 nxt.
Proof.
  revert prev; induction l1 as [|x l1 IH]; intros prev; cbn; [tauto|].
  rewrite IH, first_addr_app. tauto.
Qed.

Lemma chain_frame g g' prev l nxt :
  (∀ p, p ∈ addr <$> l → g' p = g p) → chain g prev l nxt → chain g' prev l nxt.
Proof.
  revert prev; induction l as [|x l IH]; intros prev; cbn; [done|].
  intros Hg [Hx Hl]. split.
  - rewrite Hg; [done|]. by left.
  - apply IH; [|done]. intros p Hp. apply Hg. by right.
Qed.

Lemma tiles_app a l1 l2 e : tiles a (l1 ++ l2) e ↔ ∃ m, tiles a l1 m ∧ tiles m l2 e.
Proof.
  revert a; induction l1 as [|x l1 IH]; intros a; cbn.
  - split; [intros; eauto|]. by intros (m & -> & ?).
  - rewrite IH. naive_solver.
Qed.

Lemma tiles_le a l e : tiles a l e → a ≤ e.
Proof.
  revert a; induction l as [|x l IH]; intros a; cbn; [lia|].
  intros (<- & ? & _ & H%IH). unfold seg_end, sizeof_block in H. lia.
Qed.

Lemma tiles_elem a l e x : tiles a l e → x ∈ l → a ≤ addr x ∧ 16 ≤ cap x ∧ seg_end x ≤ e.
Proof.
  revert a; induction l as [|y l IH]; intros a; cbn; [by rewrite elem_of_nil|].
  rewrite elem_of_cons. intros (<- & ? & _ & H) [->|Hin].
  - apply tiles_le in H. lia.
  - apply IH in H; [|done]. unfold seg_end, sizeof_block in *. lia.
Qed.

Lemma tiles_addr_ge a l e p : tiles a l e → p ∈ addr <$> l → a ≤ p < e.
Proof.
  intros Ht (x & -> & Hx)%list_elem_of_fmap. destruct (tiles_elem _ _ _ _ Ht Hx) as (? & ? & Hend).
  unfold seg_end, sizeof_block in Hend. lia.
Qed.

Lemma tiles_aligned a l e x : tiles a l e → (16 | a) → x ∈ l → (16 | addr x).
Proof.
  revert a; induction l as [|y l IH]; intros a; cbn; [by rewrite elem_of_nil|].
  rewrite elem_of_cons. intros (<- & _ & Hc & H) Ha [->|Hin]; [done|].
  apply (IH (seg_end y)); [done| |done]. unfold seg_end, sizeof_block.
  apply Z.divide_add_r; [|done]. apply Z.divide_add_r; [done|]. by exists 1.
Qed.

(** Segments of a tiling do not overlap. *)
Lemma tiles_disjoint a l e x y : tiles a l e → x ∈ l → y ∈ l →
  x = y ∨ seg_end x ≤ addr y ∨ seg_end y ≤ addr x.
Proof.
  revert a; induction l as [|z l IH]; intros a; cbn; [by rewrite elem_of_nil|].
  rewrite !elem_of_cons. intros (<- & _ & _ & H) [->|Hx] [->|Hy]; [by left| | |by eapply IH].
  - right; left. by destruct (tiles_elem _ _ _ _ H Hy).
  - right; right. by destruct (tiles_elem _ _ _ _ H Hx).
Qed.

Lemma tiles_length a l e : tiles a l e → 32 * Z.of_nat (length l) ≤ e - a.
Proof.
  revert a; induction l as [|x l IH]; intros a; cbn [tiles length]; [lia|].
  intros (<- & ? & _ & H%IH). unfold seg_end, sizeof_block in H. lia.
Qed.

(** The three parts of a tiling around one segment have distinct addresses. *)
Lemma tiles_split_addrs a l1 x l2 e : tiles a (l1 ++ x :: l2) e →
  addr x ∉ addr <$> l1 ∧ addr x ∉ addr <$> l2 ∧
  ∀ p, p ∈ addr <$> l2 → p ∉ addr <$> l1.
Proof.
  intros (m & H1 & <- & Hc & _ & H2)%tiles_app.
  assert (addr x < seg_end x) by (unfold seg_end, sizeof_block; lia).
  split; [|split].
  - intros Hp. pose proof (tiles_addr_ge _ _ _ _ H1 Hp). lia.
  - intros Hp. pose proof (tiles_addr_ge _ _ _ _ H2 Hp). lia.
  - intros p Hp Hp'. pose proof (tiles_addr_ge _ _ _ _ H2 Hp). pose proof (tiles_addr_ge _ _ _ _ H1 Hp'). lia.
Qed.

Lemma hget_hput p b h q : hget (hput p b h) q = if decide (q = p) then b else hget h q.
Proof.
  unfold hget, hput. cbn. destruct (decide (q = p)) as [->|].
  - by rewrite lookup_insert_eq.
  - by rewrite lookup_insert_ne.
Qed.
Lemma hget_hupd p f h q : hget (hupd p f h) q = if decide (q = p) then f (hget h p) else hget h q.
Proof. apply hget_hput. Qed.
Lemma hget_set_last p h q : hget (set_last p h) q = hget h q.
Proof. done. Qed.
#[export] Hint Rewrite hget_hput hget_hupd hget_set_last : heap.

(** Decide the address comparisons in sight. *)
Ltac heap_cases :=
  autorewrite with heap in *; repeat case_decide; simplify_eq/=; try lia; try done.

(** The block in the middle of a represented list. *)
Lemma represents_get h l1 x l2 : represents h (l1 ++ x :: l2) →
  hget h (addr x) = Block (cap x) (last_addr l1 0) (first_addr l2 0) (unused x).
Proof. intros [Hc _ _ _ _ _]. apply chain_app in Hc as [_ [Hx _]]. done. Qed.

Lemma represents_addr h l x : represents h l → x ∈ l → HEAP_BASE ≤ addr x.
Proof. intros [_ _ _ Ht _ _] Hx. by destruct (tiles_elem _ _ _ _ Ht Hx). Qed.

(** A change of the header at [addr x] and of the back pointer after it: the
    list around the change keeps its representation. *)
Lemma represents_replace h h' l1 x l2 l2' :
  represents h (l1 ++ x :: l2') →
  tiles (addr x) l2 (HEAP_BASE + heap_mapped h) → first_addr l2 0 = addr x →
  chain (hget h') (last_addr l1 0) l2 0 →
  (∀ p, p ∈ addr <$> l1 → hget h' p = hget h p) →
  heap_first h' = heap_first h → heap_last h' = last_addr l2 0 →
  heap_mapped h' = heap_mapped h → ready h' = ready h →
  represents h' (l1 ++ l2).
Proof.
  intros [Hc Hf Hl Ht Hm Hne] Ht2 Ha Hc2 Hframe Ef El Em Er.
  assert (l2 ≠ []) as Hl2.
  { intros ->. cbn in Ha. assert (HEAP_BASE ≤ addr x) as Hx.
    { destruct (tiles_elem _ _ _ x Ht) as [? _]; [set_solver|done]. }
    unfold HEAP_BASE in Hx. lia. }
  apply chain_app in Hc as [Hc1 _]. constructor.
  - apply chain_app. split; [|done]. rewrite Ha. by apply (chain_frame (hget h)).
  - rewrite Ef, Hf, !first_addr_app, Ha. done.
  - rewrite El, last_addr_app. destruct l2; [done|]. done.
  - rewrite Em. apply tiles_app in Ht as (mid & H1 & Hx & _). apply tiles_app. exists mid.
    split; [done|]. by rewrite <- Hx.
  - by rewrite Em.
  - intros _. by destruct l1, l2.
Qed.

(** Facts about three consecutive parts of a represented list. *)
Lemma represents_order h l1 x l2 : represents h (l1 ++ x :: l2) →
  HEAP_BASE ≤ addr x ∧ (∀ p, p ∈ addr <$> l1 → p < addr x) ∧
  (∀ p, p ∈ addr <$> l2 → addr x < p) ∧
  tiles (addr x) (x :: l2) (HEAP_BASE + heap_mapped h).
Proof.
  intros Hr. pose proof (rep_tiles _ _ Hr) as H.
  apply tiles_app in H as (mid & H1 & H2). pose proof H2 as (Hx & Hcap & _ & H3).
  subst mid. split_and!; [| | |done].
  - by apply tiles_le in H1.
  - intros p Hp. by destruct (tiles_addr_ge _ _ _ _ H1 Hp).
  - intros p Hp. destruct (tiles_addr_ge _ _ _ _ H3 Hp) as [Hge _].
    unfold seg_end, sizeof_block in Hge. lia.
Qed.

(** What [join_next] writes, header by header. *)
Lemma join_next_get h p b c n nn :
  hget h p = Block (size b) (previous b) n (free b) → hget h n = Block (size c) (previous c) nn (free c) →
  n ≠ p → nn ≠ p →
  (∀ q, hget (join_next p h) q =
     if decide (q = p) then Block (size b + (sizeof_block + size c)) (previous b) nn (free b)
     else if decide (q = nn ∧ nn ≠ 0) then put_previous p (hget h nn) else hget h q) ∧
  heap_last (join_next p h) = if decide (nn = 0) then p else heap_last h.
Proof.
  intros Hp Hn Hne Hne'. unfold join_next. rewrite Hp. cbn [next]. rewrite Hn. cbn [size].
  set (h1 := hupd p _ h).
  assert (∀ q, hget h1 q = if decide (q = p)
    then Block (size b + (sizeof_block + size c)) (previous b) n (free b) else hget h q) as H1.
  { intros q. unfold h1. rewrite hget_hupd. case_decide; [by rewrite Hp|done]. }
  rewrite (H1 n), decide_False, Hn by done. cbn [next].
  set (h2 := hupd p _ h1).
  assert (∀ q, hget h2 q = if decide (q = p)
    then Block (size b + (sizeof_block + size c)) (previous b) nn (free b) else hget h q) as H2.
  { intros q. unfold h2. rewrite hget_hupd, !H1. case_decide; [by rewrite decide_True by done|done]. }
  rewrite (H2 p), decide_True by done. cbn [next].
  destruct (Z.eqb_spec nn 0) as [->|Hnn]; cbn [negb].
  - split; [|done]. intros q. rewrite hget_set_last, H2. case_decide; [done|].
    rewrite decide_False by tauto. done.
  - split; [|by rewrite decide_False]. intros q. rewrite hget_hupd, !H2.
    destruct (decide (q = nn)) as [->|]; [rewrite !(decide_False (P := nn = p)), decide_True by done; done|].
    case_decide; [done|]. rewrite decide_False by tauto. done.
Qed.
Lemma join_next_frame p h :
  heap_first (join_next p h) = heap_first h ∧ heap_mapped (join_next p h) = heap_mapped h ∧
  ready (join_next p h) = ready h ∧ bytes (join_next p h) = bytes h.
Proof. unfold join_next. by destruct (negb _). Qed.

Definition joined (x y : seg) : seg := Seg (addr x) (cap x + (sizeof_block + cap y)) (unused x).

Lemma join_next_represents h l1 x y l2 :
  represents h (l1 ++ x :: y :: l2) → represents (join_next (addr x) h) (l1 ++ joined x y :: l2).
Proof.
  intros Hr. pose proof (represents_get _ _ _ _ Hr) as Hx.
  assert (represents h ((l1 ++ [x]) ++ y :: l2)) as Hr' by by rewrite <- app_assoc.
  pose proof (represents_get _ _ _ _ Hr') as Hy. rewrite last_addr_app in Hy. cbn in Hx, Hy.
  destruct (represents_order _ _ _ _ Hr) as (Hbase & Hlt & Hgt & Ht).
  destruct (represents_order _ _ _ _ Hr') as (_ & _ & Hgt2 & _).
  assert (addr x < addr y) as Hxy by (apply Hgt; cbn; by left).
  assert (first_addr l2 0 = 0 ∨ addr y < first_addr l2 0) as Hn.
  { destruct l2 as [|z l3]; [by left|right]. apply Hgt2. cbn. by left. }
  unfold HEAP_BASE in Hbase.
  destruct (join_next_get h (addr x) (Block (cap x) (last_addr l1 0) 0 (unused x))
    (Block (cap y) (addr x) 0 (unused y)) (addr y) (first_addr l2 0) Hx Hy ltac:(lia) ltac:(lia)) as [Hget Hlast].
  cbn in Hget. destruct (join_next_frame (addr x) h) as (Ef & Em & Er & _).
  apply (represents_replace h _ l1 x (joined x y :: l2) (y :: l2)); auto.
  - cbn in Ht |- *. destruct Ht as (_ & ? & Dx & Hay & ? & Dy & Ht). split; [done|].
    unfold joined; cbn. unfold seg_end, sizeof_block in *. cbn in *. split; [lia|]. split.
    + apply Z.divide_add_r; [done|]. apply Z.divide_add_r; [by exists 1|done].
    + by replace (addr x + 16 + (cap x + (16 + cap y))) with (addr y + 16 + cap y) by lia.
  - pose proof (rep_chain _ _ Hr) as Hc. apply chain_app in Hc as (_ & _ & _ & Hc2).
    cbn. split; [by rewrite Hget, decide_True|].
    destruct l2 as [|z l3]; [done|]. cbn in Hc2, Hget, Hn, Hgt2 |- *. destruct Hc2 as [Hz Hc3].
    assert (addr y < addr z) by (apply Hgt2; by left). split.
    + rewrite Hget, decide_False, decide_True, Hz by lia. done.
    + eapply chain_frame, Hc3. intros p Hp. rewrite Hget.
      assert (addr z < p) as Hpz.
      { assert (represents h ((l1 ++ [x; y]) ++ z :: l3)) as Hr3 by (by rewrite <- app_assoc).
        destruct (represents_order _ _ _ _ Hr3) as (_ & _ & Hgt3 & _). by apply Hgt3. }
      rewrite !decide_False by lia. done.
  - intros p Hp. specialize (Hlt p Hp). rewrite Hget, !decide_False by lia. done.
  - rewrite Hlast. cbn. destruct l2 as [|z l3]; [done|].
    assert (addr y < addr z) by (apply Hgt2; cbn; by left). rewrite decide_False by (cbn; lia). rewrite (rep_last _ _ Hr), last_addr_app. done.
Qed.

(** The writes of [split] up to the final join. *)
Definition split_writes (p n : Z) (h : heap) : heap :=
  let b := hget h p in
  let rest := p + sizeof_block + n in
  let h := hput rest (Block (size b - n - sizeof_block) p (next b) true) h in
  let h := if negb (next b =? 0) then hupd (next b) (put_previous rest) h else set_last rest h in
  let h := hupd p (put_next rest) h in
  hupd p (put_size n) h.

Lemma split_eq p n h : split p n h =
  if wrap32 (size (hget h p) - n) <? sizeof_block + HEAP_ALIGNMENT then h else
  let h' := split_writes p n h in
  let r := hget h' (p + sizeof_block + n) in
  if negb (next r =? 0) && free (hget h' (next r)) then join_next (p + sizeof_block + n) h' else h'.
Proof. done. Qed.

Lemma split_writes_get h p n b nx :
  let rest := p + sizeof_block + n in
  hget h p = Block (size b) (previous b) nx (free b) → rest ≠ p → nx ≠ p → nx ≠ rest →
  (∀ q, hget (split_writes p n h) q =
     if decide (q = p) then Block n (previous b) rest (free b)
     else if decide (q = nx ∧ nx ≠ 0) then put_previous rest (hget h nx)
     else if decide (q = rest) then Block (size b - n - sizeof_block) p nx true else hget h q) ∧
  heap_last (split_writes p n h) = if decide (nx = 0) then rest else heap_last h.
Proof.
  intros rest Hp Hr Hnp Hnr. unfold split_writes. fold rest. rewrite Hp. cbn [size next].
  set (h1 := hput rest _ h).
  assert (∀ q, hget h1 q = if decide (q = rest) then Block (size b - n - sizeof_block) p nx true
    else hget h q) as H1 by (intros q; apply hget_hput).
  set (h2 := if negb (nx =? 0) then _ else _).
  assert (∀ q, hget h2 q = if decide (q = nx ∧ nx ≠ 0) then put_previous rest (hget h nx) else hget h1 q) as H2.
  { intros q. unfold h2. destruct (Z.eqb_spec nx 0); cbn [negb].
    - rewrite hget_set_last, decide_False by tauto. done.
    - rewrite hget_hupd, !H1, !(decide_False (P := nx = rest)) by done.
      destruct (decide (q = nx)); [by rewrite decide_True by done|].
      rewrite (decide_False (P := q = nx ∧ _)) by tauto. done. }
  assert (hget h2 p = hget h p) as H2p.
  { rewrite H2, H1, !decide_False; [done|congruence|intros [? _]; congruence]. }
  split.
  - intros q. rewrite !hget_hupd, H2p, (decide_True (P := p = p)), Hp by done.
    destruct (decide (q = p)); [done|]. rewrite H2, H1. done.
  - cbn. unfold h2. destruct (Z.eqb_spec nx 0), (decide (nx = 0)); done || congruence.
Qed.
Lemma split_writes_frame p n h :
  heap_first (split_writes p n h) = heap_first h ∧ heap_mapped (split_writes p n h) = heap_mapped h ∧
  ready (split_writes p n h) = ready h ∧ bytes (split_writes p n h) = bytes h.
Proof. unfold split_writes. by destruct (negb _). Qed.

Definition tail_seg (x : seg) (n : Z) : seg := Seg (addr x + sizeof_block + n) (cap x - n - sizeof_block) true.

Lemma split_writes_represents h l1 x l2 n :
  represents h (l1 ++ x :: l2) → 16 ≤ n → (16 | n) → n + 32 ≤ cap x →
  represents (split_writes (addr x) n h) (l1 ++ Seg (addr x) n (unused x) :: tail_seg x n :: l2).
Proof.
  intros Hr Hn Dn Hroom. pose proof (represents_get _ _ _ _ Hr) as Hx.
  destruct (represents_order _ _ _ _ Hr) as (Hbase & Hlt & Hgt & Ht). unfold HEAP_BASE in Hbase.
  pose proof Ht as (_ & _ & Dx & Ht2). 
  assert (∀ p, p ∈ addr <$> l2 → seg_end x ≤ p) as Hge by (intros p Hp; by destruct (tiles_addr_ge _ _ _ _ Ht2 Hp)).
  unfold seg_end, sizeof_block in Hge.
  assert (first_addr l2 0 = 0 ∨ addr x + 16 + cap x ≤ first_addr l2 0) as Hn2.
  { destruct l2 as [|z l3]; [by left|right]. apply Hge. cbn. by left. }
  destruct (split_writes_get h (addr x) n (Block (cap x) (last_addr l1 0) 0 (unused x)) (first_addr l2 0) Hx
    ltac:(unfold sizeof_block; lia) ltac:(lia) ltac:(unfold sizeof_block; lia)) as [Hget Hlast].
  cbn [size previous free] in Hget. destruct (split_writes_frame (addr x) n h) as (Ef & Em & Er & _).
  apply (represents_replace h _ l1 x _ l2); auto.
  - cbn. unfold seg_end, tail_seg, sizeof_block in *. cbn in *. split_and!; [done|done|done|done|lia| |].
    + apply Z.divide_sub_r; [by apply Z.divide_sub_r|by exists 1].
    + by replace (addr x + 16 + n + 16 + (cap x - n - 16)) with (addr x + 16 + cap x) by lia.
  - pose proof (rep_chain _ _ Hr) as Hc. apply chain_app in Hc as (_ & _ & Hc2).
    cbn. split; [by rewrite Hget, decide_True|]. unfold tail_seg; cbn. split.
    + rewrite Hget, !decide_False, decide_True by (unfold sizeof_block; lia). done.
    + destruct l2 as [|z l3]; [done|]. cbn in Hc2, Hget |- *. destruct Hc2 as [Hz Hc3].
      assert (addr x + 16 + cap x ≤ addr z) by (apply Hge; cbn; by left). split.
      * rewrite Hget, decide_False, decide_True, Hz by lia. done.
      * eapply chain_frame, Hc3. intros p Hp. rewrite Hget.
        assert (represents h ((l1 ++ [x]) ++ z :: l3)) as Hr3 by (by rewrite <- app_assoc).
        destruct (represents_order _ _ _ _ Hr3) as (_ & _ & Hgt3 & _). specialize (Hgt3 p Hp).
        rewrite !decide_False by (unfold sizeof_block; lia). done.
  - intros p Hp. specialize (Hlt p Hp). rewrite Hget, !decide_False by (unfold sizeof_block; lia). done.
  - rewrite Hlast. cbn. destruct l2 as [|z l3]; [done|].
    assert (addr x + 16 + cap x ≤ addr z) by (apply Hge; cbn; by left).
    rewrite decide_False by (cbn; lia). rewrite (rep_last _ _ Hr), last_addr_app. done.
Qed.

(** ** The operations on lists of segments *)

(** A free segment in front of [l], joined with a free neighbour. *)
Definition absorb (r : seg) (l : list seg) : list seg :=
  match l with
  | y :: l' => if unused y then joined r y :: l' else r :: l
  | [] => [r]
  end.
Definition split_list (n : Z) (x : seg) (l : list seg) : list seg :=
  if cap x - n <? 32 then x :: l else Seg (addr x) n (unused x) :: absorb (tail_seg x n) l.

Lemma represents_cap h l x : represents h l → x ∈ l → 16 ≤ cap x ∧ cap x ≤ HEAP_LIMIT.
Proof.
  intros Hr Hx. destruct (tiles_elem _ _ _ _ (rep_tiles _ _ Hr) Hx) as (? & ? & Hend).
  destruct (rep_mapped _ _ Hr). unfold seg_end, sizeof_block in Hend. lia.
Qed.

Lemma absorb_represents h l1 r l2 : represents h (l1 ++ r :: l2) →
  represents (let b := hget h (addr r) in
              if negb (next b =? 0) && free (hget h (next b)) then join_next (addr r) h else h)
             (l1 ++ absorb r l2).
Proof.
  intros Hr. rewrite (represents_get _ _ _ _ Hr). cbn [next]. destruct l2 as [|y l3]; [done|].
  assert (represents h ((l1 ++ [r]) ++ y :: l3)) as Hr' by by rewrite <- app_assoc.
  cbn [first_addr absorb]. rewrite (represents_get _ _ _ _ Hr'). cbn [free].
  destruct (represents_order _ _ _ _ Hr') as (Hb & _).
  destruct (Z.eqb_spec (addr y) 0) as [E|_]; [unfold HEAP_BASE in Hb; lia|]. cbn [negb andb].
  destruct (unused y); [by apply join_next_represents|done].
Qed.

Lemma split_represents h l1 x l2 n :
  represents h (l1 ++ x :: l2) → 16 ≤ n ≤ cap x → (16 | n) →
  represents (split (addr x) n h) (l1 ++ split_list n x l2).
Proof.
  intros Hr Hn Dn. destruct (represents_cap _ _ x Hr) as [_ Hcap]; [set_solver|].
  rewrite split_eq, (represents_get _ _ _ _ Hr). cbn [size].
  rewrite wrap32_small by (unfold HEAP_LIMIT, UINT32_MAX in *; lia).
  unfold split_list. change (sizeof_block + HEAP_ALIGNMENT) with 32.
  destruct (Z.ltb_spec (cap x - n) 32); [done|].
  pose proof (split_writes_represents h l1 x l2 n Hr ltac:(lia) Dn ltac:(lia)) as H'.
  rewrite (cons_middle (Seg _ _ _)), app_assoc in H'. apply absorb_represents in H'.
  rewrite <- app_assoc in H'. exact H'.
Qed.

Lemma search_spec h (t : seg → bool) (test : Z → block → bool) l1 l2 fuel :
  (∀ x p n, test (addr x) (Block (cap x) p n (unused x)) = t x) →
  represents h (l1 ++ l2) → (length l2 < fuel)%nat →
  (∃ m x m', l2 = m ++ x :: m' ∧ t x = true ∧ Forall (λ y, t y = false) m ∧
     search fuel h (first_addr l2 0) test = addr x) ∨
  (Forall (λ y, t y = false) l2 ∧ search fuel h (first_addr l2 0) test = 0).
Proof.
  intros Ht. revert l1 l2; induction fuel as [|fuel IH]; intros l1 l2 Hr Hlen; [lia|].
  destruct l2 as [|x l2]; [right; done|]. cbn [search first_addr].
  pose proof (represents_get _ _ _ _ Hr) as Hx. destruct (represents_order _ _ _ _ Hr) as (Hb & _).
  destruct (Z.eqb_spec (addr x) 0) as [E|_]; [unfold HEAP_BASE in Hb; lia|].
  rewrite Hx, Ht. destruct (t x) eqn:Etx.
  - left. exists [], x, l2. done.
  - cbn [next]. rewrite (cons_middle x), app_assoc in Hr. cbn in Hlen.
    destruct (IH _ _ Hr ltac:(lia)) as [(m & y & m' & -> & ? & ? & ?)|[? ?]].
    + left. exists (x :: m), y, m'. split; [done|]. split; [done|]. split; [by constructor|done].
    + right. split; [by constructor|done].
Qed.

Lemma walk_spec h l (t : seg → bool) (test : Z → block → bool) :
  (∀ x p n, test (addr x) (Block (cap x) p n (unused x)) = t x) → represents h l →
  (∃ m x m', l = m ++ x :: m' ∧ t x = true ∧ Forall (λ y, t y = false) m ∧ walk h test = addr x) ∨
  (Forall (λ y, t y = false) l ∧ walk h test = 0).
Proof.
  intros Ht Hr. unfold walk. rewrite (rep_first _ _ Hr).
  apply (search_spec h t test [] l); [done|done|].
  pose proof (tiles_length _ _ _ (rep_tiles _ _ Hr)) as Hl.
  destruct (rep_mapped _ _ Hr) as [? _].
  enough (Z.of_nat (length l) ≤ heap_mapped h / 32) by lia. apply Z.div_le_lower_bound; lia.
Qed.

(** ** Live allocations and separation *)

(** Payload address to capacity, for the blocks in use. *)
Fixpoint live (l : list seg) : gmap Z Z :=
  match l with
  | [] => ∅
  | x :: l => if unused x then live l else <[payload x := cap x]> (live l)
  end.

Fixpoint ends_free (l : list seg) : bool :=
  match l with [] => false | [x] => unused x | _ :: l => ends_free l end.
Definition starts_free (l : list seg) : bool := match l with [] => false | x :: _ => unused x end.

Lemma separated_app l1 l2 :
  separated (l1 ++ l2) ↔ separated l1 ∧ separated l2 ∧ ends_free l1 && starts_free l2 = false.
Proof.
  induction l1 as [|x l1 IH]; [cbn; tauto|].
  destruct l1 as [|y l1].
  - destruct l2 as [|z l2]; cbn; [rewrite andb_false_r|]; tauto.
  - change (separated ((x :: y :: l1) ++ l2)) with
      ((unused x && unused y = false) ∧ separated ((y :: l1) ++ l2)).
    rewrite IH. cbn [separated ends_free]. tauto.
Qed.
Lemma ends_free_app l1 x l2 : ends_free (l1 ++ x :: l2) = ends_free (x :: l2).
Proof.
  induction l1 as [|y l1 IH]; [done|]. cbn [app]. rewrite <- IH. by destruct l1.
Qed.

Lemma live_lookup_ge a l e p : tiles a l e → p < a + sizeof_block → live l !! p = None.
Proof.
  revert a; induction l as [|x l IH]; intros a; cbn; [done|].
  intros (<- & ? & _ & H) Hp. unfold seg_end, payload, sizeof_block in *.
  assert (live l !! p = None) as E by (apply (IH (addr x + 16 + cap x)); [done|lia]).
  destruct (unused x); [done|]. rewrite lookup_insert_ne by lia. done.
Qed.

Lemma live_elem l p c : live l !! p = Some c → ∃ x, x ∈ l ∧ unused x = false ∧ p = payload x ∧ c = cap x.
Proof.
  induction l as [|x l IH]; cbn; [by rewrite lookup_empty|].
  destruct (unused x) eqn:E.
  - intros (y & ? & ?)%IH. exists y. split; [by right|done].
  - destruct (decide (p = payload x)) as [->|].
    + rewrite lookup_insert_eq. intros [= <-]. exists x. split; [by left|done].
    + rewrite lookup_insert_ne by done. intros (y & ? & ?)%IH. exists y. split; [by right|done].
Qed.

Lemma live_unused l1 x l2 : unused x = true → live (l1 ++ x :: l2) = live (l1 ++ l2).
Proof. intros E. induction l1 as [|y l1 IH]; cbn; [by rewrite E|by rewrite IH]. Qed.

Lemma live_app_unused l1 l2 : Forall (λ x, unused x = true) l2 → live (l1 ++ l2) = live l1.
Proof.
  intros H. induction H as [|x l Hx H IH]; [by rewrite app_nil_r|]. by rewrite live_unused.
Qed.

Lemma live_none a l1 x l2 e : tiles a (l1 ++ x :: l2) e → live (l1 ++ l2) !! payload x = None.
Proof.
  revert a; induction l1 as [|y l1 IH]; intros a; cbn.
  - intros (_ & ? & _ & H). apply (live_lookup_ge _ _ _ _ H). unfold seg_end, payload, sizeof_block. lia.
  - intros (<- & ? & _ & H). pose proof (IH _ H) as E.
    destruct (tiles_elem _ _ _ x H) as [Hge _]; [set_solver|].
    unfold seg_end, sizeof_block in Hge. unfold payload in *.
    destruct (unused y); [done|]. rewrite lookup_insert_ne by lia. done.
Qed.

Lemma live_used a l1 x l2 e : tiles a (l1 ++ x :: l2) e → unused x = false →
  live (l1 ++ x :: l2) = <[payload x := cap x]> (live (l1 ++ l2)).
Proof.
  intros Ht Hx. revert a Ht; induction l1 as [|y l1 IH]; intros a; cbn.
  - by rewrite Hx.
  - intros (<- & ? & _ & H). rewrite (IH _ H).
    destruct (tiles_elem _ _ _ x H) as [Hge _]; [set_solver|]. unfold seg_end, sizeof_block in Hge.
    destruct (unused y); [done|]. apply insert_insert_ne. unfold payload. lia.
Qed.

(** Distinct live payloads are disjoint, aligned and inside the window. *)
Lemma live_disjoint h l p c p' c' : represents h l →
  live l !! p = Some c → live l !! p' = Some c' →
  p = p' ∨ p + c ≤ p' ∨ p' + c' ≤ p.
Proof.
  intros Hr (x & Hx & _ & -> & ->)%live_elem (y & Hy & _ & -> & ->)%live_elem.
  destruct (tiles_disjoint _ _ _ _ _ (rep_tiles _ _ Hr) Hx Hy) as [->|[?|?]]; [by left|right; left|right; right];
    unfold payload, seg_end, sizeof_block in *; lia.
Qed.
Lemma live_bounds h l p c : represents h l → live l !! p = Some c →
  HEAP_BASE < p ∧ p + c ≤ HEAP_BASE + heap_mapped h ∧ 16 ≤ c ∧ (16 | p).
Proof.
  intros Hr (x & Hx & _ & -> & ->)%live_elem.
  destruct (tiles_elem _ _ _ _ (rep_tiles _ _ Hr) Hx) as (? & ? & Hend).
  unfold seg_end, payload, sizeof_block in *. split_and!; [lia|lia|lia|].
  apply Z.divide_add_r; [|by exists 1].
  apply (tiles_aligned _ _ _ x (rep_tiles _ _ Hr)); [by exists (HEAP_BASE / 16)|done].
Qed.

(** ** Separation and live maps through the list operations *)

Definition mark (x : seg) (f : bool) : seg := Seg (addr x) (cap x) f.

Lemma put_free_represents h l1 x l2 f : represents h (l1 ++ x :: l2) →
  represents (hupd (addr x) (put_free f) h) (l1 ++ mark x f :: l2).
Proof.
  intros Hr. pose proof (represents_get _ _ _ _ Hr) as Hx.
  destruct (represents_order _ _ _ _ Hr) as (_ & Hlt & Hgt & Ht).
  assert (∀ q, q ≠ addr x → hget (hupd (addr x) (put_free f) h) q = hget h q) as Hne.
  { intros q Hq. by rewrite hget_hupd, decide_False. }
  apply (represents_replace h _ l1 x (mark x f :: l2) l2); try done.
  - pose proof (rep_chain _ _ Hr) as Hc. apply chain_app in Hc as (_ & _ & Hc2). cbn. split.
    + by rewrite hget_hupd, decide_True, Hx.
    + eapply chain_frame, Hc2. intros p Hp. apply Hne. specialize (Hgt p Hp). lia.
  - intros p Hp. apply Hne. specialize (Hlt p Hp). lia.
  - cbn. by rewrite (rep_last _ _ Hr), last_addr_app.
Qed.

(** The head and the rest of a split. *)
Definition split_cap (n : Z) (x : seg) : Z := if cap x - n <? 32 then cap x else n.
Definition split_rest (n : Z) (x : seg) (l : list seg) : list seg :=
  if cap x - n <? 32 then l else absorb (tail_seg x n) l.
Lemma split_list_cons n x l :
  split_list n x l = Seg (addr x) (split_cap n x) (unused x) :: split_rest n x l.
Proof. unfold split_list, split_cap, split_rest. case_match; [by destruct x|done]. Qed.
Lemma split_cap_ge n x : n ≤ cap x → n ≤ split_cap n x.
Proof. unfold split_cap. case_match; lia. Qed.

Lemma absorb_separated r l : separated l → separated (absorb r l).
Proof.
  destruct l as [|y l]; [done|]. unfold absorb.
  destruct (unused y) eqn:Ey; [|cbn; rewrite Ey, andb_false_r; tauto].
  destruct l as [|z l]; cbn; [done|]. rewrite Ey. cbn. intros [-> ?]. by rewrite andb_false_r.
Qed.
Lemma absorb_live r l l1 : unused r = true → live (l1 ++ absorb r l) = live (l1 ++ l).
Proof.
  intros Hr. destruct l as [|y l]; cbn [absorb]; [by rewrite live_unused|].
  destruct (unused y) eqn:Ey; [|by rewrite live_unused].
  by rewrite !live_unused by done.
Qed.

Lemma split_rest_separated n x l : separated l → separated (split_rest n x l).
Proof. unfold split_rest. case_match; [done|apply absorb_separated]. Qed.
Lemma split_rest_live n x l l1 : live (l1 ++ split_rest n x l) = live (l1 ++ l).
Proof. unfold split_rest. case_match; [done|by apply absorb_live]. Qed.

(** A segment in use keeps its neighbours separated. *)
Lemma separated_used l1 x l2 :
  unused x = false → separated l1 → separated l2 → separated (l1 ++ x :: l2).
Proof.
  intros Hx H1 H2. apply separated_app. split; [done|]. split.
  - destruct l2; [done|]. cbn. by rewrite Hx.
  - cbn. by rewrite Hx, andb_false_r.
Qed.
Lemma separated_parts l1 x l2 : separated (l1 ++ x :: l2) →
  separated l1 ∧ separated l2 ∧ (unused x = true → ends_free l1 = false ∧ starts_free l2 = false).
Proof.
  intros (H1 & H2 & H3)%separated_app. split; [done|]. split; [by destruct l2; [|apply H2]|].
  intros Hx. cbn in H3. rewrite Hx, andb_true_r in H3. split; [done|].
  destruct l2; [done|]. cbn in H2. rewrite Hx in H2. by destruct H2.
Qed.

(** ** [split] on a block in use and [claim] of a free one *)

Definition same_rest (h h' : heap) : Prop :=
  heap_mapped h' = heap_mapped h ∧ ready h' = ready h ∧ bytes h' = bytes h.
#[global] Instance same_rest_preorder : PreOrder same_rest.
Proof. split; [done|]. intros ??? (?&?&?) (?&?&?). repeat split; congruence. Qed.

Lemma join_next_same p h : same_rest h (join_next p h).
Proof. by destruct (join_next_frame p h) as (_ & ?). Qed.
Lemma split_same p n h : same_rest h (split p n h).
Proof.
  rewrite split_eq. case_match; [done|]. cbn zeta.
  destruct (split_writes_frame p n h) as (_ & Hs). change (same_rest h (split_writes p n h)) in Hs.
  case_match; [|done]. etransitivity; [exact Hs|apply join_next_same].
Qed.

Lemma split_used h l1 x l2 n :
  heap_inv h (l1 ++ x :: l2) → unused x = false → 16 ≤ n ≤ cap x → (16 | n) →
  ∃ l' c, heap_inv (split (addr x) n h) l' ∧ n ≤ c ∧
    live l' = <[payload x := c]> (live (l1 ++ l2)).
Proof.
  intros [Hr Hs] Hx Hn Dn. apply separated_parts in Hs as (H1 & H2 & _).
  pose proof (split_represents _ _ _ _ _ Hr Hn Dn) as Hr'. rewrite split_list_cons, Hx in Hr'.
  eexists _, (split_cap n x). split; [split; [exact Hr'|]|].
  - apply separated_used; [done..|]. by apply split_rest_separated.
  - split; [apply split_cap_ge; lia|].
    rewrite (live_used _ _ _ _ _ (rep_tiles _ _ Hr')), split_rest_live by done. done.
Qed.

Lemma claim_spec h l1 x l2 n :
  heap_inv h (l1 ++ x :: l2) → unused x = true → 16 ≤ n ≤ cap x → (16 | n) →
  ∃ h' l' c, claim (addr x) n h = (payload x, h') ∧ same_rest h h' ∧
    heap_inv h' l' ∧ n ≤ c ∧ live l' = <[payload x := c]> (live (l1 ++ x :: l2)) ∧
    live (l1 ++ x :: l2) !! payload x = None.
Proof.
  intros [Hr Hs] Hx Hn Dn. apply separated_parts in Hs as (H1 & H2 & _).
  pose proof (split_represents _ _ _ _ _ Hr Hn Dn) as Hr'. rewrite split_list_cons in Hr'.
  apply (put_free_represents _ _ _ _ false) in Hr'.
  eexists _, _, (split_cap n x). split; [reflexivity|]. split; [exact (split_same (addr x) n h)|].
  split; [split; [exact Hr'|]|].
  - apply separated_used; [done..|]. by apply split_rest_separated.
  - split; [apply split_cap_ge; lia|]. rewrite (live_unused l1 x) by done. split.
    + rewrite (live_used _ _ _ _ _ (rep_tiles _ _ Hr')), split_rest_live by done. done.
    + exact (live_none _ _ _ _ _ (rep_tiles _ _ Hr)).
Qed.

(** ** [release] *)

Lemma release_eq p h : release p h =
  let h1 := hupd p (put_free true) h in
  let h2 := (let b := hget h1 p in
             if negb (next b =? 0) && free (hget h1 (next b)) then join_next p h1 else h1) in
  let q := previous (hget h2 p) in
  if negb (q =? 0) && free (hget h2 q) then join_next q h2 else h2.
Proof. done. Qed.

Lemma release_same p h : same_rest h (release p h).
Proof.
  rewrite release_eq. cbn zeta. set (h1 := hupd p _ h).
  set (h2 := if negb _ && _ then join_next p h1 else h1).
  assert (same_rest h h2) as H2.
  { transitivity h1; [done|]. unfold h2. case_match; [apply join_next_same|done]. }
  case_match; [|done]. etransitivity; [exact H2|apply join_next_same].
Qed.

Lemma absorb_cons r l : ∃ z l', absorb r l = z :: l' ∧ addr z = addr r ∧ unused z = unused r.
Proof. destruct l as [|y l]; cbn; [eauto|]. destruct (unused y); eauto. Qed.

Lemma absorb_starts r l z l' :
  unused r = true → separated l → absorb r l = z :: l' → starts_free l' = false.
Proof.
  intros Hr Hs E. pose proof (absorb_separated r l Hs) as H. rewrite E in H.
  destruct (absorb_cons r l) as (z' & l'' & E' & _ & Hz). rewrite E in E'. simplify_eq.
  destruct l''; [done|]. cbn in H. rewrite Hz, Hr in H. by destruct H.
Qed.

Lemma release_spec h l1 x l2 : heap_inv h (l1 ++ x :: l2) →
  ∃ l', heap_inv (release (addr x) h) l' ∧ live l' = live (l1 ++ l2).
Proof.
  intros [Hr Hs]. apply separated_parts in Hs as (H1 & H2 & _).
  apply (put_free_represents _ _ _ _ true), absorb_represents in Hr. cbn [mark addr] in Hr.
  rewrite release_eq. revert Hr. cbn zeta. set (h1 := hupd (addr x) _ h).
  set (h2 := if negb _ && _ then join_next (addr x) h1 else h1). intros Hr.
  destruct (absorb_cons (mark x true) l2) as (z & l3 & E & Ez & Uz). cbn in Ez, Uz.
  pose proof (absorb_live (mark x true) l2 l1 eq_refl) as Hlive.
  pose proof (absorb_separated (mark x true) l2 H2) as Hsep.
  pose proof (absorb_starts (mark x true) _ _ _ eq_refl H2 E) as Hst. rewrite E in *.
  pose proof (represents_get _ _ _ _ Hr) as Hz. rewrite Ez in Hz. rewrite Hz. cbn [previous].
  destruct l1 as [|w l0 _] using rev_ind; [cbn [last_addr]; eexists; split; [split; [exact Hr|done]|done]|].
  rewrite last_addr_app. cbn [last_addr].
  assert (represents h2 (l0 ++ w :: z :: l3)) as Hr2 by by rewrite <- app_assoc in Hr.
  rewrite (represents_get _ _ _ _ Hr2). cbn [free].
  destruct (represents_order _ _ _ _ Hr2) as (Hb & _).
  destruct (Z.eqb_spec (addr w) 0) as [Ew|_]; [unfold HEAP_BASE in Hb; lia|]. cbn [negb andb].
  apply separated_parts in H1 as (H0 & _ & Hw). rewrite <- app_assoc in Hlive. cbn in Hlive.
  destruct (unused w) eqn:Uw.
  - exists (l0 ++ joined w z :: l3). split; [split; [by apply join_next_represents|]|].
    + apply separated_app. split; [done|]. destruct (Hw eq_refl) as [-> _]. split; [|done].
      apply (separated_parts [] z) in Hsep as (_ & Hsep & _). destruct l3; [done|].
      split; [|exact Hsep]. cbn in Hst. by rewrite Hst, andb_false_r.
    + rewrite !live_unused in Hlive by done. rewrite live_unused, Hlive by done.
      rewrite <- app_assoc. cbn. by rewrite live_unused.
  - eexists. split; [split; [exact Hr2|]|].
    + by apply separated_used.
    + exact Hlive.
Qed.

(** ** [aligned] and [grow] *)

Lemma round_up m n k : 0 < k → m = 2 ^ k → 0 ≤ n → n + m - 1 ≤ UINT32_MAX → k < 32 →
  let r := Z.land (n + m - 1) (not32 (m - 1)) in (m | r) ∧ n ≤ r < n + m.
Proof.
  intros Hk -> Hn Hmax Hk32. cbn zeta. set (x := n + 2 ^ k - 1).
  assert (0 < 2 ^ k) by lia.
  assert (Z.land x (not32 (2 ^ k - 1)) = x / 2 ^ k * 2 ^ k) as ->.
  { rewrite <- Z.shiftr_div_pow2, <- Z.shiftl_mul_pow2 by lia.
    rewrite <- Z.ldiff_ones_r by lia. apply Z.bits_inj'. intros i Hi.
    unfold not32. rewrite Z.land_spec, Z.lxor_spec, Z.ldiff_spec by lia.
    replace (2 ^ k - 1) with (Z.ones k) by (rewrite Z.ones_equiv; lia).
    destruct (decide (i < 32)) as [Hi32|Hi32].
    - rewrite uint32_max_testbit, xorb_true_r by lia. done.
    - assert (Z.testbit x i = false) as ->; [|done].
      apply Z.bits_above_log2; [lia|]. apply Z.lt_le_trans with 32; [|lia].
      destruct (decide (x = 0)) as [->|]; [done|]. apply Z.log2_lt_pow2; [lia|].
      unfold x, UINT32_MAX in *. lia. }
  split; [by exists (x / 2 ^ k)|].
  pose proof (Z.div_mod x (2 ^ k) ltac:(lia)). pose proof (Z.mod_pos_bound x (2 ^ k) ltac:(lia)).
  unfold x in *. lia.
Qed.

Lemma aligned_spec n : 0 ≤ n →
  if bool_decide (0 < n ≤ HEAP_LIMIT - sizeof_block)
  then (16 | aligned n) ∧ n ≤ aligned n < n + 16 ∧ 16 ≤ aligned n ≤ HEAP_LIMIT - sizeof_block
  else aligned n = 0.
Proof.
  intros Hn. unfold aligned. case_bool_decide as Hr.
  - destruct (Z.eqb_spec n 0); [lia|]. destruct (Z.gtb_spec n (HEAP_LIMIT - sizeof_block)); [lia|]. cbn [orb].
    destruct (round_up HEAP_ALIGNMENT n 4 ltac:(lia) eq_refl) as [[q Hq] Hb]; [lia| |lia|].
    { unfold HEAP_LIMIT, sizeof_block, HEAP_ALIGNMENT, UINT32_MAX in *. lia. }
    set (r := Z.land _ _) in *. clearbody r. unfold HEAP_ALIGNMENT, HEAP_LIMIT, sizeof_block in *.
    split; [by exists q|]. lia.
  - destruct (Z.eqb_spec n 0); [done|]. destruct (Z.gtb_spec n (HEAP_LIMIT - sizeof_block)); [done|]. lia.
Qed.
Lemma aligned_nonzero n : 0 ≤ n → aligned n ≠ 0 →
  (16 | aligned n) ∧ 0 < n ≤ aligned n ∧ 16 ≤ aligned n ≤ HEAP_LIMIT - sizeof_block.
Proof. intros Hn Hz. pose proof (aligned_spec n Hn) as H. case_bool_decide; [|done]. split_and!; lia || tauto. Qed.

(** Growing a free last block. *)
Lemma grow_extend_represents h l x g :
  represents h (l ++ [x]) → unused x = true → 0 < g → (HEAP_PAGE | g) → heap_mapped h + g ≤ HEAP_LIMIT →
  represents (grow_blocks g h) (l ++ [Seg (addr x) (cap x + g) true]).
Proof.
  intros Hr Hx Hg Dg Hlim. pose proof (represents_get _ _ _ _ Hr) as Gx.
  destruct (represents_order _ _ _ _ Hr) as (Hb & Hlt & _ & Ht). destruct Hr as [Hc Hf Hl Hti Hm Hne].
  rewrite last_addr_app in Hl. cbn in Hl. unfold grow_blocks. rewrite Hl, Gx. cbn [free]. rewrite Hx.
  destruct (Z.eqb_spec (addr x) 0) as [E|_]; [unfold HEAP_BASE in Hb; lia|]. cbn [negb andb].
  apply chain_app in Hc as [Hc1 _].
  assert (hget (hupd (addr x) (λ b, put_size (size b + g) b) h) (addr x) =
    Block (cap x + g) (last_addr l 0) 0 true) as Gx' by (by rewrite hget_hupd, decide_True, Gx, Hx by done).
  constructor.
  - apply chain_app. split; [|done]. eapply chain_frame, Hc1. intros p Hp.
    change (hget (set_mapped ?n ?t)) with (hget t).
    specialize (Hlt p Hp). rewrite hget_hupd, decide_False by lia. done.
  - cbn -[first_addr]. by rewrite Hf, !first_addr_app.
  - cbn -[last_addr]. by rewrite Hl, last_addr_app.
  - cbn -[tiles]. apply tiles_app in Hti as (mid & H1 & Ha & Hcap & Dc & He). apply tiles_app. exists mid.
    split; [done|]. cbn in *. unfold seg_end, sizeof_block in *. cbn.
    split; [done|]. split; [lia|]. split; [|lia].
    apply Z.divide_add_r; [done|]. eapply Z.divide_trans; [|exact Dg]. by exists 256.
  - cbn. split; [lia|]. apply Z.divide_add_r; tauto.
  - intros _ E. by destruct l.
Qed.

(** What [grow_blocks] writes when the last block is in use. *)
Lemma grow_append_get h x p g :
  let nb := HEAP_BASE + heap_mapped h in
  heap_last h = addr x → addr x ≠ 0 → addr x ≠ nb → hget h (addr x) = Block (cap x) p 0 false →
  (∀ q, hget (grow_blocks g h) q =
    if decide (q = addr x) then Block (cap x) p nb false
    else if decide (q = nb) then Block (g - 16) (addr x) 0 true else hget h q) ∧
  heap_first (grow_blocks g h) = heap_first h ∧ heap_last (grow_blocks g h) = nb.
Proof.
  intros nb Hl Hx Hn Gx. unfold grow_blocks. rewrite Hl, Gx. cbn [free]. rewrite andb_false_r. fold nb.
  change (heap_last (hput nb ?b h)) with (heap_last h). rewrite Hl.
  destruct (Z.eqb_spec (addr x) 0) as [|_]; [done|]. cbn [negb]. split; [|done]. intros q.
  change (hget (set_mapped ?n ?t)) with (hget t). rewrite hget_set_last, hget_hupd, !hget_hput.
  rewrite (decide_False (P := addr x = nb)), Gx by done. cbn. case_decide; done.
Qed.

Lemma grow_blocks_frame g h :
  heap_mapped (grow_blocks g h) = heap_mapped h + g ∧ ready (grow_blocks g h) = ready h ∧
  bytes (grow_blocks g h) = bytes h.
Proof. unfold grow_blocks. cbn. repeat case_match; done. Qed.

Lemma page_block g : 0 < g → (HEAP_PAGE | g) → 16 ≤ g - 16 ∧ (16 | g - 16).
Proof.
  intros Hg Dg. assert (HEAP_PAGE ≤ g) by (by apply Z.divide_pos_le). unfold HEAP_PAGE in *.
  split; [lia|]. destruct Dg as [q ->]. exists (q * 256 - 1). lia.
Qed.

(** Appending a new free block. *)
Lemma grow_append_represents h l g :
  represents h l → ends_free l = false → 0 < g → (HEAP_PAGE | g) → heap_mapped h + g ≤ HEAP_LIMIT →
  represents (grow_blocks g h) (l ++ [Seg (HEAP_BASE + heap_mapped h) (g - sizeof_block) true]).
Proof.
  intros [Hc Hf Hl Hti Hm Hne] He Hg Dg Hlim. destruct (page_block g Hg Dg) as [H16 D16].
  destruct (grow_blocks_frame g h) as (Em & Er & _).
  assert (tiles HEAP_BASE (l ++ [Seg (HEAP_BASE + heap_mapped h) (g - sizeof_block) true])
    (HEAP_BASE + (heap_mapped h + g))) as Hti'.
  { apply tiles_app. exists (HEAP_BASE + heap_mapped h). split; [done|]. cbn.
    unfold seg_end, sizeof_block in *. cbn. split; [done|]. split; [lia|]. split; [done|lia]. }
  assert (0 ≤ heap_mapped h + g ≤ HEAP_LIMIT ∧ (HEAP_PAGE | heap_mapped h + g)).
  { split; [lia|]. apply Z.divide_add_r; tauto. }
  destruct l as [|x l _] using rev_ind.
  { cbn in Hl. constructor; rewrite ?Em; try done; unfold grow_blocks; rewrite Hl;
      [|by cbn; rewrite ?Hl..].
    split; [|done]. cbn [Z.eqb negb andb]. change (hget (set_mapped ?n ?t)) with (hget t).
    change (heap_last (hput ?p ?c h)) with (heap_last h). rewrite Hl. cbn [Z.eqb negb].
    rewrite hget_set_last. change (hget (set_first ?n ?t)) with (hget t).
    by rewrite hget_hput, decide_True by done. }
  rewrite last_addr_app in Hl. cbn in Hl. rewrite (ends_free_app l x []) in He. cbn in He.
  apply chain_app in Hc as [Hc1 [Gx _]]. cbn in Gx. rewrite He in Gx.
  apply tiles_app in Hti as (mid & H1 & <- & Hcap & _ & Hend). cbn in Hend. unfold seg_end, sizeof_block in *.
  pose proof (tiles_le _ _ _ H1) as Hb.
  destruct (grow_append_get h x _ g Hl ltac:(unfold HEAP_BASE in *; lia) ltac:(lia) Gx) as (Gq & Ef & El).
  constructor; rewrite ?Em, ?Er; try done.
  - rewrite <- app_assoc. apply chain_app. split; [|split; [|split; [|done]]].
    + eapply chain_frame, Hc1. intros p Hp. pose proof (tiles_addr_ge _ _ _ _ H1 Hp).
      rewrite Gq, !decide_False by lia. done.
    + by rewrite Gq, decide_True, He.
    + cbn. rewrite Gq, decide_False, decide_True by (cbn; lia). done.
  - by rewrite Ef, Hf, <- app_assoc, !first_addr_app.
  - by rewrite !last_addr_app, El.
  - intros _ E. by destruct l.
Qed.

(** Either way the last block is then free and covers the new pages. *)
Lemma grow_blocks_spec h l g :
  heap_inv h l → 0 < g → (HEAP_PAGE | g) → heap_mapped h + g ≤ HEAP_LIMIT →
  ∃ l0 z, heap_inv (grow_blocks g h) (l0 ++ [z]) ∧ unused z = true ∧ live (l0 ++ [z]) = live l ∧
    cap z = (if ends_free l then size (hget h (heap_last h)) + g else g - sizeof_block).
Proof.
  intros [Hr Hs] Hg Dg Hlim. destruct (ends_free l) eqn:He.
  - destruct l as [|x l _] using rev_ind; [done|]. rewrite (ends_free_app l x []) in He. cbn in He.
    exists l, (Seg (addr x) (cap x + g) true). split; [split; [by apply grow_extend_represents|]|].
    + apply separated_app in Hs as (? & _ & H3). apply separated_app. split; [done|].
      split; [done|]. cbn in H3 |- *. by rewrite He in H3.
    + split; [done|]. rewrite !live_unused by done. split; [done|].
      rewrite (rep_last _ _ Hr), last_addr_app. cbn. by rewrite (represents_get _ _ _ _ Hr).
  - exists l, (Seg (HEAP_BASE + heap_mapped h) (g - sizeof_block) true). split; [split; [by apply grow_append_represents|]|].
    + apply separated_app. split; [done|]. split; [done|]. by rewrite He.
    + by rewrite live_unused, app_nil_r by done.
Qed.

Section GrowSpec.
Context `{PageBacking B}.

(** [grow] leaves the heap alone when it fails; when it succeeds the heap is
    extended by the whole pages that cover [n] bytes. *)
Lemma grow_cases n h (b : B) : 0 < n ≤ HEAP_LIMIT → 0 ≤ heap_mapped h ≤ HEAP_LIMIT →
  let g := Z.land (n + HEAP_PAGE - 1) (not32 (HEAP_PAGE - 1)) in
  ∃ (ok : bool) (b' : B), grow n (h, b) = (ok, (if ok then grow_blocks g h else h, b')) ∧
   (ok = true → heap_mapped h + g ≤ HEAP_LIMIT).
Proof.
  intros Hn Hm g. unfold grow.
  rewrite (wrap32_small (n + HEAP_PAGE - 1)) by (unfold HEAP_LIMIT, HEAP_PAGE, UINT32_MAX in *; lia).
  fold g. destruct (_ || _) eqn:E; [by exists false, b|].
  apply orb_false_iff in E as [_ E]. rewrite Z.gtb_ltb, Z.ltb_ge in E.
  destruct (grow_map _ _ _ _ _) as [added b']. case_match; [eexists false, _; by split|].
  exists true, b'. split; [done|]. lia.
Qed.

Lemma grow_spec n h (b : B) l : heap_inv h l → 0 < n ≤ HEAP_LIMIT →
  ∃ (ok : bool) h' b', grow n (h, b) = (ok, (h', b')) ∧
    ready h' = ready h ∧ bytes h' = bytes h ∧
    if ok then
      ∃ l0 z, heap_inv h' (l0 ++ [z]) ∧ unused z = true ∧ live (l0 ++ [z]) = live l ∧
        (if ends_free l then size (hget h (heap_last h)) + n else n - sizeof_block) ≤ cap z
    else h' = h.
Proof.
  intros Hi Hn. destruct (rep_mapped _ _ (proj1 Hi)) as [Hm _].
  destruct (grow_cases n h b Hn Hm) as (ok & b' & -> & Hlim).
  destruct (round_up HEAP_PAGE n 12 ltac:(lia) eq_refl) as [Dg Hb]; [lia| |lia|].
  { unfold HEAP_LIMIT, HEAP_PAGE, UINT32_MAX in *. lia. }
  set (g := Z.land _ _) in *. clearbody g. eexists ok, _, b'. split; [done|].
  destruct (grow_blocks_frame g h) as (_ & Er & Eb).
  destruct ok; [|done]. split; [done|]. split; [done|].
  destruct (grow_blocks_spec h l g Hi ltac:(lia) Dg (Hlim eq_refl)) as (l0 & z & Hi' & Hz & Hl & Hc).
  exists l0, z. split_and!; [done..|]. rewrite Hc. destruct (ends_free l); lia.
Qed.
End GrowSpec.

(** ** The allocation path *)

Lemma represents_last h l : represents h l → l ≠ [] →
  free (hget h (heap_last h)) = ends_free l ∧
  ∃ l0 x, l = l0 ++ [x] ∧ size (hget h (heap_last h)) = cap x ∧ unused x = ends_free l.
Proof.
  intros Hr Hne. destruct l as [|x l _] using rev_ind; [done|].
  rewrite (rep_last _ _ Hr), last_addr_app. cbn [last_addr].
  rewrite (represents_get _ _ _ _ Hr), (ends_free_app l x []). split; [done|]. by exists l, x.
Qed.

(** [p] is the result of an allocation of [n] bytes over the live map [L]. *)
Definition extends (n p : Z) (L L' : gmap Z Z) : Prop :=
  ∃ c, L' = <[p := c]> L ∧ L !! p = None ∧ n ≤ c ∧ HEAP_BASE < p ∧ p + c ≤ HEAP_BASE + HEAP_LIMIT ∧
    (16 | p) ∧ ∀ q d, L !! q = Some d → p + c ≤ q ∨ q + d ≤ p.

Lemma extends_intro h' l' n p c L :
  represents h' l' → live l' = <[p := c]> L → L !! p = None → n ≤ c → extends n p L (live l').
Proof.
  intros Hr Hl Hp Hn. assert (live l' !! p = Some c) as E by (rewrite Hl; apply lookup_insert_eq).
  destruct (live_bounds _ _ _ _ Hr E) as (? & ? & ? & ?). destruct (rep_mapped _ _ Hr) as [? _].
  exists c. split_and!; [done|done|done|done|lia|done|]. intros q d Hq.
  assert (q ≠ p) as Hqp by congruence.
  destruct (live_disjoint h' l' p c q d Hr E) as [?|?]; [by rewrite Hl, lookup_insert_ne|congruence|done].
Qed.

Section Allocation.
Context `{PageBacking B}.

(** First fit: a free block that is large enough is used and the page
    allocator is not called. *)
Lemma allocate_fit n h (b : B) l m x m' :
  heap_inv h l → ready h = true → 0 ≤ n → aligned n ≠ 0 → l = m ++ x :: m' →
  unused x = true → aligned n ≤ cap x → Forall (λ y, unused y && (aligned n <=? cap y) = false) m →
  ∃ h' l', allocate n (h, b) = (payload x, (h', b)) ∧ heap_inv h' l' ∧ same_rest h h' ∧
    extends (aligned n) (payload x) (live l) (live l').
Proof.
  intros Hi Hrd Hn Ha -> Hx Hcap Hm. destruct (aligned_nonzero n Hn Ha) as (D & _ & Hb).
  destruct (claim_spec _ _ _ _ (aligned n) Hi Hx ltac:(lia) D) as (h' & l' & c & E & Hs & Hi' & Hc & Hl & Hnone).
  exists h', l'. split; [|split; [done|split; [done|]]].
  2: { eapply extends_intro; [apply Hi'|done..]. }
  unfold allocate. rewrite Hrd. destruct (Z.eqb_spec (aligned n) 0); [done|]. cbn [negb orb].
  destruct (walk_spec h _ (λ y, unused y && (aligned n <=? cap y)) (λ _ b, free b && (aligned n <=? size b))
    (λ _ _ _, eq_refl) (proj1 Hi)) as [(m1 & y & m2 & E1 & Hy & Hm1 & ->)|[Hall _]].
  - assert (y = x) as ->.
    { assert (aligned n <=? cap x = true) as Hcx by (apply Z.leb_le; lia).
      destruct (app_eq_inv _ _ _ _ E1) as [(k & -> & E2)|(k & -> & E2)].
      - destruct k as [|w k]; [by simplify_eq/=|]. injection E2 as <- _.
        apply Forall_mid in Hm. congruence.
      - destruct k as [|w k]; [by simplify_eq/=|]. injection E2 as <- _.
        apply Forall_mid in Hm1. cbn in Hm1. rewrite Hx, Hcx in Hm1. done. }
    destruct (represents_order _ _ _ _ (proj1 Hi)) as (Hbase & _).
    destruct (Z.eqb_spec (addr x) 0) as [?|_]; [unfold HEAP_BASE in Hbase; lia|]. cbn [negb]. by rewrite E.
  - exfalso. apply Forall_mid in Hall. cbn in Hall.
    rewrite Hx in Hall. cbn in Hall. lia.
Qed.

(** Otherwise the heap grows, or the call fails and changes no block. *)
Lemma allocate_grow n h (b : B) l :
  heap_inv h l → ready h = true → 0 ≤ n → aligned n ≠ 0 →
  Forall (λ y, unused y && (aligned n <=? cap y) = false) l →
  ∃ r h' b' l', allocate n (h, b) = (r, (h', b')) ∧ heap_inv h' l' ∧ ready h' = true ∧ bytes h' = bytes h ∧
    (r = 0 ∧ h' = h ∧ l' = l ∨ r ≠ 0 ∧ extends (aligned n) r (live l) (live l')).
Proof.
  intros Hi Hrd Hn Ha Hall. destruct (aligned_nonzero n Hn Ha) as (D & _ & Hb).
  unfold allocate. rewrite Hrd. destruct (Z.eqb_spec (aligned n) 0); [done|]. cbn [negb orb].
  destruct (walk_spec h l (λ y, unused y && (aligned n <=? cap y)) (λ _ b, free b && (aligned n <=? size b))
    (λ _ _ _, eq_refl) (proj1 Hi)) as [(m1 & y & m2 & -> & Hy & _)|[_ ->]].
  { exfalso. apply Forall_mid in Hall. congruence. }
  cbn [Z.eqb negb].
  destruct (represents_last h l (proj1 Hi) (rep_nonempty _ _ (proj1 Hi) Hrd)) as (El & l0 & x & -> & Es & Ex).
  rewrite El, Es. set (e := ends_free (l0 ++ [x])) in *.
  assert (0 < (if e then aligned n - cap x else aligned n + sizeof_block) ≤ HEAP_LIMIT) as Hneed.
  { apply (Forall_mid _ l0 x []) in Hall. cbn in Hall. rewrite Ex in Hall.
    destruct (represents_cap h _ x (proj1 Hi)) as [? _]; [set_solver|].
    unfold sizeof_block in *. destruct e; cbn in Hall; lia. }
  destruct (grow_spec _ h b _ Hi Hneed) as (ok & h1 & b1 & -> & Er & Eb & Hok).
  destruct ok; cbn [negb].
  - destruct Hok as (l1 & z & Hi1 & Hz & Hl1 & Hcz). rewrite Es in Hcz. fold e in Hcz.
    destruct (claim_spec h1 l1 z [] (aligned n) Hi1 Hz) as (h2 & l2 & c & E & (_ & Er2 & Eb2) & Hi2 & Hc & Hl2 & Hno);
      [unfold sizeof_block in *; destruct e; lia|done|].
    rewrite (rep_last _ _ (proj1 Hi1)), last_addr_app. cbn [last_addr]. rewrite E.
    exists (payload z), h2, b1, l2. split_and!; [done|done|congruence|congruence|]. right. split.
    + destruct (represents_order _ _ _ _ (proj1 Hi1)) as (Hbase & _).
      unfold payload, HEAP_BASE, sizeof_block in *. lia.
    + rewrite <- Hl1. eapply extends_intro; [apply Hi2|done..].
  - subst h1. eexists 0, h, b1, _. split_and!; [done|exact Hi|done|done|by left].
Qed.

Lemma allocate_spec n h (b : B) l : heap_inv h l → ready h = true → 0 ≤ n →
  ∃ r h' b' l', allocate n (h, b) = (r, (h', b')) ∧ heap_inv h' l' ∧ ready h' = true ∧ bytes h' = bytes h ∧
    (r = 0 ∧ h' = h ∧ l' = l ∨ r ≠ 0 ∧ aligned n ≠ 0 ∧ extends (aligned n) r (live l) (live l')).
Proof.
  intros Hi Hrd Hn. destruct (decide (aligned n = 0)) as [Ha|Ha].
  { exists 0, h, b, l. split_and!; [|done..|by left]. unfold allocate. rewrite Ha, Hrd. done. }
  destruct (walk_spec h l (λ y, unused y && (aligned n <=? cap y)) (λ _ b, free b && (aligned n <=? size b))
    (λ _ _ _, eq_refl) (proj1 Hi)) as [(m & x & m' & El & Hx & Hm & _)|[Hall _]].
  - apply andb_true_iff in Hx as [Hx Hc].
    destruct (allocate_fit n h b l m x m' Hi Hrd Hn Ha El Hx ltac:(lia) Hm) as (h' & l' & E & Hi' & (? & Er & Eb) & Hext).
    exists (payload x), h', b, l'. split_and!; [done|done|congruence|congruence|]. right. split_and!; [|done|done].
    destruct Hext as (? & ? & ? & ? & Hp & ?). unfold HEAP_BASE in Hp. lia.
  - destruct (allocate_grow n h b l Hi Hrd Hn Ha Hall) as (r & h' & b' & l' & ? & ? & ? & ? & [?|[? ?]]);
      exists r, h', b', l'; split_and!; try done; [by left|by right].
Qed.
End Allocation.

(** ** Payload memory *)

Lemma aget_aset m i v j : aget (aset m i v) j = if decide (j = i) then v else aget m j.
Proof.
  unfold aget, aset. destruct (decide (j = i)) as [->|]; [by rewrite lookup_insert_eq|by rewrite lookup_insert_ne].
Qed.

Lemma copy_get dst src n m a : 0 ≤ n → dst + n ≤ src ∨ src + n ≤ dst →
  aget (copy dst src n m) a = if decide (dst ≤ a < dst + n) then aget m (src + (a - dst)) else aget m a.
Proof.
  intros Hn Hd. unfold copy.
  refine (for_range_inv (λ i t, ∀ a : Z, aget t a =
    if decide (dst ≤ a < dst + i) then aget m (src + (a - dst)) else aget m a) 0 n _ m Hn _ _ a).
  - intros a'. by rewrite decide_False by lia.
  - intros i t Hi IH a'. rewrite aget_aset. destruct (decide (a' = dst + i)) as [->|].
    + rewrite IH, decide_False, decide_True by lia. f_equal; lia.
    + rewrite IH. destruct (decide (dst ≤ a' < dst + i)).
      * by rewrite decide_True by lia.
      * by rewrite decide_False by lia.
Qed.

Lemma fill_get p n v m a : 0 ≤ n →
  aget (fill p n v m) a = if decide (p ≤ a < p + n) then v else aget m a.
Proof.
  intros Hn. unfold fill.
  refine (for_range_inv (λ i t, ∀ a : Z, aget t a =
    if decide (p ≤ a < p + i) then v else aget m a) 0 n _ m Hn _ _ a).
  - intros a'. by rewrite decide_False by lia.
  - intros i t Hi IH a'. rewrite aget_aset. destruct (decide (a' = p + i)) as [->|].
    + by rewrite decide_True by lia.
    + rewrite IH. destruct (decide (p ≤ a' < p + i)).
      * by rewrite decide_True by lia.
      * by rewrite decide_False by lia.
Qed.

(** ** The contract of the heap

    State: the capacity of each live payload, and the payload memory. *)
Module HeapSpec.
Definition state : Type := gmap Z Z * gmap Z Z.

Inductive call := Malloc (n : Z) | Calloc (count n : Z) | Free (p : Z) | Realloc (p n : Z).
Definition well_formed (c : call) : Prop :=
  match c with Malloc n | Realloc _ n => 0 ≤ n | Calloc k n => 0 ≤ k ∧ 0 ≤ n | Free _ => True end.

(** [step c s r s']: call [c] in state [s] may return [r] and leave [s']. *)
Inductive step : call → state → Z → state → Prop :=
| malloc_fails n s : step (Malloc n) s 0 s
| malloc_ok n p L L' m : 0 < n → extends n p L L' → step (Malloc n) (L, m) p (L', m)
| calloc_fails k n s : step (Calloc k n) s 0 s
| calloc_ok k n p L L' m m' :
    0 < k * n ≤ UINT32_MAX → extends (k * n) p L L' →
    (∀ a, aget m' a = if decide (p ≤ a < p + k * n) then 0 else aget m a) →
    step (Calloc k n) (L, m) p (L', m')
| free_null s : step (Free 0) s 1 s
| free_ok p c L m : L !! p = Some c → step (Free p) (L, m) 1 (delete p L, m)
| free_bad p L m : p ≠ 0 → L !! p = None → step (Free p) (L, m) 0 (L, m)
| realloc_null n s r s' : step (Malloc n) s r s' → step (Realloc 0 n) s r s'
| realloc_zero p s r s' : p ≠ 0 → step (Free p) s r s' → step (Realloc p 0) s 0 s'
| realloc_fails p n L m :
    (∀ c, L !! p = Some c → aligned n = 0 ∨ c < aligned n) → step (Realloc p n) (L, m) 0 (L, m)
| realloc_in_place p n c c' L m :
    L !! p = Some c → n ≤ c' → p + c' ≤ HEAP_BASE + HEAP_LIMIT →
    (∀ q d, q ≠ p → L !! q = Some d → p + c' ≤ q ∨ q + d ≤ p) →
    step (Realloc p n) (L, m) p (<[p := c']> L, m)
| realloc_moved p n c q L L' m m' :
    L !! p = Some c → extends n q L L' →
    (∀ a, aget m' a = if decide (q ≤ a < q + c) then aget m (p + (a - q)) else aget m a) →
    step (Realloc p n) (L, m) q (delete p L', m').

Inductive steps : list call → state → list Z → state → Prop :=
| steps_nil s : steps [] s [] s
| steps_cons c cs s r s' rs s'' : step c s r s' → steps cs s' rs s'' → steps (c :: cs) s (r :: rs) s''.
End HeapSpec.
Import HeapSpec.

Lemma extends_weaken n n' p L L' : n' ≤ n → extends n p L L' → extends n' p L L'.
Proof. intros ? (c & ? & ? & ? & ?). exists c. split; [done|]. split; [done|]. split; [lia|done]. Qed.

(** [find] decides whether a pointer is a live payload. *)
Lemma find_spec h l p : represents h l →
  (∃ m x m', l = m ++ x :: m' ∧ unused x = false ∧ p = payload x ∧ find p h = addr x ∧ addr x ≠ 0 ∧
     live l !! p = Some (cap x)) ∨
  (live l !! p = None ∧ find p h = 0).
Proof.
  intros Hr. unfold find.
  destruct (walk_spec h l (λ x, (addr x + sizeof_block =? p) && negb (unused x))
    (λ q b, (q + sizeof_block =? p) && negb (free b)) (λ _ _ _, eq_refl) Hr)
    as [(m & x & m' & -> & [Hp Hx]%andb_true_iff & _ & ->)|[Hall ->]].
  - left. apply negb_true_iff in Hx. assert (p = payload x) as -> by (unfold payload; lia).
    exists m, x, m'. destruct (represents_order _ _ _ _ Hr) as (Hb & _).
    split_and!; try done; [unfold HEAP_BASE in Hb; lia|].
    rewrite (live_used _ _ _ _ _ (rep_tiles _ _ Hr)) by done. apply lookup_insert_eq.
  - right. split; [|done]. destruct (live l !! p) as [c|] eqn:E; [|done]. exfalso.
    apply live_elem in E as (x & (m & m' & ->)%list_elem_of_split & Hx & -> & _).
    apply Forall_mid in Hall. cbn in Hall. rewrite Hx in Hall. unfold payload in Hall. lia.
Qed.

Lemma live_delete h m x m' : represents h (m ++ x :: m') → unused x = false →
  delete (payload x) (live (m ++ x :: m')) = live (m ++ m').
Proof.
  intros Hr Hx. rewrite (live_used _ _ _ _ _ (rep_tiles _ _ Hr)) by done.
  apply delete_insert_id, (live_none _ _ _ _ _ (rep_tiles _ _ Hr)).
Qed.
Lemma live_insert h m x m' c : represents h (m ++ x :: m') → unused x = false →
  <[payload x := c]> (live (m ++ x :: m')) = <[payload x := c]> (live (m ++ m')).
Proof. intros Hr Hx. rewrite (live_used _ _ _ _ _ (rep_tiles _ _ Hr)) by done. apply insert_insert_eq. Qed.

Section Refinement.
Context `{PageBacking B}.
Implicit Types (s : heap * B).

Definition simulates s (a : HeapSpec.state) : Prop :=
  ∃ l, heap_inv (fst s) l ∧ ready (fst s) = true ∧ a = (live l, bytes (fst s)).

Definition exec (c : call) s : Z * (heap * B) :=
  match c with
  | Malloc n => kmalloc n s
  | Calloc k n => kcalloc k n s
  | Free p => let '(ok, s) := kfree p s in (Z.b2z ok, s)
  | Realloc p n => krealloc p n s
  end.
Fixpoint exec_all (cs : list call) s : list Z * (heap * B) :=
  match cs with
  | [] => ([], s)
  | c :: cs => let '(r, s) := exec c s in let '(rs, s) := exec_all cs s in (r :: rs, s)
  end.

(** [c] run from [s] makes a step of the contract from [a]. *)
Definition refines (c : call) s (a : HeapSpec.state) : Prop :=
  ∃ a', step c a (fst (exec c s)) a' ∧ simulates (snd (exec c s)) a'.

Lemma malloc_refines n s a : simulates s a → 0 ≤ n → refines (Malloc n) s a.
Proof.
  destruct s as [h b]. intros (l & Hi & Hrd & ->) Hn. cbn in Hi, Hrd. unfold refines. cbn [exec]. unfold kmalloc.
  destruct (allocate_spec n h b l Hi Hrd Hn) as (r & h' & b' & l' & -> & Hi' & Hrd' & Eb & [(-> & -> & ->)|(_ & Ha & Hx)]).
  - eexists. split; [constructor|]. exists l. done.
  - destruct (aligned_nonzero n Hn Ha) as (_ & ? & _).
    exists (live l', bytes h). split; [|exists l'; cbn; by rewrite Eb].
    constructor; [lia|]. eapply extends_weaken, Hx. lia.
Qed.

Lemma set_bytes_inv m h l : heap_inv h l → heap_inv (set_bytes m h) l.
Proof. intros [[] ?]. split; [constructor; done|done]. Qed.

Lemma calloc_refines k n s a : simulates s a → 0 ≤ k → 0 ≤ n → refines (Calloc k n) s a.
Proof.
  destruct s as [h b]. intros (l & Hi & Hrd & ->) Hk Hn. cbn in Hi, Hrd. unfold refines. cbn [exec]. unfold kcalloc.
  destruct (_ || _) eqn:E.
  { eexists. split; [constructor|]. by exists l. }
  apply orb_false_iff in E as [[Ek En]%orb_false_iff Emul].
  assert (0 < k * n ≤ UINT32_MAX) as Hkn.
  { rewrite Z.gtb_ltb, Z.ltb_ge in Emul. pose proof (Z.mul_div_le UINT32_MAX n). nia. }
  unfold kmalloc.
  destruct (allocate_spec (k * n) h b l Hi Hrd ltac:(lia)) as
    (r & h' & b' & l' & -> & Hi' & Hrd' & Eb & [(-> & -> & ->)|(Hr & Ha & Hx)]).
  - eexists. split; [constructor|]. exists l. done.
  - destruct (aligned_nonzero (k * n) ltac:(lia) Ha) as (_ & ? & _).
    destruct (Z.eqb_spec r 0) as [|_]; [done|]. cbn [negb].
    eexists. split; [eapply calloc_ok; [done|eapply extends_weaken, Hx; lia|]|].
    2: { exists l'. split; [by apply set_bytes_inv|]. split; [done|]. reflexivity. }
    intros x. cbn. rewrite <- Eb. apply fill_get. lia.
Qed.

Lemma free_refines p s a : simulates s a → refines (Free p) s a.
Proof.
  destruct s as [h b]. intros (l & Hi & Hrd & ->). cbn in Hi, Hrd. unfold refines. cbn [exec]. unfold kfree.
  destruct (Z.eqb_spec p 0) as [->|Hp].
  { eexists. split; [constructor|]. by exists l. }
  destruct (find_spec h l p (proj1 Hi)) as [(m & x & m' & -> & Hx & -> & -> & Ha & E)|[E ->]].
  - destruct (Z.eqb_spec (addr x) 0) as [|_]; [done|]. cbn [negb fst snd Z.b2z].
    eexists. split; [by eapply free_ok|].
    destruct (release_spec _ _ _ _ Hi) as (l' & Hi' & Hl').
    destruct (release_same (addr x) h) as (_ & Er & Eb).
    exists l'. split; [done|]. split; [cbn; congruence|].
    by rewrite (live_delete _ _ _ _ (proj1 Hi) Hx), Hl'; cbn; rewrite Eb.
  - eexists. split; [by apply free_bad|]. by exists l.
Qed.

(** The in-place cases of [krealloc]: a block in use that is split. *)
Lemma resize_refines h0 (b : B) l0 h m x m' n p w :
  heap_inv h (m ++ x :: m') → unused x = false → ready h = true → bytes h = bytes h0 → payload x = p →
  0 < n ≤ w → 16 ≤ w ≤ cap x → (16 | w) → is_Some (live l0 !! p) →
  (∀ c, <[p := c]> (live l0) = <[p := c]> (live (m ++ m'))) →
  ∃ a', step (Realloc p n) (live l0, bytes h0) p a' ∧ simulates (split (addr x) w h, b) a'.
Proof.
  intros Hi Hx Hrd Hb <- Hn Hw Dw [c0 Hl0] Hins.
  destruct (split_used h m x m' w Hi Hx Hw Dw) as (l' & c & Hi' & Hc & Hl').
  destruct (split_same (addr x) w h) as (_ & Er & Eb).
  exists (<[payload x := c]> (live l0), bytes h0). split.
  2: { exists l'. cbn. split_and!; [done|congruence|]. by rewrite Hl', Hins, Eb, Hb. }
  assert (live l' !! payload x = Some c) as Hc' by (rewrite Hl'; apply lookup_insert_eq).
  destruct (live_bounds _ _ _ _ (proj1 Hi') Hc') as (_ & Hend & _). destruct (rep_mapped _ _ (proj1 Hi')) as [? _].
  eapply realloc_in_place; [done|lia|lia|]. intros q d Hq Hd.
  destruct (live_disjoint _ l' _ c q d (proj1 Hi') Hc'); [|congruence|done].
  by rewrite Hl', <- Hins, lookup_insert_ne.
Qed.

(** The moving case: allocate, copy, release. *)
Lemma move_refines h (b : B) m x m' n :
  let l := m ++ x :: m' in
  heap_inv h l → unused x = false → ready h = true → 0 ≤ n → aligned n ≠ 0 → cap x < aligned n →
  let r := (let '(result, (h, b)) := allocate (aligned n) (h, b) in
    if negb (result =? 0) then
      let h := set_bytes (copy result (payload x) (size (hget h (addr x))) (bytes h)) h in
      (result, (release (addr x) h, b))
    else (0, (h, b))) in
  ∃ a', step (Realloc (payload x) n) (live l, bytes h) (fst r) a' ∧ simulates (snd r) a'.
Proof.
  intros l Hi Hx Hrd Hn Ha Hc. cbn zeta. destruct (aligned_nonzero n Hn Ha) as (_ & Hb & _).
  assert (live l !! payload x = Some (cap x)) as Hlx.
  { unfold l. rewrite (live_used _ _ _ _ _ (rep_tiles _ _ (proj1 Hi))) by done. apply lookup_insert_eq. }
  destruct (allocate_spec (aligned n) h b l Hi Hrd ltac:(lia)) as
    (r & h' & b' & l' & -> & Hi' & Hrd' & Eb & [(-> & -> & ->)|(Hr & Ha' & Hxt)]).
  { eexists. split; [apply realloc_fails|by exists l]. intros c. rewrite Hlx. intros [= <-]. by right. }
  destruct (Z.eqb_spec r 0) as [|_]; [done|]. cbn [negb].
  destruct (aligned_nonzero (aligned n) ltac:(lia) Ha') as (_ & Hb' & _).
  pose proof Hxt as (c & El & Hnone & Hnc & _ & _ & _ & Hap).
  assert (payload x ≠ r) as Hpr by congruence.
  assert (live l' !! payload x = Some (cap x)) as Hlx' by by rewrite El, lookup_insert_ne.
  destruct (live_elem _ _ _ Hlx') as (y & (k & k' & ->)%list_elem_of_split & Hy & Hpy & Hcy).
  assert (addr x = addr y) as Exy by (unfold payload in Hpy; lia).
  rewrite Exy, (represents_get _ _ _ _ (proj1 Hi')). cbn [size].
  set (h2 := set_bytes _ h'). assert (heap_inv h2 (k ++ y :: k')) as Hi2 by by apply set_bytes_inv.
  destruct (release_spec _ _ _ _ Hi2) as (l2 & Hi3 & Hl2).
  destruct (release_same (addr y) h2) as (_ & Er3 & Eb3).
  exists (delete (payload x) (live (k ++ y :: k')), bytes h2). split.
  - eapply realloc_moved; [exact Hlx|eapply extends_weaken, Hxt; lia|].
    intros a. cbn. rewrite <- Hcy, <- Eb. apply copy_get.
    + pose proof (represents_cap _ _ x (proj1 Hi) ltac:(set_solver)). lia.
    + destruct (Hap _ _ Hlx); lia.
  - exists l2. cbn [fst snd]. split; [done|]. split; [cbn in *; congruence|].
    rewrite Hpy, (live_delete _ _ _ _ (proj1 Hi') Hy), Hl2, Eb3. done.
Qed.

Lemma realloc_refines p n s a : simulates s a → 0 ≤ n → refines (Realloc p n) s a.
Proof.
  intros Hs Hn. unfold refines. cbn [exec]. unfold krealloc.
  destruct (Z.eqb_spec p 0) as [->|Hp].
  { destruct (malloc_refines n s a Hs Hn) as (a' & ? & ?). exists a'. split; [by constructor|done]. }
  destruct (Z.eqb_spec n 0) as [->|Hn0].
  { destruct (free_refines p s a Hs) as (a' & Hst & Hs'). exists a'. cbn [exec] in Hst, Hs'.
    destruct (kfree p s) as [ok s']. split; [by eapply realloc_zero|done]. }
  destruct s as [h b]. destruct Hs as (l & Hi & Hrd & ->). cbn [fst] in *.
  destruct (find_spec h l p (proj1 Hi)) as [(m & x & m' & -> & Hx & -> & -> & Ha & E)|[E ->]].
  2: { cbn [Z.eqb orb]. eexists. split; [apply realloc_fails|by exists l]. intros c. by rewrite E. }
  destruct (Z.eqb_spec (addr x) 0) as [|_]; [done|]. cbn [orb].
  destruct (Z.eqb_spec (aligned n) 0) as [Hw|Hw].
  { eexists. split; [apply realloc_fails|by eexists]. by left. }
  destruct (aligned_nonzero n Hn Hw) as (Dw & Hnw & Hwb).
  rewrite (represents_get _ _ _ _ (proj1 Hi)). cbn [size next].
  destruct (Z.leb_spec (aligned n) (cap x)) as [Hfit|Hbig].
  { cbn [fst snd]. apply (resize_refines h b _ h m x m'); try done; [lia|].
    intros c. apply (live_insert h); [apply Hi|done]. }
  destruct (_ && _ && _) eqn:Ej; [|by apply move_refines].
  apply andb_true_iff in Ej as [[Hnx Hfr]%andb_true_iff Hle]. destruct m' as [|y m']; [done|].
  pose proof Hi as [Hr Hsep]. assert (represents h ((m ++ [x]) ++ y :: m')) as Hr' by by rewrite <- app_assoc.
  cbn [first_addr] in Hfr, Hle. rewrite (represents_get _ _ _ _ Hr') in Hfr, Hle. cbn [size free] in Hfr, Hle.
  destruct (join_next_same (addr x) h) as (_ & Er & Eb).
  apply separated_parts in Hsep as (H1 & (_ & H2 & _)%(separated_parts [] y) & _).
  cbn [fst snd]. change (addr x) with (addr (joined x y)) at 1.
  apply (resize_refines h b _ _ m (joined x y) m'); try done.
  - split; [by apply join_next_represents|]. by apply separated_used.
  - congruence.
  - unfold joined. cbn. lia.
  - intros c. rewrite (live_insert h) by done. by rewrite live_unused.
Qed.

Lemma exec_refines c s a : simulates s a → well_formed c → refines c s a.
Proof.
  intros Hs Hc. destruct c; cbn in Hc; [|destruct Hc| |].
  - by apply malloc_refines.
  - by apply calloc_refines.
  - by apply free_refines.
  - by apply realloc_refines.
Qed.

Lemma exec_all_refines cs s a : simulates s a → Forall well_formed cs →
  ∃ a', steps cs a (fst (exec_all cs s)) a' ∧ simulates (snd (exec_all cs s)) a'.
Proof.
  intros Hs Hc. revert s a Hs; induction Hc as [|c cs Hc _ IH]; intros s a Hs; cbn [exec_all].
  - exists a. split; [constructor|done].
  - destruct (exec_refines c s a Hs Hc) as (a1 & Hst & Hs1). destruct (exec c s) as [r s1].
    destruct (IH s1 a1 Hs1) as (a2 & Hst2 & Hs2). destruct (exec_all cs s1) as [rs s2].
    exists a2. split; [by econstructor|done].
Qed.
End Refinement.

(** ** Accounting *)

Fixpoint used_sum (l : list seg) : Z :=
  match l with [] => 0 | x :: l => (if unused x then 0 else cap x) + used_sum l end.
Fixpoint free_sum (l : list seg) : Z :=
  match l with [] => 0 | x :: l => (if unused x then cap x else 0) + free_sum l end.
Fixpoint used_count (l : list seg) : Z :=
  match l with [] => 0 | x :: l => (if unused x then 0 else 1) + used_count l end.

Lemma stats_loop_spec h l1 l2 fuel st : represents h (l1 ++ l2) → (length l2 < fuel)%nat →
  stats_loop fuel h (first_addr l2 0) st =
    HeapStatistics (mapped_bytes st) (used_bytes st + used_sum l2) (free_bytes st + free_sum l2)
      (allocations st + used_count l2).
Proof.
  revert l1 l2 st; induction fuel as [|fuel IH]; intros l1 l2 st Hr Hlen; [lia|].
  destruct l2 as [|x l2]; cbn [stats_loop first_addr used_sum free_sum used_count].
  - cbn. rewrite !Z.add_0_r. by destruct st.
  - pose proof (represents_get _ _ _ _ Hr) as ->. destruct (represents_order _ _ _ _ Hr) as (Hb & _).
    destruct (Z.eqb_spec (addr x) 0) as [E|_]; [unfold HEAP_BASE in Hb; lia|]. cbn [next free size].
    rewrite (cons_middle x), app_assoc in Hr. cbn in Hlen. rewrite (IH _ _ _ Hr) by lia.
    destruct (unused x); cbn; f_equal; lia.
Qed.

Lemma tiles_sums a l e : tiles a l e → used_sum l + free_sum l + 16 * Z.of_nat (length l) = e - a.
Proof.
  revert a; induction l as [|x l IH]; intros a; cbn [tiles used_sum free_sum length]; [lia|].
  intros (<- & _ & _ & Ht%IH). unfold seg_end, sizeof_block in Ht. destruct (unused x); lia.
Qed.

Lemma live_sums a l e : tiles a l e →
  used_sum l = map_fold (λ _ c s, c + s) 0 (live l) ∧ used_count l = Z.of_nat (base.size (live l)).
Proof.
  revert a; induction l as [|x l IH]; intros a; cbn [tiles used_sum used_count live]; [done|].
  intros (<- & ? & _ & Ht). destruct (IH _ Ht) as [-> ->].
  destruct (unused x) eqn:E; [done|].
  assert (live l !! payload x = None) as Hn.
  { apply (live_lookup_ge _ _ _ _ Ht). unfold payload, seg_end, sizeof_block. lia. }
  rewrite map_fold_insert_L, map_size_insert_None by (done || intros; lia). split; lia.
Qed.

(** ** Properties *)

(** Static data at power-on. *)
Definition heap_zero : heap := Heap ∅ 0 0 0 false ∅.

Section Properties.
Context `{PageBacking B}.

(** C3: From zero-initialised statics, once [heap_initialize] has succeeded every
    sequence of kmalloc, kcalloc, kfree and krealloc calls is a run of the heap
    contract: results are 0 or fresh 16-aligned payloads inside the heap window that
    overlap no other live payload, kfree succeeds exactly on NULL and live payloads,
    kcalloc clears exactly its bytes, krealloc fails only when it must allocate and
    cannot and otherwise preserves the contents, and no call touches the contents of
    another live payload. *)
Theorem heap_refines (b : B) s cs : heap_initialize (heap_zero, b) = (true, s) → Forall well_formed cs →
  ∃ a, steps cs (∅, ∅) (fst (exec_all cs s)) a ∧ simulates (snd (exec_all cs s)) a.
Proof.
  intros Hinit Hcs. apply exec_all_refines; [|done]. revert Hinit. unfold heap_initialize. cbn [fst ready heap_zero].
  assert (heap_inv heap_zero []) as Hi.
  { split; [|done]. constructor; try done. split; [by vm_compute|by exists 0]. }
  destruct (grow_spec HEAP_PAGE heap_zero b [] Hi ltac:(by vm_compute)) as (ok & h & b' & -> & _ & Eb & Hok).
  destruct ok; [|done]. intros [= <-]. destruct Hok as (l0 & z & [Hr Hsep] & Hz & Hl & _).
  exists (l0 ++ [z]). cbn. split; [split; [|done]|by rewrite Hl, Eb].
  destruct Hr. constructor; try done. intros _ E. by destruct l0.
Qed.

(** First fit: when the heap is ready and some free block can hold the rounded
    request, kmalloc returns the payload of the first such block in address order and
    asks for no page. *)
Theorem kmalloc_first_fit n h (b : B) m x m' :
  heap_inv h (m ++ x :: m') → ready h = true → 0 < n ≤ HEAP_LIMIT - sizeof_block →
  unused x = true → aligned n ≤ cap x → Forall (λ y, unused y = true → cap y < aligned n) m →
  ∃ h', kmalloc n (h, b) = (payload x, (h', b)).
Proof.
  intros Hi Hrd Hn Hx Hc Hm. pose proof (aligned_spec n ltac:(lia)) as Ha.
  rewrite bool_decide_eq_true_2 in Ha by done.
  destruct (allocate_fit n h b _ m x m' Hi Hrd ltac:(lia) ltac:(lia) eq_refl Hx Hc) as (h' & l' & E & _); [|by exists h'].
  eapply Forall_impl; [|exact Hm]. cbn beta. intros y Hy. destruct (unused y); [|done].
  apply Z.leb_gt, Hy. done.
Qed.
End Properties.

(** Heap_stats accounts for every mapped byte: headers, used and free payloads
    add up to the mapped bytes, and the used bytes and the allocation count are those
    of the live payloads. *)
Theorem heap_stats_exact h l : heap_inv h l →
  let st := heap_stats h in
  mapped_bytes st = heap_mapped h ∧
  used_bytes st + free_bytes st + sizeof_block * Z.of_nat (length l) = mapped_bytes st ∧
  used_bytes st = map_fold (λ _ c s, c + s) 0 (live l) ∧
  allocations st = Z.of_nat (base.size (live l)).
Proof.
  intros [Hr _]. cbn zeta. unfold heap_stats. rewrite (rep_first _ _ Hr), (stats_loop_spec h [] l); [|done|].
  - cbn [mapped_bytes used_bytes free_bytes allocations]. pose proof (rep_tiles _ _ Hr) as Ht.
    destruct (live_sums _ _ _ Ht) as [-> ->]. rewrite <- (proj1 (live_sums _ _ _ Ht)).
    apply tiles_sums in Ht. unfold sizeof_block. split_and!; lia.
  - pose proof (tiles_length _ _ _ (rep_tiles _ _ Hr)). destruct (rep_mapped _ _ Hr) as [? _].
    enough (Z.of_nat (length l) ≤ heap_mapped h / 32) by lia. apply Z.div_le_lower_bound; lia.
Qed.

(** ** Witnesses: a page allocator that hands out ascending frames below 32 pages. *)
#[local] Instance sample_backing : PageBacking Z := {|
  pb_allocate n := if n <? 32 then (0x100000 + n * 0x1000, n + 1) else (0, n);
  pb_free _ n := (true, n);
  pb_map _ _ n := (true, n);
  pb_unmap _ n := (None, n)
|}.
Definition sample_calls : list call :=
  [Malloc 100; Malloc 50; Calloc 3 2000; Free (HEAP_BASE + 16); Realloc (HEAP_BASE + 144) 3000; Malloc 200000; Free 5].

Lemma heap_refines_witness :
  let s := snd (heap_initialize (heap_zero, 1)) in
  fst (exec_all sample_calls s) = [0x40000010; 0x40000090; 0x400000e0; 1; 0x40001860; 0; 0] ∧
  ∃ a, steps sample_calls (∅, ∅) (fst (exec_all sample_calls s)) a ∧ simulates (snd (exec_all sample_calls s)) a.
Proof.
  cbn zeta. split; [by vm_compute|].
  apply (heap_refines (1 : Z) (snd (heap_initialize (heap_zero, 1))) sample_calls).
  - apply pair_true. vm_compute. reflexivity.
  - repeat constructor; by vm_compute.
Defined.

Definition sample_heap : heap :=
  Heap {[ 0x40000000 := Block 16 0 0x40000020 true; 0x40000020 := Block 32 0x40000000 0x40000050 false;
          0x40000050 := Block 4000 0x40000020 0 true ]} 0x40000000 0x40000050 0x1000 true ∅.
Definition sample_segs : list seg :=
  [Seg 0x40000000 16 true; Seg 0x40000020 32 false; Seg 0x40000050 4000 true].
Lemma sample_heap_inv : heap_inv sample_heap sample_segs.
Proof.
  split; [|by vm_compute]. constructor; try (by vm_compute).
  - vm_compute. split_and!; try done; [by exists 1|by exists 2|by exists 250].
  - split; [by vm_compute|by exists 1].
Qed.

Lemma kmalloc_first_fit_witness :
  ∃ h', kmalloc (H := sample_backing) 20 (sample_heap, 1) = (0x40000060, (h', 1)).
Proof.
  apply (kmalloc_first_fit (H := sample_backing) 20 sample_heap (1 : Z)
    [Seg 0x40000000 16 true; Seg 0x40000020 32 false] (Seg 0x40000050 4000 true) []).
  - apply sample_heap_inv.
  - reflexivity.
  - by vm_compute.
  - reflexivity.
  - by vm_compute.
  - repeat constructor; by vm_compute.
Defined.

Lemma heap_stats_exact_witness :
  used_bytes (heap_stats sample_heap) = 32 ∧ allocations (heap_stats sample_heap) = 1.
Proof. exact (conj (proj1 (proj2 (proj2 (heap_stats_exact sample_heap sample_segs sample_heap_inv)))) (proj2 (proj2 (proj2 (heap_stats_exact sample_heap sample_segs sample_heap_inv))))). Defined.
