(* ===== verification/Block.v ===== *)
(** * Block layer (kernel/io/block.c, kernel/fs/fs-types.c)

    The wrappers that serialise requests to a block device, check their range
    and call the driver. A driver is a [block_operations] over the whole I/O
    state: it may take the device offline. [DriverLaw] is what the wrappers
    rely on, discharged for the ATA driver in the file Ata. *)

From S2P Require Import Prelude.

Inductive block_error :=
| BLOCK_OK | BLOCK_INVALID | BLOCK_RANGE | BLOCK_NO_DEVICE | BLOCK_READ_ONLY
| BLOCK_BUSY | BLOCK_TIMEOUT | BLOCK_DEVICE_FAULT | BLOCK_IO_ERROR | BLOCK_UNSUPPORTED.
#[global] Instance block_error_eq : EqDecision block_error.
Proof. solve_decision. Defined.

Inductive fs_error :=
| FS_OK | FS_END | FS_INVALID | FS_UNAVAILABLE | FS_NOT_FOUND | FS_NOT_DIRECTORY
| FS_IS_DIRECTORY | FS_EXISTS | FS_NOT_EMPTY | FS_PATH_TOO_LONG | FS_NAME_TOO_LONG
| FS_TOO_DEEP | FS_MOUNT_ESCAPE | FS_RANGE | FS_ACCESS | FS_READ_ONLY | FS_BUSY
| FS_NO_MEMORY | FS_NO_SPACE | FS_UNSUPPORTED | FS_IO_ERROR | FS_TIMEOUT | FS_DEVICE_FAULT.
#[global] Instance fs_error_eq : EqDecision fs_error.
Proof. solve_decision. Defined.

Definition fs_error_from_block (error : block_error) : fs_error :=
  match error with
  | BLOCK_OK => FS_OK
  | BLOCK_INVALID => FS_INVALID
  | BLOCK_RANGE => FS_RANGE
  | BLOCK_NO_DEVICE => FS_UNAVAILABLE
  | BLOCK_READ_ONLY => FS_READ_ONLY
  | BLOCK_BUSY => FS_BUSY
  | BLOCK_TIMEOUT => FS_TIMEOUT
  | BLOCK_DEVICE_FAULT => FS_DEVICE_FAULT
  | BLOCK_UNSUPPORTED => FS_UNSUPPORTED
  | BLOCK_IO_ERROR => FS_IO_ERROR
  end.

Record block_result := BlockResult {
  error : block_error; completed : Z; status : Z; device_error : Z
}.
Definition block_failure (e : block_error) : block_result := BlockResult e 0 0 0.

Record block_device := BlockDevice {
  sector_count : Z; sector_size : Z; online : bool; read_only : bool; busy : bool
}.
(** The device, the driver's private state and block.c's counter of requests. *)
Record bio (D : Type) := Bio { device : block_device; driver : D; active_requests : Z }.
Arguments Bio {D} _ _ _.
Arguments device {D} _.
Arguments driver {D} _.
Arguments active_requests {D} _.

(** A [None] member is a NULL function pointer; read returns the buffer it filled. *)
Record block_operations (D : Type) := BlockOperations {
  op_read : option (Z → Z → list Z → bio D → (block_result * list Z) * bio D);
  op_write : option (Z → Z → list Z → bio D → block_result * bio D);
  op_flush : option (bio D → block_result * bio D)
}.
Arguments BlockOperations {D} _ _ _.
Arguments op_read {D} _.
Arguments op_write {D} _.
Arguments op_flush {D} _.

Definition set_online (b : bool) (d : block_device) : block_device :=
  BlockDevice (sector_count d) (sector_size d) b (read_only d) (busy d).
Definition set_busy (b : bool) (d : block_device) : block_device :=
  BlockDevice (sector_count d) (sector_size d) (online d) (read_only d) b.

Definition block_request_active {D} (s : bio D) : bool := negb (active_requests s =? 0).

Section Wrappers.
Context {D : Type}.
(** [given] is [device != NULL]; [ops] is [device->operations], [None] for NULL. *)
Variable ops : option (block_operations D).
Implicit Types (s : bio D) (given : bool).

Definition acquire given s : block_error * bio D :=
  if negb given || negb (if ops then true else false) || (sector_size (device s) =? 0)
  then (BLOCK_INVALID, s)
  else if negb (online (device s)) then (BLOCK_NO_DEVICE, s)
  else if busy (device s) || (active_requests s =? UINT32_MAX) then (BLOCK_BUSY, s)
  else (BLOCK_OK, Bio (set_busy true (device s)) (driver s) (active_requests s + 1)).

Definition release s : bio D :=
  Bio (set_busy false (device s)) (driver s) (wrap32 (active_requests s - 1)).

(** [buffer] is [None] for NULL. *)
Definition validate (d : block_device) (lba count : Z) (buffer : option (list Z)) (bytes : Z) : block_error :=
  if (lba >? sector_count d) || (count >? sector_count d - lba) then BLOCK_RANGE
  else if negb (count =? 0) && (negb (if buffer then true else false) ||
            (count >? UINT32_MAX / sector_size d) || (count >? bytes / sector_size d))
  then BLOCK_INVALID
  else BLOCK_OK.

Definition block_read given (lba count : Z) (buffer : option (list Z)) (bytes : Z) s
    : (block_result * option (list Z)) * bio D :=
  let '(e, s) := acquire given s in
  if bool_decide (e ≠ BLOCK_OK) then ((block_failure e, buffer), s) else
  let e := validate (device s) lba count buffer bytes in
  let '(result, buffer, s) :=
    match ops, buffer with
    | Some o, Some data =>
        if bool_decide (e = BLOCK_OK) && negb (count =? 0) then
          match op_read o with
          | Some f => let '(r, data, s) := f lba count data s in (r, Some data, s)
          | None => (block_failure BLOCK_UNSUPPORTED, buffer, s)
          end
        else (block_failure e, buffer, s)
    | _, _ => (block_failure e, buffer, s) (* a NULL buffer passes validation only when count is 0 *)
    end in
  ((result, buffer), release s).

Definition block_write given (lba count : Z) (buffer : option (list Z)) (bytes : Z) s
    : block_result * bio D :=
  let '(e, s) := acquire given s in
  if bool_decide (e ≠ BLOCK_OK) then (block_failure e, s) else
  let e := validate (device s) lba count buffer bytes in
  let '(result, s) :=
    match ops, buffer with
    | Some o, Some data =>
        if bool_decide (e = BLOCK_OK) && negb (count =? 0) then
          if read_only (device s) then (block_failure BLOCK_READ_ONLY, s) else
          match op_write o with
          | Some f => f lba count data s
          | None => (block_failure BLOCK_UNSUPPORTED, s)
          end
        else (block_failure e, s)
    | _, _ => (block_failure e, s)
    end in
  (result, release s).

Definition block_flush given s : block_result * bio D :=
  let '(e, s) := acquire given s in
  if bool_decide (e ≠ BLOCK_OK) then (block_failure e, s) else
  let '(result, s) :=
    match ops with
    | Some o => match op_flush o with Some f => f s | None => (block_failure BLOCK_UNSUPPORTED, s) end
    | None => (block_failure BLOCK_INVALID, s) (* excluded by acquire *)
    end in
  (result, release s).

(** ** What a driver must respect *)

(** The fields only block.c writes are left alone; the geometry is fixed. *)
Definition respects s s' : Prop :=
  busy (device s') = busy (device s) ∧ active_requests s' = active_requests s ∧
  sector_count (device s') = sector_count (device s) ∧ sector_size (device s') = sector_size (device s) ∧
  read_only (device s') = read_only (device s).

Class DriverLaw (o : block_operations D) : Prop := {
  law_read f lba count data s : op_read o = Some f → respects s (snd (f lba count data s));
  law_write f lba count data s : op_write o = Some f → respects s (snd (f lba count data s));
  law_flush f s : op_flush o = Some f → respects s (snd (f s))
}.
End Wrappers.

(** ** Lemmas *)

Section WrapperLemmas.
Context {D : Type}.
Implicit Types (s : bio D) (o : block_operations D).

(** A device that accepts a request. *)
Definition idle s : Prop :=
  sector_size (device s) ≠ 0 ∧ online (device s) = true ∧ busy (device s) = false ∧
  0 ≤ active_requests s < UINT32_MAX.
#[global] Instance idle_dec s : Decision (idle s).
Proof. apply _. Defined.
Definition held s : bio D := Bio (set_busy true (device s)) (driver s) (active_requests s + 1).

Lemma acquire_idle o s : idle s → acquire (Some o) true s = (BLOCK_OK, held s).
Proof.
  intros (Hz & Ho & Hb & Ha). unfold acquire. destruct (Z.eqb_spec (sector_size (device s)) 0); [done|].
  rewrite Ho, Hb. destruct (Z.eqb_spec (active_requests s) UINT32_MAX); [lia|done].
Qed.
Lemma acquire_refused ops given s : 0 ≤ active_requests s ≤ UINT32_MAX →
  ¬ (given = true ∧ is_Some ops ∧ idle s) → ∃ e, acquire ops given s = (e, s) ∧ e ≠ BLOCK_OK.
Proof.
  intros Hr Hn. unfold acquire. destruct given; [|by eexists]. destruct ops as [o|]; [|by eexists].
  destruct (Z.eqb_spec (sector_size (device s)) 0) as [|Hz]; [by eexists|].
  destruct (online (device s)) eqn:Ho; [|by eexists]. destruct (busy (device s)) eqn:Hb; [by eexists|].
  destruct (Z.eqb_spec (active_requests s) UINT32_MAX); [by eexists|].
  exfalso. apply Hn. split_and!; [done|by eexists|]. repeat split; try done; lia.
Qed.

Lemma release_held s s' : respects (held s) s' → idle s →
  active_requests (release s') = active_requests s ∧ busy (device (release s')) = busy (device s).
Proof.
  intros (_ & Ha & _) (_ & _ & Hb & Hr). cbn. rewrite Ha, Hb. cbn. split; [|done].
  replace (active_requests s + 1 - 1) with (active_requests s) by lia. apply wrap32_small. lia.
Qed.

Lemma validate_ok d lba count buffer bytes : 0 < sector_size d → 0 ≤ lba → 0 ≤ count → 0 ≤ bytes →
  validate d lba count buffer bytes = BLOCK_OK ↔
  lba + count ≤ sector_count d ∧
  (count ≠ 0 → is_Some buffer ∧ count * sector_size d ≤ Z.min bytes UINT32_MAX).
Proof.
  intros Hs Hl Hc Hb. unfold validate. rewrite !Z.gtb_ltb.
  assert (∀ m, (m / sector_size d <? count) = (m <? count * sector_size d)) as Hdiv.
  { intros m. apply eq_true_iff_eq. rewrite !Z.ltb_lt. rewrite Z.mul_comm. split; intros Hlt.
    - pose proof (Z.mul_succ_div_gt m (sector_size d) Hs). nia.
    - apply Z.div_lt_upper_bound; lia. }
  rewrite !Hdiv. destruct (Z.ltb_spec (sector_count d) lba); cbn [orb]; [split; [done|lia]|].
  destruct (Z.ltb_spec (sector_count d - lba) count); [split; [done|lia]|].
  destruct (Z.eqb_spec count 0) as [->|Hc0]; cbn [negb andb]; [split; [intros _; split; [lia|done]|done]|].
  destruct buffer; cbn [negb orb]; [|split; [done|]; by intros [_ [[] _]]].
  destruct (Z.ltb_spec UINT32_MAX (count * sector_size d)); cbn [orb].
  { split; [done|]. intros [_ Hx]. destruct (Hx Hc0). lia. }
  destruct (Z.ltb_spec bytes (count * sector_size d)).
  { split; [done|]. intros [_ Hx]. destruct (Hx Hc0). lia. }
  split; [|done]. intros _. split; [lia|]. intros _. split; [by eexists|lia].
Qed.

(** A request as the driver may see it: in range, and the buffer is large enough. *)
Definition in_range s (lba count bytes : Z) : Prop :=
  0 < count ∧ lba + count ≤ sector_count (device s) ∧ count * sector_size (device s) ≤ Z.min bytes UINT32_MAX.

(** The test before the driver call. *)
Lemma request_checked s lba count buffer bytes :
  0 ≤ lba → 0 ≤ count → 0 ≤ bytes → 0 ≤ sector_size (device s) → idle s →
  let e := validate (device (held s)) lba count buffer bytes in
  let go := bool_decide (e = BLOCK_OK) && negb (count =? 0) in
  (∃ data, buffer = Some data ∧ go = true ∧ in_range s lba count bytes) ∨
  (go = false ∨ buffer = None) ∧ (e = BLOCK_OK → count = 0).
Proof.
  intros Hl Hc Hb Hz Hi e go. assert (0 < sector_size (device s)) as Hs by (destruct Hi; lia).
  pose proof (validate_ok (device (held s)) lba count buffer bytes Hs Hl Hc Hb) as Hv. fold e in Hv.
  change (sector_count (device (held s))) with (sector_count (device s)) in Hv.
  change (sector_size (device (held s))) with (sector_size (device s)) in Hv.
  unfold go. destruct (decide (count = 0)) as [->|Hc0].
  { right. split; [|done]. left. by rewrite andb_false_r. }
  destruct (decide (e = BLOCK_OK)) as [He|He].
  - left. apply Hv in He as He'. destruct He' as [Hr1 Hr2]. destruct (Hr2 Hc0) as [[data ->] Hr3].
    exists data. rewrite bool_decide_eq_true_2 by done. split_and!; [done|cbn; lia|].
    split_and!; lia.
  - right. rewrite bool_decide_eq_false_2 by done. split; [by left|done].
Qed.
End WrapperLemmas.

(** ** Properties *)

Section Properties.
Context {D : Type} (o : block_operations D) `{!DriverLaw o}.
Implicit Types (s : bio D).

(** Block_read either fails with no sector completed, the buffer and the driver
    untouched, or it has called the driver's read exactly once, on an idle online
    device that it holds busy, with a nonempty sector range inside the device whose
    bytes fit the caller's buffer; in both cases the busy flag and the number of
    active requests are back to their values at entry. *)
Theorem block_read_guarded given lba count buffer bytes s :
  0 ≤ lba → 0 ≤ count → 0 ≤ bytes → 0 ≤ sector_size (device s) → 0 ≤ active_requests s ≤ UINT32_MAX →
  let '((r, buffer'), s') := block_read (Some o) given lba count buffer bytes s in
  active_requests s' = active_requests s ∧ busy (device s') = busy (device s) ∧
  ((completed r = 0 ∧ (error r = BLOCK_OK → count = 0) ∧ buffer' = buffer ∧ driver s' = driver s) ∨
   ∃ f data data' s'', op_read o = Some f ∧ buffer = Some data ∧ given = true ∧ idle s ∧
     in_range s lba count bytes ∧ f lba count data (held s) = (r, data', s'') ∧
     buffer' = Some data' ∧ s' = release s'').
Proof.
  intros Hl Hc Hb Hz Ha. destruct (decide (given = true ∧ is_Some (Some o) ∧ idle s)) as [(-> & _ & Hi)|Hn].
  2: { unfold block_read. destruct (acquire_refused (Some o) given s Ha Hn) as (e & -> & He).
       rewrite bool_decide_eq_true_2 by done. cbn. split_and!; [done..|]. by left. }
  unfold block_read. rewrite (acquire_idle o s Hi), bool_decide_eq_false_2 by (intros E; done).
  destruct (release_held s (held s) ltac:(done) Hi) as [Ha0 Hb0].
  destruct (request_checked s lba count buffer bytes Hl Hc Hb Hz Hi) as [(data & -> & -> & Hr)|[Hno He]].
  2: { set (e := validate _ _ _ _ _) in *. destruct buffer as [data|]; cbn -[release];
       [destruct Hno as [->|]; [|done]|]; by split_and!; [..|left]. }
  destruct (op_read o) as [f|] eqn:Ef.
  - destruct (f lba count data (held s)) as [[r data'] s''] eqn:Er.
    pose proof (law_read f lba count data (held s) Ef) as Hlaw. rewrite Er in Hlaw.
    destruct (release_held s s'' Hlaw Hi) as [Ha1 Hb1]. split_and!; [done..|]. right.
    by exists f, data, data', s''.
  - cbn -[release]. split_and!; [done..|]. left. by split_and!.
Qed.

(** Block_write never reaches the driver on a read-only device, an offline or busy
    device, an empty or out-of-range request or a short buffer; otherwise it calls the
    driver's write once while holding the device, and it always restores the busy
    flag and the number of active requests. *)
Theorem block_write_guarded given lba count buffer bytes s :
  0 ≤ lba → 0 ≤ count → 0 ≤ bytes → 0 ≤ sector_size (device s) → 0 ≤ active_requests s ≤ UINT32_MAX →
  let '(r, s') := block_write (Some o) given lba count buffer bytes s in
  active_requests s' = active_requests s ∧ busy (device s') = busy (device s) ∧
  ((completed r = 0 ∧ (error r = BLOCK_OK → count = 0) ∧ driver s' = driver s) ∨
   ∃ f data s'', op_write o = Some f ∧ buffer = Some data ∧ given = true ∧ idle s ∧
     read_only (device s) = false ∧ in_range s lba count bytes ∧
     f lba count data (held s) = (r, s'') ∧ s' = release s'').
Proof.
  intros Hl Hc Hb Hz Ha. destruct (decide (given = true ∧ is_Some (Some o) ∧ idle s)) as [(-> & _ & Hi)|Hn].
  2: { unfold block_write. destruct (acquire_refused (Some o) given s Ha Hn) as (e & -> & He).
       rewrite bool_decide_eq_true_2 by done. cbn. split_and!; [done..|]. by left. }
  unfold block_write. rewrite (acquire_idle o s Hi), bool_decide_eq_false_2 by (intros E; done).
  destruct (release_held s (held s) ltac:(done) Hi) as [Ha0 Hb0].
  destruct (request_checked s lba count buffer bytes Hl Hc Hb Hz Hi) as [(data & -> & -> & Hr)|[Hno He]].
  2: { set (e := validate _ _ _ _ _) in *. destruct buffer as [data|]; cbn -[release];
       [destruct Hno as [->|]; [|done]|]; by split_and!; [..|left]. }
  change (read_only (device (held s))) with (read_only (device s)).
  destruct (read_only (device s)) eqn:Ero; [cbn -[release]; split_and!; [done..|]; by left|].
  destruct (op_write o) as [f|] eqn:Ef.
  - destruct (f lba count data (held s)) as [r s''] eqn:Er.
    pose proof (law_write f lba count data (held s) Ef) as Hlaw. rewrite Er in Hlaw.
    destruct (release_held s s'' Hlaw Hi) as [Ha1 Hb1]. split_and!; [done..|]. right.
    by exists f, data, s''.
  - cbn -[release]. split_and!; [done..|]. left. by split_and!.
Qed.
End Properties.

(** ** A memory-backed device, used to exercise the wrappers and their clients *)

Module RamDisk.
Definition bytes_at (m : gmap Z Z) (a : Z) (n : nat) : list Z := (λ i, aget m (a + Z.of_nat i)) <$> seq 0 n.
Fixpoint store (m : gmap Z Z) (a : Z) (l : list Z) : gmap Z Z :=
  match l with [] => m | x :: l => store (<[a := x]> m) (a + 1) l end.
Definition ops : block_operations (gmap Z Z) := {|
  op_read := Some (λ lba count data s,
    let n := Z.to_nat (count * 512) in
    ((BlockResult BLOCK_OK count 0x50 0, bytes_at (driver s) (lba * 512) n ++ drop n data), s));
  op_write := Some (λ lba count data s,
    let n := Z.to_nat (count * 512) in
    (BlockResult BLOCK_OK count 0x50 0,
     Bio (device s) (store (driver s) (lba * 512) (take n data)) (active_requests s)));
  op_flush := Some (λ s, (BlockResult BLOCK_OK 0 0x50 0, s))
|}.
#[global] Instance ops_law : DriverLaw ops.
Proof. split; intros; simplify_eq/=; done. Qed.

Definition start (sectors : Z) (m : gmap Z Z) : bio (gmap Z Z) :=
  Bio (BlockDevice sectors 512 true false false) m 0.
End RamDisk.

Lemma block_read_guarded_witness :
  let s := RamDisk.start 8 {[ 513 := 7 ]} in
  let '((r, buffer'), s') := block_read (Some RamDisk.ops) true 1 1 (Some []) 512 s in
  active_requests s' = 0 ∧ busy (device s') = false ∧
  ((completed r = 0 ∧ (error r = BLOCK_OK → 1 = 0) ∧ buffer' = Some [] ∧ driver s' = driver s) ∨
   ∃ f data data' s'', op_read RamDisk.ops = Some f ∧ Some [] = Some data ∧ true = true ∧ idle s ∧
     in_range s 1 1 512 ∧ f 1 1 data (held s) = (r, data', s'') ∧ buffer' = Some data' ∧ s' = release s'').
Proof. apply (block_read_guarded RamDisk.ops true 1 1 (Some []) 512 (RamDisk.start 8 {[ 513 := 7 ]})); by vm_compute. Defined.

Lemma block_write_guarded_witness :
  let s := RamDisk.start 8 ∅ in
  let '(r, s') := block_write (Some RamDisk.ops) true 2 1 (Some (replicate 512 9)) 512 s in
  active_requests s' = 0 ∧ busy (device s') = false ∧
  ((completed r = 0 ∧ (error r = BLOCK_OK → 1 = 0) ∧ driver s' = driver s) ∨
   ∃ f data s'', op_write RamDisk.ops = Some f ∧ Some (replicate 512 9) = Some data ∧ true = true ∧ idle s ∧
     read_only (device s) = false ∧ in_range s 2 1 512 ∧ f 2 1 data (held s) = (r, s'') ∧ s' = release s'').
Proof.
  apply (block_write_guarded RamDisk.ops true 2 1 (Some (replicate 512 9)) 512 (RamDisk.start 8 ∅)); by vm_compute.
Defined.
