(* ===== verification/Ata.v ===== *)
(** * ATA disk driver (drivers/storage/ata.c)

    The polling driver of the secondary channel's first disk, as the driver of the block
    layer of Block.v. The ports are a device whose reads and writes are parameters, so
    every theorem holds for whatever the hardware answers. *)

From S2P Require Import Prelude Block.

Definition ATA_DATA : Z := 0x170.
Definition ATA_ERROR : Z := 0x171.
Definition ATA_COUNT : Z := 0x172.
Definition ATA_LBA_LOW : Z := 0x173.
Definition ATA_LBA_MID : Z := 0x174.
Definition ATA_LBA_HIGH : Z := 0x175.
Definition ATA_DEVICE : Z := 0x176.
Definition ATA_COMMAND : Z := 0x177.
Definition ATA_CONTROL : Z := 0x376.
Definition ATA_BSY : Z := 0x80.
Definition ATA_DF : Z := 0x20.
Definition ATA_DRQ : Z := 0x08.
Definition ATA_ERR : Z := 0x01.
Definition ATA_POLL_LIMIT : Z := 1000000.
Definition ATA_FLUSH_POLL_LIMIT : Z := 50000000.
Definition ATA_SECTOR_SIZE : Z := 512.
Definition ATA_LBA_LIMIT : Z := Z.shiftl 1 28.

Inductive poll_phase := POLL_IDLE | POLL_DATA | POLL_COMPLETE.
#[global] Instance poll_phase_eq : EqDecision poll_phase.
Proof. solve_decision. Defined.

(** The hardware and [needs_flush]; [disk] is the device of the request. *)
Record ata (P : Type) := Ata { ports : P; needs_flush : bool }.
Arguments Ata {P} _ _.
Arguments ports {P} _.
Arguments needs_flush {P} _.

Definition flag_set (word mask : Z) : bool := negb (Z.land word mask =? 0).
(** [bytes[i] = v] through a pointer to the bytes of the list. *)
Definition put_byte (i : Z) (v : Z) (l : list Z) : list Z := take (Z.to_nat i) l ++ v :: drop (S (Z.to_nat i)) l.
Definition get_byte (l : list Z) (i : Z) : Z := default 0 (l !! Z.to_nat i).

Section Ata.
Context {P : Type} (inb : Z → P → Z * P) (outb : Z → Z → P → P) (inw : Z → P → Z * P) (outw : Z → Z → P → P).
Implicit Types (s : bio (ata P)).

Definition set_ports (p : P) s : bio (ata P) := Bio (device s) (Ata p (needs_flush (driver s))) (active_requests s).
(** A port instruction delivers a byte or a word. *)
Definition read_port (port : Z) s : Z * bio (ata P) := let '(v, p) := inb port (ports (driver s)) in (wrap8 v, set_ports p s).
Definition write_port (port value : Z) s : bio (ata P) := set_ports (outb port value (ports (driver s))) s.
Definition read_word (port : Z) s : Z * bio (ata P) := let '(v, p) := inw port (ports (driver s)) in (wrap16 v, set_ports p s).
Definition write_word (port value : Z) s : bio (ata P) := set_ports (outw port value (ports (driver s))) s.
Definition offline s : bio (ata P) := Bio (set_online false (device s)) (driver s) (active_requests s).

Definition settle s : bio (ata P) := Nat.iter 4 (λ s, snd (read_port ATA_CONTROL s)) s.

(** [last] is the variable [status] before the pass. *)
Fixpoint poll_loop (limit : nat) (phase : poll_phase) (last : Z) s : block_result * bio (ata P) :=
  match limit with
  | O => (BlockResult BLOCK_TIMEOUT 0 last 0, offline s)
  | S limit =>
      let '(status, s) := read_port ATA_CONTROL s in
      if (status =? 0) || (status =? 0xff) then (BlockResult BLOCK_NO_DEVICE 0 status 0, offline s) else
      if flag_set status ATA_BSY then poll_loop limit phase status s else
      if flag_set status ATA_DF then
        let '(e, s) := read_port ATA_ERROR (offline s) in (BlockResult BLOCK_DEVICE_FAULT 0 status e, s)
      else if negb (bool_decide (phase = POLL_IDLE)) && flag_set status ATA_ERR then
        let '(e, s) := read_port ATA_ERROR s in (BlockResult BLOCK_IO_ERROR 0 status e, s)
      else if Bool.eqb (bool_decide (phase = POLL_DATA)) (flag_set status ATA_DRQ) then (BlockResult BLOCK_OK 0 status 0, s)
      else poll_loop limit phase status s
  end.
Definition poll_limit (phase : poll_phase) (limit : Z) s : block_result * bio (ata P) := poll_loop (Z.to_nat limit) phase 0 s.
Definition poll (phase : poll_phase) s : block_result * bio (ata P) := poll_limit phase ATA_POLL_LIMIT s.

Definition failed (r : block_result) : bool := bool_decide (error r ≠ BLOCK_OK).

Definition command (lba opcode : Z) s : block_result * bio (ata P) :=
  let '(result, s) := poll POLL_IDLE s in
  if failed result then (result, s) else
  let s := settle (write_port ATA_DEVICE (wrap8 (Z.lor 0xe0 (Z.shiftr lba 24))) s) in
  let '(result, s) := poll POLL_IDLE s in
  if failed result then (result, s) else
  let s := write_port ATA_COUNT 1 s in
  let s := write_port ATA_LBA_LOW (wrap8 lba) s in
  let s := write_port ATA_LBA_MID (wrap8 (Z.shiftr lba 8)) s in
  let s := write_port ATA_LBA_HIGH (wrap8 (Z.shiftr lba 16)) s in
  let s := settle (write_port ATA_COMMAND opcode s) in
  poll POLL_DATA s.

(** [for (i = 0; i < 512; i += 2)] over the sector at [bytes], [n] words of it left. *)
Fixpoint write_words (n : nat) (bytes i : Z) (data : list Z) s : bio (ata P) :=
  match n with
  | O => s
  | S n =>
      let word := wrap16 (Z.lor (get_byte data (bytes + i)) (wrap16 (Z.shiftl (get_byte data (bytes + i + 1)) 8))) in
      write_words n bytes (i + 2) data (write_word ATA_DATA word s)
  end.
Fixpoint read_words (n : nat) (bytes i : Z) (data : list Z) s : list Z * bio (ata P) :=
  match n with
  | O => (data, s)
  | S n =>
      let '(word, s) := read_word ATA_DATA s in
      read_words n bytes (i + 2) (put_byte (bytes + i + 1) (wrap8 (Z.shiftr word 8)) (put_byte (bytes + i) (wrap8 word) data)) s
  end.
Definition SECTOR_WORDS : nat := 256.

Definition set_completed (n : Z) (r : block_result) : block_result := BlockResult (error r) n (status r) (device_error r).
(** One pass of the loop of [transfer], without the assignments to [completed]. *)
Definition transfer_sector (lba bytes : Z) (data : list Z) (write : bool) s : (block_result * list Z) * bio (ata P) :=
  let '(result, s) := command (wrap32 lba) (if write then 0x30 else 0x20) s in
  if failed result then ((result, data), s) else
  let '(data, s) := if write then (data, write_words SECTOR_WORDS bytes 0 data s) else read_words SECTOR_WORDS bytes 0 data s in
  let '(result, s) := poll POLL_COMPLETE (settle s) in
  ((result, data), s).
(** [n] is [count - done]. *)
Fixpoint transfer_loop (n : nat) (lba done : Z) (data : list Z) (write : bool) (result : block_result) s
    : (block_result * list Z) * bio (ata P) :=
  match n with
  | O => ((result, data), s)
  | S n =>
      let '((result, data), s) := transfer_sector (lba + done) (done * ATA_SECTOR_SIZE) data write s in
      if failed result then ((set_completed done result, data), s)
      else transfer_loop n lba (done + 1) data write (set_completed (done + 1) result) s
  end.
Definition transfer (lba count : Z) (data : list Z) (write : bool) s : (block_result * list Z) * bio (ata P) :=
  transfer_loop (Z.to_nat count) lba 0 data write (block_failure BLOCK_OK) s.

Definition read_sectors (lba count : Z) (data : list Z) s : (block_result * list Z) * bio (ata P) := transfer lba count data false s.
Definition write_sectors (lba count : Z) (data : list Z) s : block_result * bio (ata P) :=
  let '((result, _), s) := transfer lba count data true s in (result, s).
Definition flush_cache s : block_result * bio (ata P) :=
  if negb (needs_flush (driver s)) then (block_failure BLOCK_OK, s) else
  let '(result, s) := poll POLL_IDLE s in
  if failed result then (result, s) else
  let s := settle (write_port ATA_DEVICE 0xe0 s) in
  let '(result, s) := poll POLL_IDLE s in
  if failed result then (result, s) else
  let s := settle (write_port ATA_COMMAND 0xe7 s) in
  poll_limit POLL_COMPLETE ATA_FLUSH_POLL_LIMIT s.
Definition operations : block_operations (ata P) := {|
  op_read := Some read_sectors; op_write := Some write_sectors; op_flush := Some flush_cache
|}.

(** *** Identification *)

Fixpoint identify_words (n : nat) (i : Z) (identify : gmap Z Z) s : gmap Z Z * bio (ata P) :=
  match n with
  | O => (identify, s)
  | S n => let '(word, s) := read_word ATA_DATA s in identify_words n (i + 1) (aset identify i (wrap16 word)) s
  end.
Definition sectors_of (identify : gmap Z Z) : Z := Z.lor (aget identify 60) (wrap32 (Z.shiftl (aget identify 61) 16)).
Definition words_of (identify : gmap Z Z) : Z := Z.lor (aget identify 117) (wrap32 (Z.shiftl (aget identify 118) 16)).
Definition flush_supported (identify : gmap Z Z) : bool :=
  (Z.land (aget identify 83) 0xc000 =? 0x4000) && flag_set (aget identify 83) (Z.shiftl 1 12).
(** The check that ends in [BLOCK_UNSUPPORTED]. *)
Definition unsupported (identify : gmap Z Z) : bool :=
  let geometry_valid := Z.land (aget identify 106) 0xc000 =? 0x4000 in
  let long_sector := geometry_valid && flag_set (aget identify 106) (Z.shiftl 1 12) in
  let write_cache := flag_set (aget identify 85) (Z.shiftl 1 5) in
  flag_set (aget identify 0) 0x8000 || negb (flag_set (aget identify 49) (Z.shiftl 1 9)) || (sectors_of identify =? 0) ||
  (sectors_of identify >? ATA_LBA_LIMIT) || (long_sector && negb (words_of identify =? 256)) ||
  (write_cache && negb (flush_supported identify)).
(** An aborted IDENTIFY with a signature in the address registers is a packet device. *)
Definition packet_device (result : block_result) s : block_result * bio (ata P) :=
  if bool_decide (error result = BLOCK_IO_ERROR) then
    let '(middle, s) := read_port ATA_LBA_MID s in
    let '(signature, s) := if negb (middle =? 0) then (true, s) else let '(high, s) := read_port ATA_LBA_HIGH s in (negb (high =? 0), s) in
    (if signature then BlockResult BLOCK_UNSUPPORTED (completed result) (status result) (device_error result) else result, s)
  else (result, s).
Definition ata_initialize s : block_result * bio (ata P) :=
  let s := Bio (BlockDevice 0 ATA_SECTOR_SIZE false false false) (Ata (ports (driver s)) false) (active_requests s) in
  let s := settle (write_port ATA_DEVICE 0xa0 (write_port ATA_CONTROL 2 s)) in
  let '(result, s) := poll POLL_IDLE s in
  if failed result then (result, s) else
  let s := write_port ATA_LBA_HIGH 0 (write_port ATA_LBA_MID 0 (write_port ATA_LBA_LOW 0 (write_port ATA_COUNT 0 s))) in
  let s := settle (write_port ATA_COMMAND 0xec s) in
  let '(result, s) := poll POLL_DATA s in
  if failed result then packet_device result s else
  let '(identify, s) := identify_words SECTOR_WORDS 0 ∅ s in
  let '(result, s) := poll POLL_COMPLETE (settle s) in
  if failed result then (result, s) else
  if unsupported identify then (block_failure BLOCK_UNSUPPORTED, s) else
  (result, Bio (BlockDevice (sectors_of identify) ATA_SECTOR_SIZE true false false)
             (Ata (ports (driver s)) (flush_supported identify)) (active_requests s)).
Definition ata_device s : block_device := device s.
End Ata.

(** ** What the driver leaves alone, whatever the hardware answers *)

(** Errors after which the channel may not be used again. *)
Definition fatal (e : block_error) : bool := bool_decide (e ∈ [BLOCK_NO_DEVICE; BLOCK_TIMEOUT; BLOCK_DEVICE_FAULT]).

Section Steady.
Context {P : Type}.
Implicit Types (s : bio (ata P)).

(** Only the ports and the device's [online] change. *)
Definition steady s s' : Prop := respects s s' ∧ needs_flush (driver s') = needs_flush (driver s).
Definition quiet s s' : Prop := steady s s' ∧ online (device s') = online (device s).
#[global] Instance quiet_preorder : PreOrder quiet.
Proof.
  split; [done|]. intros s1 s2 s3 [[(? & ? & ? & ? & ?) ?] ?] [[(? & ? & ? & ? & ?) ?] ?].
  repeat split; congruence.
Qed.
(** The outcome of a command: it takes the device offline exactly on a fatal error. *)
Record outcome s (r : block_result) s' : Prop := {
  out_steady : steady s s';
  out_error : error r ∈ [BLOCK_OK; BLOCK_IO_ERROR; BLOCK_NO_DEVICE; BLOCK_TIMEOUT; BLOCK_DEVICE_FAULT];
  out_online : online (device s') = if fatal (error r) then false else online (device s)
}.
Lemma outcome_before s s1 r s' : quiet s s1 → outcome s1 r s' → outcome s r s'.
Proof.
  intros [[(? & ? & ? & ? & ?) ?] ?] [[(? & ? & ? & ? & ?) ?] ? O]. split; [repeat split; congruence|done|].
  rewrite O. by case_match.
Qed.
Lemma outcome_ok s r s' : outcome s r s' → failed r = false → quiet s s'.
Proof.
  intros [S _ O] F. split; [done|]. unfold failed in F. apply bool_decide_eq_false_1 in F. apply dec_stable in F. by rewrite F in O.
Qed.
End Steady.

Section Driver.
Context {P : Type} (inb : Z → P → Z * P) (outb : Z → Z → P → P) (inw : Z → P → Z * P) (outw : Z → Z → P → P).
Implicit Types (s : bio (ata P)).
Notation poll := (poll inb).
Notation transfer := (transfer inb outb inw outw).
Notation operations := (operations inb outb inw outw).

Lemma quiet_ports p s : quiet s (set_ports p s).
Proof. by repeat split. Qed.
Lemma quiet_read_port port s v s' : read_port inb port s = (v, s') → quiet s s'.
Proof. unfold read_port. destruct (inb _ _). intros [= _ <-]. apply quiet_ports. Qed.
Lemma quiet_read_word port s v s' : read_word inw port s = (v, s') → quiet s s'.
Proof. unfold read_word. destruct (inw _ _). intros [= _ <-]. apply quiet_ports. Qed.
Lemma quiet_settle s : quiet s (settle inb s).
Proof.
  unfold settle. assert (∀ n, quiet s (Nat.iter n (λ s, snd (read_port inb ATA_CONTROL s)) s)) as H; [|apply H].
  induction n as [|n IH]; [done|]. rewrite Nat.iter_succ. etransitivity; [exact IH|]. destruct (read_port _ _ _) eqn:E. by eapply quiet_read_port.
Qed.

Lemma poll_loop_outcome n phase last s r s' : poll_loop inb n phase last s = (r, s') → outcome s r s' ∧ completed r = 0.
Proof.
  revert last s. induction n as [|n IH]; intros last s; cbn [poll_loop].
  { intros [= <- <-]. split; [|done]. split; [by repeat split|by set_solver|done]. }
  destruct (read_port inb ATA_CONTROL s) as [status s1] eqn:E. apply quiet_read_port in E.
  destruct (_ || _); [intros [= <- <-]; split; [|done]; apply (outcome_before _ s1); [done|]; split; [by repeat split|by set_solver|done]|].
  destruct (flag_set status ATA_BSY); [intros H; apply IH in H as [H C]; split; [by apply (outcome_before _ s1)|done]|].
  destruct (flag_set status ATA_DF).
  { destruct (read_port inb ATA_ERROR (offline s1)) as [e s2] eqn:E2. apply quiet_read_port in E2. intros [= <- <-]. split; [|done].
    apply (outcome_before _ s1); [done|]. destruct E2 as [[(? & ? & ? & ? & ?) ?] O2].
    split; [by repeat split|by set_solver|exact O2]. }
  destruct (_ && _).
  { destruct (read_port inb ATA_ERROR s1) as [e s2] eqn:E2. apply quiet_read_port in E2. intros [= <- <-]. split; [|done].
    apply (outcome_before _ s1); [done|]. destruct E2 as [S2 O2]. split; [done|by set_solver|exact O2]. }
  destruct (Bool.eqb _ _); [intros [= <- <-]; split; [|done]; apply (outcome_before _ s1); [done|]; split; [by repeat split|by set_solver|done]|].
  intros H. apply IH in H as [H C]. split; [by apply (outcome_before _ s1)|done].
Qed.
Lemma poll_limit_outcome phase limit s r s' : poll_limit inb phase limit s = (r, s') → outcome s r s' ∧ completed r = 0.
Proof. unfold poll_limit. apply poll_loop_outcome. Qed.
Lemma poll_outcome phase s r s' : poll phase s = (r, s') → outcome s r s' ∧ completed r = 0.
Proof. unfold Ata.poll. apply poll_limit_outcome. Qed.

(** A command that polls, and goes on only if that succeeds. *)
Lemma polled phase s r s1 (rest : block_result * bio (ata P)) r' s' : poll phase s = (r, s1) →
  (if failed r then (r, s1) else rest) = (r', s') → (quiet s s1 → rest = (r', s') → outcome s r' s') → outcome s r' s'.
Proof.
  intros E H K. apply poll_outcome in E as [O _]. destruct (failed r) eqn:F; [by injection H as <- <-|]. apply K; [by eapply outcome_ok|done].
Qed.
Lemma command_outcome lba opcode s r s' : command inb outb lba opcode s = (r, s') → outcome s r s'.
Proof.
  unfold command. destruct (poll POLL_IDLE s) as [r1 s1] eqn:E1. intros H. eapply polled; [exact E1|exact H|]. clear H. intros Q1.
  match goal with |- context [settle inb ?x] => assert (quiet s (settle inb x)) as Q2 by (etransitivity; [exact Q1|]; etransitivity; [apply quiet_ports|apply quiet_settle]) end.
  cbv zeta. revert Q2. generalize (settle inb (write_port outb ATA_DEVICE (wrap8 (Z.lor 0xe0 (Z.shiftr lba 24))) s1)). intros s2 Q2.
  destruct (poll POLL_IDLE s2) as [r3 s3] eqn:E3. intros H. apply (outcome_before _ s2); [done|]. eapply polled; [exact E3|exact H|]. clear H. intros Q3 H.
  apply poll_outcome in H as [H _]. apply (outcome_before _ s3); [done|]. eapply outcome_before; [|exact H].
  do 5 (etransitivity; [apply quiet_ports|]). apply quiet_settle.
Qed.
Lemma quiet_write_words n bytes i data s : quiet s (write_words outw n bytes i data s).
Proof. revert i s. induction n as [|n IH]; intros i s; cbn; [done|]. etransitivity; [|apply IH]. apply quiet_ports. Qed.
Lemma quiet_read_words n bytes i data s : quiet s (snd (read_words inw n bytes i data s)).
Proof.
  revert i data s. induction n as [|n IH]; intros i data s; cbn; [done|]. destruct (read_word inw ATA_DATA s) eqn:E.
  etransitivity; [by eapply quiet_read_word|apply IH].
Qed.

Lemma sector_outcome lba bytes data write s r data' s' : transfer_sector inb outb inw outw lba bytes data write s = ((r, data'), s') → outcome s r s'.
Proof.
  unfold transfer_sector. destruct (command _ _ _ _ s) as [r1 s1] eqn:E. apply command_outcome in E. destruct (failed r1) eqn:F; [by intros [= <- <- <-]|].
  apply outcome_ok in E; [|done]. set (m := if write then _ else _). assert (quiet s1 (snd m)) as Q.
  { unfold m. destruct write; [apply quiet_write_words|apply quiet_read_words]. }
  destruct m as [d s2]. cbn [snd] in Q. destruct (poll POLL_COMPLETE (settle inb s2)) as [r3 s3] eqn:E3. intros [= <- <- <-].
  apply poll_outcome in E3 as [O _]. eapply outcome_before; [|exact O]. etransitivity; [exact E|]. etransitivity; [exact Q|apply quiet_settle].
Qed.

(** Bytes a read may change: those of the sectors it reached. *)
Lemma put_byte_other i v l k : 0 ≤ i < Z.of_nat (length l) → 0 ≤ k → k ≠ i → get_byte (put_byte i v l) k = get_byte l k.
Proof.
  intros Hi Hk N. unfold get_byte, put_byte. f_equal. assert (Z.to_nat i < length l)%nat as Li by lia.
  replace (take (Z.to_nat i) l ++ v :: drop (S (Z.to_nat i)) l) with (<[Z.to_nat i := v]> l) by (by apply insert_take_drop).
  apply list_lookup_insert_ne. lia.
Qed.
Lemma put_byte_length i v l : 0 ≤ i < Z.of_nat (length l) → length (put_byte i v l) = length l.
Proof. intros Hi. unfold put_byte. rewrite length_app, length_take. cbn. rewrite length_drop. lia. Qed.
Lemma read_words_frame n bytes i data s : 0 ≤ bytes → 0 ≤ i → bytes + i + 2 * Z.of_nat n ≤ Z.of_nat (length data) →
  let data' := fst (read_words inw n bytes i data s) in
  length data' = length data ∧ ∀ k, 0 ≤ k → k < bytes + i ∨ bytes + i + 2 * Z.of_nat n ≤ k → get_byte data' k = get_byte data k.
Proof.
  intros Hb. revert i data s. induction n as [|n IH]; intros i data s Hi Hl; cbn [read_words]; [done|].
  destruct (read_word inw ATA_DATA s) as [w s1].
  set (d1 := put_byte (bytes + i) (wrap8 w) data). set (d2 := put_byte (bytes + i + 1) _ d1).
  assert (length d1 = length data) as L1 by (apply put_byte_length; lia).
  assert (length d2 = length data) as L2 by (unfold d2; rewrite put_byte_length; [done|rewrite L1; lia]).
  destruct (IH (i + 2) d2 s1) as [L F]; [lia|rewrite L2; lia|]. split; [congruence|]. intros k Hk Hout.
  rewrite F by lia. unfold d2. rewrite put_byte_other by (rewrite ?L1; lia). apply put_byte_other; lia.
Qed.
Lemma sector_frame lba bytes data write s r data' s' : transfer_sector inb outb inw outw lba bytes data write s = ((r, data'), s') →
  0 ≤ bytes → bytes + ATA_SECTOR_SIZE ≤ Z.of_nat (length data) →
  length data' = length data ∧ ∀ k, 0 ≤ k → write = true ∨ k < bytes ∨ bytes + ATA_SECTOR_SIZE ≤ k → get_byte data' k = get_byte data k.
Proof.
  intros E Hb Hl. revert E. unfold transfer_sector. assert (Z.of_nat SECTOR_WORDS = 256) as W by done. revert W.
  generalize SECTOR_WORDS, (poll POLL_COMPLETE), (command inb outb (wrap32 lba) (if write then 48 else 32) s). intros n final [r1 s1] W.
  destruct (failed r1); [by intros [= <- <- <-]|]. destruct write.
  - destruct (final _) as [r3 s3]. by intros [= <- <- <-].
  - destruct (read_words_frame n bytes 0 data s1) as [L F]; [done|done|unfold ATA_SECTOR_SIZE in *; lia|].
    destruct (read_words inw n bytes 0 data s1) as [d s2]. destruct (final _) as [r3 s3]. intros [= <- <- <-]. split; [done|].
    intros k Hk [?|H]; [done|]. apply F; [done|]. unfold ATA_SECTOR_SIZE in *. lia.
Qed.

Definition ended (first count : Z) (r : block_result) : Prop :=
  first ≤ completed r ≤ first + count ∧ (error r = BLOCK_OK ↔ completed r = first + count).
Lemma loop_outcome n lba first data write r0 s r data' s' : error r0 = BLOCK_OK → completed r0 = first →
  transfer_loop inb outb inw outw n lba first data write r0 s = ((r, data'), s') → outcome s r s' ∧ ended first (Z.of_nat n) r.
Proof.
  revert first data r0 s. induction n as [|n IH]; intros first data r0 s E0 C0; cbn [transfer_loop].
  - intros [= <- <- <-]. split; [split; [by repeat split|rewrite E0; by set_solver|by rewrite E0]|]. unfold ended. rewrite E0, C0. split; [lia|split; [lia|done]].
  - destruct (transfer_sector _ _ _ _ _ _ _ _ _) as [[r1 d1] s1] eqn:E. apply sector_outcome in E. destruct (failed r1) eqn:F.
    + intros [= <- <- <-]. split; [by destruct E; split|]. unfold failed in F. apply bool_decide_eq_true_1 in F. unfold ended. cbn. split; [lia|]. split; [done|lia].
    + apply outcome_ok in E as Q; [|done]. intros H. apply IH in H as [O D]; [|by apply bool_decide_eq_false_1, dec_stable in F|done].
      split; [by apply (outcome_before _ s1)|]. unfold ended in *. replace (first + Z.of_nat (S n)) with (first + 1 + Z.of_nat n) by lia. split; [lia|apply D].
Qed.
Lemma loop_frame n lba first data write r0 s r data' s' : error r0 = BLOCK_OK → completed r0 = first → 0 ≤ first →
  (first + Z.of_nat n) * ATA_SECTOR_SIZE ≤ Z.of_nat (length data) →
  transfer_loop inb outb inw outw n lba first data write r0 s = ((r, data'), s') →
  length data' = length data ∧
  ∀ k, 0 ≤ k → write = true ∨ k < first * ATA_SECTOR_SIZE ∨ (completed r + 1) * ATA_SECTOR_SIZE ≤ k → get_byte data' k = get_byte data k.
Proof.
  revert first data r0 s. induction n as [|n IH]; intros first data r0 s E0 C0 Hf Hl; cbn [transfer_loop]; [by intros [= <- <- <-]|].
  destruct (transfer_sector _ _ _ _ _ _ _ _ _) as [[r1 d1] s1] eqn:E. apply sector_frame in E as [L1 F1]; [|unfold ATA_SECTOR_SIZE; lia|unfold ATA_SECTOR_SIZE in *; lia].
  destruct (failed r1) eqn:F.
  - intros [= <- <- <-]. split; [done|]. intros k Hk H. apply F1; [done|]. cbn in H. unfold ATA_SECTOR_SIZE in *. destruct H; [by left|lia].
  - assert (error r1 = BLOCK_OK) as E1 by by apply bool_decide_eq_false_1, dec_stable in F.
    intros H. apply loop_outcome in H as D; [|done|done]. destruct D as [_ [B _]]. apply IH in H as [L2 F2]; [|done|done|lia|unfold ATA_SECTOR_SIZE in *; lia].
    split; [congruence|]. unfold ATA_SECTOR_SIZE in *. intros k Hk [?|Ho]; [rewrite F2 by auto; by apply F1; auto|]. rewrite F2 by lia. apply F1; lia.
Qed.

Lemma flush_outcome s r s' : flush_cache inb outb s = (r, s') → outcome s r s'.
Proof.
  unfold flush_cache. destruct (negb _); [intros [= <- <-]; split; [by repeat split|by set_solver|done]|]. destruct (poll POLL_IDLE s) as [r1 s1] eqn:E1.
  intros H. eapply polled; [exact E1|exact H|]. clear H. intros Q1. cbv zeta.
  assert (quiet s (settle inb (write_port outb ATA_DEVICE 0xe0 s1))) as Q2 by (etransitivity; [exact Q1|]; etransitivity; [apply quiet_ports|apply quiet_settle]).
  revert Q2. generalize (settle inb (write_port outb ATA_DEVICE 0xe0 s1)). intros s2 Q2.
  destruct (poll POLL_IDLE s2) as [r3 s3] eqn:E3. intros H. apply (outcome_before _ s2); [done|]. eapply polled; [exact E3|exact H|]. clear H. intros Q3 H.
  apply poll_limit_outcome in H as [H _]. apply (outcome_before _ s3); [done|]. eapply outcome_before; [|exact H]. etransitivity; [apply quiet_ports|apply quiet_settle].
Qed.

(** The laws of a block driver hold for whatever the hardware answers. *)
#[global] Instance ata_driver_law : DriverLaw operations.
Proof.
  split.
  - intros f lba count data s [= <-]. unfold read_sectors. destruct (transfer lba count data false s) as [[r d] s'] eqn:E.
    apply loop_outcome in E as [O _]; [|done..]. apply O.
  - intros f lba count data s [= <-]. unfold write_sectors. destruct (transfer lba count data true s) as [[r d] s'] eqn:E.
    apply loop_outcome in E as [O _]; [|done..]. apply O.
  - intros f s [= <-]. destruct (flush_cache inb outb s) as [r s'] eqn:E. by apply flush_outcome in E as [[R _] _ _].
Qed.

(** *** What completing a sector is *)

Definition word_at (data : list Z) (i : Z) : Z := get_byte data i + 0x100 * get_byte data (i + 1).
Definition bytes_valid (data : list Z) : Prop := Forall (λ b, 0 ≤ b < 0x100) data.
(** Words through the data port, with no buffer. *)
Fixpoint take_words (n : nat) s : list Z * bio (ata P) :=
  match n with
  | O => ([], s)
  | S n => let '(w, s) := read_word inw ATA_DATA s in let '(l, s) := take_words n s in (w :: l, s)
  end.
Definition give_words (l : list Z) s : bio (ata P) := foldl (λ s w, write_word outw ATA_DATA w s) s l.

(** The disk accepted a command: it was idle, was selected and stayed idle, the six registers
    hold one sector and this address in 28 bits, and it asked for the data. *)
Inductive accepted (lba opcode : Z) s : bio (ata P) → Prop :=
| Accepted select low mid high r1 s1 r2 s2 r3 s3 :
    0 ≤ low < 0x100 → 0 ≤ mid < 0x100 → 0 ≤ high < 0x100 → 0xe0 ≤ select < 0xf0 →
    low + 0x100 * mid + 0x10000 * high + 0x1000000 * (select - 0xe0) = lba →
    poll POLL_IDLE s = (r1, s1) → error r1 = BLOCK_OK →
    poll POLL_IDLE (settle inb (write_port outb ATA_DEVICE select s1)) = (r2, s2) → error r2 = BLOCK_OK →
    poll POLL_DATA (settle inb (write_port outb ATA_COMMAND opcode (write_port outb ATA_LBA_HIGH high
      (write_port outb ATA_LBA_MID mid (write_port outb ATA_LBA_LOW low (write_port outb ATA_COUNT 1 s2)))))) = (r3, s3) → error r3 = BLOCK_OK →
    accepted lba opcode s s3.
(** 256 words went through the data port, and the sector of the buffer at [bytes] holds them;
    the rest of the buffer is as it was, and all of it for a write. *)
Record moved (write : bool) (bytes : Z) (data : list Z) s (data' : list Z) s' : Prop := {
  moved_words : ∃ l, length l = SECTOR_WORDS ∧ (if write then s' = give_words l s else take_words SECTOR_WORDS s = (l, s')) ∧
    ∀ k w, l !! k = Some w → word_at data' (bytes + 2 * Z.of_nat k) = w;
  moved_rest : length data' = length data ∧ ∀ k, 0 ≤ k → write = true ∨ k < bytes ∨ bytes + ATA_SECTOR_SIZE ≤ k → get_byte data' k = get_byte data k
}.
Definition opcode (write : bool) : Z := if write then 0x30 else 0x20.
Inductive sector_done (write : bool) (lba bytes : Z) (data : list Z) s (data' : list Z) s' : Prop :=
| SectorDone s1 s2 r : accepted lba (opcode write) s s1 → moved write bytes data s1 data' s2 →
    poll POLL_COMPLETE (settle inb s2) = (r, s') → error r = BLOCK_OK → sector_done write lba bytes data s data' s'.
(** The command was refused, or the disk reported an error after the data. *)
Inductive sector_failed (write : bool) (lba bytes : Z) (data : list Z) s : block_error → list Z → bio (ata P) → Prop :=
| SectorRefused r s' : command inb outb lba (opcode write) s = (r, s') → error r ≠ BLOCK_OK → sector_failed write lba bytes data s (error r) data s'
| SectorBroken s1 s2 data' r s' : accepted lba (opcode write) s s1 → moved write bytes data s1 data' s2 →
    poll POLL_COMPLETE (settle inb s2) = (r, s') → error r ≠ BLOCK_OK → sector_failed write lba bytes data s (error r) data' s'.
(** [n] consecutive sectors from [lba] + [first], into or out of the buffer in the same order. *)
Inductive sectors_done (write : bool) (lba : Z) : Z → Z → list Z → bio (ata P) → list Z → bio (ata P) → Prop :=
| sectors_none first data s : sectors_done write lba first 0 data s data s
| sectors_more first n data s data1 s1 data2 s2 : sector_done write (lba + first) (first * ATA_SECTOR_SIZE) data s data1 s1 →
    sectors_done write lba (first + 1) n data1 s1 data2 s2 → sectors_done write lba first (n + 1) data s data2 s2.

Lemma get_put_byte i v l : 0 ≤ i < Z.of_nat (length l) → get_byte (put_byte i v l) i = v.
Proof.
  intros Hi. unfold get_byte, put_byte. assert (Z.to_nat i < length l)%nat as Li by lia.
  replace (take (Z.to_nat i) l ++ v :: drop (S (Z.to_nat i)) l) with (<[Z.to_nat i := v]> l) by (by apply insert_take_drop).
  by rewrite list_lookup_insert_eq by done.
Qed.
Lemma word_halves w : wrap8 (wrap16 w) + 0x100 * wrap8 (Z.shiftr (wrap16 w) 8) = wrap16 w.
Proof.
  unfold wrap8, wrap16. pose proof (Z.mod_pos_bound w 0x10000 ltac:(lia)) as B. revert B. generalize (w mod 0x10000). intros x B.
  rewrite Z.shiftr_div_pow2 by lia. change (2 ^ 8) with 0x100. pose proof (Z.div_mod x 0x100 ltac:(lia)). pose proof (Z.mod_pos_bound x 0x100 ltac:(lia)).
  rewrite (Z.mod_small (x / 0x100)) by lia. lia.
Qed.
Lemma read_words_exact n bytes i data s : 0 ≤ bytes → 0 ≤ i → bytes + i + 2 * Z.of_nat n ≤ Z.of_nat (length data) →
  let '(l, s1) := take_words n s in let '(d, s2) := read_words inw n bytes i data s in
  s2 = s1 ∧ length l = n ∧ ∀ k w, l !! k = Some w → word_at d (bytes + i + 2 * Z.of_nat k) = w.
Proof.
  intros Hb. revert i data s. induction n as [|n IH]; intros i data s Hi Hl; cbn [read_words take_words]; [by split_and!|].
  destruct (read_word inw ATA_DATA s) as [w s1] eqn:Ew. assert (wrap16 w = w) as Hw
    by (unfold read_word in Ew; destruct (inw _ _); injection Ew as <- _; apply Z.mod_mod; lia). clear Ew.
  set (d1 := put_byte (bytes + i) (wrap8 w) data). set (d2 := put_byte (bytes + i + 1) _ d1).
  assert (length d1 = length data) as L1 by (apply put_byte_length; lia).
  assert (length d2 = length data) as L2 by (unfold d2; rewrite put_byte_length; [done|rewrite L1; lia]).
  specialize (IH (i + 2) d2 s1 ltac:(lia) ltac:(rewrite L2; lia)). pose proof (read_words_frame n bytes (i + 2) d2 s1 Hb ltac:(lia) ltac:(rewrite L2; lia)) as [_ F].
  destruct (take_words n s1) as [l s2], (read_words inw n bytes (i + 2) d2 s1) as [d s3]. cbn [fst] in F. destruct IH as (-> & Ll & IH).
  split_and!; [done|by cbn; f_equal|]. intros [|k] v; cbn [lookup list_lookup].
  - intros [= <-]. unfold word_at. rewrite !F by lia. replace (bytes + i + 2 * Z.of_nat 0) with (bytes + i) by lia.
    unfold d2 at 2. rewrite get_put_byte by (rewrite L1; lia). unfold d2. rewrite put_byte_other by (rewrite ?L1; lia). unfold d1. rewrite get_put_byte by lia.
    pose proof (word_halves w) as Hh. by rewrite !Hw in Hh.
  - intros E. apply IH in E. by replace (bytes + i + 2 * Z.of_nat (S k)) with (bytes + (i + 2) + 2 * Z.of_nat k) by lia.
Qed.
Lemma byte_valid data i : bytes_valid data → 0 ≤ get_byte data i < 0x100.
Proof. intros V. unfold get_byte. destruct (data !! Z.to_nat i) as [b|] eqn:E; cbn; [|lia]. by apply (Forall_lookup_1 _ _ _ _ V E). Qed.
Lemma write_words_exact n bytes i data s : bytes_valid data →
  ∃ l, write_words outw n bytes i data s = give_words l s ∧ length l = n ∧ ∀ k w, l !! k = Some w → word_at data (bytes + i + 2 * Z.of_nat k) = w.
Proof.
  intros V. revert i s. induction n as [|n IH]; intros i s; cbn [write_words]; [by exists []|].
  set (w := wrap16 _). destruct (IH (i + 2) (write_word outw ATA_DATA w s)) as (l & E & L & H). exists (w :: l). split_and!; [exact E|by cbn; f_equal|].
  intros [|k] v; cbn [lookup list_lookup].
  - intros [= <-]. replace (bytes + i + 2 * Z.of_nat 0) with (bytes + i) by lia. unfold w, word_at.
    pose proof (byte_valid data (bytes + i) V). pose proof (byte_valid data (bytes + i + 1) V). unfold wrap16.
    rewrite (Z.mod_small (Z.shiftl _ _)) by (rewrite Z.shiftl_mul_pow2 by lia; lia). rewrite lor_shiftl by lia. rewrite Z.mod_small by lia. lia.
  - intros E'. apply H in E'. by replace (bytes + i + 2 * Z.of_nat (S k)) with (bytes + (i + 2) + 2 * Z.of_nat k) by lia.
Qed.
Lemma not_failed r : failed r = false → error r = BLOCK_OK.
Proof. intros F. by apply bool_decide_eq_false_1, dec_stable in F. Qed.
Lemma command_accepted lba op s r s' : 0 ≤ lba < ATA_LBA_LIMIT → command inb outb lba op s = (r, s') → failed r = false → accepted lba op s s'.
Proof.
  intros B. unfold command. destruct (poll POLL_IDLE s) as [r1 s1] eqn:E1. destruct (failed r1) eqn:F1; [intros [= <- <-]; congruence|]. cbv zeta.
  match goal with |- context [poll POLL_IDLE ?x] => destruct (poll POLL_IDLE x) as [r2 s2] eqn:E2 end.
  destruct (failed r2) eqn:F2; [intros [= <- <-]; congruence|]. intros E3 F3. change ATA_LBA_LIMIT with 0x10000000 in B.
  assert (Z.lor 0xe0 (Z.shiftr lba 24) = 0xe0 + lba / 0x1000000) as Es.
  { rewrite Z.shiftr_div_pow2 by lia. change (2 ^ 24) with 0x1000000. assert (0 ≤ lba / 0x1000000 < 16) as [L U] by (split; [apply Z.div_pos; lia|apply Z.div_lt_upper_bound; lia]).
    rewrite Z.lor_comm. change 0xe0 with (Z.shiftl 14 4) at 1. rewrite lor_shiftl by lia. lia. }
  pose proof (Z.div_mod lba 0x100 ltac:(lia)) as D1. pose proof (Z.mod_pos_bound lba 0x100 ltac:(lia)) as M1.
  pose proof (Z.div_mod (lba / 0x100) 0x100 ltac:(lia)) as D2. pose proof (Z.mod_pos_bound (lba / 0x100) 0x100 ltac:(lia)) as M2.
  pose proof (Z.div_mod (lba / 0x100 / 0x100) 0x100 ltac:(lia)) as D3. pose proof (Z.mod_pos_bound (lba / 0x100 / 0x100) 0x100 ltac:(lia)) as M3.
  assert (Z.shiftr lba 8 = lba / 0x100) as S1 by by rewrite Z.shiftr_div_pow2.
  assert (Z.shiftr lba 16 = lba / 0x100 / 0x100) as S2 by (rewrite Z.shiftr_div_pow2, Z.div_div by lia; done).
  assert (lba / 0x1000000 = lba / 0x100 / 0x100 / 0x100) as S3 by (rewrite !Z.div_div by lia; done).
  rewrite Es, S3 in E2. rewrite S1, S2 in E3. unfold wrap8 in E2, E3. rewrite (Z.mod_small (0xe0 + _)) in E2 by lia.
  eapply Accepted; [| | | | |exact E1|by apply not_failed|exact E2|by apply not_failed|exact E3|by apply not_failed]; lia.
Qed.
Lemma sector_exact lba bytes data write s r data' s' : 0 ≤ lba < ATA_LBA_LIMIT → (write = true → bytes_valid data) → 0 ≤ bytes → bytes + ATA_SECTOR_SIZE ≤ Z.of_nat (length data) →
  transfer_sector inb outb inw outw lba bytes data write s = ((r, data'), s') →
  if failed r then sector_failed write lba bytes data s (error r) data' s' else sector_done write lba bytes data s data' s'.
Proof.
  intros B V Hb Hl. unfold transfer_sector. replace (wrap32 lba) with lba by (unfold wrap32; change ATA_LBA_LIMIT with 0x10000000 in B; by rewrite Z.mod_small by lia).
  change (if write then 0x30 else 0x20) with (opcode write). destruct (command inb outb lba (opcode write) s) as [r1 s1] eqn:E1. destruct (failed r1) eqn:F1.
  { intros [= <- <- <-]. rewrite F1. apply bool_decide_eq_true_1 in F1. by constructor. }
  apply command_accepted in E1 as A; [|done|done]. set (m := if write then _ else _). assert (moved write bytes data s1 m.1 m.2) as M.
  { unfold m. assert (Z.of_nat SECTOR_WORDS = 256) as W by done. unfold ATA_SECTOR_SIZE in *. destruct write; cbn [fst snd].
    - destruct (write_words_exact SECTOR_WORDS bytes 0 data s1 (V eq_refl)) as (l & -> & L & H). split; [|done]. exists l. split_and!; [done|done|]. intros k w Hk. rewrite <- (H k w Hk). f_equal. lia.
    - pose proof (read_words_exact SECTOR_WORDS bytes 0 data s1 Hb ltac:(lia) ltac:(lia)) as X. destruct (read_words_frame SECTOR_WORDS bytes 0 data s1 Hb ltac:(lia) ltac:(lia)) as [L F].
      destruct (take_words SECTOR_WORDS s1) as [l s2] eqn:T, (read_words inw SECTOR_WORDS bytes 0 data s1) as [d s3]. destruct X as (-> & Ll & H). cbn [fst snd] in *.
      split; [exists l; split_and!; [done|exact T|]; intros k w Hk; rewrite <- (H k w Hk); f_equal; lia|]. split; [done|]. intros k Hk [?|Ho]; [done|]. apply F; unfold ATA_SECTOR_SIZE in *; lia. }
  destruct m as [d s2]. cbn [fst snd] in M. destruct (poll POLL_COMPLETE (settle inb s2)) as [r3 s3] eqn:E3. intros [= <- <- <-].
  destruct (failed r3) eqn:F3; [apply bool_decide_eq_true_1 in F3; by eapply SectorBroken|]. apply not_failed in F3. by eapply SectorDone.
Qed.
Lemma sector_write_same lba bytes data s r data' s' : transfer_sector inb outb inw outw lba bytes data true s = ((r, data'), s') → data' = data.
Proof.
  unfold transfer_sector. generalize (command inb outb (wrap32 lba) 48 s), SECTOR_WORDS, (poll POLL_COMPLETE). intros [r1 s1] n final.
  destruct (failed r1); [by intros [= _ <- _]|]. destruct (final _). by intros [= _ <- _].
Qed.
Lemma loop_exact n lba first data write r0 s r data' s' : 0 ≤ lba → 0 ≤ first → lba + first + Z.of_nat n ≤ ATA_LBA_LIMIT → (write = true → bytes_valid data) →
  (first + Z.of_nat n) * ATA_SECTOR_SIZE ≤ Z.of_nat (length data) → error r0 = BLOCK_OK → completed r0 = first →
  transfer_loop inb outb inw outw n lba first data write r0 s = ((r, data'), s') →
  ∃ data1 s1, sectors_done write lba first (completed r - first) data s data1 s1 ∧
    if decide (error r = BLOCK_OK) then (data1, s1) = (data', s')
    else sector_failed write (lba + completed r) (completed r * ATA_SECTOR_SIZE) data1 s1 (error r) data' s'.
Proof.
  intros Hlba. revert first data r0 s. induction n as [|n IH]; intros first data r0 s Hf Hlim V Hl E0 C0; cbn [transfer_loop].
  - intros [= <- <- <-]. exists data, s. rewrite decide_True by done. replace (completed r0 - first) with 0 by lia. split; [constructor|done].
  - destruct (transfer_sector inb outb inw outw _ _ _ _ _) as [[r1 d1] s1] eqn:E. apply sector_exact in E as X; [|lia|done|unfold ATA_SECTOR_SIZE in *; lia..].
    apply sector_frame in E as Y; [|unfold ATA_SECTOR_SIZE in *; lia..]. destruct (failed r1) eqn:F.
    + intros [= <- <- <-]. apply bool_decide_eq_true_1 in F. exists data, s. cbn [completed error set_completed]. replace (first - first) with 0 by lia. rewrite decide_False by done.
      split; [constructor|done].
    + apply not_failed in F. intros H. apply IH in H as (d2 & s2 & D & Z); [|lia|lia| |destruct Y as [-> _]; lia|done|done].
      2:{ intros Ew. destruct write; [|done]. apply sector_write_same in E as ->. by apply V. }
      exists d2, s2. split; [|exact Z]. replace (completed r - first) with (completed r - (first + 1) + 1) by lia. by eapply sectors_more.
Qed.


Lemma identify_nonneg n i m s : (∀ k, 0 ≤ aget m k) → ∀ k, 0 ≤ aget (fst (identify_words inw n i m s)) k.
Proof.
  revert i m s. induction n as [|n IH]; intros i m s H; cbn; [done|]. destruct (read_word inw ATA_DATA s) as [w s1]. apply IH. intros k.
  unfold aget, aset. destruct (decide (k = i)) as [->|N]; [rewrite lookup_insert_eq; apply Z.mod_pos_bound; lia|].
  rewrite lookup_insert_ne by done. apply H.
Qed.
Lemma quiet_identify n i m s : quiet s (snd (identify_words inw n i m s)).
Proof.
  revert i m s. induction n as [|n IH]; intros i m s; cbn; [done|]. destruct (read_word inw ATA_DATA s) eqn:E.
  etransitivity; [by eapply quiet_read_word|apply IH].
Qed.

Definition reset_disk s : Prop :=
  sector_size (device s) = ATA_SECTOR_SIZE ∧ busy (device s) = false ∧ read_only (device s) = false ∧ sector_count (device s) = 0 ∧ online (device s) = false.
Lemma quiet_reset s s' : quiet s s' → reset_disk s → reset_disk s' ∧ active_requests s' = active_requests s.
Proof. intros [[(? & ? & ? & ? & ?) _] ?] (? & ? & ? & ? & ?). split; [split_and!; congruence|done]. Qed.
Lemma outcome_reset s r s' : outcome s r s' → reset_disk s → reset_disk s' ∧ active_requests s' = active_requests s.
Proof.
  intros [[(? & ? & ? & ? & ?) _] _ O] (? & ? & ? & ? & Of). split; [|done]. split_and!; try congruence. rewrite O, Of. by case_match.
Qed.
Lemma packet_outcome r s r' s' : packet_device inb r s = (r', s') → failed r = true → quiet s s' ∧ error r' ≠ BLOCK_OK.
Proof.
  unfold packet_device. intros E F. apply bool_decide_eq_true_1 in F. case_bool_decide; [|by injection E as <- <-].
  destruct (read_port inb ATA_LBA_MID s) as [m s1] eqn:E1. apply quiet_read_port in E1.
  set (sig := if negb (m =? 0) then _ else _) in E. assert (quiet s1 (snd sig)) as Q.
  { unfold sig. destruct (negb _); [done|]. destruct (read_port inb ATA_LBA_HIGH s1) eqn:E2. by apply quiet_read_port in E2. }
  destruct sig as [b s2]. injection E as <- <-. split; [by etransitivity|]. by destruct b.
Qed.

(** Identification publishes the disk exactly when it succeeds, whatever the hardware
    answers: after a failure the device is offline with no sectors; after a success it is
    online with 512-byte sectors, between 1 and 2^28 of them, the most that the driver's
    28-bit commands address, and idle for the block layer. *)
Theorem ata_initialize_sound (s : bio (ata P)) :
  let '(r, s') := ata_initialize inb outb inw s in
  active_requests s' = active_requests s ∧ sector_size (device s') = ATA_SECTOR_SIZE ∧ busy (device s') = false ∧ read_only (device s') = false ∧
  (error r = BLOCK_OK ↔ online (device s') = true) ∧
  (if online (device s') then 0 < sector_count (device s') ≤ ATA_LBA_LIMIT else sector_count (device s') = 0).
Proof.
  unfold ata_initialize. cbv zeta. set (s0 := Bio _ _ _). assert (reset_disk s0 ∧ active_requests s0 = active_requests s) as [R0 A0] by done.
  assert (∀ r s', error r ≠ BLOCK_OK → reset_disk s' ∧ active_requests s' = active_requests s →
    active_requests s' = active_requests s ∧ sector_size (device s') = ATA_SECTOR_SIZE ∧ busy (device s') = false ∧ read_only (device s') = false ∧
    (error r = BLOCK_OK ↔ online (device s') = true) ∧
    (if online (device s') then 0 < sector_count (device s') ≤ ATA_LBA_LIMIT else sector_count (device s') = 0)) as Failure.
  { intros r s' N [(? & ? & ? & ? & Off) ?]. rewrite Off. by split_and!. }
  assert (∀ s1 s', quiet s1 s' → reset_disk s1 ∧ active_requests s1 = active_requests s → reset_disk s' ∧ active_requests s' = active_requests s) as Later.
  { intros s1 s' Q [R A]. apply quiet_reset in Q as [? ?]; [|done]. split; [done|congruence]. }
  assert (∀ phase s1 r s', poll phase s1 = (r, s') → reset_disk s1 ∧ active_requests s1 = active_requests s → reset_disk s' ∧ active_requests s' = active_requests s) as Polled.
  { intros phase s1 r s' E [R A]. apply poll_outcome in E as [O _]. apply outcome_reset in O as [? ?]; [|done]. split; [done|congruence]. }
  assert (∀ r, failed r = true → error r ≠ BLOCK_OK) as Bad by (by intros r ?%bool_decide_eq_true_1).
  match goal with |- context [poll POLL_IDLE ?x] => assert (reset_disk x ∧ active_requests x = active_requests s) as I1 by
    (apply (Later s0); [|done]; do 2 (etransitivity; [apply quiet_ports|]); apply quiet_settle) end.
  revert I1. generalize (settle inb (write_port outb ATA_DEVICE 160 (write_port outb ATA_CONTROL 2 s0))). clear s0 R0 A0. intros s1 I1.
  destruct (poll POLL_IDLE s1) as [r2 s2] eqn:E2. apply Polled in E2; [|done]. destruct (failed r2) eqn:F2; [by apply Failure; [apply Bad|]|].
  match goal with |- context [poll POLL_DATA ?x] => assert (reset_disk x ∧ active_requests x = active_requests s) as I3 by
    (apply (Later s2); [|done]; do 5 (etransitivity; [apply quiet_ports|]); apply quiet_settle); revert I3; generalize x end.
  intros s3 I3. destruct (poll POLL_DATA s3) as [r4 s4] eqn:E4. apply Polled in E4; [|done]. destruct (failed r4) eqn:F4.
  { destruct (packet_device inb r4 s4) as [r s'] eqn:E. apply packet_outcome in E as [Q N]; [|done]. apply Failure; [done|by apply (Later s4)]. }
  pose proof (identify_nonneg SECTOR_WORDS 0 ∅ s4 (λ k, Z.le_refl 0)) as Pos. pose proof (quiet_identify SECTOR_WORDS 0 ∅ s4) as Q5.
  revert Pos Q5. generalize (identify_words inw SECTOR_WORDS 0 ∅ s4). intros [m s5] Pos Q5. cbn [fst snd] in Pos, Q5.
  destruct (poll POLL_COMPLETE (settle inb s5)) as [r6 s6] eqn:E6. apply Polled in E6; [|apply (Later s4); [|done]; etransitivity; [exact Q5|apply quiet_settle]].
  destruct (failed r6) eqn:F6; [by apply Failure; [apply Bad|]|]. destruct (unsupported m) eqn:U; [by apply Failure|].
  destruct E6 as [_ A6]. split_and!; try done; [split; [done|]; intros _; by apply bool_decide_eq_false_1, dec_stable in F6|]. cbn.
  unfold unsupported in U. cbv zeta in U. repeat rewrite orb_false_iff in U. rewrite Z.gtb_ltb in U. destruct U as [[[[[_ _] U1] U2] _] _].
  assert (0 ≤ sectors_of m) by (apply Z.lor_nonneg; split; [apply Pos|apply Z.mod_pos_bound; lia]). lia.
Qed.
End Driver.

(** ** A small disk: it answers at once, reads a fixed pattern and refuses sector 4 *)

Module AtaSample.
(** The number of data words left in the running command, and the low byte of its address. *)
Definition inb (port : Z) (d : Z * Z) : Z * (Z * Z) := (if d.1 =? 0 then 0x50 else if d.2 =? 4 then 0x51 else 0x58, d).
Definition outb (port value : Z) (d : Z * Z) : Z * Z :=
  if port =? ATA_LBA_LOW then (d.1, value) else if (port =? ATA_COMMAND) && ((value =? 0x20) || (value =? 0x30)) then (256, d.2) else d.
Definition inw (port : Z) (d : Z * Z) : Z * (Z * Z) := (0x2211, (d.1 - 1, d.2)).
Definition outw (port value : Z) (d : Z * Z) : Z * Z := (d.1 - 1, d.2).
Definition disk : bio (ata (Z * Z)) := Bio (BlockDevice 64 512 true false true) (Ata (0, 0) true) 1.
Definition buffer : list Z := replicate 1024 0.
End AtaSample.
Import AtaSample.
