(* ===== verification/Path.v ===== *)
(** * Path parsing (kernel/fs/path.c)

    Tokenising of a path into a private copy of its bytes, 8.3 name checking
    and the lexical canonical form. C strings that callers pass are lists of
    their bytes without the terminator ([sget] reads the terminator past the
    end); the [char] arrays inside the structures are arrays. *)

From S2P Require Import Prelude Block.

Definition FS_PATH_CAPACITY : Z := 256.
Definition FS_NAME_CAPACITY : Z := 64.
Definition FS_PATH_DEPTH : Z := 16.
Definition FS_TOKEN_LIMIT : Z := FS_PATH_CAPACITY / 2.
Definition FS_NAMES_FAT83 : Z := 0.
Definition FS_MOUNT_DISK : Z := 0.

Definition slash : Z := 47.
Definition dot : Z := 46.
Definition sget (l : list Z) (i : Z) : Z := nth (Z.to_nat i) l 0.

(** ** Operations *)

(** [while ( *a && *a == *b) { ++a; ++b; } return *a == *b;] The strings compared
    are shorter than a path. *)
Fixpoint equal_loop (fuel : nat) (a b : Z → Z) (i : Z) : bool :=
  match fuel with
  | O => false
  | S fuel =>
      if negb (a i =? 0) && (a i =? b i) then equal_loop fuel a b (i + 1) else a i =? b i
  end.
Definition equal (a b : Z → Z) : bool := equal_loop 256 a b 0.

Definition valid_byte (c : Z) : bool :=
  ((97 <=? c) && (c <=? 122)) || ((65 <=? c) && (c <=? 90)) ||
  ((48 <=? c) && (c <=? 57)) || (c =? dot) || (c =? 95) || (c =? 45).

Fixpoint name_check_loop (fuel : nat) (naming : Z) (name : Z → Z) (i base extension : Z) (seen : bool)
    : fs_error :=
  match fuel with
  | O => FS_NAME_TOO_LONG
  | S fuel =>
      if name i =? 0 then if seen && (extension =? 0) then FS_INVALID else FS_OK else
      if i >=? FS_NAME_CAPACITY - 1 then FS_NAME_TOO_LONG else
      if negb (valid_byte (name i)) then FS_INVALID else
      if negb (naming =? FS_NAMES_FAT83) then name_check_loop fuel naming name (i + 1) base extension seen else
      if name i =? dot then
        if seen || (base =? 0) then FS_INVALID
        else name_check_loop fuel naming name (i + 1) base extension true
      else if seen then
        if extension + 1 >? 3 then FS_NAME_TOO_LONG
        else name_check_loop fuel naming name (i + 1) base (extension + 1) seen
      else if base + 1 >? 8 then FS_NAME_TOO_LONG
      else name_check_loop fuel naming name (i + 1) (base + 1) extension seen
  end.
Definition fs_name_check (naming : Z) (name : option (Z → Z)) : fs_error :=
  match name with
  | None => FS_INVALID
  | Some name =>
      if (name 0 =? 0) || equal name (sget [dot]) || equal name (sget [dot; dot]) ||
         negb (naming =? FS_NAMES_FAT83) then FS_INVALID
      else name_check_loop 64 naming name 0 0 0 false
  end.

Record fs_tokens := Tokens {
  text : gmap Z Z; offsets : gmap Z Z; count : Z; absolute : bool; directory : bool
}.
Definition no_tokens : fs_tokens := Tokens ∅ ∅ 0 false false.

(** The length loop of [collect]; [None] is an invalid byte. *)
Fixpoint measure (fuel : nat) (input : Z → Z) (length : Z) : option Z :=
  match fuel with
  | O => Some length
  | S fuel =>
      if (length <? FS_PATH_CAPACITY) && negb (input length =? 0) then
        if negb (input length =? slash) && negb (valid_byte (input length)) then None
        else measure fuel input (length + 1)
      else Some length
  end.

(** [while (i < length && text[i] == '/') text[i++] = '\0';] *)
Fixpoint skip_slashes (fuel : nat) (length i : Z) (t : gmap Z Z) : Z * gmap Z Z :=
  match fuel with
  | O => (i, t)
  | S fuel =>
      if (i <? length) && (aget t i =? slash) then skip_slashes fuel length (i + 1) (aset t i 0)
      else (i, t)
  end.
(** [while (i < length && text[i] != '/') ++i;] *)
Fixpoint word_end (fuel : nat) (length i : Z) (t : gmap Z Z) : Z :=
  match fuel with
  | O => i
  | S fuel => if (i <? length) && negb (aget t i =? slash) then word_end fuel length (i + 1) t else i
  end.

Fixpoint tokenise (fuel : nat) (length i : Z) (ts : fs_tokens) : fs_error * fs_tokens :=
  match fuel with
  | O => (FS_OK, ts)
  | S fuel =>
      if negb (i <? length) then (FS_OK, ts) else
      let '(i, t) := skip_slashes 256 length i (text ts) in
      let ts := Tokens t (offsets ts) (count ts) (absolute ts) (directory ts) in
      if i =? length then (FS_OK, ts) else
      if count ts =? FS_TOKEN_LIMIT then (FS_TOO_DEEP, ts) else
      let start := i in
      let i := word_end 256 length i t in
      if i - start >=? FS_NAME_CAPACITY then (FS_NAME_TOO_LONG, ts) else
      let ts := Tokens t (aset (offsets ts) (count ts) (wrap16 start)) (count ts + 1) (absolute ts) (directory ts) in
      if i <? length then
        tokenise fuel length (i + 1)
          (Tokens (aset t i 0) (offsets ts) (count ts) (absolute ts) (directory ts))
      else tokenise fuel length i ts
  end.

(** [memcpy(tokens->text, input, length + 1)] *)
Definition copy_in (input : Z → Z) (n : Z) (t : gmap Z Z) : gmap Z Z :=
  for_range 0 n (λ i t, aset t i (input i)) t.
Definition token (ts : fs_tokens) (i : Z) : Z → Z := λ j, aget (text ts) (aget (offsets ts) i + j).

Definition collect (input : option (list Z)) (ts : fs_tokens) : fs_error * fs_tokens :=
  match input with
  | None => (FS_INVALID, ts)
  | Some l =>
      let input := sget l in
      if input 0 =? 0 then (FS_INVALID, ts) else
      match measure 256 input 0 with
      | None => (FS_INVALID, ts)
      | Some length =>
          if length =? FS_PATH_CAPACITY then (FS_PATH_TOO_LONG, ts) else
          let ts := Tokens (copy_in input (length + 1) (text ts)) (offsets ts) (count ts)
                      (input 0 =? slash) (input (length - 1) =? slash) in
          let '(e, ts) := tokenise 256 length 0 ts in
          if bool_decide (e ≠ FS_OK) then (e, ts) else
          if negb (count ts =? 0) then
            let last := token ts (count ts - 1) in
            (FS_OK, Tokens (text ts) (offsets ts) (count ts) (absolute ts)
              (directory ts || equal last (sget [dot]) || equal last (sget [dot; dot])))
          else (FS_OK, ts)
      end
  end.

(** [canonical] is the array of the result the [text] pointer refers to. *)
Record canonical := Canonical { canon : gmap Z Z; clength : Z; ccount : Z; previous_ : gmap Z Z; mount : Z }.

(** The upper-casing loop: the token's text and its length. *)
Fixpoint upcase (fuel : nat) (off len : Z) (t : gmap Z Z) : Z * gmap Z Z :=
  match fuel with
  | O => (len, t)
  | S fuel =>
      let c := aget t (off + len) in
      if c =? 0 then (len, t) else
      upcase fuel off (len + 1)
        (if (97 <=? c) && (c <=? 122) then aset t (off + len) (c - 97 + 65) else t)
  end.

(** One round of the loop of [apply]. *)
Definition apply_one (i : Z) (path : canonical) (ts : fs_tokens) : fs_error * (canonical * fs_tokens) :=
  let off := aget (offsets ts) i in
  let name := token ts i in
  if equal name (sget [dot]) then (FS_OK, (path, ts)) else
  if equal name (sget [dot; dot]) then
    let '(len, n) := if negb (ccount path =? 0)
                     then (aget (previous_ path) (ccount path - 1), ccount path - 1)
                     else (clength path, ccount path) in
    (FS_OK, (Canonical (aset (canon path) len 0) len n (previous_ path) (mount path), ts))
  else
  let e := fs_name_check FS_NAMES_FAT83 (Some name) in
  if bool_decide (e ≠ FS_OK) then (e, (path, ts)) else
  if ccount path =? FS_PATH_DEPTH then (FS_TOO_DEEP, (path, ts)) else
  let '(len, t) := upcase 256 off 0 (text ts) in
  let ts := Tokens t (offsets ts) (count ts) (absolute ts) (directory ts) in
  let sl := if clength path >? 1 then 1 else 0 in
  if len >=? FS_PATH_CAPACITY - clength path - sl then (FS_PATH_TOO_LONG, (path, ts)) else
  let previous' := aset (previous_ path) (ccount path) (clength path) in
  let c := if sl =? 1 then aset (canon path) (clength path) slash else canon path in
  let at_ := clength path + sl in
  let c := for_range 0 (len + 1) (λ j c, aset c (at_ + j) (aget t (off + j))) c in
  (FS_OK, (Canonical c (at_ + len) (ccount path + 1) previous' (mount path), ts)).

Fixpoint apply_loop (fuel : nat) (i : Z) (path : canonical) (ts : fs_tokens) : fs_error * (canonical * fs_tokens) :=
  match fuel with
  | O => (FS_OK, (path, ts))
  | S fuel =>
      if i <? count ts then
        let '(e, (path, ts)) := apply_one i path ts in
        if bool_decide (e ≠ FS_OK) then (e, (path, ts)) else apply_loop fuel (i + 1) path ts
      else (FS_OK, (path, ts))
  end.
Definition apply (path : canonical) (ts : fs_tokens) : fs_error * (canonical * fs_tokens) :=
  apply_loop 128 0 path ts.

Record fs_path := FsPath {
  base : fs_tokens; input : fs_tokens; canonical_text : gmap Z Z; fs_mount : Z; depth : Z
}.
Definition no_path : fs_path := FsPath no_tokens no_tokens ∅ 0 0.

Definition fs_path_parse (base_string input_string : option (list Z)) : fs_error * fs_path :=
  let r := no_path in
  let '(e, b) := collect base_string (base r) in
  let r := FsPath b (input r) (canonical_text r) (fs_mount r) (depth r) in
  if bool_decide (e ≠ FS_OK) then (e, r) else
  if negb (absolute b) then (FS_INVALID, r) else
  let '(e, i) := collect input_string (input r) in
  let r := FsPath b i (canonical_text r) (fs_mount r) (depth r) in
  if bool_decide (e ≠ FS_OK) then (e, r) else
  let path := Canonical (aset (canonical_text r) 0 slash) 1 0 ∅ FS_MOUNT_DISK in
  let '(e, (path, b)) := apply path b in
  let r := FsPath b i (canon path) (fs_mount r) (depth r) in
  if bool_decide (e ≠ FS_OK) then (e, r) else
  let path := if absolute i then Canonical (aset (canon path) 1 0) 1 0 ∅ FS_MOUNT_DISK else path in
  let '(e, (path, i)) := apply path i in
  let r := FsPath b i (canon path) (fs_mount r) (depth r) in
  if bool_decide (e ≠ FS_OK) then (e, r) else
  (FS_OK, FsPath b i (canon path) (mount path) (wrap16 (ccount path))).

(** ** Specification on lists of bytes *)

Module PathSpec.
(** The maximal slash-free pieces of a path. *)
Fixpoint words (l : list Z) : list (list Z) :=
  match l with
  | [] => []
  | c :: r =>
      if c =? slash then words r else
      match r with
      | [] => [[c]]
      | c' :: _ =>
          if c' =? slash then [c] :: words r
          else match words r with [] => [[c]] | w :: ws => (c :: w) :: ws end
      end
  end.

Definition name_byte (c : Z) : bool := valid_byte c && negb (c =? dot).
Definition part (limit : nat) (w : list Z) : bool :=
  negb (bool_decide (w = [])) && (List.length w <=? limit)%nat && forallb name_byte w.
(** BASE or BASE.EXT with 1 to 8 and 1 to 3 bytes. *)
Fixpoint split_dot (w : list Z) : list Z * option (list Z) :=
  match w with
  | [] => ([], None)
  | c :: w => if c =? dot then ([], Some w) else let '(b, e) := split_dot w in (c :: b, e)
  end.
Definition name83 (w : list Z) : bool :=
  let '(b, e) := split_dot w in
  part 8 b && match e with None => true | Some e => part 3 e end.

Definition upper (c : Z) : Z := if (97 <=? c) && (c <=? 122) then c - 32 else c.

(** ["/"] alone, or every name with a slash in front of it. *)
Definition render (cs : list (list Z)) : list Z :=
  match cs with [] => [slash] | _ => concat ((λ c, slash :: c) <$> cs) end.

(** The names below the root after following one more path component. *)
Definition follow (cs : list (list Z)) (w : list Z) : option (list (list Z)) :=
  if bool_decide (w = [dot]) then Some cs else
  if bool_decide (w = [dot; dot]) then Some (removelast cs) else
  if name83 w && (List.length cs <? 16)%nat && (List.length (render (cs ++ [upper <$> w])) <? 256)%nat
  then Some (cs ++ [upper <$> w]) else None.
Fixpoint follow_all (cs : list (list Z)) (ws : list (list Z)) : option (list (list Z)) :=
  match ws with [] => Some cs | w :: ws => match follow cs w with Some cs => follow_all cs ws | None => None end end.

(** Bytes a path may have, and no component as long as a name buffer. *)
Definition acceptable (l : list Z) : bool :=
  negb (bool_decide (l = [])) && forallb (λ c, (c =? slash) || valid_byte c) l &&
  (List.length l <? 256)%nat && forallb (λ w, (List.length w <? 64)%nat) (words l).
Definition is_absolute (l : list Z) : bool := sget l 0 =? slash.

Definition parse (b p : list Z) : option (list (list Z)) :=
  if acceptable b && is_absolute b && acceptable p then
    match follow_all [] (words b) with
    | Some cs => follow_all (if is_absolute p then [] else cs) (words p)
    | None => None
    end
  else None.
End PathSpec.
Import PathSpec.

(** ** Strings in arrays *)

Notation len l := (Z.of_nat (List.length l)).

Definition cstring (l : list Z) : Prop := Forall (λ c, c ≠ 0) l.
(** [f] reads the string [l] and its terminator. *)
Definition reads (f : Z → Z) (l : list Z) : Prop := ∀ k, 0 ≤ k ≤ len l → f k = sget l k.

Lemma sget_cons c l k : 0 < k → sget (c :: l) k = sget l (k - 1).
Proof. intros. unfold sget. replace (Z.to_nat k) with (S (Z.to_nat (k - 1))) by lia. done. Qed.
Lemma sget_end l k : len l ≤ k → sget l k = 0.
Proof. intros. unfold sget. apply nth_overflow. lia. Qed.
Lemma sget_app l r k : 0 ≤ k → sget (l ++ r) k = if decide (k < len l) then sget l k else sget r (k - len l).
Proof.
  intros. unfold sget. case_decide; [apply app_nth1; lia|]. rewrite app_nth2 by lia. f_equal. lia.
Qed.
Lemma cstring_nonzero l k : cstring l → 0 ≤ k < len l → sget l k ≠ 0.
Proof.
  intros Hl Hk. unfold sget. assert (Z.to_nat k < List.length l)%nat as Hlt by lia. revert Hlt.
  generalize (Z.to_nat k). clear Hk. induction Hl as [|c l Hc Hl IH]; intros n Hn; cbn in *; [lia|].
  destruct n; [done|]. apply IH. lia.
Qed.
Lemma sget_ext l l' : List.length l = List.length l' → (∀ k, 0 ≤ k < len l → sget l k = sget l' k) → l = l'.
Proof.
  revert l'; induction l as [|c l IH]; intros [|c' l'] Hlen H; cbn in Hlen; try done. f_equal.
  - apply (H 0). cbn. lia.
  - apply IH; [lia|]. intros k Hk. specialize (H (k + 1)). rewrite !sget_cons in H by lia.
    replace (k + 1 - 1) with k in H by lia. apply H. cbn [List.length]. lia.
Qed.
Lemma sget_map f l k : 0 ≤ k < len l → sget (f <$> l) k = f (sget l k).
Proof.
  intros Hk. unfold sget. rewrite (nth_indep _ 0 (f 0)) by (rewrite length_fmap; lia). apply map_nth.
Qed.

(** A string read from its tail. *)
Lemma reads_tail f c l : reads f (c :: l) → reads (λ k, f (k + 1)) l.
Proof.
  intros H k Hk. rewrite (H (k + 1)) by (cbn [List.length]; lia). rewrite sget_cons by lia. f_equal. lia.
Qed.

Lemma equal_loop_shift fuel a b i : equal_loop fuel a b (i + 1) = equal_loop fuel (λ k, a (k + 1)) (λ k, b (k + 1)) i.
Proof. revert i; induction fuel as [|fuel IH]; intros i; cbn [equal_loop]; [done|]. by rewrite IH. Qed.

Lemma equal_loop_spec fuel a b l r : cstring l → cstring r → reads a l → reads b r →
  (List.length l < fuel)%nat → equal_loop fuel a b 0 = bool_decide (l = r).
Proof.
  intros Hl. revert fuel a b r; induction Hl as [|c l Hc Hl IH]; intros fuel a b r Hr Ha Hb Hf;
    (destruct fuel as [|fuel]; [cbn in Hf; lia|]); cbn [equal_loop].
  - rewrite (Ha 0) by (cbn; lia). cbn. rewrite (Hb 0) by lia. destruct r as [|d r]; cbn; [done|].
    inversion Hr; subst. rewrite bool_decide_eq_false_2 by done. change (sget (d :: r) 0) with d.
    apply Z.eqb_neq. done.
  - rewrite (Ha 0) by (cbn; lia). change (sget (c :: l) 0) with c.
    destruct (Z.eqb_spec c 0); [done|]. cbn [negb andb]. rewrite (Hb 0) by lia.
    destruct r as [|d r]; [change (sget [] 0) with 0; by rewrite bool_decide_eq_false_2, (proj2 (Z.eqb_neq c 0)) by done|].
    change (sget (d :: r) 0) with d. destruct (Z.eqb_spec c d) as [->|Hne].
    + change 1 with (0 + 1). rewrite equal_loop_shift. cbn in Hf. inversion Hr; subst.
      rewrite (IH _ _ _ r); [|done|by apply (reads_tail _ d)|by apply (reads_tail _ d)|lia].
      apply bool_decide_ext. split; [by intros ->|by intros [= ->]].
    + rewrite bool_decide_eq_false_2 by congruence. done.
Qed.
Lemma equal_spec a b l r : cstring l → cstring r → reads a l → reads b r → (List.length l < 256)%nat →
  equal a b = bool_decide (l = r).
Proof. apply equal_loop_spec. Qed.
Lemma reads_sget l : reads (sget l) l.
Proof. by intros k _. Qed.

(** ** Name checking *)

Lemma part_true n w : part n w = true ↔ w ≠ [] ∧ (List.length w ≤ n)%nat ∧ forallb name_byte w = true.
Proof. unfold part. rewrite !andb_true_iff, Nat.leb_le, negb_true_iff, bool_decide_eq_false. tauto. Qed.

(** The loop from position [i] in front of the remaining bytes [w]. *)
Lemma name_check_extension fuel f i w b n :
  (∀ k, 0 ≤ k ≤ len w → f (i + k) = sget w k) → cstring w →
  Z.of_nat fuel = 64 - i → i + 4 - n ≤ 63 → 0 ≤ n ≤ 3 →
  name_check_loop fuel FS_NAMES_FAT83 f i b n true = FS_OK ↔
  n + len w ≤ 3 ∧ 0 < n + len w ∧ forallb name_byte w = true.
Proof.
  intros Hf Hw. revert fuel i n Hf; induction Hw as [|c w Hc Hw IH]; intros fuel i n Hf Hfu Hi Hn;
    (destruct fuel as [|fuel]; [lia|]); cbn [name_check_loop].
  - specialize (Hf 0 ltac:(cbn; lia)). rewrite Z.add_0_r in Hf. rewrite Hf. cbn [sget Z.eqb andb].
    change (sget [] 0) with 0. cbn [Z.eqb]. destruct (Z.eqb_spec n 0); cbn; split; (done || intros; lia) || (split_and!; try done; lia).
  - pose proof (Hf 0 ltac:(cbn; lia)) as H0. rewrite Z.add_0_r in H0. rewrite H0. change (sget (c :: w) 0) with c.
    destruct (Z.eqb_spec c 0); [done|]. destruct (Z.geb_spec i (FS_NAME_CAPACITY - 1)); [unfold FS_NAME_CAPACITY in *; lia|].
    cbn [forallb]. unfold name_byte at 1. destruct (valid_byte c); cbn [negb andb]; [|split; [done|by intros (_ & _ & ?)]].
    change (FS_NAMES_FAT83 =? FS_NAMES_FAT83) with true. cbn [negb].
    destruct (Z.eqb_spec c dot); cbn [negb orb andb]; [split; [done|by intros (_ & _ & ?)]|].
    rewrite Z.gtb_ltb. destruct (Z.ltb_spec 3 (n + 1)).
    { split; [done|]. cbn [List.length]. lia. }
    rewrite (IH fuel (i + 1) (n + 1)) by
      ((intros k Hk; rewrite <- (Z.add_assoc i 1 k), (Hf (1 + k)), sget_cons by (cbn [List.length]; lia); f_equal; lia) || lia).
    cbn [List.length]. split; intros (? & ? & ?); split_and!; try done; lia.
Qed.

Lemma name_check_base fuel f i w n :
  (∀ k, 0 ≤ k ≤ len w → f (i + k) = sget w k) → cstring w →
  Z.of_nat fuel = 64 - i → i = n → 0 ≤ n ≤ 8 →
  name_check_loop fuel FS_NAMES_FAT83 f i n 0 false = FS_OK ↔
  (let '(b, e) := split_dot w in
   n + len b ≤ 8 ∧ forallb name_byte b = true ∧
   match e with None => True | Some e => 0 < n + len b ∧ part 3 e = true end).
Proof.
  intros Hf Hw. revert fuel i n Hf; induction Hw as [|c w Hc Hw IH]; intros fuel i n Hf Hfu Hi Hn;
    (destruct fuel as [|fuel]; [lia|]); cbn [name_check_loop split_dot].
  - specialize (Hf 0 ltac:(cbn; lia)). rewrite Z.add_0_r in Hf. rewrite Hf. change (sget [] 0) with 0. cbn [Z.eqb andb].
    split; [|done]. intros _. cbn. split_and!; [lia|done|done].
  - pose proof (Hf 0 ltac:(cbn; lia)) as H0. rewrite Z.add_0_r in H0. rewrite H0. change (sget (c :: w) 0) with c.
    assert (∀ k, 0 ≤ k ≤ len w → f (i + 1 + k) = sget w k) as Hf'.
    { intros k Hk. rewrite <- (Z.add_assoc i 1 k), (Hf (1 + k)), sget_cons by (cbn [List.length]; lia). f_equal; lia. }
    destruct (Z.eqb_spec c 0); [done|]. destruct (Z.geb_spec i (FS_NAME_CAPACITY - 1)); [unfold FS_NAME_CAPACITY in *; lia|].
    change (FS_NAMES_FAT83 =? FS_NAMES_FAT83) with true. cbn [negb].
    destruct (Z.eqb_spec c dot) as [->|Hd].
    + change (valid_byte dot) with true. cbn [negb orb List.length].
      destruct (Z.eqb_spec n 0); [split; [done|lia]|].
      rewrite (name_check_extension fuel f (i + 1) w n 0) by (done || lia). rewrite part_true.
      split; [intros (? & ? & ?)|intros (_ & _ & _ & Hne & ? & ?)].
      * split_and!; try done; try lia. destruct w; [cbn in *; lia|done].
      * split_and!; try done; try lia. destruct w; [done|cbn [List.length]; lia].
    + destruct (split_dot w) as [b e] eqn:Es. cbn [forallb List.length]. unfold name_byte at 1.
      destruct (valid_byte c); cbn [negb andb]; [|split; [done|by intros (_ & ? & _)]].
      rewrite (proj2 (Z.eqb_neq c dot)) by done. cbn [negb andb]. rewrite Z.gtb_ltb.
      destruct (Z.ltb_spec 8 (n + 1)); [split; [done|lia]|].
      rewrite (IH fuel (i + 1) (n + 1)) by (done || lia).
      destruct e; split; intros (? & ? & ?); split_and!; try done; try lia; naive_solver lia.
Qed.

Lemma fs_name_check_spec f w : cstring w → reads f w → (List.length w < 256)%nat →
  fs_name_check FS_NAMES_FAT83 (Some f) = FS_OK ↔ name83 w = true.
Proof.
  intros Hw Hf Hlen. unfold fs_name_check.
  rewrite (equal_spec f (sget [dot]) w [dot]), (equal_spec f (sget [dot; dot]) w [dot; dot])
    by first [done | apply reads_sget | by repeat constructor].
  change (FS_NAMES_FAT83 =? FS_NAMES_FAT83) with true. cbn [negb]. rewrite orb_false_r.
  rewrite (Hf 0) by lia. destruct w as [|c w]; [done|]. change (sget (c :: w) 0) with c.
  inversion Hw as [|? ? Hc Hw']; subst. destruct (Z.eqb_spec c 0); [done|]. cbn [orb].
  destruct (decide (c :: w = [dot])) as [E|E]; [rewrite E; done|].
  rewrite bool_decide_eq_false_2 by done. cbn [orb].
  destruct (decide (c :: w = [dot; dot])) as [E'|E']; [rewrite E'; done|].
  rewrite bool_decide_eq_false_2 by done. cbn [orb].
  rewrite (name_check_base 64 f 0 (c :: w) 0) by (done || lia || (intros k Hk; rewrite Z.add_0_l; by apply Hf)).
  unfold name83. destruct (split_dot (c :: w)) as [b e] eqn:Es. rewrite andb_true_iff, (part_true 8 b).
  assert (e = None → b ≠ []) as Hb.
  { intros -> ->. cbn in Es. destruct (c =? dot); [done|]. by destruct (split_dot w). }
  destruct e as [e|].
  - split; [intros (? & ? & ? & ?)|intros ((? & ? & ?) & ?)]; split_and!; try done; try lia.
    + destruct b; [cbn in *; lia|done].
    + destruct b; [done|cbn [List.length]; lia].
  - split; [intros (? & ? & _)|intros ((? & ? & ?) & _)]; split_and!; try done; try lia. by apply Hb.
Qed.

(** ** Tokenising *)

Definition path_byte (c : Z) : bool := (c =? slash) || valid_byte c.

Lemma measure_spec fuel f i l :
  (∀ k, 0 ≤ k ≤ len l → f (i + k) = sget l k) → cstring l → 0 ≤ i → Z.of_nat fuel = 256 - i →
  if forallb path_byte l && (i + len l <? 256) then measure fuel f i = Some (i + len l)
  else measure fuel f i = None ∨ measure fuel f i = Some FS_PATH_CAPACITY.
Proof.
  intros Hf Hl. revert fuel i Hf; induction Hl as [|c l Hc Hl IH]; intros fuel i Hf Hi Hfu.
  - pose proof (Hf 0 ltac:(cbn; lia)) as H0. rewrite Z.add_0_r in *. cbn. change (sget [] 0) with 0 in H0.
    destruct fuel as [|fuel]; cbn [measure].
    + destruct (Z.ltb_spec i 256); [lia|]. right. unfold FS_PATH_CAPACITY. f_equal; lia.
    + rewrite H0. cbn. rewrite andb_false_r. destruct (Z.ltb_spec i 256); [done|lia].
  - destruct fuel as [|fuel]; cbn [measure].
    { destruct (_ && _) eqn:E; [|right; unfold FS_PATH_CAPACITY; f_equal; lia].
      apply andb_true_iff in E as [_ E]. exfalso. apply Z.ltb_lt in E. lia. }
    pose proof (Hf 0 ltac:(cbn; lia)) as H0. rewrite Z.add_0_r in H0. rewrite H0. change (sget (c :: l) 0) with c.
    destruct (Z.ltb_spec i FS_PATH_CAPACITY); [|unfold FS_PATH_CAPACITY in *; lia].
    destruct (Z.eqb_spec c 0); [done|]. cbn [negb andb forallb].
    replace (negb (c =? slash) && negb (valid_byte c)) with (negb (path_byte c)) by apply negb_orb.
    destruct (path_byte c); cbn [negb andb]; [|by left]. specialize (IH fuel (i + 1)). cbn [List.length].
    replace (i + Z.of_nat (S (List.length l))) with (i + 1 + len l) by lia. apply IH; [|lia|lia].
    intros k Hk. rewrite <- Z.add_assoc, (Hf (1 + k)), sget_cons by (cbn [List.length]; lia). f_equal; lia.
Qed.

(** [t] holds the string [l] from position [i] on, and nothing after it. *)
Definition holds (t : gmap Z Z) (i : Z) (l : list Z) : Prop := ∀ k, 0 ≤ k → aget t (i + k) = sget l k.

Lemma aget_aset_eq t i v : aget (aset t i v) i = v.
Proof. unfold aget, aset. by rewrite lookup_insert_eq. Qed.
Lemma aget_aset_ne t i j v : j ≠ i → aget (aset t i v) j = aget t j.
Proof. intros. unfold aget, aset. by rewrite lookup_insert_ne. Qed.

Lemma holds_head t i c l : holds t i (c :: l) → aget t i = c ∧ holds t (i + 1) l.
Proof.
  intros H. split.
  - specialize (H 0 ltac:(lia)). by rewrite Z.add_0_r in H.
  - intros k Hk. rewrite <- Z.add_assoc, (H (1 + k)), sget_cons by lia. f_equal. lia.
Qed.
Lemma holds_aset t i l j v : holds t i l → j < i → holds (aset t j v) i l.
Proof. intros H Hj k Hk. rewrite aget_aset_ne by lia. by apply H. Qed.

Definition no_slash (c : Z) : Prop := c ≠ slash.
Definition starts (P : Z → Prop) (l : list Z) : Prop := match l with [] => True | c :: _ => P c end.

Lemma skip_slashes_spec fuel t i l : holds t i l → (List.length l ≤ fuel)%nat →
  ∃ n l' t', skip_slashes fuel (i + len l) i t = (i + n, t') ∧ 0 ≤ n ∧ n + len l' = len l ∧
    holds t' (i + n) l' ∧ starts no_slash l' ∧ words l = words l' ∧
    (∀ c, c ∈ l' → c ∈ l) ∧ ∀ j, j < i → aget t' j = aget t j.
Proof.
  revert t i l; induction fuel as [|fuel IH]; intros t i l Ht Hf.
  { destruct l; [|cbn in Hf; lia]. exists 0, [], t. cbn [skip_slashes]. rewrite Z.add_0_r. split_and!; done. }
  destruct l as [|c l]; cbn [skip_slashes].
  { exists 0, [], t. change (len []) with 0. rewrite !Z.add_0_r, (proj2 (Z.ltb_ge i i)) by lia. split_and!; done. }
  destruct (holds_head _ _ _ _ Ht) as [H0 H1]. rewrite H0.
  destruct (Z.ltb_spec i (i + len (c :: l))); [|cbn [List.length] in *; lia]. cbn [andb].
  destruct (Z.eqb_spec c slash) as [->|Hc].
  - destruct (IH (aset t i 0) (i + 1) l) as (n & l' & t' & E & Hn & Hlen & Hh & Hs & Hw & Hin & Hfr).
    { apply holds_aset; [done|lia]. } { cbn in Hf. lia. }
    exists (n + 1), l', t'. cbn [List.length].
    replace (i + Z.of_nat (S (List.length l))) with (i + 1 + len l) by lia. rewrite E.
    replace (i + (n + 1)) with (i + 1 + n) by lia. split_and!; try done; try lia.
    + intros d Hd. right. auto.
    + intros j Hj. rewrite Hfr, aget_aset_ne by lia. done.
  - exists 0, (c :: l), t. rewrite Z.add_0_r. split_and!; done || lia.
Qed.

Lemma word_end_spec fuel t i l : holds t i l → (List.length l ≤ fuel)%nat →
  ∃ w r, l = w ++ r ∧ Forall no_slash w ∧ starts (λ c, c = slash) r ∧
    word_end fuel (i + len l) i t = i + len w.
Proof.
  revert i l; induction fuel as [|fuel IH]; intros i l Ht Hf.
  { destruct l; [|cbn in Hf; lia]. exists [], []. cbn. split_and!; [done|done|done|lia]. }
  destruct l as [|c l]; cbn [word_end].
  { exists [], []. change (len []) with 0. rewrite !Z.add_0_r, (proj2 (Z.ltb_ge i i)) by lia. split_and!; done. }
  destruct (holds_head _ _ _ _ Ht) as [H0 H1]. rewrite H0.
  destruct (Z.ltb_spec i (i + len (c :: l))); [|cbn [List.length] in *; lia]. cbn [andb].
  destruct (Z.eqb_spec c slash) as [->|Hc]; cbn [negb].
  - exists [], (slash :: l). rewrite Z.add_0_r. split_and!; done.
  - destruct (IH (i + 1) l H1 ltac:(cbn in Hf; lia)) as (w & r & -> & Hw & Hr & E).
    exists (c :: w), r. split_and!; [done|by constructor|done|]. cbn [List.length].
    replace (i + Z.of_nat (S (List.length (w ++ r)))) with (i + 1 + len (w ++ r)) by lia. rewrite E. lia.
Qed.

Lemma words_word w r : w ≠ [] → Forall no_slash w → starts (λ c, c = slash) r → words (w ++ r) = w :: words r.
Proof.
  intros Hne Hw Hr. induction Hw as [|c w Hc Hw IH]; [done|]. cbn [app words].
  rewrite (proj2 (Z.eqb_neq c slash)) by done. destruct w as [|c' w].
  - cbn [app]. destruct r as [|d r]; [done|]. cbn in Hr. subst d. by rewrite Z.eqb_refl.
  - rewrite (IH ltac:(done)). cbn [app]. inversion Hw; subst. by rewrite (proj2 (Z.eqb_neq c' slash)) by done.
Qed.
Lemma words_tail r : starts (λ c, c = slash) r → words r = words (tail r).
Proof. destruct r as [|c r]; cbn; [done|]. intros ->. by rewrite Z.eqb_refl. Qed.

Lemma words_single w : w ≠ [] → Forall no_slash w → words w = [w].
Proof. intros. rewrite <- (app_nil_r w) at 1. by rewrite words_word. Qed.

(** Token [n], [n]+1, ... start at or after [lo], one after the other. *)
Fixpoint tokens_at (t offs : gmap Z Z) (n lo : Z) (ws : list (list Z)) : Prop :=
  match ws with
  | [] => True
  | w :: ws =>
      let off := aget offs n in
      lo ≤ off ∧ reads (λ k, aget t (off + k)) w ∧ tokens_at t offs (n + 1) (off + len w + 1) ws
  end.

Lemma tokens_at_frame t t' offs n lo lo' ws :
  lo' ≤ lo → (∀ j, lo' ≤ j → aget t' j = aget t j) → tokens_at t offs n lo ws → tokens_at t' offs n lo' ws.
Proof.
  revert n lo lo'; induction ws as [|w ws IH]; intros n lo lo' Hlo Hj; cbn; [done|].
  intros (H1 & H2 & H3). split; [lia|]. split.
  - intros k Hk. rewrite Hj by lia. by apply H2.
  - apply (IH _ (aget offs n + len w + 1)); [lia| |done]. intros j Hj'. apply Hj. lia.
Qed.

Definition short (w : list Z) : bool := (List.length w <? 64)%nat.

(** What the token loop leaves, from position [i] in front of the bytes [l]. *)
Definition tokenised (i : Z) (l : list Z) (ts ts' : fs_tokens) : Prop :=
  tokens_at (text ts') (offsets ts') (count ts) i (words l) ∧ count ts' = count ts + len (words l) ∧
  (∀ j, j < i → aget (text ts') j = aget (text ts) j) ∧
  (∀ m, m < count ts → aget (offsets ts') m = aget (offsets ts) m) ∧
  absolute ts' = absolute ts ∧ directory ts' = directory ts.

(** One token at [p], terminated in place, in front of what the loop does with [r]. *)
Lemma tokenised_cons i p w r l ts t ts' : i ≤ p → 0 ≤ len w →
  (∀ k, 0 ≤ k ≤ len w → aget t (p + k) = sget (w ++ slash :: r) k) →
  (∀ j, j < i → aget t j = aget (text ts) j) → words l = w :: words r →
  tokenised (p + len w + 1) r
    (Tokens (aset t (p + len w) 0) (aset (offsets ts) (count ts) p) (count ts + 1) (absolute ts) (directory ts)) ts' →
  tokenised i l ts ts'.
Proof.
  intros Hi Hw Hword Hfr Hl (K1 & K2 & K3 & K4 & K5 & K6). unfold tokenised. cbn in K2, K3, K4, K5, K6.
  rewrite Hl. split_and!; try done.
  - cbn [tokens_at]. rewrite K4, aget_aset_eq by lia. split_and!; [lia| |done].
    intros k Hk. rewrite K3 by lia. destruct (decide (k = len w)) as [->|].
    + rewrite aget_aset_eq, sget_end by lia. done.
    + rewrite aget_aset_ne, Hword by lia. rewrite sget_app, decide_True by lia. done.
  - rewrite K2. cbn [List.length]. lia.
  - intros j Hj. rewrite K3, aget_aset_ne, Hfr by lia. done.
  - intros m Hm. rewrite K4, aget_aset_ne by lia. done.
Qed.

Lemma tokenise_spec fuel i l ts :
  holds (text ts) i l → cstring l → 0 ≤ i → i + len l ≤ 255 → 0 ≤ count ts → 2 * count ts ≤ i →
  (List.length l ≤ fuel)%nat →
  if forallb short (words l)
  then ∃ ts', tokenise fuel (i + len l) i ts = (FS_OK, ts') ∧ tokenised i l ts ts'
  else fst (tokenise fuel (i + len l) i ts) ≠ FS_OK.
Proof.
  revert i l ts; induction fuel as [|fuel IH]; intros i l ts Ht Hl Hi Hlen Hn0 Hn Hf.
  { destruct l; [|cbn in Hf; lia]. exists ts. split; [done|]. unfold tokenised. cbn. split_and!; done || lia. }
  cbn [tokenise]. destruct l as [|c l].
  { change (len []) with 0. rewrite Z.add_0_r, (proj2 (Z.ltb_ge i i)) by lia. exists ts. split; [done|].
    unfold tokenised. cbn. split_and!; done || lia. }
  remember (c :: l) as s eqn:Es. assert (0 < len s) as Hpos by (subst s; cbn [List.length]; lia).
  destruct (Z.ltb_spec i (i + len s)); [|lia]. cbn [negb].
  destruct (skip_slashes_spec 256 (text ts) i s Ht ltac:(lia)) as (n & l' & t' & -> & Hn' & Hll & Hh & Hs & Hws & Hin & Hfr). rewrite Hws.
  cbn [count text offsets absolute directory].
  destruct (Z.eqb_spec (i + n) (i + len s)) as [E|E].
  { assert (l' = []) as -> by (destruct l'; [done|exfalso; cbn [List.length] in *; lia]). cbn [words forallb].
    eexists. split; [done|]. unfold tokenised. rewrite Hws. cbn. split_and!; done || lia. }
  rewrite (proj2 (Z.eqb_neq _ _)) by (change FS_TOKEN_LIMIT with 128; lia).
  replace (i + len s) with (i + n + len l') by lia.
  destruct (word_end_spec 256 t' (i + n) l' Hh ltac:(lia)) as (w & r & -> & Hw & Hr & ->).
  assert (w ≠ []) as Hwne.
  { intros ->. destruct r as [|d r]; cbn in *; [lia|]. by subst d. }
  assert (cstring (w ++ r)) as Hl'. { apply Forall_forall. intros x Hx. eapply Forall_forall in Hl; [exact Hl|].
    apply list_elem_of_In, Hin, list_elem_of_In, Hx. }
  rewrite (words_word w r Hwne Hw Hr), (words_tail r Hr). cbn [forallb]. unfold short at 1.
  replace (i + n + len w - (i + n)) with (len w) by lia.
  rewrite length_app in *. destruct (Z.geb_spec (len w) FS_NAME_CAPACITY) as [Hge|Hlt]; unfold FS_NAME_CAPACITY in *.
  { rewrite (proj2 (Nat.ltb_ge _ _)) by lia. done. }
  rewrite (proj2 (Nat.ltb_lt _ _)) by lia. cbn [andb].
  assert (0 < len w) by (destruct w; [done|cbn [List.length]; lia]).
  assert (wrap16 (i + n) = i + n) as Hwr by (apply Z.mod_small; lia).
  assert (∀ k, 0 ≤ k ≤ len w → aget t' (i + n + k) = sget (w ++ r) k) as Hword by (intros k Hk; apply Hh; lia).
  destruct r as [|d r].
  - rewrite app_nil_r in *. cbn [List.length tail words forallb] in *.
    rewrite (proj2 (Z.ltb_ge (i + n + len w) _)) by lia.
    destruct fuel as [|fuel]; cbn [tokenise]; [|rewrite (proj2 (Z.ltb_ge (i + n + len w) _)) by lia; cbn [negb]];
      (eexists; split; [done|]; unfold tokenised; rewrite Hws, words_single by done; split_and!; cbn [text offsets count absolute directory List.length];
       [cbn [tokens_at]; rewrite aget_aset_eq, Hwr; split_and!; [lia|done|done]|lia|done| |done|done];
       intros m Hm; rewrite aget_aset_ne by lia; done).
  - cbn in Hr. subst d. cbn [List.length tail] in *. apply Forall_app in Hl' as [_ Hr'].
    apply Forall_inv_tail in Hr'.
    destruct (Z.ltb_spec (i + n + len w) (i + n + Z.of_nat (List.length w + S (List.length r)))); [|lia].
    set (ts1 := Tokens _ _ _ _ _).
    replace (i + n + Z.of_nat (List.length w + S (List.length r))) with (i + n + len w + 1 + len r) by lia.
    assert (holds (text ts1) (i + n + len w + 1) r) as Hh1.
    { cbn. apply holds_aset; [|lia]. intros k Hk.
      replace (i + n + len w + 1 + k) with (i + n + (len w + 1 + k)) by lia. rewrite Hh by lia.
      rewrite sget_app, decide_False, sget_cons by lia. f_equal. lia. }
    specialize (IH (i + n + len w + 1) r ts1 Hh1 Hr' ltac:(lia) ltac:(lia) ltac:(cbn; lia) ltac:(cbn; lia) ltac:(lia)).
    destruct (forallb short (words r)); [|done].
    destruct IH as (ts' & -> & IH). exists ts'. split; [done|].
    eapply (tokenised_cons i (i + n) w r); [lia|lia|exact Hword|done|by rewrite Hws, words_word|].
    unfold ts1 in IH. rewrite Hwr in IH. exact IH.
Qed.

Lemma copy_in_holds l n : len l < n → holds (copy_in (sget l) n ∅) 0 l.
Proof.
  intros Hn k Hk. rewrite Z.add_0_l. unfold copy_in.
  assert (aget (for_range 0 n (λ i t, aset t i (sget l i)) ∅) k = if decide (0 ≤ k < n) then sget l k else 0) as ->.
  { refine (for_range_inv (λ i t, ∀ k : Z, aget t k = if decide (0 ≤ k < i) then sget l k else 0) 0 n _ ∅ _ _ _ k); [lia| |].
    - intros j. rewrite decide_False by lia. done.
    - intros i t Hi IH j. destruct (decide (j = i)) as [->|].
      + rewrite aget_aset_eq, decide_True by lia. done.
      + rewrite aget_aset_ne, IH by done. destruct (decide (0 ≤ j < i)).
        * by rewrite decide_True by lia.
        * by rewrite decide_False by lia. }
  case_decide; [done|]. by rewrite sget_end by lia.
Qed.

#[local] Opaque tokenise measure copy_in.
Lemma collect_spec l : cstring l →
  if acceptable l
  then ∃ ts, collect (Some l) no_tokens = (FS_OK, ts) ∧ tokens_at (text ts) (offsets ts) 0 0 (words l) ∧
         count ts = len (words l) ∧ absolute ts = is_absolute l
  else fst (collect (Some l) no_tokens) ≠ FS_OK.
Proof.
  intros Hl. unfold collect, acceptable. change (forallb (λ c, _ || _) l) with (forallb path_byte l).
  change (forallb (λ w, _) (words l)) with (forallb short (words l)).
  destruct l as [|c l0]; [done|]. remember (c :: l0) as l eqn:El.
  assert (l ≠ []) as Hne by by subst. assert (sget l 0 ≠ 0) as H0.
  { apply cstring_nonzero; [done|]. subst. cbn [List.length]. lia. }
  rewrite (proj2 (Z.eqb_neq _ _) H0), (bool_decide_eq_false_2 (l = [])) by done. cbn [negb andb].
  pose proof (measure_spec 256 (sget l) 0 l ltac:(intros; by rewrite Z.add_0_l) Hl ltac:(lia) ltac:(done)) as Hm.
  rewrite Z.add_0_l in Hm. destruct (forallb path_byte l); cbn [andb] in Hm |- *; [|by destruct Hm as [-> | ->]].
  destruct (Z.ltb_spec (len l) 256) as [Hlt|Hge]; cbn [andb] in Hm.
  2: { rewrite (proj2 (Nat.ltb_ge _ _)) by lia. cbn. by destruct Hm as [-> | ->]. }
  rewrite (proj2 (Nat.ltb_lt _ _)), Hm by lia. cbn [andb].
  rewrite (proj2 (Z.eqb_neq _ _)) by (unfold FS_PATH_CAPACITY; lia).
  set (ts0 := Tokens _ _ _ _ _).
  pose proof (tokenise_spec 256 0 l ts0 (copy_in_holds l (len l + 1) ltac:(lia)) Hl ltac:(lia) ltac:(lia) ltac:(done)
    ltac:(done) ltac:(lia)) as Ht. rewrite Z.add_0_l in Ht.
  destruct (forallb short (words l)).
  - destruct Ht as (ts & -> & K1 & K2 & _ & _ & K5 & _). rewrite bool_decide_eq_false_2 by (intros E; done).
    cbn in K1, K2, K5. case_match; eexists; by split_and!.
  - destruct (tokenise _ _ _ _) as [e ts]. cbn in Ht. by rewrite bool_decide_eq_true_2.
Qed.

(** ** Canonical form *)

Lemma render_snoc cs w : render (cs ++ [w]) = render cs ++ (if bool_decide (cs = []) then [] else [slash]) ++ w.
Proof.
  destruct cs as [|c cs]; [cbn; by rewrite app_nil_r|]. rewrite bool_decide_eq_false_2 by done.
  unfold render. destruct ((c :: cs) ++ [w]) eqn:E; [done|]. rewrite <- E, fmap_app, concat_app. cbn.
  by rewrite app_nil_r.
Qed.
Lemma render_long cs : Forall (λ c, c ≠ []) cs → 1 ≤ len (render cs) ∧ (len (render cs) = 1 ↔ cs = []).
Proof.
  intros Hcs. destruct Hcs as [|c cs Hc Hcs]; [done|]. cbn. rewrite length_app. destruct c; [done|]. cbn [List.length].
  split; [lia|]. split; [lia|done].
Qed.

Record canonical_of (path : canonical) (cs : list (list Z)) : Prop := CanonicalOf {
  co_text : reads (aget (canon path)) (render cs);
  co_length : clength path = len (render cs);
  co_count : ccount path = len cs;
  co_previous : ∀ i, (i < List.length cs)%nat → aget (previous_ path) (Z.of_nat i) = len (render (take i cs));
  co_names : Forall (λ c, c ≠ []) cs;
  co_mount : mount path = FS_MOUNT_DISK
}.

Lemma reads_prefix f l r : reads f (l ++ r) → ∀ k, 0 ≤ k < len l → f k = sget l k.
Proof. intros H k Hk. rewrite H by (rewrite length_app; lia). rewrite sget_app, decide_True by lia. done. Qed.

(** ["..": the last name is dropped and the text cut back to its recorded length.] *)
Lemma canonical_pop path cs :
  canonical_of path cs →
  let '(n, k) := if negb (ccount path =? 0)
                 then (aget (previous_ path) (ccount path - 1), ccount path - 1)
                 else (clength path, ccount path) in
  canonical_of (Canonical (aset (canon path) n 0) n k (previous_ path) (mount path)) (removelast cs).
Proof.
  intros [Ht Hl Hc Hp Hn Hm]. rewrite Hc. destruct cs as [|c cs _] using rev_ind.
  - cbn. rewrite Hl. constructor; try done. intros k Hk. cbn in Hk. cbn [canon render].
    destruct (decide (k = 1)) as [->|]; [by rewrite aget_aset_eq|]. rewrite aget_aset_ne by (cbn; lia). by apply Ht.
  - rewrite length_app. cbn [List.length]. rewrite (proj2 (Z.eqb_neq _ _)) by lia. cbn [negb].
    replace (Z.of_nat (List.length cs + 1) - 1) with (len cs) by lia.
    rewrite (Hp (List.length cs)) by (rewrite length_app; cbn; lia). rewrite take_app_length, removelast_last.
    apply Forall_app in Hn as [Hn _]. constructor; try done.
    + intros k Hk. cbn [canon]. rewrite render_snoc in Ht. destruct (decide (k = len (render cs))) as [->|].
      * by rewrite aget_aset_eq, sget_end by lia.
      * rewrite aget_aset_ne by done. apply (reads_prefix _ _ _ Ht). lia.
    + intros i Hi. cbn [previous_]. rewrite Hp by (rewrite length_app; lia). by rewrite take_app_le by lia.
Qed.

Lemma upcase_spec fuel off t w i : reads (λ k, aget t (off + i + k)) w → cstring w → (List.length w < fuel)%nat →
  ∃ t', upcase fuel off i t = (i + len w, t') ∧
    reads (λ k, aget t' (off + i + k)) (upper <$> w) ∧
    ∀ j, j < off + i ∨ off + i + len w ≤ j → aget t' j = aget t j.
Proof.
  intros Hr Hw. revert fuel t i Hr; induction Hw as [|c w Hc Hw IH]; intros fuel t i Hr Hf;
    (destruct fuel as [|fuel]; [cbn in Hf; lia|]); cbn [upcase].
  - pose proof (Hr 0 ltac:(cbn; lia)) as H0. cbn beta in H0. rewrite Z.add_0_r in H0. rewrite H0. change (sget [] 0) with 0.
    exists t. cbn. rewrite Z.add_0_r. split_and!; [done|done|done].
  - pose proof (Hr 0 ltac:(cbn; lia)) as H0. cbn beta in H0. rewrite Z.add_0_r in H0. rewrite H0.
    change (sget (c :: w) 0) with c. destruct (Z.eqb_spec c 0); [done|].
    set (t1 := if (97 <=? c) && (c <=? 122) then _ else _).
    assert (aget t1 (off + i) = upper c ∧ ∀ j, j ≠ off + i → aget t1 j = aget t j) as [H1 H1'].
    { unfold t1, upper. destruct (_ && _); [|done]. rewrite aget_aset_eq. split; [lia|]. intros. by apply aget_aset_ne. }
    destruct (IH fuel t1 (i + 1)) as (t' & -> & Hr' & Hfr); [|cbn in Hf; lia|].
    { intros k Hk. rewrite H1' by lia. pose proof (Hr (k + 1) ltac:(cbn [List.length]; lia)) as Hk'. cbn beta in Hk'.
      rewrite sget_cons in Hk' by lia. replace (k + 1 - 1) with k in Hk' by lia. rewrite <- Hk'. f_equal. lia. }
    exists t'. cbn [List.length]. split; [f_equal; lia|]. split.
    + intros k Hk. destruct (decide (k = 0)) as [->|].
      * rewrite Z.add_0_r, Hfr by lia. exact H1.
      * cbn [fmap list_fmap]. rewrite sget_cons by lia. rewrite <- (Hr' (k - 1)); [f_equal; lia|].
        cbn [fmap list_fmap List.length] in Hk. lia.
    + intros j Hj. rewrite Hfr, H1' by lia. done.
Qed.

(** The copy of an upper-cased name behind the canonical text. *)
Lemma copy_name_get c t at_ off n k : 0 ≤ n → aget (for_range 0 n (λ j c, aset c (at_ + j) (aget t (off + j))) c) k =
  if decide (at_ ≤ k < at_ + n) then aget t (off + (k - at_)) else aget c k.
Proof.
  intros Hn.
  refine (for_range_inv (λ i u, ∀ k : Z, aget u k = if decide (at_ ≤ k < at_ + i) then aget t (off + (k - at_)) else aget c k)
    0 n _ c Hn _ _ k).
  - intros j. by rewrite decide_False by lia.
  - intros i u Hi IH j. destruct (decide (j = at_ + i)) as [->|].
    + rewrite aget_aset_eq, decide_True by lia. f_equal. lia.
    + rewrite aget_aset_ne, IH by done. destruct (decide (at_ ≤ j < at_ + i)).
      * by rewrite decide_True by lia.
      * by rewrite decide_False by lia.
Qed.

Lemma canonical_push path cs u t off :
  canonical_of path cs → u ≠ [] → reads (λ k, aget t (off + k)) u →
  let sl := if clength path >? 1 then 1 else 0 in
  let at_ := clength path + sl in
  let c := if sl =? 1 then aset (canon path) (clength path) slash else canon path in
  let c := for_range 0 (len u + 1) (λ j c, aset c (at_ + j) (aget t (off + j))) c in
  at_ + len u = len (render (cs ++ [u])) ∧
  canonical_of (Canonical c (at_ + len u) (ccount path + 1) (aset (previous_ path) (ccount path) (clength path)) (mount path))
    (cs ++ [u]).
Proof.
  intros [Ht Hl Hc Hp Hn Hm] Hu Hr. destruct (render_long cs Hn) as [H1 H1']. rewrite Hl, Z.gtb_ltb.
  assert ((1 <? len (render cs)) = negb (bool_decide (cs = []))) as ->.
  { case_bool_decide as E; [apply H1' in E|]; destruct (Z.ltb_spec 1 (len (render cs))); try done; lia || naive_solver lia. }
  cbn zeta. set (pre := render cs ++ if bool_decide (cs = []) then [] else [slash]).
  set (c0 := if (if negb _ then 1 else 0) =? 1 then _ else _).
  assert (len (render cs) + (if negb (bool_decide (cs = [])) then 1 else 0) = len pre) as Epre.
  { unfold pre. rewrite length_app. case_bool_decide; cbn; lia. }
  assert (∀ k, 0 ≤ k < len pre → aget c0 k = sget pre k) as Hc0.
  { intros k Hk. unfold c0. destruct (bool_decide (cs = [])) eqn:Eb; cbn [negb Z.eqb Pos.eqb] in Epre |- *.
    - unfold pre in *. rewrite app_nil_r in *. apply Ht. lia.
    - destruct (decide (k = len (render cs))) as [->|].
      + rewrite aget_aset_eq. unfold pre. rewrite sget_app, decide_False, Z.sub_diag by lia. done.
      + rewrite aget_aset_ne by done. rewrite Ht by lia. unfold pre. rewrite sget_app, decide_True by lia. done. }
  rewrite Epre. assert (render (cs ++ [u]) = pre ++ u) as Er by by rewrite render_snoc, app_assoc.
  split; [rewrite Er, length_app; lia|]. constructor; cbn [canon clength ccount previous_ mount].
  - intros k Hk. rewrite Er, length_app in *. rewrite copy_name_get by lia. rewrite sget_app by lia. case_decide.
    + rewrite decide_False by lia. apply (Hr (k - len pre)). lia.
    + rewrite decide_True by lia. apply Hc0. lia.
  - rewrite Er, length_app. lia.
  - rewrite Hc, length_app. cbn. lia.
  - intros i Hi. rewrite length_app in Hi. cbn in Hi. rewrite Hc. destruct (decide (i = List.length cs)) as [->|].
    + by rewrite aget_aset_eq, take_app_length.
    + rewrite aget_aset_ne, Hp by lia. by rewrite take_app_le by lia.
  - apply Forall_app. split; [done|]. by constructor.
  - done.
Qed.

(** A component that [apply] can meet. *)
Definition component (w : list Z) : Prop := cstring w ∧ w ≠ [] ∧ short w = true.

Lemma follow_name cs w : w ≠ [dot] → w ≠ [dot; dot] →
  follow cs w = if name83 w && (List.length cs <? 16)%nat && (List.length (render (cs ++ [upper <$> w])) <? 256)%nat
                then Some (cs ++ [upper <$> w]) else None.
Proof. intros. unfold follow. by rewrite !bool_decide_eq_false_2. Qed.

Lemma apply_one_spec i path ts cs w ws lo :
  canonical_of path cs → (List.length cs ≤ 16)%nat → component w → tokens_at (text ts) (offsets ts) i lo (w :: ws) →
  match follow cs w with
  | Some cs' => ∃ path' t', apply_one i path ts =
      (FS_OK, (path', Tokens t' (offsets ts) (count ts) (absolute ts) (directory ts))) ∧
      canonical_of path' cs' ∧ tokens_at t' (offsets ts) (i + 1) (aget (offsets ts) i + len w + 1) ws
  | None => fst (apply_one i path ts) ≠ FS_OK
  end.
Proof.
  intros Hp Hdeep (Hw & Hne & Hsh) (Hlo & Hr & Hws). unfold short in Hsh. apply Nat.ltb_lt in Hsh. unfold apply_one.
  assert (List.length w < 256)%nat as H256 by lia. fold (token ts i) in Hr.
  rewrite (equal_spec (token ts i) (sget [dot]) w [dot]), (equal_spec (token ts i) (sget [dot; dot]) w [dot; dot])
    by first [done | apply reads_sget | by repeat constructor].
  destruct (decide (w = [dot])) as [->|Hd].
  { exists path, (text ts). split_and!; [by destruct ts|done|done]. }
  destruct (decide (w = [dot; dot])) as [->|Hdd].
  { pose proof (canonical_pop path cs Hp) as Hpop. rewrite (bool_decide_eq_false_2 ([dot; dot] = [dot])), bool_decide_eq_true_2 by done.
    cbn [follow]. change (follow cs [dot; dot]) with (Some (removelast cs)). destruct (if negb _ then _ else _) as [n k].
    eexists _, (text ts). split_and!; [by destruct ts|done|done]. }
  rewrite !bool_decide_eq_false_2, follow_name by done.
  pose proof (fs_name_check_spec (token ts i) w Hw Hr H256) as Hn. set (e := fs_name_check _ _) in *.
  destruct (name83 w) eqn:En; cbn [andb].
  2: { assert (e ≠ FS_OK) by (intros E; apply Hn in E; done). by rewrite bool_decide_eq_true_2. }
  rewrite (proj2 Hn), bool_decide_eq_false_2 by (done || intros E; done). rewrite (co_count _ _ Hp).
  destruct (Nat.ltb_spec (List.length cs) 16) as [H16|H16].
  2: { rewrite (proj2 (Z.eqb_eq _ _)) by (unfold FS_PATH_DEPTH; lia). done. }
  rewrite (proj2 (Z.eqb_neq _ _)) by (unfold FS_PATH_DEPTH; lia).
  destruct (upcase_spec 256 (aget (offsets ts) i) (text ts) w 0) as (t' & -> & Hr' & Hfr); [by rewrite Z.add_0_r|done|done|].
  rewrite Z.add_0_r in *. rewrite Z.add_0_l. set (off := aget (offsets ts) i) in *.
  assert (upper <$> w ≠ []) as Hu by by destruct w.
  pose proof (canonical_push path cs (upper <$> w) t' off Hp Hu Hr') as [El Hpush]. rewrite length_fmap in El, Hpush.
  cbn zeta in El, Hpush. set (sl := if clength path >? 1 then 1 else 0) in *.
  destruct (Nat.ltb_spec (List.length (render (cs ++ [upper <$> w]))) 256) as [Hfit|Hlong].
  - destruct (Z.geb_spec (len w) (FS_PATH_CAPACITY - clength path - sl)); [unfold FS_PATH_CAPACITY in *; lia|].
    eexists _, t'. split; [by rewrite <- (co_count _ _ Hp)|]. split; [done|].
    eapply tokens_at_frame, Hws; [lia|]. intros j Hj. apply Hfr. lia.
  - destruct (Z.geb_spec (len w) (FS_PATH_CAPACITY - clength path - sl)); [done|unfold FS_PATH_CAPACITY in *; lia].
Qed.

Lemma follow_deep cs w cs' : (List.length cs ≤ 16)%nat → follow cs w = Some cs' → (List.length cs' ≤ 16)%nat.
Proof.
  intros Hc. unfold follow. repeat case_bool_decide; [by intros [= <-]| |].
  - intros [= <-]. destruct cs as [|c cs _] using rev_ind; [done|]. rewrite removelast_last. rewrite length_app in Hc. lia.
  - destruct (_ && _) eqn:E; [|done]. intros [= <-]. rewrite !andb_true_iff, Nat.ltb_lt in E. rewrite length_app. cbn. lia.
Qed.

Lemma apply_loop_spec fuel ws i path ts cs lo :
  canonical_of path cs → (List.length cs ≤ 16)%nat → Forall component ws →
  tokens_at (text ts) (offsets ts) i lo ws → count ts = i + len ws → (List.length ws ≤ fuel)%nat →
  match follow_all cs ws with
  | Some cs' => ∃ path' ts', apply_loop fuel i path ts = (FS_OK, (path', ts')) ∧ canonical_of path' cs' ∧
                  (List.length cs' ≤ 16)%nat
  | None => fst (apply_loop fuel i path ts) ≠ FS_OK
  end.
Proof.
  intros Hp Hd Hw. revert fuel i path ts cs lo Hp Hd; induction Hw as [|w ws Hw Hws IH];
    intros fuel i path ts cs lo Hp Hd Ht Hc Hf; cbn [follow_all].
  - cbn in Hc. exists path, ts. split; [|done]. destruct fuel; cbn [apply_loop]; [done|].
    rewrite (proj2 (Z.ltb_ge _ _)) by lia. done.
  - destruct fuel as [|fuel]; [cbn in Hf; lia|]. cbn [apply_loop]. cbn [List.length] in Hc, Hf.
    rewrite (proj2 (Z.ltb_lt _ _)) by lia.
    pose proof (apply_one_spec i path ts cs w ws lo Hp Hd Hw Ht) as H1.
    destruct (follow cs w) as [cs'|] eqn:Ef.
    + destruct H1 as (path' & t' & -> & Hp' & Ht'). rewrite bool_decide_eq_false_2 by (intros E; done).
      eapply IH; [done|by eapply follow_deep|exact Ht'|cbn; lia|lia].
    + destruct (apply_one i path ts) as [e [path' ts']]. cbn in H1. by rewrite bool_decide_eq_true_2.
Qed.

Lemma words_spec l : Forall (λ w, w ≠ [] ∧ Forall no_slash w ∧ ∀ c, c ∈ w → c ∈ l) (words l).
Proof.
  induction l as [|c l IH]; [constructor|]. cbn [words].
  assert (Forall (λ w, w ≠ [] ∧ Forall no_slash w ∧ ∀ d, d ∈ w → d ∈ c :: l) (words l)) as IH'.
  { eapply Forall_impl; [|exact IH]. intros w (? & ? & Hin). split_and!; [done..|]. intros d Hd. right. auto. }
  destruct (Z.eqb_spec c slash) as [|Hc]; [done|].
  assert ([c] ≠ [] ∧ Forall no_slash [c] ∧ ∀ d, d ∈ [c] → d ∈ c :: l) as Hone.
  { split_and!; [done|by repeat constructor|set_solver]. }
  destruct l as [|d l]; [constructor; [exact Hone|constructor]|]. destruct (d =? slash); [by constructor|].
  destruct (words (d :: l)) as [|w ws]; [constructor; [exact Hone|constructor]|].
  inversion IH' as [|? ? (? & ? & Hin) Hws]; subst. constructor; [|done].
  split_and!; [done|by constructor|]. intros e. rewrite elem_of_cons. intros [->|He]; [by left|auto].
Qed.
Lemma words_components l : cstring l → forallb short (words l) = true → Forall component (words l).
Proof.
  intros Hl Hs. rewrite forallb_forall in Hs. pose proof (words_spec l) as Hw. rewrite Forall_forall in Hw |- *.
  intros w Hin. destruct (Hw w Hin) as (Hne & _ & Hsub). split_and!; [|done|by apply Hs].
  apply Forall_forall. intros c Hc. unfold cstring in Hl. rewrite Forall_forall in Hl.
  apply Hl, list_elem_of_In, Hsub, list_elem_of_In, Hc.
Qed.
Lemma words_length l : 2 * len (words l) ≤ len l + 1 ∧ (starts (λ c, c = slash) l → 2 * len (words l) ≤ len l).
Proof.
  induction l as [|c l IH]; [cbn; lia|]. cbn [words starts].
  destruct (Z.eqb_spec c slash) as [->|Hc]; [cbn [List.length]; lia|].
  destruct l as [|d l]; [cbn [List.length] in *; lia|].
  destruct (Z.eqb_spec d slash) as [->|Hd].
  - destruct IH as [_ IH]. specialize (IH eq_refl). cbn [List.length] in *. lia.
  - destruct (words (d :: l)); cbn [List.length] in *; split; lia.
Qed.

Lemma acceptable_facts l : acceptable l = true → (List.length l < 256)%nat ∧ forallb short (words l) = true.
Proof. unfold acceptable. rewrite !andb_true_iff, Nat.ltb_lt. tauto. Qed.

Lemma apply_spec path ts cs l :
  canonical_of path cs → (List.length cs ≤ 16)%nat → cstring l → acceptable l = true →
  tokens_at (text ts) (offsets ts) 0 0 (words l) → count ts = len (words l) →
  match follow_all cs (words l) with
  | Some cs' => ∃ path' ts', apply path ts = (FS_OK, (path', ts')) ∧ canonical_of path' cs' ∧ (List.length cs' ≤ 16)%nat
  | None => fst (apply path ts) ≠ FS_OK
  end.
Proof.
  intros Hp Hd Hl Ha Ht Hc. destruct (acceptable_facts l Ha) as [Hlen Hs]. pose proof (words_length l) as [Hw _].
  eapply (apply_loop_spec 128); [done|done|by apply words_components|exact Ht|lia|lia].
Qed.

Lemma canonical_root c : aget c 0 = slash → aget c 1 = 0 → canonical_of (Canonical c 1 0 ∅ FS_MOUNT_DISK) [].
Proof.
  intros H0 H1. constructor; try done.
  - intros k Hk. cbn in Hk. assert (k = 0 ∨ k = 1) as [-> | ->] by lia; done.
  - cbn. lia.
Qed.

(** ** Canonical paths parse to themselves *)

Lemma upper_facts c : valid_byte c = true →
  valid_byte (upper c) = true ∧ upper (upper c) = upper c ∧ (upper c =? dot) = (c =? dot) ∧ c ≠ slash ∧ c ≠ 0.
Proof.
  unfold valid_byte, upper, dot, slash. rewrite !orb_true_iff, !andb_true_iff, !Z.leb_le, !Z.eqb_eq. intros Hc.
  destruct (Z.leb_spec 97 c), (Z.leb_spec c 122); cbn [andb];
    repeat match goal with |- context [(?a <=? ?b)] => destruct (Z.leb_spec a b); cbn [andb] end;
    repeat match goal with |- context [(?a =? ?b)] => destruct (Z.eqb_spec a b) end; split_and!; first [done | lia].
Qed.

Lemma forallb_upper w : forallb name_byte w = true →
  forallb name_byte (upper <$> w) = true ∧ upper <$> (upper <$> w) = upper <$> w.
Proof.
  induction w as [|c w IH]; [done|]. rewrite !fmap_cons. cbn [forallb]. rewrite !andb_true_iff. intros [Hc Hw].
  unfold name_byte in Hc. apply andb_true_iff in Hc as [Hv Hd]. destruct (upper_facts c Hv) as (Hv' & Hu & Hd' & _).
  destruct (IH Hw) as [IH1 IH2]. unfold name_byte at 1. rewrite Hv', Hd', Hd, IH1. split; [done|]. f_equal; done.
Qed.
Lemma split_dot_eq w b e : split_dot w = (b, e) → w = b ++ match e with None => [] | Some e => dot :: e end.
Proof.
  revert b e; induction w as [|c w IH]; intros b e; cbn; [by intros [= <- <-]|].
  destruct (Z.eqb_spec c dot) as [->|]; [by intros [= <- <-]|].
  destruct (split_dot w) as [b' e']. intros [= <- <-]. cbn. f_equal. by apply IH.
Qed.
Lemma split_dot_base b r : forallb name_byte b = true →
  split_dot (b ++ r) = let '(b', e) := split_dot r in (b ++ b', e).
Proof.
  induction b as [|c b IH]; intros Hb; [cbn; by destruct (split_dot r)|]. cbn [forallb] in Hb. apply andb_true_iff in Hb as [Hc Hb].
  unfold name_byte in Hc. apply andb_true_iff in Hc as [_ Hc]. cbn. apply negb_true_iff in Hc. rewrite Hc, (IH Hb).
  by destruct (split_dot r).
Qed.

Definition parts (b : list Z) (e : option (list Z)) : Prop :=
  part 8 b = true ∧ match e with None => True | Some e => part 3 e = true end.
Definition whole (b : list Z) (e : option (list Z)) : list Z := b ++ match e with None => [] | Some e => dot :: e end.
Lemma name83_iff w : name83 w = true ↔ ∃ b e, w = whole b e ∧ parts b e.
Proof.
  split.
  - unfold name83. destruct (split_dot w) as [b e] eqn:E. rewrite andb_true_iff. intros [Hb He].
    exists b, e. split; [by apply split_dot_eq|]. split; [done|]. by destruct e.
  - intros (b & e & -> & Hb & He). unfold name83, whole. apply part_true in Hb as Hb'. destruct Hb' as (_ & _ & Hb').
    rewrite split_dot_base by done. destruct e as [e|]; cbn [split_dot]; rewrite ?Z.eqb_refl, ?app_nil_r, Hb; [exact He|done].
Qed.
Lemma part_upper n w : part n w = true → part n (upper <$> w) = true ∧ upper <$> (upper <$> w) = upper <$> w.
Proof.
  rewrite !part_true, length_fmap. intros (Hne & Hlen & Hb). destruct (forallb_upper w Hb).
  split; [|done]. split_and!; [by destruct w|done|done].
Qed.

(** An upper-case 8.3 name. *)
Definition canonical_name (c : list Z) : Prop := name83 c = true ∧ upper <$> c = c.
Lemma upper_canonical w : name83 w = true → canonical_name (upper <$> w).
Proof.
  rewrite name83_iff. intros (b & e & -> & Hb & He). destruct (part_upper 8 b Hb) as [Hb' Hbu].
  unfold canonical_name, whole. rewrite fmap_app. destruct e as [e|]; [rewrite fmap_cons|].
  - destruct (part_upper 3 e He) as [He' Heu]. change (upper dot) with dot. split.
    + apply name83_iff. by exists (upper <$> b), (Some (upper <$> e)).
    + rewrite fmap_app, Hbu, fmap_cons. change (upper dot) with dot. by rewrite Heu.
  - rewrite fmap_nil, app_nil_r. split; [|done]. apply name83_iff. exists (upper <$> b), None. split; [|done].
    unfold whole. by rewrite app_nil_r.
Qed.
Lemma name_byte_facts w : forallb name_byte w = true → Forall (λ c, path_byte c = true ∧ c ≠ slash ∧ c ≠ 0) w.
Proof.
  intros Hw. apply Forall_forall. intros c Hc. rewrite forallb_forall in Hw. apply Hw in Hc.
  unfold name_byte in Hc. apply andb_true_iff in Hc as [Hv _]. destruct (upper_facts c Hv) as (_ & _ & _ & ? & ?).
  split_and!; [|done|done]. unfold path_byte. by rewrite Hv, orb_true_r.
Qed.
Lemma name83_facts w : name83 w = true →
  w ≠ [] ∧ w ≠ [dot] ∧ w ≠ [dot; dot] ∧ short w = true ∧ Forall (λ c, path_byte c = true ∧ c ≠ slash ∧ c ≠ 0) w.
Proof.
  intros Hn. split; [by intros ->|]. split; [by intros ->|]. split; [by intros ->|].
  apply name83_iff in Hn as (b & e & -> & Hb & He). apply part_true in Hb as (_ & Hlb & Hb). unfold short, whole. split.
  - apply Nat.ltb_lt. rewrite length_app. destruct e as [e|]; [apply part_true in He as (_ & ? & _)|]; cbn; lia.
  - apply Forall_app. split; [by apply name_byte_facts|]. destruct e as [e|]; [|done].
    constructor; [done|]. apply part_true in He as (_ & _ & He). by apply name_byte_facts.
Qed.

Definition good (cs : list (list Z)) : Prop :=
  Forall canonical_name cs ∧ (List.length cs ≤ 16)%nat ∧ (List.length (render cs) < 256)%nat.

Lemma render_mono cs ds : (List.length (render cs) ≤ List.length (render (cs ++ ds)))%nat.
Proof.
  destruct ds as [|d ds _] using rev_ind; [by rewrite app_nil_r|].
  destruct cs as [|c cs]; [|cbn; rewrite !length_app, fmap_app, concat_app, !length_app; lia].
  destruct (ds ++ [d]) eqn:E; [by destruct ds|]. cbn. lia.
Qed.
Lemma good_prefix cs ds : good (cs ++ ds) → good cs.
Proof.
  intros (H1 & H2 & H3). apply Forall_app in H1 as [H1 _]. rewrite length_app in H2.
  pose proof (render_mono cs ds). split_and!; [done|lia|lia].
Qed.
Lemma follow_good cs w cs' : good cs → follow cs w = Some cs' → good cs'.
Proof.
  intros Hg. unfold follow. repeat case_bool_decide; [by intros [= <-]| |].
  - intros [= <-]. destruct cs as [|c cs _] using rev_ind; [done|]. rewrite removelast_last. by eapply good_prefix.
  - destruct (_ && _) eqn:E; [|done]. rewrite !andb_true_iff, !Nat.ltb_lt in E. destruct E as [[En Hd] Hl]. intros [= <-].
    destruct Hg as (H1 & _ & _). split_and!; [|rewrite length_app; cbn; lia|done].
    apply Forall_app. split; [done|]. constructor; [by apply upper_canonical|done].
Qed.
Lemma follow_all_good ws cs cs' : good cs → follow_all cs ws = Some cs' → good cs'.
Proof.
  revert cs; induction ws as [|w ws IH]; intros cs Hg; cbn; [by intros [= <-]|].
  destruct (follow cs w) eqn:E; [|done]. apply IH. by eapply follow_good.
Qed.
Lemma good_nil : good [].
Proof. split_and!; [done|cbn; lia|cbn; lia]. Qed.

(** Following the names of a canonical path leads to it. *)
Lemma follow_all_self pre cs : good (pre ++ cs) → follow_all pre cs = Some (pre ++ cs).
Proof.
  revert pre; induction cs as [|c cs IH]; intros pre Hg; cbn [follow_all]; [by rewrite app_nil_r|].
  rewrite cons_middle, app_assoc in Hg. destruct (good_prefix _ _ Hg) as (H1 & H2 & H3).
  apply Forall_app in H1 as [_ H1]. apply Forall_inv in H1 as [Hn Hu].
  destruct (name83_facts c Hn) as (_ & Hd & Hdd & _). rewrite follow_name, Hn, Hu by done. rewrite length_app in H2. cbn in H2.
  rewrite (proj2 (Nat.ltb_lt _ _)), (proj2 (Nat.ltb_lt _ _)) by (done || lia). cbn [andb]. rewrite IH by done.
  by rewrite <- app_assoc.
Qed.

Lemma words_render cs : Forall canonical_name cs → words (render cs) = cs.
Proof.
  intros Hcs. destruct cs as [|c cs]; [done|]. unfold render. induction Hcs as [|d ds [Hn _] Hds IH]; [done|].
  destruct (name83_facts d Hn) as (Hne & _ & _ & _ & Hb). rewrite fmap_cons. cbn [concat app words].
  change (slash =? slash) with true. cbn match. fold (concat ((λ c : list Z, slash :: c) <$> ds)).
  rewrite words_word; [by f_equal|done| |].
  - eapply Forall_impl; [|exact Hb]. by intros x (_ & ? & _).
  - by destruct ds.
Qed.
Lemma render_bytes cs : Forall canonical_name cs →
  Forall (λ c, path_byte c = true ∧ c ≠ 0) (render cs) ∧ is_absolute (render cs) = true ∧ render cs ≠ [].
Proof.
  intros Hcs. split; [|by destruct cs]. destruct cs as [|c cs]; [by repeat constructor|]. unfold render.
  induction Hcs as [|d ds [Hn _] Hds IH]; [done|]. rewrite fmap_cons. cbn [concat]. apply Forall_app. split; [|exact IH].
  constructor; [done|]. destruct (name83_facts d Hn) as (_ & _ & _ & _ & Hb).
  eapply Forall_impl; [|exact Hb]. cbn. tauto.
Qed.
Lemma render_acceptable cs : good cs → acceptable (render cs) = true.
Proof.
  intros (H1 & _ & H3). destruct (render_bytes cs H1) as (Hb & _ & Hne). unfold acceptable.
  rewrite words_render by done. rewrite bool_decide_eq_false_2 by done. rewrite !andb_true_iff, Nat.ltb_lt, !forallb_forall.
  split_and!; [done| |done|].
  - intros c Hc. rewrite Forall_forall in Hb. by apply Hb.
  - intros c Hc. rewrite Forall_forall in H1. apply H1 in Hc as [Hn _]. by destruct (name83_facts c Hn) as (_ & _ & _ & ? & _).
Qed.
Lemma parse_good b p cs : parse b p = Some cs → good cs.
Proof.
  unfold parse. destruct (_ && _); [|done]. destruct (follow_all [] (words b)) as [ds|] eqn:E; [|done].
  apply (follow_all_good _ _ _ good_nil) in E. apply follow_all_good. destruct (is_absolute p); [apply good_nil|done].
Qed.
Lemma parse_self cs : good cs → parse [slash] (render cs) = Some cs.
Proof.
  intros Hg. unfold parse. rewrite (render_acceptable cs Hg). cbn. destruct (render_bytes cs (proj1 Hg)) as (_ & -> & _).
  rewrite words_render by apply Hg. exact (follow_all_self [] cs Hg).
Qed.

#[local] Opaque collect apply.
Lemma parse_spec b p : cstring b → cstring p →
  match parse b p with
  | Some cs => ∃ r, fs_path_parse (Some b) (Some p) = (FS_OK, r) ∧
      reads (aget (canonical_text r)) (render cs) ∧ depth r = len cs ∧ fs_mount r = FS_MOUNT_DISK ∧ (List.length cs ≤ 16)%nat
  | None => fst (fs_path_parse (Some b) (Some p)) ≠ FS_OK
  end.
Proof.
  intros Hb Hp. unfold parse, fs_path_parse. change (base no_path) with no_tokens. change (input no_path) with no_tokens.
  pose proof (collect_spec b Hb) as Cb. destruct (acceptable b) eqn:Ab; cbn [andb].
  2: { destruct (collect (Some b) no_tokens) as [e ts]. cbn in Cb. by rewrite bool_decide_eq_true_2. }
  destruct Cb as (tb & -> & Tb & Nb & ->). rewrite bool_decide_eq_false_2 by (intros E; done).
  destruct (is_absolute b); cbn [negb andb]; [|done].
  pose proof (collect_spec p Hp) as Cp. destruct (acceptable p) eqn:Ap.
  2: { cbn [input]. destruct (collect (Some p) no_tokens) as [e ts]. cbn in Cp. by rewrite bool_decide_eq_true_2. }
  cbn [input]. destruct Cp as (tp & -> & Tp & Np & Abs). rewrite bool_decide_eq_false_2 by (intros E; done).
  pose proof (canonical_root (aset ∅ 0 slash) eq_refl eq_refl) as Hroot.
  pose proof (apply_spec _ tb [] b Hroot ltac:(cbn; lia) Hb Ab Tb Nb) as Hbase. cbn [canonical_text fs_mount depth no_path].
  destruct (follow_all [] (words b)) as [cs|].
  2: { destruct (apply _ tb) as [e [path ts]]. cbn in Hbase. by rewrite bool_decide_eq_true_2. }
  destruct Hbase as (path & tb' & -> & Hpath & Hdeep). rewrite bool_decide_eq_false_2 by (intros E; done). rewrite Abs.
  set (path' := if is_absolute p then _ else path).
  assert (canonical_of path' (if is_absolute p then [] else cs) ∧ (List.length (if is_absolute p then [] else cs) ≤ 16)%nat) as [Hp' Hd'].
  { unfold path'. destruct (is_absolute p); [|done]. split; [|cbn; lia]. apply canonical_root.
    - rewrite aget_aset_ne by done. rewrite (co_text _ _ Hpath 0) by lia. by destruct cs.
    - by rewrite aget_aset_eq. }
  pose proof (apply_spec path' tp _ p Hp' Hd' Hp Ap Tp Np) as Hin.
  destruct (follow_all (if is_absolute p then [] else cs) (words p)) as [cs'|].
  2: { destruct (apply path' tp) as [e [q ts]]. cbn in Hin. by rewrite bool_decide_eq_true_2. }
  destruct Hin as (q & tp' & -> & [Qt _ Qc _ _ Qm] & Qd). rewrite bool_decide_eq_false_2 by (intros E; done).
  eexists. split; [done|]. cbn. split_and!; [done| |done|done]. rewrite Qc. apply Z.mod_small. lia.
Qed.

(** ** Properties *)

(** Fs_name_check accepts exactly the 8.3 names: a base of one to eight valid
    bytes, optionally followed by a dot and an extension of one to three. *)
Theorem fs_name_check_iff w : Forall (λ c, c ≠ 0) w → (List.length w < 256)%nat →
  fs_name_check FS_NAMES_FAT83 (Some (sget w)) = FS_OK ↔ name83 w = true.
Proof. intros Hw Hl. apply fs_name_check_spec; [done|apply reads_sget|done]. Qed.

(** C5: fs_path_parse implements the lexical specification: it succeeds exactly when
    both paths have legal bytes and lengths, the base is absolute and every name met
    is a legal 8.3 name within the depth and length limits; the canonical text is then
    the slash-separated upper-case names that remain after resolving dot and dot-dot
    (never above the root), and depth is their number. *)
Theorem fs_path_parse_refines b p : Forall (λ c, c ≠ 0) b → Forall (λ c, c ≠ 0) p →
  match parse b p with
  | Some cs => ∃ r, fs_path_parse (Some b) (Some p) = (FS_OK, r) ∧
      reads (aget (canonical_text r)) (render cs) ∧ depth r = len cs ∧ depth r ≤ FS_PATH_DEPTH ∧ fs_mount r = FS_MOUNT_DISK
  | None => fst (fs_path_parse (Some b) (Some p)) ≠ FS_OK
  end.
Proof.
  intros Hb Hp. pose proof (parse_spec b p Hb Hp) as H. destruct (parse b p) as [cs|]; [|done].
  destruct H as (r & E & Ht & Hd & Hm & Hl). exists r. split_and!; try done. unfold FS_PATH_DEPTH. lia.
Qed.

(** The canonical text is a fixed point: parsing it again from the root succeeds
    with the same text and the same depth. *)
Theorem fs_path_parse_canonical b p r : Forall (λ c, c ≠ 0) b → Forall (λ c, c ≠ 0) p →
  fs_path_parse (Some b) (Some p) = (FS_OK, r) →
  ∃ c r', Forall (λ x, x ≠ 0) c ∧ reads (aget (canonical_text r)) c ∧
    fs_path_parse (Some [slash]) (Some c) = (FS_OK, r') ∧
    reads (aget (canonical_text r')) c ∧ depth r' = depth r.
Proof.
  intros Hb Hp E. pose proof (parse_spec b p Hb Hp) as H. destruct (parse b p) as [cs|] eqn:Ep; [|by rewrite E in H].
  destruct H as (r0 & E' & Ht & Hd & _). rewrite E in E'. injection E' as <-.
  pose proof (parse_good _ _ _ Ep) as Hg. destruct (render_bytes cs (proj1 Hg)) as (Hr & _ & _).
  assert (cstring (render cs)) as Hc by (eapply Forall_impl; [|exact Hr]; by intros x [_ ?]).
  pose proof (parse_spec [slash] (render cs) ltac:(by repeat constructor) Hc) as H'. rewrite (parse_self cs Hg) in H'.
  destruct H' as (r' & Er & Ht' & Hd' & _). exists (render cs), r'. split_and!; [done..|congruence].
Qed.

(** ** Witnesses *)

(* "/sys/./bin/../lib" followed by "data.txt" *)
Definition sample_base : list Z := [47; 115; 121; 115; 47; 46; 47; 98; 105; 110; 47; 46; 46; 47; 108; 105; 98].
Definition sample_input : list Z := [100; 97; 116; 97; 46; 116; 120; 116].

Lemma fs_name_check_iff_witness :
  fs_name_check FS_NAMES_FAT83 (Some (sget sample_input)) = FS_OK ↔ name83 sample_input = true.
Proof. apply (fs_name_check_iff sample_input); [repeat constructor; discriminate|vm_compute; lia]. Defined.

Lemma fs_path_parse_refines_witness :
  parse sample_base sample_input =
    Some [[83; 89; 83]; [76; 73; 66]; [68; 65; 84; 65; 46; 84; 88; 84]] ∧
  match parse sample_base sample_input with
  | Some cs => ∃ r, fs_path_parse (Some sample_base) (Some sample_input) = (FS_OK, r) ∧
      reads (aget (canonical_text r)) (render cs) ∧ depth r = len cs ∧ depth r ≤ FS_PATH_DEPTH ∧ fs_mount r = FS_MOUNT_DISK
  | None => fst (fs_path_parse (Some sample_base) (Some sample_input)) ≠ FS_OK
  end.
Proof.
  split; [by vm_compute|]. apply (fs_path_parse_refines sample_base sample_input); repeat constructor; discriminate.
Defined.

Lemma fs_path_parse_canonical_witness :
  ∃ c r', Forall (λ x, x ≠ 0) c ∧ reads (aget (canonical_text (snd (fs_path_parse (Some sample_base) (Some sample_input))))) c ∧
    fs_path_parse (Some [slash]) (Some c) = (FS_OK, r') ∧ reads (aget (canonical_text r')) c ∧
    depth r' = depth (snd (fs_path_parse (Some sample_base) (Some sample_input))).
Proof.
  apply (fs_path_parse_canonical sample_base sample_input); [repeat constructor; discriminate..|].
  assert (fst (fs_path_parse (Some sample_base) (Some sample_input)) = FS_OK) as E by (vm_compute; reflexivity).
  rewrite <- E. apply surjective_pairing.
Defined.
