(* ===== verification/Fs.v ===== *)
(** * Virtual filesystem (kernel/fs/fs.c)

    The namespace over one mounted backend: path resolution, the table of
    live objects, the table of references to them and the per-task contexts.
    A backend is an [fs_operations] over its own state; [BackendLaw] states
    what fs.c relies on for object retention and is discharged for FAT16. *)

From S2P Require Import Prelude Block Path.

Definition FS_FILE : Z := 0.
Definition FS_DIRECTORY : Z := 1.
Definition FS_READ : Z := 1.
Definition FS_WRITE : Z := 2.
Definition FS_OBJECT_LIMIT : Z := 128.
Definition FS_REFERENCE_LIMIT : Z := 16 * 32 + 16 + 2.

Record fs_node := FsNode { node_id : Z; node_size : Z; node_kind : Z }.
Definition no_node : fs_node := FsNode 0 0 0.
Record fs_io_result := IoResult { io_error : fs_error; transferred : Z; io_status : Z; io_device_error : Z }.
Definition io_failure (e : fs_error) : fs_io_result := IoResult e 0 0 0.
Record fs_entry := FsEntry { entry_name : gmap Z Z; entry_kind : Z; entry_size : Z }.
Definition no_entry : fs_entry := FsEntry ∅ 0 0.

(** Names are readers of C strings; [None] is a NULL function pointer. *)
Record fs_operations (K : Type) := FsOperations {
  op_lookup : Z → (Z → Z) → K → (fs_error * fs_node) * K;
  op_stat : Z → K → (fs_error * fs_node) * K;
  op_retain : Z → K → fs_error * K;
  op_release : Z → K → K;
  op_read : Z → Z → list Z → Z → K → (fs_io_result * list Z) * K;
  op_readdir : Z → Z → K → (fs_error * (fs_entry * Z)) * K;
  op_write : option (Z → Z → list Z → Z → K → fs_io_result * K);
  op_replace : option (Z → (Z → Z) → option (list Z) → Z → K → fs_error * K);
  op_remove : option (Z → (Z → Z) → K → fs_error * K);
  op_mkdir : option (Z → (Z → Z) → K → fs_error * K);
  op_flush : option (K → fs_error * K);
  op_unmount : option (K → K);
  op_truncate : option (Z → Z → K → fs_error * K)
}.
Arguments op_lookup {K} _.
Arguments op_stat {K} _.
Arguments op_retain {K} _.
Arguments op_release {K} _.
Arguments op_read {K} _.
Arguments op_readdir {K} _.
Arguments op_write {K} _.
Arguments op_replace {K} _.
Arguments op_remove {K} _.
Arguments op_mkdir {K} _.
Arguments op_flush {K} _.
Arguments op_unmount {K} _.
Arguments op_truncate {K} _.

(** [complete]: the operations and all the required function pointers are given. *)
Record fs_backend := FsBackend { complete : bool; broot : Z; bnaming : Z; bread_only : bool }.
Record mount := Mount { backend : fs_backend; generation : Z; mounted : bool }.
Record object := Object { object_id : Z; object_references : Z; object_mount : Z; object_kind : Z }.
Record reference := Reference { token_ : Z; ref_object : Z; ref_access : Z }.
Record location := Location { loc_mount : Z; loc_depth : Z; nodes : gmap Z fs_node }.
Record fs_context := Context { directory_ : Z; path_ : gmap Z Z }.
Record fs_information := Information {
  info_mount : Z; info_generation : Z; info_object : Z; info_kind : Z; info_size : Z
}.
Definition no_information : fs_information := Information 0 0 0 0 0.
Definition no_object : object := Object 0 0 0 0.
Definition no_reference : reference := Reference 0 0 0.

(** The statics of fs.c and the backend behind the mount ([FS_MOUNT_COUNT] is 1). *)
Record vfs (K : Type) := Vfs {
  disk : mount; objects : gmap Z object; references : gmap Z reference;
  next_token : Z; ready : bool; busy : bool; store : K
}.
Arguments Vfs {K} _ _ _ _ _ _ _.
Arguments disk {K} _.
Arguments objects {K} _.
Arguments references {K} _.
Arguments next_token {K} _.
Arguments ready {K} _.
Arguments busy {K} _.
Arguments store {K} _.

Definition node_at (l : location) (i : Z) : fs_node := default no_node (nodes l !! i).
Definition here (l : location) : fs_node := node_at l (loc_depth l).

Section Operations.
Context {K : Type} (ops : fs_operations K).
Implicit Types (s : vfs K).

Definition object_at s (i : Z) : object := default no_object (objects s !! i).
Definition reference_at s (i : Z) : reference := default no_reference (references s !! i).
Definition set_store (k : K) s : vfs K :=
  Vfs (disk s) (objects s) (references s) (next_token s) (ready s) (busy s) k.
Definition set_busy (b : bool) s : vfs K :=
  Vfs (disk s) (objects s) (references s) (next_token s) (ready s) b (store s).

Definition fs_operation_active s : bool := busy s.

Definition enter s : fs_error * vfs K :=
  let e := if negb (ready s) then FS_UNAVAILABLE else if busy s then FS_BUSY else FS_OK in
  (e, if bool_decide (e = FS_OK) then set_busy true s else s).
Definition leave s : vfs K := set_busy false s.

Definition fs_initialize s : bool * vfs K :=
  if ready s then (true, s) else
  (true, Vfs (disk s) (objects s) (references s) (next_token s) true (busy s) (store s)).

(** [enter(); if (error != FS_OK) return error; ...; leave(); return error;] *)
Definition locked {A : Type} (refused : fs_error → A) (body : vfs K → A * vfs K) s : A * vfs K :=
  let '(e, s) := enter s in
  if bool_decide (e ≠ FS_OK) then (refused e, s) else
  let '(a, s) := body s in (a, leave s).

Record fs_statistics := FsStatistics { stat_objects : Z; stat_references : Z; stat_mounts : Z }.
Definition fs_stats s : fs_statistics :=
  FsStatistics (count_range 0 FS_OBJECT_LIMIT (λ i, negb (object_references (object_at s i) =? 0)))
    (count_range 0 FS_REFERENCE_LIMIT (λ i, negb (token_ (reference_at s i) =? 0)))
    (if mounted (disk s) then 1 else 0).

Definition valid_node (n : fs_node) : bool :=
  negb (node_id n =? 0) && ((node_kind n =? FS_FILE) || (node_kind n =? FS_DIRECTORY)).

Definition root s : (fs_error * location) * vfs K :=
  let none := Location FS_MOUNT_DISK 0 ∅ in
  if negb (mounted (disk s)) then ((FS_UNAVAILABLE, none), s) else
  let b := backend (disk s) in
  let '((e, n), k) := op_stat ops (broot b) (store s) in
  let s := set_store k s in
  let l := Location FS_MOUNT_DISK 0 {[ 0 := n ]} in
  if bool_decide (e = FS_OK) && (negb (valid_node n) || negb (node_id n =? broot b) ||
       negb (node_kind n =? FS_DIRECTORY)) then ((FS_IO_ERROR, l), s)
  else ((e, l), s).

Definition step (l : location) (name : Z → Z) s : (fs_error * location) * vfs K :=
  let parent := here l in
  if negb (node_kind parent =? FS_DIRECTORY) then ((FS_NOT_DIRECTORY, l), s) else
  if equal name (sget [dot]) then ((FS_OK, l), s) else
  if equal name (sget [dot; dot]) then
    ((FS_OK, if negb (loc_depth l =? 0) then Location (loc_mount l) (loc_depth l - 1) (nodes l) else l), s)
  else
  if loc_depth l =? FS_PATH_DEPTH then ((FS_TOO_DEEP, l), s) else
  let '((e, n), k) := op_lookup ops (node_id parent) name (store s) in
  let s := set_store k s in
  if bool_decide (e = FS_OK) then
    if negb (valid_node n) then ((FS_IO_ERROR, l), s)
    else ((FS_OK, Location (loc_mount l) (loc_depth l + 1) (<[loc_depth l + 1 := n]> (nodes l))), s)
  else ((e, l), s).

(** The index of the first reference slot with this token. *)
Fixpoint find_loop (fuel : nat) (i token : Z) s : option Z :=
  match fuel with
  | O => None
  | S fuel => if token_ (reference_at s i) =? token then Some i else find_loop fuel (i + 1) token s
  end.
Definition find_reference (token : Z) s : option Z :=
  if token =? 0 then None else find_loop (Z.to_nat FS_REFERENCE_LIMIT) 0 token s.

(** The C string in a [char] array of a path. *)
Fixpoint string_loop (fuel : nat) (i : Z) (t : gmap Z Z) : list Z :=
  match fuel with
  | O => []
  | S fuel => if aget t i =? 0 then [] else aget t i :: string_loop fuel (i + 1) t
  end.
Definition string_of (t : gmap Z Z) : list Z := string_loop 256 0 t.

Definition preflight (context : option fs_context) (path : option (list Z)) : fs_error * fs_path :=
  match context with
  | Some c => if directory_ c =? 0 then (FS_INVALID, no_path) else fs_path_parse (Some (string_of (path_ c))) path
  | None => fs_path_parse (Some [slash]) path
  end.

(** The loops of [resolve] over the first [n] tokens. *)
Fixpoint follow_tokens (n : nat) (i : Z) (ts : fs_tokens) (l : location) s : (fs_error * location) * vfs K :=
  match n with
  | O => ((FS_OK, l), s)
  | S n =>
      let '((e, l), s) := step l (token ts i) s in
      if bool_decide (e ≠ FS_OK) then ((e, l), s) else follow_tokens n (i + 1) ts l s
  end.

Definition no_location : location := Location 0 0 ∅.
Definition resolve (context : option fs_context) (plan : fs_path) (n : Z) s : (fs_error * location) * vfs K :=
  let cwd := match context with
             | None => (FS_OK, no_object)
             | Some c => match find_reference (directory_ c) s with
                         | None => (FS_INVALID, no_object)
                         | Some r => let o := object_at s (ref_object (reference_at s r)) in
                                     ((if negb (object_kind o =? FS_DIRECTORY) then FS_NOT_DIRECTORY else FS_OK), o)
                         end
             end in
  if bool_decide (fst cwd ≠ FS_OK) then ((fst cwd, no_location), s) else
  let '((e, l), s) := root s in
  if bool_decide (e ≠ FS_OK) then ((e, l), s) else
  let '((e, l), s) :=
    if (if context then true else false) && negb (absolute (input plan)) then
      let '((e, l), s) := follow_tokens (Z.to_nat (count (base plan))) 0 (base plan) l s in
      if bool_decide (e ≠ FS_OK) then ((e, l), s) else
      if negb (object_mount (snd cwd) =? loc_mount l) || negb (object_id (snd cwd) =? node_id (here l))
      then ((FS_INVALID, l), s) else ((FS_OK, l), s)
    else ((FS_OK, l), s) in
  if bool_decide (e ≠ FS_OK) then ((e, l), s) else
  let '((e, l), s) := follow_tokens (Z.to_nat n) 0 (input plan) l s in
  if bool_decide (e ≠ FS_OK) then ((e, l), s) else
  if (n =? count (input plan)) && directory (input plan) && negb (node_kind (here l) =? FS_DIRECTORY)
  then ((FS_NOT_DIRECTORY, l), s) else ((FS_OK, l), s).

Definition information (l : location) s : fs_information :=
  Information (loc_mount l) (generation (disk s)) (node_id (here l)) (node_kind (here l)) (node_size (here l)).

Definition retained (m id : Z) s : bool :=
  negb (all_range 0 FS_OBJECT_LIMIT (λ i,
    let o := object_at s i in
    negb (negb (object_references o =? 0) && (object_mount o =? m) && (object_id o =? id)))).

(** The first free reference slot; [FS_REFERENCE_LIMIT] when there is none. *)
Fixpoint free_slot (fuel : nat) (i : Z) s : Z :=
  match fuel with
  | O => i
  | S fuel => if token_ (reference_at s i) =? 0 then i else free_slot fuel (i + 1) s
  end.
(** [object_slot] and [empty] after the loop over the objects. *)
Definition object_slots (m id : Z) s : Z * Z :=
  for_range 0 FS_OBJECT_LIMIT (λ i '(object_slot, empty),
    let o := object_at s i in
    if object_references o =? 0 then (object_slot, if empty =? FS_OBJECT_LIMIT then i else empty)
    else if (object_mount o =? m) && (object_id o =? id) then (i, empty) else (object_slot, empty))
    (FS_OBJECT_LIMIT, FS_OBJECT_LIMIT).

(** Returns the error and the value stored through [result] (0 when none is). *)
Definition new_reference (l : location) (access : Z) s : (fs_error * Z) * vfs K :=
  let n := here l in
  let writing := negb (Z.land access FS_WRITE =? 0) in
  if (node_kind n =? FS_DIRECTORY) && writing then ((FS_IS_DIRECTORY, 0), s) else
  if bread_only (backend (disk s)) && writing then ((FS_READ_ONLY, 0), s) else
  if next_token s =? 0 then ((FS_NO_SPACE, 0), s) else
  let reference_slot := free_slot (Z.to_nat FS_REFERENCE_LIMIT) 0 s in
  let '(object_slot, empty) := object_slots (loc_mount l) (node_id n) s in
  if (reference_slot =? FS_REFERENCE_LIMIT) || ((object_slot =? FS_OBJECT_LIMIT) && (empty =? FS_OBJECT_LIMIT))
  then ((FS_NO_SPACE, 0), s) else
  let creating := object_slot =? FS_OBJECT_LIMIT in
  let '(e, s) :=
    if creating then let '(e, k) := op_retain ops (node_id n) (store s) in (e, set_store k s)
    else if negb (object_kind (object_at s object_slot) =? node_kind n) then (FS_IO_ERROR, s) else (FS_OK, s) in
  if bool_decide (e ≠ FS_OK) then ((e, 0), s) else
  let object_slot := if creating then empty else object_slot in
  let o := if creating then Object (node_id n) 0 (loc_mount l) (node_kind n) else object_at s object_slot in
  let o := Object (object_id o) (wrap32 (object_references o + 1)) (object_mount o) (object_kind o) in
  let token := next_token s in
  ((FS_OK, token),
   Vfs (disk s) (<[object_slot := o]> (objects s))
     (<[reference_slot := Reference token object_slot access]> (references s))
     (wrap64 (next_token s + 1)) (ready s) (busy s) (store s)).

Definition close_reference (token : Z) s : fs_error * vfs K :=
  match find_reference token s with
  | None => (FS_INVALID, s)
  | Some r =>
      let i := ref_object (reference_at s r) in
      let saved := object_at s i in
      let n := wrap32 (object_references saved - 1) in
      let o := if n =? 0 then no_object else Object (object_id saved) n (object_mount saved) (object_kind saved) in
      let s := Vfs (disk s) (<[i := o]> (objects s)) (<[r := no_reference]> (references s))
                 (next_token s) (ready s) (busy s) (store s) in
      (FS_OK, if n =? 0 then set_store (op_release ops (object_id saved) (store s)) s else s)
  end.

(** [given] is [backend != NULL]. *)
Definition mount_backend (given : bool) (b : fs_backend) s : fs_error * vfs K :=
  if negb given || (broot b =? 0) || negb (bnaming b =? FS_NAMES_FAT83) || negb (complete b) then (FS_INVALID, s) else
  locked id (λ s,
    if mounted (disk s) then (FS_BUSY, s) else
    if generation (disk s) =? UINT32_MAX then (FS_NO_SPACE, s) else
    let '((e, n), k) := op_stat ops (broot b) (store s) in
    let s := set_store k s in
    if bool_decide (e = FS_OK) then
      if negb (valid_node n) || negb (node_id n =? broot b) || negb (node_kind n =? FS_DIRECTORY)
      then (FS_NOT_DIRECTORY, s)
      else (FS_OK, Vfs (Mount b (generation (disk s) + 1) true) (objects s) (references s)
                     (next_token s) (ready s) (busy s) (store s))
    else (e, s)) s.
Definition fs_mount_disk (given : bool) (b : fs_backend) s : fs_error * vfs K := mount_backend given b s.

Definition fs_unmount_disk s : fs_error * vfs K :=
  locked id (λ s,
    if negb (mounted (disk s)) then (FS_UNAVAILABLE, s) else
    if negb (all_range 0 FS_OBJECT_LIMIT (λ i,
         let o := object_at s i in
         negb (negb (object_references o =? 0) && (object_mount o =? FS_MOUNT_DISK)))) then (FS_BUSY, s) else
    let s := Vfs (Mount (backend (disk s)) (generation (disk s)) false) (objects s) (references s)
               (next_token s) (ready s) (busy s) (store s) in
    (FS_OK, match op_unmount ops with Some f => set_store (f (store s)) s | None => s end)) s.

(** [out] is [result != NULL]; the pair is the error and [*result]. *)
Definition fs_open (context : option fs_context) (path : option (list Z)) (access : Z) (out : bool) s
    : (fs_error * Z) * vfs K :=
  if negb out || (access =? 0) || negb (Z.land access (not32 (Z.lor FS_READ FS_WRITE)) =? 0)
  then ((FS_INVALID, 0), s) else
  let '(e, plan) := preflight context path in
  if bool_decide (e ≠ FS_OK) then ((e, 0), s) else
  locked (λ e, (e, 0)) (λ s,
    let '((e, l), s) := resolve context plan (count (input plan)) s in
    if bool_decide (e = FS_OK) then new_reference l access s else ((e, 0), s)) s.

Definition fs_duplicate (token : Z) (out : bool) s : (fs_error * Z) * vfs K :=
  if negb out then ((FS_INVALID, 0), s) else
  locked (λ e, (e, 0)) (λ s,
    match find_reference token s with
    | None => ((FS_INVALID, 0), s)
    | Some r =>
        let ref := reference_at s r in
        let o := object_at s (ref_object ref) in
        new_reference (Location (object_mount o) 0 {[ 0 := FsNode (object_id o) 0 (object_kind o) ]}) (ref_access ref) s
    end) s.

Definition fs_close (token : Z) s : fs_error * vfs K := locked id (close_reference token) s.

Definition fs_stat (token : Z) (out : bool) s : (fs_error * fs_information) * vfs K :=
  if negb out then ((FS_INVALID, no_information), s) else
  locked (λ e, (e, no_information)) (λ s,
    match find_reference token s with
    | None => ((FS_INVALID, no_information), s)
    | Some r =>
        let o := object_at s (ref_object (reference_at s r)) in
        let '((e, n), k) := op_stat ops (object_id o) (store s) in
        let s := set_store k s in
        let e := if bool_decide (e = FS_OK) && (negb (valid_node n) || negb (node_id n =? object_id o) ||
                      negb (node_kind n =? object_kind o)) then FS_IO_ERROR else e in
        ((e, if bool_decide (e = FS_OK) then information (Location (object_mount o) 0 {[ 0 := n ]}) s
             else no_information), s)
    end) s.

Definition fs_stat_path (context : option fs_context) (path : option (list Z)) (out : bool) s
    : (fs_error * fs_information) * vfs K :=
  if negb out then ((FS_INVALID, no_information), s) else
  let '(e, plan) := preflight context path in
  if bool_decide (e ≠ FS_OK) then ((e, no_information), s) else
  locked (λ e, (e, no_information)) (λ s,
    let '((e, l), s) := resolve context plan (count (input plan)) s in
    ((e, if bool_decide (e = FS_OK) then information l s else no_information), s)) s.

(** The result and the caller's buffer; [None] is a NULL buffer. *)
Definition io (token offset : Z) (buffer : option (list Z)) (bytes : Z) (write : bool) s
    : (fs_io_result * option (list Z)) * vfs K :=
  if negb (bytes =? 0) && negb (if buffer then true else false) then ((io_failure FS_INVALID, buffer), s) else
  if bytes >? UINT64_MAX - offset then ((io_failure FS_RANGE, buffer), s) else
  locked (λ e, (io_failure e, buffer)) (λ s,
    match find_reference token s with
    | None => ((io_failure FS_INVALID, buffer), s)
    | Some r =>
        let ref := reference_at s r in
        let o := object_at s (ref_object ref) in
        if Z.land (ref_access ref) (if write then FS_WRITE else FS_READ) =? 0 then ((io_failure FS_ACCESS, buffer), s)
        else if negb (object_kind o =? FS_FILE) then ((io_failure FS_IS_DIRECTORY, buffer), s)
        else if write && bread_only (backend (disk s)) then ((io_failure FS_READ_ONLY, buffer), s)
        else match buffer with
             | Some data =>
                 if bytes =? 0 then ((io_failure FS_OK, buffer), s) else
                 let '((result, data), k) :=
                   if write then
                     match op_write ops with
                     | Some f => let '(result, k) := f (object_id o) offset data bytes (store s) in ((result, data), k)
                     | None => ((io_failure FS_UNSUPPORTED, data), store s)
                     end
                   else op_read ops (object_id o) offset data bytes (store s) in
                 ((if transferred result >? bytes then io_failure FS_IO_ERROR else result, Some data), set_store k s)
             | None => ((io_failure FS_OK, buffer), s) (* only with bytes = 0 *)
             end
    end) s.
Definition fs_read (token offset : Z) (buffer : option (list Z)) (bytes : Z) s
    : (fs_io_result * option (list Z)) * vfs K := io token offset buffer bytes false s.
Definition fs_write (token offset : Z) (buffer : option (list Z)) (bytes : Z) s : fs_io_result * vfs K :=
  let '((r, _), s) := io token offset buffer bytes true s in (r, s).

(** Upper-casing of the name in a directory entry. *)
Fixpoint upcase_entry (fuel : nat) (i : Z) (t : gmap Z Z) : gmap Z Z :=
  match fuel with
  | O => t
  | S fuel =>
      let c := aget t i in
      if c =? 0 then t else
      upcase_entry fuel (i + 1) (if (97 <=? c) && (c <=? 122) then aset t i (c - (97 - 65)) else t)
  end.

(** The error, [*cursor] and [*entry]. *)
Definition fs_readdir (token : Z) (cursor : option Z) (out : bool) s
    : (fs_error * (Z * fs_entry)) * vfs K :=
  match cursor with
  | None => ((FS_INVALID, (0, no_entry)), s)
  | Some cursor =>
      if negb out then ((FS_INVALID, (cursor, no_entry)), s) else
      locked (λ e, (e, (cursor, no_entry))) (λ s,
        match find_reference token s with
        | None => ((FS_INVALID, (cursor, no_entry)), s)
        | Some r =>
            let ref := reference_at s r in
            let o := object_at s (ref_object ref) in
            if Z.land (ref_access ref) FS_READ =? 0 then ((FS_ACCESS, (cursor, no_entry)), s)
            else if negb (object_kind o =? FS_DIRECTORY) then ((FS_NOT_DIRECTORY, (cursor, no_entry)), s)
            else
              let '((e, (entry, next)), k) := op_readdir ops (object_id o) cursor (store s) in
              let s := set_store k s in
              if bool_decide (e ≠ FS_OK) then ((e, (cursor, no_entry)), s) else
              let naming := bnaming (backend (disk s)) in
              if (next <=? cursor) || bool_decide (fs_name_check naming (Some (aget (entry_name entry))) ≠ FS_OK) ||
                 (negb (entry_kind entry =? FS_FILE) && negb (entry_kind entry =? FS_DIRECTORY))
              then ((FS_IO_ERROR, (cursor, no_entry)), s)
              else
                let name := if naming =? FS_NAMES_FAT83 then upcase_entry 64 0 (entry_name entry) else entry_name entry in
                ((FS_OK, (next, FsEntry name (entry_kind entry) (entry_size entry))), s)
        end) s
  end.

Definition fs_truncate (token size : Z) s : fs_error * vfs K :=
  locked id (λ s,
    match find_reference token s with
    | None => (FS_INVALID, s)
    | Some r =>
        let ref := reference_at s r in
        let o := object_at s (ref_object ref) in
        if Z.land (ref_access ref) FS_WRITE =? 0 then (FS_ACCESS, s)
        else if negb (object_kind o =? FS_FILE) then (FS_IS_DIRECTORY, s)
        else if bread_only (backend (disk s)) then (FS_READ_ONLY, s)
        else match op_truncate ops with
             | Some f => let '(e, k) := f (object_id o) size (store s) in (e, set_store k s)
             | None => (FS_UNSUPPORTED, s)
             end
    end) s.

Definition fs_flush (token : Z) s : fs_error * vfs K :=
  locked id (λ s,
    match find_reference token s with
    | None => (FS_INVALID, s)
    | Some _ =>
        match op_flush ops with
        | Some f => let '(e, k) := f (store s) in (e, set_store k s)
        | None => ((if bread_only (backend (disk s)) then FS_OK else FS_UNSUPPORTED), s)
        end
    end) s.

Inductive mutation := REPLACE | REMOVE | MKDIR.
#[global] Instance mutation_eq : EqDecision mutation.
Proof. solve_decision. Defined.

(** The backend call at the end of [mutate]. *)
Definition commit (action : mutation) (parent : Z) (name : Z → Z) (data : option (list Z)) (bytes : Z) s
    : fs_error * vfs K :=
  let run (f : K → fs_error * K) := let '(e, k) := f (store s) in (e, set_store k s) in
  match action with
  | REPLACE => match op_replace ops with Some f => run (f parent name data bytes) | None => (FS_UNSUPPORTED, s) end
  | REMOVE => match op_remove ops with Some f => run (f parent name) | None => (FS_UNSUPPORTED, s) end
  | MKDIR => match op_mkdir ops with Some f => run (f parent name) | None => (FS_UNSUPPORTED, s) end
  end.

(** What [mutate] makes of the lookup of the final name. *)
Definition mutate_verdict (action : mutation) (dir : bool) (e : fs_error) (n : fs_node) (held : bool) : fs_error :=
  let exists_ := bool_decide (e = FS_OK) in
  if exists_ && negb (valid_node n) then FS_IO_ERROR
  else if exists_ && bool_decide (action = MKDIR) then FS_EXISTS
  else if exists_ && dir && negb (node_kind n =? FS_DIRECTORY) then FS_NOT_DIRECTORY
  else if exists_ && bool_decide (action = REPLACE) && (node_kind n =? FS_DIRECTORY) then FS_IS_DIRECTORY
  else if exists_ && held then FS_BUSY
  else if negb exists_ && bool_decide (e = FS_NOT_FOUND) && bool_decide (action ≠ REMOVE)
  then if dir && bool_decide (action ≠ MKDIR) then FS_NOT_FOUND else FS_OK
  else e.

Definition mutate (context : option fs_context) (path : option (list Z)) (data : option (list Z)) (bytes : Z)
    (action : mutation) s : fs_error * vfs K :=
  if negb (bytes =? 0) && negb (if data then true else false) then (FS_INVALID, s) else
  let '(e, plan) := preflight context path in
  if bool_decide (e ≠ FS_OK) then (e, s) else
  locked id (λ s,
    let itself := match action with REMOVE => FS_BUSY | _ => FS_IS_DIRECTORY end in
    if count (input plan) =? 0 then (itself, s) else
    let name := token (input plan) (count (input plan) - 1) in
    let special := equal name (sget [dot]) || equal name (sget [dot; dot]) in
    let '((e, parent), s) := resolve context plan (count (input plan) - (if special then 0 else 1)) s in
    if bool_decide (e ≠ FS_OK) then (e, s) else
    if special then (itself, s) else
    if negb (node_kind (here parent) =? FS_DIRECTORY) then (FS_NOT_DIRECTORY, s) else
    if bread_only (backend (disk s)) then (FS_READ_ONLY, s) else
    let '((e, n), k) := op_lookup ops (node_id (here parent)) name (store s) in
    let s := set_store k s in
    let e := mutate_verdict action (directory (input plan)) e n (retained (loc_mount parent) (node_id n) s) in
    if bool_decide (e = FS_OK) then commit action (node_id (here parent)) name data bytes s else (e, s)) s.

Definition fs_replace (context : option fs_context) (path data : option (list Z)) (bytes : Z) s : fs_error * vfs K :=
  mutate context path data bytes REPLACE s.
Definition fs_remove (context : option fs_context) (path : option (list Z)) s : fs_error * vfs K :=
  mutate context path None 0 REMOVE s.
Definition fs_mkdir (context : option fs_context) (path : option (list Z)) s : fs_error * vfs K :=
  mutate context path None 0 MKDIR s.

Definition no_context : fs_context := Context 0 ∅.
Definition root_path : gmap Z Z := {[ 0 := slash ]}.

(** The context functions return the error and the context; [None] is NULL. *)
Definition fs_context_initialize (context : option fs_context) s : (fs_error * option fs_context) * vfs K :=
  match context with
  | None => ((FS_INVALID, context), s)
  | Some c =>
      if negb (directory_ c =? 0) then ((FS_INVALID, context), s) else
      let '((e, token), s) := fs_open None (Some [slash]) FS_READ true s in
      ((e, if bool_decide (e = FS_OK) then Some (Context token root_path) else context), s)
  end.

Definition fs_context_clone (source destination : option fs_context) s : (fs_error * option fs_context) * vfs K :=
  match source, destination with
  | Some src, Some dst =>
      if negb (directory_ dst =? 0) then ((FS_INVALID, destination), s) else
      if directory_ src =? 0 then
        let '((e, c), s) := fs_context_initialize destination s in
        ((if bool_decide (e = FS_UNAVAILABLE) then FS_OK else e, c), s)
      else
      locked (λ e, (e, destination)) (λ s,
        match find_reference (directory_ src) s with
        | None => ((FS_INVALID, destination), s)
        | Some r =>
            let o := object_at s (ref_object (reference_at s r)) in
            if negb (object_kind o =? FS_DIRECTORY) then ((FS_NOT_DIRECTORY, destination), s) else
            let '((e, token), s) :=
              new_reference (Location (object_mount o) 0 {[ 0 := FsNode (object_id o) 0 FS_DIRECTORY ]}) FS_READ s in
            ((e, if bool_decide (e = FS_OK) then Some (Context token (path_ src)) else destination), s)
        end) s
  | _, _ => ((FS_INVALID, destination), s)
  end.

Definition fs_context_chdir (context : option fs_context) (path : option (list Z)) s
    : (fs_error * option fs_context) * vfs K :=
  match context with
  | None => ((FS_INVALID, context), s)
  | Some c =>
      let '(e, plan) := preflight context path in
      if bool_decide (e ≠ FS_OK) then ((e, context), s) else
      locked (λ e, (e, context)) (λ s,
        let '((e, l), s) := resolve context plan (count (input plan)) s in
        let e := if bool_decide (e = FS_OK) && negb (node_kind (here l) =? FS_DIRECTORY) then FS_NOT_DIRECTORY else e in
        if bool_decide (e ≠ FS_OK) then ((e, context), s) else
        let '((e, token), s) := new_reference l FS_READ s in
        if bool_decide (e ≠ FS_OK) then ((e, context), s) else
        ((FS_OK, Some (Context token (canonical_text plan))), snd (close_reference (directory_ c) s))) s
  end.

Definition fs_context_destroy (context : option fs_context) s : (fs_error * option fs_context) * vfs K :=
  match context with
  | None => ((FS_INVALID, context), s)
  | Some c =>
      if directory_ c =? 0 then ((FS_OK, Some no_context), s) else
      let '(e, s) := fs_close (directory_ c) s in
      ((e, if bool_decide (e = FS_OK) then Some no_context else context), s)
  end.
End Operations.

(** ** What fs.c relies on: retention

    [pins k id] is the number of times object [id] is retained in the backend
    state [k]; only retain and release change it, and never unmount when all
    pins are gone. *)

Class BackendLaw {K : Type} (ops : fs_operations K) := {
  pins : K → Z → Z;
  pins_lookup p n k id : pins (snd (op_lookup ops p n k)) id = pins k id;
  pins_stat i k id : pins (snd (op_stat ops i k)) id = pins k id;
  pins_read i o d b k id : pins (snd (op_read ops i o d b k)) id = pins k id;
  pins_readdir i c k id : pins (snd (op_readdir ops i c k)) id = pins k id;
  pins_write f i o d b k id : op_write ops = Some f → pins (snd (f i o d b k)) id = pins k id;
  pins_replace f p n d b k id : op_replace ops = Some f → pins (snd (f p n d b k)) id = pins k id;
  pins_remove f p n k id : op_remove ops = Some f → pins (snd (f p n k)) id = pins k id;
  pins_mkdir f p n k id : op_mkdir ops = Some f → pins (snd (f p n k)) id = pins k id;
  pins_flush f k id : op_flush ops = Some f → pins (snd (f k)) id = pins k id;
  pins_truncate f i n k id : op_truncate ops = Some f → pins (snd (f i n k)) id = pins k id;
  pins_retain i k id :
    pins (snd (op_retain ops i k)) id =
      pins k id + (if decide (fst (op_retain ops i k) = FS_OK ∧ id = i) then 1 else 0);
  pins_release i k id : 0 < pins k i → pins (op_release ops i k) id = pins k id - (if decide (id = i) then 1 else 0);
  pins_unmount f k id : op_unmount ops = Some f → (∀ j, pins k j = 0) → pins (f k) id = 0
}.

(** ** The invariant *)

Section Invariant.
Context {K : Type} (ops : fs_operations K) `{!BackendLaw ops}.
Implicit Types (s : vfs K).

Definition live_reference s (i : Z) : Prop := 0 ≤ i < FS_REFERENCE_LIMIT ∧ token_ (reference_at s i) ≠ 0.
Definition live_object s (i : Z) : Prop := 0 ≤ i < FS_OBJECT_LIMIT ∧ object_references (object_at s i) ≠ 0.
Definition refers s (o i : Z) : bool :=
  negb (token_ (reference_at s i) =? 0) && (ref_object (reference_at s i) =? o).

Record fs_inv s : Prop := FsInv {
  inv_token : 0 ≤ next_token s ≤ UINT64_MAX;
  inv_fresh i : live_reference s i → 0 < token_ (reference_at s i) ∧
                  (next_token s = 0 ∨ token_ (reference_at s i) < next_token s);
  inv_object i : live_reference s i → 0 ≤ ref_object (reference_at s i) < FS_OBJECT_LIMIT;
  inv_unique i j : live_reference s i → live_reference s j →
                     token_ (reference_at s i) = token_ (reference_at s j) → i = j;
  inv_count o : 0 ≤ o < FS_OBJECT_LIMIT →
                  object_references (object_at s o) = count_range 0 FS_REFERENCE_LIMIT (refers s o);
  inv_mount o : live_object s o → object_mount (object_at s o) = FS_MOUNT_DISK ∧ mounted (disk s) = true;
  inv_ids o o' : live_object s o → live_object s o' →
                   object_id (object_at s o) = object_id (object_at s o') → o = o';
  inv_pinned o : live_object s o → pins (store s) (object_id (object_at s o)) = 1;
  inv_unpinned id : (∀ o, live_object s o → object_id (object_at s o) ≠ id) → pins (store s) id = 0
}.

(** What a token stands for: object, kind and access. *)
Definition handle : Type := Z * Z * Z.
Definition handle_of s (t : Z) : option handle :=
  r ← find_reference t s;
  let ref := reference_at s r in
  let o := object_at s (ref_object ref) in
  Some (object_id o, object_kind o, ref_access ref).

(** States that differ in the backend only, with the same pins. *)
Definition quiet s s' : Prop := ∃ k, s' = set_store k s ∧ ∀ id, pins k id = pins (store s) id.
#[global] Instance quiet_preorder : PreOrder quiet.
Proof.
  split.
  - intros s. exists (store s). by destruct s.
  - intros s1 s2 s3 (k & -> & H1) (k' & -> & H2). exists k'. split; [done|]. intros id. rewrite H2. apply H1.
Qed.

Lemma quiet_inv s s' : quiet s s' → fs_inv s → fs_inv s' ∧ handle_of s' = handle_of s.
Proof.
  intros (k & -> & Hp) [? ? ? ? ? ? ? H8 H9]. split; [|done].
  constructor; try done; intros; cbn; rewrite Hp; [by apply H8|by apply H9].
Qed.
Lemma busy_inv b s : fs_inv (set_busy b s) ↔ fs_inv s.
Proof. split; intros []; constructor; done. Qed.

(** ** Path resolution only talks to the backend *)

Lemma stat_quiet i s : quiet s (set_store (snd (op_stat ops i (store s))) s).
Proof. eexists. split; [done|]. intros id. apply pins_stat. Qed.
Lemma lookup_quiet p n s : quiet s (set_store (snd (op_lookup ops p n (store s))) s).
Proof. eexists. split; [done|]. intros id. apply pins_lookup. Qed.

Lemma root_quiet s : quiet s (snd (root ops s)).
Proof.
  unfold root. destruct (mounted _); cbn [negb]; [|reflexivity].
  pose proof (stat_quiet (broot (backend (disk s))) s) as H.
  destruct (op_stat ops _ (store s)) as [[e n] k]. by destruct (_ && _).
Qed.
Lemma step_quiet l name s : quiet s (snd (step ops l name s)).
Proof.
  unfold step. destruct (negb _); [reflexivity|]. destruct (equal _ _); [reflexivity|].
  destruct (equal _ _); [reflexivity|]. destruct (_ =? _); [reflexivity|].
  pose proof (lookup_quiet (node_id (here l)) name s) as H.
  destruct (op_lookup ops _ _ (store s)) as [[e n] k]. destruct (bool_decide _); [|done]. by destruct (negb _).
Qed.
Lemma follow_quiet n i ts l s : quiet s (snd (follow_tokens ops n i ts l s)).
Proof.
  revert i l s; induction n as [|n IH]; intros i l s; cbn [follow_tokens]; [reflexivity|].
  pose proof (step_quiet l (token ts i) s) as H. destruct (step ops l (token ts i) s) as [[e l'] s'].
  destruct (bool_decide _); [done|]. etransitivity; [exact H|apply IH].
Qed.
Lemma resolve_quiet c plan n s : quiet s (snd (resolve ops c plan n s)).
Proof.
  unfold resolve. set (cwd := match c with Some _ => _ | None => _ end). destruct (bool_decide _); [reflexivity|].
  pose proof (root_quiet s) as H1. destruct (root ops s) as [[e1 l1] s1]. cbn in H1.
  destruct (bool_decide _); [done|].
  set (m := if _ && _ then _ else _). assert (quiet s1 (snd m)) as H2.
  { unfold m. destruct (_ && _); [|reflexivity]. pose proof (follow_quiet (Z.to_nat (count (base plan))) 0 (base plan) l1 s1) as Hf.
    destruct (follow_tokens _ _ _ _ _ _) as [[e l] s2]. destruct (bool_decide _); [done|]. by destruct (_ || _). }
  destruct m as [[e2 l2] s2]. cbn in H2. destruct (bool_decide _); [by transitivity s1|].
  pose proof (follow_quiet (Z.to_nat n) 0 (input plan) l2 s2) as H3.
  destruct (follow_tokens _ _ _ _ _ _) as [[e3 l3] s3]. cbn in H3.
  assert (quiet s s3) by (transitivity s1; [done|]; by transitivity s2).
  destruct (bool_decide _); [done|]. by destruct (_ && _ && _).
Qed.

(** ** The tables *)

Lemma find_loop_spec fuel i t s :
  match find_loop fuel i t s with
  | Some r => i ≤ r < i + Z.of_nat fuel ∧ token_ (reference_at s r) = t
  | None => ∀ j, i ≤ j < i + Z.of_nat fuel → token_ (reference_at s j) ≠ t
  end.
Proof.
  revert i; induction fuel as [|fuel IH]; intros i; cbn [find_loop]; [intros; lia|].
  destruct (Z.eqb_spec (token_ (reference_at s i)) t) as [E|E]; [lia|].
  specialize (IH (i + 1)). destruct (find_loop fuel (i + 1) t s); [lia|].
  intros j Hj. destruct (decide (j = i)) as [->|]; [done|]. apply IH. lia.
Qed.

Definition entry_of s (r : Z) : handle :=
  let ref := reference_at s r in
  let o := object_at s (ref_object ref) in (object_id o, object_kind o, ref_access ref).

Lemma find_some s t r : find_reference t s = Some r → live_reference s r ∧ token_ (reference_at s r) = t.
Proof.
  unfold find_reference. destruct (Z.eqb_spec t 0); [done|]. intros E.
  pose proof (find_loop_spec (Z.to_nat FS_REFERENCE_LIMIT) 0 t s) as H. rewrite E in H.
  unfold live_reference. change (Z.of_nat (Z.to_nat FS_REFERENCE_LIMIT)) with FS_REFERENCE_LIMIT in H. split; [|lia].
  split; [lia|]. destruct H as [_ ->]. done.
Qed.
Lemma find_live s r : fs_inv s → live_reference s r → find_reference (token_ (reference_at s r)) s = Some r.
Proof.
  intros Hi Hr. pose proof (find_loop_spec (Z.to_nat FS_REFERENCE_LIMIT) 0 (token_ (reference_at s r)) s) as H.
  unfold find_reference. destruct (Z.eqb_spec (token_ (reference_at s r)) 0); [by destruct Hr|].
  change (Z.of_nat (Z.to_nat FS_REFERENCE_LIMIT)) with FS_REFERENCE_LIMIT in H.
  destruct (find_loop _ _ _ _) as [r'|].
  - f_equal. apply (inv_unique _ Hi); [|done|by destruct H]. split; [lia|]. destruct H as [_ ->]. by destruct Hr.
  - exfalso. destruct Hr as [Hr _]. apply (H r); [lia|done].
Qed.
Lemma handle_iff s t h : fs_inv s →
  handle_of s t = Some h ↔ ∃ r, live_reference s r ∧ token_ (reference_at s r) = t ∧ h = entry_of s r.
Proof.
  intros Hi. unfold handle_of. split.
  - destruct (find_reference t s) as [r|] eqn:E; [|done]. cbn. intros [= <-]. apply find_some in E as [? ?]. by exists r.
  - intros (r & Hr & <- & ->). by rewrite (find_live s r Hi Hr).
Qed.

(** Two states with the same live references, up to a relabelling that keeps entries. *)
Lemma handles_ext s s' (P : Z → Prop) : fs_inv s → fs_inv s' →
  (∀ r, live_reference s r → ¬ P (token_ (reference_at s r)) → live_reference s' r ∧ token_ (reference_at s' r) = token_ (reference_at s r) ∧ entry_of s' r = entry_of s r) →
  (∀ r, live_reference s' r → ¬ P (token_ (reference_at s' r)) → live_reference s r ∧ token_ (reference_at s' r) = token_ (reference_at s r) ∧ entry_of s' r = entry_of s r) →
  ∀ t, ¬ P t → handle_of s' t = handle_of s t.
Proof.
  intros Hi Hi' H1 H2 t Ht. apply option_eq. intros h. rewrite !handle_iff by done. split.
  - intros (r & Hr & <- & ->). destruct (H2 r Hr Ht) as (? & E & ->). by exists r.
  - intros (r & Hr & <- & ->). destruct (H1 r Hr Ht) as (? & E & <-). by exists r.
Qed.

Lemma free_slot_spec fuel i s : i ≤ free_slot fuel i s ≤ i + Z.of_nat fuel ∧
  (free_slot fuel i s < i + Z.of_nat fuel → token_ (reference_at s (free_slot fuel i s)) = 0).
Proof.
  revert i; induction fuel as [|fuel IH]; intros i; cbn [free_slot]; [lia|].
  destruct (Z.eqb_spec (token_ (reference_at s i)) 0); [lia|]. destruct (IH (i + 1)). lia.
Qed.

Lemma object_slots_spec m id s :
  let '(o, e) := object_slots m id s in
  (0 ≤ o ≤ FS_OBJECT_LIMIT ∧ 0 ≤ e ≤ FS_OBJECT_LIMIT) ∧
  (e < FS_OBJECT_LIMIT → object_references (object_at s e) = 0) ∧
  (o < FS_OBJECT_LIMIT → live_object s o ∧ object_mount (object_at s o) = m ∧ object_id (object_at s o) = id) ∧
  (o = FS_OBJECT_LIMIT → ∀ i, live_object s i → ¬ (object_mount (object_at s i) = m ∧ object_id (object_at s i) = id)).
Proof.
  pose (P := λ (n : Z) '(o, e),
    ((0 ≤ o < n ∨ o = FS_OBJECT_LIMIT) ∧ (0 ≤ e < n ∨ e = FS_OBJECT_LIMIT)) ∧
    (e < FS_OBJECT_LIMIT → object_references (object_at s e) = 0) ∧
    (o < FS_OBJECT_LIMIT → live_object s o ∧ object_mount (object_at s o) = m ∧ object_id (object_at s o) = id) ∧
    (o = FS_OBJECT_LIMIT → ∀ i, 0 ≤ i < n → object_references (object_at s i) ≠ 0 →
       ¬ (object_mount (object_at s i) = m ∧ object_id (object_at s i) = id))).
  assert (P FS_OBJECT_LIMIT (object_slots m id s)) as H.
  { apply (for_range_inv P); [done| |].
    - unfold P, FS_OBJECT_LIMIT. split_and!; lia.
    - intros i [o e] Hi (Hr & He & Ho & Hn). cbn zeta.
      destruct (Z.eqb_spec (object_references (object_at s i)) 0) as [E0|E0].
      + unfold P. split_and!; [lia|destruct (Z.eqb_spec e FS_OBJECT_LIMIT); lia| |done|].
        * destruct (Z.eqb_spec e FS_OBJECT_LIMIT); [done|]. intros. apply He. lia.
        * intros Eo j Hj Hj0. destruct (decide (j = i)) as [->|]; [done|]. apply Hn; [done|lia|done].
      + destruct (_ && _) eqn:Em.
        * apply andb_true_iff in Em as [Em Ei]. unfold P. split_and!; [lia|lia|done| |lia].
          intros _. unfold live_object. split_and!; lia || done.
        * unfold P. split_and!; [lia|lia|done|done|]. intros Eo j Hj Hj0. destruct (decide (j = i)) as [->|].
          { intros [? ?]. apply andb_false_iff in Em. lia. } { apply Hn; [done|lia|done]. } }
  destruct (object_slots m id s) as [o e]. destruct H as (Hr & He & Ho & Hn). unfold FS_OBJECT_LIMIT in Hr.
  split_and!; [unfold FS_OBJECT_LIMIT; lia..|done|done|]. intros Eo i [Hi Hi0]. by apply Hn.
Qed.

Lemma object_at_insert i o s j refs t (k : K) : object_at (Vfs (disk s) (<[i := o]> (objects s)) refs t (ready s) (busy s) k) j =
  if decide (j = i) then o else object_at s j.
Proof.
  unfold object_at. cbn. case_decide as E; [subst; by rewrite lookup_insert_eq|by rewrite lookup_insert_ne].
Qed.
Lemma reference_at_insert i r s j objs t (k : K) :
  reference_at (Vfs (disk s) objs (<[i := r]> (references s)) t (ready s) (busy s) k) j =
  if decide (j = i) then r else reference_at s j.
Proof.
  unfold reference_at. cbn. case_decide as E; [subst; by rewrite lookup_insert_eq|by rewrite lookup_insert_ne].
Qed.

Lemma count_bound s o : 0 ≤ count_range 0 FS_REFERENCE_LIMIT (refers s o) ≤ FS_REFERENCE_LIMIT.
Proof. pose proof (count_range_bounds 0 FS_REFERENCE_LIMIT (refers s o)). unfold FS_REFERENCE_LIMIT in *. lia. Qed.

(** A new reference in the free slot [rs] to the object in slot [os]. *)
Definition attach (os rs access : Z) (o : object) (k : K) s : vfs K :=
  Vfs (disk s) (<[os := o]> (objects s)) (<[rs := Reference (next_token s) os access]> (references s))
    (wrap64 (next_token s + 1)) (ready s) (busy s) k.

Section Attach.
Context (os rs access : Z) (o : object) (k : K) (s : vfs K).
Hypothesis Hinv : fs_inv s.
Hypothesis Hmounted : mounted (disk s) = true.
Hypothesis Htoken : next_token s ≠ 0.
Hypothesis Hrs : 0 ≤ rs < FS_REFERENCE_LIMIT.
Hypothesis Hfree : token_ (reference_at s rs) = 0.
Hypothesis Hos : 0 ≤ os < FS_OBJECT_LIMIT.
Hypothesis Hrefs : object_references o = object_references (object_at s os) + 1.
Hypothesis Hmount : object_mount o = FS_MOUNT_DISK.
Hypothesis Hold : live_object s os → object_id o = object_id (object_at s os) ∧ object_kind o = object_kind (object_at s os) ∧
  ∀ id, pins k id = pins (store s) id.
Hypothesis Hnew : ¬ live_object s os → (∀ i, live_object s i → object_id (object_at s i) ≠ object_id o) ∧
  ∀ id, pins k id = pins (store s) id + (if decide (id = object_id o) then 1 else 0).

Let s' := attach os rs access o k s.

Lemma attach_reference i : reference_at s' i = if decide (i = rs) then Reference (next_token s) os access else reference_at s i.
Proof. apply reference_at_insert. Qed.
Lemma attach_object i : object_at s' i = if decide (i = os) then o else object_at s i.
Proof. apply object_at_insert. Qed.
Lemma attach_live_reference i : live_reference s' i ↔ i = rs ∨ live_reference s i.
Proof.
  unfold live_reference. rewrite attach_reference. case_decide as E; [subst|].
  - cbn. split; [by left|]. by split.
  - split; [by right|]. by intros [|].
Qed.
Lemma attach_positive : 0 < object_references o.
Proof. rewrite Hrefs, (inv_count _ Hinv os Hos). pose proof (count_bound s os). lia. Qed.
Lemma attach_live_object i : live_object s' i ↔ i = os ∨ live_object s i.
Proof.
  unfold live_object. rewrite attach_object. pose proof attach_positive. case_decide as E; [subst|].
  - split; [by left|]. intros _. split; [done|lia].
  - split; [by right|]. by intros [|].
Qed.
Lemma attach_fresh i : live_reference s i → token_ (reference_at s i) ≠ next_token s ∧ i ≠ rs.
Proof.
  intros Hi. destruct (inv_fresh _ Hinv i Hi) as [? [?|?]]; [done|]. split; [lia|]. intros ->. by destruct Hi.
Qed.

Lemma attach_ids i : live_object s i → i ≠ os → object_id (object_at s i) ≠ object_id o.
Proof.
  intros Hi Hne E. destruct (decide (object_references (object_at s os) = 0)) as [H0|H0].
  - destruct Hnew as [Hn _]; [by intros [_ ?]|]. by apply (Hn i).
  - destruct Hold as (Hid & _); [by split|]. apply Hne, (inv_ids _ Hinv); [done|by split|congruence].
Qed.

Lemma attach_count j : 0 ≤ j < FS_OBJECT_LIMIT →
  object_references (object_at s' j) = count_range 0 FS_REFERENCE_LIMIT (refers s' j).
Proof.
  intros Hj. rewrite attach_object. pose proof (inv_count _ Hinv j Hj) as Hc. case_decide as E; [subst j|].
  - rewrite Hrefs, Hc. symmetry. apply (count_range_point _ _ rs); [done| | |].
    + unfold refers. rewrite attach_reference, decide_True by done. cbn. rewrite Z.eqb_refl, (proj2 (Z.eqb_neq _ _)) by done. done.
    + unfold refers. by rewrite Hfree.
    + intros i _ Hi. unfold refers. by rewrite attach_reference, decide_False.
  - rewrite Hc. apply count_range_ext. intros i _. unfold refers. rewrite attach_reference.
    case_decide as E'; [subst i|done]. rewrite Hfree. cbn. rewrite (proj2 (Z.eqb_neq os j)) by done. by rewrite andb_false_r.
Qed.

Lemma attach_inv : fs_inv s'.
Proof.
  destruct (inv_token _ Hinv) as [Ht0 Ht1]. constructor.
  - cbn. unfold wrap64, UINT64_MAX in *. pose proof (Z.mod_pos_bound (next_token s + 1) 0x10000000000000000). lia.
  - intros i Hi. apply attach_live_reference in Hi. rewrite attach_reference. cbn [next_token s' attach]. unfold wrap64.
    destruct (decide (next_token s = UINT64_MAX)) as [->|Hn].
    { split; [|by left]. case_decide; [cbn; unfold UINT64_MAX; lia|]. destruct Hi; [done|]. by apply (inv_fresh _ Hinv). }
    unfold UINT64_MAX in *. rewrite Z.mod_small by lia. case_decide; [cbn; lia|]. destruct Hi as [|Hi]; [done|].
    pose proof (inv_fresh _ Hinv i Hi). lia.
  - intros i Hi. apply attach_live_reference in Hi. rewrite attach_reference. case_decide; [done|].
    destruct Hi; [done|]. by apply (inv_object _ Hinv).
  - intros i j Hi Hj. apply attach_live_reference in Hi, Hj. rewrite !attach_reference.
    repeat case_decide; subst; cbn; [done| | |].
    + destruct Hj as [|Hj]; [done|]. intros E. by destruct (attach_fresh j Hj).
    + destruct Hi as [|Hi]; [done|]. intros E. by destruct (attach_fresh i Hi).
    + destruct Hi, Hj; try done. by apply (inv_unique _ Hinv).
  - apply attach_count.
  - intros i Hi. apply attach_live_object in Hi. rewrite attach_object. case_decide; [done|].
    destruct Hi; [done|]. split; [|done]. by apply (inv_mount _ Hinv).
  - intros i j Hi Hj. apply attach_live_object in Hi, Hj. rewrite !attach_object.
    repeat case_decide; subst; try done.
    + destruct Hj as [|Hj]; [done|]. intros E. by destruct (attach_ids j Hj).
    + destruct Hi as [|Hi]; [done|]. intros E. by destruct (attach_ids i Hi).
    + destruct Hi, Hj; try done. by apply (inv_ids _ Hinv).
  - intros i Hi. apply attach_live_object in Hi. rewrite attach_object. cbn [store s' attach].
    destruct (decide (object_references (object_at s os) = 0)) as [H0|H0].
    + destruct Hnew as [Hn ->]; [by intros [_ ?]|]. case_decide as E.
      * rewrite (inv_unpinned _ Hinv), decide_True by done. done.
      * destruct Hi as [|Hi]; [done|]. rewrite (inv_pinned _ Hinv i Hi), decide_False by (by apply Hn). done.
    + destruct Hold as (Hid & _ & ->); [by split|]. case_decide as E.
      * rewrite Hid. apply (inv_pinned _ Hinv). by split.
      * destruct Hi as [|Hi]; [done|]. by apply (inv_pinned _ Hinv).
  - intros id Hid. cbn [store s' attach].
    assert (object_id o ≠ id) as Hne.
    { specialize (Hid os). rewrite attach_object, decide_True in Hid by done. apply Hid, attach_live_object. by left. }
    assert (∀ i, live_object s i → i ≠ os → object_id (object_at s i) ≠ id) as Hid'.
    { intros i Hi Hi'. specialize (Hid i). rewrite attach_object, decide_False in Hid by done. apply Hid, attach_live_object. by right. }
    destruct (decide (object_references (object_at s os) = 0)) as [H0|H0].
    + destruct Hnew as [Hn ->]; [by intros [_ ?]|]. rewrite decide_False by done. rewrite (inv_unpinned _ Hinv); [done|].
      intros i Hi. apply Hid'; [done|]. intros ->. by destruct Hi.
    + destruct Hold as (Ho & _ & ->); [by split|]. apply (inv_unpinned _ Hinv). intros i Hi.
      destruct (decide (i = os)) as [->|]; [by rewrite <- Ho|by apply Hid'].
Qed.

Lemma attach_handle t : handle_of s' t = if decide (t = next_token s) then Some (object_id o, object_kind o, access) else handle_of s t.
Proof.
  pose proof attach_inv as Hinv'. case_decide as Et.
  - subst t. apply handle_iff; [done|]. exists rs. rewrite attach_live_reference. unfold entry_of.
    rewrite attach_reference, decide_True by done. cbn [token_ ref_object ref_access].
    rewrite attach_object, decide_True by done. split_and!; [by left|done|done].
  - assert (∀ i, live_reference s i → entry_of s' i = entry_of s i) as He.
    { intros i Hi. destruct (attach_fresh i Hi) as [_ Hne]. unfold entry_of. rewrite attach_reference, decide_False by done.
      rewrite attach_object. case_decide as E; [|done]. rewrite E.
      destruct (decide (object_references (object_at s os) = 0)) as [H0|H0]; [|by destruct Hold as (-> & -> & _); [by split|]].
      exfalso. rewrite (inv_count _ Hinv os Hos) in H0. pose proof (proj1 (count_range_zero _ _ _) H0 i (proj1 Hi)) as Hz.
      unfold refers in Hz. rewrite E, Z.eqb_refl, andb_true_r in Hz. destruct Hi as [_ Hi]. apply negb_false_iff in Hz. lia. }
    apply (handles_ext s s' (λ t, t = next_token s)); [done|done| | |done].
    + intros i Hi Hne. rewrite attach_live_reference, attach_reference, decide_False by apply (attach_fresh i Hi).
      split_and!; [by right|done|by apply He].
    + intros i Hi Hne. apply attach_live_reference in Hi as [->|Hi].
      * exfalso. apply Hne. by rewrite attach_reference, decide_True.
      * rewrite attach_reference, decide_False by apply (attach_fresh i Hi). split_and!; [done|done|by apply He].
Qed.
End Attach.

#[local] Opaque count_range find_reference.

(** The outcome of an operation that may create a reference to [h]. *)
Definition may_add (h : handle) (e : fs_error) (t : Z) s s' : Prop :=
  fs_inv s' ∧ disk s' = disk s ∧ ready s' = ready s ∧ busy s' = busy s ∧
  if decide (e = FS_OK)
  then t ≠ 0 ∧ handle_of s t = None ∧ (∀ u, handle_of s' u = if decide (u = t) then Some h else handle_of s u)
  else t = 0 ∧ ∀ u, handle_of s' u = handle_of s u.

Lemma fresh_handle s : fs_inv s → next_token s ≠ 0 → handle_of s (next_token s) = None.
Proof.
  intros Hi Ht. destruct (handle_of s (next_token s)) as [h|] eqn:E; [|done]. exfalso.
  apply handle_iff in E as (r & Hr & Er & _); [|done]. destruct (inv_fresh _ Hi r Hr) as [? [?|?]]; [done|lia].
Qed.

Lemma may_add_error h e s : fs_inv s → e ≠ FS_OK → may_add h e 0 s s.
Proof. intros. unfold may_add. rewrite decide_False by done. by split_and!. Qed.

Lemma retain_quiet i s : fst (op_retain ops i (store s)) ≠ FS_OK → quiet s (set_store (snd (op_retain ops i (store s))) s).
Proof.
  intros He. eexists. split; [done|]. intros id. rewrite pins_retain, decide_False by (intros [? _]; done). lia.
Qed.

Lemma new_reference_spec l access s : fs_inv s → mounted (disk s) = true → loc_mount l = FS_MOUNT_DISK →
  let '((e, t), s') := new_reference ops l access s in
  may_add (node_id (here l), node_kind (here l), access) e t s s' ∧
  (e = FS_OK → node_kind (here l) = FS_DIRECTORY → Z.land access FS_WRITE = 0).
Proof.
  intros Hi Hm Hl. unfold new_reference. set (n := here l). cbn zeta.
  destruct ((node_kind n =? FS_DIRECTORY) && _) eqn:Ed; [by split; [apply may_add_error|]|].
  destruct (bread_only (backend (disk s)) && _) eqn:Er; [by split; [apply may_add_error|]|].
  destruct (Z.eqb_spec (next_token s) 0) as [|Htok]; [by split; [apply may_add_error|]|].
  assert (node_kind n = FS_DIRECTORY → Z.land access FS_WRITE = 0) as Hdir.
  { intros E. rewrite E in Ed. cbn in Ed. apply negb_false_iff in Ed. lia. }
  pose proof (free_slot_spec (Z.to_nat FS_REFERENCE_LIMIT) 0 s) as [Hrs Hrs0]. set (rs := free_slot _ 0 s) in *.
  change (0 + Z.of_nat (Z.to_nat FS_REFERENCE_LIMIT)) with FS_REFERENCE_LIMIT in *. clearbody rs.
  pose proof (object_slots_spec (loc_mount l) (node_id n) s) as Hos. destruct (object_slots _ _ s) as [os em].
  destruct Hos as (Hran & Hem & Hfound & Hnone).
  destruct ((rs =? FS_REFERENCE_LIMIT) || _) eqn:Efull; [by split; [apply may_add_error|]|].
  apply orb_false_iff in Efull as [Ers Eos]. apply Z.eqb_neq in Ers. specialize (Hrs0 ltac:(lia)).
  destruct (Z.eqb_spec os FS_OBJECT_LIMIT) as [Eo|Eo]; cbn [andb] in Eos.
  - apply Z.eqb_neq in Eos. specialize (Hem ltac:(lia)). specialize (Hnone Eo).
    destruct (op_retain ops (node_id n) (store s)) as [e k] eqn:Ek.
    pose proof (λ id, pins_retain (node_id n) (store s) id) as Hp. rewrite Ek in Hp. cbn [fst snd] in Hp.
    destruct (decide (e = FS_OK)) as [->|He].
    2: { rewrite bool_decide_eq_true_2 by done. pose proof (retain_quiet (node_id n) s) as Hq. rewrite Ek in Hq. cbn in Hq.
         destruct (quiet_inv _ _ (Hq He) Hi) as [Hi' Hh]. split; [|done]. unfold may_add. rewrite decide_False by done.
         split_and!; done. }
    rewrite bool_decide_eq_false_2 by (intros E; done). cbn [object_id object_references object_mount object_kind].
    change (wrap32 (0 + 1)) with 1. set (o := Object (node_id n) 1 (loc_mount l) (node_kind n)).
    change (may_add (node_id n, node_kind n, access) FS_OK (next_token s) s (attach em rs access o k s) ∧
      (FS_OK = FS_OK → node_kind n = FS_DIRECTORY → Z.land access FS_WRITE = 0)).
    assert (¬ live_object s em) as Hdead by (by intros [_ ?]).
    assert (¬ live_object s em → (∀ i, live_object s i → object_id (object_at s i) ≠ object_id o) ∧
      ∀ id, pins k id = pins (store s) id + (if decide (id = object_id o) then 1 else 0)) as Hnew.
    { intros _. split.
      - intros i Hli E. apply (Hnone i Hli). split; [|done]. rewrite Hl. by apply (inv_mount _ Hi).
      - intros id. rewrite Hp. cbn [object_id o]. f_equal. by repeat case_decide; tauto. }
    assert (live_object s em → object_id o = object_id (object_at s em) ∧ object_kind o = object_kind (object_at s em) ∧
      ∀ id, pins k id = pins (store s) id) as Hold by done.
    split; [|done]. unfold may_add. rewrite decide_True by done. split; [|split_and!; try done].
    + apply attach_inv; try done; try lia. cbn. lia.
    + by apply fresh_handle.
    + intros u. rewrite attach_handle by (first [done | lia | cbn; lia]). done.
  - specialize (Hfound ltac:(lia)) as (Hlive & Hom & Hoi).
    destruct (negb (object_kind (object_at s os) =? node_kind n)) eqn:Ekind.
    { rewrite bool_decide_eq_true_2 by done. by split; [apply may_add_error|]. }
    apply negb_false_iff, Z.eqb_eq in Ekind.
    rewrite bool_decide_eq_false_2 by (intros E; done). cbn [store set_store].
    assert (object_references (object_at s os) = count_range 0 FS_REFERENCE_LIMIT (refers s os)) as Hc by (apply (inv_count _ Hi); lia).
    pose proof (count_bound s os) as Hb. rewrite wrap32_small by (unfold FS_REFERENCE_LIMIT, UINT32_MAX in *; lia).
    set (o := Object _ _ _ _). change (may_add (node_id n, node_kind n, access) FS_OK (next_token s) s (attach os rs access o (store s) s) ∧
      (FS_OK = FS_OK → node_kind n = FS_DIRECTORY → Z.land access FS_WRITE = 0)).
    assert (object_id o = node_id n ∧ object_kind o = node_kind n ∧ object_mount o = FS_MOUNT_DISK ∧
      object_references o = object_references (object_at s os) + 1) as (Ho1 & Ho2 & Ho3 & Ho4).
    { cbn. rewrite Hom. by split_and!. }
    clearbody o. clear Hc Hb Er Hem Hnone.
    assert (fs_inv (attach os rs access o (store s) s) ∧ ∀ t, handle_of (attach os rs access o (store s) s) t =
      if decide (t = next_token s) then Some (object_id o, object_kind o, access) else handle_of s t) as [Hinv' Hh'].
    { split; [apply attach_inv|intros t; apply attach_handle]; 
      first [assumption | split; lia | lia | intros _; by rewrite Ho1, Ho2, Hoi, Ekind | intros ?; contradiction]. }
    split; [|exact (λ _, Hdir)]. unfold may_add. rewrite decide_True by done.
    split_and!; [exact Hinv'|done|done|done|done|by apply fresh_handle|]. intros u. by rewrite Hh', Ho1, Ho2.
Qed.

(** Dropping the reference in slot [r]. *)
Definition detach (r : Z) (o : object) (k : K) s : vfs K :=
  Vfs (disk s) (<[ref_object (reference_at s r) := o]> (objects s)) (<[r := no_reference]> (references s))
    (next_token s) (ready s) (busy s) k.

Section Detach.
Context (r : Z) (o : object) (k : K) (s : vfs K).
Hypothesis Hinv : fs_inv s.
Hypothesis Hr : live_reference s r.
Let os := ref_object (reference_at s r).
Let old := object_at s os.
Hypothesis Hrefs : object_references o = object_references old - 1.
Hypothesis Hkeep : object_references o ≠ 0 →
  object_id o = object_id old ∧ object_kind o = object_kind old ∧ object_mount o = object_mount old.
Hypothesis Hpins : ∀ id, pins k id =
  pins (store s) id - (if decide (object_references o = 0 ∧ id = object_id old) then 1 else 0).

Let s' := detach r o k s.

Lemma detach_reference i : reference_at s' i = if decide (i = r) then no_reference else reference_at s i.
Proof. apply reference_at_insert. Qed.
Lemma detach_object i : object_at s' i = if decide (i = os) then o else object_at s i.
Proof. apply object_at_insert. Qed.
Lemma detach_slot : 0 ≤ os < FS_OBJECT_LIMIT.
Proof. by apply (inv_object _ Hinv). Qed.
Lemma detach_refers : refers s os r = true.
Proof. unfold refers. destruct Hr as [_ Ht]. rewrite (proj2 (Z.eqb_neq _ _)) by done. apply Z.eqb_refl. Qed.
Lemma detach_count : object_references old = count_range 0 FS_REFERENCE_LIMIT (refers s' os) + 1.
Proof.
  unfold old. rewrite (inv_count _ Hinv os detach_slot).
  apply (count_range_point _ _ r); [apply Hr|apply detach_refers| |].
  - unfold refers. by rewrite detach_reference, decide_True.
  - intros i _ Hi. unfold refers. by rewrite detach_reference, decide_False.
Qed.
Lemma detach_old : live_object s os.
Proof. split; [apply detach_slot|]. fold old. rewrite detach_count. pose proof (count_bound s' os). lia. Qed.
Lemma detach_live_reference i : live_reference s' i ↔ i ≠ r ∧ live_reference s i.
Proof.
  unfold live_reference. rewrite detach_reference. destruct (decide (i = r)) as [E|E]; cbn [token_ no_reference].
  - split; [by intros [_ ?]|by intros [? _]].
  - split; [by intros [? ?]|by intros [_ ?]].
Qed.
Lemma detach_live_object i : live_object s' i ↔ live_object s i ∧ (i = os → object_references o ≠ 0).
Proof.
  pose proof detach_old as Hold. unfold live_object. rewrite detach_object.
  destruct (decide (i = os)) as [->|E]; [|naive_solver]. destruct Hold as [? ?].
  split; [by intros [? ?]|]. intros [[? ?] Hne]. split; [done|by apply Hne].
Qed.
Lemma detach_same i : live_object s' i →
  object_id (object_at s' i) = object_id (object_at s i) ∧ object_kind (object_at s' i) = object_kind (object_at s i) ∧
  object_mount (object_at s' i) = object_mount (object_at s i).
Proof.
  intros [Hi Hne]%detach_live_object. rewrite detach_object.
  destruct (decide (i = os)) as [->|E]; [|done]. by apply Hkeep, Hne.
Qed.
Lemma detach_entry i : live_reference s' i → entry_of s' i = entry_of s i.
Proof.
  intros Hi. pose proof Hi as [Hne Hi']%detach_live_reference. unfold entry_of.
  rewrite detach_reference, decide_False by done. rewrite detach_object.
  destruct (decide (ref_object (reference_at s i) = os)) as [E|E]; [|done]. rewrite E.
  destruct Hkeep as (-> & -> & _); [|done]. intros H0.
  rewrite Hrefs, detach_count in H0.
  assert (count_range 0 FS_REFERENCE_LIMIT (refers s' os) = 0) as Hz by lia.
  pose proof (proj1 (count_range_zero _ _ _) Hz i (proj1 Hi)) as Hc. unfold refers in Hc.
  rewrite detach_reference, decide_False in Hc by done. rewrite E, Z.eqb_refl, andb_true_r in Hc.
  destruct Hi' as [_ Hi']. apply negb_false_iff in Hc. lia.
Qed.

Lemma detach_inv : fs_inv s'.
Proof.
  constructor.
  - apply (inv_token _ Hinv).
  - intros i [Hne Hi]%detach_live_reference. rewrite detach_reference, decide_False by done. by apply (inv_fresh _ Hinv).
  - intros i [Hne Hi]%detach_live_reference. rewrite detach_reference, decide_False by done. by apply (inv_object _ Hinv).
  - intros i j [Hne Hi]%detach_live_reference [Hne' Hj]%detach_live_reference.
    rewrite !detach_reference, !decide_False by done. by apply (inv_unique _ Hinv).
  - intros j Hj. rewrite detach_object. destruct (decide (j = os)) as [->|E].
    + rewrite Hrefs, detach_count. lia.
    + rewrite (inv_count _ Hinv j Hj). apply count_range_ext. intros i _. unfold refers. rewrite detach_reference.
      destruct (decide (i = r)) as [->|]; [|done]. cbn. fold os. rewrite (proj2 (Z.eqb_neq os j)) by done. by rewrite andb_false_r.
  - intros i Hi. destruct (detach_same i Hi) as (_ & _ & ->). apply detach_live_object in Hi as [Hi _].
    by apply (inv_mount _ Hinv).
  - intros i j Hi Hj. destruct (detach_same i Hi) as (-> & _), (detach_same j Hj) as (-> & _).
    apply detach_live_object in Hi as [Hi _], Hj as [Hj _]. by apply (inv_ids _ Hinv).
  - intros i Hi. destruct (detach_same i Hi) as (-> & _). apply detach_live_object in Hi as [Hi Hne]. cbn [store s' detach].
    rewrite Hpins, (inv_pinned _ Hinv i Hi), decide_False; [done|]. intros [H0 Hid].
    apply Hne; [|done]. apply (inv_ids _ Hinv); [done|apply detach_old|done].
  - intros id Hid. cbn [store s' detach]. rewrite Hpins. destruct (decide _) as [[_ ->]|E].
    + unfold old. rewrite (inv_pinned _ Hinv os detach_old). done.
    + rewrite (inv_unpinned _ Hinv); [done|]. intros i Hi. destruct (decide (live_object s' i)) as [Hi'|Hi'].
      * destruct (detach_same i Hi') as (<- & _). by apply Hid.
      * intros Hid'. apply E. rewrite detach_live_object in Hi'. destruct (decide (i = os)) as [->|]; [|naive_solver].
        split; [|done]. destruct (decide (object_references o = 0)); [done|naive_solver].
Qed.

Lemma detach_handle t : handle_of s' t = if decide (t = token_ (reference_at s r)) then None else handle_of s t.
Proof.
  pose proof detach_inv as Hinv'. destruct (decide (t = token_ (reference_at s r))) as [->|Et].
  - destruct (handle_of s' _) as [h|] eqn:E; [|done]. exfalso.
    apply handle_iff in E as (i & Hi & Ei & _); [|done]. apply detach_live_reference in Hi as [Hne Hi].
    rewrite detach_reference, decide_False in Ei by done. by apply Hne, (inv_unique _ Hinv).
  - apply (handles_ext s s' (λ u, u = token_ (reference_at s r))); [done|done| | |done].
    + intros i Hi Hne. assert (i ≠ r) as Hir by (by intros ->).
      assert (live_reference s' i) as Hi' by (by apply detach_live_reference).
      rewrite detach_reference, decide_False by done. split_and!; [done|done|by apply detach_entry].
    + intros i Hi _. pose proof Hi as [Hir Hi']%detach_live_reference.
      rewrite detach_reference, decide_False by done. split_and!; [done|done|by apply detach_entry].
Qed.
End Detach.

#[global] Instance live_object_dec s i : Decision (live_object s i).
Proof. unfold live_object. apply _. Defined.

(** Closing succeeds exactly on live tokens and removes exactly that one. *)
Lemma close_reference_spec t s : fs_inv s →
  let '(e, s') := close_reference ops t s in
  fs_inv s' ∧ disk s' = disk s ∧ ready s' = ready s ∧ busy s' = busy s ∧
  match handle_of s t with
  | Some _ => e = FS_OK ∧ ∀ u, handle_of s' u = if decide (u = t) then None else handle_of s u
  | None => e = FS_INVALID ∧ s' = s
  end.
Proof.
  intros Hi. unfold close_reference, handle_of at 1. destruct (find_reference t s) as [r|] eqn:Ef; cbn [mbind option_bind]; [|done].
  apply find_some in Ef as [Hr <-]. set (old := object_at s (ref_object (reference_at s r))).
  assert (live_object s (ref_object (reference_at s r))) as Hlive by by apply detach_old with (k := store s) (o := no_object).
  assert (1 ≤ object_references old ≤ FS_REFERENCE_LIMIT) as Hb.
  { destruct Hlive as [Hrange Hne]. pose proof (inv_count _ Hi _ Hrange) as Hc. fold old in Hc, Hne.
    pose proof (count_bound s (ref_object (reference_at s r))). lia. }
  rewrite wrap32_small by (unfold FS_REFERENCE_LIMIT, UINT32_MAX in *; lia).
  set (n := object_references old - 1) in *.
  set (o := if n =? 0 then no_object else Object (object_id old) n (object_mount old) (object_kind old)).
  set (k := if n =? 0 then op_release ops (object_id old) (store s) else store s).
  match goal with |- fs_inv ?st ∧ _ => replace st with (detach r o k s) end.
  2: { unfold k. by destruct (n =? 0). }
  assert (object_references o = n) as Ho by (unfold o; destruct (Z.eqb_spec n 0); cbn; lia).
  assert (∀ id, pins k id = pins (store s) id - (if decide (object_references o = 0 ∧ id = object_id old) then 1 else 0)) as Hp.
  { intros id. rewrite Ho. unfold k. destruct (Z.eqb_spec n 0) as [E|E].
    - rewrite pins_release by (unfold old; rewrite (inv_pinned _ Hi _ Hlive); lia). f_equal. by repeat case_decide; tauto.
    - rewrite decide_False by tauto. lia. }
  assert (object_references o ≠ 0 → object_id o = object_id old ∧ object_kind o = object_kind old ∧ object_mount o = object_mount old) as Hkeep.
  { rewrite Ho. intros Hn. unfold o. by rewrite (proj2 (Z.eqb_neq _ _)). }
  split; [by apply detach_inv|]. split_and!; try done. intros u. by apply detach_handle.
Qed.
End Invariant.

(** ** The contract towards callers

    The abstract state is the partial map from tokens to what they stand for. *)
Module FsSpec.
Inductive call :=
| Open (c : option fs_context) (path : option (list Z)) (access : Z) (out : bool)
| Duplicate (t : Z) (out : bool)
| Close (t : Z)
| Stat (t : Z) (out : bool)
| StatPath (c : option fs_context) (path : option (list Z)) (out : bool)
| Read (t offset : Z) (buffer : option (list Z)) (bytes : Z)
| Write (t offset : Z) (buffer : option (list Z)) (bytes : Z)
| Readdir (t : Z) (cursor : option Z) (out : bool)
| Truncate (t size : Z)
| Flush (t : Z)
| Replace (c : option fs_context) (path data : option (list Z)) (bytes : Z)
| Remove (c : option fs_context) (path : option (list Z))
| Mkdir (c : option fs_context) (path : option (list Z))
| Initialize (c : option fs_context)
| Clone (source destination : option fs_context)
| Chdir (c : option fs_context) (path : option (list Z))
| Destroy (c : option fs_context)
| Unmount.

Definition handles : Type := Z → option handle.
Definition adds (t : Z) (h : handle) (H H' : handles) : Prop :=
  t ≠ 0 ∧ H t = None ∧ ∀ u, H' u = if decide (u = t) then Some h else H u.
Definition removes (t : Z) (H H' : handles) : Prop :=
  is_Some (H t) ∧ ∀ u, H' u = if decide (u = t) then None else H u.
Definition same (H H' : handles) : Prop := ∀ u, H' u = H u.
(** The caller holds [t] for an object of this kind with this access bit. *)
Definition holds_for (t kind bit : Z) (H : handles) : Prop :=
  ∃ id a, H t = Some (id, kind, a) ∧ Z.land a bit ≠ 0.

(** [outcome c e t H H']: call [c] may return error [e] and token [t], and turn [H] into [H']. *)
Definition outcome (c : call) (e : fs_error) (t : Z) (H H' : handles) : Prop :=
  if decide (e = FS_OK) then
    match c with
    | Open _ _ access _ => ∃ id kind, adds t (id, kind, access) H H' ∧ (kind = FS_DIRECTORY → Z.land access FS_WRITE = 0)
    | Duplicate u _ => ∃ h, H u = Some h ∧ adds t h H H'
    | Close u => removes u H H'
    | Stat u _ | Flush u => is_Some (H u) ∧ same H H'
    | Read u _ _ _ => holds_for u FS_FILE FS_READ H ∧ same H H'
    | Write u _ _ _ | Truncate u _ => holds_for u FS_FILE FS_WRITE H ∧ same H H'
    | Readdir u _ _ => holds_for u FS_DIRECTORY FS_READ H ∧ same H H'
    | StatPath _ _ _ | Replace _ _ _ _ | Remove _ _ | Mkdir _ _ => same H H'
    | Initialize _ => ∃ id kind, adds t (id, kind, FS_READ) H H'
    | Clone (Some src) _ =>
        (directory_ src = 0 ∧ t = 0 ∧ same H H') ∨ (∃ id kind, adds t (id, kind, FS_READ) H H')
    | Chdir (Some c) _ => ∃ id K', adds t (id, FS_DIRECTORY, FS_READ) H K' ∧ removes (directory_ c) K' H'
    | Destroy (Some c) => if decide (directory_ c = 0) then same H H' else removes (directory_ c) H H'
    | Unmount => (∀ u, H u = None) ∧ ∀ u, H' u = None
    | Clone None _ | Chdir None _ | Destroy None => False
    end
  else same H H'.

(** Runs: the results of a sequence of calls. *)
Inductive run : list call → handles → list (fs_error * Z) → handles → Prop :=
| run_nil H H' : same H H' → run [] H [] H'
| run_cons c cs e t rs H H' H'' : outcome c e t H H' → run cs H' rs H'' → run (c :: cs) H ((e, t) :: rs) H''.
End FsSpec.
Import FsSpec.

Section Contract.
Context {K : Type} (ops : fs_operations K) `{!BackendLaw ops}.
Implicit Types (s : vfs K).

Definition directory_of (c : option fs_context) : Z := match c with Some c => directory_ c | None => 0 end.
Definition exec (c : call) s : (fs_error * Z) * vfs K :=
  match c with
  | Open c p a out => fs_open ops c p a out s
  | Duplicate t out => fs_duplicate ops t out s
  | Close t => let '(e, s) := fs_close ops t s in ((e, 0), s)
  | Stat t out => let '((e, _), s) := fs_stat ops t out s in ((e, 0), s)
  | StatPath c p out => let '((e, _), s) := fs_stat_path ops c p out s in ((e, 0), s)
  | Read t o b n => let '((r, _), s) := fs_read ops t o b n s in ((io_error r, 0), s)
  | Write t o b n => let '(r, s) := fs_write ops t o b n s in ((io_error r, 0), s)
  | Readdir t cur out => let '((e, _), s) := fs_readdir ops t cur out s in ((e, 0), s)
  | Truncate t n => let '(e, s) := fs_truncate ops t n s in ((e, 0), s)
  | Flush t => let '(e, s) := fs_flush ops t s in ((e, 0), s)
  | Replace c p d n => let '(e, s) := fs_replace ops c p d n s in ((e, 0), s)
  | Remove c p => let '(e, s) := fs_remove ops c p s in ((e, 0), s)
  | Mkdir c p => let '(e, s) := fs_mkdir ops c p s in ((e, 0), s)
  | Initialize c => let '((e, c), s) := fs_context_initialize ops c s in ((e, directory_of c), s)
  | Clone a b => let '((e, c), s) := fs_context_clone ops a b s in ((e, directory_of c), s)
  | Chdir c p => let '((e, c), s) := fs_context_chdir ops c p s in ((e, directory_of c), s)
  | Destroy c => let '((e, c), s) := fs_context_destroy ops c s in ((e, directory_of c), s)
  | Unmount => let '(e, s) := fs_unmount_disk ops s in ((e, 0), s)
  end.

(** What holds after a call whatever its result. *)
Definition settled s s' : Prop := fs_inv ops s' ∧ ready s' = ready s ∧ busy s' = busy s.

Lemma handle_busy b s u : handle_of (set_busy b s) u = handle_of s u.
Proof. done. Qed.

(** The bracket: a body that settles from the locked state settles the call. *)
Lemma locked_spec {A} (refused : fs_error → A) body s (P : A → vfs K → Prop) :
  fs_inv ops s →
  (∀ e, e ≠ FS_OK → P (refused e) s) →
  (∀ a s', busy s = false → fs_inv ops (set_busy true s) → body (set_busy true s) = (a, s') →
     settled (set_busy true s) s' ∧ P a (leave s')) →
  let '(a, s') := locked refused body s in settled s s' ∧ P a s'.
Proof.
  intros Hi Href Hbody. unfold locked, enter. destruct (ready s) eqn:Er; cbn [negb].
  2: { rewrite (bool_decide_eq_false_2 (FS_UNAVAILABLE = FS_OK)), bool_decide_eq_true_2 by done.
       split; [by split_and!|by apply Href]. }
  destruct (busy s) eqn:Eb.
  { rewrite (bool_decide_eq_false_2 (FS_BUSY = FS_OK)), bool_decide_eq_true_2 by done.
    split; [by split_and!|by apply Href]. }
  rewrite (bool_decide_eq_true_2 (FS_OK = FS_OK)), bool_decide_eq_false_2 by (done || by intros E).
  destruct (body (set_busy true s)) as [a s'] eqn:E.
  destruct (Hbody a s' eq_refl ltac:(by apply busy_inv) eq_refl) as [(Hi' & Hr' & _) HP].
  split; [|done]. split_and!; [by apply busy_inv|exact Hr'|done].
Qed.

Lemma quiet_settled s s' : fs_inv ops s → quiet ops s s' → settled s s' ∧ same (handle_of s) (handle_of s').
Proof.
  intros Hi Hq. destruct (quiet_inv ops s s' Hq Hi) as [Hi' Hh]. destruct Hq as (k & -> & _).
  split; [by split_and!|]. intros u. done.
Qed.

Definition good_call (c : call) s : Prop :=
  let '((e, t), s') := exec c s in settled s s' ∧ outcome c e t (handle_of s) (handle_of s').

Lemma outcome_error c e t (H H' : handles) : e ≠ FS_OK → same H H' → outcome c e t H H'.
Proof. intros He Hs. unfold outcome. by rewrite decide_False. Qed.
Lemma outcome_refused c e t s : e ≠ FS_OK → outcome c e t (handle_of s) (handle_of s).
Proof. intros He. by apply outcome_error. Qed.
Lemma settled_refl s : fs_inv ops s → settled s s.
Proof. intros. unfold settled. by split_and!. Qed.

(** A call whose body, on a live token, only consults the backend. *)
Lemma token_call {A} (c : call) (err : A → fs_error) (refused : fs_error → A) body s :
  (∀ e, err (refused e) = e) →
  (∀ s a s', body s = (a, s') → quiet ops s s' ∧
     (err a = FS_OK → outcome c FS_OK 0 (handle_of s) (handle_of s))) →
  fs_inv ops s →
  let '(a, s') := locked refused body s in
  settled s s' ∧ outcome c (err a) 0 (handle_of s) (handle_of s').
Proof.
  intros Herr Hbody Hi. apply (locked_spec refused body s (λ a s', outcome c (err a) 0 (handle_of s) (handle_of s'))); [done| |].
  - intros e He. rewrite Herr. by apply outcome_refused.
  - intros a s' Hb Hi' E. destruct (Hbody _ _ _ E) as [Hq Hok]. destruct (quiet_settled _ _ Hi' Hq) as [Hs Hh].
    split; [done|]. destruct Hq as (k & -> & _). destruct (decide (err a = FS_OK)) as [Ea|Ea].
    + rewrite Ea. by apply Hok.
    + by apply outcome_error.
Qed.

Lemma handle_found s t r : find_reference t s = Some r → handle_of s t = Some (entry_of s r).
Proof. intros E. unfold handle_of. by rewrite E. Qed.
Lemma write_quiet f i o d b s : op_write ops = Some f → quiet ops s (set_store (snd (f i o d b (store s))) s).
Proof. intros E. eexists. split; [done|]. intros id. by apply pins_write. Qed.
Lemma read_quiet i o d b s : quiet ops s (set_store (snd (op_read ops i o d b (store s))) s).
Proof. eexists. split; [done|]. intros id. apply pins_read. Qed.

(** Use [token_call] on the locked body in the goal; what is left is the body. *)
Ltac token_call c err :=
  match goal with
  | |- context [locked ?R ?B ?s] =>
      let Hc := fresh in
      pose proof (token_call c err R B s ltac:(done)) as Hc;
      let r := fresh in destruct (locked R B s) as [r ?];
      repeat match goal with p : (_ * _)%type |- _ => destruct p end;
      apply Hc; [clear|assumption]; intros s a s' E
  end.
Ltac refused := split; [by apply settled_refl|by apply outcome_error].
(** The outcome of a call on a live token. *)
Ltac on_handle := intros; unfold outcome; rewrite decide_True by done; split; [|done].

Lemma stat_good t out s : fs_inv ops s → good_call (Stat t out) s.
Proof.
  intros Hi. unfold good_call, exec, fs_stat. destruct out; cbn [negb]; [|refused]. token_call (Stat t true) (@fst fs_error fs_information).
  destruct (find_reference t s) as [r|] eqn:Ef; [|by injection E as <- <-].
  cbn zeta in E. pose proof (stat_quiet ops (object_id (object_at s (ref_object (reference_at s r)))) s) as Hq.
  destruct (op_stat ops _ (store s)) as [[e n] k]. injection E as <- <-. split; [done|]. on_handle.
  eexists. by apply handle_found.
Qed.

Lemma flush_good t s : fs_inv ops s → good_call (Flush t) s.
Proof.
  intros Hi. unfold good_call, exec, fs_flush. token_call (Flush t) (@id fs_error).
  destruct (find_reference t s) as [r|] eqn:Ef; [|by injection E as <- <-].
  assert (FS_OK = FS_OK → outcome (Flush t) FS_OK 0 (handle_of s) (handle_of s)) as Ho.
  { on_handle. eexists. by apply handle_found. }
  destruct (op_flush ops) as [f|] eqn:Eop; [|injection E as <- <-; split; [reflexivity|by intros; apply Ho]].
  pose proof (pins_flush f (store s)) as Hp. destruct (f (store s)) as [e k]. injection E as <- <-.
  split; [|by intros; apply Ho]. exists k. split; [done|]. intros id. by apply Hp.
Qed.

Lemma truncate_good t n s : fs_inv ops s → good_call (Truncate t n) s.
Proof.
  intros Hi. unfold good_call, exec, fs_truncate. token_call (Truncate t n) (@id fs_error).
  destruct (find_reference t s) as [r|] eqn:Ef; [|by injection E as <- <-].
  destruct (Z.eqb_spec (Z.land (ref_access (reference_at s r)) FS_WRITE) 0) as [|Ha]; [by injection E as <- <-|].
  destruct (Z.eqb_spec (object_kind (object_at s (ref_object (reference_at s r)))) FS_FILE) as [Hk|]; cbn [negb] in E;
    [|by injection E as <- <-].
  destruct (bread_only _); [by injection E as <- <-|].
  destruct (op_truncate ops) as [f|] eqn:Eop; [|by injection E as <- <-].
  pose proof (pins_truncate f (object_id (object_at s (ref_object (reference_at s r)))) n (store s)) as Hp.
  destruct (f _ n (store s)) as [e k]. injection E as <- <-. split.
  - exists k. split; [done|]. intros id. by apply Hp.
  - on_handle. eexists _, _. split; [|exact Ha]. rewrite (handle_found s t r Ef). unfold entry_of. by rewrite Hk.
Qed.

#[local] Opaque upcase_entry fs_name_check.
Lemma readdir_good t cur out s : fs_inv ops s → good_call (Readdir t cur out) s.
Proof.
  intros Hi. unfold good_call, exec, fs_readdir. destruct cur as [cur|]; [|refused]. destruct out; cbn [negb]; [|refused].
  token_call (Readdir t (Some cur) true) (@fst fs_error (Z * fs_entry)).
  destruct (find_reference t s) as [r|] eqn:Ef; [|by injection E as <- <-].
  destruct (Z.eqb_spec (Z.land (ref_access (reference_at s r)) FS_READ) 0) as [|Ha]; [by injection E as <- <-|].
  destruct (Z.eqb_spec (object_kind (object_at s (ref_object (reference_at s r)))) FS_DIRECTORY) as [Hk|]; cbn [negb] in E;
    [|by injection E as <- <-].
  pose proof (pins_readdir (object_id (object_at s (ref_object (reference_at s r)))) cur (store s)) as Hp.
  destruct (op_readdir ops _ cur (store s)) as [[e [en nx]] k]. cbn [snd] in Hp.
  assert (quiet ops s (set_store k s)) as Hq by (exists k; split; [done|]; exact Hp).
  destruct (bool_decide _); [injection E as <- <-; split; [done|]|].
  2: match type of E with (if ?b then _ else _) = _ => destruct b end; injection E as <- <-; (split; [done|]).
  all: on_handle; eexists _, _; (split; [|exact Ha]); rewrite (handle_found s t r Ef); unfold entry_of; by rewrite Hk.
Qed.

(** Reading and writing. *)
Lemma io_good t o b n (w : bool) s : fs_inv ops s →
  let '((r, _), s') := io ops t o b n w s in
  settled s s' ∧ outcome (if w then Write t o b n else Read t o b n) (io_error r) 0 (handle_of s) (handle_of s').
Proof.
  intros Hi. unfold io. destruct (negb (n =? 0) && _) eqn:En; [destruct w; refused|]. destruct (n >? _); [destruct w; refused|].
  token_call (if w then Write t o b n else Read t o b n) (λ a : fs_io_result * option (list Z), io_error (fst a)).
  destruct (find_reference t s) as [r|] eqn:Ef; [|by injection E as <- <-].
  set (ref := reference_at s r) in *. set (ob := object_at s (ref_object ref)) in *.
  destruct (Z.eqb_spec (Z.land (ref_access ref) (if w then FS_WRITE else FS_READ)) 0) as [|Ha]; [by injection E as <- <-|].
  destruct (Z.eqb_spec (object_kind ob) FS_FILE) as [Hk|]; cbn [negb] in E; [|by injection E as <- <-].
  assert (outcome (if w then Write t o b n else Read t o b n) FS_OK 0 (handle_of s) (handle_of s)) as Ho.
  { unfold outcome. rewrite decide_True by done. assert (holds_for t FS_FILE (if w then FS_WRITE else FS_READ) (handle_of s)) as Hf.
    { eexists _, _. split; [|exact Ha]. rewrite (handle_found s t r Ef). unfold entry_of. fold ref. fold ob. by rewrite Hk. }
    by destruct w. }
  destruct (w && _); [by injection E as <- <-|]. destruct b as [data|]; [|by injection E as <- <-].
  destruct (n =? 0); [by injection E as <- <-|].
  destruct w.
  - destruct (op_write ops) as [f|] eqn:Eop.
    + pose proof (write_quiet f (object_id ob) o data n s Eop) as Hq. destruct (f (object_id ob) o data n (store s)) as [res k].
      by injection E as <- <-.
    + injection E as <- <-. split; [|done]. exists (store s). done.
  - pose proof (read_quiet (object_id ob) o data n s) as Hq. destruct (op_read ops (object_id ob) o data n (store s)) as [[res d] k].
    by injection E as <- <-.
Qed.
Lemma read_good t o b n s : fs_inv ops s → good_call (Read t o b n) s.
Proof.
  intros Hi. pose proof (io_good t o b n false s Hi) as H. unfold good_call, exec, fs_read.
  by destruct (io ops t o b n false s) as [[r d] s'].
Qed.
Lemma write_good t o b n s : fs_inv ops s → good_call (Write t o b n) s.
Proof.
  intros Hi. pose proof (io_good t o b n true s Hi) as H. unfold good_call, exec, fs_write.
  by destruct (io ops t o b n true s) as [[r d] s'].
Qed.

Lemma stat_path_good c p out s : fs_inv ops s → good_call (StatPath c p out) s.
Proof.
  intros Hi. unfold good_call, exec, fs_stat_path. destruct out; cbn [negb]; [|refused].
  destruct (preflight c p) as [e plan]. destruct (bool_decide (e ≠ FS_OK)) eqn:Ee.
  { apply bool_decide_eq_true in Ee. refused. }
  token_call (StatPath c p true) (@fst fs_error fs_information).
  pose proof (resolve_quiet ops c plan (count (input plan)) s) as Hq.
  destruct (resolve ops c plan _ s) as [[e' l] s1]. injection E as <- <-. split; [done|]. intros _.
  unfold outcome. by rewrite decide_True.
Qed.

(** A successful resolution stays on the mounted disk. *)
Lemma step_mount l name s : loc_mount (snd (fst (step ops l name s))) = loc_mount l.
Proof.
  unfold step. destruct (negb _); [done|]. destruct (equal _ _); [done|]. destruct (equal _ _); [by destruct (negb _)|].
  destruct (_ =? _); [done|]. destruct (op_lookup ops _ _ _) as [[e n] k]. destruct (bool_decide _); [|done]. by destruct (negb _).
Qed.
Lemma follow_mount n i ts l s : loc_mount (snd (fst (follow_tokens ops n i ts l s))) = loc_mount l.
Proof.
  revert i l s; induction n as [|n IH]; intros i l s; cbn [follow_tokens]; [done|].
  pose proof (step_mount l (token ts i) s) as H. destruct (step ops l (token ts i) s) as [[e l'] s'].
  destruct (bool_decide _); [done|]. by rewrite IH.
Qed.
Lemma resolve_mounted c plan n s l s' : resolve ops c plan n s = ((FS_OK, l), s') →
  loc_mount l = FS_MOUNT_DISK ∧ mounted (disk s) = true ∧ (∀ x, c = Some x → is_Some (find_reference (directory_ x) s)).
Proof.
  unfold resolve. set (cwd := match c with Some _ => _ | None => _ end). destruct (bool_decide (fst cwd ≠ FS_OK)) eqn:Ec.
  { apply bool_decide_eq_true in Ec. intros [= E _ _]. done. }
  apply bool_decide_eq_false in Ec. assert (∀ x, c = Some x → is_Some (find_reference (directory_ x) s)) as Hc.
  { intros x ->. unfold cwd in Ec. destruct (find_reference (directory_ x) s); [done|]. exfalso. by apply Ec. }
  unfold root. destruct (mounted (disk s)) eqn:Em; cbn [negb].
  2: { rewrite bool_decide_eq_true_2 by done. done. }
  destruct (op_stat ops _ (store s)) as [[e1 n1] k1]. set (l1 := Location FS_MOUNT_DISK 0 {[0 := n1]}).
  destruct (_ && (_ || _)); [by rewrite bool_decide_eq_true_2|]. destruct (bool_decide (e1 ≠ FS_OK)) eqn:E1.
  { apply bool_decide_eq_true in E1. intros [= ? _ _]. done. }
  set (m := if (if c then true else false) && _ then _ else _). assert (loc_mount (snd (fst m)) = FS_MOUNT_DISK) as Hm.
  { unfold m. destruct (_ && negb _); [|done]. pose proof (follow_mount (Z.to_nat (count (base plan))) 0 (base plan) l1 (set_store k1 s)) as Hf.
    destruct (follow_tokens _ _ _ _ _ _) as [[e l2] s2]. cbn in Hf. repeat case_match; done. }
  destruct m as [[e2 l2] s2]. destruct (bool_decide (e2 ≠ FS_OK)) eqn:E2.
  { apply bool_decide_eq_true in E2. intros [= ? _ _]. done. }
  pose proof (follow_mount (Z.to_nat n) 0 (input plan) l2 s2) as Hf.
  destruct (follow_tokens _ _ _ _ _ _) as [[e3 l3] s3]. cbn in Hf, Hm. destruct (bool_decide (e3 ≠ FS_OK)) eqn:E3.
  { apply bool_decide_eq_true in E3. intros [= ? _ _]. done. }
  destruct (_ && _ && _); [done|]. intros [= <- _]. split_and!; [congruence|done|done].
Qed.

(** [new_reference] from a locked state, as seen by the caller. *)
Lemma may_add_settled h e t s s' : may_add ops h e t s s' → settled s s'.
Proof. intros (? & _ & ? & ? & _). unfold settled. by split_and!. Qed.
Lemma may_add_ok h t s s' : may_add ops h FS_OK t s s' → adds t h (handle_of s) (handle_of s').
Proof. intros (_ & _ & _ & _ & H). by rewrite decide_True in H. Qed.
Lemma may_add_fails h e t s s' : may_add ops h e t s s' → e ≠ FS_OK → same (handle_of s) (handle_of s').
Proof. intros (_ & _ & _ & _ & H) He. by rewrite decide_False in H; [destruct H|]. Qed.

(** Resolution followed by a new reference. *)
Lemma resolve_add c plan n access s : fs_inv ops s →
  match resolve ops c plan n s with
  | ((FS_OK, l), s1) =>
      let '((e, t), s') := new_reference ops l access s1 in
      may_add ops (node_id (here l), node_kind (here l), access) e t s s' ∧
      (e = FS_OK → node_kind (here l) = FS_DIRECTORY → Z.land access FS_WRITE = 0)
  | ((_, _), s1) => quiet ops s s1
  end.
Proof.
  intros Hi. pose proof (resolve_quiet ops c plan n s) as Hq. pose proof (resolve_mounted c plan n s) as Hm.
  destruct (resolve ops c plan n s) as [[e l] s1]. cbn in Hq. destruct e; try exact Hq.
  destruct (Hm l s1 eq_refl) as (Hl & Hmm & _). destruct (quiet_inv ops s s1 Hq Hi) as [Hi1 Hh].
  assert (disk s1 = disk s ∧ ready s1 = ready s ∧ busy s1 = busy s) as (Ed & Er & Eb) by (destruct Hq as (k & -> & _); done).
  pose proof (new_reference_spec ops l access s1 Hi1 ltac:(by rewrite Ed) Hl) as Hn.
  destruct (new_reference ops l access s1) as [[e t] s']. destruct Hn as [Ha Hd]. split; [|done].
  unfold may_add in *. rewrite Hh in Ha. destruct Ha as (? & ? & ? & ? & ?). split_and!; [done|congruence..|done].
Qed.


(** Use [locked_spec] with the predicate [P]; what is left is the body. *)
Ltac locked_call P :=
  match goal with
  | |- context [locked ?R ?B ?s] =>
      let Hl := fresh in
      pose proof (locked_spec R B s P) as Hl;
      let r := fresh in destruct (locked R B s) as [r ?];
      repeat match goal with p : (_ * _)%type |- _ => destruct p end;
      apply Hl; clear Hl; [assumption|intros; by apply outcome_refused|]
  end.

Lemma open_good c p a out s : fs_inv ops s → good_call (Open c p a out) s.
Proof.
  intros Hi. unfold good_call, exec, fs_open.
  match goal with |- context [if ?b then (FS_INVALID, 0, s) else _] => destruct b end; [refused|].
  destruct (preflight c p) as [e plan]. destruct (bool_decide (e ≠ FS_OK)) eqn:Ee.
  { apply bool_decide_eq_true in Ee. refused. }
  locked_call (λ r s', outcome (Open c p a out) (fst r) (snd r) (handle_of s) (handle_of s')).
  intros r s' _ Hi1 E. pose proof (resolve_add c plan (count (input plan)) a (set_busy true s) Hi1) as Hadd.
  destruct (resolve ops c plan _ _) as [[e1 l] s1].
  destruct (decide (e1 = FS_OK)) as [->|He1].
  - rewrite bool_decide_eq_true_2 in E by done. rewrite E in Hadd. destruct r as [e2 t]. destruct Hadd as [Ha Hd].
    split; [by eapply may_add_settled|]. unfold outcome. cbn [fst snd]. destruct (decide (e2 = FS_OK)) as [->|He2].
    + eexists _, _. split; [by apply (may_add_ok _ _ _ _ Ha)|by apply Hd].
    + by apply (may_add_fails _ _ _ _ _ Ha).
  - rewrite bool_decide_eq_false_2 in E by done. injection E as <- <-.
    assert (quiet ops (set_busy true s) s1) as Hq by (by destruct e1).
    destruct (quiet_settled _ _ Hi1 Hq) as [Hs Hh]. split; [done|]. by apply outcome_error.
Qed.

Lemma new_good c h access l s s' e t :
  fs_inv ops s → mounted (disk s) = true → loc_mount l = FS_MOUNT_DISK → h = (node_id (here l), node_kind (here l), access) →
  new_reference ops l access s = ((e, t), s') →
  (adds t h (handle_of s) (handle_of s') → outcome c FS_OK t (handle_of s) (handle_of s')) →
  settled s s' ∧ outcome c e t (handle_of s) (handle_of s').
Proof.
  intros Hi Hm Hl -> E Hok. pose proof (new_reference_spec ops l access s Hi Hm Hl) as H. rewrite E in H.
  destruct H as [Ha _]. split; [by eapply may_add_settled|]. destruct (decide (e = FS_OK)) as [->|He].
  - by apply Hok, may_add_ok.
  - apply outcome_error; [done|]. by apply (may_add_fails _ _ _ _ _ Ha).
Qed.
Lemma live_mounted r s : fs_inv ops s → live_reference s r →
  mounted (disk s) = true ∧ object_mount (object_at s (ref_object (reference_at s r))) = FS_MOUNT_DISK.
Proof.
  intros Hi Hr. assert (live_object s (ref_object (reference_at s r))) as Hl by by apply (detach_old ops r no_object (store s) s Hi Hr).
  by destruct (inv_mount _ _ Hi _ Hl).
Qed.

Lemma duplicate_good t out s : fs_inv ops s → good_call (Duplicate t out) s.
Proof.
  intros Hi. unfold good_call, exec, fs_duplicate. destruct out; cbn [negb]; [|refused].
  locked_call (λ r s', outcome (Duplicate t true) (fst r) (snd r) (handle_of s) (handle_of s')).
  intros [e u] s' _ Hi1 E. destruct (find_reference t (set_busy true s)) as [r|] eqn:Ef.
  2: { injection E as <- <- <-. refused. }
  pose proof (handle_found _ _ _ Ef) as Hh. apply find_some in Ef as [Hr _]. destruct (live_mounted r _ Hi1 Hr) as [Hm Hom].
  eapply (new_good (Duplicate t true)) in E as [Hs Ho]; [split; [exact Hs|exact Ho]|done|done|exact Hom|done|].
  intros Ha. unfold outcome. rewrite decide_True by done. eexists. split; [exact Hh|]. exact Ha.
Qed.

Lemma close_good t s : fs_inv ops s → good_call (Close t) s.
Proof.
  intros Hi. unfold good_call, exec, fs_close.
  locked_call (λ e s', outcome (Close t) (id e) 0 (handle_of s) (handle_of s')).
  intros e s' _ Hi1 E. pose proof (close_reference_spec ops t (set_busy true s) Hi1) as Hc. rewrite E in Hc.
  destruct Hc as (Hi' & _ & Hr & Hb & Hc). split; [done|]. change (handle_of (set_busy true s)) with (handle_of s) in Hc.
  destruct (handle_of s t) as [h|] eqn:Eh.
  - destruct Hc as [-> Hc]. unfold outcome. cbn [id]. rewrite decide_True by done. split; [by exists h|]. exact Hc.
  - destruct Hc as [-> ->]. by apply outcome_error.
Qed.

Lemma commit_quiet action p n d b s : quiet ops s (snd (commit ops action p n d b s)).
Proof.
  unfold commit. destruct action.
  - destruct (op_replace ops) as [f|] eqn:E; [|reflexivity]. pose proof (pins_replace f p n d b (store s)) as H.
    destruct (f p n d b (store s)) as [e k]. exists k. split; [done|]. intros id. by apply H.
  - destruct (op_remove ops) as [f|] eqn:E; [|reflexivity]. pose proof (pins_remove f p n (store s)) as H.
    destruct (f p n (store s)) as [e k]. exists k. split; [done|]. intros id. by apply H.
  - destruct (op_mkdir ops) as [f|] eqn:E; [|reflexivity]. pose proof (pins_mkdir f p n (store s)) as H.
    destruct (f p n (store s)) as [e k]. exists k. split; [done|]. intros id. by apply H.
Qed.

Lemma mutate_good c p d n action (k : call) s : fs_inv ops s →
  (outcome k FS_OK 0 (handle_of s) (handle_of s)) →
  let '(e, s') := mutate ops c p d n action s in
  settled s s' ∧ outcome k e 0 (handle_of s) (handle_of s').
Proof.
  intros Hi Hk. unfold mutate. destruct (negb (n =? 0) && _); [refused|].
  destruct (preflight c p) as [e plan]. destruct (bool_decide (e ≠ FS_OK)) eqn:Ee.
  { apply bool_decide_eq_true in Ee. refused. }
  locked_call (λ e s', outcome k (id e) 0 (handle_of s) (handle_of s')).
  intros e' s' _ Hi1 E. assert (quiet ops (set_busy true s) s') as Hq.
  { revert E. cbn zeta. case_match; [by intros [= <- <-]|].
    match goal with |- context [resolve ops c plan ?m ?st] => pose proof (resolve_quiet ops c plan m st) as Hr; destruct (resolve ops c plan m st) as [[e1 l] s1] end.
    cbn in Hr. case_match; [by intros [= <- <-]|]. case_match; [by intros [= <- <-]|]. case_match; [by intros [= <- <-]|].
    case_match; [by intros [= <- <-]|]. intros E.
    match type of E with context [op_lookup ops ?a ?b ?st] => pose proof (lookup_quiet ops a b s1) as Hq; destruct (op_lookup ops a b st) as [[e2 nd] k2] end.
    cbn [snd] in Hq. case_match; [|injection E as <- <-; by transitivity s1].
    match type of E with commit ops ?a ?b ?c1 ?d1 ?f1 ?st = _ => pose proof (commit_quiet a b c1 d1 f1 st) as Hcq end. rewrite E in Hcq.
    transitivity s1; [done|]. etransitivity; [exact Hq|exact Hcq]. }
  destruct (quiet_settled _ _ Hi1 Hq) as [Hs Hh]. split; [done|]. destruct Hq as (kk & -> & _).
  destruct (decide (e' = FS_OK)) as [->|He]; [exact Hk|]. by apply outcome_error.
Qed.
Lemma same_ok (k : call) s : match k with Replace _ _ _ _ | Remove _ _ | Mkdir _ _ => True | _ => False end →
  outcome k FS_OK 0 (handle_of s) (handle_of s).
Proof. intros. unfold outcome. rewrite decide_True by done. by destruct k. Qed.
Lemma mutations_good k s : match k with Replace _ _ _ _ | Remove _ _ | Mkdir _ _ => True | _ => False end →
  fs_inv ops s → good_call k s.
Proof.
  intros Hk Hi. unfold good_call. destruct k; try done; cbn [exec]; unfold fs_replace, fs_remove, fs_mkdir;
    match goal with |- context [mutate ops ?c ?p ?d ?n ?a s] =>
      match goal with |- context [outcome ?k] => pose proof (mutate_good c p d n a k s Hi (same_ok k s I)) as H end;
      by destruct (mutate ops c p d n a s) end.
Qed.

#[local] Opaque fs_open fs_close.
Lemma initialize_good c s : fs_inv ops s → good_call (Initialize c) s.
Proof.
  intros Hi. unfold good_call, exec, fs_context_initialize. destruct c as [c|]; [|refused].
  destruct (directory_ c =? 0); cbn [negb]; [|refused]. generalize (Some [slash]) as path. intros path.
  pose proof (open_good None path FS_READ true s Hi) as H. unfold good_call, exec in H.
  destruct (fs_open ops None path FS_READ true s) as [[e t] s']. destruct H as [Hs Ho]. split; [done|].
  unfold outcome in *. destruct (decide (e = FS_OK)) as [->|]; [|done].
  rewrite bool_decide_eq_true_2 by done. cbn. destruct Ho as (id & kind & Ha & _). by exists id, kind.
Qed.

Lemma clone_good a b s : fs_inv ops s → good_call (Clone a b) s.
Proof.
  intros Hi. unfold good_call, exec, fs_context_clone. destruct a as [src|]; [|refused]. destruct b as [dst|]; [|refused].
  destruct (Z.eqb_spec (directory_ dst) 0) as [Ed|]; cbn [negb]; [|refused]. destruct (Z.eqb_spec (directory_ src) 0) as [Es|Es].
  - pose proof (initialize_good (Some dst) s Hi) as H. unfold good_call, exec in H.
    destruct (fs_context_initialize ops (Some dst) s) as [[e c] s'] eqn:Ei. destruct H as [Hs Ho]. split; [done|].
    unfold outcome in *. destruct (decide (e = FS_OK)) as [->|He].
    + rewrite bool_decide_eq_false_2 by done. rewrite decide_True by done. right. destruct Ho as (id & kind & Ha). by exists id, kind.
    + case_bool_decide; [|by rewrite decide_False]. rewrite decide_True by done. left. split_and!; [done| |done].
      revert Ei. unfold fs_context_initialize. rewrite Ed. cbn [negb Z.eqb].
      destruct (fs_open _ _ _ _ _ _) as [[e' t'] s'']. intros [= <- <- _]. rewrite bool_decide_eq_false_2 by done. exact Ed.
  - locked_call (λ r s', outcome (Clone (Some src) (Some dst)) (fst r) (directory_of (snd r)) (handle_of s) (handle_of s')).
    intros [e c] s' _ Hi1 E. destruct (find_reference (directory_ src) (set_busy true s)) as [r|] eqn:Ef.
    2: { injection E as <- <- <-. refused. }
    apply find_some in Ef as [Hr _]. destruct (live_mounted r _ Hi1 Hr) as [Hm Hom].
    destruct (negb _) in E; [injection E as <- <- <-; refused|].
    match type of E with context [new_reference ops ?l ?a ?st] => destruct (new_reference ops l a st) as [[e2 t] s2] eqn:En end.
    injection E as <- <- <-.
    match type of En with new_reference ops ?l ?a ?st = _ => pose proof (new_reference_spec ops l a st Hi1 Hm Hom) as Hn end.
    rewrite En in Hn.
    destruct Hn as [Ha _]. split; [by eapply may_add_settled|]. cbn [fst snd]. unfold outcome.
    destruct (decide (e2 = FS_OK)) as [->|He2].
    + rewrite bool_decide_eq_true_2 by done. right. eexists _, _. by apply (may_add_ok _ _ _ _ Ha).
    + by apply (may_add_fails _ _ _ _ _ Ha).
Qed.

Lemma chdir_good c p s : fs_inv ops s → good_call (Chdir c p) s.
Proof.
  intros Hi. unfold good_call, exec, fs_context_chdir. destruct c as [c|]; [|refused].
  destruct (preflight (Some c) p) as [e plan]. destruct (bool_decide (e ≠ FS_OK)) eqn:Ee.
  { apply bool_decide_eq_true in Ee. refused. }
  locked_call (λ r s', outcome (Chdir (Some c) p) (fst r) (directory_of (snd r)) (handle_of s) (handle_of s')).
  intros r s' _ Hi1 E. pose proof (resolve_add (Some c) plan (count (input plan)) FS_READ (set_busy true s) Hi1) as Hadd.
  pose proof (resolve_mounted (Some c) plan (count (input plan)) (set_busy true s)) as Hdir.
  destruct (resolve ops (Some c) plan _ _) as [[e1 l] s1] eqn:Er.
  assert (quiet ops (set_busy true s) s1) as Hq by (pose proof (resolve_quiet ops (Some c) plan (count (input plan)) (set_busy true s)) as Hq; by rewrite Er in Hq).
  destruct (quiet_settled _ _ Hi1 Hq) as [Hs1 Hh1].
  set (e2 := if bool_decide (e1 = FS_OK) && _ then FS_NOT_DIRECTORY else e1) in E.
  destruct (decide (e2 = FS_OK)) as [E2|E2].
  2: { rewrite bool_decide_eq_true_2 in E by done. injection E as <- <-. split; [done|]. by apply outcome_error. }
  rewrite bool_decide_eq_false_2 in E by (by intros []).
  assert (e1 = FS_OK ∧ node_kind (here l) = FS_DIRECTORY) as [-> Hkind].
  { unfold e2 in E2. destruct (decide (e1 = FS_OK)) as [->|He]; [|by rewrite bool_decide_eq_false_2 in E2].
    rewrite bool_decide_eq_true_2 in E2 by done. cbn in E2. destruct (Z.eqb_spec (node_kind (here l)) FS_DIRECTORY); [done|by cbn in E2]. }
  destruct (Hdir l s1 eq_refl) as (_ & _ & Hc). destruct (Hc c eq_refl) as [rc Hrc].
  destruct (new_reference ops l FS_READ s1) as [[e3 t] s2]. destruct Hadd as [Ha _]. rewrite Hkind in Ha.
  destruct (decide (e3 = FS_OK)) as [->|He3].
  2: { rewrite bool_decide_eq_true_2 in E by done. injection E as <- <-. split; [by eapply may_add_settled|].
       apply outcome_error; [done|]. by apply (may_add_fails _ _ _ _ _ Ha). }
  rewrite bool_decide_eq_false_2 in E by (by intros []). injection E as <- <-.
  pose proof (may_add_settled _ _ _ _ _ Ha) as (Hi2 & Hr2 & Hb2). pose proof (may_add_ok _ _ _ _ Ha) as Hadds.
  pose proof (close_reference_spec ops (directory_ c) s2 Hi2) as Hcl.
  destruct (close_reference ops (directory_ c) s2) as [e4 s4]. cbn [snd]. destruct Hcl as (Hi4 & _ & Hr4 & Hb4 & Hcl).
  split; [unfold settled; split_and!; congruence|]. unfold outcome. cbn [fst snd directory_of directory_]. rewrite decide_True by done.
  eexists _, (handle_of s2). split; [exact Hadds|].
  assert (is_Some (handle_of s2 (directory_ c))) as Hsome.
  { destruct Hadds as (_ & _ & Hu). rewrite Hu.
    destruct (decide (directory_ c = t)); [by eexists|]. rewrite (handle_found _ _ _ Hrc). by eexists. }
  destruct (handle_of s2 (directory_ c)) as [h|] eqn:Eh; [|by destruct Hsome]. destruct Hcl as [_ Hcl].
  split; [by rewrite Eh; eexists|]. exact Hcl.
Qed.

Lemma destroy_good c s : fs_inv ops s → good_call (Destroy c) s.
Proof.
  intros Hi. unfold good_call, exec, fs_context_destroy. destruct c as [c|]; [|refused].
  destruct (Z.eqb_spec (directory_ c) 0) as [Ec|Ec].
  - split; [by apply settled_refl|]. unfold outcome. rewrite decide_True, decide_True by done. done.
  - pose proof (close_good (directory_ c) s Hi) as H. unfold good_call, exec in H.
    destruct (fs_close ops (directory_ c) s) as [e s']. destruct H as [Hs Ho]. split; [done|].
    unfold outcome in *. destruct (decide (e = FS_OK)); [|done]. by rewrite decide_False.
Qed.

Lemma no_live_no_handle s : fs_inv ops s → (∀ o, ¬ live_object s o) → ∀ u, handle_of s u = None.
Proof.
  intros Hi Hn u. destruct (handle_of s u) as [h|] eqn:E; [|done]. exfalso. apply (handle_iff ops) in E as (r & Hr & _); [|done].
  apply (Hn (ref_object (reference_at s r))). by apply (detach_old ops r no_object (store s) s Hi Hr).
Qed.
Lemma unmount_good s : fs_inv ops s → good_call Unmount s.
Proof.
  intros Hi. unfold good_call, exec, fs_unmount_disk.
  locked_call (λ e s', outcome Unmount (id e) 0 (handle_of s) (handle_of s')).
  intros e s' _ Hi1 E. destruct (mounted (disk (set_busy true s))) eqn:Em; cbn [negb] in E; [|injection E as <- <-; refused].
  destruct (all_range 0 FS_OBJECT_LIMIT _) eqn:Ea; cbn [negb] in E; [|injection E as <- <-; refused].
  assert (∀ o, ¬ live_object (set_busy true s) o) as Hnone.
  { intros o Ho. pose proof (inv_mount _ _ Hi1 o Ho) as [Hm _]. destruct Ho as [Hr Hne].
    pose proof (proj1 (all_range_true _ _ _) Ea o Hr) as Hb. cbn in Hb. rewrite Hm in Hb. apply negb_true_iff in Hb.
    rewrite andb_true_r in Hb. apply negb_false_iff in Hb. lia. }
  assert (∀ j, pins (store s) j = 0) as Hp by (intros j; apply (inv_unpinned _ _ Hi1); intros o Ho; by destruct (Hnone o)).
  set (s1 := Vfs (Mount _ _ false) _ _ _ _ _ _) in E.
  set (k := match op_unmount ops with Some f => f (store s) | None => store s end).
  assert (s' = set_store k s1 ∧ e = FS_OK) as [-> ->].
  { unfold k. destruct (op_unmount ops); injection E as <- <-; done. }
  assert (∀ j, pins k j = 0) as Hp' by (intros j; unfold k; destruct (op_unmount ops) as [f|] eqn:Ef; [by apply pins_unmount|done]).
  assert (fs_inv ops (set_store k s1)) as Hi2.
  { destruct Hi1. constructor; try done; intros o Ho; by destruct (Hnone o). }
  split; [unfold settled; by split_and!|]. unfold outcome. cbn [id]. rewrite decide_True by done.
  split; [by apply no_live_no_handle|]. intros u. by apply (no_live_no_handle (set_store k s1)).
Qed.

Lemma exec_good c s : fs_inv ops s → good_call c s.
Proof.
  intros Hi. destruct c.
  - by apply open_good.
  - by apply duplicate_good.
  - by apply close_good.
  - by apply stat_good.
  - by apply stat_path_good.
  - by apply read_good.
  - by apply write_good.
  - by apply readdir_good.
  - by apply truncate_good.
  - by apply flush_good.
  - by apply mutations_good.
  - by apply mutations_good.
  - by apply mutations_good.
  - by apply initialize_good.
  - by apply clone_good.
  - by apply chdir_good.
  - by apply destroy_good.
  - by apply unmount_good.
Qed.

Fixpoint exec_all (cs : list call) s : list (fs_error * Z) * vfs K :=
  match cs with
  | [] => ([], s)
  | c :: cs => let '(r, s) := exec c s in let '(rs, s) := exec_all cs s in (r :: rs, s)
  end.

Lemma exec_all_run cs s : fs_inv ops s →
  settled s (snd (exec_all cs s)) ∧ run cs (handle_of s) (fst (exec_all cs s)) (handle_of (snd (exec_all cs s))).
Proof.
  revert s; induction cs as [|c cs IH]; intros s Hi; cbn [exec_all].
  - split; [by apply settled_refl|]. by constructor.
  - pose proof (exec_good c s Hi) as Hg. unfold good_call in Hg. destruct (exec c s) as [[e t] s1].
    destruct Hg as [(Hi1 & Hr1 & Hb1) Ho]. destruct (IH s1 Hi1) as [(Hi2 & Hr2 & Hb2) Hrun].
    destruct (exec_all cs s1) as [rs s2]. cbn [fst snd] in *. split; [unfold settled; split_and!; congruence|]. by econstructor.
Qed.

Lemma mount_inv b s s' k : (∀ id, pins k id = 0) → s = Vfs (Mount (FsBackend false 0 0 false) 0 false) ∅ ∅ 1 true false k →
  fs_mount_disk ops true b s = (FS_OK, s') → fs_inv ops s' ∧ busy s' = false ∧ ∀ u, handle_of s' u = None.
Proof.
  intros Hk ->. unfold fs_mount_disk, mount_backend.
  match goal with |- (if ?b then _ else _) = _ → _ => destruct b; [done|] end. unfold locked, enter. cbn [ready busy negb].
  rewrite (bool_decide_eq_true_2 (FS_OK = FS_OK)), bool_decide_eq_false_2 by (done || by intros []).
  cbn [mounted disk set_busy generation Z.eqb store].
  pose proof (λ id, pins_stat (broot b) k id) as Hp. destruct (op_stat ops (broot b) k) as [[e n] k']. cbn [snd] in Hp.
  destruct (decide (e = FS_OK)) as [->|He].
  2: { rewrite bool_decide_eq_false_2 by done. intros [= ? _]. done. }
  rewrite bool_decide_eq_true_2 by done. destruct (negb (valid_node n) || _ || _); [done|]. intros [= <-].
  assert (∀ o : Z, ¬ live_object (leave (Vfs (Mount b (0 + 1) true) ∅ ∅ 1 true true k')) o) as Hno.
  { intros o [_ Ho]. apply Ho. unfold object_at. cbn. by rewrite lookup_empty. }
  assert (∀ r : Z, ¬ live_reference (leave (Vfs (Mount b (0 + 1) true) ∅ ∅ 1 true true k')) r) as Hnr.
  { intros o [_ Ho]. apply Ho. unfold reference_at. cbn. by rewrite lookup_empty. }
  assert (fs_inv ops (leave (Vfs (Mount b (0 + 1) true) ∅ ∅ 1 true true k'))) as Hi.
  { constructor; try (intros o Ho; by destruct (Hno o)); try (intros r Hr; by destruct (Hnr r));
      try (intros i j Hj; by destruct (Hno i)); try (intros i j Hj; by destruct (Hnr i)).
    - by vm_compute.
    - intros o _. unfold object_at. cbn [objects leave set_busy]. rewrite lookup_empty. symmetry. apply count_range_zero.
      intros i _. unfold refers, reference_at. cbn. by rewrite lookup_empty.
    - intros id _. cbn. by rewrite Hp. }
  split_and!; [exact Hi|done|]. by apply no_live_no_handle.
Qed.

Lemma retained_handle s id : fs_inv ops s → retained FS_MOUNT_DISK id s = false →
  ∀ t i kind a, handle_of s t = Some (i, kind, a) → i ≠ id.
Proof.
  intros Hi Hret t i kind a Hh ->. apply (handle_iff ops) in Hh as (r & Hr & _ & He); [|done].
  assert (live_object s (ref_object (reference_at s r))) as Hl by by apply (detach_old ops r no_object (store s) s Hi Hr).
  unfold retained in Hret. apply negb_false_iff in Hret. pose proof (proj1 (all_range_true _ _ _) Hret _ (proj1 Hl)) as Hb.
  cbn in Hb. destruct (inv_mount _ _ Hi _ Hl) as [Hm _]. rewrite Hm in Hb. injection He as -> _ _.
  destruct Hl as [_ Hne]. rewrite (proj2 (Z.eqb_neq _ _) Hne), !Z.eqb_refl in Hb. done.
Qed.

(** ** Properties *)

(** C6: From power-on, once the disk is mounted over a backend with nothing pinned,
    every sequence of VFS calls is a run of the handle contract: tokens are fresh and
    nonzero, an error never changes the set of handles, close succeeds exactly on live
    tokens and removes exactly that one, reads, writes, truncation and directory
    listing succeed only through a handle of the right kind and access, chdir swaps
    exactly the working directory, unmount succeeds only without handles; and the
    reference counts, the object table and the pins of the backend agree at the end,
    with the lock released. *)
Theorem fs_refines b k s cs :
  (∀ id, pins k id = 0) →
  fs_mount_disk ops true b (snd (fs_initialize (Vfs (Mount (FsBackend false 0 0 false) 0 false) ∅ ∅ 1 false false k))) = (FS_OK, s) →
  (∀ u, handle_of s u = None) ∧
  fs_inv ops (snd (exec_all cs s)) ∧ busy (snd (exec_all cs s)) = false ∧
  run cs (handle_of s) (fst (exec_all cs s)) (handle_of (snd (exec_all cs s))).
Proof.
  intros Hk Hm. destruct (mount_inv b _ s k Hk eq_refl Hm) as (Hi & Hb & Hh).
  destruct (exec_all_run cs s Hi) as [(Hi' & _ & Hb') Hrun]. split_and!; [done|done|congruence|done].
Qed.

(** An open object is never replaced or removed: when fs_remove or fs_replace
    succeeds, the name it acted on did not exist or named an object for which no
    handle was live, and the parent it was resolved in is a directory. *)
Theorem fs_mutation_spares_open c p d n action s s' :
  fs_inv ops s → mutate ops c p d n action s = (FS_OK, s') →
  ∃ plan l s1 e node k,
    let name := token (input plan) (count (input plan) - 1) in
    preflight c p = (FS_OK, plan) ∧
    resolve ops c plan (count (input plan) - 1) (set_busy true s) = ((FS_OK, l), s1) ∧
    node_kind (here l) = FS_DIRECTORY ∧ bread_only (backend (disk s)) = false ∧
    op_lookup ops (node_id (here l)) name (store s1) = ((e, node), k) ∧
    (e = FS_OK ∧ action ≠ MKDIR ∧ (∀ t i kind a, handle_of s t = Some (i, kind, a) → i ≠ node_id node) ∨
     e = FS_NOT_FOUND ∧ action ≠ REMOVE).
Proof.
  intros Hi. unfold mutate. destruct (negb (n =? 0) && _); [done|]. destruct (preflight c p) as [e0 plan].
  destruct (decide (e0 = FS_OK)) as [->|He0]; [|rewrite bool_decide_eq_true_2 by done; by intros [= ? _]].
  rewrite bool_decide_eq_false_2 by (by intros []). unfold locked.
  destruct (enter s) as [e1 s1] eqn:Een. destruct (decide (e1 = FS_OK)) as [->|He1]; [|rewrite bool_decide_eq_true_2 by done; by intros [= ? _]].
  assert (s1 = set_busy true s) as ->.
  { unfold enter in Een. destruct (ready s), (busy s); cbn in Een; by simplify_eq. }
  rewrite bool_decide_eq_false_2 by (by intros []). cbn zeta.
  set (name := token (input plan) (count (input plan) - 1)).
  destruct (count (input plan) =? 0); [by destruct action|].
  destruct (equal name (sget [dot]) || equal name (sget [dot; dot])).
  { destruct (resolve _ _ _ _ _) as [[e l] s2]. destruct (bool_decide (e ≠ FS_OK)) eqn:E; [|by destruct action].
    apply bool_decide_eq_true in E. by intros [= ? _]. }
  pose proof (resolve_quiet ops c plan (count (input plan) - 1) (set_busy true s)) as Hq.
  pose proof (resolve_mounted c plan (count (input plan) - 1) (set_busy true s)) as Hm.
  destruct (resolve ops c plan (count (input plan) - 1) (set_busy true s)) as [[e l] s2] eqn:Er.
  destruct (decide (e = FS_OK)) as [->|He]; [|rewrite bool_decide_eq_true_2 by done; by intros [= ? _]].
  rewrite bool_decide_eq_false_2 by (by intros []). cbn [snd] in Hq. destruct (Hm l s2 eq_refl) as (Hl & _ & _).
  destruct (Z.eqb_spec (node_kind (here l)) FS_DIRECTORY) as [Hd|]; cbn [negb]; [|done].
  assert (disk s2 = disk s) as Ed by (destruct Hq as (k & -> & _); done).
  destruct (bread_only (backend (disk s2))) eqn:Ero; [done|].
  destruct (op_lookup ops (node_id (here l)) name (store s2)) as [[el node] k] eqn:Elk. rewrite Hl.
  set (held := retained FS_MOUNT_DISK (node_id node) (set_store k s2)).
  destruct (decide (mutate_verdict action (directory (input plan)) el node held = FS_OK)) as [Ev|Ev].
  2: { rewrite bool_decide_eq_false_2 by done. by intros [= ? _]. }
  intros _. exists plan, l, s2, el, node, k. cbn zeta. split_and!; [done|done|done|congruence|done|].
  unfold mutate_verdict in Ev. destruct (decide (el = FS_OK)) as [->|Hel].
  - rewrite (bool_decide_eq_true_2 (FS_OK = FS_OK)) in Ev by done. cbn [andb negb] in Ev. left. split; [done|].
    destruct (negb (valid_node node)); [done|]. destruct (decide (action = MKDIR)) as [->|Ha]; [done|]. split; [done|].
    rewrite (bool_decide_eq_false_2 (action = MKDIR)) in Ev by done. destruct (_ && negb _); [done|].
    destruct (_ && (_ =? _)); [done|]. destruct held eqn:Eh; [done|].
    assert (quiet ops s2 (set_store k s2)) as Hq2.
    { pose proof (lookup_quiet ops (node_id (here l)) name s2) as Hlk. by rewrite Elk in Hlk. }
    assert (fs_inv ops (set_busy true s)) as Hi0 by by apply busy_inv.
    destruct (quiet_inv ops _ _ (transitivity Hq Hq2) Hi0) as [Hi2 Hh2].
    change (handle_of s) with (handle_of (set_busy true s)). rewrite <- Hh2. by apply retained_handle.
  - rewrite (bool_decide_eq_false_2 (el = FS_OK)) in Ev by done. cbn [andb negb] in Ev. right.
    destruct (decide (el = FS_NOT_FOUND)) as [->|Hnf]; [|by rewrite bool_decide_eq_false_2 in Ev]. split; [done|].
    destruct (decide (action = REMOVE)) as [->|]; done.
Qed.
End Contract.

(** ** Witnesses: a backend with one file [A] in its root *)

Module SampleBackend.
Definition ops : fs_operations (gmap Z Z) := {|
  op_lookup p n k := if (p =? 1) && equal n (sget [65]) then ((FS_OK, FsNode 2 5 FS_FILE), k) else ((FS_NOT_FOUND, no_node), k);
  op_stat i k := if i =? 1 then ((FS_OK, FsNode 1 0 FS_DIRECTORY), k) else ((FS_OK, FsNode 2 5 FS_FILE), k);
  op_retain i k := (FS_OK, aset k i (aget k i + 1));
  op_release i k := aset k i (aget k i - 1);
  op_read _ _ d n k := ((IoResult FS_OK (Z.min n 5) 0 0, d), k);
  op_readdir _ _ k := ((FS_END, (no_entry, 0)), k);
  op_write := None; op_replace := None; op_remove := Some (λ _ _ k, (FS_OK, k)); op_mkdir := None;
  op_flush := None; op_unmount := None; op_truncate := None
|}.
#[global] Instance law : BackendLaw ops.
Proof.
  refine {| pins := aget |}; try done.
  - intros p n k id. cbn. by destruct (_ && _).
  - intros i k id. cbn. by destruct (_ =? _).
  - intros f p n k id [= <-]. done.
  - intros i k id. cbn. unfold aget, aset. destruct (decide (id = i)) as [->|Hne].
    + rewrite lookup_insert_eq, decide_True by done. done.
    + rewrite lookup_insert_ne by done. rewrite decide_False by tauto. cbn. lia.
  - intros i k id _. cbn. unfold aget, aset. destruct (decide (id = i)) as [->|Hne].
    + rewrite lookup_insert_eq. done.
    + rewrite lookup_insert_ne by done. cbn. lia.
Defined.
Definition disk_backend : fs_backend := FsBackend true 1 FS_NAMES_FAT83 false.
Definition power_on : vfs (gmap Z Z) := Vfs (Mount (FsBackend false 0 0 false) 0 false) ∅ ∅ 1 false false ∅.
Definition mounted_state : vfs (gmap Z Z) := snd (fs_mount_disk ops true disk_backend (snd (fs_initialize power_on))).
Definition file : list Z := [47; 97]. (* "/a" *)
Definition calls : list call :=
  [Open None (Some file) FS_READ true; Duplicate 1 true; Read 2 0 (Some []) 5; Remove None (Some file);
   Close 1; Close 1; Unmount; Close 2; Remove None (Some file); Unmount].
End SampleBackend.

Lemma fs_refines_witness :
  let s := SampleBackend.mounted_state in
  fst (exec_all SampleBackend.ops SampleBackend.calls s) =
    [(FS_OK, 1); (FS_OK, 2); (FS_OK, 0); (FS_BUSY, 0); (FS_OK, 0); (FS_INVALID, 0); (FS_BUSY, 0); (FS_OK, 0); (FS_OK, 0); (FS_OK, 0)] ∧
  run SampleBackend.calls (handle_of s) (fst (exec_all SampleBackend.ops SampleBackend.calls s))
    (handle_of (snd (exec_all SampleBackend.ops SampleBackend.calls s))).
Proof.
  cbn zeta. split; [vm_compute; reflexivity|].
  apply (fs_refines SampleBackend.ops SampleBackend.disk_backend ∅ SampleBackend.mounted_state SampleBackend.calls).
  - intros id. cbn. unfold aget. by rewrite lookup_empty.
  - assert (fst (fs_mount_disk SampleBackend.ops true SampleBackend.disk_backend (snd (fs_initialize SampleBackend.power_on))) = FS_OK) as E
      by (vm_compute; reflexivity).
    rewrite <- E. apply surjective_pairing.
Defined.

Lemma fs_mutation_spares_open_witness :
  let s := SampleBackend.mounted_state in
  ∃ plan l s1 e node k,
    let name := token (input plan) (count (input plan) - 1) in
    preflight None (Some SampleBackend.file) = (FS_OK, plan) ∧
    resolve SampleBackend.ops None plan (count (input plan) - 1) (set_busy true s) = ((FS_OK, l), s1) ∧
    node_kind (here l) = FS_DIRECTORY ∧ bread_only (backend (disk s)) = false ∧
    op_lookup SampleBackend.ops (node_id (here l)) name (store s1) = ((e, node), k) ∧
    (e = FS_OK ∧ REMOVE ≠ MKDIR ∧ (∀ t i kind a, handle_of s t = Some (i, kind, a) → i ≠ node_id node) ∨
     e = FS_NOT_FOUND ∧ REMOVE ≠ REMOVE).
Proof.
  cbn zeta. apply (fs_mutation_spares_open SampleBackend.ops None (Some SampleBackend.file) None 0 REMOVE SampleBackend.mounted_state
    (snd (mutate SampleBackend.ops None (Some SampleBackend.file) None 0 REMOVE SampleBackend.mounted_state))).
  - apply (mount_inv SampleBackend.ops SampleBackend.disk_backend (snd (fs_initialize SampleBackend.power_on)) _ ∅); [|done|].
    + intros id. cbn. unfold aget. by rewrite lookup_empty.
    + assert (fst (fs_mount_disk SampleBackend.ops true SampleBackend.disk_backend (snd (fs_initialize SampleBackend.power_on))) = FS_OK) as E
        by (vm_compute; reflexivity).
      rewrite <- E. apply surjective_pairing.
  - assert (fst (mutate SampleBackend.ops None (Some SampleBackend.file) None 0 REMOVE SampleBackend.mounted_state) = FS_OK) as E
      by (vm_compute; reflexivity).
    rewrite <- E. apply surjective_pairing.
Defined.
