(* ===== verification/Fat16.v ===== *)
(** * FAT16 volume, reading side (kernel/fs/fat16.c)

    The mounted volume over a block device: cluster chains, directory slots,
    8.3 entries, lookup, reading and listing, object pins, mounting. The
    device driver is a parameter; [DiskLaw] is what reading relies on. *)

From S2P Require Import Prelude Block Path Fs.

Definition FAT16_SECTOR_SIZE : Z := 512.
Definition FAT16_FAT_SECTOR_LIMIT : Z := 256.
Definition FAT16_CLUSTER_SECTOR_LIMIT : Z := 64.
Definition FAT16_DIRECTORY_ENTRY_LIMIT : Z := 65536.
Definition ROOT_ID : Z := 1.
Definition ENTRY_BYTES : Z := 32.
Definition ENTRIES_PER_SECTOR : Z := FAT16_SECTOR_SIZE / ENTRY_BYTES.
Definition FIRST_RESERVED : Z := 0xfff0.
Definition FIRST_END : Z := 0xfff8.
Definition MAX_CLUSTERS : Z := 65524.

Record fat16_information := FatInfo {
  sectors : Z; clusters : Z; cluster_bytes : Z; fat_start : Z; fat_sectors : Z; root_start : Z;
  root_entries : Z; data_start : Z; fmounted : bool; writable : bool; faulted : bool
}.
Definition no_info : fat16_information := FatInfo 0 0 0 0 0 0 0 0 false false false.
Record pin := Pin { pin_id : Z; pin_count : N }.
Record description := Description { dnode : fs_node; dfirst : Z; dlength : Z }.
Definition no_description : description := Description no_node 0 0.

(** [fat16_volume] together with the state of the block device it uses. *)
Record volume (D : Type) := Volume {
  has_device : bool; info : fat16_information; fat : gmap Z Z; sector : gmap Z Z; visited : gmap Z Z;
  owners : gmap Z Z; vpins : gmap Z pin; last_io : fs_io_result; cached_sector : Z;
  vready : bool; vbusy : bool; cache_valid : bool; audited : bool; dev : bio D
}.
Arguments Volume {D} _ _ _ _ _ _ _ _ _ _ _ _ _ _.
Arguments has_device {D} _.
Arguments info {D} _.
Arguments fat {D} _.
Arguments sector {D} _.
Arguments visited {D} _.
Arguments owners {D} _.
Arguments vpins {D} _.
Arguments last_io {D} _.
Arguments cached_sector {D} _.
Arguments vready {D} _.
Arguments vbusy {D} _.
Arguments cache_valid {D} _.
Arguments audited {D} _.
Arguments dev {D} _.

Definition io_zero : fs_io_result := IoResult FS_OK 0 0 0.
(** [memset(&fat16_volume, 0, sizeof fat16_volume)] *)
Definition volume_zero {D} (d : bio D) : volume D :=
  Volume false no_info ∅ ∅ ∅ ∅ ∅ io_zero 0 false false false false d.

Section Setters.
Context {D : Type}.
Implicit Types (v : volume D).
Definition set_info (i : fat16_information) v : volume D :=
  Volume (has_device v) i (fat v) (sector v) (visited v) (owners v) (vpins v) (last_io v) (cached_sector v)
    (vready v) (vbusy v) (cache_valid v) (audited v) (dev v).
Definition set_fat (f : gmap Z Z) v : volume D :=
  Volume (has_device v) (info v) f (sector v) (visited v) (owners v) (vpins v) (last_io v) (cached_sector v)
    (vready v) (vbusy v) (cache_valid v) (audited v) (dev v).
Definition set_visited (m : gmap Z Z) v : volume D :=
  Volume (has_device v) (info v) (fat v) (sector v) m (owners v) (vpins v) (last_io v) (cached_sector v)
    (vready v) (vbusy v) (cache_valid v) (audited v) (dev v).
Definition set_owners (m : gmap Z Z) v : volume D :=
  Volume (has_device v) (info v) (fat v) (sector v) (visited v) m (vpins v) (last_io v) (cached_sector v)
    (vready v) (vbusy v) (cache_valid v) (audited v) (dev v).
Definition set_pins (p : gmap Z pin) v : volume D :=
  Volume (has_device v) (info v) (fat v) (sector v) (visited v) (owners v) p (last_io v) (cached_sector v)
    (vready v) (vbusy v) (cache_valid v) (audited v) (dev v).
Definition set_last_io (r : fs_io_result) v : volume D :=
  Volume (has_device v) (info v) (fat v) (sector v) (visited v) (owners v) (vpins v) r (cached_sector v)
    (vready v) (vbusy v) (cache_valid v) (audited v) (dev v).
Definition set_dev (d : bio D) v : volume D :=
  Volume (has_device v) (info v) (fat v) (sector v) (visited v) (owners v) (vpins v) (last_io v) (cached_sector v)
    (vready v) (vbusy v) (cache_valid v) (audited v) d.
Definition set_sector (s : gmap Z Z) v : volume D :=
  Volume (has_device v) (info v) (fat v) s (visited v) (owners v) (vpins v) (last_io v) (cached_sector v)
    (vready v) (vbusy v) (cache_valid v) (audited v) (dev v).
Definition set_cached (n : Z) (valid : bool) v : volume D :=
  Volume (has_device v) (info v) (fat v) (sector v) (visited v) (owners v) (vpins v) (last_io v) n
    (vready v) (vbusy v) valid (audited v) (dev v).
Definition set_vbusy (b : bool) v : volume D :=
  Volume (has_device v) (info v) (fat v) (sector v) (visited v) (owners v) (vpins v) (last_io v) (cached_sector v)
    (vready v) b (cache_valid v) (audited v) (dev v).
Definition set_vready (b : bool) v : volume D :=
  Volume (has_device v) (info v) (fat v) (sector v) (visited v) (owners v) (vpins v) (last_io v) (cached_sector v)
    b (vbusy v) (cache_valid v) (audited v) (dev v).
Definition set_audited (b : bool) v : volume D :=
  Volume (has_device v) (info v) (fat v) (sector v) (visited v) (owners v) (vpins v) (last_io v) (cached_sector v)
    (vready v) (vbusy v) (cache_valid v) b (dev v).
Definition set_device (b : bool) v : volume D :=
  Volume b (info v) (fat v) (sector v) (visited v) (owners v) (vpins v) (last_io v) (cached_sector v)
    (vready v) (vbusy v) (cache_valid v) (audited v) (dev v).
End Setters.

(** Byte arrays and the lists of the block layer. *)
Fixpoint array_from (i : Z) (l : list Z) : gmap Z Z :=
  match l with [] => ∅ | x :: l => <[i := x]> (array_from (i + 1) l) end.
Definition array_of (l : list Z) : gmap Z Z := array_from 0 l.
Fixpoint list_from (n : nat) (i : Z) (f : Z → Z) : list Z :=
  match n with O => [] | S n => f i :: list_from n (i + 1) f end.
Definition list_of (n : Z) (a : gmap Z Z) : list Z := list_from (Z.to_nat n) 0 (aget a).

Definition u16 (p : Z → Z) (i : Z) : Z := Z.lor (p i) (Z.shiftl (p (i + 1)) 8).
Definition u32 (p : Z → Z) (i : Z) : Z := Z.lor (u16 p i) (Z.shiftl (u16 p (i + 2)) 16).

Section Reading.
Context {D : Type} (dops : option (block_operations D)).
Implicit Types (v : volume D).

(** The error, and the bytes that reached the caller's buffer. *)
Definition fat16_read_sectors (number n : Z) (data : list Z) v : (fs_error * list Z) * volume D :=
  if (number >=? sectors (info v)) || (n >? sectors (info v) - number) then ((FS_RANGE, data), v) else
  let '((r, buffer), d) := block_read dops (has_device v) number n (Some data) (n * FAT16_SECTOR_SIZE) (dev v) in
  let e := fs_error_from_block (error r) in
  let e := if bool_decide (error r = BLOCK_OK) && negb (completed r =? n) then FS_IO_ERROR else e in
  ((e, default data buffer), set_last_io (IoResult e 0 (status r) (device_error r)) (set_dev d v)).

Definition fat16_sector (number : Z) v : fs_error * volume D :=
  if cache_valid v && (number =? cached_sector v) then (FS_OK, v) else
  let v := set_cached (cached_sector v) false v in
  let '((e, data), v) := fat16_read_sectors number 1 (list_of FAT16_SECTOR_SIZE (sector v)) v in
  let v := set_sector (array_of data) v in
  (e, if bool_decide (e = FS_OK) then set_cached number true v else v).

Definition fat16_valid_cluster (cluster : Z) v : bool :=
  (2 <=? cluster) && (cluster <? FIRST_RESERVED) && (cluster <=? clusters (info v) + 1).
Definition fat16_next_cluster (cluster : Z) v : Z := u16 (aget (fat v)) (cluster * 2).

(** The loop of [fat16_chain]: the bitmap, and the length when the chain ends. *)
Fixpoint chain_loop (fuel : nat) (n cluster : Z) (seen : gmap Z Z) v : option Z * gmap Z Z :=
  match fuel with
  | O => (None, seen)
  | S fuel =>
      if negb (fat16_valid_cluster cluster v) then (None, seen) else
      let mask := Z.shiftl 1 (cluster mod 8) in
      if negb (Z.land (aget seen (cluster / 8)) mask =? 0) then (None, seen) else
      let seen := aset seen (cluster / 8) (Z.lor (aget seen (cluster / 8)) mask) in
      let next := fat16_next_cluster cluster v in
      if FIRST_END <=? next then (Some n, seen) else
      if negb (fat16_valid_cluster next v) then (None, seen) else
      chain_loop fuel (n + 1) next seen v
  end.
Definition fat16_chain (first : Z) v : (fs_error * Z) * volume D :=
  let '(r, seen) := chain_loop (Z.to_nat (clusters (info v))) 1 first ∅ v in
  match r with
  | Some n => ((FS_OK, n), set_visited seen v)
  | None => ((FS_IO_ERROR, 0), set_visited seen v)
  end.

Definition fat16_slot_offset (id : Z) v : option Z :=
  if (id <? 2) || (id - 2 >? UINT64_MAX / ENTRY_BYTES) then None else
  let bytes := (id - 2) * ENTRY_BYTES in
  let root := root_start (info v) * FAT16_SECTOR_SIZE in
  let data := data_start (info v) * FAT16_SECTOR_SIZE in
  let finish := data + clusters (info v) * cluster_bytes (info v) in
  if ((root <=? bytes) && (bytes - root <? root_entries (info v) * ENTRY_BYTES)) ||
     ((data <=? bytes) && (bytes <? finish)) then Some bytes else None.

(** [while (count && entry[start + count - 1] == ' ') --count;] *)
Fixpoint trim (n : nat) (entry : Z → Z) (start : Z) : nat :=
  match n with
  | O => O
  | S m => if entry (start + Z.of_nat m) =? 32 then trim m entry start else n
  end.
(** The characters of one part, [None] on a blank or zero inside it. *)
Fixpoint part_chars (n : nat) (entry : Z → Z) (i : Z) : option (list Z) :=
  match n with
  | O => Some []
  | S n =>
      let c := entry i in
      if (c =? 32) || (c =? 0) then None else
      rest ← part_chars n entry (i + 1);
      Some ((if (97 <=? c) && (c <=? 122) then c - (97 - 65) else c) :: rest)
  end.
Definition short_name (entry : Z → Z) : fs_error * list Z :=
  let nb := trim 8 entry 0 in
  if Nat.eqb nb 0 then (FS_IO_ERROR, []) else
  match part_chars nb entry 0 with
  | None => (FS_IO_ERROR, [])
  | Some b =>
      let ne := trim 3 entry 8 in
      match part_chars ne entry 8 with
      | None => (FS_IO_ERROR, [])
      | Some e =>
          let name := b ++ (if Nat.eqb ne 0 then [] else dot :: e) in
          (if bool_decide (fs_name_check FS_NAMES_FAT83 (Some (sget name)) = FS_OK) then FS_OK else FS_NOT_FOUND, name)
      end
  end.

Definition fat16_decode (entry : Z → Z) (id : Z) v : (fs_error * (description * list Z)) * volume D :=
  let none := (no_description, []) in
  if entry 0 =? 0 then ((FS_END, none), v) else
  if (entry 0 =? 0xe5) || negb (Z.land (entry 11) 8 =? 0) then ((FS_NOT_FOUND, none), v) else
  if (entry 0 =? dot) && (entry 1 =? 32) then ((FS_NOT_FOUND, none), v) else
  if (entry 0 =? dot) && (entry 1 =? dot) && (entry 2 =? 32) then ((FS_NOT_FOUND, none), v) else
  let '(e, name) := short_name entry in
  if bool_decide (e ≠ FS_OK) then ((e, none), v) else
  if negb (Z.land (entry 11) 0xc0 =? 0) || negb (u16 entry 20 =? 0) then ((FS_IO_ERROR, none), v) else
  let kind := if negb (Z.land (entry 11) 0x10 =? 0) then FS_DIRECTORY else FS_FILE in
  let size := u32 entry 28 in
  let first := u16 entry 26 in
  let d len := (Description (FsNode id size kind) first len, name) in
  if kind =? FS_DIRECTORY then
    if negb (size =? 0) then ((FS_IO_ERROR, d 0), v) else
    let '((e, len), v) := fat16_chain first v in
    if bool_decide (e = FS_OK) && (len * cluster_bytes (info v) / ENTRY_BYTES >? FAT16_DIRECTORY_ENTRY_LIMIT)
    then ((FS_UNSUPPORTED, d len), v) else ((e, d len), v)
  else if size =? 0 then ((if negb (first =? 0) then FS_IO_ERROR else FS_OK, d 0), v)
  else
    let required := (size + cluster_bytes (info v) - 1) / cluster_bytes (info v) in
    if required >? clusters (info v) then ((FS_IO_ERROR, d 0), v) else
    let '((e, len), v) := fat16_chain first v in
    ((if bool_decide (e ≠ FS_OK) then e else if len =? required then FS_OK else FS_IO_ERROR, d len), v).

Definition entry_at (offset : Z) v : Z → Z := λ i, aget (sector v) (offset mod FAT16_SECTOR_SIZE + i).

Definition fat16_describe (id : Z) v : (fs_error * description) * volume D :=
  if negb (vready v) then ((FS_UNAVAILABLE, no_description), v) else
  if faulted (info v) then ((FS_IO_ERROR, no_description), v) else
  if id =? ROOT_ID then ((FS_OK, Description (FsNode ROOT_ID 0 FS_DIRECTORY) 0 0), v) else
  match fat16_slot_offset id v with
  | None => ((FS_RANGE, no_description), v)
  | Some offset =>
      let '(e, v) := fat16_sector (wrap32 (offset / FAT16_SECTOR_SIZE)) v in
      if bool_decide (e ≠ FS_OK) then ((e, no_description), v) else
      let '((e, (d, _)), v) := fat16_decode (entry_at offset v) id v in
      ((if bool_decide (e = FS_END) then FS_NOT_FOUND else e, d), v)
  end.

Fixpoint cluster_loop (n : nat) (cluster : Z) v : Z :=
  match n with O => cluster | S n => cluster_loop n (fat16_next_cluster cluster v) v end.
Definition fat16_cluster_at (d : description) (index : Z) v : Z := cluster_loop (Z.to_nat index) (dfirst d) v.
Definition fat16_cluster_sector (cluster : Z) v : Z :=
  wrap32 (data_start (info v) + (cluster - 2) * (cluster_bytes (info v) / FAT16_SECTOR_SIZE)).
Definition fat16_directory_slots (d : description) v : Z :=
  if node_id (dnode d) =? ROOT_ID then root_entries (info v)
  else dlength d * cluster_bytes (info v) / ENTRY_BYTES.

Definition fat16_directory_slot (d : description) (cursor : Z) v : fs_error * Z :=
  if cursor >=? fat16_directory_slots d v then (FS_END, 0) else
  let '(number, slot) :=
    if node_id (dnode d) =? ROOT_ID then
      (wrap32 (root_start (info v) + cursor / ENTRIES_PER_SECTOR), cursor mod ENTRIES_PER_SECTOR)
    else
      let per_cluster := cluster_bytes (info v) / ENTRY_BYTES in
      let cluster := fat16_cluster_at d (wrap32 (cursor / per_cluster)) v in
      let within := wrap32 (cursor mod per_cluster) in
      (wrap32 (fat16_cluster_sector cluster v + within / ENTRIES_PER_SECTOR), within mod ENTRIES_PER_SECTOR) in
  (FS_OK, number * ENTRIES_PER_SECTOR + slot + 2).

Definition fat16_directory_entry (d : description) (cursor : Z) v
    : (fs_error * (description * list Z)) * volume D :=
  let none := (no_description, []) in
  let '(e, id) := fat16_directory_slot d cursor v in
  if bool_decide (e ≠ FS_OK) then ((e, none), v) else
  match fat16_slot_offset id v with
  | None => ((FS_RANGE, none), v)
  | Some offset =>
      let '(e, v) := fat16_sector (wrap32 (offset / FAT16_SECTOR_SIZE)) v in
      if bool_decide (e ≠ FS_OK) then ((e, none), v) else
      fat16_decode (entry_at offset v) id v
  end.

(** ** The operations registered with the VFS *)

Fixpoint lookup_loop (fuel : nat) (d : description) (cursor : Z) (name : Z → Z) v : (fs_error * fs_node) * volume D :=
  match fuel with
  | O => ((FS_NOT_FOUND, no_node), v)
  | S fuel =>
      let '((e, (entry, decoded)), v) := fat16_directory_entry d cursor v in
      if bool_decide (e = FS_END) then ((FS_NOT_FOUND, no_node), v) else
      if bool_decide (e = FS_NOT_FOUND) then lookup_loop fuel d (cursor + 1) name v else
      if bool_decide (e ≠ FS_OK) then ((e, no_node), v) else
      if equal (sget decoded) name then ((FS_OK, dnode entry), v) else
      lookup_loop fuel d (cursor + 1) name v
  end.
Definition lookup (parent : Z) (name : Z → Z) v : (fs_error * fs_node) * volume D :=
  let '((e, d), v) := fat16_describe parent v in
  if bool_decide (e ≠ FS_OK) then ((e, no_node), v) else
  if negb (node_kind (dnode d) =? FS_DIRECTORY) then ((FS_NOT_DIRECTORY, no_node), v) else
  lookup_loop (Z.to_nat (fat16_directory_slots d v)) d 0 name v.

Definition stat_node (id : Z) v : (fs_error * fs_node) * volume D :=
  let '((e, d), v) := fat16_describe id v in
  ((e, if bool_decide (e = FS_OK) then dnode d else no_node), v).

Definition no_pin : pin := Pin 0 0.
Definition pin_at v (i : Z) : pin := default no_pin (vpins v !! i).
(** The search of [retain]: the slot to count up, else the first empty slot. *)
Fixpoint retain_loop (fuel : nat) (i id : Z) (empty : option Z) v : (Z * bool) + option Z :=
  match fuel with
  | O => inr empty
  | S fuel =>
      let p := pin_at v i in
      if N.eqb (pin_count p) 0 then retain_loop fuel (i + 1) id (match empty with None => Some i | _ => empty end) v
      else if pin_id p =? id then inl (i, N.eqb (pin_count p) 0xffffffff)
      else retain_loop fuel (i + 1) id empty v
  end.
Definition retain (id : Z) v : fs_error * volume D :=
  if negb (vready v) then (FS_UNAVAILABLE, v) else
  if negb (id =? ROOT_ID) && (if fat16_slot_offset id v then false else true) then (FS_RANGE, v) else
  match retain_loop (Z.to_nat FS_OBJECT_LIMIT) 0 id None v with
  | inl (i, full) =>
      if full then (FS_NO_SPACE, v)
      else (FS_OK, set_pins (<[i := Pin id (pin_count (pin_at v i) + 1)]> (vpins v)) v)
  | inr None => (FS_NO_SPACE, v)
  | inr (Some i) => (FS_OK, set_pins (<[i := Pin id 1]> (vpins v)) v)
  end.

Fixpoint release_loop (fuel : nat) (i id : Z) v : volume D :=
  match fuel with
  | O => v
  | S fuel =>
      let p := pin_at v i in
      if negb (N.eqb (pin_count p) 0) && (pin_id p =? id)
      then set_pins (<[i := Pin id (pin_count p - 1)]> (vpins v)) v
      else release_loop fuel (i + 1) id v
  end.
Definition release (id : Z) v : volume D := release_loop (Z.to_nat FS_OBJECT_LIMIT) 0 id v.

(** [memcpy(data + at, src + from, n)] on a list of bytes. *)
Definition splice (data : list Z) (at_ : Z) (bytes : list Z) : list Z :=
  take (Z.to_nat at_) data ++ bytes ++ drop (Z.to_nat at_ + List.length bytes) data.

(** One round per sector: the result so far, the buffer and the position. *)
Fixpoint read_loop (fuel : nat) (cluster offset bytes : Z) (result : fs_io_result) (data : list Z) v
    : (fs_io_result * list Z) * volume D :=
  match fuel with
  | O => ((result, data), v)
  | S fuel =>
      if negb (transferred result <? bytes) then ((result, data), v) else
      let within := wrap32 (offset mod cluster_bytes (info v)) in
      let number := wrap32 (fat16_cluster_sector cluster v + within / FAT16_SECTOR_SIZE) in
      let '(e, v) := fat16_sector number v in
      if bool_decide (e ≠ FS_OK) then ((IoResult e (transferred result) 0 0, data), v) else
      let amount := Z.min (FAT16_SECTOR_SIZE - within mod FAT16_SECTOR_SIZE) (bytes - transferred result) in
      let data := splice data (transferred result)
        (list_from (Z.to_nat amount) (within mod FAT16_SECTOR_SIZE) (aget (sector v))) in
      let result := IoResult FS_OK (transferred result + amount) 0 0 in
      let offset := offset + amount in
      let cluster := if (offset mod cluster_bytes (info v) =? 0) && (transferred result <? bytes)
                     then fat16_next_cluster cluster v else cluster in
      read_loop fuel cluster offset bytes result data v
  end.
Definition read_file (id offset : Z) (data : list Z) (bytes : Z) v : (fs_io_result * list Z) * volume D :=
  let v := set_last_io io_zero v in
  let '((e, d), v) := fat16_describe id v in
  let e := if bool_decide (e = FS_OK) && negb (node_kind (dnode d) =? FS_FILE) then FS_IS_DIRECTORY else e in
  let '((result, data), v) :=
    if bool_decide (e = FS_OK) && (offset <? node_size (dnode d)) then
      let bytes := if bytes >? node_size (dnode d) - offset then node_size (dnode d) - offset else bytes in
      let cluster := fat16_cluster_at d (wrap32 (offset / cluster_bytes (info v))) v in
      read_loop (S (Z.to_nat bytes)) cluster offset bytes (io_failure FS_OK) data v
    else ((io_failure e, data), v) in
  ((if bool_decide (io_error result ≠ FS_OK)
    then IoResult (io_error result) (transferred result) (io_status (last_io v)) (io_device_error (last_io v))
    else result, data), v).

Fixpoint readdir_loop (fuel : nat) (d : description) (cursor : Z) v : (fs_error * (fs_entry * Z)) * volume D :=
  match fuel with
  | O => ((FS_END, (no_entry, 0)), v)
  | S fuel =>
      let '((e, (entry, name)), v) := fat16_directory_entry d cursor v in
      if bool_decide (e = FS_NOT_FOUND) then readdir_loop fuel d (cursor + 1) v else
      if bool_decide (e ≠ FS_OK) then ((e, (no_entry, 0)), v) else
      ((FS_OK, (FsEntry (array_of name) (node_kind (dnode entry)) (node_size (dnode entry)), cursor + 1)), v)
  end.
Definition readdir_node (id cursor : Z) v : (fs_error * (fs_entry * Z)) * volume D :=
  let '((e, d), v) := fat16_describe id v in
  if bool_decide (e ≠ FS_OK) then ((e, (no_entry, 0)), v) else
  if negb (node_kind (dnode d) =? FS_DIRECTORY) then ((FS_NOT_DIRECTORY, (no_entry, 0)), v) else
  readdir_loop (Z.to_nat (fat16_directory_slots d v - cursor)) d cursor v.

(** The block of the FAT is returned to the heap, whose state is not part of the volume. *)
Definition detach (v : volume D) : volume D := set_vbusy (vbusy v) (volume_zero (dev v)).
End Reading.

Section Geometry.
Context {D : Type} (dops : option (block_operations D)).

(** The checks and the layout of a boot sector for a device of [count] sectors. *)
Definition boot_layout (boot : Z → Z) (count : Z) : fs_error * fat16_information :=
  let bytes := u16 boot 11 in
  let per_cluster := boot 13 in
  let reserved := u16 boot 14 in
  let copies := boot 16 in
  let entries := u16 boot 17 in
  let small := u16 boot 19 in
  let large := u32 boot 32 in
  let fsectors := u16 boot 22 in
  let total := if negb (small =? 0) then small else large in
  if negb (boot 510 =? 0x55) || negb (boot 511 =? 0xaa) || (reserved =? 0) || (entries =? 0) ||
     negb (entries mod ENTRIES_PER_SECTOR =? 0) || (fsectors =? 0) || (total =? 0) ||
     (negb (small =? 0) && negb (large =? 0)) || (per_cluster =? 0) ||
     negb (Z.land per_cluster (per_cluster - 1) =? 0) || negb (u32 boot 28 =? 0) ||
     (negb (boot 21 =? 0xf0) && (boot 21 <? 0xf8)) then (FS_INVALID, no_info) else
  if negb (bytes =? FAT16_SECTOR_SIZE) || negb (copies =? 2) || (per_cluster >? FAT16_CLUSTER_SECTOR_LIMIT) ||
     (fsectors >? FAT16_FAT_SECTOR_LIMIT) then (FS_UNSUPPORTED, no_info) else
  if total >? count then (FS_RANGE, no_info) else
  let root := reserved + copies * fsectors in
  let data := root + entries / ENTRIES_PER_SECTOR in
  if data >=? total then (FS_RANGE, no_info) else
  let n := (total - data) / per_cluster in
  if (n <? 4085) || (n >? MAX_CLUSTERS) then (FS_UNSUPPORTED, no_info) else
  if (n + 2) * 2 >? fsectors * FAT16_SECTOR_SIZE then (FS_RANGE, no_info) else
  (FS_OK, FatInfo total n (per_cluster * FAT16_SECTOR_SIZE) reserved fsectors root entries data false false false).

(** The error, the boot sector read and the volume with its layout. *)
Definition geometry (given : bool) (v : volume D) : (fs_error * list Z) * volume D :=
  if negb given || negb (online (device (dev v))) then ((FS_UNAVAILABLE, []), v) else
  if negb (sector_size (device (dev v)) =? FAT16_SECTOR_SIZE) then ((FS_UNSUPPORTED, []), v) else
  let '((r, buffer), d) := block_read dops given 0 1 (Some []) FAT16_SECTOR_SIZE (dev v) in
  let v := set_dev d v in
  let boot := default [] buffer in
  if bool_decide (error r ≠ BLOCK_OK) then ((fs_error_from_block (error r), boot), v) else
  if negb (completed r =? 1) then ((FS_IO_ERROR, boot), v) else
  let '(e, i) := boot_layout (sget boot) (sector_count (device (dev v))) in
  ((e, boot), if bool_decide (e = FS_OK) then set_info i v else v).
End Geometry.

(** ** Well-formed layouts *)

Definition layout_ok (i : fat16_information) : Prop :=
  let per := cluster_bytes i / FAT16_SECTOR_SIZE in
  cluster_bytes i = per * FAT16_SECTOR_SIZE ∧ 1 ≤ per ≤ FAT16_CLUSTER_SECTOR_LIMIT ∧
  4085 ≤ clusters i ≤ MAX_CLUSTERS ∧
  0 < fat_start i ∧ 0 < fat_sectors i ≤ FAT16_FAT_SECTOR_LIMIT ∧
  root_start i = fat_start i + 2 * fat_sectors i ∧
  data_start i = root_start i + root_entries i / ENTRIES_PER_SECTOR ∧
  root_entries i mod ENTRIES_PER_SECTOR = 0 ∧ 0 < root_entries i ≤ UINT16_MAX ∧
  data_start i + clusters i * per ≤ sectors i ∧ sectors i ≤ UINT32_MAX ∧
  (clusters i + 2) * 2 ≤ fat_sectors i * FAT16_SECTOR_SIZE.
#[global] Instance layout_ok_dec i : Decision (layout_ok i).
Proof. unfold layout_ok. apply _. Defined.

(** Bytes combine into words. *)
Definition byte (c : Z) : Prop := 0 ≤ c < 256.
Lemma u16_eq p i : byte (p i) → u16 p i = p i + p (i + 1) * 256.
Proof. intros H. unfold u16. apply lor_shiftl; [lia|]. unfold byte in H. lia. Qed.
Lemma u16_bound p i : byte (p i) → byte (p (i + 1)) → 0 ≤ u16 p i ≤ UINT16_MAX.
Proof. intros H1 H2. rewrite u16_eq by done. unfold byte, UINT16_MAX in *. lia. Qed.
Lemma u32_eq p i : byte (p i) → byte (p (i + 1)) → u32 p i = u16 p i + u16 p (i + 2) * 65536.
Proof. intros H1 H2. unfold u32. apply lor_shiftl; [lia|]. pose proof (u16_bound p i H1 H2). unfold UINT16_MAX in *. lia. Qed.

Lemma u32_bound p i : (∀ k, byte (p k)) → 0 ≤ u32 p i ≤ UINT32_MAX.
Proof.
  intros H. rewrite u32_eq by apply H. pose proof (u16_bound p i (H _) (H _)). pose proof (u16_bound p (i + 2) (H _) (H _)).
  unfold UINT16_MAX, UINT32_MAX in *. lia.
Qed.

Lemma boot_layout_valid boot count i : (∀ k, byte (boot k)) →
  boot_layout boot count = (FS_OK, i) → layout_ok i ∧ sectors i ≤ count.
Proof.
  intros Hb. unfold boot_layout. set (total := if negb _ then _ else _).
  assert (total ≤ UINT32_MAX) as Hcount.
  { unfold total. pose proof (u16_bound boot 19 (Hb _) (Hb _)). pose proof (u32_bound boot 32 Hb). unfold UINT16_MAX, UINT32_MAX in *. destruct (negb _); lia. }
  pose proof (u16_bound boot 14 (Hb _) (Hb _)). pose proof (u16_bound boot 17 (Hb _) (Hb _)).
  pose proof (u16_bound boot 22 (Hb _) (Hb _)). pose proof (Hb 13) as Hper. unfold byte in Hper.
  set (reserved := u16 boot 14) in *. set (entries := u16 boot 17) in *. set (fsectors := u16 boot 22) in *.
  set (per := boot 13) in *.
  match goal with |- context [if ?b then (FS_INVALID, _) else _] => destruct b eqn:E1; [done|] end.
  match goal with |- context [if ?b then (FS_UNSUPPORTED, _) else _] => destruct b eqn:E2; [done|] end.
  rewrite !orb_false_iff in E1. rewrite !orb_false_iff in E2.
  rewrite !Z.gtb_ltb, Z.geb_leb. destruct (Z.ltb_spec count total) as [|Htot]; [done|].
  destruct E2 as [[[_ Ecopies] Eper] Efs]. apply negb_false_iff, Z.eqb_eq in Ecopies. rewrite Ecopies. rewrite Z.gtb_ltb in Eper, Efs.
  destruct E1 as [[[[[[[[[[[_ _] Er] Ee] Em] Ef] _] _] Ep] _] _] _].
  assert (1 ≤ per ≤ 64 ∧ 1 ≤ reserved ∧ 1 ≤ entries ∧ 1 ≤ fsectors ≤ 256) as (Hp & Hr & He & Hf).
  { unfold FAT16_CLUSTER_SECTOR_LIMIT, FAT16_FAT_SECTOR_LIMIT in *. lia. }
  set (data := reserved + 2 * fsectors + entries / ENTRIES_PER_SECTOR).
  destruct (Z.leb_spec total data) as [|Hdata]; [done|]. set (n := (total - data) / per).
  destruct ((n <? 4085) || (MAX_CLUSTERS <? n)) eqn:E3; [done|]. apply orb_false_iff in E3.
  destruct (Z.ltb_spec (fsectors * FAT16_SECTOR_SIZE) ((n + 2) * 2)); [done|]. intros [= <-].
  assert (per * n ≤ total - data) by (apply Z.mul_div_le; lia).
  unfold layout_ok. cbn [cluster_bytes clusters fat_start fat_sectors root_start data_start root_entries sectors].
  rewrite Z.div_mul by done. unfold FAT16_CLUSTER_SECTOR_LIMIT, FAT16_FAT_SECTOR_LIMIT, UINT16_MAX in *.
  split; [|lia]. split_and!; done || lia.
Qed.

(** Any boot sector that the mount accepts describes a consistent layout that fits
    the device: reserved sectors, two FATs, root directory and clusters follow each
    other, end inside the volume, the number of clusters is that of a FAT16, and the
    FAT has an entry for every cluster. *)
Theorem boot_layout_sound boot count i : (∀ k, byte (boot k)) →
  boot_layout boot count = (FS_OK, i) → layout_ok i ∧ sectors i ≤ count.
Proof. apply boot_layout_valid. Qed.

(** ** Cluster chains *)

Section Chains.
Context {D : Type}.
Implicit Types (v : volume D).

(** [l] are the clusters after [c]; the FAT entry of the last one is an end mark. *)
Fixpoint linked v (c : Z) (l : list Z) : Prop :=
  match l with
  | [] => FIRST_END ≤ fat16_next_cluster c v
  | d :: l => fat16_next_cluster c v = d ∧ fat16_valid_cluster d v = true ∧ linked v d l
  end.
(** The whole chain of a file or directory: valid, linked, without repetition. *)
Definition is_chain v (first : Z) (l : list Z) : Prop :=
  fat16_valid_cluster first v = true ∧ linked v first l ∧ NoDup (first :: l).

Definition marked (seen : gmap Z Z) (c : Z) : bool := Z.testbit (aget seen (c / 8)) (c mod 8).
Definition marks (seen : gmap Z Z) (l : list Z) : Prop := ∀ c, 0 ≤ c → marked seen c = bool_decide (c ∈ l).

Lemma div_mod_inj a b : a / 8 = b / 8 → a mod 8 = b mod 8 → a = b.
Proof. intros H1 H2. rewrite (Z.div_mod a 8), (Z.div_mod b 8), H1, H2 by lia. done. Qed.

Lemma marks_add seen l c : 0 ≤ c → marks seen l →
  marks (aset seen (c / 8) (Z.lor (aget seen (c / 8)) (Z.shiftl 1 (c mod 8)))) (l ++ [c]).
Proof.
  intros Hc Hm d Hd. pose proof (Z.mod_pos_bound c 8 ltac:(lia)). pose proof (Z.mod_pos_bound d 8 ltac:(lia)).
  unfold marked. destruct (decide (d / 8 = c / 8)) as [E|E].
  - rewrite E, aget_aset_eq, Z.lor_spec, shiftl1_testbit by lia.
    rewrite <- E. fold (marked seen d). rewrite (Hm d Hd).
    destruct (Z.eqb_spec (d mod 8) (c mod 8)) as [E'|E'].
    + rewrite (div_mod_inj d c E E'), orb_true_r. symmetry. apply bool_decide_eq_true. set_solver.
    + rewrite orb_false_r. apply bool_decide_ext. assert (d ≠ c) by congruence. set_solver.
  - rewrite aget_aset_ne by done. fold (marked seen d). rewrite (Hm d Hd). apply bool_decide_ext.
    assert (d ≠ c) by congruence. set_solver.
Qed.

Lemma valid_cluster_range c v : fat16_valid_cluster c v = true → 2 ≤ c < FIRST_RESERVED ∧ c ≤ clusters (info v) + 1.
Proof. unfold fat16_valid_cluster. rewrite !andb_true_iff. lia. Qed.

Lemma chain_loop_spec fuel n c seen pre v m : marks seen pre → NoDup pre →
  fst (chain_loop fuel n c seen v) = Some m ↔
  ∃ l, fat16_valid_cluster c v = true ∧ linked v c l ∧ NoDup (pre ++ c :: l) ∧ m = n + len l ∧ (List.length l < fuel)%nat.
Proof.
  revert n c seen pre; induction fuel as [|fuel IH]; intros n c seen pre Hm Hnd; cbn [chain_loop].
  { split; [done|]. intros (l & _ & _ & _ & _ & ?). lia. }
  destruct (fat16_valid_cluster c v) eqn:Hv; cbn [negb]; [|split; [done|by intros (l & ? & _)]].
  destruct (valid_cluster_range _ _ Hv) as [Hc _].
  rewrite mask_testbit by (apply Z.mod_pos_bound; lia). fold (marked seen c). rewrite (Hm c) by lia.
  case_bool_decide as Hin.
  { split; [done|]. intros (l & _ & _ & Hn & _). exfalso. apply list.NoDup_app in Hn as (_ & Hd & _). apply (Hd c Hin). by left. }
  set (seen' := aset seen _ _). assert (marks seen' (pre ++ [c])) as Hm' by (apply marks_add; [lia|done]).
  assert (NoDup (pre ++ [c])) as Hnd'.
  { apply list.NoDup_app. split_and!; [done| |apply NoDup_singleton]. intros x Hx E. apply list_elem_of_singleton in E. by subst. }
  destruct (Z.leb_spec FIRST_END (fat16_next_cluster c v)) as [He|He].
  - cbn [fst]. split.
    + intros [= <-]. exists []. cbn. split_and!; done || lia.
    + intros (l & _ & Hl & _ & -> & _). destruct l as [|d l]; [cbn; f_equal; lia|].
      destruct Hl as (E & Hd & _). apply valid_cluster_range in Hd. unfold FIRST_RESERVED, FIRST_END in *. lia.
  - destruct (fat16_valid_cluster (fat16_next_cluster c v) v) eqn:Hvn; cbn [negb].
    2: { split; [done|]. intros (l & _ & Hl & _). destruct l as [|d l]; [cbn in Hl; lia|]. destruct Hl as (E & Hd & _). congruence. }
    rewrite (IH (n + 1) _ seen' (pre ++ [c]) Hm' Hnd'). split.
    + intros (l & _ & Hl & Hn & -> & Hf). exists (fat16_next_cluster c v :: l). rewrite <- app_assoc in Hn. cbn.
      split_and!; done || lia.
    + intros (l & _ & Hl & Hn & -> & Hf). destruct l as [|d l]; [cbn in Hl; lia|]. destruct Hl as (E & Hd & Hl).
      exists l. rewrite E, <- app_assoc. cbn in *. split_and!; done || lia.
Qed.

(** Distinct clusters are no more than the volume has. *)
Lemma nodup_range l a n : NoDup l → (∀ c, c ∈ l → a ≤ c < a + n) → len l ≤ Z.max 0 n.
Proof.
  intros Hn Hr. assert (l ⊆+ seqZ a n) as Hs.
  { apply NoDup_submseteq; [done|]. intros c Hc. apply elem_of_seqZ. by apply Hr. }
  apply submseteq_length in Hs. rewrite length_seqZ in Hs. lia.
Qed.
Lemma linked_valid v c l d : linked v c l → d ∈ l → fat16_valid_cluster d v = true.
Proof.
  revert c; induction l as [|e l IH]; intros c; [by rewrite elem_of_nil|]. cbn. intros (_ & He & Hl).
  rewrite elem_of_cons. intros [->|Hd]; [done|]. by apply (IH e).
Qed.
Lemma is_chain_length v first l : is_chain v first l → 0 ≤ clusters (info v) → len (first :: l) ≤ clusters (info v).
Proof.
  intros (Hv & Hl & Hn) Hc.
  enough (len (first :: l) ≤ Z.max 0 (clusters (info v))) by lia.
  apply (nodup_range _ 2 _ Hn). intros c. rewrite elem_of_cons. intros [->|Hin].
  - apply valid_cluster_range in Hv. lia.
  - apply (linked_valid _ _ _ _ Hl), valid_cluster_range in Hin. lia.
Qed.

Lemma fat16_chain_frame first v : ∃ seen, snd (fat16_chain first v) = set_visited seen v.
Proof. unfold fat16_chain. destruct (chain_loop _ _ _ _ _) as [[m|] seen]; by eexists. Qed.

Lemma fat16_chain_spec first v n : 0 ≤ clusters (info v) →
  (fst (fst (fat16_chain first v)) = FS_OK ∧ snd (fst (fat16_chain first v)) = n) ↔ ∃ l, is_chain v first l ∧ n = 1 + len l.
Proof.
  intros Hc. unfold fat16_chain.
  assert (marks ∅ []) as Hm.
  { intros c _. unfold marked, aget. rewrite lookup_empty. cbn. by rewrite Z.testbit_0_l. }
  pose proof (λ m, chain_loop_spec (Z.to_nat (clusters (info v))) 1 first ∅ [] v m Hm (NoDup_nil_2 : NoDup ([] : list Z))) as Hs.
  destruct (chain_loop _ _ _ _ _) as [[m|] seen]; cbn [fst snd] in *.
  - split.
    + intros [_ <-]. destruct (proj1 (Hs m) eq_refl) as (l & ? & ? & ? & -> & _). by exists l.
    + intros (l & Hl & ->). split; [done|]. pose proof (is_chain_length v first l Hl Hc) as Hlen. destruct Hl as (? & ? & ?).
      enough (Some m = Some (1 + len l)) by congruence. apply Hs. exists l. split_and!; try done. cbn [List.length] in Hlen. lia.
  - split; [by intros [? _]|]. intros (l & Hl & ->). exfalso. pose proof (is_chain_length v first l Hl Hc) as Hlen.
    destruct Hl as (? & ? & ?). enough (None = Some (1 + len l)) by done. apply Hs. exists l. split_and!; try done.
    cbn [List.length] in Hlen. lia.
Qed.
End Chains.

(** C12: fat16_chain accepts exactly the chains that are valid, end in an end mark and
    never repeat a cluster, whatever the FAT holds; it then returns their number of
    clusters, and it always terminates within the number of clusters of the volume. *)
Theorem fat16_chain_exact {D} (v : volume D) first n : 0 ≤ clusters (info v) →
  (∃ v', fat16_chain first v = ((FS_OK, n), v')) ↔ ∃ l, is_chain v first l ∧ n = 1 + len l.
Proof.
  intros Hc. rewrite <- (fat16_chain_spec first v n Hc). destruct (fat16_chain first v) as [[e m] v']. cbn. split.
  - intros [? [= -> -> _]]. done.
  - intros [-> ->]. by eexists.
Qed.

(** ** What reading leaves alone *)

Section Keeps.
Context {D : Type} (dops : option (block_operations D)).
Implicit Types (v : volume D).

Definition keeps v v' : Prop :=
  info v' = info v ∧ fat v' = fat v ∧ owners v' = owners v ∧ vpins v' = vpins v ∧ vready v' = vready v ∧
  vbusy v' = vbusy v ∧ audited v' = audited v ∧ has_device v' = has_device v.
#[global] Instance keeps_preorder : PreOrder keeps.
Proof.
  split; [done|]. intros v1 v2 v3 H1 H2. unfold keeps in *. destruct_and!. split_and!; congruence.
Qed.

Lemma read_sectors_keeps n c data v : keeps v (snd (fat16_read_sectors dops n c data v)).
Proof.
  unfold fat16_read_sectors. destruct (_ || _); [done|]. by destruct (block_read _ _ _ _ _ _ _) as [[r buffer] d].
Qed.
Lemma sector_keeps n v : keeps v (snd (fat16_sector dops n v)).
Proof.
  unfold fat16_sector. destruct (_ && _); [done|].
  pose proof (read_sectors_keeps n 1 (list_of FAT16_SECTOR_SIZE (sector v)) (set_cached (cached_sector v) false v)) as H.
  cbn [sector set_cached]. destruct (fat16_read_sectors _ _ _ _ _) as [[e data] v']. cbn [snd] in H |- *.
  transitivity v'; [exact H|]. by destruct (bool_decide _).
Qed.
Lemma chain_keeps first v : keeps v (snd (fat16_chain first v)).
Proof. destruct (fat16_chain_frame first v) as [seen ->]. done. Qed.
Lemma decode_keeps entry id v : keeps v (snd (fat16_decode entry id v)).
Proof.
  unfold fat16_decode. destruct (entry 0 =? 0); [done|]. destruct (_ || _); [done|]. destruct (_ && _); [done|].
  destruct (_ && _ && _); [done|]. destruct (short_name entry) as [e name]. destruct (bool_decide _); [done|].
  destruct (_ || _); [done|]. pose proof (chain_keeps (u16 entry 26) v) as H.
  destruct (_ =? FS_DIRECTORY).
  - destruct (negb _); [done|]. destruct (fat16_chain _ v) as [[e' n] v']. by destruct (_ && _).
  - destruct (_ =? 0); [done|]. destruct (_ >? _); [done|]. by destruct (fat16_chain _ v) as [[e' n] v'].
Qed.
Lemma describe_keeps id v : keeps v (snd (fat16_describe dops id v)).
Proof.
  unfold fat16_describe. destruct (negb _); [done|]. destruct (faulted _); [done|]. destruct (id =? _); [done|].
  destruct (fat16_slot_offset id v) as [offset|]; [|done]. pose proof (sector_keeps (wrap32 (offset / FAT16_SECTOR_SIZE)) v) as H1.
  destruct (fat16_sector _ _ v) as [e v1]. cbn [snd] in H1. destruct (bool_decide _); [done|].
  pose proof (decode_keeps (entry_at offset v1) id v1) as H2. destruct (fat16_decode _ _ v1) as [[e' [d n]] v2].
  by transitivity v1.
Qed.
Lemma directory_entry_keeps d c v : keeps v (snd (fat16_directory_entry dops d c v)).
Proof.
  unfold fat16_directory_entry. destruct (fat16_directory_slot d c v) as [e id]. destruct (bool_decide _); [done|].
  destruct (fat16_slot_offset id v) as [offset|]; [|done]. pose proof (sector_keeps (wrap32 (offset / FAT16_SECTOR_SIZE)) v) as H1.
  destruct (fat16_sector _ _ v) as [e' v1]. cbn [snd] in H1. destruct (bool_decide _); [done|].
  etransitivity; [exact H1|apply decode_keeps].
Qed.
Lemma lookup_keeps p n v : keeps v (snd (lookup dops p n v)).
Proof.
  unfold lookup. pose proof (describe_keeps p v) as H. destruct (fat16_describe dops p v) as [[e d] v1]. cbn [snd] in H.
  destruct (bool_decide _); [done|]. destruct (negb _); [done|]. transitivity v1; [done|].
  generalize (Z.to_nat (fat16_directory_slots d v1)) as fuel. generalize 0 as c. clear H. intros c fuel.
  revert c v1; induction fuel as [|fuel IH]; intros c v1; cbn [lookup_loop]; [done|].
  pose proof (directory_entry_keeps d c v1) as H1. destruct (fat16_directory_entry dops d c v1) as [[e' [en nm]] v2]. cbn [snd] in H1.
  destruct (bool_decide _); [done|]. destruct (bool_decide _); [by transitivity v2|]. destruct (bool_decide _); [done|].
  destruct (equal _ _); [done|]. by transitivity v2.
Qed.
Lemma stat_keeps i v : keeps v (snd (stat_node dops i v)).
Proof. unfold stat_node. pose proof (describe_keeps i v) as H. by destruct (fat16_describe dops i v) as [[e d] v1]. Qed.
Lemma readdir_keeps i c v : keeps v (snd (readdir_node dops i c v)).
Proof.
  unfold readdir_node. pose proof (describe_keeps i v) as H. destruct (fat16_describe dops i v) as [[e d] v1]. cbn [snd] in H.
  destruct (bool_decide _); [done|]. destruct (negb _); [done|]. transitivity v1; [done|].
  generalize (Z.to_nat (fat16_directory_slots d v1 - c)) as fuel. clear H. intros fuel.
  revert c v1; induction fuel as [|fuel IH]; intros c v1; cbn [readdir_loop]; [done|].
  pose proof (directory_entry_keeps d c v1) as H1. destruct (fat16_directory_entry dops d c v1) as [[e' [en nm]] v2]. cbn [snd] in H1.
  destruct (bool_decide _); [by transitivity v2|]. by destruct (bool_decide _).
Qed.
Lemma read_loop_keeps fuel c o b r data v : keeps v (snd (read_loop dops fuel c o b r data v)).
Proof.
  revert c o r data v; induction fuel as [|fuel IH]; intros c o r data v; cbn [read_loop]; [done|].
  destruct (negb _); [done|]. set (n := wrap32 (fat16_cluster_sector c v + _)). pose proof (sector_keeps n v) as H.
  destruct (fat16_sector dops n v) as [e v1]. cbn [snd] in H. destruct (bool_decide _); [done|].
  etransitivity; [exact H|]. apply IH.
Qed.
Lemma read_keeps i o data b v : keeps v (snd (read_file dops i o data b v)).
Proof.
  unfold read_file. pose proof (describe_keeps i (set_last_io io_zero v)) as H.
  destruct (fat16_describe dops i _) as [[e d] v1]. cbn [snd] in H.
  set (m := if _ && _ then _ else _). assert (keeps v1 (snd m)) as Hm.
  { unfold m. destruct (_ && _); [apply read_loop_keeps|done]. }
  destruct m as [[r data'] v2]. cbn [snd] in *. transitivity v1; [exact H|done].
Qed.
End Keeps.

(** ** What reading relies on: a disk whose reads return its bytes *)

Class DiskLaw {D : Type} (o : block_operations D) := {
  disk_driver :: DriverLaw o;
  disk_byte : D → Z → Z;
  disk_read f lba n data s r data' s' :
    Block.op_read o = Some f → f lba n data s = ((r, data'), s') →
    (∀ a, disk_byte (driver s') a = disk_byte (driver s) a) ∧
    (error r = BLOCK_OK → completed r = n → ∀ i, 0 ≤ i < n * FAT16_SECTOR_SIZE →
       sget data' i = disk_byte (driver s) (lba * FAT16_SECTOR_SIZE + i))
}.

Section Contents.
Context {D : Type} (o : block_operations D) `{!DiskLaw o}.
Implicit Types (v : volume D).
Notation dops := (Some o).

Definition vbyte v (a : Z) : Z := disk_byte (driver (dev v)) a.
(** Reading keeps the bytes of the disk and the state of the device counters. *)
Definition same_bytes v v' : Prop :=
  keeps v v' ∧ (∀ a, vbyte v' a = vbyte v a) ∧ sector_size (device (dev v')) = sector_size (device (dev v)) ∧
  active_requests (dev v') = active_requests (dev v).
#[global] Instance same_bytes_preorder : PreOrder same_bytes.
Proof.
  split; [done|]. intros v1 v2 v3 (H1 & H2 & H3 & H4) (K1 & K2 & K3 & K4). split_and!; [by transitivity v2| |congruence..].
  intros a. by rewrite K2, H2.
Qed.

(** The device state that block_read expects. *)
Definition device_ok v : Prop :=
  0 ≤ sector_size (device (dev v)) ∧ 0 ≤ active_requests (dev v) ≤ UINT32_MAX.
Lemma same_bytes_device v v' : same_bytes v v' → device_ok v → device_ok v'.
Proof. intros (_ & _ & E1 & E2). unfold device_ok. by rewrite E1, E2. Qed.

Lemma block_read_bytes given lba n buf bytes (s : bio D) :
  0 ≤ lba → 0 < n → 0 ≤ bytes → 0 ≤ sector_size (device s) → 0 ≤ active_requests s ≤ UINT32_MAX →
  let '((r, buf'), s') := block_read dops given lba n (Some buf) bytes s in
  (∀ a, disk_byte (driver s') a = disk_byte (driver s) a) ∧
  sector_size (device s') = sector_size (device s) ∧ active_requests s' = active_requests s ∧
  (error r = BLOCK_OK → completed r = n → ∃ data, buf' = Some data ∧
     ∀ i, 0 ≤ i < n * FAT16_SECTOR_SIZE → sget data i = disk_byte (driver s) (lba * FAT16_SECTOR_SIZE + i)).
Proof.
  intros Hl Hn Hb Hz Ha. unfold block_read.
  destruct (decide (given = true ∧ is_Some dops ∧ idle s)) as [(-> & _ & Hi)|Hnot].
  2: { destruct (acquire_refused dops given s Ha Hnot) as (e & -> & He). rewrite bool_decide_eq_true_2 by done. by split_and!. }
  rewrite (acquire_idle o s Hi), bool_decide_eq_false_2 by (by intros []).
  destruct (release_held s (held s) ltac:(done) Hi) as [Ha0 _].
  destruct (request_checked s lba n (Some buf) bytes Hl ltac:(lia) Hb Hz Hi) as [(data & [= <-] & -> & _)|[Hno He]].
  2: { destruct Hno as [Hno|]; [|done]. rewrite Hno. cbn -[Block.release]. split_and!; [done|done|done|].
       intros E. specialize (He E). lia. }
  destruct (Block.op_read o) as [f|] eqn:Ef; [|cbn -[Block.release]; by split_and!].
  destruct (f lba n buf (held s)) as [[r data'] s''] eqn:Er.
  pose proof (law_read (o := o) f lba n buf (held s) Ef) as Hlaw. rewrite Er in Hlaw.
  destruct (release_held s s'' Hlaw Hi) as [Ha1 _]. destruct (disk_read f lba n buf (held s) r data' s'' Ef Er) as [Hd Hok].
  split_and!; [exact Hd|destruct Hlaw as (_ & _ & _ & Hs & _); exact Hs|done|].
  intros E1 E2. exists data'. split; [done|]. by apply Hok.
Qed.

Lemma read_sectors_bytes n c data v : 0 ≤ n → 0 < c → device_ok v →
  let '((e, data'), v') := fat16_read_sectors dops n c data v in
  same_bytes v v' ∧ cache_valid v' = cache_valid v ∧ cached_sector v' = cached_sector v ∧ sector v' = sector v ∧
  (e = FS_OK → ∀ i, 0 ≤ i < c * FAT16_SECTOR_SIZE → sget data' i = vbyte v (n * FAT16_SECTOR_SIZE + i)).
Proof.
  intros Hn Hc [Hz Ha]. unfold fat16_read_sectors. destruct (_ || _); [by split_and!|].
  pose proof (block_read_bytes (has_device v) n c data (c * FAT16_SECTOR_SIZE) (dev v) Hn Hc ltac:(unfold FAT16_SECTOR_SIZE; lia) Hz Ha) as H.
  destruct (block_read _ _ _ _ _ _ _) as [[r buf] d]. destruct H as (H1 & H2 & H3 & H4).
  split; [unfold same_bytes; by split_and!|]. split_and!; [done..|]. intros E.
  destruct (decide (error r = BLOCK_OK)) as [Er|Er].
  - rewrite bool_decide_eq_true_2 in E by done. cbn [andb] in E.
    destruct (Z.eqb_spec (completed r) c) as [Ec|Ec]; cbn [negb] in E; [|done].
    destruct (H4 Er Ec) as (x & -> & Hx). exact Hx.
  - rewrite bool_decide_eq_false_2 in E by done. cbn [andb] in E. by destruct (error r).
Qed.

(** The sector cache holds what the disk holds. *)
Definition cache_ok v : Prop :=
  cache_valid v = true → ∀ i, 0 ≤ i < FAT16_SECTOR_SIZE → aget (sector v) i = vbyte v (cached_sector v * FAT16_SECTOR_SIZE + i).

Lemma array_from_get i l k : aget (array_from i l) k = if decide (i ≤ k) then sget l (k - i) else 0.
Proof.
  revert i; induction l as [|x l IH]; intros i; cbn [array_from].
  - unfold aget. rewrite lookup_empty. case_decide; [|done]. by rewrite sget_end by (cbn; lia).
  - destruct (decide (k = i)) as [->|Hne].
    + unfold aget. rewrite lookup_insert_eq, decide_True by lia. cbn. by rewrite Z.sub_diag.
    + unfold aget. rewrite lookup_insert_ne by done. fold (aget (array_from (i + 1) l) k). rewrite IH.
      destruct (decide (i + 1 ≤ k)); [|rewrite decide_False by lia; done].
      rewrite decide_True, (sget_cons x) by lia. f_equal. lia.
Qed.
Lemma array_of_get l k : 0 ≤ k → aget (array_of l) k = sget l k.
Proof. intros. unfold array_of. rewrite array_from_get, decide_True by lia. f_equal. lia. Qed.

Lemma sector_bytes n v : 0 ≤ n → device_ok v → cache_ok v →
  let '(e, v') := fat16_sector dops n v in
  same_bytes v v' ∧ cache_ok v' ∧
  (e = FS_OK → ∀ i, 0 ≤ i < FAT16_SECTOR_SIZE → aget (sector v') i = vbyte v (n * FAT16_SECTOR_SIZE + i)).
Proof.
  intros Hn Hd Hc. unfold fat16_sector. destruct (_ && _) eqn:E.
  { apply andb_true_iff in E as [Ev En]. apply Z.eqb_eq in En. subst n. split_and!; [done|done|]. intros _. by apply Hc. }
  pose proof (read_sectors_bytes n 1 (list_of FAT16_SECTOR_SIZE (sector v)) (set_cached (cached_sector v) false v) Hn ltac:(lia) Hd) as H.
  cbn [sector set_cached]. destruct (fat16_read_sectors _ _ _ _ _) as [[e data] v']. destruct H as (H1 & H2 & H3 & H4 & H5).
  assert (same_bytes v v') as Hs by exact H1. clear H1.
  destruct (decide (e = FS_OK)) as [->|He].
  - rewrite bool_decide_eq_true_2 by done. specialize (H5 eq_refl).
    assert (∀ i, 0 ≤ i < FAT16_SECTOR_SIZE → aget (array_of data) i = vbyte v (n * FAT16_SECTOR_SIZE + i)) as Hget.
    { intros i Hi. rewrite array_of_get by lia. apply H5. lia. }
    split_and!; [exact Hs| |intros _; exact Hget]. intros _ i Hi. cbn. rewrite Hget by done. by destruct Hs as (_ & <- & _).
  - rewrite bool_decide_eq_false_2 by done. split_and!; [exact Hs| |done]. intros Hv. cbn in Hv. rewrite H2 in Hv. done.
Qed.

Lemma visited_bytes m v : same_bytes v (set_visited m v) ∧ (cache_ok v → cache_ok (set_visited m v)).
Proof. done. Qed.
Lemma decode_bytes entry id v : cache_ok v → same_bytes v (snd (fat16_decode entry id v)) ∧ cache_ok (snd (fat16_decode entry id v)).
Proof.
  intros Hc. unfold fat16_decode. destruct (entry 0 =? 0); [done|]. destruct (_ || _); [done|]. destruct (_ && _); [done|].
  destruct (_ && _ && _); [done|]. destruct (short_name entry) as [e name]. destruct (bool_decide _); [done|].
  destruct (_ || _); [done|]. destruct (fat16_chain_frame (u16 entry 26) v) as [m Hm].
  destruct (fat16_chain (u16 entry 26) v) as [[e' n] v']. cbn [snd] in Hm. subst v'.
  destruct (_ =? FS_DIRECTORY).
  - destruct (negb _); [done|]. by destruct (_ && _).
  - destruct (_ =? 0); [done|]. by destruct (_ >? _).
Qed.

(** A decoded nonempty file has a chain with exactly the clusters its size needs. *)
Lemma decode_file entry id v d name v' : 0 ≤ clusters (info v) →
  fat16_decode entry id v = ((FS_OK, (d, name)), v') → node_kind (dnode d) = FS_FILE →
  node_size (dnode d) ≠ 0 →
  ∃ l, is_chain v (dfirst d) l ∧ 1 + len l = (node_size (dnode d) + cluster_bytes (info v) - 1) / cluster_bytes (info v).
Proof.
  intros Hcl. unfold fat16_decode. destruct (entry 0 =? 0); [done|]. destruct (_ || _); [done|]. destruct (_ && _); [done|].
  destruct (_ && _ && _); [done|]. destruct (short_name entry) as [e nm]. destruct (bool_decide (e ≠ FS_OK)) eqn:Ee.
  { apply bool_decide_eq_true in Ee. by intros [= ? _ _]. }
  destruct (_ || _); [done|]. set (kind := if negb _ then FS_DIRECTORY else FS_FILE).
  destruct (Z.eqb_spec kind FS_DIRECTORY) as [Ek|Ek].
  { destruct (negb (u32 entry 28 =? 0)); [done|]. destruct (fat16_chain _ v) as [[e' n] v1].
    match goal with |- (if ?b then _ else _) = _ → _ => destruct b; [done|] end. intros [= _ <- _ _]. cbn. intros Ef. rewrite Ek in Ef. done. }
  destruct (Z.eqb_spec (u32 entry 28) 0) as [Ez|Ez].
  { intros [= _ <- _ _]. cbn. intros _ Hne. by destruct (Hne Ez). }
  destruct (_ >? _); [done|]. pose proof (fat16_chain_spec (u16 entry 26) v) as Hs.
  destruct (fat16_chain (u16 entry 26) v) as [[e' n] v1] eqn:Ec. cbn [fst snd] in Hs.
  destruct (bool_decide (e' ≠ FS_OK)) eqn:Ee'; [apply bool_decide_eq_true in Ee'; by intros [= ? _ _]|].
  apply bool_decide_eq_false in Ee'. assert (e' = FS_OK) as -> by (by destruct (decide (e' = FS_OK))).
  destruct (Z.eqb_spec n ((u32 entry 28 + cluster_bytes (info v) - 1) / cluster_bytes (info v))) as [En|En]; [|done].
  intros [= <- _ _]. cbn. intros _ _. destruct (proj1 (Hs n Hcl) (conj eq_refl eq_refl)) as (l & Hl & El).
  exists l. split; [done|]. lia.
Qed.

(** ** Buffers and positions *)

Lemma list_from_length n i f : List.length (list_from n i f) = n.
Proof. revert i; induction n as [|n IH]; intros i; cbn; [done|]. by rewrite IH. Qed.
Lemma list_from_get n i f k : 0 ≤ k < Z.of_nat n → sget (list_from n i f) k = f (i + k).
Proof.
  revert i k; induction n as [|n IH]; intros i k Hk; [lia|]. cbn [list_from]. destruct (decide (k = 0)) as [->|].
  - by rewrite Z.add_0_r.
  - rewrite sget_cons, IH by lia. f_equal. lia.
Qed.
Lemma splice_length data i b : 0 ≤ i → i + len b ≤ len data → List.length (splice data i b) = List.length data.
Proof. intros. unfold splice. rewrite !length_app, length_take, length_drop. lia. Qed.
Lemma sget_take n l k : 0 ≤ k < Z.of_nat n → sget (take n l) k = sget l k.
Proof. intros. unfold sget. rewrite nth_firstn. destruct (Nat.ltb_spec (Z.to_nat k) n); [done|lia]. Qed.
Lemma splice_get data i b k : 0 ≤ i → i + len b ≤ len data → 0 ≤ k →
  sget (splice data i b) k = if decide (i ≤ k < i + len b) then sget b (k - i) else sget data k.
Proof.
  intros Hi Hb Hk. unfold splice. rewrite sget_app by done.
  assert (len (take (Z.to_nat i) data) = i) as -> by (rewrite length_take; lia).
  destruct (decide (k < i)).
  - rewrite decide_False by lia. rewrite sget_take by lia. done.
  - rewrite sget_app by lia. destruct (decide (k - i < len b)).
    + rewrite decide_True by lia. done.
    + rewrite decide_False by lia. unfold sget. rewrite nth_skipn. f_equal. lia.
Qed.

Lemma position_step per off amount :
  let cb := per * FAT16_SECTOR_SIZE in
  1 ≤ per → 0 ≤ off → 0 < amount ≤ FAT16_SECTOR_SIZE - (off mod cb) mod FAT16_SECTOR_SIZE →
  (∀ j, 0 ≤ j < amount → (off + j) / cb = off / cb ∧ (off + j) mod cb = off mod cb + j) ∧
  ((off + amount) mod cb = 0 → (off + amount) / cb = off / cb + 1) ∧
  ((off + amount) mod cb ≠ 0 → (off + amount) / cb = off / cb).
Proof.
  intros cb Hper Hoff Ha. assert (0 < cb) by (unfold cb, FAT16_SECTOR_SIZE; lia).
  set (w := off mod cb) in *. set (q := off / cb) in *.
  assert (off = cb * q + w ∧ 0 ≤ w < cb) as [Eo Hw].
  { split; [apply Z.div_mod; lia|apply Z.mod_pos_bound; lia]. }
  assert (w + amount ≤ cb) as Hfit.
  { pose proof (Z.div_mod w FAT16_SECTOR_SIZE ltac:(done)). unfold cb, FAT16_SECTOR_SIZE in *.
    pose proof (Z.mod_pos_bound w 512 ltac:(lia)). assert (w / 512 < per) by (apply Z.div_lt_upper_bound; lia). lia. }
  assert (∀ j, 0 ≤ w + j < cb → (off + j) / cb = q ∧ (off + j) mod cb = w + j) as Hin.
  { intros j Hj. replace (off + j) with (w + j + q * cb) by lia. rewrite Z.div_add, Z.mod_add by lia.
    rewrite Z.div_small, Z.mod_small by lia. lia. }
  split; [intros j Hj; apply Hin; lia|]. destruct (decide (w + amount = cb)) as [E|E].
  - assert ((off + amount) = (q + 1) * cb) as -> by lia. rewrite Z.div_mul, Z.mod_mul by lia. split; [done|]. intros Hne. by destruct Hne.
  - destruct (Hin amount ltac:(lia)) as [E1 E2]. rewrite E1, E2. split; [lia|done].
Qed.

Lemma linked_nth v c l i : linked v c l → 0 ≤ i < len l → sget (c :: l) (i + 1) = fat16_next_cluster (sget (c :: l) i) v.
Proof.
  revert c i; induction l as [|d l IH]; intros c i; [cbn; lia|]. cbn [linked List.length]. intros (E & _ & Hl) Hi.
  rewrite sget_cons by lia. replace (i + 1 - 1) with i by lia. destruct (decide (i = 0)) as [->|].
  - by rewrite <- E.
  - rewrite (sget_cons c) by lia. rewrite <- (IH d (i - 1) Hl) by lia. f_equal. lia.
Qed.
Lemma cluster_loop_nth v c l n : linked v c l → (n ≤ List.length l)%nat → cluster_loop n c v = sget (c :: l) (Z.of_nat n).
Proof.
  revert c l; induction n as [|n IH]; intros c l Hl Hn; [done|]. destruct l as [|d l]; [cbn in Hn; lia|].
  destruct Hl as (E & _ & Hl). cbn [cluster_loop]. rewrite E, (IH d l Hl) by (cbn in Hn; lia). rewrite (sget_cons c) by lia. f_equal. lia.
Qed.
Lemma chain_nth_valid v c l i : is_chain v c l → 0 ≤ i ≤ len l → fat16_valid_cluster (sget (c :: l) i) v = true.
Proof.
  intros (Hv & Hl & _) Hi. destruct (decide (i = 0)) as [->|]; [done|]. rewrite sget_cons by lia.
  apply (linked_valid _ _ _ _ Hl). unfold sget. apply list_elem_of_In, nth_In. lia.
Qed.

(** Sectors of a valid cluster stay below the end of the volume. *)
Lemma cluster_sector_eq v c : layout_ok (info v) → fat16_valid_cluster c v = true →
  fat16_cluster_sector c v = data_start (info v) + (c - 2) * (cluster_bytes (info v) / FAT16_SECTOR_SIZE) ∧
  0 ≤ fat16_cluster_sector c v ∧ fat16_cluster_sector c v + cluster_bytes (info v) / FAT16_SECTOR_SIZE ≤ sectors (info v).
Proof.
  intros (_ & Hper & Hcl & Hfs & Hf & Hr & Hd & Hm & Hre & Hend & Hmax & _) Hv. apply valid_cluster_range in Hv as [Hc Hc'].
  unfold fat16_cluster_sector. set (per := cluster_bytes (info v) / FAT16_SECTOR_SIZE) in *.
  assert (0 ≤ root_entries (info v) / ENTRIES_PER_SECTOR) by (apply Z.div_pos; [lia|done]).
  assert ((c - 2) * per + per ≤ clusters (info v) * per) by nia.
  rewrite wrap32_small by (unfold UINT32_MAX in *; nia). nia.
Qed.

(** Byte [k] of the file stored in the clusters [cs]. *)
Definition file_byte v (cs : list Z) (k : Z) : Z :=
  let cb := cluster_bytes (info v) in
  vbyte v (fat16_cluster_sector (sget cs (k / cb)) v * FAT16_SECTOR_SIZE + k mod cb).

Lemma file_byte_same v v' cs k : same_bytes v v' → file_byte v' cs k = file_byte v cs k.
Proof.
  intros ((Ei & _) & Hb & _). unfold file_byte, fat16_cluster_sector. by rewrite Ei, Hb.
Qed.
Lemma chain_same v v' c l : keeps v v' → is_chain v c l → is_chain v' c l.
Proof.
  intros (Ei & Ef & _) (Hv & Hl & Hn). unfold is_chain, fat16_valid_cluster in *. rewrite Ei. split_and!; [done| |done].
  clear Hv Hn. revert c Hl; induction l as [|d l IH]; intros c; cbn; unfold fat16_next_cluster, fat16_valid_cluster; rewrite Ef; [done|].
  rewrite Ei. intros (? & ? & ?). split_and!; [done..|]. by apply IH.
Qed.

(** What a read of [n] bytes from [off] has put into the buffer. *)
Definition holds_file v cs off n (data data' : list Z) : Prop :=
  List.length data' = List.length data ∧
  (∀ k, 0 ≤ k < n → sget data' k = file_byte v cs (off + k)) ∧
  (∀ k, n ≤ k → sget data' k = sget data k).

Lemma sget_past l k : len l ≤ k → sget l k = 0.
Proof. intros. unfold sget. apply nth_overflow. lia. Qed.
Lemma holds_file_step v v1 cs off p amount data0 data (src : Z → Z) from : same_bytes v v1 → 0 ≤ p → 0 < amount → p + amount ≤ len data →
  holds_file v cs off p data0 data → (∀ j, 0 ≤ j < amount → src (from + j) = file_byte v cs (off + p + j)) →
  holds_file v1 cs off (p + amount) data0 (splice data p (list_from (Z.to_nat amount) from src)).
Proof.
  intros Hsame Hp Ha Hfit (Hl & Hpre & Hpost) Hsrc. assert (len (list_from (Z.to_nat amount) from src) = amount) as El by (rewrite list_from_length; lia).
  split_and!.
  - rewrite splice_length by lia. done.
  - intros k Hk. rewrite splice_get, El by lia. rewrite (file_byte_same v v1) by done. destruct (decide (p ≤ k < p + amount)).
    + rewrite list_from_get, Hsrc by lia. f_equal. lia.
    + apply Hpre. lia.
  - intros k Hk. rewrite splice_get, El, decide_False by lia. apply Hpost. lia.
Qed.

Lemma sector_number v cs q w : layout_ok (info v) → fat16_valid_cluster (sget cs q) v = true → 0 ≤ w < cluster_bytes (info v) →
  wrap32 (fat16_cluster_sector (sget cs q) v + w / FAT16_SECTOR_SIZE) = fat16_cluster_sector (sget cs q) v + w / FAT16_SECTOR_SIZE ∧
  0 ≤ fat16_cluster_sector (sget cs q) v + w / FAT16_SECTOR_SIZE.
Proof.
  intros Hlay Hv Hw. destruct (cluster_sector_eq v _ Hlay Hv) as (_ & H0 & Hend).
  destruct Hlay as (Hcb & Hper & _ & _ & _ & _ & _ & _ & _ & _ & Hmax & _).
  assert (0 ≤ w / FAT16_SECTOR_SIZE < cluster_bytes (info v) / FAT16_SECTOR_SIZE).
  { split; [apply Z.div_pos; unfold FAT16_SECTOR_SIZE; lia|]. apply Z.div_lt_upper_bound; unfold FAT16_SECTOR_SIZE in *; lia. }
  rewrite wrap32_small; lia.
Qed.

Lemma layout_cluster i : layout_ok i → 512 ≤ cluster_bytes i ≤ 32768.
Proof. intros (E & Hp & _). unfold FAT16_CLUSTER_SECTOR_LIMIT, FAT16_SECTOR_SIZE in *. lia. Qed.

(** One sector of a file: the bytes the loop copies are those of the file. *)
Lemma sector_piece v v1 first l off amount : layout_ok (info v) → is_chain v first l → 0 ≤ off →
  off / cluster_bytes (info v) ≤ len l →
  0 < amount ≤ FAT16_SECTOR_SIZE - (off mod cluster_bytes (info v)) mod FAT16_SECTOR_SIZE →
  (∀ i, 0 ≤ i < FAT16_SECTOR_SIZE → aget (sector v1) i =
    vbyte v ((fat16_cluster_sector (sget (first :: l) (off / cluster_bytes (info v))) v + off mod cluster_bytes (info v) / FAT16_SECTOR_SIZE) * FAT16_SECTOR_SIZE + i)) →
  ∀ j, 0 ≤ j < amount → aget (sector v1) ((off mod cluster_bytes (info v)) mod FAT16_SECTOR_SIZE + j) = file_byte v (first :: l) (off + j).
Proof.
  intros Hlay Hch Hoff Hq Ha Hsec j Hj. pose proof (layout_cluster _ Hlay). destruct Hlay as (Hcb & Hper & _).
  set (w := off mod cluster_bytes (info v)) in *.
  assert (0 ≤ w < cluster_bytes (info v)) as Hw by (apply Z.mod_pos_bound; lia).
  pose proof (Z.mod_pos_bound w FAT16_SECTOR_SIZE ltac:(done)). pose proof (Z.div_mod w FAT16_SECTOR_SIZE ltac:(done)) as Edm.
  pose proof (position_step (cluster_bytes (info v) / FAT16_SECTOR_SIZE) off amount ltac:(lia) Hoff) as Hstep.
  cbv zeta in Hstep. rewrite <- Hcb in Hstep. destruct (Hstep Ha) as (Hin & _). destruct (Hin j Hj) as [E1 E2].
  rewrite Hsec by lia. unfold file_byte. rewrite E1, E2. fold w. f_equal. lia.
Qed.

Lemma next_position v first l off amount : layout_ok (info v) → is_chain v first l → 0 ≤ off →
  0 < amount ≤ FAT16_SECTOR_SIZE - (off mod cluster_bytes (info v)) mod FAT16_SECTOR_SIZE →
  (off + amount) / cluster_bytes (info v) ≤ len l →
  (if (off + amount) mod cluster_bytes (info v) =? 0
   then fat16_next_cluster (sget (first :: l) (off / cluster_bytes (info v))) v
   else sget (first :: l) (off / cluster_bytes (info v))) = sget (first :: l) ((off + amount) / cluster_bytes (info v)).
Proof.
  intros Hlay (_ & Hl & _) Hoff Ha Hq. pose proof (layout_cluster _ Hlay). destruct Hlay as (Hcb & Hper & _).
  pose proof (position_step (cluster_bytes (info v) / FAT16_SECTOR_SIZE) off amount ltac:(lia) Hoff) as Hstep.
  cbv zeta in Hstep. rewrite <- Hcb in Hstep. destruct (Hstep Ha) as (_ & H1 & H2).
  assert (0 ≤ off / cluster_bytes (info v)) by (apply Z.div_pos; lia).
  destruct (Z.eqb_spec ((off + amount) mod cluster_bytes (info v)) 0) as [E|E].
  - rewrite H1 in Hq |- * by done. symmetry. apply linked_nth; [done|lia].
  - by rewrite H2 by done.
Qed.

Lemma read_loop_content fuel v first l off0 bytes data0 cluster p r data : layout_ok (info v) → device_ok v → cache_ok v →
  is_chain v first l → 0 ≤ off0 → off0 + bytes ≤ (1 + len l) * cluster_bytes (info v) → bytes ≤ len data0 →
  0 ≤ p ≤ bytes → transferred r = p → holds_file v (first :: l) off0 p data0 data → bytes - p < Z.of_nat fuel →
  (p < bytes → cluster = sget (first :: l) ((off0 + p) / cluster_bytes (info v))) → io_error r = FS_OK →
  let '((r', data'), v') := read_loop dops fuel cluster (off0 + p) bytes r data v in
  same_bytes v v' ∧ p ≤ transferred r' ≤ bytes ∧ (io_error r' = FS_OK → transferred r' = bytes) ∧
  holds_file v (first :: l) off0 (transferred r') data0 data'.
Proof.
  revert v cluster p r data; induction fuel as [|fuel IH];
    intros v cluster p r data Hlay Hdev Hcache Hch H0 Hfit Hbuf Hp Er Hhold Hfuel Hcl Hok; [lia|].
  cbn [read_loop]. rewrite Er. destruct (Z.ltb_spec p bytes) as [Hlt|]; cbn [negb].
  2: { split_and!; try done; try lia. by rewrite Er. }
  specialize (Hcl Hlt). pose proof (layout_cluster _ Hlay) as Hcb. set (off := off0 + p) in *.
  assert (0 ≤ off mod cluster_bytes (info v) < cluster_bytes (info v)) as Hw by (apply Z.mod_pos_bound; lia).
  rewrite (wrap32_small (off mod _)) by (unfold UINT32_MAX; lia). set (w := off mod cluster_bytes (info v)) in *.
  assert (0 ≤ off / cluster_bytes (info v) ≤ len l) as Hq.
  { split; [apply Z.div_pos; lia|]. enough (off / cluster_bytes (info v) < 1 + len l) by lia. apply Z.div_lt_upper_bound; lia. }
  assert (fat16_valid_cluster cluster v = true) as Hv by (rewrite Hcl; by apply chain_nth_valid).
  rewrite Hcl in Hv. rewrite Hcl. destruct (sector_number v _ _ w Hlay Hv Hw) as [En Hn0]. rewrite En.
  pose proof (sector_bytes _ v Hn0 Hdev Hcache) as Hs. destruct (fat16_sector dops _ v) as [e v1]. destruct Hs as (Hsame & Hc1 & Hsec).
  destruct (decide (e = FS_OK)) as [->|He].
  2: { rewrite bool_decide_eq_true_2 by done. cbn. split_and!; done || lia. }
  rewrite bool_decide_eq_false_2 by (by intros []). specialize (Hsec eq_refl). set (amount := Z.min _ (bytes - p)).
  pose proof (Z.mod_pos_bound w FAT16_SECTOR_SIZE ltac:(done)).
  assert (0 < amount ≤ FAT16_SECTOR_SIZE - w mod FAT16_SECTOR_SIZE ∧ p + amount ≤ bytes) as [Ha Hpa] by lia.
  pose proof (sector_piece v v1 first l off amount Hlay Hch ltac:(lia) (proj2 Hq) Ha Hsec) as Hpiece.
  assert (keeps v v1) as Hk by apply Hsame. assert (info v1 = info v) as Ei by apply Hk.
  pose proof (holds_file_step v v1 _ off0 p amount data0 data _ _ Hsame ltac:(lia) ltac:(lia) ltac:(destruct Hhold; lia) Hhold Hpiece) as Hhold'.
  replace (off + amount) with (off0 + (p + amount)) by lia. cbn [transferred].
  specialize (IH v1 (if ((off0 + (p + amount)) mod cluster_bytes (info v1) =? 0) && (p + amount <? bytes) then fat16_next_cluster (sget (first :: l) (off / cluster_bytes (info v))) v1 else sget (first :: l) (off / cluster_bytes (info v)))
    (p + amount) (IoResult FS_OK (p + amount) 0 0) _ ltac:(by rewrite Ei) (same_bytes_device _ _ Hsame Hdev) Hc1 (chain_same _ _ _ _ Hk Hch) H0 ltac:(by rewrite Ei) Hbuf ltac:(lia) eq_refl Hhold' ltac:(lia)).
  destruct (read_loop _ _ _ _ _ _ _ _) as [[r' data'] v']. destruct IH as (IH1 & IH2 & IH3 & IH4).
  - intros Hlt'. rewrite (proj2 (Z.ltb_lt _ _) Hlt'), andb_true_r, Ei. assert (fat v1 = fat v) as Ef by apply Hk.
    unfold fat16_next_cluster. rewrite Ef. fold (fat16_next_cluster (sget (first :: l) (off / cluster_bytes (info v))) v).
    replace (off0 + (p + amount)) with (off + amount) by lia. apply next_position; try done; [lia|].
    enough ((off + amount) / cluster_bytes (info v) < 1 + len l) by lia. apply Z.div_lt_upper_bound; lia.
  - done.
  - split_and!; [by transitivity v1|lia|lia|done|]. destruct IH4 as (G1 & G2 & G3). split_and!; [done| |done].
    intros k Hk'. rewrite G2 by done. by apply file_byte_same.
Qed.

Lemma chain_back v v' c l : keeps v v' → is_chain v' c l → is_chain v c l.
Proof. intros H. apply chain_same. unfold keeps in *. destruct_and!. split_and!; congruence. Qed.

Lemma describe_bytes id v : device_ok v → cache_ok v →
  same_bytes v (snd (fat16_describe dops id v)) ∧ cache_ok (snd (fat16_describe dops id v)).
Proof.
  intros Hd Hc. unfold fat16_describe. destruct (negb _); [done|]. destruct (faulted _); [done|]. destruct (id =? _); [done|].
  destruct (fat16_slot_offset id v) as [offset|]; [|done].
  pose proof (sector_bytes (wrap32 (offset / FAT16_SECTOR_SIZE)) v (proj1 (wrap32_bound _)) Hd Hc) as Hs.
  destruct (fat16_sector _ _ v) as [e v1]. destruct Hs as (H1 & Hc1 & _). destruct (bool_decide _); [done|].
  destruct (decode_bytes (entry_at offset v1) id v1 Hc1) as [H2 Hc2].
  destruct (fat16_decode _ _ v1) as [[e' [d n]] v2]. split; [by transitivity v1|done].
Qed.

Lemma describe_file id v d v' : 0 ≤ clusters (info v) → fat16_describe dops id v = ((FS_OK, d), v') →
  node_kind (dnode d) = FS_FILE → node_size (dnode d) ≠ 0 →
  ∃ l, is_chain v (dfirst d) l ∧ 1 + len l = (node_size (dnode d) + cluster_bytes (info v) - 1) / cluster_bytes (info v).
Proof.
  intros Hcl. unfold fat16_describe. destruct (negb _); [done|]. destruct (faulted _); [done|].
  destruct (id =? _); [by intros [= <- _]|]. destruct (fat16_slot_offset id v) as [offset|]; [|done].
  pose proof (sector_keeps dops (wrap32 (offset / FAT16_SECTOR_SIZE)) v) as Hk. destruct (fat16_sector _ _ v) as [e v1]. cbn [snd] in Hk.
  destruct (bool_decide (e ≠ FS_OK)) eqn:Ee; [apply bool_decide_eq_true in Ee; by intros [= ? _]|].
  assert (info v1 = info v) as Ei by apply Hk.
  destruct (fat16_decode (entry_at offset v1) id v1) as [[e' [d' name]] v2] eqn:Ed. destruct (decide (e' = FS_END)) as [->|Hne]; [done|].
  rewrite bool_decide_eq_false_2 by done. intros [= -> <- <-] Hkind Hsize. destruct (decode_file _ _ _ _ _ _ ltac:(by rewrite Ei) Ed Hkind Hsize) as (l & Hl & Elen).
  rewrite Ei in Elen. exists l. split; [by apply (chain_back v v1)|done].
Qed.

(** Clusters enough for [size] bytes reach every offset below [size]. *)
Lemma ceil_reaches size cb n : 0 < cb → n = (size + cb - 1) / cb → size ≤ n * cb.
Proof. intros Hcb ->. pose proof (Z.div_mod (size + cb - 1) cb ltac:(lia)). pose proof (Z.mod_pos_bound (size + cb - 1) cb Hcb). lia. Qed.

(** What [read_file] promises about the result [r], the buffer and the volume. *)
Definition read_promise v (d : description) (off bytes : Z) (data : list Z) (r : fs_io_result) (data' : list Z) : Prop :=
  let wanted := Z.max 0 (Z.min bytes (node_size (dnode d) - off)) in
  0 ≤ transferred r ≤ wanted ∧ (io_error r = FS_OK → transferred r = wanted) ∧
  (transferred r = 0 ∨ ∃ l, is_chain v (dfirst d) l) ∧
  ∀ l, is_chain v (dfirst d) l → holds_file v (dfirst d :: l) off (transferred r) data data'.

Lemma read_promise_back v v0 d off bytes data r r' data' : same_bytes v v0 → io_error r' = io_error r → transferred r' = transferred r →
  read_promise v0 d off bytes data r data' → read_promise v d off bytes data r' data'.
Proof.
  intros Hs E1 E2 (H1 & H2 & H3 & H4). unfold read_promise. rewrite E1, E2. assert (keeps v v0) as Hk by apply Hs. split_and!; [lia..|done| |].
  - destruct H3 as [|[l Hl]]; [by left|right]. exists l. by apply (chain_back v v0).
  - intros l Hl. destruct (H4 l (chain_same _ _ _ _ Hk Hl)) as (G1 & G2 & G3). split_and!; [done| |done].
    intros k Hk'. rewrite G2 by done. by apply file_byte_same.
Qed.
Lemma holds_nothing v cs off data : holds_file v cs off 0 data data.
Proof. split_and!; [done|intros; lia|done]. Qed.
Lemma linked_unique v c l l' : linked v c l → linked v c l' → l = l'.
Proof.
  revert c l'; induction l as [|d l IH]; intros c [|d' l']; cbn; [done| | |].
  - intros H (E & Hv & _). apply valid_cluster_range in Hv. unfold FIRST_END, FIRST_RESERVED in *. lia.
  - intros (E & Hv & _) H. apply valid_cluster_range in Hv. unfold FIRST_END, FIRST_RESERVED in *. lia.
  - intros (E & _ & H) (E' & _ & H'). assert (d = d') as <- by congruence. f_equal. by apply (IH d).
Qed.

Lemma read_file_loop v id d v1 off bytes data : layout_ok (info v) → device_ok v → cache_ok v → 0 ≤ off → 0 ≤ bytes ≤ len data →
  fat16_describe dops id v = ((FS_OK, d), v1) → node_kind (dnode d) = FS_FILE → off < node_size (dnode d) →
  let n := if bytes >? node_size (dnode d) - off then node_size (dnode d) - off else bytes in
  let '((r, data'), v2) := read_loop dops (S (Z.to_nat n)) (fat16_cluster_at d (wrap32 (off / cluster_bytes (info v1))) v1) off n (io_failure FS_OK) data v1 in
  same_bytes v v2 ∧ read_promise v d off bytes data r data'.
Proof.
  intros Hlay Hdev Hcache Hoff Hbuf Ed Hkind Hlt n. pose proof (layout_cluster _ Hlay) as Hcb.
  assert (4085 ≤ clusters (info v) ≤ MAX_CLUSTERS) as Hcl by apply Hlay. unfold MAX_CLUSTERS in Hcl.
  destruct (describe_bytes id v Hdev Hcache) as [Hs1 Hc1]. rewrite Ed in Hs1, Hc1. cbn [snd] in Hs1, Hc1.
  assert (keeps v v1) as Hk by apply Hs1. assert (info v1 = info v) as Ei by apply Hk.
  destruct (describe_file id v d v1 ltac:(lia) Ed Hkind ltac:(lia)) as (l & Hl & Elen).
  pose proof (is_chain_length v _ l Hl ltac:(lia)) as Hlen. cbn [List.length] in Hlen.
  pose proof (ceil_reaches _ (cluster_bytes (info v)) _ ltac:(lia) Elen) as Hreach.
  assert (n = Z.min bytes (node_size (dnode d) - off) ∧ 0 ≤ n) as [En Hn0].
  { unfold n. rewrite Z.gtb_ltb. destruct (Z.ltb_spec (node_size (dnode d) - off) bytes); lia. }
  assert (0 ≤ off / cluster_bytes (info v) < 1 + len l) as Hq.
  { split; [apply Z.div_pos; lia|apply Z.div_lt_upper_bound; lia]. }
  rewrite Ei, wrap32_small by (unfold UINT32_MAX; lia). unfold fat16_cluster_at.
  pose proof (chain_same _ _ _ _ Hk Hl) as Hl1. rewrite (cluster_loop_nth v1 (dfirst d) l) by (apply Hl1 || lia).
  rewrite Z2Nat.id by lia.
  pose proof (read_loop_content (S (Z.to_nat n)) v1 (dfirst d) l off n data (sget (dfirst d :: l) (off / cluster_bytes (info v))) 0 (io_failure FS_OK) data
    ltac:(by rewrite Ei) (same_bytes_device _ _ Hs1 Hdev) Hc1 Hl1 Hoff ltac:(rewrite Ei; lia) ltac:(lia) ltac:(lia) eq_refl (holds_nothing _ _ _ _) ltac:(lia)
    ltac:(rewrite Ei, Z.add_0_r; done) eq_refl) as H.
  rewrite Z.add_0_r in H. destruct (read_loop _ _ _ _ _ _ _ _) as [[r data'] v2]. destruct H as (H1 & H2 & H3 & H4).
  split; [by transitivity v1|]. split_and!; [lia..|intros E; rewrite (H3 E); lia|right; by exists l|].
  intros l' Hl'. assert (l' = l) as -> by (eapply linked_unique; [apply Hl'|apply Hl]).
  destruct H4 as (G1 & G2 & G3). split_and!; [done| |done]. intros k Hk'. rewrite G2 by done. by apply file_byte_same.
Qed.
End Contents.


(** ** A small volume, for the witnesses *)

Module FatSample.
Definition boot (k : Z) : Z :=
  match k with
  | 12 => 2 | 13 => 1 | 14 => 1 | 16 => 2 | 17 => 16 | 19 => 0x17 | 20 => 0x10 | 21 => 0xf8
  | 22 => 16 | 510 => 0x55 | 511 => 0xaa | _ => 0
  end.
Lemma boot_bytes k : byte (boot k).
Proof. unfold boot, byte. repeat case_match; lia. Qed.
Definition layout : fat16_information := FatInfo 4119 4085 512 1 16 33 16 34 false false false.

Lemma layout_valid : layout_ok layout.
Proof. apply (bool_decide_unpack (layout_ok layout)). vm_compute. exact I. Qed.

Definition name_bytes : list Z := [65; 32; 32; 32; 32; 32; 32; 32; 84; 88; 84; 0x20].
(** The root directory holds A.TXT, 5 bytes in cluster 2. *)
Definition image : gmap Z Z :=
  RamDisk.store (RamDisk.store (RamDisk.store ∅ (33 * 512) name_bytes) (33 * 512 + 26) [2; 0; 5]) (34 * 512) [104; 101; 108; 108; 111].
Definition vol : volume (gmap Z Z) :=
  Volume true layout {[4 := 0xff; 5 := 0xff]} ∅ ∅ ∅ ∅ io_zero 0 true false false false (RamDisk.start 4119 image).

Lemma bytes_at_get m a n i : 0 ≤ i < Z.of_nat n → sget (RamDisk.bytes_at m a n) i = aget m (a + i).
Proof.
  intros Hi. unfold sget, RamDisk.bytes_at.
  assert (((λ j, aget m (a + Z.of_nat j)) <$> seq 0 n) !! Z.to_nat i = Some (aget m (a + i))) as Hl.
  { rewrite list_lookup_fmap, lookup_seq_lt by lia. cbn. do 3 f_equal. lia. }
  apply nth_lookup_Some with (d := 0) in Hl. done.
Qed.
Lemma bytes_at_length m a n : List.length (RamDisk.bytes_at m a n) = n.
Proof. unfold RamDisk.bytes_at. by rewrite length_fmap, length_seq. Qed.
#[global] Instance disk_law : DiskLaw RamDisk.ops.
Proof.
  refine {| disk_byte := aget |}. intros f lba n data s r data' s' [= <-] [= <- <- <-]. split; [done|]. intros _ _ i Hi.
  rewrite sget_app by lia. rewrite bytes_at_length. unfold FAT16_SECTOR_SIZE in *.
  rewrite decide_True by lia. apply bytes_at_get. lia.
Defined.
End FatSample.

Lemma boot_layout_sound_witness :
  boot_layout FatSample.boot 4119 = (FS_OK, FatSample.layout) ∧ layout_ok FatSample.layout ∧ sectors FatSample.layout ≤ 4119.
Proof. split; [reflexivity|]. apply (boot_layout_sound FatSample.boot 4119); [apply FatSample.boot_bytes|reflexivity]. Defined.

Lemma fat16_chain_exact_witness :
  fst (fat16_chain 2 FatSample.vol) = (FS_OK, 1) ∧ ∃ l, is_chain FatSample.vol 2 l ∧ 1 = 1 + len l.
Proof.
  split; [vm_compute; reflexivity|]. apply (fat16_chain_exact FatSample.vol 2 1); [by vm_compute|].
  eexists. assert (fst (fat16_chain 2 FatSample.vol) = (FS_OK, 1)) as <- by (vm_compute; reflexivity). apply surjective_pairing.
Defined.

