(* ===== verification/Fat16Write.v ===== *)
(** * FAT16 volume, writing side (kernel/fs/fat16-write.c)

    Audit of the volume before the first write, the search for a directory
    slot, allocation in a copy of the FAT, the copy-on-write replacement of a
    file, directories, removal, flush; and the mounting of a volume as the
    backend of the filesystem. The driver and the kernel heap are parameters. *)

From S2P Require Import Prelude Block Path Fs Fat16.

Definition FAT16_WRITE_ENTRY_LIMIT : Z := 65536.

Record target := Target {
  tdirectory : description; told : description; tid : Z; tcursor : Z; tentry : gmap Z Z;
  texists : bool; tend : bool; tgrow : bool; tlong_name : bool
}.
Definition no_target : target := Target no_description no_description 0 0 ∅ false false false false.
Definition set_tid (id : Z) (t : target) : target :=
  Target (tdirectory t) (told t) id (tcursor t) (tentry t) (texists t) (tend t) (tgrow t) (tlong_name t).
Definition set_tentry (e : gmap Z Z) (t : target) : target :=
  Target (tdirectory t) (told t) (tid t) (tcursor t) e (texists t) (tend t) (tgrow t) (tlong_name t).

Definition put16 (a : gmap Z Z) (p n : Z) : gmap Z Z := aset (aset a p (wrap8 n)) (p + 1) (wrap8 (Z.shiftr n 8)).
Definition put32 (a : gmap Z Z) (p n : Z) : gmap Z Z := put16 (put16 a p (wrap16 n)) (p + 2) (wrap16 (Z.shiftr n 16)).
Definition set_cluster (f : gmap Z Z) (cluster next : Z) : gmap Z Z := put16 f (cluster * 2) (wrap16 next).
(** [memset(a + p, x, n)] and [memcpy(a + p, src + q, n)] *)
Definition memset (a : gmap Z Z) (p x n : Z) : gmap Z Z := for_range 0 n (λ i a, aset a (p + i) x) a.
Definition memcpy (a : gmap Z Z) (p : Z) (src : Z → Z) (q n : Z) : gmap Z Z :=
  for_range 0 n (λ i a, aset a (p + i) (src (q + i))) a.

(** The volume, the kernel heap, and [*started]: a sector write was issued. *)
Record wstate (D H : Type) := W { wvol : volume D; wheap : H; wstarted : bool }.
Arguments W {D H} _ _ _.
Arguments wvol {D H} _.
Arguments wheap {D H} _.
Arguments wstarted {D H} _.

Section Writing.
Context {D H : Type} (dops : option (block_operations D)).
(** The heap: whether a request of this many bytes is granted, and its release. *)
Context (kmalloc : Z → H → bool * H) (kfree : H → H).
Implicit Types (v : volume D) (s : wstate D H).

Definition action : Type := wstate D H → fs_error * wstate D H.
(** [error = m1; if (error == FS_OK) error = m2] *)
Definition and_ok (m1 m2 : action) : action := λ s,
  let '(e, s) := m1 s in if bool_decide (e = FS_OK) then m2 s else (e, s).
Definition set_wvol v s : wstate D H := W v (wheap s) (wstarted s).

Definition pinned (id : Z) v : bool :=
  negb (all_range 0 FS_OBJECT_LIMIT (λ i,
    negb (negb (N.eqb (pin_count (pin_at v i)) 0) && (pin_id (pin_at v i) =? id)))).

Definition entry_read (id : Z) v : (fs_error * gmap Z Z) * volume D :=
  match fat16_slot_offset id v with
  | None => ((FS_RANGE, ∅), v)
  | Some offset =>
      let '(e, v) := fat16_sector dops (wrap32 (offset / FAT16_SECTOR_SIZE)) v in
      ((e, if bool_decide (e = FS_OK) then memcpy ∅ 0 (entry_at offset v) 0 ENTRY_BYTES else ∅), v)
  end.

Definition set_fault v : volume D :=
  let i := info v in
  set_info (FatInfo (sectors i) (clusters i) (cluster_bytes i) (fat_start i) (fat_sectors i) (root_start i)
    (root_entries i) (data_start i) (fmounted i) false true) v.
Definition finish (e : fs_error) s : fs_error * wstate D H :=
  (e, if bool_decide (e ≠ FS_OK) && wstarted s
      then set_wvol (set_cached (cached_sector (wvol s)) false (set_fault (wvol s))) s else s).

Definition device_result (r : block_result) (expected : Z) v : fs_error * volume D :=
  let e := fs_error_from_block (error r) in
  let e := if bool_decide (error r = BLOCK_OK) && negb (completed r =? expected) then FS_IO_ERROR else e in
  (e, set_last_io (IoResult e 0 (status r) (device_error r)) v).

Definition write_sector (number : Z) (data : gmap Z Z) : action := λ s,
  let v := wvol s in
  if (number <? fat_start (info v)) || (number >=? sectors (info v)) then (FS_RANGE, s) else
  if read_only (device (dev v)) then (FS_READ_ONLY, s) else
  let v := set_cached (cached_sector v) false v in
  let '(r, d) := block_write dops (has_device v) number 1 (Some (list_of FAT16_SECTOR_SIZE data)) FAT16_SECTOR_SIZE (dev v) in
  let '(e, v) := device_result r 1 (set_dev d v) in
  (e, W v (wheap s) true).

Definition flush_device : action := λ s,
  let '(r, d) := block_flush dops (has_device (wvol s)) (dev (wvol s)) in
  let '(e, v) := device_result r 0 (set_dev d (wvol s)) in
  (e, set_wvol v s).

Definition entry_write (id : Z) (entry : gmap Z Z) : action := λ s,
  match fat16_slot_offset id (wvol s) with
  | None => (FS_RANGE, s)
  | Some offset =>
      let number := wrap32 (offset / FAT16_SECTOR_SIZE) in
      let '(e, v) := fat16_sector dops number (wvol s) in
      let s := set_wvol v s in
      if bool_decide (e ≠ FS_OK) then (e, s) else
      let data := memcpy (memcpy ∅ 0 (aget (sector v)) 0 FAT16_SECTOR_SIZE)
                    (offset mod FAT16_SECTOR_SIZE) (aget entry) 0 ENTRY_BYTES in
      write_sector number data s
  end.

(** The sectors of one copy of the FAT, from [i]; the flag is [changed]. *)
Fixpoint persist_sectors (fuel : nat) (i copy : Z) (f : gmap Z Z) (changed : bool) s
    : (fs_error * bool) * wstate D H :=
  match fuel with
  | O => ((FS_OK, changed), s)
  | S fuel =>
      let offset := i * FAT16_SECTOR_SIZE in
      if all_range 0 FAT16_SECTOR_SIZE (λ k, aget f (offset + k) =? aget (fat (wvol s)) (offset + k))
      then persist_sectors fuel (i + 1) copy f changed s else
      let '(e, s) := write_sector (wrap32 (fat_start (info (wvol s)) + copy * fat_sectors (info (wvol s)) + i))
                       (memcpy ∅ 0 (aget f) offset FAT16_SECTOR_SIZE) s in
      if bool_decide (e ≠ FS_OK) then ((e, changed), s) else
      persist_sectors fuel (i + 1) copy f true s
  end.
Definition persist_copy (copy : Z) (f : gmap Z Z) : action := λ s,
  let '((e, changed), s) := persist_sectors (Z.to_nat (fat_sectors (info (wvol s)))) 0 copy f false s in
  if bool_decide (e ≠ FS_OK) then (e, s) else if changed then flush_device s else (FS_OK, s).
(** [fat] is a copy of the whole array, so the final copy replaces the cached one. *)
Definition persist_fat (f : gmap Z Z) : action :=
  and_ok (persist_copy 0 f) (and_ok (persist_copy 1 f) (λ s, (FS_OK, set_wvol (set_fat f (wvol s)) s))).

(** ** The audit before the first write *)

Fixpoint own_loop (n : nat) (cluster : Z) v : fs_error * volume D :=
  match n with
  | O => (FS_OK, v)
  | S n =>
      let mask := Z.shiftl 1 (cluster mod 8) in
      if negb (Z.land (aget (owners v) (cluster / 8)) mask =? 0) then (FS_IO_ERROR, v) else
      let v := set_owners (aset (owners v) (cluster / 8) (Z.lor (aget (owners v) (cluster / 8)) mask)) v in
      own_loop n (fat16_next_cluster cluster v) v
  end.
Definition own_chain (first length : Z) v : fs_error * volume D := own_loop (Z.to_nat length) first v.

Definition dot_entry (entry : Z → Z) (parent : bool) : bool :=
  if negb (entry 0 =? dot) || negb (entry 1 =? if parent then dot else 32) then false
  else all_range 2 11 (λ i, entry i =? 32).

Section Audit.
(** The call on a subdirectory: its description, the parent's cluster, the budget. *)
Variable recurse : description → Z → Z → volume D → (fs_error * Z) * volume D.

(** One slot: [inl] leaves the loop with a result, [inr] goes on to the next slot. *)
Definition audit_slot (directory : description) (parent cursor budget : Z) v
    : ((fs_error * Z) + Z) * volume D :=
  if budget =? 0 then (inl (FS_UNSUPPORTED, budget), v) else
  let budget := budget - 1 in
  let '(e, id) := fat16_directory_slot directory cursor v in
  let '((e, data), v) := if bool_decide (e = FS_OK) then entry_read id v else ((e, ∅), v) in
  if bool_decide (e ≠ FS_OK) then (inl (e, budget), v) else
  let entry := aget data in
  let sub := negb (node_id (dnode directory) =? ROOT_ID) in
  if sub && (cursor <? 2) then
    let expected := if negb (cursor =? 0) then parent else dfirst directory in
    if negb (dot_entry entry (negb (cursor =? 0))) || negb (entry 11 =? 0x10) || negb (u16 entry 20 =? 0) ||
       negb (u16 entry 26 =? expected) || negb (u32 entry 28 =? 0)
    then (inl (FS_IO_ERROR, budget), v) else (inr budget, v)
  else if entry 0 =? 0 then (inl (FS_OK, budget), v)
  else if (entry 0 =? 0xe5) || (entry 11 =? 0x0f) then (inr budget, v)
  else if negb (Z.land (entry 11) 8 =? 0) then
    if negb (entry 11 =? 8) || negb (u16 entry 20 =? 0) || negb (u16 entry 26 =? 0) || negb (u32 entry 28 =? 0)
    then (inl (FS_IO_ERROR, budget), v) else (inr budget, v)
  else if dot_entry entry false || dot_entry entry true || negb (Z.land (entry 11) 0xc0 =? 0) || negb (u16 entry 20 =? 0)
  then (inl (FS_IO_ERROR, budget), v)
  else
    let kind := if negb (Z.land (entry 11) 0x10 =? 0) then FS_DIRECTORY else FS_FILE in
    let size := u32 entry 28 in
    let first := u16 entry 26 in
    if (kind =? FS_FILE) && (size =? 0) then
      if negb (first =? 0) then (inl (FS_IO_ERROR, budget), v) else (inr budget, v)
    else
      let '((e, length), v) := fat16_chain first v in
      if bool_decide (e ≠ FS_OK) then (inl (e, budget), v) else
      let slots := length * cluster_bytes (info v) / ENTRY_BYTES in
      if (kind =? FS_DIRECTORY) && negb (size =? 0) then (inl (FS_IO_ERROR, budget), v) else
      if (kind =? FS_DIRECTORY) && (slots >? FAT16_DIRECTORY_ENTRY_LIMIT) then (inl (FS_UNSUPPORTED, budget), v) else
      if negb (kind =? FS_DIRECTORY) &&
         negb ((size + cluster_bytes (info v) - 1) / cluster_bytes (info v) =? length)
      then (inl (FS_IO_ERROR, budget), v) else
      let '(e, v) := own_chain first length v in
      if bool_decide (e ≠ FS_OK) then (inl (e, budget), v) else
      if kind =? FS_DIRECTORY then
        let child := Description (FsNode id size kind) first length in
        let '((e, budget), v) := recurse child (if sub then dfirst directory else 0) budget v in
        if bool_decide (e ≠ FS_OK) then (inl (e, budget), v) else (inr budget, v)
      else (inr budget, v).

Fixpoint audit_loop (fuel : nat) (directory : description) (parent cursor budget : Z) v
    : (fs_error * Z) * volume D :=
  match fuel with
  | O => ((FS_OK, budget), v)
  | S fuel =>
      match audit_slot directory parent cursor budget v with
      | (inl r, v) => (r, v)
      | (inr budget, v) => audit_loop fuel directory parent (cursor + 1) budget v
      end
  end.
End Audit.

(** [levels] is [FS_PATH_DEPTH + 1 - depth]: at zero the depth is over the limit. *)
Fixpoint audit_directory (levels : nat) (directory : description) (parent budget : Z) v
    : (fs_error * Z) * volume D :=
  match levels with
  | O => ((FS_TOO_DEEP, budget), v)
  | S levels =>
      audit_loop (audit_directory levels) (Z.to_nat (fat16_directory_slots directory v)) directory parent 0 budget v
  end.

Definition root_description : description := Description (FsNode ROOT_ID 0 FS_DIRECTORY) 0 0.
Definition writable_now v : fs_error * volume D :=
  if negb (vready v) then (FS_UNAVAILABLE, v) else
  if faulted (info v) then (FS_IO_ERROR, v) else
  if negb (writable (info v)) || read_only (device (dev v)) then (FS_READ_ONLY, v) else
  if negb (audited v) then
    let '((e, _), v) := audit_directory (Z.to_nat (FS_PATH_DEPTH + 1)) root_description 0 FAT16_WRITE_ENTRY_LIMIT
                          (set_owners ∅ v) in
    if bool_decide (e ≠ FS_OK) then (e, v) else (FS_OK, set_audited true v)
  else (FS_OK, v).

(** ** The directory slot of a name *)

(** [inl] is an early return; [inr] is the end of the loop with [reusable] and [ended]. *)
Fixpoint find_loop (fuel : nat) (cursor : Z) (name : Z → Z) (count reusable : Z) (long_name : bool) (t : target) v
    : ((fs_error * target) + (Z * bool * target)) * volume D :=
  match fuel with
  | O => (inr (reusable, false, t), v)
  | S fuel =>
      let '(e, id) := fat16_directory_slot (tdirectory t) cursor v in
      let '((e, data), v) := if bool_decide (e = FS_OK) then entry_read id v else ((e, ∅), v) in
      if bool_decide (e ≠ FS_OK) then (inl (e, t), v) else
      let entry := aget data in
      if (entry 0 =? 0xe5) || (entry 0 =? 0) then
        if long_name then (inl (FS_UNSUPPORTED, t), v) else
        let '(reusable, t) :=
          if reusable =? count
          then (cursor, Target (tdirectory t) (told t) id (tcursor t) (tentry t) (texists t) (entry 0 =? 0) (tgrow t) (tlong_name t))
          else (reusable, t) in
        if entry 0 =? 0 then (inr (reusable, true, t), v)
        else find_loop fuel (cursor + 1) name count reusable false t v
      else if entry 11 =? 0x0f then find_loop fuel (cursor + 1) name count reusable true t v
      else
        let '((e, (old, decoded)), v) := fat16_decode entry id v in
        if bool_decide (e = FS_OK) && equal (sget decoded) name then
          (inl (FS_OK, Target (tdirectory t) old id cursor data true (tend t) (tgrow t) long_name), v)
        else if bool_decide (e ≠ FS_OK) && bool_decide (e ≠ FS_NOT_FOUND) then (inl (e, t), v)
        else find_loop fuel (cursor + 1) name count reusable false t v
  end.
Definition find_target (parent : Z) (name : Z → Z) v : (fs_error * target) * volume D :=
  let '((e, d), v) := fat16_describe dops parent v in
  let t := Target d no_description 0 0 ∅ false false false false in
  if bool_decide (e ≠ FS_OK) then ((e, t), v) else
  if negb (node_kind (dnode d) =? FS_DIRECTORY) then ((FS_NOT_DIRECTORY, t), v) else
  let count := fat16_directory_slots d v in
  match find_loop (Z.to_nat count) 0 name count count false t v with
  | (inl r, v) => (r, v)
  | (inr (reusable, ended, t), v) =>
      let grow := (reusable =? count) && negb ended in
      let t := Target (tdirectory t) (told t) (tid t) reusable (tentry t) (texists t) (tend t) grow (tlong_name t) in
      if grow && (parent =? ROOT_ID) then ((FS_NO_SPACE, t), v) else
      if grow && (count + cluster_bytes (info v) / ENTRY_BYTES >? FAT16_DIRECTORY_ENTRY_LIMIT) then ((FS_NO_SPACE, t), v) else
      ((FS_OK, t), v)
  end.

(** ** Clusters, in a copy of the FAT *)

(** The loop from [cluster]: the FAT, the first cluster taken, those still wanted. *)
Fixpoint allocate_loop (fuel : nat) (cluster count first last : Z) (f : gmap Z Z) v : gmap Z Z * Z * Z :=
  match fuel with
  | O => (f, first, count)
  | S fuel =>
      if count =? 0 then (f, first, count) else
      if negb (fat16_valid_cluster cluster v) || negb (u16 (aget f) (cluster * 2) =? 0)
      then allocate_loop fuel (cluster + 1) count first last f v
      else
        let f1 := if negb (last =? 0) then set_cluster f last (wrap16 cluster) else f in
        let first := if negb (last =? 0) then first else cluster in
        allocate_loop fuel (cluster + 1) (count - 1) first cluster (set_cluster f1 cluster 0xffff) v
  end.
Definition allocate (f : gmap Z Z) (count : Z) v : (fs_error * Z) * gmap Z Z :=
  let '(f, first, count) := allocate_loop (Z.to_nat (clusters (info v))) 2 count 0 0 f v in
  ((if negb (count =? 0) then FS_NO_SPACE else FS_OK, first), f).

Fixpoint free_loop (n : nat) (cluster : Z) (f : gmap Z Z) v : gmap Z Z :=
  match n with
  | O => f
  | S n => free_loop n (fat16_next_cluster cluster v) (set_cluster f cluster 0) v
  end.
Definition free_chain (f : gmap Z Z) (old : description) v : gmap Z Z := free_loop (Z.to_nat (dlength old)) (dfirst old) f v.

(** ** Directory entries *)

(** [for (; *name; ++name)]; names have at most twelve characters. *)
Fixpoint name_loop (fuel : nat) (name : Z → Z) (i offset : Z) (entry : gmap Z Z) : gmap Z Z :=
  match fuel with
  | O => entry
  | S fuel =>
      if name i =? 0 then entry else
      if name i =? dot then name_loop fuel name (i + 1) 8 entry
      else name_loop fuel name (i + 1) (offset + 1) (aset entry offset (wrap8 (name i)))
  end.
Definition make_entry (name : Z → Z) (directory : bool) (first size : Z) : gmap Z Z :=
  let entry := memset (memset ∅ 0 0 ENTRY_BYTES) 0 32 11 in
  let entry := name_loop (Z.to_nat FS_NAME_CAPACITY) name 0 0 entry in
  let entry := aset entry 11 (if directory then 0x10 else 0x20) in
  let entry := put16 (put16 (put16 entry 16 0x21) 18 0x21) 24 0x21 in
  put32 (put16 entry 26 (wrap16 first)) 28 size.

Definition dots_sector (self parent : Z) : gmap Z Z :=
  let data := aset (aset (memset ∅ 0 32 11) 0 dot) 11 0x10 in
  let data := put16 data 26 (wrap16 self) in
  let data := memset data ENTRY_BYTES 32 11 in
  let data := aset (aset (aset data ENTRY_BYTES dot) (ENTRY_BYTES + 1) dot) (ENTRY_BYTES + 11) 0x10 in
  let data := put16 data (ENTRY_BYTES + 26) (wrap16 parent) in
  for_range 0 2 (λ slot a, let entry := slot * ENTRY_BYTES in
    put16 (put16 (put16 a (entry + 16) 0x21) (entry + 18) 0x21) (entry + 24) 0x21) data.
Fixpoint zero_loop (n : nat) (i cluster : Z) (data : gmap Z Z) : action := λ s,
  match n with
  | O => (FS_OK, s)
  | S n =>
      let '(e, s) := write_sector (wrap32 (fat16_cluster_sector cluster (wvol s) + i)) data s in
      if bool_decide (e ≠ FS_OK) then (e, s) else
      zero_loop n (i + 1) cluster (if i =? 0 then ∅ else data) s
  end.
Definition zero_cluster (cluster self parent : Z) : action := λ s,
  zero_loop (Z.to_nat (cluster_bytes (info (wvol s)) / FAT16_SECTOR_SIZE)) 0 cluster
    (if negb (self =? 0) then dots_sector self parent else ∅) s.

Definition grow_directory (t : target) (f : gmap Z Z) s : (fs_error * (target * gmap Z Z)) * wstate D H :=
  if negb (tgrow t) then ((FS_OK, (t, f)), s) else
  let '((e, cluster), f) := allocate f 1 (wvol s) in
  if bool_decide (e ≠ FS_OK) then ((e, (t, f)), s) else
  let last := fat16_cluster_at (tdirectory t) (dlength (tdirectory t) - 1) (wvol s) in
  let f := set_cluster f last (wrap16 cluster) in
  let t := set_tid (fat16_cluster_sector cluster (wvol s) * ENTRIES_PER_SECTOR + 2) t in
  let '(e, s) := zero_cluster cluster 0 0 s in
  ((e, (t, f)), s).

Definition publish (t : target) (entry : gmap Z Z) : action :=
  and_ok
    (λ s,
      let v := wvol s in
      if tend t && (tcursor t + 1 <? fat16_directory_slots (tdirectory t) v) then
        let '(e, next) := fat16_directory_slot (tdirectory t) (tcursor t + 1) v in
        let '((e, following), v) := if bool_decide (e = FS_OK) then entry_read next v else ((e, ∅), v) in
        let s := set_wvol v s in
        if bool_decide (e ≠ FS_OK) then (e, s) else
        if negb (aget following 0 =? 0) then and_ok (entry_write next ∅) flush_device s else (FS_OK, s)
      else (FS_OK, s))
    (and_ok (entry_write (tid t) entry) flush_device).

(** ** Contents: a new chain holds the old bytes with a patch *)

Section Copy.
Variables (old : description) (size patch_offset : Z) (patch : list Z) (bytes : Z) (keep : bool).

Definition copy_sector (cluster old_cluster i base : Z) : action := λ s,
  let '((e, data), v) :=
    if keep && (base <? size) && (base <? node_size (dnode old)) then
      let '(e, v) := fat16_sector dops (wrap32 (fat16_cluster_sector old_cluster (wvol s) + i)) (wvol s) in
      if bool_decide (e ≠ FS_OK) then ((e, ∅), v) else
      let amount := Z.min (Z.min (node_size (dnode old) - base) FAT16_SECTOR_SIZE) (size - base) in
      ((FS_OK, memcpy ∅ 0 (aget (sector v)) 0 amount), v)
    else ((FS_OK, ∅), wvol s) in
  let s := set_wvol v s in
  if bool_decide (e ≠ FS_OK) then (e, s) else
  let start := if base >? patch_offset then base else patch_offset in
  let finish := Z.min (Z.min (base + FAT16_SECTOR_SIZE) (patch_offset + bytes)) size in
  let data := if finish >? start
              then memcpy data (start - base) (sget patch) (start - patch_offset) (finish - start) else data in
  write_sector (wrap32 (fat16_cluster_sector cluster (wvol s) + i)) data s.

Fixpoint copy_cluster (n : nat) (cluster old_cluster i base : Z) : action := λ s,
  match n with
  | O => (FS_OK, s)
  | S n => and_ok (copy_sector cluster old_cluster i base)
                  (copy_cluster n cluster old_cluster (i + 1) (base + FAT16_SECTOR_SIZE)) s
  end.

(** One round per cluster; [base] grows by a cluster each round. *)
Fixpoint copy_loop (fuel : nat) (f : gmap Z Z) (cluster old_cluster index base : Z) : action := λ s,
  match fuel with
  | O => (FS_OK, s)
  | S fuel =>
      if negb (base <? size) then (FS_OK, s) else
      let per := cluster_bytes (info (wvol s)) / FAT16_SECTOR_SIZE in
      let '(e, s) := copy_cluster (Z.to_nat per) cluster old_cluster 0 base s in
      if bool_decide (e ≠ FS_OK) then (e, s) else
      let old_cluster := if keep && (index + 1 <? dlength old) then fat16_next_cluster old_cluster (wvol s) else old_cluster in
      copy_loop fuel f (u16 (aget f) (cluster * 2)) old_cluster (index + 1) (base + per * FAT16_SECTOR_SIZE) s
  end.
Definition copy_contents (f : gmap Z Z) (first : Z) : action := λ s,
  copy_loop (S (Z.to_nat ((size + cluster_bytes (info (wvol s)) - 1) / cluster_bytes (info (wvol s))))) f first
    (if keep then dfirst old else 0) 0 0 s.
End Copy.

Definition free_clusters (f : gmap Z Z) v : Z :=
  count_range 2 (clusters (info v) + 2) (λ c, fat16_valid_cluster c v && (u16 (aget f) (c * 2) =? 0)).

(** The error and [*committed]; [started] is a local of this function. *)
Definition rewrite (t : target) (size offset : Z) (data : list Z) (bytes : Z) (keep : bool) s
    : (fs_error * bool) * wstate D H :=
  let i := info (wvol s) in
  if (size >? UINT32_MAX) || (size >? clusters i * cluster_bytes i) then ((FS_RANGE, false), s) else
  if texists t && negb (Z.land (aget (tentry t) 11) 1 =? 0) then ((FS_ACCESS, false), s) else
  let needed := wrap32 ((size + cluster_bytes i - 1) / cluster_bytes i) in
  let '(granted, h) := kmalloc (fat_sectors i * FAT16_SECTOR_SIZE) (wheap s) in
  if negb granted then ((FS_NO_MEMORY, false), W (wvol s) h (wstarted s)) else
  let s := W (wvol s) h false in
  let '((e, first), f) := allocate (fat (wvol s)) needed (wvol s) in
  let e := if bool_decide (e = FS_OK) && tgrow t && (free_clusters f (wvol s) =? 0) then FS_NO_SPACE else e in
  let '(e, s) := if bool_decide (e = FS_OK) then copy_contents (told t) size offset data bytes keep f first s else (e, s) in
  let '((e, (t, f)), s) := if bool_decide (e = FS_OK) then grow_directory t f s else ((e, (t, f)), s) in
  let '(e, s) := if bool_decide (e = FS_OK) then and_ok flush_device (persist_fat f) s else (e, s) in
  let entry := put32 (put16 (tentry t) 26 (wrap16 first)) 28 size in
  let entry := aset entry 11 (Z.lor (aget entry 11) 0x20) in
  let '(e, s) := if bool_decide (e = FS_OK) then publish t entry s else (e, s) in
  let committed := bool_decide (e = FS_OK) in
  let '(e, s) := if committed then persist_fat (free_chain f (told t) (wvol s)) s else (e, s) in
  let '(e, s) := finish e (W (wvol s) (kfree (wheap s)) (wstarted s)) in
  ((e, committed), s).

(** ** The mutations registered with the VFS *)

(** A mutation that reads only so far: [started] is false. *)
Definition begin_with (v : volume D) (h : H) : wstate D H := W v h false.

Definition fat16_replace_file (parent : Z) (name : Z → Z) (data : list Z) (bytes : Z) s : fs_error * wstate D H :=
  let '(e, v) := writable_now (wvol s) in
  let s := set_wvol v s in
  if bool_decide (e ≠ FS_OK) then (e, s) else
  let '((e, t), v) := find_target parent name v in
  let s := set_wvol v s in
  if bool_decide (e ≠ FS_OK) then (e, s) else
  if texists t && negb (node_kind (dnode (told t)) =? FS_FILE) then (FS_IS_DIRECTORY, s) else
  if texists t && pinned (tid t) v then (FS_BUSY, s) else
  let t := if negb (texists t) then set_tentry (make_entry name false 0 0) t else t in
  let '((e, _), s) := rewrite t bytes 0 data bytes false s in (e, s).

Definition by_id (id : Z) v : (fs_error * target) * volume D :=
  let '((e, old), v) := fat16_describe dops id v in
  let t := Target no_description old 0 0 ∅ false false false false in
  if bool_decide (e ≠ FS_OK) then ((e, t), v) else
  if negb (node_kind (dnode old) =? FS_FILE) then ((FS_IS_DIRECTORY, t), v) else
  let '((e, entry), v) := entry_read id v in
  ((e, Target no_description old id 0 entry true false false false), v).

Definition fat16_write_file (id offset : Z) (data : list Z) (bytes : Z) s : fs_io_result * wstate D H :=
  let '(e, v) := writable_now (set_last_io io_zero (wvol s)) in
  let '((e, t), v) := if bool_decide (e = FS_OK) then by_id id v else ((e, no_target), v) in
  let s := set_wvol v s in
  let e := if bool_decide (e = FS_OK) && ((offset >? node_size (dnode (told t))) || (bytes >? UINT32_MAX) || (offset >? UINT32_MAX - bytes))
           then FS_RANGE else e in
  let '((e, committed), s) :=
    if bool_decide (e = FS_OK) then
      let size := if offset + bytes <? node_size (dnode (told t)) then node_size (dnode (told t)) else offset + bytes in
      rewrite t size offset data bytes true s
    else ((e, false), s) in
  (IoResult e (if committed then bytes else 0) (io_status (last_io (wvol s))) (io_device_error (last_io (wvol s))), s).

Definition fat16_truncate_file (id size : Z) s : fs_error * wstate D H :=
  let '(e, v) := writable_now (wvol s) in
  let '((e, t), v) := if bool_decide (e = FS_OK) then by_id id v else ((e, no_target), v) in
  let s := set_wvol v s in
  if bool_decide (e ≠ FS_OK) then (e, s) else
  if negb (Z.land (aget (tentry t) 11) 1 =? 0) then (FS_ACCESS, s) else
  if size =? node_size (dnode (told t)) then (FS_OK, s) else
  let '((e, _), s) := rewrite t size 0 [] 0 true s in (e, s).

Definition fat16_mkdir_node (parent : Z) (name : Z → Z) s : fs_error * wstate D H :=
  let '(e, v) := writable_now (wvol s) in
  let s := set_wvol v s in
  if bool_decide (e ≠ FS_OK) then (e, s) else
  let '((e, t), v) := find_target parent name v in
  let s := set_wvol v s in
  if bool_decide (e ≠ FS_OK) then (e, s) else
  if texists t then (FS_EXISTS, s) else
  let '(granted, h) := kmalloc (fat_sectors (info v) * FAT16_SECTOR_SIZE) (wheap s) in
  if negb granted then (FS_NO_MEMORY, W v h (wstarted s)) else
  let s := begin_with v h in
  let '((e, cluster), f) := allocate (fat v) (if tgrow t then 2 else 1) v in
  let extra := if tgrow t && bool_decide (e = FS_OK) then u16 (aget f) (cluster * 2) else 0 in
  let f := if bool_decide (e = FS_OK) then set_cluster f cluster 0xffff else f in
  let '(e, s) := if bool_decide (e = FS_OK)
                 then zero_cluster cluster cluster (if parent =? ROOT_ID then 0 else dfirst (tdirectory t)) s else (e, s) in
  let '((e, (t, f)), s) :=
    if bool_decide (e = FS_OK) && tgrow t then
      let f := set_cluster f (fat16_cluster_at (tdirectory t) (dlength (tdirectory t) - 1) (wvol s)) (wrap16 extra) in
      let t := set_tid (fat16_cluster_sector extra (wvol s) * ENTRIES_PER_SECTOR + 2) t in
      let '(e, s) := zero_cluster extra 0 0 s in ((e, (t, f)), s)
    else ((e, (t, f)), s) in
  let '(e, s) := if bool_decide (e = FS_OK)
                 then and_ok flush_device (and_ok (persist_fat f) (publish t (make_entry name true cluster 0))) s else (e, s) in
  finish e (W (wvol s) (kfree (wheap s)) (wstarted s)).

(** The slots after the dot entries, up to the end mark: [FS_NOT_EMPTY] at a live one. *)
Fixpoint empty_loop (fuel : nat) (i : Z) (d : description) v : fs_error * volume D :=
  match fuel with
  | O => (FS_OK, v)
  | S fuel =>
      let '(e, id) := fat16_directory_slot d i v in
      let '((e, entry), v) := if bool_decide (e = FS_OK) then entry_read id v else ((e, ∅), v) in
      if bool_decide (e ≠ FS_OK) then (e, v) else
      if aget entry 0 =? 0 then (FS_OK, v) else
      if negb (aget entry 0 =? 0xe5) then (FS_NOT_EMPTY, v) else empty_loop fuel (i + 1) d v
  end.

Definition fat16_remove_node (parent : Z) (name : Z → Z) s : fs_error * wstate D H :=
  let '(e, v) := writable_now (wvol s) in
  let s := set_wvol v s in
  if bool_decide (e ≠ FS_OK) then (e, s) else
  let '((e, t), v) := find_target parent name v in
  let s := set_wvol v s in
  if bool_decide (e ≠ FS_OK) then (e, s) else
  if negb (texists t) then (FS_NOT_FOUND, s) else
  if pinned (tid t) v then (FS_BUSY, s) else
  if negb (Z.land (aget (tentry t) 11) 1 =? 0) then (FS_ACCESS, s) else
  if tlong_name t then (FS_UNSUPPORTED, s) else
  let '(e, v) := if node_kind (dnode (told t)) =? FS_DIRECTORY
                 then empty_loop (Z.to_nat (fat16_directory_slots (told t) v - 2)) 2 (told t) v else (FS_OK, v) in
  let s := set_wvol v s in
  if bool_decide (e ≠ FS_OK) then (e, s) else
  let '(granted, h) := kmalloc (fat_sectors (info v) * FAT16_SECTOR_SIZE) (wheap s) in
  if negb granted then (FS_NO_MEMORY, W v h (wstarted s)) else
  let f := fat v in
  let '(e, s) := and_ok (entry_write (tid t) (aset (tentry t) 0 0xe5)) (and_ok flush_device
                   (λ s, persist_fat (free_chain f (told t) (wvol s)) s)) (begin_with v h) in
  finish e (W (wvol s) (kfree (wheap s)) (wstarted s)).

Definition fat16_flush s : fs_error * wstate D H :=
  let v := wvol s in
  if negb (vready v) then (FS_UNAVAILABLE, s) else
  if faulted (info v) then (FS_IO_ERROR, s) else
  if negb (writable (info v)) then (FS_OK, s) else
  let '(e, s) := flush_device s in finish e (W (wvol s) (wheap s) true).
End Writing.

(** ** The volume as a backend of the filesystem *)

Section Backend.
Context {D H : Type} (dops : option (block_operations D)) (kmalloc : Z → H → bool * H) (kfree : H → H).
(** [fat16_volume] and the kernel heap. *)
Definition fatfs : Type := volume D * H.
Definition reading {R : Type} (m : volume D → R * volume D) (k : fatfs) : R * fatfs :=
  let '(r, v) := m (fst k) in (r, (v, snd k)).
Definition writing {R : Type} (m : wstate D H → R * wstate D H) (k : fatfs) : R * fatfs :=
  let '(r, s) := m (W (fst k) (snd k) false) in (r, (wvol s, wheap s)).

Definition operations : fs_operations fatfs := {|
  op_lookup parent name := reading (lookup dops parent name);
  op_stat id := reading (stat_node dops id);
  op_retain id := reading (retain id);
  op_release id k := (release id (fst k), snd k);
  Fs.op_read id offset data bytes := reading (read_file dops id offset data bytes);
  op_readdir id cursor := reading (readdir_node dops id cursor);
  Fs.op_write := Some (λ id offset data bytes, writing (fat16_write_file dops kmalloc kfree id offset data bytes));
  op_replace := Some (λ parent name data bytes,
    writing (fat16_replace_file dops kmalloc kfree parent name (default [] data) bytes));
  op_remove := Some (λ parent name, writing (fat16_remove_node dops kmalloc kfree parent name));
  op_mkdir := Some (λ parent name, writing (fat16_mkdir_node dops kmalloc kfree parent name));
  Fs.op_flush := Some (writing (fat16_flush dops));
  op_unmount := Some (λ k, (detach (fst k), kfree (snd k)));
  op_truncate := Some (λ id size, writing (fat16_truncate_file dops kmalloc kfree id size))
|}.

(** The second FAT is compared with the first one sector at a time. *)
Fixpoint compare_loop (fuel : nat) (i : Z) (buffer : list Z) (v : volume D) : (fs_error * list Z) * volume D :=
  match fuel with
  | O => ((FS_OK, buffer), v)
  | S fuel =>
      let '((e, buffer), v) :=
        fat16_read_sectors dops (wrap32 (fat_start (info v) + fat_sectors (info v) + i)) 1 buffer v in
      if bool_decide (e ≠ FS_OK) then ((e, buffer), v) else
      if all_range 0 FAT16_SECTOR_SIZE (λ k, aget (fat v) (i * FAT16_SECTOR_SIZE + k) =? sget buffer k)
      then compare_loop fuel (i + 1) buffer v else ((FS_IO_ERROR, buffer), v)
  end.

Definition set_access (mounted writable : bool) (i : fat16_information) : fat16_information :=
  FatInfo (sectors i) (clusters i) (cluster_bytes i) (fat_start i) (fat_sectors i) (root_start i)
    (root_entries i) (data_start i) mounted writable (faulted i).

(** From the layout to the loaded and checked FAT; the flag says that the heap granted
    the array. *)
Definition load_fat (boot : list Z) (k : fatfs) : (fs_error * bool) * fatfs :=
  let v := set_device true (fst k) in
  let bytes := fat_sectors (info v) * FAT16_SECTOR_SIZE in
  let '(granted, h) := kmalloc bytes (snd k) in
  if negb granted then ((FS_NO_MEMORY, false), (v, h)) else
  let '((e, data), v) := fat16_read_sectors dops (fat_start (info v)) (fat_sectors (info v)) [] v in
  let v := set_fat (array_of data) v in
  let '((e, _), v) :=
    if bool_decide (e = FS_OK) then compare_loop (Z.to_nat (fat_sectors (info v))) 0 boot v else ((e, boot), v) in
  let e :=
    if bool_decide (e = FS_OK) && (negb (u16 (aget (fat v)) 0 =? Z.lor 0xff00 (sget boot 21)) ||
         negb (Z.land (u16 (aget (fat v)) 2) 0x3fff =? 0x3fff)) then FS_IO_ERROR else e in
  ((e, true), (v, h)).

Definition mount_volume (given ro : bool) (s : vfs fatfs) : fs_error * vfs fatfs :=
  let '(v, h) := store s in
  if vbusy v || vready v then (FS_BUSY, s) else
  let '((e, boot), v) := geometry dops given (set_vbusy true v) in
  let '((e, held), s) :=
    if bool_decide (e = FS_OK) then
      let '((e, held), (v, h)) := load_fat boot (v, h) in
      if bool_decide (e = FS_OK) then
        let can_write := match dops with
                         | Some o => match Block.op_write o, Block.op_flush o with Some _, Some _ => true | _, _ => false end
                         | None => false
                         end in
        let writable := negb ro && negb (read_only (device (dev v))) && can_write in
        let v := set_vready true (set_info (set_access (fmounted (info v)) writable (info v)) v) in
        let '(e, s) := fs_mount_disk operations true (FsBackend true ROOT_ID FS_NAMES_FAT83 (negb writable))
                         (set_store (v, h) s) in
        let '(v, h) := store s in
        ((e, held), if bool_decide (e = FS_OK)
            then set_store (set_info (set_access true (Fat16.writable (info v)) (info v)) v, h) s else s)
      else ((e, held), set_store (v, h) s)
    else ((e, false), set_store (v, h) s) in
  let '(v, h) := store s in
  let '(v, h) := if bool_decide (e ≠ FS_OK) then (volume_zero (dev v), if held then kfree h else h) else (v, h) in
  (e, set_store (set_vbusy false v, h) s).
Definition fat16_mount (given : bool) (s : vfs fatfs) : fs_error * vfs fatfs := mount_volume given false s.
Definition fat16_mount_read_only (given : bool) (s : vfs fatfs) : fs_error * vfs fatfs := mount_volume given true s.

Definition fat16_unmount (s : vfs fatfs) : fs_error * vfs fatfs :=
  let '(v, h) := store s in
  if vbusy v then (FS_BUSY, s) else
  if negb (fmounted (info v)) then (FS_UNAVAILABLE, s) else
  let '(e, s) := fs_unmount_disk operations (set_store (set_vbusy true v, h) s) in
  let '(v, h) := store s in
  (e, set_store (set_vbusy false v, h) s).

Definition fat16_info (s : vfs fatfs) : fat16_information :=
  let v := fst (store s) in if fmounted (info v) then info v else no_info.
End Backend.

(** ** What reading for a mutation leaves alone *)

Ltac split_if := match goal with |- context [if ?b then _ else _] => destruct b end.

Section Calm.
Context {D : Type} (o : block_operations D) `{!DiskLaw o}.
Implicit Types (v : volume D).
Notation dops := (Some o).

Definition frame v v' : Prop :=
  info v' = info v ∧ fat v' = fat v ∧ vpins v' = vpins v ∧ vready v' = vready v ∧
  vbusy v' = vbusy v ∧ has_device v' = has_device v.
(** The device accepts requests and the cached sector is what the disk holds. *)
Definition good v : Prop := device_ok v ∧ cache_ok o v.
Definition calm v v' : Prop := frame v v' ∧ (good v → good v' ∧ ∀ a, vbyte o v' a = vbyte o v a).
#[global] Instance calm_preorder : PreOrder calm.
Proof.
  split; [done|]. intros v1 v2 v3 [F1 H1] [F2 H2]. split.
  - unfold frame in *. destruct_and!. split_and!; congruence.
  - intros Hg. destruct (H1 Hg) as [Hg2 Hb]. destruct (H2 Hg2) as [Hg3 Hb']. split; [done|]. intros a. by rewrite Hb', Hb.
Qed.
Lemma keeps_frame v v' : keeps v v' → frame v v'.
Proof. unfold keeps, frame. intros. by destruct_and!. Qed.

Lemma visited_calm m v : calm v (set_visited m v).
Proof. split; [done|]. by intros [? ?]. Qed.
Lemma owners_calm m v : calm v (set_owners m v).
Proof. split; [done|]. by intros [? ?]. Qed.
Lemma audited_calm b v : calm v (set_audited b v).
Proof. split; [done|]. by intros [? ?]. Qed.
Lemma last_io_calm r v : calm v (set_last_io r v).
Proof. split; [done|]. by intros [? ?]. Qed.

Lemma sector_calm n v : 0 ≤ n → calm v (snd (fat16_sector dops n v)).
Proof.
  intros Hn. split; [apply keeps_frame, sector_keeps|]. intros [Hd Hc]. pose proof (sector_bytes o n v Hn Hd Hc) as H.
  destruct (fat16_sector dops n v) as [e v']. destruct H as (Hs & Hc' & _). split; [split; [by eapply same_bytes_device|done]|apply Hs].
Qed.
Lemma chain_calm first v : calm v (snd (fat16_chain first v)).
Proof. destruct (fat16_chain_frame first v) as [m ->]. apply visited_calm. Qed.
Lemma decode_calm entry id v : calm v (snd (fat16_decode entry id v)).
Proof.
  split; [apply keeps_frame, decode_keeps|]. intros [Hd Hc]. destruct (decode_bytes o entry id v Hc) as [Hs Hc'].
  split; [split; [by eapply same_bytes_device|done]|apply Hs].
Qed.
Lemma describe_calm id v : calm v (snd (fat16_describe dops id v)).
Proof.
  split; [apply keeps_frame, describe_keeps|]. intros [Hd Hc]. destruct (describe_bytes o id v Hd Hc) as [Hs Hc'].
  split; [split; [by eapply same_bytes_device|done]|apply Hs].
Qed.
Lemma entry_read_calm id v : calm v (snd (entry_read dops id v)).
Proof.
  unfold entry_read. destruct (fat16_slot_offset id v) as [offset|]; [|done].
  pose proof (sector_calm (wrap32 (offset / FAT16_SECTOR_SIZE)) v (proj1 (wrap32_bound _))) as H.
  by destruct (fat16_sector dops _ v) as [e v'].
Qed.
Lemma entry_if_calm (e : fs_error) id v : calm v (snd (if bool_decide (e = FS_OK) then entry_read dops id v else ((e, ∅), v))).
Proof. destruct (bool_decide _); [apply entry_read_calm|done]. Qed.
Lemma own_chain_calm first n v : calm v (snd (own_chain first n v)).
Proof.
  unfold own_chain. generalize (Z.to_nat n) as m. intros m. revert first v; induction m as [|m IH]; intros first v; cbn [own_loop]; [done|].
  destruct (negb _); [done|]. etransitivity; [|apply IH]. apply owners_calm.
Qed.

Section AuditCalm.
Variable recurse : description → Z → Z → volume D → (fs_error * Z) * volume D.
Hypothesis recurse_calm : ∀ d p b v, calm v (snd (recurse d p b v)).
Lemma audit_slot_calm d p c b v : calm v (snd (audit_slot dops recurse d p c b v)).
Proof.
  unfold audit_slot. destruct (b =? 0); [done|]. destruct (fat16_directory_slot d c v) as [e id].
  pose proof (entry_if_calm e id v) as H1. destruct (if bool_decide (e = FS_OK) then _ else _) as [[e1 data] v1]. cbn [snd] in H1.
  destruct (bool_decide _); [done|]. destruct (_ && (c <? 2)); [by split_if|]. destruct (aget data 0 =? 0); [done|].
  destruct (_ || (aget data 11 =? 0x0f)); [done|]. destruct (negb (Z.land (aget data 11) 8 =? 0)); [by split_if|].
  destruct (dot_entry (aget data) false || _ || _ || _); [done|].
  set (kind := if negb _ then FS_DIRECTORY else FS_FILE). destruct ((kind =? FS_FILE) && _); [by split_if|].
  pose proof (chain_calm (u16 (aget data) 26) v1) as H2. destruct (fat16_chain _ v1) as [[e2 n] v2]. cbn [snd] in H2.
  assert (calm v v2) as H by (by transitivity v1). destruct (bool_decide _); [done|].
  destruct ((kind =? FS_DIRECTORY) && negb _); [done|]. destruct ((kind =? FS_DIRECTORY) && (_ >? _)); [done|].
  destruct (negb (kind =? FS_DIRECTORY) && _); [done|].
  pose proof (own_chain_calm (u16 (aget data) 26) n v2) as H3. destruct (own_chain _ n v2) as [e3 v3]. cbn [snd] in H3.
  assert (calm v v3) as H' by (by transitivity v2). destruct (bool_decide _); [done|]. destruct (kind =? FS_DIRECTORY); [|done].
  set (child := Description _ _ _). set (p' := if negb _ then _ else _). pose proof (recurse_calm child p' (b - 1) v3) as H4.
  destruct (recurse child p' (b - 1) v3) as [[e4 b4] v4]. cbn [snd] in H4. destruct (bool_decide _); by transitivity v3.
Qed.
Lemma audit_loop_calm fuel d p c b v : calm v (snd (audit_loop dops recurse fuel d p c b v)).
Proof.
  revert c b v; induction fuel as [|fuel IH]; intros c b v; cbn [audit_loop]; [done|].
  pose proof (audit_slot_calm d p c b v) as H. destruct (audit_slot dops recurse d p c b v) as [[r|b'] v']; [done|].
  cbn [snd] in H. etransitivity; [exact H|apply IH].
Qed.
End AuditCalm.
Lemma audit_calm levels d p b v : calm v (snd (audit_directory dops levels d p b v)).
Proof.
  revert d p b v; induction levels as [|levels IH]; intros d p b v; cbn [audit_directory]; [done|]. by apply audit_loop_calm.
Qed.
Lemma writable_now_calm v : calm v (snd (writable_now dops v)).
Proof.
  unfold writable_now. destruct (negb (vready v)); [done|]. destruct (faulted _); [done|]. destruct (_ || _); [done|].
  destruct (negb (audited v)); [|done].
  pose proof (audit_calm (Z.to_nat (FS_PATH_DEPTH + 1)) root_description 0 FAT16_WRITE_ENTRY_LIMIT (set_owners ∅ v)) as H.
  destruct (audit_directory _ _ _ _ _ _) as [[e b] v1]. cbn [snd] in H.
  assert (calm v v1) as H1 by (transitivity (set_owners ∅ v); [apply owners_calm|exact H]).
  destruct (bool_decide _); [done|]. etransitivity; [exact H1|apply audited_calm].
Qed.

Lemma find_loop_calm fuel c name n r l t v : calm v (snd (find_loop dops fuel c name n r l t v)).
Proof.
  revert c r l t v; induction fuel as [|fuel IH]; intros c r l t v; cbn [find_loop]; [done|].
  destruct (fat16_directory_slot _ c v) as [e id]. pose proof (entry_if_calm e id v) as H1.
  destruct (if bool_decide (e = FS_OK) then _ else _) as [[e1 data] v1]. cbn [snd] in H1. destruct (bool_decide _); [done|].
  destruct (_ || _).
  { destruct l; [done|]. destruct (if r =? n then _ else _) as [r' t']. destruct (_ =? 0); [done|]. etransitivity; [exact H1|apply IH]. }
  destruct (_ =? _); [etransitivity; [exact H1|apply IH]|].
  pose proof (decode_calm (aget data) id v1) as H2. destruct (fat16_decode (aget data) id v1) as [[e2 [d nm]] v2]. cbn [snd] in H2.
  assert (calm v v2) as H by (by transitivity v1). destruct (_ && _); [done|]. destruct (_ && _); [done|]. etransitivity; [exact H|apply IH].
Qed.
Lemma find_target_calm p name v : calm v (snd (find_target dops p name v)).
Proof.
  unfold find_target. pose proof (describe_calm p v) as H. destruct (fat16_describe dops p v) as [[e d] v1]. cbn [snd] in H.
  destruct (bool_decide _); [done|]. destruct (negb _); [done|]. set (t := Target d _ _ _ _ _ _ _ _).
  pose proof (find_loop_calm (Z.to_nat (fat16_directory_slots d v1)) 0 name (fat16_directory_slots d v1) (fat16_directory_slots d v1) false t v1) as H1.
  destruct (find_loop _ _ _ _ _ _ _ _ v1) as [[r|[[r en] t']] v2]; cbn [snd] in H1; [by transitivity v1|].
  assert (calm v v2) by (by transitivity v1). destruct (_ && (p =? ROOT_ID)); [done|]. by destruct (_ && _).
Qed.
Lemma by_id_calm id v : calm v (snd (by_id dops id v)).
Proof.
  unfold by_id. pose proof (describe_calm id v) as H. destruct (fat16_describe dops id v) as [[e d] v1]. cbn [snd] in H.
  destruct (bool_decide _); [done|]. destruct (negb _); [done|]. pose proof (entry_read_calm id v1) as H1.
  destruct (entry_read dops id v1) as [[e1 en] v2]. by transitivity v1.
Qed.
Lemma empty_loop_calm fuel i d v : calm v (snd (empty_loop dops fuel i d v)).
Proof.
  revert i v; induction fuel as [|fuel IH]; intros i v; cbn [empty_loop]; [done|].
  destruct (fat16_directory_slot d i v) as [e id]. pose proof (entry_if_calm e id v) as H1.
  destruct (if bool_decide (e = FS_OK) then _ else _) as [[e1 data] v1]. cbn [snd] in H1. destruct (bool_decide _); [done|].
  destruct (_ =? 0); [done|]. destruct (negb _); [done|]. etransitivity; [exact H1|apply IH].
Qed.
End Calm.

(** ** What writing relies on: a disk whose writes change the sectors written *)

Class DiskWriteLaw {D : Type} (o : block_operations D) := {
  write_disk :: DiskLaw o;
  disk_write f lba n data s r s' :
    Block.op_write o = Some f → f lba n data s = (r, s') →
    (∀ a, a < lba * FAT16_SECTOR_SIZE ∨ (lba + n) * FAT16_SECTOR_SIZE ≤ a → disk_byte (driver s') a = disk_byte (driver s) a) ∧
    (error r = BLOCK_OK → completed r = n → n * FAT16_SECTOR_SIZE ≤ len data → ∀ i, 0 ≤ i < n * FAT16_SECTOR_SIZE →
       disk_byte (driver s') (lba * FAT16_SECTOR_SIZE + i) = sget data i);
  disk_flush f s r s' :
    Block.op_flush o = Some f → f s = (r, s') → ∀ a, disk_byte (driver s') a = disk_byte (driver s) a
}.

Section Wrote.
Context {D H : Type} (o : block_operations D) `{!DiskWriteLaw o} (kmalloc : Z → H → bool * H) (kfree : H → H).
Implicit Types (v : volume D) (s : wstate D H).
Notation dops := (Some o).

Lemma block_write_bytes given lba n data bytes (s : bio D) :
  0 ≤ lba → 0 < n → 0 ≤ bytes → 0 ≤ sector_size (device s) → 0 ≤ active_requests s ≤ UINT32_MAX →
  let '(r, s') := block_write dops given lba n (Some data) bytes s in
  (∀ a, a < lba * FAT16_SECTOR_SIZE ∨ (lba + n) * FAT16_SECTOR_SIZE ≤ a → disk_byte (driver s') a = disk_byte (driver s) a) ∧
  sector_size (device s') = sector_size (device s) ∧ active_requests s' = active_requests s ∧
  (error r = BLOCK_OK → completed r = n → n * FAT16_SECTOR_SIZE ≤ len data → ∀ i, 0 ≤ i < n * FAT16_SECTOR_SIZE →
     disk_byte (driver s') (lba * FAT16_SECTOR_SIZE + i) = sget data i).
Proof.
  intros Hl Hn Hb Hz Ha. unfold block_write.
  destruct (decide (given = true ∧ is_Some dops ∧ idle s)) as [(-> & _ & Hi)|Hnot].
  2: { destruct (acquire_refused dops given s Ha Hnot) as (e & -> & He). rewrite bool_decide_eq_true_2 by done. by split_and!. }
  rewrite (acquire_idle o s Hi), bool_decide_eq_false_2 by (by intros []).
  destruct (release_held s (held s) ltac:(done) Hi) as [Ha0 _].
  destruct (request_checked s lba n (Some data) bytes Hl ltac:(lia) Hb Hz Hi) as [(x & [= <-] & -> & _)|[Hno He]].
  2: { destruct Hno as [Hno|]; [|done]. rewrite Hno. cbn -[Block.release]. split_and!; [done|done|done|].
       intros E. specialize (He E). lia. }
  destruct (read_only (device (held s))); [cbn -[Block.release]; by split_and!|].
  destruct (Block.op_write o) as [f|] eqn:Ef; [|cbn -[Block.release]; by split_and!].
  destruct (f lba n data (held s)) as [r s''] eqn:Er.
  pose proof (law_write (o := o) f lba n data (held s) Ef) as Hlaw. rewrite Er in Hlaw.
  destruct (release_held s s'' Hlaw Hi) as [Ha1 _]. destruct (disk_write f lba n data (held s) r s'' Ef Er) as [Hd Hok].
  split_and!; [exact Hd|destruct Hlaw as (_ & _ & _ & Hs & _); exact Hs|done|exact Hok].
Qed.

Lemma block_flush_bytes given (s : bio D) : 0 ≤ active_requests s ≤ UINT32_MAX →
  let '(r, s') := block_flush dops given s in
  (∀ a, disk_byte (driver s') a = disk_byte (driver s) a) ∧
  sector_size (device s') = sector_size (device s) ∧ active_requests s' = active_requests s.
Proof.
  intros Ha. unfold block_flush.
  destruct (decide (given = true ∧ is_Some dops ∧ idle s)) as [(-> & _ & Hi)|Hnot].
  2: { destruct (acquire_refused dops given s Ha Hnot) as (e & -> & He). by rewrite bool_decide_eq_true_2 by done. }
  rewrite (acquire_idle o s Hi), bool_decide_eq_false_2 by (by intros []).
  destruct (release_held s (held s) ltac:(done) Hi) as [Ha0 _].
  destruct (Block.op_flush o) as [f|] eqn:Ef; [|cbn -[Block.release]; by split_and!].
  destruct (f (held s)) as [r s''] eqn:Er. pose proof (law_flush (o := o) f (held s) Ef) as Hlaw. rewrite Er in Hlaw.
  destruct (release_held s s'' Hlaw Hi) as [Ha1 _].
  split_and!; [exact (disk_flush f (held s) r s'' Ef Er)|destruct Hlaw as (_ & _ & _ & Hs & _); exact Hs|done].
Qed.

(** What the steps of a mutation do to the volume: the layout and the pins stay, sectors
    before the FAT stay, and nothing changes before the first write is issued. *)
Definition same_fat v v' : Prop :=
  ∀ i, 0 ≤ i < fat_sectors (info v) * FAT16_SECTOR_SIZE → aget (fat v') i = aget (fat v) i.
Definition wrote s s' : Prop :=
  let v := wvol s in let v' := wvol s' in
  info v' = info v ∧ vpins v' = vpins v ∧ vready v' = vready v ∧ vbusy v' = vbusy v ∧ has_device v' = has_device v ∧
  (wstarted s = true → wstarted s' = true) ∧
  (good o v → good o v' ∧ (∀ a, a < fat_start (info v) * FAT16_SECTOR_SIZE → vbyte o v' a = vbyte o v a) ∧
     (wstarted s' = false → (∀ a, vbyte o v' a = vbyte o v a) ∧ same_fat v v')).
#[global] Instance wrote_preorder : PreOrder wrote.
Proof.
  split; [intros s; by split_and!|]. intros s1 s2 s3 (I1 & P1 & R1 & B1 & D1 & S1 & G1) (I2 & P2 & R2 & B2 & D2 & S2 & G2).
  split_and!; [congruence..|tauto|]. intros Hg. destruct (G1 Hg) as (Hg2 & Hr & Hs). destruct (G2 Hg2) as (Hg3 & Hr' & Hs').
  split_and!; [done| |].
  - intros a Ha. rewrite Hr', Hr by (by rewrite ?I1). done.
  - intros E3. assert (wstarted s2 = false) as E2 by (destruct (wstarted s2); [by rewrite S2 in E3|done]).
    destruct (Hs E2) as [Hb Hf]. destruct (Hs' E3) as [Hb' Hf']. split; [intros a; by rewrite Hb', Hb|].
    intros i Hi. rewrite Hf', Hf by (by rewrite ?I1). done.
Qed.
Definition writes (m : action) : Prop := ∀ s, wrote s (snd (m s)).

Lemma calm_wrote v' s : calm o (wvol s) v' → wrote s (set_wvol v' s).
Proof.
  intros [F Hg]. unfold frame in F. destruct_and!. split_and!; try done. intros G. destruct (Hg G) as [G' Hb].
  split_and!; [done|intros; apply Hb|]. intros _. split; [done|]. intros i _. by f_equal.
Qed.
Lemma writes_and_ok m1 m2 : writes m1 → writes m2 → writes (and_ok m1 m2).
Proof.
  intros H1 H2 s. unfold and_ok. specialize (H1 s). destruct (m1 s) as [e s1]. cbn [snd] in H1.
  destruct (bool_decide _); [by transitivity s1|done].
Qed.

Lemma write_sector_writes n data : 0 ≤ n → writes (write_sector dops n data).
Proof.
  intros Hn s. unfold write_sector. destruct ((n <? _) || _) eqn:Er; [reflexivity|]. apply orb_false_iff in Er as [Er _].
  destruct (read_only _); [reflexivity|]. cbn [has_device set_cached dev].
  pose proof (block_write_bytes (has_device (wvol s)) n 1 (list_of FAT16_SECTOR_SIZE data) FAT16_SECTOR_SIZE (dev (wvol s)) Hn ltac:(lia) ltac:(done)) as Hw.
  destruct (block_write _ _ _ _ _ _ _) as [r d]. split_and!; try done. intros [[Hz Ha] _].
  destruct (Hw Hz Ha) as (Hb & Es & Ea & _). split_and!.
  - split; [|done]. unfold device_ok. cbn. by rewrite Es, Ea.
  - intros a Hlt. apply Hb. left. unfold FAT16_SECTOR_SIZE in *. lia.
  - done.
Qed.
Lemma flush_device_writes : writes (flush_device dops).
Proof.
  intros s. unfold flush_device. pose proof (block_flush_bytes (has_device (wvol s)) (dev (wvol s))) as Hw.
  destruct (block_flush _ _ _) as [r d]. split_and!; try done. intros [[Hz Ha] Hc]. destruct (Hw Ha) as (Hb & Es & Ea). split_and!.
  - split; [unfold device_ok; cbn; by rewrite Es, Ea|]. intros E i Hi. cbn in E |- *. unfold vbyte. cbn. rewrite Hb. by apply Hc.
  - intros a _. apply Hb.
  - intros _. split; [done|]. by intros i _.
Qed.
Lemma entry_write_writes id entry : writes (entry_write dops id entry).
Proof.
  intros s. unfold entry_write. destruct (fat16_slot_offset id (wvol s)) as [offset|]; [|reflexivity].
  set (n := wrap32 _). assert (0 ≤ n) as Hn by apply wrap32_bound. pose proof (sector_calm o n (wvol s) Hn) as Hc.
  destruct (fat16_sector dops n (wvol s)) as [e v]. cbn [snd] in Hc. apply calm_wrote in Hc.
  destruct (bool_decide _); [done|]. etransitivity; [exact Hc|by apply write_sector_writes].
Qed.

Lemma persist_sectors_writes fuel i copy f ch s : wrote s (snd (persist_sectors dops fuel i copy f ch s)).
Proof.
  revert i ch s; induction fuel as [|fuel IH]; intros i ch s; cbn [persist_sectors]; [reflexivity|].
  destruct (all_range _ _ _); [apply IH|]. set (n := wrap32 _). set (data := memcpy _ _ _ _ _).
  pose proof (write_sector_writes n data (proj1 (wrap32_bound _)) s) as H1. destruct (write_sector dops n data s) as [e s1]. cbn [snd] in H1.
  destruct (bool_decide _); [done|]. etransitivity; [exact H1|apply IH].
Qed.
(** A successful write has been issued, so an unwritten FAT copy equals the cached one. *)
Lemma write_sector_started n data s e s' : write_sector dops n data s = (e, s') → e = FS_OK → wstarted s' = true.
Proof.
  unfold write_sector. destruct (_ || _); [by intros [= <- _]|]. destruct (read_only _); [by intros [= <- _]|].
  destruct (block_write _ _ _ _ _ _ _) as [r d]. by intros [= _ <-].
Qed.
Lemma persist_sectors_same fuel i copy f ch s e ch' s' : persist_sectors dops fuel i copy f ch s = ((e, ch'), s') →
  e = FS_OK → wstarted s' = false →
  s' = s ∧ ∀ j, i * FAT16_SECTOR_SIZE ≤ j < (i + Z.of_nat fuel) * FAT16_SECTOR_SIZE → aget f j = aget (fat (wvol s)) j.
Proof.
  revert i ch s; induction fuel as [|fuel IH]; intros i ch s; cbn [persist_sectors].
  { intros [= <- _ <-] _ _. split; [done|]. intros j Hj. lia. }
  destruct (all_range _ _ _) eqn:Ea.
  - intros H1 He Hw. destruct (IH _ _ _ H1 He Hw) as [-> Hj']. split; [done|]. intros j Hj.
    destruct (decide ((i + 1) * FAT16_SECTOR_SIZE ≤ j)); [apply Hj'; unfold FAT16_SECTOR_SIZE in *; lia|].
    apply all_range_true with (i := j - i * FAT16_SECTOR_SIZE) in Ea; [|unfold FAT16_SECTOR_SIZE in *; lia]. apply Z.eqb_eq in Ea.
    by replace (i * FAT16_SECTOR_SIZE + (j - i * FAT16_SECTOR_SIZE)) with j in Ea by lia.
  - set (n := wrap32 _). set (data := memcpy _ _ _ _ _). destruct (write_sector dops n data s) as [e1 s1] eqn:E1.
    destruct (bool_decide (e1 ≠ FS_OK)) eqn:Ee; [apply bool_decide_eq_true in Ee; by intros [= <- _ _] ?|].
    apply bool_decide_eq_false, dec_stable in Ee. intros H1 He Hw. pose proof (write_sector_started _ _ _ _ _ E1 Ee) as Hst.
    pose proof (persist_sectors_writes fuel (i + 1) copy f true s1) as (_ & _ & _ & _ & _ & Hm & _). rewrite H1 in Hm. cbn [snd] in Hm.
    rewrite Hm in Hw; done.
Qed.

Lemma persist_copy_writes copy f : writes (persist_copy dops copy f).
Proof.
  intros s. unfold persist_copy. pose proof (persist_sectors_writes (Z.to_nat (fat_sectors (info (wvol s)))) 0 copy f false s) as H1.
  destruct (persist_sectors _ _ _ _ _ _ s) as [[e ch] s1]. cbn [snd] in H1. destruct (bool_decide _); [done|].
  destruct ch; [|done]. etransitivity; [exact H1|apply flush_device_writes].
Qed.
Lemma persist_copy_same copy f s s' : persist_copy dops copy f s = (FS_OK, s') → wstarted s' = false →
  ∀ j, 0 ≤ j < fat_sectors (info (wvol s)) * FAT16_SECTOR_SIZE → aget f j = aget (fat (wvol s)) j.
Proof.
  unfold persist_copy. destruct (persist_sectors _ _ _ _ _ _ s) as [[e ch] s1] eqn:E.
  destruct (bool_decide (e ≠ FS_OK)) eqn:Ee; [apply bool_decide_eq_true in Ee; by intros [= ? _]|].
  apply bool_decide_eq_false, dec_stable in Ee. intros H1 Hw j Hj.
  assert (wstarted s1 = false) as Hw1.
  { destruct ch; [|by inversion H1; subst]. pose proof (flush_device_writes s1) as (_ & _ & _ & _ & _ & Hm & _). rewrite H1 in Hm.
    cbn [snd] in Hm. destruct (wstarted s1); [by rewrite Hm in Hw|done]. }
  destruct (persist_sectors_same _ _ _ _ _ _ _ _ _ E Ee Hw1) as [_ Hall]. apply Hall. unfold FAT16_SECTOR_SIZE in *. lia.
Qed.
Lemma persist_fat_writes f : writes (persist_fat dops f).
Proof.
  intros s. unfold persist_fat, and_ok. destruct (persist_copy dops 0 f s) as [e s1] eqn:E1.
  pose proof (persist_copy_writes 0 f s) as W1. rewrite E1 in W1. cbn [snd] in W1.
  destruct (decide (e = FS_OK)) as [->|]; [|by rewrite bool_decide_eq_false_2 by done]. rewrite bool_decide_eq_true_2 by done.
  pose proof (persist_copy_writes 1 f s1) as W2. destruct (persist_copy dops 1 f s1) as [e2 s2]. cbn [snd] in W2.
  assert (wrote s s2) as W12 by (by transitivity s1). destruct (bool_decide _); [|done].
  assert (wstarted s2 = false → wstarted s1 = false) as Hback by (destruct W2 as (_ & _ & _ & _ & _ & Hm & _); destruct (wstarted s1); [by rewrite Hm|done]).
  destruct W12 as (I & P & R & B & Dv & M & G). split_and!; try done. intros Hg. destruct (G Hg) as (G2 & Gr & Gs).
  split_and!; [exact G2|exact Gr|]. intros Hst. split; [apply (Gs Hst)|].
  intros i Hi. cbn. exact (persist_copy_same 0 f s s1 E1 (Hback Hst) i Hi).
Qed.

Lemma zero_loop_writes n i cluster data : writes (zero_loop dops n i cluster data).
Proof.
  revert i data; induction n as [|n IH]; intros i data s; cbn [zero_loop]; [reflexivity|]. set (k := wrap32 _).
  pose proof (write_sector_writes k data (proj1 (wrap32_bound _)) s) as H1. destruct (write_sector dops k data s) as [e s1]. cbn [snd] in H1.
  destruct (bool_decide _); [done|]. etransitivity; [exact H1|apply IH].
Qed.
Lemma zero_cluster_writes c self parent : writes (zero_cluster dops c self parent).
Proof. intros s. apply zero_loop_writes. Qed.
Lemma grow_directory_wrote t f s : wrote s (snd (grow_directory dops t f s)).
Proof.
  unfold grow_directory. destruct (negb _); [reflexivity|]. destruct (allocate f 1 (wvol s)) as [[e c] f']. destruct (bool_decide _); [reflexivity|].
  pose proof (zero_cluster_writes c 0 0 s) as H1. by destruct (zero_cluster dops c 0 0 s) as [e1 s1].
Qed.
Lemma publish_writes t entry : writes (publish dops t entry).
Proof.
  unfold publish. apply writes_and_ok; [|apply writes_and_ok; [apply entry_write_writes|apply flush_device_writes]].
  intros s. destruct (_ && _); [|reflexivity]. destruct (fat16_directory_slot _ _ _) as [e next].
  pose proof (entry_if_calm o e next (wvol s)) as H1. destruct (if bool_decide (e = FS_OK) then _ else _) as [[e1 fo] v1]. cbn [snd] in H1.
  apply calm_wrote in H1. destruct (bool_decide _); [done|]. destruct (negb _); [|done]. etransitivity; [exact H1|].
  apply writes_and_ok; [apply entry_write_writes|apply flush_device_writes].
Qed.
Lemma copy_sector_writes old size po patch bytes keep c oc i base : writes (copy_sector dops old size po patch bytes keep c oc i base).
Proof.
  intros s. unfold copy_sector. set (m := if _ && _ && _ then _ else _). assert (calm o (wvol s) (snd m)) as Hm.
  { unfold m. destruct (_ && _ && _); [|reflexivity]. set (n := wrap32 _).
    pose proof (sector_calm o n (wvol s) (proj1 (wrap32_bound _))) as Hc. destruct (fat16_sector dops n (wvol s)) as [e v].
    by destruct (bool_decide _). }
  destruct m as [[e data] v]. cbn [snd] in Hm. apply calm_wrote in Hm. destruct (bool_decide _); [done|].
  etransitivity; [exact Hm|]. apply write_sector_writes, wrap32_bound.
Qed.
Lemma copy_cluster_writes old size po patch bytes keep n c oc i base : writes (copy_cluster dops old size po patch bytes keep n c oc i base).
Proof.
  revert i base; induction n as [|n IH]; intros i base s; cbn [copy_cluster]; [reflexivity|].
  apply writes_and_ok; [apply copy_sector_writes|apply IH].
Qed.
Lemma copy_contents_writes old size po patch bytes keep f first : writes (copy_contents dops old size po patch bytes keep f first).
Proof.
  intros s. unfold copy_contents. generalize (S (Z.to_nat ((size + cluster_bytes (info (wvol s)) - 1) / cluster_bytes (info (wvol s))))) as fuel.
  generalize (if keep then dfirst old else 0) as oc. generalize 0 at 2 as base. generalize 0 as index.
  intros index base oc fuel. revert first oc index base s; induction fuel as [|fuel IH]; intros c oc index base s; cbn [copy_loop]; [reflexivity|].
  destruct (negb _); [reflexivity|]. set (per := cluster_bytes (info (wvol s)) / FAT16_SECTOR_SIZE).
  pose proof (copy_cluster_writes old size po patch bytes keep (Z.to_nat per) c oc 0 base s) as H1.
  destruct (copy_cluster _ _ _ _ _ _ _ _ _ _ _ _ s) as [e s1]. cbn [snd] in H1. destruct (bool_decide _); [done|].
  etransitivity; [exact H1|apply IH].
Qed.
Lemma heap_wrote h s : wrote s (W (wvol s) h (wstarted s)).
Proof. split_and!; try done. Qed.

(** The end of a mutation: an error after the first write faults the volume. *)
Definition same_layout (i i' : fat16_information) : Prop :=
  sectors i' = sectors i ∧ clusters i' = clusters i ∧ cluster_bytes i' = cluster_bytes i ∧ fat_start i' = fat_start i ∧
  fat_sectors i' = fat_sectors i ∧ root_start i' = root_start i ∧ root_entries i' = root_entries i ∧
  data_start i' = data_start i ∧ fmounted i' = fmounted i.
Definition mutated v (e : fs_error) v' : Prop :=
  same_layout (info v) (info v') ∧ vpins v' = vpins v ∧ vready v' = vready v ∧ vbusy v' = vbusy v ∧ has_device v' = has_device v ∧
  (good o v → good o v' ∧ (∀ a, a < fat_start (info v) * FAT16_SECTOR_SIZE → vbyte o v' a = vbyte o v a) ∧
     (e = FS_OK → info v' = info v) ∧
     (e ≠ FS_OK → (info v' = info v ∧ (∀ a, vbyte o v' a = vbyte o v a) ∧ same_fat v v') ∨
        (faulted (info v') = true ∧ writable (info v') = false))).

Lemma wrote_unstarted s s' e : wstarted s' = false → wrote s s' → mutated (wvol s) e (wvol s').
Proof.
  intros Hst (I & P & R & B & Dv & _ & G). split_and!; try done; [by rewrite I..|]. intros Hg. destruct (G Hg) as (G1 & G2 & G3).
  split_and!; [done..|]. intros _. left. split_and!; [done|apply (G3 Hst)..].
Qed.
Lemma finish_mutated s s' e : wrote s s' →
  fst (finish e s') = e ∧ mutated (wvol s) e (wvol (snd (finish e s'))).
Proof.
  intros Hw. split; [done|]. unfold finish. destruct (decide (e = FS_OK)) as [->|He].
  - rewrite bool_decide_eq_false_2 by (by intros []). cbn [andb snd]. destruct Hw as (I & P & R & B & Dv & _ & G).
    split_and!; try done; [by rewrite I..|]. intros Hg. destruct (G Hg) as (G1 & G2 & G3). by split_and!.
  - rewrite bool_decide_eq_true_2 by done. cbn [andb]. destruct (wstarted s') eqn:Hst; cbn [snd].
    + destruct Hw as (I & P & R & B & Dv & _ & G). split_and!; try done; cbn; [by rewrite I..|].
      intros Hg. destruct (G Hg) as (G1 & G2 & G3). split_and!; [split; [apply G1|done]|done|done|]. intros _. by right.
    + by apply wrote_unstarted.
Qed.

Lemma calm_mutated v v1 e v2 : calm o v v1 → mutated v1 e v2 → mutated v e v2.
Proof.
  intros [F Hc] (L & P & R & B & Dv & G). unfold frame in F. destruct_and!. unfold mutated. rewrite <- H0.
  split_and!; [done|congruence..|]. intros Hg. destruct (Hc Hg) as [Hg1 Hb]. destruct (G Hg1) as (G1 & G2 & G3 & G4).
  split_and!; [done| |done|].
  - intros a Ha. rewrite <- Hb. by apply G2.
  - intros He. destruct (G4 He) as [(E1 & E2 & E3)|]; [left|by right]. split_and!; [done|intros a; by rewrite E2|].
    intros i Hi. rewrite <- H0 in Hi. rewrite E3 by done. by f_equal.
Qed.
Lemma calm_refused v v1 e : calm o v v1 → mutated v e v1.
Proof.
  intros H1. apply (calm_mutated _ _ _ _ H1). split_and!; try done. intros Hg. split_and!; try done. by left.
Qed.
Lemma wrote_if (b : bool) (e : fs_error) (m : action) s : writes m → wrote s (snd (if b then m s else (e, s))).
Proof. intros Hm. destruct b; [apply Hm|reflexivity]. Qed.

Lemma rewrite_mutated t size offset data bytes keep s : wstarted s = false →
  let '((e, _), s') := rewrite dops kmalloc kfree t size offset data bytes keep s in mutated (wvol s) e (wvol s').
Proof.
  intros Hst. unfold rewrite. destruct (_ || _); [by apply calm_refused|]. destruct (_ && _); [by apply calm_refused|].
  destruct (kmalloc _ _) as [granted h]. destruct granted; cbn [negb]; [|by apply calm_refused].
  set (s0 := W (wvol s) h false). assert (wrote s s0) as W0 by (unfold s0; rewrite <- Hst; apply heap_wrote).
  cbn [wvol s0]. destruct (allocate _ _ _) as [[e0 first] f]. set (e1 := if _ && _ && _ then FS_NO_SPACE else e0).
  pose proof (wrote_if (bool_decide (e1 = FS_OK)) e1 _ s0 (copy_contents_writes (told t) size offset data bytes keep f first)) as W1.
  destruct (if bool_decide (e1 = FS_OK) then _ else _) as [e2 s2]. cbn [snd] in W1.
  set (m := if bool_decide (e2 = FS_OK) then grow_directory dops t f s2 else _).
  assert (wrote s2 (snd m)) as W2 by (unfold m; destruct (bool_decide (e2 = FS_OK)); [apply grow_directory_wrote|reflexivity]).
  destruct m as [[e3 [t3 f3]] s3]. cbn [snd] in W2.
  pose proof (wrote_if (bool_decide (e3 = FS_OK)) e3 _ s3 (writes_and_ok _ _ flush_device_writes (persist_fat_writes f3))) as W3.
  destruct (if bool_decide (e3 = FS_OK) then _ else _) as [e4 s4]. cbn [snd] in W3. set (entry := aset _ 11 _).
  pose proof (wrote_if (bool_decide (e4 = FS_OK)) e4 _ s4 (publish_writes t3 entry)) as W4.
  destruct (if bool_decide (e4 = FS_OK) then _ else _) as [e5 s5]. cbn [snd] in W4.
  pose proof (wrote_if (bool_decide (e5 = FS_OK)) e5 _ s5 (persist_fat_writes (free_chain f3 (told t3) (wvol s5)))) as W5.
  destruct (if bool_decide (e5 = FS_OK) then _ else _) as [e6 s6]. cbn [snd] in W5.
  set (s7 := W (wvol s6) (kfree (wheap s6)) (wstarted s6)).
  assert (wrote s s7) as Hw.
  { transitivity s0; [done|]. transitivity s2; [done|]. transitivity s3; [done|]. transitivity s4; [done|].
    transitivity s5; [done|]. transitivity s6; [done|]. apply heap_wrote. }
  exact (proj2 (finish_mutated s s7 e6 Hw)).
Qed.

Inductive mutation :=
  | Replace (parent : Z) (name : Z → Z) (data : list Z) (bytes : Z)
  | WriteAt (id offset : Z) (data : list Z) (bytes : Z)
  | Truncate (id size : Z)
  | Mkdir (parent : Z) (name : Z → Z)
  | Remove (parent : Z) (name : Z → Z)
  | FlushAll.
Definition mutate (m : mutation) (s : wstate D H) : fs_error * wstate D H :=
  match m with
  | Replace p n d b => fat16_replace_file dops kmalloc kfree p n d b s
  | WriteAt i off d b => let '(r, s) := fat16_write_file dops kmalloc kfree i off d b s in (io_error r, s)
  | Truncate i n => fat16_truncate_file dops kmalloc kfree i n s
  | Mkdir p n => fat16_mkdir_node dops kmalloc kfree p n s
  | Remove p n => fat16_remove_node dops kmalloc kfree p n s
  | FlushAll => fat16_flush dops s
  end.
Definition mutates (m : wstate D H → fs_error * wstate D H) : Prop :=
  ∀ s, wstarted s = false → mutated (wvol s) (fst (m s)) (wvol (snd (m s))).

(** The common beginning: the audit, then the search for the target. *)
Ltac begin_mutation :=
  let s := fresh "s" in intros s Hst;
  match goal with |- context [writable_now ?d ?v] =>
    pose proof (writable_now_calm o v) as H1; destruct (writable_now d v) as [e1 v1]; cbn [snd] in H1 end.

Lemma replace_mutates p n d b : mutates (fat16_replace_file dops kmalloc kfree p n d b).
Proof.
  unfold fat16_replace_file. begin_mutation. destruct (bool_decide _); [by apply calm_refused|].
  pose proof (find_target_calm o p n v1) as H2. destruct (find_target dops p n v1) as [[e2 t] v2]. cbn [snd] in H2.
  assert (calm o (wvol s) v2) as H12 by (by transitivity v1). destruct (bool_decide _); [by apply calm_refused|].
  destruct (_ && _); [by apply calm_refused|]. destruct (_ && _); [by apply calm_refused|].
  set (t' := if negb (texists t) then set_tentry _ t else t). pose proof (rewrite_mutated t' b 0 d b false (set_wvol v2 (set_wvol v1 s)) Hst) as H3.
  destruct (rewrite _ _ _ _ _ _ _ _ _ _) as [[e c] s']. by apply (calm_mutated _ _ _ _ H12).
Qed.
Lemma by_id_if_calm (e : fs_error) id v : calm o v (snd (if bool_decide (e = FS_OK) then by_id dops id v else ((e, no_target), v))).
Proof. destruct (bool_decide _); [apply by_id_calm|reflexivity]. Qed.
Lemma write_mutates id off d b : mutates (mutate (WriteAt id off d b)).
Proof.
  unfold mutates, mutate, fat16_write_file. begin_mutation.
  assert (calm o (wvol s) v1) as H1' by (etransitivity; [apply (last_io_calm o io_zero)|exact H1]).
  pose proof (by_id_if_calm e1 id v1) as H2. destruct (if bool_decide (e1 = FS_OK) then _ else _) as [[e2 t] v2]. cbn [snd] in H2.
  assert (calm o (wvol s) v2) as H12 by (by transitivity v1). set (e3 := if _ && _ then FS_RANGE else e2).
  destruct (bool_decide (e3 = FS_OK)); [|by apply calm_refused]. set (size := if _ <? _ then _ else _).
  pose proof (rewrite_mutated t size off d b true (set_wvol v2 s) Hst) as H3.
  destruct (rewrite _ _ _ _ _ _ _ _ _ _) as [[e c] s']. by apply (calm_mutated _ _ _ _ H12).
Qed.
Lemma truncate_mutates id size : mutates (fat16_truncate_file dops kmalloc kfree id size).
Proof.
  unfold fat16_truncate_file. begin_mutation.
  pose proof (by_id_if_calm e1 id v1) as H2. destruct (if bool_decide (e1 = FS_OK) then _ else _) as [[e2 t] v2]. cbn [snd] in H2.
  assert (calm o (wvol s) v2) as H12 by (by transitivity v1). destruct (bool_decide _); [by apply calm_refused|].
  destruct (negb _); [by apply calm_refused|]. destruct (_ =? _); [by apply calm_refused|].
  pose proof (rewrite_mutated t size 0 [] 0 true (set_wvol v2 s) Hst) as H3.
  destruct (rewrite _ _ _ _ _ _ _ _ _ _) as [[e c] s']. by apply (calm_mutated _ _ _ _ H12).
Qed.
Lemma flush_mutates : mutates (fat16_flush dops).
Proof.
  intros s Hst. unfold fat16_flush. destruct (negb (vready _)); [by apply calm_refused|]. destruct (faulted _); [by apply calm_refused|].
  destruct (negb _); [by apply calm_refused|]. pose proof (flush_device_writes s) as H1. destruct (flush_device dops s) as [e s1]. cbn [snd] in H1.
  set (s2 := W (wvol s1) (wheap s1) true). assert (wrote s s2) as Hw.
  { transitivity s1; [done|]. destruct (wstarted s1) eqn:E; unfold s2; [rewrite <- E; apply heap_wrote|]. by split_and!. }
  exact (proj2 (finish_mutated s s2 e Hw)).
Qed.
Lemma remove_mutates p n : mutates (fat16_remove_node dops kmalloc kfree p n).
Proof.
  unfold fat16_remove_node. begin_mutation. destruct (bool_decide _); [by apply calm_refused|].
  pose proof (find_target_calm o p n v1) as H2. destruct (find_target dops p n v1) as [[e2 t] v2]. cbn [snd] in H2.
  assert (calm o (wvol s) v2) as H12 by (by transitivity v1). destruct (bool_decide _); [by apply calm_refused|].
  destruct (negb _); [by apply calm_refused|]. destruct (pinned _ _); [by apply calm_refused|]. destruct (negb _); [by apply calm_refused|].
  destruct (tlong_name t); [by apply calm_refused|]. set (m := if _ =? FS_DIRECTORY then _ else _).
  assert (calm o v2 (snd m)) as H3 by (unfold m; destruct (_ =? _); [apply empty_loop_calm|reflexivity]).
  destruct m as [e3 v3]. cbn [snd] in H3. assert (calm o (wvol s) v3) as H13 by (by transitivity v2).
  destruct (bool_decide _); [by apply calm_refused|]. destruct (kmalloc _ _) as [granted h]. destruct granted; cbn [negb]; [|by apply calm_refused].
  set (act := and_ok _ _). assert (writes act) as Ha.
  { apply writes_and_ok; [apply entry_write_writes|]. apply writes_and_ok; [apply flush_device_writes|]. intros s'. apply persist_fat_writes. }
  specialize (Ha (begin_with v3 h)). destruct (act (begin_with v3 h)) as [e4 s4]. cbn [snd] in Ha.
  apply (calm_mutated _ _ _ _ H13). refine (proj2 (finish_mutated (begin_with v3 h) (W (wvol s4) (kfree (wheap s4)) (wstarted s4)) e4 _)).
  etransitivity; [exact Ha|apply heap_wrote].
Qed.

Lemma mkdir_mutates p n : mutates (fat16_mkdir_node dops kmalloc kfree p n).
Proof.
  unfold fat16_mkdir_node. begin_mutation. destruct (bool_decide _); [by apply calm_refused|].
  pose proof (find_target_calm o p n v1) as H2. destruct (find_target dops p n v1) as [[e2 t] v2]. cbn [snd] in H2.
  assert (calm o (wvol s) v2) as H12 by (by transitivity v1). destruct (bool_decide _); [by apply calm_refused|].
  destruct (texists t); [by apply calm_refused|]. destruct (kmalloc _ _) as [granted h]. destruct granted; cbn [negb]; [|by apply calm_refused].
  destruct (allocate _ _ _) as [[e3 cluster] f]. generalize (if bool_decide (e3 = FS_OK) then set_cluster f cluster 65535 else f) as f'. intros f'.
  set (extra := if _ && _ then _ else 0). set (pc := if p =? ROOT_ID then _ else _). set (s0 := begin_with v2 h).
  pose proof (wrote_if (bool_decide (e3 = FS_OK)) e3 _ s0 (zero_cluster_writes cluster cluster pc)) as W1.
  destruct (if bool_decide (e3 = FS_OK) then _ else _) as [e4 s4]. cbn [snd] in W1.
  set (m := if bool_decide (e4 = FS_OK) && tgrow t then _ else _). assert (wrote s4 (snd m)) as W2.
  { unfold m. destruct (bool_decide (e4 = FS_OK) && tgrow t); [|reflexivity]. pose proof (zero_cluster_writes extra 0 0 s4) as Hz.
    by destruct (zero_cluster dops extra 0 0 s4) as [e s5]. }
  destruct m as [[e5 [t5 f5]] s5]. cbn [snd] in W2. set (entry := make_entry n true cluster 0).
  pose proof (wrote_if (bool_decide (e5 = FS_OK)) e5 _ s5
    (writes_and_ok _ _ flush_device_writes (writes_and_ok _ _ (persist_fat_writes f5) (publish_writes t5 entry)))) as W3.
  destruct (if bool_decide (e5 = FS_OK) then _ else _) as [e6 s6]. cbn [snd] in W3.
  apply (calm_mutated _ _ _ _ H12). refine (proj2 (finish_mutated s0 (W (wvol s6) (kfree (wheap s6)) (wstarted s6)) e6 _)).
  transitivity s4; [done|]. transitivity s5; [done|]. transitivity s6; [done|]. apply heap_wrote.
Qed.

Lemma mutate_mutated m : mutates (mutate m).
Proof.
  destruct m; [apply replace_mutates|apply write_mutates|apply truncate_mutates|apply mkdir_mutates|apply remove_mutates|apply flush_mutates].
Qed.

(** A faulted volume refuses every mutation before it reads or writes anything. *)
Lemma writable_now_faulted v : vready v = true → faulted (info v) = true → writable_now dops v = (FS_IO_ERROR, v).
Proof. intros Hr Hf. unfold writable_now. by rewrite Hr, Hf. Qed.
Lemma mutate_faulted m s : vready (wvol s) = true → faulted (info (wvol s)) = true →
  fst (mutate m s) = FS_IO_ERROR ∧ dev (wvol (snd (mutate m s))) = dev (wvol s) ∧ fat (wvol (snd (mutate m s))) = fat (wvol s).
Proof.
  intros Hr Hf. destruct m; cbn [mutate].
  - unfold fat16_replace_file. by rewrite writable_now_faulted.
  - unfold fat16_write_file. by rewrite writable_now_faulted.
  - unfold fat16_truncate_file. by rewrite writable_now_faulted.
  - unfold fat16_mkdir_node. by rewrite writable_now_faulted.
  - unfold fat16_remove_node. by rewrite writable_now_faulted.
  - unfold fat16_flush. by rewrite Hr, Hf.
Qed.
End Wrote.

(** C8: Every mutation of a FAT16 volume (write, replace, truncate, mkdir, remove,
    flush) is fail-stop: when it reports an error, either the disk, the cached FAT and
    the volume's status are what they were, or the volume is faulted and no longer
    writable, and a faulted volume refuses every further mutation untouched. In all
    cases the sectors before the FAT are never written, the layout and the object pins
    are kept, and the sector cache still agrees with the disk. *)
Theorem fat16_mutation_fail_stop {D H} (o : block_operations D) `{!DiskWriteLaw o} (kmalloc : Z → H → bool * H) (kfree : H → H)
    (m : mutation) v h :
  good o v →
  let '(e, s') := mutate o kmalloc kfree m (begin_with v h) in
  let v' := wvol s' in
  mutated o v e v' ∧ good o v' ∧
  (vready v = true → faulted (info v) = true → e = FS_IO_ERROR ∧ dev v' = dev v ∧ fat v' = fat v).
Proof.
  intros Hg. pose proof (mutate_mutated o kmalloc kfree m (begin_with v h) eq_refl) as Hm.
  pose proof (mutate_faulted o kmalloc kfree m (begin_with v h)) as Hf.
  destruct (mutate o kmalloc kfree m (begin_with v h)) as [e s']. cbn [fst snd] in *. split_and!; [done| |done].
  destruct Hm as (_ & _ & _ & _ & _ & G). by destruct (G Hg).
Qed.

(** ** The volume honours the contract of a backend *)

Section Pins.
Context {D : Type}.
Implicit Types (v : volume D).

Definition slot_pins v (id i : Z) : Z := if pin_id (pin_at v i) =? id then Z.of_N (pin_count (pin_at v i)) else 0.
(** The number of times object [id] is retained. *)
Definition pins_of v (id : Z) : Z := sum_range 0 FS_OBJECT_LIMIT (slot_pins v id).

Lemma pins_same v v' id : vpins v' = vpins v → pins_of v' id = pins_of v id.
Proof. intros E. apply sum_range_ext. intros i _. unfold slot_pins, pin_at. by rewrite E. Qed.
Lemma pin_at_insert v i j p : pin_at (set_pins (<[i := p]> (vpins v)) v) j = if decide (j = i) then p else pin_at v j.
Proof. unfold pin_at. cbn. case_decide as E; [subst; by rewrite lookup_insert_eq|by rewrite lookup_insert_ne]. Qed.
(** Replacing one slot changes the counts by the difference of the slots. *)
Lemma pins_insert v i p id : 0 ≤ i < FS_OBJECT_LIMIT →
  pins_of (set_pins (<[i := p]> (vpins v)) v) id =
    pins_of v id + ((if pin_id p =? id then Z.of_N (pin_count p) else 0) - slot_pins v id i).
Proof.
  intros Hi. unfold pins_of. rewrite (sum_range_point 0 FS_OBJECT_LIMIT i _ (slot_pins v id)); [|done|].
  - unfold slot_pins at 2. by rewrite pin_at_insert, decide_True.
  - intros j _ Hj. unfold slot_pins. by rewrite pin_at_insert, decide_False.
Qed.

Lemma retain_loop_spec fuel i id em v : 0 ≤ i → (∀ k, em = Some k → 0 ≤ k < i ∧ pin_count (pin_at v k) = 0%N) →
  match retain_loop fuel i id em v with
  | inl (k, full) => i ≤ k < i + Z.of_nat fuel ∧ pin_id (pin_at v k) = id ∧ pin_count (pin_at v k) ≠ 0%N
  | inr (Some k) => 0 ≤ k < i + Z.of_nat fuel ∧ pin_count (pin_at v k) = 0%N
  | inr None => True
  end.
Proof.
  revert i em; induction fuel as [|fuel IH]; intros i em Hi Hem; cbn [retain_loop].
  - destruct em as [k|]; [|done]. destruct (Hem k eq_refl). split; [lia|done].
  - destruct (N.eqb_spec (pin_count (pin_at v i)) 0) as [E|E].
    + specialize (IH (i + 1) (match em with None => Some i | _ => em end) ltac:(lia)).
      destruct (retain_loop fuel (i + 1) id _ v) as [[k full]|[k|]]; [| |done].
      * destruct IH as (H1 & H2 & H3); [|split_and!; [lia..|done|done]]. intros k' Ek. destruct em as [x|]; inversion Ek; subst; [destruct (Hem k' eq_refl); split; [lia|done]|split; [lia|done]].
      * destruct IH as (H1 & H2); [|split; [lia|done]]. intros k' Ek. destruct em as [x|]; inversion Ek; subst; [destruct (Hem k' eq_refl); split; [lia|done]|split; [lia|done]].
    + destruct (Z.eqb_spec (pin_id (pin_at v i)) id) as [E'|E']; [split_and!; [lia..|done|done]|].
      specialize (IH (i + 1) em ltac:(lia)). destruct (retain_loop fuel (i + 1) id em v) as [[k full]|[k|]]; [| |done].
      * destruct IH as (H1 & H2 & H3); [|split_and!; [lia..|done|done]]. intros k' Ek. destruct (Hem k' Ek). split; [lia|done].
      * destruct IH as (H1 & H2); [|split; [lia|done]]. intros k' Ek. destruct (Hem k' Ek). split; [lia|done].
Qed.

Lemma retain_pins i v id : pins_of (snd (retain i v)) id = pins_of v id + (if decide (fst (retain i v) = FS_OK ∧ id = i) then 1 else 0).
Proof.
  unfold retain. destruct (negb (vready v)); [cbn [fst snd]; rewrite decide_False by (by intros []); lia|]. destruct (_ && _); [cbn [fst snd]; rewrite decide_False by (by intros []); lia|].
  pose proof (retain_loop_spec (Z.to_nat FS_OBJECT_LIMIT) 0 i None v ltac:(lia) ltac:(done)) as Hs.
  destruct (retain_loop _ _ _ _ _) as [[k full]|[k|]]; [destruct full; [cbn [fst snd]; rewrite decide_False by (by intros []); lia|]| |cbn [fst snd]; rewrite decide_False by (by intros []); lia]; cbn [fst snd].
  - destruct Hs as (Hk & Hid & Hc). rewrite pins_insert by lia. unfold slot_pins. cbn [pin_id pin_count]. rewrite Hid.
    destruct (Z.eqb_spec i id) as [E|E]; [rewrite decide_True by done; lia|rewrite decide_False by (by intros []); lia].
  - destruct Hs as (Hk & Hc). rewrite pins_insert by lia. unfold slot_pins. cbn [pin_id pin_count]. rewrite Hc.
    destruct (Z.eqb_spec i id) as [E|E]; [rewrite decide_True by done|rewrite decide_False by (by intros [])]; destruct (_ =? id); lia.
Qed.

Lemma release_loop_pins fuel j k i v id : 0 ≤ j ≤ k → k < j + Z.of_nat fuel → j + Z.of_nat fuel ≤ FS_OBJECT_LIMIT →
  pin_count (pin_at v k) ≠ 0%N → pin_id (pin_at v k) = i →
  pins_of (release_loop fuel j i v) id = pins_of v id - (if decide (id = i) then 1 else 0).
Proof.
  revert j; induction fuel as [|fuel IH]; intros j Hj Hlt Hle Hc Hid; [lia|]. cbn [release_loop]. destruct (negb _ && _) eqn:E.
  - apply andb_true_iff in E as [E1 E2]. apply negb_true_iff, N.eqb_neq in E1. apply Z.eqb_eq in E2.
    rewrite pins_insert by lia. unfold slot_pins. cbn [pin_id pin_count]. rewrite E2.
    destruct (Z.eqb_spec i id) as [E|E]; [rewrite decide_True by done; lia|rewrite decide_False by congruence; lia].
  - apply IH; [|lia|lia|done|done]. destruct (decide (j = k)) as [->|]; [|lia]. exfalso.
    rewrite andb_false_iff, negb_false_iff, N.eqb_eq, Z.eqb_neq in E. tauto.
Qed.
#[local] Opaque sum_range release_loop.
Lemma release_pins i v id : 0 < pins_of v i → pins_of (release i v) id = pins_of v id - (if decide (id = i) then 1 else 0).
Proof.
  intros Hp. unfold pins_of in Hp. destruct (sum_range_zero 0 FS_OBJECT_LIMIT (slot_pins v i)) as (k & Hk & Hs); [|exact Hp|].
  { intros j _. unfold slot_pins. destruct (_ =? _); lia. }
  unfold slot_pins in Hs. destruct (Z.eqb_spec (pin_id (pin_at v k)) i); [|lia].
  unfold release. apply (release_loop_pins (Z.to_nat FS_OBJECT_LIMIT) 0 k); [lia..|done].
Qed.
End Pins.

#[global] Instance fat16_backend_law {D H} (o : block_operations D) `{!DiskWriteLaw o} (kmalloc : Z → H → bool * H) (kfree : H → H) :
  BackendLaw (operations (Some o) kmalloc kfree).
Proof.
  assert (∀ R (m : volume D → R * volume D) (k : fatfs) id, keeps (fst k) (snd (m (fst k))) →
    pins_of (fst (snd (reading (H := H) m k))) id = pins_of (fst k) id) as Hread.
  { intros R m k id Hk. apply pins_same. unfold reading. destruct (m (fst k)) as [r v]. unfold keeps in Hk. cbn in *. by destruct_and!. }
  assert (∀ m (k : fatfs) id, pins_of (fst (snd (writing (mutate o kmalloc kfree m) k))) id = pins_of (fst k) id) as Hwrite.
  { intros m k id. apply pins_same. unfold writing. pose proof (mutate_mutated o kmalloc kfree m (W (fst k) (snd k) false) eq_refl) as Hm.
    destruct (mutate _ _ _ _ _) as [e s']. cbn in *. by destruct Hm as (_ & Hp & _). }
  refine {| pins k id := pins_of (fst k) id |}; intros; cbn [op_lookup op_stat Fs.op_read op_readdir operations] in *; simplify_eq/=.
  - apply Hread, lookup_keeps.
  - apply Hread, stat_keeps.
  - apply Hread, read_keeps.
  - apply Hread, readdir_keeps.
  - rewrite <- (Hwrite (WriteAt i o0 d b) k id). unfold writing, mutate. by destruct (fat16_write_file _ _ _ _ _ _ _ _) as [r s'].
  - apply (Hwrite (Replace p n (default [] d) b)).
  - apply (Hwrite (Remove p n)).
  - apply (Hwrite (Mkdir p n)).
  - apply (Hwrite FlushAll).
  - apply (Hwrite (Truncate i n)).
  - unfold reading. rewrite (surjective_pairing (retain i (fst k))). cbn [fst snd]. apply retain_pins.
  - by apply release_pins.
  - apply sum_range_all_zero. intros j _. unfold slot_pins, pin_at. cbn. rewrite lookup_empty. by destruct (_ =? _).
Defined.
