(* ===== verification/Fat16Spec.v ===== *)
(** * FAT16: directory entries, cluster allocation, mounting

    What the writing side of FAT16 computes: a directory entry decodes to the
    name, kind, size and first cluster it was made for; allocation takes free
    clusters only and links them into one chain; a successful mount leaves a
    volume whose cached FAT agrees with both copies on disk. *)

From S2P Require Import Prelude Block Path Fs Fat16 Fat16Write.
Import PathSpec.

(** ** Byte arrays *)

Lemma memcpy_get a p src q n k : 0 ≤ n →
  aget (memcpy a p src q n) k = if decide (p ≤ k < p + n) then src (q + (k - p)) else aget a k.
Proof.
  intros Hn. unfold memcpy. revert n Hn. apply natlike_ind.
  - rewrite for_range_nil by done. by rewrite decide_False by lia.
  - intros n Hn IH. unfold Z.succ. rewrite for_range_snoc by done. destruct (decide (k = p + n)) as [->|Hne].
    + rewrite aget_aset_eq, decide_True by lia. f_equal. lia.
    + rewrite aget_aset_ne, IH by done. destruct (decide (p ≤ k < p + n)); [rewrite decide_True by lia|rewrite decide_False by lia]; done.
Qed.
Lemma memset_get a p x n k : 0 ≤ n → aget (memset a p x n) k = if decide (p ≤ k < p + n) then x else aget a k.
Proof. intros Hn. apply (memcpy_get a p (λ _, x) 0 n k Hn). Qed.
Lemma aset_get a i v k : aget (aset a i v) k = if decide (k = i) then v else aget a k.
Proof. case_decide as E; [subst; apply aget_aset_eq|by rewrite aget_aset_ne]. Qed.
Lemma put16_get a p n k : 0 ≤ n ≤ UINT16_MAX →
  aget (put16 a p n) k = if decide (k = p) then n mod 256 else if decide (k = p + 1) then n / 256 else aget a k.
Proof.
  intros Hn. unfold put16. rewrite !aset_get. unfold wrap8. rewrite Z.shiftr_div_pow2 by lia. change (2 ^ 8) with 256.
  destruct (decide (k = p + 1)) as [->|]; [|done]. rewrite decide_False by lia. rewrite Z.mod_small; [done|].
  unfold UINT16_MAX in Hn. split; [apply Z.div_pos; lia|apply Z.div_lt_upper_bound; lia].
Qed.
Lemma put16_u16 a p n : 0 ≤ n ≤ UINT16_MAX → u16 (aget (put16 a p n)) p = n.
Proof.
  intros Hn. rewrite u16_eq.
  - rewrite !put16_get by done. rewrite decide_True, decide_False, decide_True by lia. pose proof (Z.div_mod n 256). lia.
  - rewrite put16_get, decide_True by done. apply Z.mod_pos_bound. lia.
Qed.
Lemma u16_ext f g p : f p = g p → f (p + 1) = g (p + 1) → u16 f p = u16 g p.
Proof. intros E1 E2. unfold u16. by rewrite E1, E2. Qed.
Lemma put16_u16_other a p q n : 0 ≤ n ≤ UINT16_MAX → q + 1 < p ∨ p + 1 < q → u16 (aget (put16 a p n)) q = u16 (aget a) q.
Proof. intros Hn Hq. apply u16_ext; rewrite put16_get by done; by rewrite !decide_False by lia. Qed.
Lemma put32_u32 a p n : 0 ≤ n ≤ UINT32_MAX → u32 (aget (put32 a p n)) p = n.
Proof.
  intros Hn. unfold put32, u32, UINT32_MAX in *. set (lo := wrap16 n). set (hi := wrap16 (Z.shiftr n 16)).
  assert (hi = n / 65536) as Ehi.
  { unfold hi, wrap16. rewrite Z.shiftr_div_pow2 by lia. change (2 ^ 16) with 65536. apply Z.mod_small.
    split; [apply Z.div_pos; lia|apply Z.div_lt_upper_bound; lia]. }
  assert (0 ≤ lo ≤ UINT16_MAX ∧ 0 ≤ hi ≤ UINT16_MAX) as [Hlo Hhi].
  { unfold lo, hi, wrap16, UINT16_MAX. pose proof (Z.mod_pos_bound n 65536). pose proof (Z.mod_pos_bound (Z.shiftr n 16) 65536). lia. }
  rewrite (put16_u16 _ (p + 2)), put16_u16_other, put16_u16 by (done || lia). rewrite lor_shiftl by (unfold UINT16_MAX in *; lia).
  rewrite Ehi. unfold lo, wrap16. pose proof (Z.div_mod n 65536). lia.
Qed.
Lemma put32_get_other a p n k : k < p ∨ p + 4 ≤ k → aget (put32 a p n) k = aget a k.
Proof.
  intros Hk. unfold put32. pose proof (Z.mod_pos_bound n 65536). pose proof (Z.mod_pos_bound (Z.shiftr n 16) 65536).
  rewrite !put16_get by (unfold wrap16, UINT16_MAX; lia). by rewrite !decide_False by lia.
Qed.

(** ** The name field of an entry *)

Lemma trim_spec n (m : nat) entry start : (m ≤ n)%nat → (∀ k, Z.of_nat m ≤ k < Z.of_nat n → entry (start + k) = 32) →
  (m ≠ 0%nat → entry (start + (Z.of_nat m - 1)) ≠ 32) → trim n entry start = m.
Proof.
  induction n as [|n IH]; intros Hm Hsp Hne; cbn [trim]; [lia|]. destruct (decide (m = S n)) as [->|].
  - destruct (Z.eqb_spec (entry (start + Z.of_nat n)) 32) as [E|]; [|done]. exfalso. apply Hne; [done|].
    by replace (Z.of_nat (S n) - 1) with (Z.of_nat n) by lia.
  - rewrite Hsp, Z.eqb_refl by lia. apply IH; [lia| |done]. intros k Hk. apply Hsp. lia.
Qed.
Definition plain (c : Z) : Prop := name_byte c = true ∧ upper c = c.
Lemma plain_facts c : plain c → 0 < c < 256 ∧ c ≠ 32 ∧ c ≠ dot ∧ c ≠ 0xe5 ∧ (97 <=? c) && (c <=? 122) = false.
Proof.
  intros [Hn Hu]. unfold name_byte, valid_byte, upper in *. rewrite andb_true_iff, !orb_true_iff, !andb_true_iff in Hn.
  destruct ((97 <=? c) && (c <=? 122)) eqn:E; [lia|]. unfold dot in *. split_and!; lia || done.
Qed.
Lemma part_chars_spec l entry i : Forall plain l → (∀ k, 0 ≤ k < len l → entry (i + k) = sget l k) →
  part_chars (List.length l) entry i = Some l.
Proof.
  intros Hl. revert i; induction Hl as [|c l Hc Hl IH]; intros i He; cbn [List.length part_chars]; [done|].
  assert (entry i = c) as Ei by (rewrite <- (Z.add_0_r i), He by (cbn; lia); done). rewrite Ei.
  destruct (plain_facts c Hc) as (H0 & H32 & _ & _ & Hup). rewrite (proj2 (Z.eqb_neq c 32)), (proj2 (Z.eqb_neq c 0)) by lia. cbn [orb].
  rewrite IH; [cbn; by rewrite Hup|]. intros k Hk. rewrite <- Z.add_assoc, He by (cbn; lia). rewrite sget_cons by lia. f_equal. lia.
Qed.

(** The characters of one part land at consecutive offsets. *)
Definition puts (a : gmap Z Z) (p : Z) (l : list Z) : gmap Z Z := memcpy a p (sget l) 0 (len l).
Lemma puts_get a p l k : aget (puts a p l) k = if decide (p ≤ k < p + len l) then sget l (k - p) else aget a k.
Proof. unfold puts. rewrite memcpy_get by lia. by rewrite Z.add_0_l. Qed.
Lemma name_loop_ext fuel name i off a a' : (∀ k, aget a k = aget a' k) → ∀ k, aget (name_loop fuel name i off a) k = aget (name_loop fuel name i off a') k.
Proof.
  revert i off a a'; induction fuel as [|fuel IH]; intros i off a a' E k; cbn [name_loop]; [done|].
  destruct (_ =? 0); [done|]. destruct (_ =? _); [by apply IH|]. apply IH. intros j. by rewrite !aset_get, E.
Qed.
Lemma name_loop_part l fuel name i off a k : Forall plain l → (∀ j, 0 ≤ j < len l → name (i + j) = sget l j) →
  aget (name_loop (List.length l + fuel) name i off a) k = aget (name_loop fuel name (i + len l) (off + len l) (puts a off l)) k.
Proof.
  intros Hl. revert i off a k; induction Hl as [|c l Hc Hl IH]; intros i off a k Hn; cbn [List.length Nat.add].
  - rewrite !Z.add_0_r. apply name_loop_ext. intros j. rewrite puts_get, decide_False by (cbn; lia). done.
  - cbn [name_loop]. assert (name i = c) as Ei by (rewrite <- (Z.add_0_r i), Hn by (cbn; lia); done). rewrite Ei.
    destruct (plain_facts c Hc) as (H0 & _ & Hd & _). rewrite (proj2 (Z.eqb_neq c 0)), (proj2 (Z.eqb_neq c dot)) by lia.
    rewrite IH. 2: { intros j Hj. rewrite <- Z.add_assoc, Hn by (cbn; lia). rewrite sget_cons by lia. f_equal. lia. }
    unfold wrap8. rewrite (Z.mod_small c) by lia. replace (i + 1 + len l) with (i + Z.of_nat (S (List.length l))) by lia.
    replace (off + 1 + len l) with (off + Z.of_nat (S (List.length l))) by lia. apply name_loop_ext. intros j.
    rewrite !puts_get, aset_get. cbn [List.length]. destruct (decide (j = off)) as [->|].
    + rewrite decide_False, decide_True by lia. by rewrite Z.sub_diag.
    + destruct (decide (off + 1 ≤ j < off + 1 + len l)).
      * rewrite decide_True, (sget_cons c) by lia. f_equal. lia.
      * by rewrite !decide_False by lia.
Qed.
Lemma name_loop_end fuel name i off a : name i = 0 → name_loop fuel name i off a = a.
Proof. intros E. destruct fuel; cbn; [done|]. by rewrite E. Qed.

Definition name_field (b : list Z) (e : option (list Z)) (blank k : Z) : Z :=
  if decide (0 ≤ k < len b) then sget b k else
  match e with Some e => if decide (8 ≤ k < 8 + len e) then sget e (k - 8) else blank | None => blank end.
Lemma name_loop_field b e a k : Forall plain b → (List.length b ≤ 8)%nat →
  match e with Some e => Forall plain e ∧ (List.length e ≤ 3)%nat | None => True end →
  aget (name_loop (Z.to_nat FS_NAME_CAPACITY) (sget (whole b e)) 0 0 a) k = name_field b e (aget a k) k.
Proof.
  intros Hb Hlb He. unfold name_field. change (Z.to_nat FS_NAME_CAPACITY) with 64%nat.
  replace 64%nat with (List.length b + (64 - List.length b))%nat by lia. rewrite name_loop_part; [|done|].
  2: { intros j Hj. unfold whole. rewrite Z.add_0_l, sget_app, decide_True by lia. done. }
  rewrite Z.add_0_l. destruct e as [e|].
  - destruct He as [He Hle]. assert (64 - List.length b = S (List.length e + (63 - List.length b - List.length e)))%nat as -> by lia.
    cbn [name_loop]. assert (sget (whole b (Some e)) (len b) = dot) as Ed.
    { unfold whole. rewrite sget_app, decide_False, Z.sub_diag by lia. done. }
    rewrite Ed. change (dot =? 0) with false. change (dot =? dot) with true. cbv iota.
    rewrite name_loop_part; [|done|].
    2: { intros j Hj. unfold whole. rewrite sget_app, decide_False by lia. rewrite sget_cons by lia. f_equal. lia. }
    rewrite name_loop_end by (apply sget_end; unfold whole; rewrite length_app; cbn; lia).
    rewrite !puts_get. destruct (decide (0 ≤ k < len b)).
    + rewrite decide_False by lia. rewrite decide_True by lia. f_equal. lia.
    + destruct (decide (8 ≤ k < 8 + len e)); [done|]. by rewrite decide_False by lia.
  - rewrite name_loop_end by (apply sget_end; unfold whole; rewrite app_nil_r; lia).
    rewrite puts_get, Z.add_0_l, Z.sub_0_r. done.
Qed.

Section Entry.
Variables (b : list Z) (e : option (list Z)) (dir : bool) (first size : Z).
Hypotheses (Hb : Forall plain b) (Hlb : (1 ≤ List.length b ≤ 8)%nat).
Hypothesis He : match e with Some e => Forall plain e ∧ (1 ≤ List.length e ≤ 3)%nat | None => True end.
Hypotheses (Hfirst : 0 ≤ first ≤ UINT16_MAX) (Hsize : 0 ≤ size ≤ UINT32_MAX).
Let entry := aget (make_entry (sget (whole b e)) dir first size).

Lemma entry_byte k : k < 12 → entry k = if decide (k = 11) then (if dir then 0x10 else 0x20) else
  name_field b e (if decide (0 ≤ k < 11) then 32 else 0) k.
Proof.
  intros Hk. unfold entry, make_entry. rewrite put32_get_other, !put16_get by (lia || (unfold wrap16, UINT16_MAX in *; rewrite ?Z.mod_small; lia)).
  rewrite !decide_False by lia. rewrite aset_get. destruct (decide (k = 11)); [done|].
  rewrite name_loop_field; [|done|lia|destruct e; [split; [apply He|lia]|done]].
  f_equal. rewrite !memset_get by done. destruct (decide (0 ≤ k < 0 + 11)); [by rewrite decide_True by lia|].
  rewrite (decide_False (P := 0 ≤ k < 11)) by lia. by destruct (decide _).
Qed.
Lemma entry_high k : 20 ≤ k < 22 → entry k = 0.
Proof.
  intros Hk. unfold entry, make_entry. rewrite put32_get_other, !put16_get by (lia || (unfold wrap16, UINT16_MAX in *; rewrite ?Z.mod_small; lia)).
  rewrite !decide_False by lia. rewrite aset_get, decide_False by lia.
  rewrite name_loop_field; [|done|lia|destruct e; [split; [apply He|lia]|done]].
  unfold name_field. rewrite decide_False by lia. rewrite !memset_get by done. rewrite (decide_False (P := 0 ≤ k < 0 + 11)) by lia.
  assert (0 = if decide (0 ≤ k < 0 + ENTRY_BYTES) then 0 else aget ∅ k) as E0 by (by destruct (decide _)).
  destruct e; [rewrite decide_False by lia|]; by rewrite <- E0.
Qed.
Lemma entry_words : u16 entry 20 = 0 ∧ u16 entry 26 = first ∧ u32 entry 28 = size.
Proof.
  split; [unfold u16; by rewrite !entry_high by lia|]. unfold entry, make_entry. set (a := put16 _ 24 _). split; [|by apply put32_u32].
  rewrite (u16_ext _ (aget (put16 a 26 (wrap16 first)))) by (apply put32_get_other; lia).
  unfold wrap16. rewrite Z.mod_small by (unfold UINT16_MAX in *; lia). by apply put16_u16.
Qed.
Lemma last_plain (l : list Z) : Forall plain l → (1 ≤ List.length l)%nat → sget l (len l - 1) ≠ 32.
Proof.
  intros Hl Hn. assert (plain (sget l (len l - 1))) as Hp; [|by apply plain_facts in Hp as (_ & ? & _)].
  rewrite Forall_forall in Hl. apply Hl. unfold sget. apply nth_In. lia.
Qed.
Lemma entry_trim : trim 8 entry 0 = List.length b ∧ trim 3 entry 8 = match e with Some e => List.length e | None => 0%nat end.
Proof.
  split.
  - apply trim_spec; [lia| |].
    + intros k Hk. rewrite entry_byte, decide_False by lia. unfold name_field. rewrite decide_False by lia.
      rewrite decide_True by lia. destruct e; [by rewrite decide_False by lia|done].
    + intros _. rewrite entry_byte, decide_False by lia. unfold name_field. rewrite decide_True by lia. rewrite Z.add_0_l. apply last_plain; [done|lia].
  - apply trim_spec; [destruct e; lia| |].
    + intros k Hk. rewrite entry_byte, decide_False by lia. unfold name_field. rewrite decide_False by lia.
      rewrite decide_True by lia. destruct e; [by rewrite decide_False by lia|done].
    + intros Hne. rewrite entry_byte, decide_False by (destruct e; lia). unfold name_field. rewrite decide_False by (destruct e; lia).
      clearbody entry. destruct e as [x|]; [|done]. rewrite decide_True by lia. replace (8 + (len x - 1) - 8) with (len x - 1) by lia. apply last_plain; [apply He|lia].
Qed.
Lemma entry_short_name : name83 (whole b e) = true → short_name entry = (FS_OK, whole b e).
Proof.
  intros Hn. unfold short_name. destruct entry_trim as [-> ->]. destruct (Nat.eqb_spec (List.length b) 0); [lia|].
  rewrite (part_chars_spec b); [|done|].
  2: { intros k Hk. rewrite entry_byte, decide_False by lia. unfold name_field. by rewrite decide_True by lia. }
  assert (part_chars (match e with Some e => List.length e | None => 0%nat end) entry 8 = Some (default [] e)) as ->.
  { assert (∀ k, 8 ≤ k < 11 → entry k = name_field b e 32 k) as Hx by (intros k Hk; by rewrite entry_byte, (decide_False (P := k = 11)), (decide_True (P := 0 ≤ k < 11)) by lia).
    clearbody entry. destruct e as [x|]; [|done]. apply (part_chars_spec x); [apply He|]. destruct He as [_ Hle]. intros k Hk. rewrite Hx by lia.
    unfold name_field. rewrite decide_False, decide_True by lia. cbn [default]. f_equal. lia. }
  assert (b ++ (if Nat.eqb (match e with Some e => List.length e | None => 0%nat end) 0 then [] else dot :: default [] e) = whole b e) as ->.
  { unfold whole. destruct e as [x|]; [|done]. destruct (Nat.eqb_spec (List.length x) 0); [lia|done]. }
  destruct (name83_facts _ Hn) as (_ & _ & _ & Hs & Hall). rewrite bool_decide_eq_true_2; [done|].
  refine (proj2 (fs_name_check_spec (sget (whole b e)) (whole b e) _ (reads_sget _) _) Hn).
  - apply (List.Forall_impl _ (λ c (Hc : path_byte c = true ∧ c ≠ slash ∧ c ≠ 0), proj2 (proj2 Hc)) Hall).
  - unfold short in Hs. apply Nat.ltb_lt in Hs. lia.
Qed.
End Entry.

Lemma canonical_parts w : canonical_name w → ∃ b e, w = whole b e ∧ Forall plain b ∧ (1 ≤ List.length b ≤ 8)%nat ∧
  match e with Some e => Forall plain e ∧ (1 ≤ List.length e ≤ 3)%nat | None => True end.
Proof.
  intros [Hn Hu]. apply name83_iff in Hn as (b & e & -> & Hb & He). exists b, e. split; [done|].
  assert (∀ n l, part n l = true → upper <$> l = l → Forall plain l ∧ (1 ≤ List.length l ≤ n)%nat) as Hp.
  { intros n l Hl Hul. apply part_true in Hl as (Hne & Hle & Hall). split; [|destruct l; [done|cbn in *; lia]].
    clear Hne Hle. induction l as [|c l IH]; [done|]. cbn in Hall, Hul. apply andb_true_iff in Hall as [Hc Hall].
    injection Hul as E1 E2. constructor; [by split|]. by apply IH. }
  unfold whole in Hu. rewrite fmap_app in Hu. apply app_inj_1 in Hu as [Hub Hue]; [|by rewrite length_fmap].
  destruct (Hp 8%nat b Hb Hub) as [? ?]. split_and!; [done|lia|lia|]. destruct e as [x|]; [|done]. apply (Hp 3%nat x He).
  rewrite fmap_cons in Hue. exact (f_equal (@tail Z) Hue).
Qed.

(** The kind, size and first cluster an entry decodes to; the chain is checked against the FAT. *)
Definition decoded {D} (v : volume D) (dir : bool) (first size id : Z) (w : list Z) : (fs_error * (description * list Z)) * volume D :=
  let kind := if dir then FS_DIRECTORY else FS_FILE in
  let d n := (Description (FsNode id size kind) first n, w) in
  if dir then
    if negb (size =? 0) then ((FS_IO_ERROR, d 0), v) else
    let '((e, n), v) := fat16_chain first v in
    if bool_decide (e = FS_OK) && (n * cluster_bytes (info v) / ENTRY_BYTES >? FAT16_DIRECTORY_ENTRY_LIMIT)
    then ((FS_UNSUPPORTED, d n), v) else ((e, d n), v)
  else if size =? 0 then ((if negb (first =? 0) then FS_IO_ERROR else FS_OK, d 0), v)
  else
    let required := (size + cluster_bytes (info v) - 1) / cluster_bytes (info v) in
    if required >? clusters (info v) then ((FS_IO_ERROR, d 0), v) else
    let '((e, n), v) := fat16_chain first v in
    ((if bool_decide (e ≠ FS_OK) then e else if n =? required then FS_OK else FS_IO_ERROR, d n), v).

(** C11: A directory entry made for an upper-case 8.3 name decodes to exactly that name,
    with the kind, size and first cluster it was made with; it is never taken for a
    deleted entry, a label, a dot entry or the end of the directory. *)
Theorem make_entry_decode {D} (v : volume D) w dir first size id :
  canonical_name w → 0 ≤ first ≤ UINT16_MAX → 0 ≤ size ≤ UINT32_MAX →
  fat16_decode (aget (make_entry (sget w) dir first size)) id v = decoded v dir first size id w.
Proof.
  intros Hw Hf Hs. destruct (canonical_parts w Hw) as (b & e & -> & Hb & Hlb & He). destruct Hw as [Hn _].
  pose proof (entry_short_name b e dir first size Hb Hlb He Hf Hn) as Hsn.
  destruct (entry_words b e dir first size Hb Hlb He Hf Hs) as (W20 & W26 & W28).
  pose proof (entry_byte b e dir first size Hb Hlb He Hf 0 ltac:(lia)) as E0.
  pose proof (entry_byte b e dir first size Hb Hlb He Hf 11 ltac:(lia)) as E11.
  set (entry := aget (make_entry _ _ _ _)) in *. rewrite decide_False in E0 by lia. rewrite decide_True in E11 by lia.
  unfold name_field in E0. rewrite decide_True in E0 by lia. assert (plain (entry 0)) as Hp.
  { rewrite E0. rewrite Forall_forall in Hb. apply Hb, nth_In. lia. }
  destruct (plain_facts _ Hp) as (H0 & _ & Hd & He5 & _). unfold fat16_decode.
  rewrite (proj2 (Z.eqb_neq (entry 0) 0)), (proj2 (Z.eqb_neq (entry 0) 0xe5)), (proj2 (Z.eqb_neq (entry 0) dot)) by lia.
  rewrite Hsn, W20, W26, W28, E11. unfold decoded. by destruct dir.
Qed.

Lemma make_entry_decode_witness :
  canonical_name [65; dot; 84] ∧
  fat16_decode (aget (make_entry (sget [65; dot; 84]) false 0 0)) 530 FatSample.vol = decoded FatSample.vol false 0 0 530 [65; dot; 84].
Proof. split; [by split|]. apply (make_entry_decode FatSample.vol [65; dot; 84] false 0 0 530); [by split|unfold UINT16_MAX; lia|unfold UINT32_MAX; lia]. Defined.

(** ** Allocation *)

Section Allocation.
Context {D : Type}.
Implicit Types (v : volume D) (f : gmap Z Z).

Definition fat_entry f (c : Z) : Z := u16 (aget f) (c * 2).
Definition free_cluster f v (c : Z) : Prop := fat16_valid_cluster c v = true ∧ fat_entry f c = 0.

Lemma set_cluster_entry f c n d : 0 ≤ n ≤ UINT16_MAX → fat_entry (set_cluster f c n) d = if decide (d = c) then n else fat_entry f d.
Proof.
  intros Hn. unfold fat_entry, set_cluster, wrap16. rewrite (Z.mod_small n) by (unfold UINT16_MAX in Hn; lia).
  case_decide as E; [subst; by apply put16_u16|]. apply put16_u16_other; [done|lia].
Qed.

(** The clusters are linked in order and the last one holds the end mark. *)
Fixpoint chained f (c : Z) (l : list Z) : Prop :=
  match l with [] => fat_entry f c = 0xffff | d :: l => fat_entry f c = d ∧ chained f d l end.

(** What the loop has taken: the clusters [ls] between [c] and [c + n]. *)
Record taken v f (c n count : Z) (ls : list Z) : Prop := Taken {
  taken_free d : d ∈ ls → c ≤ d < c + n ∧ free_cluster f v d;
  taken_nodup : NoDup ls;
  taken_len : len ls ≤ count;
  taken_all : len ls = count ∨ ∀ d, c ≤ d < c + n → free_cluster f v d → d ∈ ls
}.

Lemma taken_skip v f c n count ls : ¬ free_cluster f v c → taken v f (c + 1) n count ls → taken v f c (1 + n) count ls.
Proof.
  intros Hn [H1 H2 H3 H4]. split; [|done|done|].
  - intros d Hd. destruct (H1 d Hd). split; [lia|done].
  - destruct H4 as [|H4]; [by left|right]. intros d Hd Hf. apply H4; [|done]. assert (d ≠ c) by (by intros ->). lia.
Qed.
Lemma taken_take v f f2 c n count ls : 0 ≤ n → free_cluster f v c → (∀ d, c < d → fat_entry f2 d = fat_entry f d) →
  taken v f2 (c + 1) n (count - 1) ls → taken v f c (1 + n) count (c :: ls).
Proof.
  intros Hn Hc Hsame [H1 H2 H3 H4].
  assert (∀ d, c < d → free_cluster f2 v d ↔ free_cluster f v d) as Hiff by (intros d Hd; unfold free_cluster; by rewrite Hsame).
  split.
  - intros d. rewrite elem_of_cons. intros [->|Hd]; [split; [lia|done]|].
    destruct (H1 d Hd) as [Hr Hf]. split; [lia|]. apply Hiff; [lia|done].
  - constructor; [|done]. intros Hin. destruct (H1 c Hin). lia.
  - cbn [List.length]. lia.
  - destruct H4 as [H4|H4]; [left; cbn [List.length]; lia|right]. intros d Hd Hf. destruct (decide (d = c)) as [->|]; [by left|right].
    apply H4; [lia|]. apply Hiff; [lia|done].
Qed.
Lemma taken_none v f c n : taken v f c n 0 [].
Proof. split; [intros d Hd; by apply elem_of_nil in Hd|constructor|done|by left]. Qed.

Lemma allocate_loop_spec fuel c count first last f v : 0 ≤ count → 0 ≤ last < c →
  let '(f', first', count') := allocate_loop fuel c count first last f v in
  ∃ ls, taken v f c (Z.of_nat fuel) count ls ∧ count' = count - len ls ∧
    (∀ d, d ∉ ls → d ≠ last ∨ last = 0 ∨ ls = [] → fat_entry f' d = fat_entry f d) ∧
    match ls with
    | [] => f' = f ∧ first' = first
    | d :: l => first' = (if decide (last = 0) then d else first) ∧ (last ≠ 0 → fat_entry f' last = d) ∧ chained f' d l
    end.
Proof.
  revert c count first last f; induction fuel as [|fuel IH]; intros c count first last f Hcount Hlast; cbn [allocate_loop].
  { exists []. split_and!; [|cbn; lia|done|done|done]. split; [intros d Hd; by apply elem_of_nil in Hd|constructor|cbn; lia|right; lia]. }
  replace (Z.of_nat (S fuel)) with (1 + Z.of_nat fuel) by lia.
  destruct (Z.eqb_spec count 0) as [->|Hc0]; [exists []; split_and!; [apply taken_none|done|done|done|done]|].
  fold (fat_entry f c). destruct (fat16_valid_cluster c v) eqn:Hv; cbn [negb orb].
  2: { specialize (IH (c + 1) count first last f Hcount ltac:(lia)). destruct (allocate_loop _ _ _ _ _ _ _) as [[f' first'] count'].
       destruct IH as (ls & Ht & IH). exists ls. split; [|exact IH]. apply taken_skip; [|done]. intros [E _]. congruence. }
  destruct (Z.eqb_spec (fat_entry f c) 0) as [Hz|Hz]; cbn [negb].
  2: { specialize (IH (c + 1) count first last f Hcount ltac:(lia)). destruct (allocate_loop _ _ _ _ _ _ _) as [[f' first'] count'].
       destruct IH as (ls & Ht & IH). exists ls. split; [|exact IH]. apply taken_skip; [|done]. by intros [_ E]. }
  pose proof (valid_cluster_range _ _ Hv) as [Hc _]. assert (0 ≤ c ≤ UINT16_MAX) as Hc16 by (unfold FIRST_RESERVED, UINT16_MAX in *; lia).
  assert (wrap16 c = c) as Ew by (apply Z.mod_small; unfold UINT16_MAX in Hc16; lia). rewrite Ew.
  set (f1 := if negb (last =? 0) then set_cluster f last c else f). set (f2 := set_cluster f1 c 0xffff).
  set (first1 := if negb (last =? 0) then first else c).
  assert (∀ d, fat_entry f2 d = if decide (d = c) then 0xffff else if decide (d = last ∧ last ≠ 0) then c else fat_entry f d) as Hf2.
  { intros d. unfold f2. rewrite set_cluster_entry by (unfold UINT16_MAX; lia). destruct (decide (d = c)); [done|]. unfold f1.
    destruct (Z.eqb_spec last 0); cbn [negb]; [rewrite decide_False by tauto; done|]. rewrite set_cluster_entry by done.
    destruct (decide (d = last)); [rewrite decide_True by done|rewrite decide_False by tauto]; done. }
  specialize (IH (c + 1) (count - 1) first1 c f2 ltac:(lia) ltac:(lia)).
  destruct (allocate_loop _ _ _ _ _ _ _) as [[f' first'] count']. destruct IH as (ls & Ht & Ecount & Hother & Hmatch).
  exists (c :: ls). assert (last ∉ ls) as Hln by (intros Hin; destruct (taken_free _ _ _ _ _ _ Ht last Hin); lia).
  assert (c ∉ ls) as Hcn by (intros Hin; destruct (taken_free _ _ _ _ _ _ Ht c Hin); lia).
  split_and!; [|cbn [List.length]; lia| | | |].
  - apply (taken_take v f f2); [lia|by split| |done]. intros d Hd. rewrite Hf2, !decide_False by lia. done.
  - intros d Hd Hl. apply not_elem_of_cons in Hd as [Hdc Hd]. rewrite Hother by (tauto || done). rewrite Hf2, decide_False by done.
    destruct Hl as [Hl|[Hl|?]]; [by rewrite decide_False by tauto..|done].
  - destruct ls as [|d l]; [destruct Hmatch as [_ ->]|destruct Hmatch as (-> & _); rewrite decide_False by lia]; unfold first1;
      destruct (Z.eqb_spec last 0); cbn [negb]; by (first [rewrite decide_True by done|rewrite decide_False by done]).
  - intros Hl0. rewrite Hother by (done || (left; lia)). rewrite Hf2, decide_False, decide_True by (lia || done). done.
  - destruct ls as [|d l]; cbn [chained].
    + destruct Hmatch as [-> _]. by rewrite Hf2, decide_True by done.
    + destruct Hmatch as (_ & Hlink & Hch). split; [apply Hlink; lia|done].
Qed.
End Allocation.

Lemma count_range_filter a b (P : Z → bool) : a ≤ b → count_range a b P = len (filter (λ i, P i = true) (seqZ a (b - a))).
Proof.
  revert a b; apply (range_ind (λ a b, _ → _)); intros a b Hab.
  - intros. rewrite count_range_nil by done. rewrite seqZ_nil by lia. done.
  - intros IH _. rewrite count_range_snoc, IH by done. replace (b + 1 - a) with ((b - a) + 1) by lia.
    rewrite seqZ_app, list.filter_app, length_app by lia. replace (a + (b - a)) with b by lia.
    assert (seqZ b 1 = [b]) as -> by (by unfold seqZ). rewrite filter_cons, filter_nil.
    destruct (P b); [rewrite decide_True by done|rewrite decide_False by done]; cbn [List.length]; lia.
Qed.
(** Lists of distinct indices against a count. *)
Lemma count_range_members a b (P : Z → bool) ls : a ≤ b → NoDup ls → (∀ d, d ∈ ls → a ≤ d < b ∧ P d = true) →
  len ls ≤ count_range a b P ∧ ((∀ d, a ≤ d < b → P d = true → d ∈ ls) → count_range a b P ≤ len ls).
Proof.
  intros Hab Hn Hin. rewrite count_range_filter by done. set (all := filter _ _). split.
  - assert (ls ⊆+ all) as Hs; [|apply submseteq_length in Hs; lia]. apply NoDup_submseteq; [done|]. intros d Hd.
    apply list_elem_of_filter. destruct (Hin d Hd). split; [done|]. apply elem_of_seqZ. lia.
  - intros Hall. assert (all ⊆+ ls) as Hs; [|apply submseteq_length in Hs; lia]. apply NoDup_submseteq; [apply list.NoDup_filter, NoDup_seqZ|].
    intros d Hd. apply list_elem_of_filter in Hd as [HP Hd]. apply elem_of_seqZ in Hd. apply Hall; [lia|done].
Qed.

Lemma chained_linked {D} (v : volume D) f c l : chained f c l → (∀ d, d ∈ l → fat16_valid_cluster d v = true) → linked (set_fat f v) c l.
Proof.
  revert c; induction l as [|d l IH]; intros c; cbn [chained linked]; unfold fat16_next_cluster; cbn [fat set_fat].
  - intros E _. fold (fat_entry f c). rewrite E. done.
  - intros [E Hl] Hv. split_and!; [done|apply Hv; by left|]. apply IH; [done|]. intros x Hx. apply Hv. by right.
Qed.

(** C10: allocate succeeds exactly when the FAT has enough free clusters. It then takes
    that many distinct clusters that were free and valid, links them into one
    well-formed chain starting at the cluster it returns, and leaves the entry of
    every other cluster alone, so no file that owns clusters loses one. *)
Theorem fat16_allocate_spec {D} (v : volume D) f count : 0 ≤ count → 0 ≤ clusters (info v) →
  let '((e, first), f') := allocate f count v in
  (e = FS_OK ↔ count ≤ free_clusters f v) ∧
  (e = FS_OK → count ≠ 0 → ∃ l, is_chain (set_fat f' v) first l ∧ 1 + len l = count ∧
     (∀ d, d ∈ first :: l → free_cluster f v d) ∧ (∀ d, d ∉ first :: l → fat_entry f' d = fat_entry f d)).
Proof.
  intros Hc Hn. unfold allocate. pose proof (allocate_loop_spec (Z.to_nat (clusters (info v))) 2 count 0 0 f v Hc ltac:(lia)) as H.
  destruct (allocate_loop _ _ _ _ _ _ _) as [[f' first] count']. destruct H as (ls & [Hfree Hnd Hlen Hall] & -> & Hother & Hm).
  rewrite Z2Nat.id in * by done. set (P := λ c, fat16_valid_cluster c v && (u16 (aget f) (c * 2) =? 0)).
  assert (∀ d, P d = true ↔ free_cluster f v d) as HP by (intros d; unfold P, free_cluster, fat_entry; by rewrite andb_true_iff, Z.eqb_eq).
  destruct (count_range_members 2 (clusters (info v) + 2) P ls ltac:(lia) Hnd) as [Hle Hge].
  { intros d Hd. destruct (Hfree d Hd) as [? ?]. split; [lia|by apply HP]. }
  change (count_range 2 (clusters (info v) + 2) P) with (free_clusters f v) in Hle, Hge. split.
  - destruct (Z.eqb_spec (count - len ls) 0) as [E|E]; cbn [negb]; split; try done; [intros _; lia|]. intros Hcount. exfalso.
    destruct Hall as [|Hall]; [lia|]. enough (free_clusters f v ≤ len ls) by lia. apply Hge. intros d Hd Hp. apply Hall; [lia|by apply HP].
  - destruct (Z.eqb_spec (count - len ls) 0) as [E|E]; cbn [negb]; [|done]. intros _ Hne. destruct ls as [|d l]; [cbn in E; lia|].
    destruct Hm as (-> & _ & Hch). rewrite decide_True by done. exists l. split_and!.
    + destruct (Hfree d ltac:(by left)) as [_ [Hd _]]. split_and!; [done| |done]. apply chained_linked; [done|].
      intros x Hx. by destruct (Hfree x ltac:(by right)) as [_ [Hv _]].
    + cbn [List.length] in E. lia.
    + intros x Hx. by destruct (Hfree x Hx).
    + intros x Hx. apply Hother; [done|]. right. by left.
Qed.

Lemma fat16_allocate_spec_witness :
  let '((e, first), f') := allocate (fat FatSample.vol) 2 FatSample.vol in
  e = FS_OK ∧ first = 3 ∧ (e = FS_OK ↔ 2 ≤ free_clusters (fat FatSample.vol) FatSample.vol) ∧
  (e = FS_OK → 2 ≠ 0 → ∃ l, is_chain (set_fat f' FatSample.vol) first l ∧ 1 + len l = 2 ∧
     (∀ d, d ∈ first :: l → free_cluster (fat FatSample.vol) FatSample.vol d) ∧
     (∀ d, d ∉ first :: l → fat_entry f' d = fat_entry (fat FatSample.vol) d)).
Proof.
  pose proof (fat16_allocate_spec FatSample.vol (fat FatSample.vol) 2 ltac:(done) ltac:(done)) as H.
  assert (fst (allocate (fat FatSample.vol) 2 FatSample.vol) = (FS_OK, 3)) as E by (vm_compute; reflexivity).
  destruct (allocate _ _ _) as [[e first] f']. injection E as -> ->. split; [done|]. split; [done|exact H].
Defined.

(** ** Mounting *)

Section Mounting.
Context {D H : Type} (o : block_operations D) `{!DiskWriteLaw o} (kmalloc : Z → H → bool * H) (kfree : H → H).
Implicit Types (v : volume D).
Notation dops := (Some o).

(** Both volumes see the same disk through a working device. *)
Definition same_disk v v' : Prop := (∀ a, vbyte o v' a = vbyte o v a) ∧ (device_ok v → device_ok v').

Lemma geometry_ok v boot v' : device_ok v → geometry dops true v = ((FS_OK, boot), v') →
  same_disk v v' ∧ (∃ d i, v' = set_info i (set_dev d v) ∧ boot_layout (sget boot) (sector_count (device d)) = (FS_OK, i)) ∧
  ∀ i, 0 ≤ i < FAT16_SECTOR_SIZE → sget boot i = vbyte o v i.
Proof.
  intros [Hz Ha]. unfold geometry. cbn [negb orb]. destruct (negb _); [done|]. destruct (negb _); [done|].
  pose proof (block_read_bytes o true 0 1 [] FAT16_SECTOR_SIZE (dev v) ltac:(done) ltac:(done) ltac:(done) Hz Ha) as Hr.
  destruct (block_read _ _ _ _ _ _ _) as [[r buf] d]. destruct Hr as (Hb & Es & Ea & Hok).
  destruct (decide (error r = BLOCK_OK)) as [Er|Er]; [rewrite bool_decide_eq_false_2 by tauto|].
  2: { rewrite bool_decide_eq_true_2 by done. intros [= E _ _]. by destruct (error r). }
  destruct (Z.eqb_spec (completed r) 1) as [Ec|Ec]; cbn [negb]; [|done]. destruct (Hok Er Ec) as (data & -> & Hdata).
  change (default [] (Some data)) with data. cbn [dev set_dev]. destruct (boot_layout (sget data) (sector_count (device d))) as [e i] eqn:El. intros E.
  assert (e = FS_OK) as -> by (by injection E). assert (data = boot) as -> by (by injection E). apply (f_equal snd) in E.
  rewrite bool_decide_eq_true_2 in E by done. cbn [snd] in E. subst v'. split_and!.
  - split; [exact Hb|]. intros _. unfold device_ok. cbn. by rewrite Es, Ea.
  - by exists d, i.
  - intros k Hk. rewrite Hdata by (unfold FAT16_SECTOR_SIZE in *; lia). done.
Qed.

Lemma geometry_disk v : device_ok v → same_disk v (snd (geometry dops true v)).
Proof.
  intros [Hz Ha]. unfold geometry. cbn [negb orb]. destruct (negb _); [done|]. destruct (negb _); [done|].
  pose proof (block_read_bytes o true 0 1 [] FAT16_SECTOR_SIZE (dev v) ltac:(done) ltac:(done) ltac:(done) Hz Ha) as Hr.
  destruct (block_read _ _ _ _ _ _ _) as [[r buf] d]. destruct Hr as (Hb & Es & Ea & _).
  assert (same_disk v (set_dev d v)) as Hs by (split; [exact Hb|intros _; unfold device_ok; cbn; by rewrite Es, Ea]).
  destruct (bool_decide (error r ≠ BLOCK_OK)); [exact Hs|]. destruct (negb (completed r =? 1)); [exact Hs|].
  destruct (boot_layout _ _) as [e i]. cbn [snd]. destruct (bool_decide (e = FS_OK)); exact Hs.
Qed.

Lemma compare_loop_ok fuel i buf v : 0 ≤ i → device_ok v →
  0 ≤ fat_start (info v) → 0 ≤ fat_sectors (info v) → fat_start (info v) + 2 * fat_sectors (info v) ≤ UINT32_MAX →
  i + Z.of_nat fuel ≤ fat_sectors (info v) →
  let '((e, _), v') := compare_loop dops fuel i buf v in
  keeps v v' ∧ same_disk v v' ∧ cache_valid v' = cache_valid v ∧
  (e = FS_OK → ∀ j, i * FAT16_SECTOR_SIZE ≤ j < (i + Z.of_nat fuel) * FAT16_SECTOR_SIZE →
     aget (fat v) j = vbyte o v ((fat_start (info v) + fat_sectors (info v)) * FAT16_SECTOR_SIZE + j)).
Proof.
  revert i buf v; induction fuel as [|fuel IH]; intros i buf v Hi Hd Hs Hf Hend Hle; cbn [compare_loop].
  { split_and!; [done|done|done|]. intros _ j Hj. unfold FAT16_SECTOR_SIZE in Hj. lia. }
  rewrite wrap32_small by lia. set (n := fat_start (info v) + fat_sectors (info v) + i).
  pose proof (read_sectors_bytes o n 1 buf v ltac:(lia) ltac:(lia) Hd) as Hr.
  destruct (fat16_read_sectors dops n 1 buf v) as [[e data] v1]. destruct Hr as (Hsame & Hcv & _ & _ & Hok).
  assert (keeps v v1) as Hk by apply Hsame. assert (same_disk v v1) as Hsd by (split; [apply Hsame|exact (same_bytes_device o _ _ Hsame)]).
  destruct (decide (e = FS_OK)) as [->|He]; [rewrite bool_decide_eq_false_2 by tauto|by rewrite bool_decide_eq_true_2 by done].
  destruct (all_range _ _ _) eqn:Ea; [|done]. assert (info v1 = info v ∧ fat v1 = fat v) as [Ei Ef] by (split; apply Hk).
  specialize (IH (i + 1) data v1 ltac:(lia) (proj2 Hsd Hd)). rewrite Ei in IH. specialize (IH Hs Hf Hend ltac:(lia)).
  destruct (compare_loop dops fuel (i + 1) data v1) as [[e' b'] v']. destruct IH as (K & [S1 S2] & C & Hall).
  split_and!; [by transitivity v1|split; [intros a; rewrite S1; apply Hsd|intros; by apply S2, Hsd]|congruence|].
  intros E j Hj. destruct (decide ((i + 1) * FAT16_SECTOR_SIZE ≤ j)).
  - rewrite <- Ef, Hall by (done || (unfold FAT16_SECTOR_SIZE in *; lia)). apply Hsd.
  - apply all_range_true with (i := j - i * FAT16_SECTOR_SIZE) in Ea; [|unfold FAT16_SECTOR_SIZE in *; lia]. apply Z.eqb_eq in Ea.
    rewrite Ef in Ea. replace (i * FAT16_SECTOR_SIZE + (j - i * FAT16_SECTOR_SIZE)) with j in Ea by lia. rewrite Ea, Hok by (done || (unfold FAT16_SECTOR_SIZE in *; lia)).
    f_equal. unfold n. lia.
Qed.

(** The cached FAT is what both copies on disk hold. *)
Definition fat_mirrors v : Prop :=
  ∀ j, 0 ≤ j < fat_sectors (info v) * FAT16_SECTOR_SIZE →
    aget (fat v) j = vbyte o v (fat_start (info v) * FAT16_SECTOR_SIZE + j) ∧
    aget (fat v) j = vbyte o v ((fat_start (info v) + fat_sectors (info v)) * FAT16_SECTOR_SIZE + j).

Lemma load_fat_ok boot v h e held v' h' : device_ok v → layout_ok (info v) →
  load_fat dops kmalloc boot (v, h) = ((e, held), (v', h')) →
  same_disk v v' ∧ info v' = info v ∧ cache_valid v' = cache_valid v ∧ vready v' = vready v ∧ vpins v' = vpins v ∧
  (e = FS_OK → fat_mirrors v' ∧ has_device v' = true).
Proof.
  intros Hd Hl. unfold load_fat. cbn [fst snd]. destruct (kmalloc _ h) as [granted h1]. destruct granted; cbn [negb]; [|by intros [= <- <- <- <-]].
  set (v0 := set_device true v). assert (0 < fat_start (info v0) ∧ 0 < fat_sectors (info v0) ≤ FAT16_FAT_SECTOR_LIMIT ∧
    fat_start (info v0) + 2 * fat_sectors (info v0) ≤ UINT32_MAX) as (Hs & Hf & Hend).
  { destruct Hl as (_ & Hper & Hcl & Hst & Hfs & Hr & Hda & _ & Hre & Hfit & Hmax & _). cbn. split_and!; [lia..|].
    assert (0 ≤ root_entries (info v) / ENTRIES_PER_SECTOR) by (apply Z.div_pos; [lia|done]). unfold UINT32_MAX in *. nia. }
  pose proof (read_sectors_bytes o (fat_start (info v0)) (fat_sectors (info v0)) [] v0 ltac:(lia) ltac:(lia) Hd) as Hr.
  destruct (fat16_read_sectors _ _ _ _ v0) as [[e1 data] v1]. destruct Hr as (Hsame & Hcv & _ & _ & Hok).
  assert (keeps v0 v1) as Hk by apply Hsame. assert (info v1 = info v0) as Ei by apply Hk.
  assert (same_disk v v1) as Hsd by (split; [apply Hsame|exact (same_bytes_device o _ _ Hsame)]).
  set (v2 := set_fat (array_of data) v1). set (m := if bool_decide (e1 = FS_OK) then _ else _).
  assert (keeps v2 (snd m) ∧ same_disk v2 (snd m) ∧ cache_valid (snd m) = cache_valid v2 ∧ (fst (fst m) = FS_OK → e1 = FS_OK ∧
    ∀ j, 0 ≤ j < fat_sectors (info v) * FAT16_SECTOR_SIZE → aget (fat v2) j = vbyte o v2 ((fat_start (info v) + fat_sectors (info v)) * FAT16_SECTOR_SIZE + j))) as (K & S2 & C & Hall).
  { unfold m. destruct (decide (e1 = FS_OK)) as [->|He1]; [rewrite bool_decide_eq_true_2 by done|by rewrite bool_decide_eq_false_2 by done].
    assert (info v2 = info v0) as Ei2 by exact Ei. rewrite Ei2.
    pose proof (compare_loop_ok (Z.to_nat (fat_sectors (info v0))) 0 boot v2 ltac:(lia) (proj2 Hsd Hd)) as Hc. rewrite Ei2 in Hc.
    specialize (Hc ltac:(lia) ltac:(lia) ltac:(lia) ltac:(lia)). revert Hc.
    destruct (compare_loop dops (Z.to_nat (fat_sectors (info v0))) 0 boot v2) as [[e2 b2] v3]. intros (K & S2 & C & Hall). split_and!; [done..|]. cbn [fst]. intros E. split; [done|]. intros j Hj. apply Hall; [done|]. cbn in *. lia. }
  destruct m as [[e2 b2] v3]. cbn [fst snd] in *. set (e3 := if _ && _ then _ else e2). intros [= <- <- <- <-].
  assert (e3 = FS_OK → e2 = FS_OK) as He3 by (unfold e3; by destruct (_ && _)). clearbody e3.
  assert (info v3 = info v ∧ fat v3 = array_of data ∧ vready v3 = vready v ∧ vpins v3 = vpins v ∧ has_device v3 = true) as (I3 & F3 & R3 & P3 & D3).
  { clear - K Hk. unfold keeps, v2, v0 in *. cbn in *. destruct_and!. split_and!; congruence. }
  split_and!; [split; [intros a; rewrite (proj1 S2); apply Hsd|intros _; by apply S2, Hsd]|done|cbn in *; congruence|done|done|].
  intros E. destruct (Hall (He3 E)) as [-> Hmir]. split; [|done]. intros j Hj. rewrite I3 in *. rewrite F3, (proj1 S2), (proj1 S2). split.
  - rewrite array_of_get, Hok by (done || lia). symmetry. apply Hsd.
  - apply Hmir. done.
Qed.

(** Handing the volume to the filesystem leaves it as it is. *)
Lemma mount_disk_store v h b (s : vfs fatfs) : vready v = true → faulted (info v) = false → broot b = ROOT_ID →
  let '(e, s') := fs_mount_disk (operations dops kmalloc kfree) true b (set_store (v, h) s) in
  store s' = (v, h) ∧ (e = FS_OK → mounted (disk s') = true).
Proof.
  intros Hr Hf Hb. unfold fs_mount_disk, mount_backend, locked, enter. destruct (_ || _ || _ || _); [done|].
  destruct (negb (ready _)); [done|]. match goal with |- context [if ?b then FS_BUSY else FS_OK] => destruct b; [done|] end.
  rewrite (bool_decide_eq_true_2 (FS_OK = FS_OK)), (bool_decide_eq_false_2 (FS_OK ≠ FS_OK)) by (done || by intros []).
  destruct (mounted _); [done|]. destruct (_ =? UINT32_MAX); [done|]. rewrite Hb.
  cbn [op_stat operations]. unfold reading, stat_node, fat16_describe. cbn [store set_store Fs.set_busy fst snd].
  rewrite Hr, Hf. change (ROOT_ID =? ROOT_ID) with true. cbn [negb]. cbv iota. rewrite !bool_decide_eq_true_2 by done.
  by destruct (_ || _ || _).
Qed.
Lemma boot_layout_clean boot n i : boot_layout boot n = (FS_OK, i) → faulted i = false.
Proof.
  unfold boot_layout. repeat (match goal with |- (if ?b then (?e, _) else _) = _ → _ => destruct b; [done|] end).
  by intros [= <-].
Qed.

Lemma geometry_layout v boot v' : device_ok v → (∀ a, byte (vbyte o v a)) → geometry dops true v = ((FS_OK, boot), v') →
  same_disk v v' ∧ layout_ok (info v') ∧ faulted (info v') = false ∧ frame v (set_info (info v) v') ∧ cache_valid v' = cache_valid v.
Proof.
  intros Hd Hb Eg. destruct (geometry_ok v boot v' Hd Eg) as (Hs & (d & i & -> & El) & Hboot). split_and!; [done| | |done..|done].
  - cbn [info set_info]. set (g := λ k, if decide (0 ≤ k < FAT16_SECTOR_SIZE) then sget boot k else 0).
    assert (boot_layout g (sector_count (device d)) = (FS_OK, i)) as Eg'.
    { rewrite <- El. unfold boot_layout, u32, u16, g, FAT16_SECTOR_SIZE. by rewrite !decide_True by lia. }
    refine (proj1 (boot_layout_valid g _ i _ Eg')). intros k. unfold g. case_decide; [rewrite Hboot by done; apply Hb|unfold byte; lia].
  - exact (boot_layout_clean _ _ _ El).
Qed.

(** What mounting does to the volume [v0]: an error leaves it cleared. *)
Definition mount_outcome (ro : bool) v0 (e : fs_error) (s' : vfs (fatfs (D := D) (H := H))) : Prop :=
  same_disk v0 (fst (store s')) ∧
  (e ≠ FS_OK → ∃ d, fst (store s') = set_vbusy false (volume_zero d)) ∧
  (e = FS_OK → ∃ v w, same_disk v0 v ∧ layout_ok (info v) ∧ faulted (info v) = false ∧ cache_valid v = false ∧ fat_mirrors v ∧
     vpins v = ∅ ∧ (ro = true → w = false) ∧ mounted (disk s') = true ∧
     fst (store s') = set_vbusy false (set_info (set_access true w (info v)) (set_vready true v))).
Lemma mount_failed ro v0 v e h (s : vfs fatfs) : same_disk v0 v → e ≠ FS_OK →
  mount_outcome ro v0 e (set_store (set_vbusy false (volume_zero (dev v)), h) s).
Proof. intros Hs He. split; [exact Hs|]. split; [intros _; by exists (dev v)|done]. Qed.

Lemma mount_volume_ok ro d h (s : vfs fatfs) : let v0 := set_vbusy true (volume_zero d) in
  store s = (volume_zero d, h) → device_ok v0 → (∀ a, byte (vbyte o v0 a)) →
  let '(e, s') := mount_volume dops kmalloc kfree true ro s in mount_outcome ro v0 e s'.
Proof.
  intros v0 Es Hd Hb. unfold mount_volume. rewrite Es. cbn [vbusy vready volume_zero orb]. fold v0.
  pose proof (geometry_disk v0 Hd) as S0. destruct (geometry dops true v0) as [[e boot] v1] eqn:Eg. cbn [snd] in S0.
  destruct (decide (e = FS_OK)) as [->|He]; [rewrite bool_decide_eq_true_2 by done|rewrite bool_decide_eq_false_2 by done].
  2: { cbn [store set_store]. rewrite bool_decide_eq_true_2 by done. by apply mount_failed. }
  destruct (geometry_layout v0 boot v1 Hd Hb Eg) as (S1 & L1 & F1 & Fr1 & C1).
  destruct (load_fat dops kmalloc boot (v1, h)) as [[e2 held] [v h1]] eqn:El.
  destruct (load_fat_ok boot v1 h e2 held v h1 (proj2 S1 Hd) L1 El) as (S2 & I2 & C2 & R2 & P2 & Hok).
  assert (same_disk v0 v) as S02 by (destruct S1 as [B1 D1], S2 as [B2 D2]; split; [intros a; by rewrite B2, B1|intros _; by apply D2, D1]).
  destruct (decide (e2 = FS_OK)) as [->|He]; [rewrite bool_decide_eq_true_2 by done|rewrite (bool_decide_eq_false_2 (e2 = FS_OK)) by done].
  2: { cbn [store set_store]. rewrite bool_decide_eq_true_2 by done. by apply mount_failed. }
  set (w := negb ro && _ && _). assert (ro = true → w = false) as Hw by (intros ->; done). clearbody w.
  set (v2 := set_vready true (set_info (set_access (fmounted (info v)) w (info v)) v)).
  set (b := FsBackend true ROOT_ID FS_NAMES_FAT83 (negb w)).
  pose proof (mount_disk_store v2 h1 b s eq_refl ltac:(cbn; by rewrite I2) eq_refl) as Hm.
  destruct (fs_mount_disk (operations dops kmalloc kfree) true b (set_store (v2, h1) s)) as [e3 s3]. destruct Hm as [Est Hm].
  rewrite Est. destruct (decide (e3 = FS_OK)) as [->|He3].
  - rewrite bool_decide_eq_true_2 by done. cbn [store set_store]. rewrite bool_decide_eq_false_2 by (by intros []).
    split; [exact S02|]. split; [done|]. intros _. exists v, w. destruct (Hok eq_refl) as [Hmir _].
    split_and!; [exact S02|by rewrite I2|by rewrite I2|by rewrite C2, C1|done| |done|by apply Hm|done].
    rewrite P2. unfold frame in Fr1. by destruct_and!.
  - rewrite (bool_decide_eq_false_2 (e3 = FS_OK)) by done. rewrite (bool_decide_eq_true_2 (e3 ≠ FS_OK)) by done.
    match goal with |- context [match ?x with (v3, h0) => (e3, _) end] => replace x with (v2, h1) by (symmetry; exact Est) end.
    by apply (mount_failed _ _ v2).
Qed.
End Mounting.

(** C9: Mounting a disk on an unmounted FAT16 backend never changes the disk. When it
    fails the volume is left cleared. When it succeeds it publishes a ready volume with
    a consistent layout, whose cached FAT is byte for byte what both copies on the disk
    hold, with no object pinned and a coherent sector cache; a read-only mount is never
    writable. *)
Theorem fat16_mount_sound {D H} (o : block_operations D) `{!DiskWriteLaw o} (kmalloc : Z → H → bool * H) (kfree : H → H)
    (ro : bool) d h (s : vfs fatfs) :
  store s = (volume_zero d, h) → device_ok (volume_zero d) → (∀ a, byte (disk_byte (driver d) a)) →
  let '(e, s') := if ro then fat16_mount_read_only (Some o) kmalloc kfree true s else fat16_mount (Some o) kmalloc kfree true s in
  let v := fst (store s') in
  (∀ a, vbyte o v a = disk_byte (driver d) a) ∧ vbusy v = false ∧
  (e ≠ FS_OK → ∃ d', v = volume_zero d') ∧
  (e = FS_OK → vready v = true ∧ fmounted (info v) = true ∧ faulted (info v) = false ∧ mounted (disk s') = true ∧
     layout_ok (info v) ∧ fat_mirrors o v ∧ good o v ∧ (∀ id, pins_of v id = 0) ∧ (ro = true → writable (info v) = false)).
Proof.
  intros Es Hd Hb. pose proof (mount_volume_ok o kmalloc kfree ro d h s Es Hd Hb) as Hm.
  assert ((if ro then fat16_mount_read_only (Some o) kmalloc kfree true s else fat16_mount (Some o) kmalloc kfree true s) =
    mount_volume (Some o) kmalloc kfree true ro s) as -> by (by destruct ro).
  destruct (mount_volume _ _ _ _ _ _) as [e s']. destruct Hm as (Hs & Hfail & Hok). split_and!.
  - apply Hs.
  - destruct (decide (e = FS_OK)) as [E|E]; [destruct (Hok E) as (v1 & w & _ & _ & _ & _ & _ & _ & _ & _ & ->)|destruct (Hfail E) as [d' ->]]; done.
  - intros E. destruct (Hfail E) as [d' ->]. by exists d'.
  - intros E. destruct (Hok E) as (v1 & w & [B1 D1] & L1 & F1 & C1 & M1 & P1 & Hw & Hmt & ->). split_and!; try done.
    + split; [by apply D1|]. intros E'. cbn in E'. congruence.
    + intros id. rewrite (pins_same v1) by done. apply sum_range_all_zero. intros i _. unfold slot_pins, pin_at. rewrite P1, lookup_empty.
      by destruct (_ =? _).
Qed.

(** ** A disk that can be mounted, for the witnesses *)

Module MountSample.
Import FatSample.
Lemma store_get m a l k : aget (RamDisk.store m a l) k = if decide (a ≤ k < a + len l) then sget l (k - a) else aget m k.
Proof.
  revert m a; induction l as [|x l IH]; intros m a; cbn [RamDisk.store].
  - by rewrite decide_False by (cbn; lia).
  - rewrite IH. fold (aset m a x). rewrite aset_get. cbn [List.length]. destruct (decide (k = a)) as [->|].
    + rewrite decide_False, decide_True by lia. by rewrite Z.sub_diag.
    + destruct (decide (a + 1 ≤ k < a + 1 + len l)); [rewrite decide_True, (sget_cons x) by lia; f_equal; lia|by rewrite decide_False by lia].
Qed.
#[global] Instance disk_write_law : DiskWriteLaw RamDisk.ops.
Proof.
  refine {| write_disk := disk_law |}; intros; simplify_eq/=; [|done]. split.
  - intros a Ha. rewrite store_get, decide_False; [done|]. rewrite length_take. unfold FAT16_SECTOR_SIZE in Ha. lia.
  - intros _ _ Hl i Hi. rewrite store_get, length_take. unfold FAT16_SECTOR_SIZE in *.
    rewrite decide_True by lia. replace (lba * 512 + i - lba * 512) with i by lia. apply sget_take. lia.
Defined.

(** The boot sector and the two copies of the FAT in front of the sample volume. *)
Definition fat_bytes : list Z := [0xf8; 0xff; 0xff; 0xff; 0xff; 0xff].
Definition image : gmap Z Z :=
  RamDisk.store (RamDisk.store (RamDisk.store FatSample.image 0 (list_from 512 0 boot)) 512 fat_bytes) (17 * 512) fat_bytes.
Lemma store_bytes m a l : (∀ k, byte (aget m k)) → (∀ k, byte (sget l k)) → ∀ k, byte (aget (RamDisk.store m a l) k).
Proof. intros Hm Hl k. rewrite store_get. by case_decide. Qed.
Lemma list_bytes l : Forall byte l → ∀ k, byte (sget l k).
Proof.
  intros Hl k. unfold sget. destruct (nth_in_or_default (Z.to_nat k) l 0) as [Hin| ->]; [|by unfold byte].
  rewrite Forall_forall in Hl. by apply Hl.
Qed.
Lemma boot_list_bytes n i : Forall byte (list_from n i boot).
Proof. revert i; induction n as [|n IH]; intros i; cbn; constructor; [apply boot_bytes|apply IH]. Qed.
Ltac byte_list := apply list_bytes; repeat (constructor; [unfold byte; lia|]); constructor.
Lemma image_bytes a : byte (aget image a).
Proof.
  revert a. unfold image, FatSample.image, fat_bytes, name_bytes. repeat apply store_bytes;
    [intros k; unfold aget; rewrite lookup_empty; by unfold byte|..]; first [apply list_bytes, boot_list_bytes|byte_list].
Qed.
Definition grants (n : Z) (h : unit) : bool * unit := (true, h).
Definition start : vfs (fatfs (D := gmap Z Z) (H := unit)) :=
  Vfs (Mount (FsBackend false 0 0 false) 0 false) ∅ ∅ 1 true false (volume_zero (RamDisk.start 4119 image), ()).
Definition request : mutation := Replace ROOT_ID (sget [66; dot; 84]) [1; 2; 3] 3.
End MountSample.

Lemma fat16_mount_sound_witness :
  let '(e, s') := fat16_mount (Some RamDisk.ops) MountSample.grants id true MountSample.start in
  let v := fst (store s') in
  (∀ a, vbyte RamDisk.ops v a = aget MountSample.image a) ∧ vbusy v = false ∧
  (e ≠ FS_OK → ∃ d', v = volume_zero d') ∧
  (e = FS_OK → vready v = true ∧ fmounted (info v) = true ∧ faulted (info v) = false ∧ mounted (disk s') = true ∧
     layout_ok (info v) ∧ fat_mirrors RamDisk.ops v ∧ good RamDisk.ops v ∧ (∀ id, pins_of v id = 0) ∧ (false = true → writable (info v) = false)).
Proof.
  pose proof (fat16_mount_sound RamDisk.ops MountSample.grants id false (RamDisk.start 4119 MountSample.image) () MountSample.start eq_refl
    ltac:(unfold device_ok; cbn; unfold UINT32_MAX; lia) MountSample.image_bytes) as H.
  destruct (fat16_mount _ _ _ _ _) as [e s']. exact H.
Defined.

Lemma fat16_mutation_fail_stop_witness :
  let '(e, s') := mutate RamDisk.ops MountSample.grants id MountSample.request (begin_with FatSample.vol ()) in
  mutated RamDisk.ops FatSample.vol e (wvol s') ∧ good RamDisk.ops (wvol s') ∧
  (vready FatSample.vol = true → faulted (info FatSample.vol) = true →
     e = FS_IO_ERROR ∧ dev (wvol s') = dev FatSample.vol ∧ fat (wvol s') = fat FatSample.vol).
Proof.
  pose proof (fat16_mutation_fail_stop RamDisk.ops MountSample.grants id MountSample.request FatSample.vol ()) as H.
  destruct (mutate _ _ _ _ _) as [e s']. apply H. split; [unfold device_ok; cbn; unfold UINT32_MAX; lia|]. intros E. discriminate E.
Defined.
