(* ===== verification/Paging.v ===== *)
(** * Address spaces (arch/i386/paging.c)

    Page directories and tables as words of physical memory, the registry of
    address spaces, the shared kernel tables, kernel stacks, private user pages
    and the copies between user and kernel memory. Frames come from the
    physical page allocator of Pmm.v; the kernel heap is a parameter. *)

From S2P Require Import Prelude Pmm.

Definition PRESENT : Z := 1.
Definition PAGING_WRITABLE : Z := 2.
Definition USER : Z := 4.
Definition CACHE_DISABLE : Z := 0x10.
Definition FRAME_MASK : Z := 0xFFFFF000.
Definition ENTRIES : Z := 1024.
Definition RUM_PAGE_TABLE_SPAN : Z := 0x400000.
Definition RUM_HEAP_BASE : Z := 0x40000000.
Definition RUM_KERNEL_STACK_BASE : Z := 0x7FC00000.
Definition RUM_KERNEL_STACK_END : Z := 0x80000000.
Definition RUM_KERNEL_STACK_SIZE : Z := 0x4000.
Definition RUM_KERNEL_STACK_STRIDE : Z := PAGE_SIZE + RUM_KERNEL_STACK_SIZE.
Definition RUM_USER_BASE : Z := 0x80000000.
Definition RUM_USER_PROGRAM_END : Z := 0xBFC00000.
Definition RUM_USER_END : Z := 0xC0000000.
Definition RUM_USER_STACK_TOP : Z := RUM_USER_END.
Definition RUM_USER_STACK_BASE : Z := RUM_USER_STACK_TOP - 0x10000.
Definition KERNEL_ENTRIES : Z := RUM_USER_BASE / RUM_PAGE_TABLE_SPAN.
Definition USER_ENTRIES : Z := RUM_USER_END / RUM_PAGE_TABLE_SPAN.
Definition RUM_PROCESS_LIMIT : Z := 16.
Definition RUM_PROCESS_USER_BYTES : Z := 0x01000000.
Definition RUM_KERNEL_STACK_SLOTS : Z := RUM_PROCESS_LIMIT + 2.
Definition USER_PAGE_LIMIT : Z := RUM_PROCESS_USER_BYTES / PAGE_SIZE.
Definition STACK_PAGES : Z := RUM_KERNEL_STACK_SIZE / PAGE_SIZE.
Definition RUM_KERNEL_STACK_GUARD (slot : Z) : Z := wrap32 (RUM_KERNEL_STACK_BASE + slot * RUM_KERNEL_STACK_STRIDE).
Definition RUM_KERNEL_STACK_SLOT_BASE (slot : Z) : Z := wrap32 (RUM_KERNEL_STACK_GUARD slot + PAGE_SIZE).

Definition memory_range_contains (base finish address bytes : Z) : bool :=
  (base <=? address) && (address <? finish) && (bytes <=? finish - address).
Definition memory_kernel_mapping_range (address bytes : Z) : bool :=
  memory_range_contains RUM_HEAP_BASE RUM_KERNEL_STACK_BASE address bytes.

Record paging_space := PagingSpace {
  directory_physical : Z; user_pages : Z; user_tables : Z; private_tables : gmap Z Z
}.
Definition no_space : paging_space := PagingSpace 0 0 0 ∅.
Definition set_user_pages (n : Z) (p : paging_space) : paging_space :=
  PagingSpace (directory_physical p) n (user_tables p) (private_tables p).

(** The statics of paging.c, the frame allocator, physical memory by aligned words,
    and the control registers. [chain] is the list that starts at
    [kernel_space.next], each space with its address; [halted] is [cpu_halt]: nothing
    computed past it is observed. *)
Record paging := Paging {
  kernel_space : paging_space; chain : list (Z * paging_space); active_space : Z; enabled : bool;
  private_spaces : Z; frames : pmm; words : gmap Z Z; cr0 : Z; cr3 : Z; cr4 : Z; halted : bool
}.
Definition set_kernel (k : paging_space) s : paging :=
  Paging k (chain s) (active_space s) (enabled s) (private_spaces s) (frames s) (words s) (cr0 s) (cr3 s) (cr4 s) (halted s).
Definition set_chain (c : list (Z * paging_space)) (n : Z) s : paging :=
  Paging (kernel_space s) c (active_space s) (enabled s) n (frames s) (words s) (cr0 s) (cr3 s) (cr4 s) (halted s).
Definition set_frames (f : pmm) s : paging :=
  Paging (kernel_space s) (chain s) (active_space s) (enabled s) (private_spaces s) f (words s) (cr0 s) (cr3 s) (cr4 s) (halted s).
Definition set_words (w : gmap Z Z) s : paging :=
  Paging (kernel_space s) (chain s) (active_space s) (enabled s) (private_spaces s) (frames s) w (cr0 s) (cr3 s) (cr4 s) (halted s).
Definition set_cr3 (c : Z) s : paging :=
  Paging (kernel_space s) (chain s) (active_space s) (enabled s) (private_spaces s) (frames s) (words s) (cr0 s) c (cr4 s) (halted s).
Definition set_active (a : Z) s : paging :=
  Paging (kernel_space s) (chain s) a (enabled s) (private_spaces s) (frames s) (words s) (cr0 s) (cr3 s) (cr4 s) (halted s).
Definition cpu_halt s : paging :=
  Paging (kernel_space s) (chain s) (active_space s) (enabled s) (private_spaces s) (frames s) (words s) (cr0 s) (cr3 s) (cr4 s) true.
Definition start_paging (c0 c4 a : Z) s : paging :=
  Paging (kernel_space s) (chain s) a true (private_spaces s) (frames s) (words s) c0 (cr3 s) c4 (halted s).

(** ** Words and bytes of physical memory *)

Definition word (s : paging) (address : Z) : Z := aget (words s) address.
Definition put_word (address value : Z) (s : paging) : paging := set_words (aset (words s) address value) s.
Definition byte_at (s : paging) (address : Z) : Z :=
  wrap8 (Z.shiftr (word s (address - address mod 4)) (8 * (address mod 4))).
Definition put_byte (address value : Z) (s : paging) : paging :=
  let a := address - address mod 4 in
  let sh := 8 * (address mod 4) in
  put_word a (Z.lor (Z.land (word s a) (not32 (Z.shiftl 0xff sh))) (Z.shiftl (wrap8 value) sh)) s.
(** [memset(frame, 0, PAGE_SIZE)] *)
Definition zero_frame (frame : Z) (s : paging) : paging := for_range 0 ENTRIES (λ i, put_word (frame + 4 * i) 0) s.

(** [frame = pmm_allocate_page()] and [if (!pmm_free_page(frame)) cpu_halt()] *)
Definition take_frame (s : paging) : Z * paging :=
  let '(frame, f) := pmm_allocate_page (frames s) in (frame, set_frames f s).
Definition free_frame (frame : Z) (s : paging) : paging :=
  let '(ok, f) := pmm_free_page frame (frames s) in
  if ok then set_frames f s else cpu_halt (set_frames f s).

Section Paging.
(** [&kernel_space], the linker's ranges, and the kernel heap, which maps its pages
    through this component. *)
Context (kernel : Z) (text_start text_end rodata_start rodata_end : Z).
Context (kmalloc : Z → paging → Z * paging) (kfree : Z → paging → bool * paging).
Implicit Types (s : paging) (space : Z).

Definition find_space space (c : list (Z * paging_space)) : option paging_space :=
  snd <$> List.find (λ p, fst p =? space) c.
Definition known_space space s : bool :=
  enabled s && ((kernel =? space) || existsb (λ p, fst p =? space) (chain s)).
(** [*space] for a registered handle. *)
Definition get_space space s : paging_space :=
  if space =? kernel then kernel_space s else default no_space (find_space space (chain s)).
Definition put_space space (p : paging_space) s : paging :=
  if space =? kernel then set_kernel p s
  else set_chain ((λ q, if fst q =? space then (fst q, p) else q) <$> chain s) (private_spaces s) s.

Definition directory (p : paging_space) (index : Z) : Z := directory_physical p + 4 * index.
Definition directory_entry space (index : Z) s : Z := word s (directory (get_space space s) index).
Definition table (entry index : Z) : Z := Z.land entry FRAME_MASK + 4 * index.
Definition index_of (virtual : Z) : Z := Z.shiftr virtual 22.
Definition slot_of (virtual : Z) : Z := Z.land (Z.shiftr virtual 12) 1023.
Definition has (entry mask : Z) : bool := negb (Z.land entry mask =? 0).

Definition private_table_owned (p : paging_space) (index : Z) : bool :=
  if (index <? KERNEL_ENTRIES) || (index >=? USER_ENTRIES) then false else
  let b := index - KERNEL_ENTRIES in
  has (aget (private_tables p) (b / 32)) (Z.shiftl 1 (b mod 32)).
Definition private_table_set (p : paging_space) (index : Z) (owned : bool) : paging_space :=
  let b := index - KERNEL_ENTRIES in
  let mask := Z.shiftl 1 (b mod 32) in
  let w := aget (private_tables p) (b / 32) in
  PagingSpace (directory_physical p) (user_pages p) (user_tables p)
    (aset (private_tables p) (b / 32) (if owned then Z.lor w mask else Z.land w (not32 mask))).

Definition user_page_range (virtual pages : Z) : bool :=
  if (pages =? 0) || negb (virtual mod PAGE_SIZE =? 0) then false else
  let finish := virtual + pages * PAGE_SIZE in
  ((RUM_USER_BASE <=? virtual) && (finish <=? RUM_USER_PROGRAM_END)) ||
  ((RUM_USER_STACK_BASE <=? virtual) && (finish <=? RUM_USER_STACK_TOP)).

Definition private_table_valid space (index : Z) s : bool :=
  let entry := directory_entry space index s in
  private_table_owned (get_space space s) index && (Z.land entry (Z.lor FRAME_MASK 0x67) =? entry) &&
  (Z.land entry (Z.lor PRESENT (Z.lor PAGING_WRITABLE USER)) =? Z.lor PRESENT (Z.lor PAGING_WRITABLE USER)).

(** The address of the entry, [None] for NULL. *)
Definition user_entry space (virtual : Z) s : option Z :=
  let index := index_of virtual in
  if negb (private_table_valid space index s) then None else
  let entry := table (directory_entry space index s) (slot_of virtual) in
  if Z.land (word s entry) (Z.lor PRESENT USER) =? Z.lor PRESENT USER then Some entry else None.

Definition reload_directory space s : paging := set_cr3 (directory_physical (get_space space s)) s.

(** Every directory, the kernel's first. *)
Definition directories s : list Z := directory_physical (kernel_space s) :: (directory_physical ∘ snd <$> chain s).
Definition publish_kernel_entry (index entry : Z) s : paging :=
  foldl (λ s d, put_word (d + 4 * index) entry s) s (directories s).

Definition kernel_table_valid (index : Z) s : bool :=
  let entry := directory_entry kernel index s in
  (Z.land entry (Z.lor FRAME_MASK 0x63) =? entry) &&
  (Z.land entry (Z.lor PRESENT (Z.lor PAGING_WRITABLE USER)) =? Z.lor PRESENT PAGING_WRITABLE).
Definition table_empty (entry : Z) s : bool := all_range 0 ENTRIES (λ i, word s (table entry i) =? 0).

Definition reclaim_empty_kernel_table (index : Z) s : paging :=
  let entry := directory_entry kernel index s in
  if negb (has entry PRESENT) then s else
  if negb (table_empty entry s) then s else
  let s := publish_kernel_entry index 0 s in
  let s := reload_directory (active_space s) s in
  free_frame (Z.land entry FRAME_MASK) s.

Definition read_only (physical : Z) : bool :=
  ((text_start <=? physical) && (physical <? text_end)) || ((rodata_start <=? physical) && (physical <? rodata_end)).

(** ** Initialization *)

(** [for (i = 0; i < ENTRIES; ++i) if (entries[i] & PRESENT) pmm_free_page(...)] *)
Definition roll_back s : paging :=
  let s := for_range 0 ENTRIES (λ i s,
    let entry := directory_entry kernel i s in
    if has entry PRESENT then set_frames (snd (pmm_free_page (Z.land entry FRAME_MASK) (frames s))) s else s) s in
  let s := set_frames (snd (pmm_free_page (directory_physical (kernel_space s)) (frames s))) s in
  set_kernel (PagingSpace 0 (user_pages (kernel_space s)) (user_tables (kernel_space s)) (private_tables (kernel_space s))) s.

Definition identity_flags (physical : Z) : Z :=
  let flags := Z.lor PRESENT (if read_only physical then 0 else PAGING_WRITABLE) in
  if (0xA0000 <=? physical) && (physical <? 0x100000) then Z.lor flags CACHE_DISABLE else flags.
(** One page of the identity window, [false] when no frame is left. *)
Definition identity_page (physical : Z) s : bool * paging :=
  let index := index_of physical in
  let '(ok, s) :=
    if has (directory_entry kernel index s) PRESENT then (true, s) else
    let '(frame, s) := take_frame s in
    if frame =? 0 then (false, s) else
    let s := zero_frame frame s in
    (true, put_word (directory (kernel_space s) index) (Z.lor frame (Z.lor PRESENT PAGING_WRITABLE)) s) in
  if negb ok then (false, s) else
  (true, put_word (table (directory_entry kernel index s) (slot_of physical)) (Z.lor physical (identity_flags physical)) s).
Fixpoint identity_loop (n : nat) (physical : Z) s : bool * paging :=
  match n with
  | O => (true, s)
  | S n =>
      let '(ok, s) := identity_page physical s in
      if ok then identity_loop n (physical + PAGE_SIZE) s else (false, s)
  end.

Definition paging_initialize s : bool * paging :=
  if enabled s then (false, s) else
  if has (cr0 s) 0x80000000 then (false, s) else
  let limit := st_limit (pmm_stats (frames s)) in
  if limit =? 0 then (false, s) else
  let '(frame, s) := take_frame s in
  let s := set_kernel (PagingSpace frame (user_pages (kernel_space s)) (user_tables (kernel_space s)) (private_tables (kernel_space s))) s in
  if frame =? 0 then (false, s) else
  let s := zero_frame frame s in
  let '(ok, s) := identity_loop (Z.to_nat ((limit - PAGE_SIZE + PAGE_SIZE - 1) / PAGE_SIZE)) PAGE_SIZE s in
  if negb ok then (false, roll_back s) else
  let s := reload_directory kernel s in
  (true, start_paging (Z.lor (cr0 s) 0x80010000) (Z.land (cr4 s) (not32 0xB0)) kernel s).

(** ** Queries *)

(** Handles: [None] is NULL. *)
Definition paging_kernel_space s : option Z := if enabled s then Some kernel else None.
Definition paging_active_space s : option Z := if enabled s then Some (active_space s) else None.
Definition paging_directory_address space s : Z :=
  if known_space space s then directory_physical (get_space space s) else 0.

Record paging_statistics := PagingStatistics {
  stat_spaces : Z; stat_directory_pages : Z; stat_shared_table_pages : Z; stat_kernel_directory : Z;
  stat_active_directory : Z; stat_private_table_pages : Z; stat_user_pages : Z
}.
Definition paging_stats s : paging_statistics :=
  if enabled s then
    PagingStatistics (wrap32 (private_spaces s + 1)) (wrap32 (private_spaces s + 1))
      (count_range 0 KERNEL_ENTRIES (λ i, has (directory_entry kernel i s) PRESENT))
      (directory_physical (kernel_space s)) (directory_physical (get_space (active_space s) s))
      (foldl (λ n p, wrap32 (n + user_tables (snd p))) 0 (chain s))
      (foldl (λ n p, wrap32 (n + user_pages (snd p))) 0 (chain s))
  else PagingStatistics 0 0 0 0 0 0 0.
(** The flag and [*statistics]: directory, private tables, user pages, kernel; [None]
    for a NULL [statistics]. *)
Definition paging_space_stats space (given : bool) s : bool * option (Z * Z * Z * bool) :=
  if negb given then (false, None) else
  if known_space space s then
    let p := get_space space s in
    (true, Some (directory_physical p, user_tables p, user_pages p, space =? kernel))
  else (false, Some (0, 0, 0, false)).
Definition paging_user_page_count space s : Z :=
  if known_space space s && negb (space =? kernel) then user_pages (get_space space s) else 0.

(** The physical address on success. *)
Definition paging_translate space (virtual : Z) s : option Z :=
  if negb (known_space space s) then None else
  let entry := directory_entry space (index_of virtual) s in
  if has entry PRESENT then
    let entry := word s (table entry (slot_of virtual)) in
    if has entry PRESENT then Some (Z.lor (Z.land entry FRAME_MASK) (Z.land virtual (PAGE_SIZE - 1))) else None
  else None.

(** ** Address spaces *)

(** [sizeof(struct paging_space)] on the 32-bit target: four words and the bitmap. *)
Definition sizeof_paging_space : Z := 4 * 4 + 4 * ((USER_ENTRIES - KERNEL_ENTRIES + 31) / 32).

(** The new space's address, 0 on failure. *)
Definition paging_space_create s : Z * paging :=
  if enabled s && (private_spaces s <? RUM_PROCESS_LIMIT) then
    let '(space, s) := kmalloc sizeof_paging_space s in
    if space =? 0 then (0, s) else
    let '(physical, s) := take_frame s in
    if physical =? 0 then (0, snd (kfree space s)) else
    let s := zero_frame physical s in
    let s := for_range 0 KERNEL_ENTRIES (λ i s, put_word (physical + 4 * i) (directory_entry kernel i s) s) s in
    (space, set_chain ((space, PagingSpace physical 0 0 ∅) :: chain s) (wrap32 (private_spaces s + 1)) s)
  else (0, s).

(** The checks of one directory slot before destruction: [valid], pages and tables so far. *)
Definition page_checked (entry : Z) s : bool :=
  (Z.land entry (Z.lor FRAME_MASK 0x67) =? entry) && has entry USER && pmm_is_allocated (frames s) (Z.land entry FRAME_MASK).
Definition destroy_entry (entry : Z) s (acc : bool * Z) : bool * Z :=
  let '(valid, pages) := acc in
  if negb (has entry PRESENT) then (if negb (entry =? 0) then false else valid, pages)
  else (if page_checked entry s then valid else false, pages + 1).
Definition destroy_slot space (i : Z) s (acc : bool * Z * Z) : bool * Z * Z :=
  let '(valid, pages, tables) := acc in
  let entry := directory_entry space i s in
  let present := has entry PRESENT in
  let owned := private_table_owned (get_space space s) i in
  if USER_ENTRIES <=? i then (if negb (entry =? 0) || owned then false else valid, pages, tables) else
  if (negb present && negb (entry =? 0)) || negb (Bool.eqb present owned) || (present && negb (private_table_valid space i s))
  then (false, pages, tables) else
  if negb owned then acc else
  let '(valid, pages) := for_range 0 ENTRIES (λ j, destroy_entry (word s (table entry j)) s) (valid, pages) in
  (valid, pages, tables + 1).
Definition destroy_checked space s : bool * Z * Z :=
  for_range KERNEL_ENTRIES ENTRIES (λ i, destroy_slot space i s) (true, 0, 0).

(** The frames of one private table and its pages; the directory is still in place. *)
Definition release_table (entry : Z) s : paging :=
  let s := for_range 0 ENTRIES (λ j s,
    let e := word s (table entry j) in if has e PRESENT then free_frame (Z.land e FRAME_MASK) s else s) s in
  free_frame (Z.land entry FRAME_MASK) s.

Definition paging_space_destroy space s : bool * paging :=
  if enabled s && negb (space =? 0) && negb (space =? kernel) && negb (space =? active_space s) &&
     existsb (λ p, fst p =? space) (chain s) then
    let p := get_space space s in
    let '(valid, pages, tables) := destroy_checked space s in
    if valid && (pages =? user_pages p) && (tables =? user_tables p) then
      let s := set_chain (List.filter (λ q, negb (fst q =? space)) (chain s)) (wrap32 (private_spaces s - 1)) s in
      let s := for_range KERNEL_ENTRIES USER_ENTRIES (λ i s,
        if private_table_owned p i then release_table (word s (directory p i)) s else s) s in
      let s := free_frame (directory_physical p) s in
      let '(ok, s) := kfree space s in
      (true, if ok then s else cpu_halt s)
    else (false, s)
  else (false, s).

Definition paging_switch_space space s : bool * paging :=
  if known_space space s then (true, set_active space (reload_directory space s)) else (false, s).

(** ** Kernel mappings *)

Definition paging_map_page space (virtual physical flags : Z) s : bool * paging :=
  if negb (enabled s) || negb (space =? kernel) || negb (memory_kernel_mapping_range virtual PAGE_SIZE) ||
     negb (virtual mod PAGE_SIZE =? 0) || has flags (not32 PAGING_WRITABLE) then (false, s) else
  if negb (pmm_is_allocated (frames s) physical) then (false, s) else
  let index := index_of virtual in
  let s :=
    if has (directory_entry space index s) PRESENT then s else
    let '(frame, s) := take_frame s in
    if frame =? 0 then s else
    publish_kernel_entry index (Z.lor frame (Z.lor PRESENT PAGING_WRITABLE)) (zero_frame frame s) in
  if has (directory_entry space index s) PRESENT then
    let entry := table (directory_entry space index s) (slot_of virtual) in
    if has (word s entry) PRESENT then (false, s)
    else (true, put_word entry (Z.lor physical (Z.lor PRESENT flags)) s)
  else (false, s).

(** The frame that was mapped, on success. *)
Definition paging_unmap_page space (virtual : Z) s : option Z * paging :=
  if negb (enabled s) || negb (space =? kernel) || negb (memory_kernel_mapping_range virtual PAGE_SIZE) ||
     negb (virtual mod PAGE_SIZE =? 0) then (None, s) else
  let index := index_of virtual in
  let entry := directory_entry space index s in
  if has entry PRESENT then
    let at_ := table entry (slot_of virtual) in
    if has (word s at_) PRESENT then
      (Some (Z.land (word s at_) FRAME_MASK), reclaim_empty_kernel_table index (put_word at_ 0 s))
    else (None, s)
  else (None, s).

(** ** Kernel stacks *)

Definition kernel_stack_range (slot : Z) : option Z :=
  if slot >=? RUM_KERNEL_STACK_SLOTS then None else
  let address := RUM_KERNEL_STACK_SLOT_BASE slot in
  if (address <? RUM_KERNEL_STACK_BASE) || (address >? RUM_KERNEL_STACK_END - RUM_KERNEL_STACK_SIZE) then None
  else Some address.

(** [while (valid && mapped < STACK_PAGES)]: the number of pages mapped. *)
Fixpoint stack_map_loop (n : nat) (base index mapped : Z) s : Z * paging :=
  match n with
  | O => (mapped, s)
  | S n =>
      let '(frame, s) := take_frame s in
      if frame =? 0 then (mapped, s) else
      let s := zero_frame frame s in
      let address := base + mapped * PAGE_SIZE in
      let s := put_word (table (directory_entry kernel index s) (slot_of address)) (Z.lor frame (Z.lor PRESENT PAGING_WRITABLE)) s in
      stack_map_loop n base index (mapped + 1) s
  end.
(** [while (mapped) { --mapped; ... }] *)
Fixpoint stack_undo_loop (mapped : nat) (base index : Z) s : paging :=
  match mapped with
  | O => s
  | S mapped =>
      let entry := table (directory_entry kernel index s) (slot_of (base + Z.of_nat mapped * PAGE_SIZE)) in
      let frame := Z.land (word s entry) FRAME_MASK in
      stack_undo_loop mapped base index (free_frame frame (put_word entry 0 s))
  end.

Definition paging_kernel_stack_allocate (slot : Z) s : bool * paging :=
  match (if enabled s then kernel_stack_range slot else None) with
  | None => (false, s)
  | Some base =>
      let index := index_of base in
      let guard := RUM_KERNEL_STACK_GUARD slot in
      let existing := directory_entry kernel index s in
      let valid := (if paging_translate kernel guard s then false else true) &&
                   negb (negb (existing =? 0) && negb (kernel_table_valid index s)) in
      let valid :=
        if valid && negb (existing =? 0) then
          (word s (table existing (slot_of guard)) =? 0) &&
          all_range 0 STACK_PAGES (λ page, word s (table existing (slot_of base + page)) =? 0)
        else valid in
      let '(valid, created, s) :=
        if valid && (existing =? 0) then
          let '(frame, s) := take_frame s in
          if frame =? 0 then (false, false, s) else
          (true, true, publish_kernel_entry index (Z.lor frame (Z.lor PRESENT PAGING_WRITABLE)) (zero_frame frame s))
        else (valid, false, s) in
      let '(mapped, s) := if valid then stack_map_loop (Z.to_nat STACK_PAGES) base index 0 s else (0, s) in
      if valid && (mapped =? STACK_PAGES) then (true, s) else
      let s := stack_undo_loop (Z.to_nat mapped) base index s in
      (false, if created then reclaim_empty_kernel_table index s else s)
  end.

Definition stack_entry_valid (entry : Z) s : bool :=
  (Z.land entry (Z.lor FRAME_MASK 0x63) =? entry) &&
  (Z.land entry (Z.lor PRESENT (Z.lor PAGING_WRITABLE USER)) =? Z.lor PRESENT PAGING_WRITABLE) &&
  pmm_is_allocated (frames s) (Z.land entry FRAME_MASK).
Definition paging_kernel_stack_release (slot : Z) s : bool * paging :=
  match (if enabled s then kernel_stack_range slot else None) with
  | None => (false, s)
  | Some base =>
      let index := index_of base in
      let entries := directory_entry kernel index s in
      let valid := kernel_table_valid index s && (if paging_translate kernel (RUM_KERNEL_STACK_GUARD slot) s then false else true) &&
                   all_range 0 STACK_PAGES (λ page, stack_entry_valid (word s (table entries (slot_of base + page))) s) in
      if negb valid then (false, s) else
      let s := for_range 0 STACK_PAGES (λ page s,
        let entry := table entries (slot_of (base + page * PAGE_SIZE)) in
        free_frame (Z.land (word s entry) FRAME_MASK) (put_word entry 0 s)) s in
      (true, reclaim_empty_kernel_table index s)
  end.

(** ** Private user pages *)

Definition ensure_user_table space (index : Z) s : bool * paging :=
  if negb (directory_entry space index s =? 0) then (private_table_valid space index s, s) else
  let '(frame, s) := take_frame s in
  if frame =? 0 then (false, s) else
  let s := zero_frame frame s in
  let s := put_word (directory (get_space space s) index) (Z.lor frame (Z.lor PRESENT (Z.lor PAGING_WRITABLE USER))) s in
  let p := private_table_set (get_space space s) index true in
  (true, put_space space (PagingSpace (directory_physical p) (user_pages p) (wrap32 (user_tables p + 1)) (private_tables p)) s).

Definition reclaim_user_table space (index : Z) s : paging :=
  let p := get_space space s in
  let entry := directory_entry space index s in
  if negb (private_table_owned p index) then s else
  if negb (all_range 0 ENTRIES (λ i, negb (has (word s (table entry i)) PRESENT))) then s else
  let s := put_word (directory p index) 0 s in
  let p := private_table_set p index false in
  let s := put_space space (PagingSpace (directory_physical p) (user_pages p) (wrap32 (user_tables p - 1)) (private_tables p)) s in
  free_frame (Z.land entry FRAME_MASK) s.
Definition reclaim_empty_user_tables space (virtual pages : Z) s : paging :=
  for_range (index_of virtual) (Z.shiftr (virtual + pages * PAGE_SIZE - 1) 22 + 1) (reclaim_user_table space) s.

(** The scan before allocating: every slot of the range is free. *)
Definition slot_available space (address : Z) s : bool :=
  let index := index_of address in
  let entry := directory_entry space index s in
  if negb (Bool.eqb (negb (entry =? 0)) (private_table_owned (get_space space s) index)) ||
     (negb (entry =? 0) && negb (private_table_valid space index s)) then false
  else if negb (entry =? 0) then word s (table entry (slot_of address)) =? 0 else true.

Definition add_user_pages space (n : Z) s : paging :=
  let p := get_space space s in put_space space (set_user_pages (wrap32 (user_pages p + n)) p) s.
Fixpoint user_map_loop (n : nat) space (virtual flags mapped : Z) s : Z * paging :=
  match n with
  | O => (mapped, s)
  | S n =>
      let address := virtual + mapped * PAGE_SIZE in
      let index := index_of address in
      let '(ok, s) := ensure_user_table space index s in
      if negb ok then (mapped, s) else
      let '(physical, s) := take_frame s in
      if physical =? 0 then (mapped, s) else
      let s := zero_frame physical s in
      let s := put_word (table (directory_entry space index s) (slot_of address))
                 (Z.lor physical (Z.lor PRESENT (Z.lor USER flags))) s in
      user_map_loop n space virtual flags (mapped + 1) (add_user_pages space 1 s)
  end.
(** [user_entry] is not NULL where the callers have mapped or checked the page. *)
Definition drop_user_page space (address : Z) s : paging :=
  match user_entry space address s with
  | None => s
  | Some entry =>
      let physical := Z.land (word s entry) FRAME_MASK in
      add_user_pages space (-1) (free_frame physical (put_word entry 0 s))
  end.

Definition paging_user_allocate space (virtual pages flags : Z) s : bool * paging :=
  if negb (user_page_range virtual pages) || has flags (not32 PAGING_WRITABLE) then (false, s) else
  let valid := known_space space s && negb (space =? kernel) &&
               (user_pages (get_space space s) <=? USER_PAGE_LIMIT) &&
               (pages <=? USER_PAGE_LIMIT - user_pages (get_space space s)) in
  let valid := valid && all_range 0 pages (λ i, slot_available space (virtual + i * PAGE_SIZE) s) in
  let '(mapped, s) := if valid then user_map_loop (Z.to_nat pages) space virtual flags 0 s else (0, s) in
  if valid && (mapped =? pages) then (true, s) else
  let s := for_range 0 mapped (λ i, drop_user_page space (virtual + i * PAGE_SIZE)) s in
  (false, if valid then reclaim_empty_user_tables space virtual pages s else s).

Definition all_mapped space (virtual pages : Z) s : bool :=
  known_space space s && negb (space =? kernel) &&
  all_range 0 pages (λ i, if user_entry space (virtual + i * PAGE_SIZE) s then true else false).
Definition protect_page space (flags address : Z) s : paging :=
  match user_entry space address s with
  | None => s
  | Some entry =>
      put_word entry (Z.lor (Z.land (word s entry) (Z.lor FRAME_MASK (Z.lor PRESENT (Z.lor USER 0x60)))) flags) s
  end.
Definition paging_user_protect space (virtual pages flags : Z) s : bool * paging :=
  if negb (user_page_range virtual pages) || has flags (not32 PAGING_WRITABLE) then (false, s) else
  if all_mapped space virtual pages s
  then (true, for_range 0 pages (λ i, protect_page space flags (virtual + i * PAGE_SIZE)) s) else (false, s).
Definition paging_user_release space (virtual pages : Z) s : bool * paging :=
  if negb (user_page_range virtual pages) then (false, s) else
  if all_mapped space virtual pages s then
    let s := for_range 0 pages (λ i, drop_user_page space (virtual + i * PAGE_SIZE)) s in
    (true, reclaim_empty_user_tables space virtual pages s)
  else (false, s).

(** ** User memory *)

Definition page_usable space (writable : bool) (page : Z) s : bool :=
  match user_entry space page s with
  | None => false
  | Some entry => negb (writable && negb (has (word s entry) PAGING_WRITABLE))
  end.
Definition user_bytes space (address bytes : Z) (writable : bool) s : bool :=
  if negb (known_space space s) || (space =? kernel) then false else
  if bytes =? 0 then true else
  if (address <? RUM_USER_BASE) || (address >=? RUM_USER_END) || (bytes >? RUM_USER_END - address) then false else
  let first := address / PAGE_SIZE in
  let last := (address + bytes - 1) / PAGE_SIZE in
  all_range first (last + 1) (λ page, page_usable space writable (page * PAGE_SIZE) s).
Definition paging_user_accessible space (address bytes : Z) (writable : bool) s : bool := user_bytes space address bytes writable s.

(** The physical address behind a user address whose page is mapped. *)
Definition user_physical space (address : Z) s : Z :=
  Z.land (word s (default 0 (user_entry space address s))) FRAME_MASK + Z.land address (PAGE_SIZE - 1).

(** [memmove] between kernel memory, a list of bytes, and one page. *)
Definition load_bytes (physical : Z) (n : nat) s : list Z := (λ i, byte_at s (physical + Z.of_nat i)) <$> seq 0 n.
Definition store_bytes (physical : Z) (l : list Z) s : paging :=
  fst (foldl (λ '(s, a) x, (put_byte a x s, a + 1)) (s, physical) l).

(** One round per page; every round advances by at least one byte. *)
Fixpoint copy_in_loop (fuel : nat) space (user bytes : Z) s : list Z :=
  match fuel with
  | O => []
  | S fuel =>
      if bytes =? 0 then [] else
      let chunk := Z.min (PAGE_SIZE - Z.land user (PAGE_SIZE - 1)) bytes in
      load_bytes (user_physical space user s) (Z.to_nat chunk) s ++ copy_in_loop fuel space (user + chunk) (bytes - chunk) s
  end.
Fixpoint copy_out_loop (fuel : nat) space (user : Z) (data : list Z) s : paging :=
  match fuel with
  | O => s
  | S fuel =>
      let bytes := Z.of_nat (List.length data) in
      if bytes =? 0 then s else
      let chunk := Z.min (PAGE_SIZE - Z.land user (PAGE_SIZE - 1)) bytes in
      let s := store_bytes (user_physical space user s) (take (Z.to_nat chunk) data) s in
      copy_out_loop fuel space (user + chunk) (drop (Z.to_nat chunk) data) s
  end.
(** The kernel buffer's new contents, [None] when the copy is refused. *)
Definition paging_copy_from_user space (given : bool) (source bytes : Z) s : option (list Z) :=
  if negb (bytes =? 0) && negb given then None else
  if user_bytes space source bytes false s then Some (copy_in_loop (Z.to_nat bytes) space source bytes s) else None.
(** [source] holds the bytes to copy, [None] for NULL. *)
Definition paging_copy_to_user space (destination : Z) (source : option (list Z)) (bytes : Z) s : bool * paging :=
  if negb (bytes =? 0) && negb (if source then true else false) then (false, s) else
  if user_bytes space destination bytes true s then
    let data := take (Z.to_nat bytes) (default [] source) in
    (true, copy_out_loop (Z.to_nat bytes) space destination data s)
  else (false, s).

(** The scan of a string: [None] when a byte is not accessible, else the bytes read. *)
Fixpoint string_loop (fuel : nat) space (source bytes : Z) s : option Z :=
  match fuel with
  | O => Some bytes
  | S fuel =>
      if (source <? RUM_USER_BASE) || (source >=? RUM_USER_END) || (bytes >? RUM_USER_END - source - 1) then None else
      match user_entry space (source + bytes) s with
      | None => None
      | Some _ =>
          if byte_at s (user_physical space (source + bytes) s) =? 0 then Some (bytes + 1)
          else string_loop fuel space source (bytes + 1) s
      end
  end.
(** The string without its NUL, [None] when it is refused. *)
Definition paging_copy_string_from_user space (given : bool) (capacity source : Z) s : option (list Z) :=
  if negb given || (capacity =? 0) then None else
  if negb (known_space space s) || (space =? kernel) then None else
  match string_loop (Z.to_nat capacity) space source 0 s with
  | None => None
  | Some bytes =>
      if (bytes =? 0) || (bytes >? capacity) then None else
      if negb (byte_at s (user_physical space (source + (bytes - 1)) s) =? 0) then None else
      Some (take (Z.to_nat (bytes - 1)) (copy_in_loop (Z.to_nat bytes) space source bytes s))
  end.
End Paging.

(** ** Reading user memory *)

Lemma index_of_page v : index_of v = v / PAGE_SIZE / 1024.
Proof. unfold index_of. rewrite Z.shiftr_div_pow2 by lia. rewrite Z.div_div by done. done. Qed.
Lemma slot_of_page v : slot_of v = (v / PAGE_SIZE) mod 1024.
Proof. unfold slot_of. rewrite Z.shiftr_div_pow2 by lia. change 1023 with (Z.ones 10). by rewrite Z.land_ones by lia. Qed.
Lemma page_offset v : Z.land v (PAGE_SIZE - 1) = v mod PAGE_SIZE.
Proof. change (PAGE_SIZE - 1) with (Z.ones 12). by rewrite Z.land_ones by lia. Qed.

Notation len l := (Z.of_nat (List.length l)).

Section UserMemory.
Context (kernel : Z).
Implicit Types (s : paging) (space : Z).
Notation user_entry := (user_entry kernel).
Notation user_physical := (user_physical kernel).

Lemma user_entry_page space v v' s : v / PAGE_SIZE = v' / PAGE_SIZE → user_entry space v s = user_entry space v' s.
Proof. intros E. unfold Paging.user_entry. by rewrite !index_of_page, !slot_of_page, E. Qed.
(** Offsets inside one page stay inside one frame. *)
Lemma user_physical_step space u i s : 0 ≤ i < PAGE_SIZE - u mod PAGE_SIZE → user_physical space (u + i) s = user_physical space u s + i.
Proof.
  intros Hi. pose proof (Z.mod_pos_bound u PAGE_SIZE ltac:(done)). pose proof (Z.div_mod u PAGE_SIZE ltac:(done)) as Eu.
  set (q := u / PAGE_SIZE) in *. set (r := u mod PAGE_SIZE) in *. unfold Paging.user_physical. rewrite !page_offset.
  assert ((u + i) / PAGE_SIZE = q ∧ (u + i) mod PAGE_SIZE = r + i) as [Ed Em].
  { replace (u + i) with (r + i + q * PAGE_SIZE) by lia. rewrite Z.div_add, Z.mod_add by done. rewrite Z.div_small, Z.mod_small by lia. lia. }
  rewrite (user_entry_page space (u + i) u) by (by rewrite Ed). rewrite Em. fold r. lia.
Qed.

Lemma load_bytes_get a n s k : (k < n)%nat → load_bytes a n s !! k = Some (byte_at s (a + Z.of_nat k)).
Proof. intros Hk. unfold load_bytes. by rewrite list_lookup_fmap, lookup_seq_lt. Qed.
Lemma load_bytes_length a n s : List.length (load_bytes a n s) = n.
Proof. unfold load_bytes. by rewrite length_fmap, length_seq. Qed.

(** The bytes of user memory from [u]. *)
Definition user_range space (u bytes : Z) s : list Z := (λ i, byte_at s (user_physical space (u + i) s)) <$> seqZ 0 bytes.
Lemma copy_in_loop_spec fuel space u bytes s : 0 ≤ bytes ≤ Z.of_nat fuel → 0 ≤ u →
  copy_in_loop kernel fuel space u bytes s = user_range space u bytes s.
Proof.
  revert u bytes; induction fuel as [|fuel IH]; intros u bytes Hb Hu; cbn [copy_in_loop].
  { replace bytes with 0 by lia. done. }
  destruct (Z.eqb_spec bytes 0) as [->|Hne]; [done|]. rewrite page_offset. pose proof (Z.mod_pos_bound u PAGE_SIZE ltac:(done)).
  set (chunk := Z.min (PAGE_SIZE - u mod PAGE_SIZE) bytes). assert (0 < chunk ≤ bytes ∧ chunk ≤ PAGE_SIZE - u mod PAGE_SIZE) as [Hc Hc'] by lia.
  rewrite IH by lia. unfold user_range. replace bytes with (chunk + (bytes - chunk)) at 2 by lia.
  rewrite seqZ_app, fmap_app by lia. f_equal.
  - apply list_eq. intros k. destruct (decide (k < Z.to_nat chunk)%nat) as [Hk|Hk].
    + rewrite load_bytes_get by done. rewrite list_lookup_fmap, lookup_seqZ_lt by lia. cbn. by rewrite user_physical_step by lia.
    + rewrite !lookup_ge_None_2; [done| |]; rewrite ?length_fmap, ?length_seqZ, ?load_bytes_length; lia.
  - replace (0 + chunk) with (chunk + 0) by lia. rewrite <- (fmap_add_seqZ chunk 0), <- list_fmap_compose.
    apply list_fmap_ext. intros i x _. cbn. f_equal. f_equal. lia.
Qed.

(** The pages of a range are present, user, in a private table the space owns. *)
Definition readable space (u bytes : Z) s : Prop :=
  known_space kernel space s = true ∧ space ≠ kernel ∧
  (bytes ≠ 0 → RUM_USER_BASE ≤ u ∧ u + bytes ≤ RUM_USER_END ∧
     ∀ a, u ≤ a < u + bytes → private_table_valid kernel space (index_of a) s = true ∧
       ∃ e, user_entry space a s = Some e ∧ Z.land (word s e) (Z.lor PRESENT USER) = Z.lor PRESENT USER ∧
         paging_translate kernel space a s = Some (user_physical space a s)).
Definition writable_range space (u bytes : Z) s : Prop :=
  readable space u bytes s ∧
  ∀ a e, u ≤ a < u + bytes → user_entry space a s = Some e → has (word s e) PAGING_WRITABLE = true.

Lemma lor_frame e v : Z.lor (Z.land e FRAME_MASK) (Z.land v (PAGE_SIZE - 1)) = Z.land e FRAME_MASK + Z.land v (PAGE_SIZE - 1).
Proof.
  rewrite Z.add_nocarry_lxor, Z.lxor_lor; [done|..];
    (rewrite (Z.land_comm v), Z.land_assoc, <- (Z.land_assoc e); change (Z.land FRAME_MASK (PAGE_SIZE - 1)) with 0; by rewrite Z.land_0_r).
Qed.
Lemma has_land e m : 0 < m → Z.land e m = m → ∀ b, 0 ≤ b → Z.testbit m b = true → Z.testbit e b = true.
Proof. intros Hm E b Hb Ht. rewrite <- E, Z.land_spec in Ht. by apply andb_true_iff in Ht as [? _]. Qed.
Lemma has_present e m : Z.land e m = m → Z.testbit m 0 = true → has e PRESENT = true.
Proof.
  intros E Ht. unfold has. change PRESENT with (Z.shiftl 1 0). rewrite mask_testbit by lia.
  rewrite <- E, Z.land_spec in Ht. by apply andb_true_iff in Ht as [? _].
Qed.

Lemma user_entry_translate space a e s : known_space kernel space s = true → user_entry space a s = Some e →
  private_table_valid kernel space (index_of a) s = true ∧ Z.land (word s e) (Z.lor PRESENT USER) = Z.lor PRESENT USER ∧
  paging_translate kernel space a s = Some (user_physical space a s).
Proof.
  intros Hk He. unfold Paging.user_physical. rewrite He. unfold Paging.user_entry in He. cbn [default].
  destruct (private_table_valid kernel space (index_of a) s) eqn:Hv; cbn [negb] in He; [|done].
  destruct (Z.eqb_spec (Z.land (word s (table (directory_entry kernel space (index_of a) s) (slot_of a))) (Z.lor PRESENT USER)) (Z.lor PRESENT USER)) as [Ew|]; [|done].
  injection He as <-. split; [done|]. split; [done|]. unfold paging_translate. rewrite Hk. cbn [negb].
  unfold private_table_valid in Hv. rewrite !andb_true_iff, !Z.eqb_eq in Hv. destruct Hv as [_ Hd].
  rewrite (has_present _ _ Hd) by done. rewrite (has_present _ _ Ew) by done. by rewrite lor_frame.
Qed.

Lemma page_between u bytes a : u ≤ a < u + bytes → u / PAGE_SIZE ≤ a / PAGE_SIZE < (u + bytes - 1) / PAGE_SIZE + 1.
Proof.
  intros Ha. pose proof (Z.div_le_mono u a PAGE_SIZE ltac:(done) ltac:(lia)).
  pose proof (Z.div_le_mono a (u + bytes - 1) PAGE_SIZE ltac:(done) ltac:(lia)). lia.
Qed.
(** Some address of the range lies in each of its pages. *)
Lemma page_member u bytes p : 0 ≤ u → 0 < bytes → u / PAGE_SIZE ≤ p < (u + bytes - 1) / PAGE_SIZE + 1 →
  ∃ a, u ≤ a < u + bytes ∧ a / PAGE_SIZE = p.
Proof.
  unfold PAGE_SIZE. intros Hu Hb Hp. exists (Z.max u (p * 4096)).
  pose proof (Z.div_mod u 4096 ltac:(lia)). pose proof (Z.mod_pos_bound u 4096 ltac:(lia)).
  pose proof (Z.div_mod (u + bytes - 1) 4096 ltac:(lia)). pose proof (Z.mod_pos_bound (u + bytes - 1) 4096 ltac:(lia)).
  split; [nia|]. destruct (decide (u ≤ p * 4096)); [rewrite Z.max_r by lia; apply Z.div_mul; lia|]. rewrite Z.max_l by lia. nia.
Qed.

Definition entry_at space (w : bool) (a : Z) s : Prop :=
  ∃ e, user_entry space a s = Some e ∧ (w = true → has (word s e) PAGING_WRITABLE = true).
Lemma page_usable_spec space w a s : page_usable kernel space w (a / PAGE_SIZE * PAGE_SIZE) s = true ↔ entry_at space w a s.
Proof.
  unfold page_usable, entry_at. rewrite (user_entry_page space _ a) by (by rewrite Z.div_mul).
  destruct (user_entry space a s) as [e|]; [|split; [done|by intros (? & ? & _)]]. split.
  - intros Hw. exists e. split; [done|]. intros ->. by destruct (has _ _).
  - intros (e' & [= <-] & Hw). destruct w; [|done]. by rewrite Hw.
Qed.
Lemma user_bytes_pages space u bytes w s : 0 ≤ u → 0 ≤ bytes →
  user_bytes kernel space u bytes w s = true ↔
  known_space kernel space s = true ∧ space ≠ kernel ∧
  (bytes ≠ 0 → RUM_USER_BASE ≤ u ∧ u + bytes ≤ RUM_USER_END ∧ ∀ a, u ≤ a < u + bytes → entry_at space w a s).
Proof.
  intros Hu Hb. unfold user_bytes.
  destruct (known_space kernel space s); cbn [negb orb]; [|split; [done|by intros [? _]]].
  destruct (Z.eqb_spec space kernel) as [->|Hn]; [split; [done|by intros (_ & ? & _)]|].
  destruct (Z.eqb_spec bytes 0) as [->|Hne]; [by split|]. rewrite Z.gtb_ltb, Z.geb_leb.
  destruct (Z.ltb_spec u RUM_USER_BASE); cbn [orb]; [split; [done|]; intros (_ & _ & Hr); destruct (Hr Hne); lia|].
  destruct (Z.leb_spec RUM_USER_END u); cbn [orb]; [split; [done|]; intros (_ & _ & Hr); destruct (Hr Hne) as (_ & ? & _); lia|].
  destruct (Z.ltb_spec (RUM_USER_END - u) bytes); [split; [done|]; intros (_ & _ & Hr); destruct (Hr Hne) as (_ & ? & _); lia|].
  rewrite all_range_true. split.
  - intros Hall. split_and!; [done|done|]. intros _. split_and!; [lia|lia|]. intros a Ha. apply page_usable_spec, Hall. by apply page_between.
  - intros (_ & _ & Hr) p Hp. destruct (Hr Hne) as (_ & _ & Ha). destruct (page_member u bytes p Hu ltac:(lia) Hp) as (a & Hin & <-).
    apply page_usable_spec. by apply Ha.
Qed.
Lemma user_bytes_spec space u bytes w s : 0 ≤ u → 0 ≤ bytes →
  user_bytes kernel space u bytes w s = true ↔ if w then writable_range space u bytes s else readable space u bytes s.
Proof.
  intros Hu Hb. rewrite user_bytes_pages by done.
  assert (∀ w, (known_space kernel space s = true ∧ space ≠ kernel ∧ (bytes ≠ 0 → RUM_USER_BASE ≤ u ∧ u + bytes ≤ RUM_USER_END ∧
    ∀ a, u ≤ a < u + bytes → entry_at space w a s)) → readable space u bytes s) as Hread.
  { intros w' (Hk & Hn & Hr). split_and!; [done|done|]. intros Hne. destruct (Hr Hne) as (? & ? & Ha). split_and!; [done|done|].
    intros a Hin. destruct (Ha a Hin) as (e & He & _). destruct (user_entry_translate space a e s Hk He) as (? & ? & ?).
    split; [done|]. by exists e. }
  destruct w; split.
  - intros Hall. split; [by apply (Hread true)|]. destruct Hall as (_ & _ & Hr). intros a e Hin He.
    destruct (Hr ltac:(lia)) as (_ & _ & Ha). destruct (Ha a Hin) as (e' & He' & Hw). rewrite He in He'. injection He' as <-. by apply Hw.
  - intros [(Hk & Hn & Hr) Hw]. split_and!; [done|done|]. intros Hne. destruct (Hr Hne) as (? & ? & Ha). split_and!; [done|done|].
    intros a Hin. destruct (Ha a Hin) as (_ & e & He & _). exists e. split; [done|]. intros _. by apply (Hw a).
  - apply (Hread false).
  - intros (Hk & Hn & Hr). split_and!; [done|done|]. intros Hne. destruct (Hr Hne) as (? & ? & Ha). split_and!; [done|done|].
    intros a Hin. destruct (Ha a Hin) as (_ & e & He & _). by exists e.
Qed.

(** ** Strings *)

Definition user_byte space (a : Z) s : Z := byte_at s (user_physical space a s).
Lemma user_range_length space u n s : 0 ≤ n → Z.of_nat (List.length (user_range space u n s)) = n.
Proof. intros. unfold user_range. rewrite length_fmap, length_seqZ. lia. Qed.
Lemma user_range_get space u n s k : 0 ≤ k < n → user_range space u n s !! Z.to_nat k = Some (user_byte space (u + k) s).
Proof. intros Hk. unfold user_range. rewrite list_lookup_fmap, lookup_seqZ_lt by lia. cbn. rewrite Z2Nat.id by lia. done. Qed.
Lemma user_range_snoc space u n s : 0 ≤ n → user_range space u (n + 1) s = user_range space u n s ++ [user_byte space (u + n) s].
Proof. intros. unfold user_range. rewrite seqZ_app, fmap_app by lia. done. Qed.
Lemma user_range_take space u n m s : 0 ≤ n ≤ m → take (Z.to_nat n) (user_range space u m s) = user_range space u n s.
Proof.
  intros Hn. unfold user_range. replace m with (n + (m - n)) by lia. rewrite seqZ_app, fmap_app by lia.
  rewrite take_app_length'; [done|]. rewrite length_fmap, length_seqZ. done.
Qed.

(** What a scan that stopped after [r] bytes has seen. *)
Lemma string_loop_some fuel space src b s r : 0 ≤ b → string_loop kernel fuel space src b s = Some r →
  b ≤ r ≤ b + Z.of_nat fuel ∧ (b < r → RUM_USER_BASE ≤ src ∧ src + r ≤ RUM_USER_END) ∧
  (∀ k, b ≤ k < r → is_Some (user_entry space (src + k) s)) ∧ (∀ k, b ≤ k < r - 1 → user_byte space (src + k) s ≠ 0).
Proof.
  revert b; induction fuel as [|fuel IH]; intros b Hb; cbn [string_loop].
  { intros [= <-]. split_and!; intros; lia. }
  rewrite Z.geb_leb, Z.gtb_ltb. destruct (_ || _) eqn:E; [done|]. rewrite !orb_false_iff in E.
  destruct (user_entry space (src + b) s) as [e|] eqn:He; [|done]. fold (user_byte space (src + b) s).
  destruct (Z.eqb_spec (user_byte space (src + b) s) 0) as [Ez|Ez].
  - intros [= <-]. split_and!; [lia..|intros; lia| |intros; lia]. intros k Hk. replace k with b by lia. by exists e.
  - intros Hr. destruct (IH (b + 1) ltac:(lia) Hr) as (H1 & H2 & H3 & H4). split_and!; [lia..|intros; lia| |].
    + intros k Hk. destruct (decide (k = b)) as [->|]; [by exists e|apply H3; lia].
    + intros k Hk. destruct (decide (k = b)) as [->|]; [done|apply H4; lia].
Qed.
Lemma string_loop_stops fuel space src b n s : 0 ≤ b ≤ n → n - b < Z.of_nat fuel → RUM_USER_BASE ≤ src → src + n < RUM_USER_END →
  (∀ k, b ≤ k ≤ n → is_Some (user_entry space (src + k) s)) → (∀ k, b ≤ k < n → user_byte space (src + k) s ≠ 0) →
  user_byte space (src + n) s = 0 → string_loop kernel fuel space src b s = Some (n + 1).
Proof.
  revert b; induction fuel as [|fuel IH]; intros b Hb Hf Hlo Hhi He Hne Hz; [lia|]. cbn [string_loop].
  rewrite Z.geb_leb, Z.gtb_ltb. rewrite (proj2 (Z.ltb_ge src RUM_USER_BASE)), (proj2 (Z.leb_gt RUM_USER_END src)), (proj2 (Z.ltb_ge (RUM_USER_END - src - 1) b)) by lia.
  cbn [orb]. destruct (He b ltac:(lia)) as [e ->]. fold (user_byte space (src + b) s). destruct (decide (b = n)) as [->|].
  - by rewrite Hz.
  - rewrite (proj2 (Z.eqb_neq _ _) (Hne b ltac:(lia))). apply IH; try done; try lia; intros; [apply He|apply Hne]; lia.
Qed.
End UserMemory.

(** C13: A copy from user memory is granted exactly when it is empty or the kernel gave a
    buffer, the handle is a registered private space, and every byte of the range lies
    in the user half in a present user page of a table that space owns; it then returns
    precisely the bytes that the page tables of that space translate the range to. *)
Theorem paging_copy_from_user_exact kernel space given source bytes s data : 0 ≤ source → 0 ≤ bytes →
  paging_copy_from_user kernel space given source bytes s = Some data ↔
  (bytes ≠ 0 → given = true) ∧ readable kernel space source bytes s ∧ data = user_range kernel space source bytes s.
Proof.
  intros Hs Hb. unfold paging_copy_from_user. pose proof (user_bytes_spec kernel space source bytes false s Hs Hb) as Hu. cbv iota in Hu.
  rewrite copy_in_loop_spec by lia. destruct (Z.eqb_spec bytes 0) as [E|Hne]; cbn [negb andb].
  - destruct (user_bytes _ _ _ _ _ _); split; [intros [= <-]; split_and!; [done|by apply Hu|done]|by intros (_ & _ & ->)|done|].
    intros (_ & Hr & _). apply Hu in Hr. done.
  - destruct given; cbn [negb]; [|split; [done|]; intros [Hg _]; by specialize (Hg Hne)].
    destruct (user_bytes _ _ _ _ _ _); split; [intros [= <-]; split_and!; [done|by apply Hu|done]|by intros (_ & _ & ->)|done|].
    intros (_ & Hr & _). apply Hu in Hr. done.
Qed.

(** A user string is copied exactly when the buffer exists, the space is a registered
    private one, and a NUL is reached within the capacity through readable user pages;
    the result is then the bytes before the first NUL, whatever lies beyond it. *)
Theorem paging_copy_string_exact kernel space given capacity source s str : 0 ≤ source → 0 ≤ capacity →
  paging_copy_string_from_user kernel space given capacity source s = Some str ↔
  given = true ∧ len str < capacity ∧ readable kernel space source (len str + 1) s ∧
  user_range kernel space source (len str + 1) s = str ++ [0] ∧ Forall (λ c, c ≠ 0) str.
Proof.
  intros Hs Hc. unfold paging_copy_string_from_user. split.
  - destruct given; cbn [negb orb]; [|done]. destruct (Z.eqb_spec capacity 0); [done|]. destruct (known_space kernel space s) eqn:Hk; cbn [negb orb]; [|done].
    destruct (Z.eqb_spec space kernel); [done|]. destruct (string_loop _ _ _ _ _ _) as [r|] eqn:El; [|done].
    destruct (string_loop_some kernel _ _ _ 0 _ _ ltac:(done) El) as (H1 & H2 & H3 & H4). rewrite Z.gtb_ltb.
    destruct (Z.eqb_spec r 0); cbn [orb]; [done|]. destruct (Z.ltb_spec capacity r); [done|]. fold (user_byte kernel space (source + (r - 1)) s).
    destruct (Z.eqb_spec (user_byte kernel space (source + (r - 1)) s) 0) as [Ez|]; cbn [negb]; [|done]. intros [= <-].
    rewrite copy_in_loop_spec, user_range_take by lia. rewrite user_range_length by lia. replace (r - 1 + 1) with r by lia.
    split_and!; [done|lia|..].
    + apply user_bytes_spec with (w := false); [done|lia|]. apply user_bytes_pages; [done|lia|]. split_and!; [done|done|]. intros _.
      destruct (H2 ltac:(lia)). split_and!; [lia|lia|]. intros a Ha. destruct (H3 (a - source) ltac:(lia)) as [e He]. exists e.
      replace (source + (a - source)) with a in He by lia. done.
    + replace r with (r - 1 + 1) at 1 by lia. by rewrite user_range_snoc, Ez by lia.
    + apply List.Forall_forall. intros c Hin%list_elem_of_In%list_elem_of_lookup. destruct Hin as [k Hk'].
      assert (k < Z.to_nat (r - 1))%nat as Hlt by (apply lookup_lt_Some in Hk'; pose proof (user_range_length kernel space source (r - 1) s ltac:(lia)); lia).
      pose proof (user_range_get kernel space source (r - 1) s (Z.of_nat k) ltac:(lia)) as Hg. rewrite Nat2Z.id, Hk' in Hg. injection Hg as ->.
      apply H4. lia.
  - intros (-> & Hlen & Hr & Hstr & Hne). cbn [negb orb]. destruct (Z.eqb_spec capacity 0); [lia|]. pose proof Hr as (Hk & Hn & Hr').
    rewrite Hk. cbn [negb orb]. destruct (Z.eqb_spec space kernel); [done|]. destruct (Hr' ltac:(lia)) as (Hlo & Hhi & Hpages).
    assert (∀ k x, (str ++ [0]) !! Z.to_nat k = Some x → 0 ≤ k ≤ len str → user_byte kernel space (source + k) s = x) as Hget.
    { intros k x Hx Hk'. rewrite <- Hstr in Hx. rewrite user_range_get in Hx by lia. by injection Hx. }
    assert (user_byte kernel space (source + len str) s = 0) as Hz.
    { apply Hget; [|lia]. rewrite Nat2Z.id, lookup_app_r by lia. by rewrite Nat.sub_diag. }
    rewrite (string_loop_stops kernel _ _ _ _ (len str)); [|lia|lia|done|lia| | |done].
    + rewrite Z.gtb_ltb. rewrite (proj2 (Z.eqb_neq (len str + 1) 0)), (proj2 (Z.ltb_ge capacity (len str + 1))) by lia. cbn [orb].
      replace (len str + 1 - 1) with (len str) by lia. fold (user_byte kernel space (source + len str) s). rewrite Hz. cbn [negb Z.eqb].
      rewrite copy_in_loop_spec by lia. rewrite Hstr. rewrite take_app_length' by lia. done.
    + intros k Hk'. destruct (Hpages (source + k) ltac:(lia)) as (_ & e & He & _). by exists e.
    + intros k Hk'. destruct (lookup_lt_is_Some_2 str (Z.to_nat k) ltac:(lia)) as [x Hx].
      rewrite (Hget k x); [|by apply lookup_app_l_Some|lia]. rewrite List.Forall_forall in Hne. apply Hne, list_elem_of_In, list_elem_of_lookup. by exists (Z.to_nat k).
Qed.

(** ** One private space with one page, for the witnesses *)

Module PagingSample.
Definition space : paging_space := PagingSpace 0x200000 1 1 {[0 := 1]}.
Definition state : paging :=
  Paging (PagingSpace 0x203000 0 0 ∅) [(7, space)] 1 true 1 demo_pool
    {[0x200000 + 4 * 512 := 0x201007; 0x201000 := 0x202007; 0x202000 := 0x6968]} 0 0x203000 0 false.
End PagingSample.

Lemma paging_copy_from_user_exact_witness :
  paging_copy_from_user 1 7 true 0x80000000 3 PagingSample.state = Some [104; 105; 0] ∧
  readable 1 7 0x80000000 3 PagingSample.state ∧ [104; 105; 0] = user_range 1 7 0x80000000 3 PagingSample.state.
Proof.
  assert (paging_copy_from_user 1 7 true 0x80000000 3 PagingSample.state = Some [104; 105; 0]) as E by (vm_compute; reflexivity).
  split; [exact E|]. apply (paging_copy_from_user_exact 1 7 true 0x80000000 3 PagingSample.state [104; 105; 0]); [done|done|exact E].
Defined.

Lemma paging_copy_string_exact_witness :
  paging_copy_string_from_user 1 7 true 16 0x80000000 PagingSample.state = Some [104; 105] ∧
  readable 1 7 0x80000000 3 PagingSample.state ∧ user_range 1 7 0x80000000 3 PagingSample.state = [104; 105; 0].
Proof.
  assert (paging_copy_string_from_user 1 7 true 16 0x80000000 PagingSample.state = Some [104; 105]) as E by (vm_compute; reflexivity).
  split; [exact E|].
  destruct (proj1 (paging_copy_string_exact 1 7 true 16 0x80000000 PagingSample.state [104; 105] ltac:(done) ltac:(done)) E) as (_ & _ & Hr & Hs & _).
  split; [exact Hr|exact Hs].
Defined.
