(* ===== verification/Spaces.v ===== *)
(** * The registry of address spaces under page-table updates (arch/i386/paging.c)

    Which operations of Paging.v keep the registered spaces and the active one, and what
    the others do to them: the facts the task registry builds on. *)

From S2P Require Import Prelude Pmm Paging.

(** ** The registry as a value

    The registered spaces, the active one and the switch that turned paging on: every
    update of page tables and frames keeps them. *)

Definition spaces (s : paging) : paging_space * list (Z * paging_space) * Z * bool := (kernel_space s, chain s, active_space s, enabled s).

Create HintDb spaces.
Lemma spaces_put_word a v s : spaces (put_word a v s) = spaces s.
Proof. done. Qed.
Lemma spaces_zero_frame a s : spaces (zero_frame a s) = spaces s.
Proof. unfold zero_frame. apply (for_range_pres (λ t, spaces t = spaces s)); [done|]. intros i t _ <-. done. Qed.
Lemma spaces_take_frame s : spaces (snd (take_frame s)) = spaces s.
Proof. unfold take_frame. by destruct (pmm_allocate_page _). Qed.
Lemma spaces_free_frame a s : spaces (free_frame a s) = spaces s.
Proof. unfold free_frame. destruct (pmm_free_page _ _) as [[] ?]; done. Qed.
#[export] Hint Rewrite spaces_put_word spaces_zero_frame spaces_free_frame spaces_take_frame : spaces.

Section Spaces.
Context (kernel : Z).

Lemma spaces_publish_kernel_entry i e s : spaces (publish_kernel_entry i e s) = spaces s.
Proof. unfold publish_kernel_entry. generalize (directories s). intros l. revert s. induction l as [|d l IH]; intros s; cbn; [done|]. by rewrite IH. Qed.
Lemma spaces_reclaim i s : spaces (reclaim_empty_kernel_table kernel i s) = spaces s.
Proof.
  unfold reclaim_empty_kernel_table. repeat case_match; try done. autorewrite with spaces.
  change (spaces (publish_kernel_entry i 0 s) = spaces s). apply spaces_publish_kernel_entry.
Qed.

Lemma spaces_map_loop n base i k s : spaces (snd (stack_map_loop kernel n base i k s)) = spaces s.
Proof.
  revert k s. induction n as [|n IH]; intros k s; cbn; [done|].
  pose proof (spaces_take_frame s) as E. destruct (take_frame s) as [f s1]. case_match; [done|].
  rewrite IH. autorewrite with spaces. done.
Qed.
Lemma spaces_undo_loop n base i s : spaces (stack_undo_loop kernel n base i s) = spaces s.
Proof. revert s. induction n as [|n IH]; intros s; cbn; [done|]. rewrite IH. by autorewrite with spaces. Qed.

Lemma spaces_stack_allocate slot s : spaces (snd (paging_kernel_stack_allocate kernel slot s)) = spaces s.
Proof.
  unfold paging_kernel_stack_allocate. destruct (if enabled s then _ else _) as [base|]; [|done]. cbv zeta.
  match goal with |- context [if ?b then (let '(_, _) := take_frame s in _) else _] => generalize b; intros start end.
  match goal with |- context [if start then ?x else ?y] =>
    assert (spaces (snd (if start then x else y)) = spaces s) as E; [|destruct (if start then x else y) as [[valid created] s1]] end.
  { case_match; [|done]. pose proof (spaces_take_frame s) as E. destruct (take_frame s) as [f s1]. case_match; [done|]. cbn [snd].
    rewrite spaces_publish_kernel_entry. by autorewrite with spaces. }
  cbn [snd] in E. match goal with |- context [if valid then ?x else (0, s1)] =>
    assert (spaces (snd (if valid then x else (0, s1))) = spaces s1) as E2; [|destruct (if valid then x else (0, s1)) as [mapped s2]] end.
  { case_match; [apply spaces_map_loop|done]. }
  cbn [snd] in E2. case_match; cbn [snd]; [by rewrite E2|]. case_match; rewrite ?spaces_reclaim, spaces_undo_loop, E2; done.
Qed.

Lemma spaces_stack_release slot s : spaces (snd (paging_kernel_stack_release kernel slot s)) = spaces s.
Proof.
  unfold paging_kernel_stack_release. destruct (if enabled s then _ else _) as [base|]; [|done]. case_match; [done|]. cbn [snd]. rewrite spaces_reclaim.
  apply (for_range_pres (λ t, spaces t = spaces s)); [done|]. intros i t _ <-. by autorewrite with spaces.
Qed.

(** ** What a client reads of it *)

Lemma known_space_same a s s' : spaces s' = spaces s → known_space kernel a s' = known_space kernel a s.
Proof. unfold known_space. intros [= _ -> _ ->]. done. Qed.
Lemma get_space_same a s s' : spaces s' = spaces s → get_space kernel a s' = get_space kernel a s.
Proof. unfold get_space. intros [= -> -> _ _]. done. Qed.
Lemma directory_address_same a s s' : spaces s' = spaces s → paging_directory_address kernel a s' = paging_directory_address kernel a s.
Proof. intros E. unfold paging_directory_address. by rewrite (known_space_same a s s' E), (get_space_same a s s' E). Qed.
Lemma active_space_same s s' : spaces s' = spaces s → paging_active_space s' = paging_active_space s.
Proof. unfold paging_active_space. intros [= _ _ -> ->]. done. Qed.

Lemma switch_space_spec a s : known_space kernel a s = true →
  ∃ s', paging_switch_space kernel a s = (true, s') ∧ kernel_space s' = kernel_space s ∧ chain s' = chain s ∧
        enabled s' = enabled s ∧ active_space s' = a ∧ halted s' = halted s.
Proof. intros E. unfold paging_switch_space. rewrite E. eexists. done. Qed.

(** A destroyed space leaves the chain, and nothing else changes in the registry. *)
Context (kfree : Z → paging → bool * paging) (kfree_spaces : ∀ a s, spaces (snd (kfree a s)) = spaces s).

Lemma space_destroy_spec a s s' : paging_space_destroy kernel kfree a s = (true, s') →
  a ≠ kernel ∧ kernel_space s' = kernel_space s ∧ active_space s' = active_space s ∧ enabled s' = enabled s ∧
  chain s' = List.filter (λ q, negb (fst q =? a)) (chain s).
Proof.
  unfold paging_space_destroy. destruct (_ && _) eqn:G; [|done]. destruct (destroy_checked _ _ _) as [[valid pages] tables]. case_match; [|done].
  match goal with |- context [free_frame ?d ?t] => assert (spaces (free_frame d t) = (kernel_space s, List.filter (λ q, negb (fst q =? a)) (chain s), active_space s, enabled s)) as E; [|revert E; generalize (free_frame d t)] end.
  { autorewrite with spaces. apply (for_range_pres (λ t, spaces t = _)); [done|]. intros i t _ IH. case_match; [|done].
    unfold release_table. autorewrite with spaces. apply (for_range_pres (λ t, spaces t = _)); [done|].
    intros j u _ IHu. case_match; [by autorewrite with spaces|done]. }
  intros t E. pose proof (kfree_spaces a t) as F. destruct (kfree a t) as [ok u]. cbn in F. rewrite E in F. intros [= <-].
  repeat rewrite andb_true_iff in G. destruct G as [[[[_ _] G] _] _]. split; [intros ->; rewrite Z.eqb_refl in G; done|].
  unfold spaces in F. case_match; cbn; naive_solver.
Qed.
Lemma space_destroy_fail a s s' : paging_space_destroy kernel kfree a s = (false, s') → s' = s.
Proof. unfold paging_space_destroy. case_match; [|by intros [= <-]]. destruct (destroy_checked _ _ _) as [[valid pages] tables]. case_match; [|by intros [= <-]]. destruct (kfree _ _). by intros [=]. Qed.

Lemma chain_filter_other (a b : Z) (c : list (Z * paging_space)) : a ≠ b →
  find_space b (List.filter (λ q, negb (fst q =? a)) c) = find_space b c ∧
  existsb (λ p, fst p =? b) (List.filter (λ q, negb (fst q =? a)) c) = existsb (λ p, fst p =? b) c.
Proof.
  intros N. unfold find_space. induction c as [|[k p] c [IH1 IH2]]; cbn; [done|].
  destruct (Z.eqb_spec k a) as [->|]; cbn.
  - rewrite (proj2 (Z.eqb_neq a b) N). cbn. done.
  - destruct (Z.eqb_spec k b); cbn; [done|]. done.
Qed.
End Spaces.

(** ** Updates of the user half

    What a client can tell of the registry: which spaces are registered, where their
    directories are, which one is active. *)

Section Directories.
Context (kernel : Z).
Implicit Types (s t : paging).

Record same_directories s t : Prop := {
  same_enabled : enabled t = enabled s;
  same_active : active_space t = active_space s;
  same_known : ∀ a, known_space kernel a t = known_space kernel a s;
  same_directory : ∀ a, directory_physical (get_space kernel a t) = directory_physical (get_space kernel a s)
}.
#[global] Instance same_directories_preorder : PreOrder same_directories.
Proof. split; [done|]. intros s t u [] []. constructor; congruence. Qed.
Lemma same_spaces s t : spaces t = spaces s → same_directories s t.
Proof.
  intros E. constructor; [| |intros a; by apply known_space_same|intros a; by rewrite (get_space_same kernel a s t E)]; unfold spaces in E; congruence.
Qed.
Lemma find_space_map a (p : paging_space) b (c : list (Z * paging_space)) :
  find_space b ((λ q, if fst q =? a then (fst q, p) else q) <$> c) = (if decide (b = a) then (λ _, p) <$> find_space b c else find_space b c) ∧
  existsb (λ q, fst q =? b) ((λ q, if fst q =? a then (fst q, p) else q) <$> c) = existsb (λ q, fst q =? b) c.
Proof.
  unfold find_space. induction c as [|[k q] c [IH1 IH2]]; cbn; [by case_decide|].
  destruct (Z.eqb_spec k a) as [->|]; cbn.
  - destruct (Z.eqb_spec a b) as [->|]; cbn; [by rewrite decide_True|done].
  - destruct (Z.eqb_spec k b) as [->|]; cbn; [by rewrite decide_False|done].
Qed.
Lemma put_space_directories a p s : directory_physical p = directory_physical (get_space kernel a s) → same_directories s (put_space kernel a p s).
Proof.
  intros E. unfold put_space. destruct (Z.eqb_spec a kernel) as [->|N].
  - constructor; try done. intros b. unfold get_space. destruct (Z.eqb_spec b kernel) as [->|]; [|done]. cbn. rewrite E. unfold get_space. by rewrite Z.eqb_refl.
  - constructor; try done; intros b; destruct (find_space_map a p b (chain s)) as [F X].
    + unfold known_space. cbn. by rewrite X.
    + unfold get_space. destruct (Z.eqb_spec b kernel); [done|]. cbn [chain set_chain]. rewrite F. case_decide as D; [|done]. subst b.
      unfold get_space in E. rewrite (proj2 (Z.eqb_neq a kernel) N) in E. by destruct (find_space a (chain s)).
Qed.
Lemma add_user_pages_directories a n s : same_directories s (add_user_pages kernel a n s).
Proof. unfold add_user_pages. by apply put_space_directories. Qed.
Lemma ensure_table_directories a i s : same_directories s (snd (ensure_user_table kernel a i s)).
Proof.
  unfold ensure_user_table. case_match; [done|]. pose proof (spaces_take_frame s) as E. destruct (take_frame s) as [f s1]. cbn [snd] in E. case_match; [by apply same_spaces|].
  cbn [snd]. match goal with |- context [put_space kernel a ?q ?u] => assert (spaces u = spaces s) as Eu by (by autorewrite with spaces); transitivity u; [by apply same_spaces|] end.
  by apply put_space_directories.
Qed.
Lemma user_map_directories n a v flags k s : same_directories s (snd (user_map_loop kernel n a v flags k s)).
Proof.
  revert k s. induction n as [|n IH]; intros k s; cbn [user_map_loop]; [done|]. cbv zeta. pose proof (ensure_table_directories a (index_of (v + k * PAGE_SIZE)) s) as H.
  destruct (ensure_user_table _ _ _ _) as [ok s1]. cbn [snd] in H. etransitivity; [exact H|]. case_match; [done|].
  pose proof (spaces_take_frame s1) as E. destruct (take_frame s1) as [f s2]. cbn [snd] in E. case_match; [by apply same_spaces|]. etransitivity; [|apply IH].
  match goal with |- context [add_user_pages kernel a 1 ?u] => assert (spaces u = spaces s1) as Eu by (by autorewrite with spaces); transitivity u; [by apply same_spaces|] end.
  apply add_user_pages_directories.
Qed.
Lemma drop_page_directories a v s : same_directories s (drop_user_page kernel a v s).
Proof.
  unfold drop_user_page. case_match; [|done]. etransitivity; [|apply add_user_pages_directories]. apply same_spaces. by autorewrite with spaces.
Qed.
Lemma reclaim_table_directories a i s : same_directories s (reclaim_user_table kernel a i s).
Proof.
  unfold reclaim_user_table. cbv zeta. do 2 (case_match; [done|]).
  match goal with |- context [put_space kernel a ?q ?u] => transitivity (put_space kernel a q u) end; [|apply same_spaces; by autorewrite with spaces].
  etransitivity; [|by apply put_space_directories]. by apply same_spaces.
Qed.
Lemma user_allocate_directories a v n flags s : same_directories s (snd (paging_user_allocate kernel a v n flags s)).
Proof.
  unfold paging_user_allocate. case_match; [done|]. cbv zeta. generalize (known_space kernel a s && negb (a =? kernel) && (user_pages (get_space kernel a s) <=? USER_PAGE_LIMIT) &&
    (n <=? USER_PAGE_LIMIT - user_pages (get_space kernel a s)) && all_range 0 n (λ i, slot_available kernel a (v + i * PAGE_SIZE) s)). intros valid.
  set (m := if valid then _ else _). assert (same_directories s (snd m)) as Hm by (unfold m; case_match; [apply user_map_directories|done]).
  destruct m as [mapped s1]. cbn [snd] in Hm. case_match; [done|]. cbn [snd].
  match goal with |- context [for_range 0 mapped ?f s1] => assert (same_directories s (for_range 0 mapped f s1)) as H2; [|revert H2; generalize (for_range 0 mapped f s1)] end.
  { apply (for_range_pres (same_directories s)); [done|]. intros i t _ Ht. etransitivity; [exact Ht|apply drop_page_directories]. }
  intros t Ht. case_match; [|done]. unfold reclaim_empty_user_tables. apply (for_range_pres (same_directories s)); [done|].
  intros i u _ Hu. etransitivity; [exact Hu|apply reclaim_table_directories].
Qed.
Lemma spaces_store_bytes p l s : spaces (store_bytes p l s) = spaces s.
Proof.
  unfold store_bytes. assert (∀ t a, spaces t = spaces s → spaces (fst (foldl (λ '(s, a) x, (put_byte a x s, a + 1)) (t, a) l)) = spaces s) as H; [|by apply H].
  induction l as [|x l IH]; intros t a E; [done|]. cbn [foldl]. apply IH. unfold put_byte. by rewrite spaces_put_word.
Qed.
Lemma spaces_copy_to_user a d src n s : spaces (snd (paging_copy_to_user kernel a d src n s)) = spaces s.
Proof.
  unfold paging_copy_to_user. destruct (_ && _); [done|]. destruct (user_bytes _ _ _ _ _ _); [|done]. cbv zeta. cbn [snd].
  assert (∀ k u l t, spaces (copy_out_loop kernel k a u l t) = spaces t) as H; [|apply H].
  induction k as [|k IH]; intros u l t; cbn [copy_out_loop]; [done|]. cbv zeta. case_match; [done|]. rewrite IH. apply spaces_store_bytes.
Qed.
Lemma spaces_user_protect a v n flags s : spaces (snd (paging_user_protect kernel a v n flags s)) = spaces s.
Proof.
  unfold paging_user_protect. case_match; [done|]. case_match; [|done]. cbn [snd]. apply (for_range_pres (λ t, spaces t = spaces s)); [done|].
  intros i t _ <-. unfold protect_page. by case_match.
Qed.
End Directories.
