(* ===== verification/Session.v ===== *)
(** * Console sessions (kernel/process/session.c)

    Which process owns the console: sessions, their root and owner, the return
    links a foreground launch leaves behind, and the reference counts that keep a
    process record alive while a session still points at it. *)

From S2P Require Import Prelude.

(** ** State

    A [struct console_member] is embedded in each of the task registry's process
    records, so a pointer to one is the index of its record; sessions are indexed by
    their position in [sessions]. [None] is NULL, and an absent index is a zeroed
    record. *)

Definition CONSOLE_SESSIONS : Z := 16.
Definition CONSOLE_RECORDS : Z := 18.

Record console_member := Member {
  session : option Z; restore : option Z; member_id : Z; references : Z;
  live : bool; cancelled : bool; shell : bool; command : bool; foreground_launch : bool
}.
Definition no_member : console_member := Member None None 0 0 false false false false false.
Record console_session := Session {
  session_references : Z; closing : bool; exit_requested : bool; exit_status : Z;
  root : option Z; owner : option Z; session_members : gmap Z Z
}.
Definition no_session : console_session := Session 0 false false 0 None None ∅.
Record console := Console {
  console_members : gmap Z console_member; sessions : gmap Z console_session; active : option Z
}.
Definition no_console : console := Console ∅ ∅ None.

Definition get_member (c : console) (m : Z) : console_member := default no_member (console_members c !! m).
Definition get_session (c : console) (i : Z) : console_session := default no_session (sessions c !! i).
Definition put_member (m : Z) (x : console_member) (c : console) : console :=
  Console (<[m := x]> (console_members c)) (sessions c) (active c).
Definition put_session (i : Z) (x : console_session) (c : console) : console :=
  Console (console_members c) (<[i := x]> (sessions c)) (active c).
Definition set_active (a : option Z) (c : console) : console := Console (console_members c) (sessions c) a.

Definition set_restore (r : option Z) (x : console_member) : console_member :=
  Member (session x) r (member_id x) (references x) (live x) (cancelled x) (shell x) (command x) (foreground_launch x).
Definition set_references (n : Z) (x : console_member) : console_member :=
  Member (session x) (restore x) (member_id x) n (live x) (cancelled x) (shell x) (command x) (foreground_launch x).
Definition set_live (b : bool) (x : console_member) : console_member :=
  Member (session x) (restore x) (member_id x) (references x) b (cancelled x) (shell x) (command x) (foreground_launch x).
Definition set_cancelled (b : bool) (x : console_member) : console_member :=
  Member (session x) (restore x) (member_id x) (references x) (live x) b (shell x) (command x) (foreground_launch x).
Definition set_shell (b : bool) (x : console_member) : console_member :=
  Member (session x) (restore x) (member_id x) (references x) (live x) (cancelled x) b (command x) (foreground_launch x).
Definition set_command (b : bool) (x : console_member) : console_member :=
  Member (session x) (restore x) (member_id x) (references x) (live x) (cancelled x) (shell x) b (foreground_launch x).
Definition set_foreground_launch (b : bool) (x : console_member) : console_member :=
  Member (session x) (restore x) (member_id x) (references x) (live x) (cancelled x) (shell x) (command x) b.
Definition set_session_references (n : Z) (x : console_session) : console_session :=
  Session n (closing x) (exit_requested x) (exit_status x) (root x) (owner x) (session_members x).
Definition set_closing (b : bool) (x : console_session) : console_session :=
  Session (session_references x) b (exit_requested x) (exit_status x) (root x) (owner x) (session_members x).
Definition set_exit (st : Z) (x : console_session) : console_session :=
  Session (session_references x) (closing x) true st (root x) (owner x) (session_members x).
Definition set_root (r : option Z) (x : console_session) : console_session :=
  Session (session_references x) (closing x) (exit_requested x) (exit_status x) r (owner x) (session_members x).
Definition set_owner (o : option Z) (x : console_session) : console_session :=
  Session (session_references x) (closing x) (exit_requested x) (exit_status x) (root x) o (session_members x).
Definition set_members (l : gmap Z Z) (x : console_session) : console_session :=
  Session (session_references x) (closing x) (exit_requested x) (exit_status x) (root x) (owner x) l.

Definition upd_member (m : Z) (f : console_member → console_member) (c : console) : console := put_member m (f (get_member c m)) c.
Definition upd_session (i : Z) (f : console_session → console_session) (c : console) : console := put_session i (f (get_session c i)) c.
(** [p->references += d] for a member that may be NULL, and for a session. *)
Definition bump (p : option Z) (d : Z) (c : console) : console :=
  match p with Some m => upd_member m (λ x, set_references (wrap32 (references x + d)) x) c | None => c end.
Definition bump_session (i d : Z) (c : console) : console :=
  upd_session i (λ x, set_session_references (wrap32 (session_references x + d)) x) c.

Definition ptr_is (p : option Z) (m : Z) : bool := bool_decide (p = Some m).

(** ** Operations *)

Definition available (c : console) : option Z :=
  List.find (λ i, session_references (get_session c i) =? 0) (seqZ 0 CONSOLE_SESSIONS).

Definition owns (c : console) (p : option Z) : bool :=
  match p with
  | None => false
  | Some m =>
      let x := get_member c m in
      live x && negb (cancelled x) &&
      match session x with
      | None => false
      | Some i => ptr_is (active c) i && negb (closing (get_session c i)) && ptr_is (owner (get_session c i)) m
      end
  end.

(** [owner(session, next)] *)
Definition pass_owner (i : Z) (next : option Z) (c : console) : console :=
  let c := bump (owner (get_session c i)) (-1) c in
  let c := upd_session i (set_owner next) c in
  bump next 1 c.

Definition release_return (m : Z) (c : console) : console :=
  let c := bump (restore (get_member c m)) (-1) c in
  upd_member m (set_restore None) c.

(** [for (i = 0; candidate && i < RUM_PROCESS_LIMIT; ++i)] *)
Fixpoint previous_loop (fuel : nat) (c : console) (s : option Z) (candidate : option Z) : option Z :=
  match fuel, candidate with
  | S fuel, Some r =>
      let x := get_member c r in
      if live x && negb (cancelled x) && bool_decide (session x = s) then Some r
      else previous_loop fuel c s (restore x)
  | _, _ => None
  end.
Definition previous (c : console) (m : Z) : option Z :=
  previous_loop (Z.to_nat CONSOLE_SESSIONS) c (session (get_member c m)) (restore (get_member c m)).

(** [while (i < RUM_PROCESS_LIMIT && session->members[i]) ++i] *)
Definition free_place (l : gmap Z Z) : option Z :=
  List.find (λ k, negb (bool_decide (is_Some (l !! k)))) (seqZ 0 CONSOLE_SESSIONS).

Definition console_can_launch (c : console) (parent : option Z) (foreground : bool) : bool :=
  let valid :=
    match parent with
    | Some p =>
        live (get_member c p) && negb (cancelled (get_member c p)) &&
        match session (get_member c p) with Some i => negb (closing (get_session c i)) | None => true end &&
        (negb foreground || owns c (Some p))
    | None => negb foreground || (negb (bool_decide (is_Some (active c))) && bool_decide (is_Some (available c)))
    end in
  match valid, parent ≫= (λ p, session (get_member c p)) with
  | true, Some i => bool_decide (is_Some (free_place (session_members (get_session c i))))
  | _, _ => valid
  end.

Definition console_attach (member : option Z) (id : Z) (parent : option Z) (foreground : bool) (c : console) : bool * console :=
  match member with
  | None => (false, c)
  | Some m =>
      if id =? 0 then (false, c) else
      let x := get_member c m in
      if live x || bool_decide (is_Some (session x)) || negb (references x =? 0) || negb (console_can_launch c parent foreground)
      then (false, c) else
      let s := match parent with Some p => session (get_member c p) | None => if foreground then available c else None end in
      let fresh := Member s None id 0 true false false false foreground in
      match s with
      | None => (true, put_member m fresh c)
      | Some i =>
          match free_place (session_members (get_session c i)) with
          | None => (false, c)
          | Some k =>
              let c := put_member m fresh c in
              let c := upd_session i (λ x, set_members (<[k := m]> (session_members x)) x) c in
              let c := bump_session i 1 c in
              let c :=
                if foreground then
                  match parent with
                  | Some p => bump (Some p) 1 (upd_member m (set_restore (Some p)) c)
                  | None =>
                      let c := bump_session i 1 (set_active (Some i) c) in
                      bump (Some m) 1 (upd_session i (set_root (Some m)) c)
                  end
                else c in
              (true, if foreground then pass_owner i (Some m) c else c)
          end
      end
  end.

(** [member->session->root == member] for a member with a session. *)
Definition roots (c : console) (m : Z) : bool :=
  match session (get_member c m) with Some i => ptr_is (root (get_session c i)) m | None => false end.

Definition console_mark_shell (p : option Z) (c : console) : bool * console :=
  match p with
  | Some m => if owns c p && roots c m && negb (shell (get_member c m)) then (true, upd_member m (set_shell true) c) else (false, c)
  | None => (false, c)
  end.
Definition console_is_shell (c : console) (p : option Z) : bool :=
  match p with
  | None => false
  | Some m =>
      let x := get_member c m in
      live x && shell x &&
      match session x with Some i => negb (closing (get_session c i)) && ptr_is (root (get_session c i)) m | None => false end
  end.
Definition console_owns_input (c : console) (p : option Z) : bool := owns c p.

Definition console_grant_command (shell_ child : option Z) (c : console) : bool * console :=
  match shell_, active c, child with
  | Some sh, Some a, Some m =>
      let x := get_member c m in
      if console_is_shell c shell_ && live x && ptr_is (session x) a && negb (closing (get_session c a)) && ptr_is (owner (get_session c a)) m &&
         bool_decide (session x = session (get_member c sh)) && ptr_is (restore x) sh && negb (command x)
      then (true, upd_member m (set_command true) c) else (false, c)
  | _, _, _ => (false, c)
  end.
Definition console_command_shell (c : console) (p : option Z) : option Z :=
  match p with
  | None => None
  | Some m =>
      let x := get_member c m in
      let sh := if owns c p && command x then session x ≫= (λ i, root (get_session c i)) else None in
      if negb (console_is_shell c sh) || negb (bool_decide (restore x = sh)) then None else sh
  end.
Definition console_same_session (c : console) (first second : option Z) : bool :=
  match first, second with
  | Some m, Some n => bool_decide (is_Some (session (get_member c m))) && bool_decide (session (get_member c m) = session (get_member c n))
  | _, _ => false
  end.
Definition console_is_root (c : console) (p : option Z) : bool :=
  match p with Some m => roots c m | None => false end.

Definition console_cancellation_target (c : console) : Z :=
  match active c with
  | None => 0
  | Some a =>
      match (if closing (get_session c a) then None else owner (get_session c a)) with
      | Some m => if live (get_member c m) && negb (shell (get_member c m)) then member_id (get_member c m) else 0
      | None => 0
      end
  end.
Definition console_cancel_member (p : option Z) (c : console) : console :=
  match p with Some m => upd_member m (set_cancelled true) c | None => c end.

(** The return links and command rights of every member of a closing session. *)
Definition close_place (i k : Z) (c : console) : console :=
  match session_members (get_session c i) !! k with
  | Some n => upd_member n (set_command false) (release_return n c)
  | None => c
  end.
Definition close_members (i : Z) (c : console) : console := for_range 0 CONSOLE_SESSIONS (close_place i) c.

(** Whether [m] is on the owner's chain of return links. *)
Fixpoint returning_loop (fuel : nat) (c : console) (m : Z) (link : option Z) : bool :=
  match fuel, link with
  | S fuel, Some l => bool_decide (l = m) || returning_loop fuel c m (restore (get_member c l))
  | _, _ => false
  end.
(** Returns to the exiting member become returns to where it would have returned. *)
Definition relink_place (i m k : Z) (c : console) : console :=
  match session_members (get_session c i) !! k with
  | Some n =>
      if ptr_is (restore (get_member c n)) m then
        let c := release_return n c in
        let r := restore (get_member c m) in
        bump r 1 (upd_member n (set_restore r) c)
      else c
  | None => c
  end.
Definition relink_members (i m : Z) (c : console) : console := for_range 0 CONSOLE_SESSIONS (relink_place i m) c.

Definition close_session (i m : Z) (c : console) : console :=
  let c := upd_session i (set_closing true) c in
  let c := close_members i c in
  let c := pass_owner i None c in
  let c := bump (Some m) (-1) c in
  let c := upd_session i (set_root None) c in
  if ptr_is (active c) i then bump_session i (-1) (set_active None c) else c.
Definition leave_session (i m : Z) (c : console) : console :=
  let own := owner (get_session c i) in
  let returning := ptr_is own m || returning_loop (Z.to_nat CONSOLE_SESSIONS) c m own in
  let c := relink_members i m c in
  match owner (get_session c i) with
  | Some o => if returning && (bool_decide (o = m) || cancelled (get_member c o)) then pass_owner i (previous c o) c else c
  | None => c
  end.
(** Whether pending input of a shell is to be discarded. *)
Definition console_member_exit (p : option Z) (c : console) : bool * console :=
  match p with
  | None => (false, c)
  | Some m =>
      if negb (live (get_member c m)) then (false, c) else
      let s := session (get_member c m) in
      let c := upd_member m (λ x, set_command false (set_live false x)) c in
      let '(discard, c) :=
        match s with
        | None => (false, c)
        | Some i =>
            if ptr_is (root (get_session c i)) m then (shell (get_member c m), close_session i m c)
            else if closing (get_session c i) then (false, c)
            else (false, leave_session i m c)
        end in
      (discard, release_return m c)
  end.

(** [while (i < RUM_PROCESS_LIMIT && session->members[i] != member) ++i] *)
Definition place_of (l : gmap Z Z) (m : Z) : option Z := List.find (λ k, ptr_is (l !! k) m) (seqZ 0 CONSOLE_SESSIONS).
Definition console_detach (p : option Z) (c : console) : bool * console :=
  match p with
  | None => (false, c)
  | Some m =>
      let x := get_member c m in
      if live x || negb (references x =? 0) || bool_decide (is_Some (restore x)) then (false, c) else
      match session x with
      | None => (true, put_member m no_member c)
      | Some i =>
          match place_of (session_members (get_session c i)) m with
          | None => (false, c)
          | Some k =>
              let c := upd_session i (λ x, set_members (delete k (session_members x)) x) c in
              let c := bump_session i (-1) c in
              let c := if session_references (get_session c i) =? 0 then put_session i no_session c else c in
              (true, put_member m no_member c)
          end
      end
  end.

Definition console_request_exit (p : option Z) (status : Z) (c : console) : bool * console :=
  match p ≫= (λ m, session (get_member c m)) with
  | Some i => if bool_decide (is_Some (console_command_shell c p)) then (true, upd_session i (set_exit status) c) else (false, c)
  | None => (false, c)
  end.
(** The status, when an exit was requested and the caller gave a place for it. *)
Definition console_exit_requested (c : console) (p : option Z) (given : bool) : option Z :=
  if negb given then None else
  match p ≫= (λ m, session (get_member c m)) with
  | Some i => if console_is_shell c p && exit_requested (get_session c i) then Some (exit_status (get_session c i)) else None
  | None => None
  end.

Record console_statistics := ConsoleStatistics {
  stat_sessions : Z; stat_closing : Z; stat_members : Z; stat_session_references : Z;
  stat_process_references : Z; stat_owner : Z; stat_shell : Z
}.
Definition used_session (c : console) (i : Z) : bool := negb (session_references (get_session c i) =? 0).
Definition console_stats (c : console) : console_statistics :=
  let over (f : Z → Z) := sum_range 0 CONSOLE_SESSIONS (λ i, if used_session c i then f i else 0) in
  let places (i : Z) (f : Z → Z) :=
    sum_range 0 CONSOLE_SESSIONS (λ k, match session_members (get_session c i) !! k with Some m => f m | None => 0 end) in
  ConsoleStatistics
    (over (λ _, 1)) (over (λ i, Z.b2z (closing (get_session c i)))) (over (λ i, places i (λ _, 1)))
    (wrap32 (over (λ i, session_references (get_session c i))))
    (wrap32 (over (λ i, places i (λ m, references (get_member c m)))))
    (match active c with
     | Some a => match owner (get_session c a) with Some m => member_id (get_member c m) | None => 0 end
     | None => 0
     end)
    (match active c with
     | Some a => match root (get_session c a) with Some m => if shell (get_member c m) then member_id (get_member c m) else 0 | None => 0 end
     | None => 0
     end).

(** ** The invariant

    Stated over the records as functions of their index: places and memberships
    agree, a session's root, owner and return links are live members of it, return
    links lead to its root without cycles, a closing session has none of them, and an
    uncancelled root guarantees an owner. *)

Definition linked (x : console_member) (s : console_session) (m : Z) : Prop := is_Some (restore x) ∨ root s = Some m.

Section Invariant.
Context (M : Z → console_member) (S : Z → console_session) (A : option Z).

Record console_ok : Prop := {
  ok_member_range : ∀ m, live (M m) = true ∨ is_Some (session (M m)) → 0 ≤ m < CONSOLE_RECORDS;
  ok_place : ∀ i k m, session_members (S i) !! k = Some m → 0 ≤ i < CONSOLE_SESSIONS ∧ 0 ≤ k < CONSOLE_SESSIONS ∧ session (M m) = Some i;
  ok_placed : ∀ i m, session (M m) = Some i → ∃ k, session_members (S i) !! k = Some m;
  ok_once : ∀ i k k' m, session_members (S i) !! k = Some m → session_members (S i) !! k' = Some m → k = k';
  ok_root : ∀ i m, root (S i) = Some m →
    session (M m) = Some i ∧ live (M m) = true ∧ restore (M m) = None ∧ closing (S i) = false ∧ A = Some i;
  ok_owner : ∀ i m, owner (S i) = Some m → session (M m) = Some i ∧ live (M m) = true ∧ linked (M m) (S i) m ∧ closing (S i) = false;
  ok_restore : ∀ m r, restore (M m) = Some r → ∃ i, session (M m) = Some i ∧ session (M r) = Some i ∧
    live (M m) = true ∧ live (M r) = true ∧ linked (M r) (S i) r ∧ closing (S i) = false;
  ok_active : ∀ i, A = Some i → is_Some (root (S i));
  ok_open : ∀ i m, session (M m) = Some i → closing (S i) = false → is_Some (root (S i));
  ok_empty : ∀ i, session_members (S i) = ∅ → S i = set_session_references (session_references (S i)) no_session;
  ok_shell : ∀ m, live (M m) = true → shell (M m) = true → ∃ i, session (M m) = Some i ∧ root (S i) = Some m;
  ok_owned : ∀ i r, root (S i) = Some r → cancelled (M r) = false → is_Some (owner (S i));
  ok_ranked : ∃ rank : Z → nat, ∀ m r, restore (M m) = Some r → (rank r < rank m)%nat
}.
End Invariant.

(** What the links that point at a record, and the places a session has given out,
    add up to. *)
Definition points_at (p : option Z) (m : Z) : Z := Z.b2z (ptr_is p m).
Definition links_to (c : console) (m : Z) : Z :=
  sum_range 0 CONSOLE_SESSIONS (λ i, points_at (owner (get_session c i)) m + points_at (root (get_session c i)) m) +
  sum_range 0 CONSOLE_RECORDS (λ n, points_at (restore (get_member c n)) m).
Definition places_in (c : console) (i : Z) : Z :=
  sum_range 0 CONSOLE_SESSIONS (λ k, Z.b2z (bool_decide (is_Some (session_members (get_session c i) !! k)))) + points_at (active c) i.
(** The counters agree with the links, at their width. *)
Definition member_surplus (c : console) (m : Z) : Z := references (get_member c m) - links_to c m.
Definition session_surplus (c : console) (i : Z) : Z := session_references (get_session c i) - places_in c i.
Definition members_counted (c : console) : Prop := ∀ m, wrap32 (member_surplus c m) = 0.
Definition sessions_counted (c : console) : Prop := ∀ i, wrap32 (session_surplus c i) = 0.

Definition console_wf (c : console) : Prop :=
  console_ok (get_member c) (get_session c) (active c) ∧ members_counted c ∧ sessions_counted c.

(** ** Reading after writing *)

Lemma get_put_member c m x n : get_member (put_member m x c) n = if decide (n = m) then x else get_member c n.
Proof. unfold get_member, put_member. cbn. destruct (decide (n = m)) as [->|]; [by rewrite lookup_insert_eq|by rewrite lookup_insert_ne by done]. Qed.
Lemma get_put_session c i x j : get_session (put_session i x c) j = if decide (j = i) then x else get_session c j.
Proof. unfold get_session, put_session. cbn. destruct (decide (j = i)) as [->|]; [by rewrite lookup_insert_eq|by rewrite lookup_insert_ne by done]. Qed.
Lemma get_member_put_session c i x n : get_member (put_session i x c) n = get_member c n.
Proof. done. Qed.
Lemma get_session_put_member c m x j : get_session (put_member m x c) j = get_session c j.
Proof. done. Qed.

(** ** Counting *)

(** Congruence modulo the width of the counters. *)
Definition eq32 (a b : Z) : Prop := wrap32 a = wrap32 b.
#[global] Instance eq32_equiv : Equivalence eq32.
Proof. split; [by intros x|by intros x y|]. intros x y z Hxy Hyz. unfold eq32 in *. congruence. Qed.
#[global] Instance eq32_add : Proper (eq32 ==> eq32 ==> eq32) Z.add.
Proof. intros a b Hab x y Hxy. unfold eq32, wrap32 in *. by rewrite Zplus_mod, Hab, Hxy, <- Zplus_mod. Qed.
#[global] Instance eq32_sub : Proper (eq32 ==> eq32 ==> eq32) Z.sub.
Proof. intros a b Hab x y Hxy. unfold eq32, wrap32 in *. by rewrite Zminus_mod, Hab, Hxy, <- Zminus_mod. Qed.
Lemma eq32_wrap a : eq32 (wrap32 a) a.
Proof. unfold eq32, wrap32. by rewrite Z.mod_mod. Qed.
Lemma eq32_of a b : a = b → eq32 a b.
Proof. by intros ->. Qed.
Lemma wrap32_zero x : -UINT32_MAX ≤ x ≤ UINT32_MAX → wrap32 x = 0 → x = 0.
Proof. unfold wrap32, UINT32_MAX. intros Hx H. apply Z.mod_divide in H; [|done]. destruct H as [q Hq]. lia. Qed.
#[local] Opaque wrap32 sum_range.

Lemma surplus_bump p d c n : eq32 (member_surplus (bump p d c) n) (member_surplus c n + d * points_at p n).
Proof.
  unfold member_surplus. destruct p as [m|]; cbn [bump]; [|change (points_at None n) with 0; apply eq32_of; lia].
  replace (links_to (upd_member m (λ x, set_references (wrap32 (references x + d)) x) c) n) with (links_to c n).
  - unfold upd_member. rewrite get_put_member. unfold points_at, ptr_is. destruct (decide (n = m)) as [->|].
    + rewrite bool_decide_true by done. cbn [references set_references Z.b2z]. rewrite eq32_wrap. apply eq32_of. lia.
    + rewrite bool_decide_false by congruence. cbn [Z.b2z]. apply eq32_of. lia.
  - unfold links_to. f_equal. apply sum_range_ext. intros k _. unfold upd_member. rewrite get_put_member. by destruct (decide (k = m)) as [->|].
Qed.
Lemma surplus_restore m r c n : 0 ≤ m < CONSOLE_RECORDS →
  member_surplus (upd_member m (set_restore r) c) n = member_surplus c n + points_at (restore (get_member c m)) n - points_at r n.
Proof.
  intros Hm. unfold member_surplus, upd_member. rewrite get_put_member.
  replace (references (if decide (n = m) then set_restore r (get_member c m) else get_member c n)) with (references (get_member c n))
    by (by destruct (decide (n = m)) as [->|]).
  unfold links_to.
  rewrite (sum_range_point 0 CONSOLE_RECORDS m _ (λ k, points_at (restore (get_member c k)) n)); [|done|].
  - rewrite get_put_member, decide_True by done. cbn [restore set_restore]. change (get_session (put_member m (set_restore r (get_member c m)) c)) with (get_session c). lia.
  - intros k _ Hk. by rewrite get_put_member, decide_False.
Qed.
Lemma surplus_session i f c n : 0 ≤ i < CONSOLE_SESSIONS →
  member_surplus (upd_session i f c) n =
  member_surplus c n + (points_at (owner (get_session c i)) n + points_at (root (get_session c i)) n) -
    (points_at (owner (f (get_session c i))) n + points_at (root (f (get_session c i))) n).
Proof.
  intros Hi. unfold member_surplus, upd_session. rewrite get_member_put_session. unfold links_to.
  rewrite (sum_range_point 0 CONSOLE_SESSIONS i _ (λ j, points_at (owner (get_session c j)) n + points_at (root (get_session c j)) n)); [|done|].
  - rewrite get_put_session, decide_True by done. change (get_member (put_session i (f (get_session c i)) c)) with (get_member c). lia.
  - intros k _ Hk. by rewrite get_put_session, decide_False.
Qed.
(** Updates that touch neither links nor member counters. *)
Lemma surplus_member m f c n : (∀ x, restore (f x) = restore x ∧ references (f x) = references x) →
  member_surplus (upd_member m f c) n = member_surplus c n.
Proof.
  intros Hf. unfold member_surplus, links_to, upd_member.
  change (get_session (put_member m (f (get_member c m)) c)) with (get_session c).
  assert (∀ k, restore (get_member (put_member m (f (get_member c m)) c) k) = restore (get_member c k) ∧
    references (get_member (put_member m (f (get_member c m)) c) k) = references (get_member c k)) as He.
  { intros k. rewrite get_put_member. destruct (decide (k = m)) as [->|]; [apply Hf|done]. }
  rewrite (proj2 (He n)). do 2 f_equal. apply sum_range_ext. intros k _. by rewrite (proj1 (He k)).
Qed.

Lemma surplus_bump_session i d c j : eq32 (session_surplus (bump_session i d c) j) (session_surplus c j + d * Z.b2z (bool_decide (j = i))).
Proof.
  unfold session_surplus, bump_session, upd_session.
  replace (places_in (put_session i (set_session_references (wrap32 (session_references (get_session c i) + d)) (get_session c i)) c) j) with (places_in c j).
  - rewrite get_put_session. destruct (decide (j = i)) as [->|].
    + rewrite bool_decide_true by done. cbn [session_references set_session_references Z.b2z]. rewrite eq32_wrap. apply eq32_of. lia.
    + rewrite bool_decide_false by done. cbn [Z.b2z]. apply eq32_of. lia.
  - unfold places_in. cbn [active put_session]. f_equal. apply sum_range_ext. intros k _. rewrite get_put_session. by destruct (decide (j = i)) as [->|].
Qed.
Lemma surplus_session_same i f c j : (∀ x, session_references (f x) = session_references x ∧ session_members (f x) = session_members x) →
  session_surplus (upd_session i f c) j = session_surplus c j.
Proof.
  intros Hf. unfold session_surplus, places_in, upd_session. cbn [active put_session].
  rewrite get_put_session. destruct (decide (j = i)) as [->|]; [|done]. destruct (Hf (get_session c i)) as [-> Hm].
  do 2 f_equal. apply sum_range_ext. intros k _. by rewrite Hm.
Qed.
Lemma surplus_bump_members p d c j : session_surplus (bump p d c) j = session_surplus c j.
Proof. by destruct p. Qed.
Lemma surplus_bump_session_members i d c n : 0 ≤ i < CONSOLE_SESSIONS → member_surplus (bump_session i d c) n = member_surplus c n.
Proof. intros Hi. unfold bump_session. rewrite surplus_session by done. cbn [owner root set_session_references]. lia. Qed.

Lemma get_bump p d c n : get_member (bump p d c) n = set_references (references (get_member (bump p d c) n)) (get_member c n).
Proof.
  destruct p as [m|]; cbn [bump]; [|by destruct (get_member c n)]. unfold upd_member. rewrite get_put_member.
  destruct (decide (n = m)) as [->|]; by destruct (get_member _ _).
Qed.
Lemma get_session_bump p d c : get_session (bump p d c) = get_session c.
Proof. by destruct p. Qed.
Lemma active_bump p d c : active (bump p d c) = active c.
Proof. by destruct p. Qed.

Lemma pass_owner_surplus i next c n : 0 ≤ i < CONSOLE_SESSIONS → eq32 (member_surplus (pass_owner i next c) n) (member_surplus c n).
Proof.
  intros Hi. unfold pass_owner. rewrite surplus_bump, surplus_session, surplus_bump, get_session_bump by done. cbn [owner root set_owner].
  apply eq32_of. lia.
Qed.
Lemma restore_bump p d c m : restore (get_member (bump p d c) m) = restore (get_member c m).
Proof. rewrite get_bump. done. Qed.
Lemma release_return_surplus m c n : 0 ≤ m < CONSOLE_RECORDS → eq32 (member_surplus (release_return m c) n) (member_surplus c n).
Proof.
  intros Hm. unfold release_return. rewrite surplus_restore, surplus_bump, restore_bump by done. change (points_at None n) with 0.
  apply eq32_of. lia.
Qed.

(** ** Shapes: everything but the counters *)

Definition shape (x : console_member) : console_member := set_references 0 x.
Definition session_shape (x : console_session) : console_session := set_session_references 0 x.

Lemma session_shape_members x y : session_shape x = session_shape y → session_members x = session_members y.
Proof. intros [= H]. done. Qed.
Lemma session_shape_own x y : session_shape x = session_shape y → owner x = owner y.
Proof. intros [= H]. done. Qed.
Lemma session_shape_root x y : session_shape x = session_shape y → root x = root y.
Proof. intros [= H]. done. Qed.
Lemma session_shape_rooted o r x y n : session_shape x = session_shape y →
  session_shape (set_owner o (set_root r (set_session_references n x))) = session_shape (set_owner o (set_root r y)).
Proof. intros [= ]. unfold session_shape, set_owner, set_root, set_session_references. cbn. congruence. Qed.
Lemma session_shape_owner o x y : session_shape x = session_shape y → session_shape (set_owner o x) = session_shape (set_owner o y).
Proof. intros [= ]. unfold session_shape, set_owner, set_session_references. cbn. congruence. Qed.
Lemma shape_bump p d c n : shape (get_member (bump p d c) n) = shape (get_member c n).
Proof. by rewrite get_bump. Qed.
Lemma shape_session x y : shape x = shape y → session x = session y.
Proof. intros [= H]. done. Qed.
Lemma shape_restore x y : shape x = shape y → restore x = restore y.
Proof. intros [= H]. done. Qed.
Lemma shape_set_restore r x y : shape x = shape y → shape (set_restore r x) = shape (set_restore r y).
Proof. intros [= ]. unfold shape, set_restore, set_references. cbn. congruence. Qed.
Lemma shape_set_command b x y : shape x = shape y → shape (set_command b x) = shape (set_command b y).
Proof. intros [= ]. unfold shape, set_command, set_references. cbn. congruence. Qed.

Lemma shape_live x y : shape x = shape y → live x = live y.
Proof. intros [= H]. done. Qed.
Lemma shape_shell x y : shape x = shape y → shell x = shell y.
Proof. intros [= H]. done. Qed.
Lemma shape_cancelled x y : shape x = shape y → cancelled x = cancelled y.
Proof. intros [= H]. done. Qed.

(** Which members the first [k] places of a session hold. *)
Definition placed (l : gmap Z Z) (k n : Z) : bool := existsb (λ j, ptr_is (l !! j) n) (seqZ 0 k).
Lemma placed_snoc l k n : 0 ≤ k → placed l (k + 1) n = placed l k n || ptr_is (l !! k) n.
Proof. intros. unfold placed. rewrite seqZ_app, existsb_app by lia. f_equal.
  change (seqZ (0 + k) 1) with [0 + (0 + k)]. cbn [existsb]. by rewrite orb_false_r. Qed.
Lemma placed_spec l k n : placed l k n = true ↔ ∃ j, 0 ≤ j < k ∧ l !! j = Some n.
Proof.
  unfold placed. rewrite existsb_exists. split.
  - intros (j & Hj%list_elem_of_In%elem_of_seqZ & Hp%bool_decide_eq_true). exists j. split; [lia|done].
  - intros (j & Hj & Hl). exists j. split; [apply list_elem_of_In, elem_of_seqZ; lia|]. by apply bool_decide_eq_true.
Qed.

Lemma get_release_return m c n :
  shape (get_member (release_return m c) n) = shape (if decide (n = m) then set_restore None (get_member c n) else get_member c n).
Proof.
  unfold release_return, upd_member. rewrite get_put_member. destruct (decide (n = m)) as [->|]; [|apply shape_bump].
  apply shape_set_restore, shape_bump.
Qed.
Lemma release_return_sessions m c : get_session (release_return m c) = get_session c ∧ active (release_return m c) = active c.
Proof. unfold release_return, upd_member. cbn [active put_member]. rewrite active_bump. split; [|done]. apply (get_session_bump (restore (get_member c m))). Qed.

Section Loops.
Context (c : console) (i m : Z).
Let l := session_members (get_session c i).
Hypothesis places_range : ∀ k n, l !! k = Some n → 0 ≤ n < CONSOLE_RECORDS.

(** What a pass over the first [k] places has changed: the members they hold were
    rewritten by [f], and nothing else but counters. *)
Definition rewritten (f : console_member → console_member) (k : Z) (c' : console) : Prop :=
  (∀ n, shape (get_member c' n) = shape (if placed l k n then f (get_member c n) else get_member c n)) ∧
  get_session c' = get_session c ∧ active c' = active c ∧ ∀ n, eq32 (member_surplus c' n) (member_surplus c n).

Lemma rewritten_nil f : rewritten f 0 c.
Proof. split_and!; done. Qed.

Lemma close_members_spec : rewritten (λ x, set_command false (set_restore None x)) CONSOLE_SESSIONS (close_members i c).
Proof.
  unfold close_members. apply for_range_inv; [done|apply rewritten_nil|]. intros k t Hk (Hs & Hg & Ha & Hb).
  unfold close_place. rewrite Hg. fold l. destruct (l !! k) as [n0|] eqn:E; last first.
  { split_and!; [|done..]. intros n. rewrite placed_snoc, E by lia. cbn. by rewrite orb_false_r. }
  destruct (release_return_sessions n0 t) as [Hg' Ha']. split_and!; [| |by rewrite <- Ha|].
  - intros n. rewrite placed_snoc, E by lia. unfold upd_member. rewrite get_put_member. unfold ptr_is.
    destruct (decide (n = n0)) as [->|Hn].
    + rewrite bool_decide_true, orb_true_r by done. pose proof (get_release_return n0 t n0) as Hr. rewrite decide_True in Hr by done.
      rewrite (shape_set_restore None _ _ (Hs n0)) in Hr. rewrite (shape_set_command false _ _ Hr). by destruct (placed l k n0).
    + rewrite bool_decide_false, orb_false_r by congruence. by rewrite get_release_return, decide_False.
  - change (get_session (release_return n0 t) = get_session c). by rewrite Hg'.
  - intros n. rewrite surplus_member by done. rewrite release_return_surplus by (by eapply places_range). apply Hb.
Qed.

Definition return_past (x : console_member) : console_member :=
  if ptr_is (restore x) m then set_restore (restore (get_member c m)) x else x.
Lemma relink_members_spec : restore (get_member c m) ≠ Some m → rewritten return_past CONSOLE_SESSIONS (relink_members i m c).
Proof.
  intros Hself. unfold relink_members. apply for_range_inv; [done|apply rewritten_nil|]. intros k t Hk (Hs & Hg & Ha & Hb).
  assert (restore (get_member t m) = restore (get_member c m)) as Hm.
  { apply shape_restore. rewrite Hs. destruct (placed l k m); [|done]. unfold return_past, ptr_is. by rewrite bool_decide_false. }
  unfold relink_place. rewrite Hg. fold l. destruct (l !! k) as [n0|] eqn:E; last first.
  { split_and!; [|done..]. intros n. rewrite placed_snoc, E by lia. cbn. by rewrite orb_false_r. }
  assert (∀ n, n ≠ n0 → placed l (k + 1) n = placed l k n) as Hother.
  { intros n Hn. rewrite placed_snoc, E by lia. unfold ptr_is. rewrite bool_decide_false by congruence. apply orb_false_r. }
  assert (placed l (k + 1) n0 = true) as Hthis by (rewrite placed_snoc, E by lia; unfold ptr_is; rewrite bool_decide_true by done; apply orb_true_r).
  unfold ptr_is. destruct (bool_decide_reflect (restore (get_member t n0) = Some m)) as [Er|Er].
  - assert (n0 ≠ m) as Hne by congruence. destruct (release_return_sessions n0 t) as [Hg' Ha'].
    assert (restore (get_member (release_return n0 t) m) = restore (get_member c m)) as Hr.
    { rewrite <- Hm. apply shape_restore. rewrite get_release_return. by rewrite decide_False. }
    rewrite Hr. split_and!; [|rewrite get_session_bump; change (get_session (release_return n0 t) = get_session c); by rewrite Hg'
      |rewrite active_bump; by rewrite <- Ha|].
    + intros n. rewrite shape_bump. unfold upd_member. rewrite get_put_member. destruct (decide (n = n0)) as [->|Hn].
      * rewrite Hthis. pose proof (Hs n0) as H0. unfold return_past in *. unfold ptr_is in *.
        destruct (placed l k n0).
        -- apply shape_restore in H0. destruct (bool_decide_reflect (restore (get_member c n0) = Some m)); cbn in H0; congruence.
        -- pose proof (shape_restore _ _ H0). rewrite bool_decide_true by congruence.
           rewrite (shape_set_restore _ _ _ (get_release_return n0 t n0)), decide_True by done.
           apply (shape_set_restore (restore (get_member c m)) _ _ H0).
      * rewrite Hother by done. rewrite get_release_return, decide_False by done. apply Hs.
    + intros n. rewrite surplus_bump, surplus_restore by (by eapply places_range). rewrite release_return_surplus by (by eapply places_range).
      assert (restore (get_member (release_return n0 t) n0) = None) as ->.
      { pose proof (shape_restore _ _ (get_release_return n0 t n0)) as H. by rewrite decide_True in H. }
      change (points_at None n) with 0. rewrite Hb. apply eq32_of. lia.
  - split_and!; [|done..]. intros n. destruct (decide (n = n0)) as [->|Hn]; [|rewrite Hother by done; apply Hs].
    rewrite Hthis, Hs. destruct (placed l k n0) eqn:Ep; [done|]. pose proof (shape_restore _ _ (Hs n0)) as H. rewrite Ep in H.
    unfold return_past, ptr_is. by rewrite bool_decide_false by congruence.
Qed.
End Loops.

(** ** Preservation, over the records as functions *)

Definition at_index {X : Type} (k : Z) (x : X) (f : Z → X) (n : Z) : X := if decide (n = k) then x else f n.
Lemma at_same {X : Type} k (x : X) f : at_index k x f k = x.
Proof. unfold at_index. by rewrite decide_True. Qed.
Lemma at_other {X : Type} k (x : X) f n : n ≠ k → at_index k x f n = f n.
Proof. intros. unfold at_index. by rewrite decide_False. Qed.

(** Updates that move no link: labels, counters, exit requests. *)
Lemma ok_relabel M S A M' S' :
  console_ok M S A →
  (∀ n, session (M' n) = session (M n) ∧ restore (M' n) = restore (M n) ∧ live (M' n) = live (M n) ∧
    (cancelled (M' n) = false → cancelled (M n) = false) ∧
    (shell (M' n) = true → shell (M n) = true ∨ ∃ i, session (M n) = Some i ∧ root (S i) = Some n)) →
  (∀ i, session_members (S' i) = session_members (S i) ∧ root (S' i) = root (S i) ∧ owner (S' i) = owner (S i) ∧ closing (S' i) = closing (S i) ∧
    (session_members (S i) = ∅ → S i = set_session_references (session_references (S i)) no_session →
     S' i = set_session_references (session_references (S' i)) no_session)) →
  console_ok M' S' A.
Proof.
  intros [H1 H2 H3 H4 H5 H6 H7 H8 H9 H10 H11 H12 H13] HM HS.
  assert (∀ n, session (M' n) = session (M n)) as Es by (intros n; by destruct (HM n)).
  assert (∀ n, restore (M' n) = restore (M n)) as Er by (intros n; by destruct (HM n) as (_ & ? & _)).
  assert (∀ n, live (M' n) = live (M n)) as El by (intros n; by destruct (HM n) as (_ & _ & ? & _)).
  assert (∀ i, session_members (S' i) = session_members (S i)) as Em by (intros n; by destruct (HS n)).
  assert (∀ i, root (S' i) = root (S i)) as Et by (intros n; by destruct (HS n) as (_ & ? & _)).
  assert (∀ i, owner (S' i) = owner (S i)) as Eo by (intros n; by destruct (HS n) as (_ & _ & ? & _)).
  assert (∀ i, closing (S' i) = closing (S i)) as Ec by (intros n; by destruct (HS n) as (_ & _ & _ & ? & _)).
  assert (∀ n i m, linked (M n) (S i) m → linked (M' n) (S' i) m) as Hl by (intros n i m; unfold linked; by rewrite Er, Et).
  split; intros *; rewrite ?Es, ?El, ?Em, ?Et, ?Eo, ?Ec, ?Er; eauto.
  - intros Ho. destruct (H6 _ _ Ho) as (? & ? & ? & ?). eauto.
  - intros Hr. destruct (H7 _ _ Hr) as (j & ? & ? & ? & ? & ? & ?). exists j. rewrite ?Es, ?El, ?Ec. eauto 10.
  - intros Hm. apply (HS i); eauto.
  - intros Hlive Hsh. destruct (HM m) as (_ & _ & _ & _ & Hs). destruct (Hs Hsh) as [|(j & Hj & Hr)].
    + destruct (H11 m) as (j & ? & ?); eauto. exists j. by rewrite Et.
    + exists j. by rewrite Et.
  - intros Hr Hc. eapply H12; [done|]. by apply (HM r).
  - destruct H13 as [rank Hk]. exists rank. intros m r. rewrite Er. apply Hk.
Qed.
Lemma ok_shape M S A M' S' : console_ok M S A → (∀ n, shape (M' n) = shape (M n)) → (∀ i, session_shape (S' i) = session_shape (S i)) → console_ok M' S' A.
Proof.
  intros Hok HM HS. apply (ok_relabel M S); [done| |].
  - intros n. pose proof (HM n) as [= ? ? ? ? ? ? ? ?]. split_and!; [done..|congruence|]. left. congruence.
  - intros i. pose proof (HS i) as [= ? ? ? ? ? ?]. split_and!; [done..|]. intros _ E.
    destruct (S' i), (S i). unfold set_session_references in E. cbn in *. injection E as -> -> -> -> -> ->. unfold set_session_references. cbn. congruence.
Qed.

(** Nothing refers to a record without a session. *)
Lemma no_session_unlinked M S A m : console_ok M S A → session (M m) = None →
  (∀ i k, session_members (S i) !! k ≠ Some m) ∧ (∀ i, root (S i) ≠ Some m) ∧ (∀ i, owner (S i) ≠ Some m) ∧
  (∀ n, restore (M n) ≠ Some m) ∧ restore (M m) = None.
Proof.
  intros Hok Hs. split_and!.
  - intros i k Hk. destruct (ok_place _ _ _ Hok _ _ _ Hk) as (_ & _ & ?). congruence.
  - intros i Hr. destruct (ok_root _ _ _ Hok _ _ Hr) as (? & _). congruence.
  - intros i Ho. destruct (ok_owner _ _ _ Hok _ _ Ho) as (? & _). congruence.
  - intros n Hn. destruct (ok_restore _ _ _ Hok _ _ Hn) as (i & _ & ? & _). congruence.
  - destruct (restore (M m)) eqn:E; [|done]. destruct (ok_restore _ _ _ Hok _ _ E) as (i & ? & _). congruence.
Qed.

Lemma at_index_dec {X : Type} k (x : X) f n : {n = k ∧ at_index k x f n = x} + {n ≠ k ∧ at_index k x f n = f n}.
Proof. unfold at_index. destruct (decide (n = k)); [left|right]; done. Qed.
Ltac at_cases :=
  repeat match goal with
  | H : context [at_index ?k ?x ?f ?k] |- _ => rewrite (at_same k x f) in H
  | |- context [at_index ?k ?x ?f ?k] => rewrite (at_same k x f)
  | N : ?n ≠ ?k, H : context [at_index ?k ?x ?f ?n] |- _ => rewrite (at_other k x f n N) in H
  | N : ?n ≠ ?k |- context [at_index ?k ?x ?f ?n] => rewrite (at_other k x f n N)
  | H : context [at_index ?k ?x ?f ?n] |- _ =>
      let E := fresh in destruct (at_index_dec k x f n) as [[? E]|[? E]]; rewrite E in *; clear E; [subst n|]
  | |- context [at_index ?k ?x ?f ?n] =>
      let E := fresh in destruct (at_index_dec k x f n) as [[? E]|[? E]]; rewrite E in *; clear E; [subst n|]
  end.

Definition joins (x : console_member) (i : Z) (r : option Z) : Prop :=
  session x = Some i ∧ restore x = r ∧ live x = true ∧ shell x = false.

Section Attach.
Context (M : Z → console_member) (S : Z → console_session) (A : option Z) (m : Z).
Hypothesis Hok : console_ok M S A.
Hypothesis unattached : session (M m) = None.
Hypothesis in_range : 0 ≤ m < CONSOLE_RECORDS.

Lemma ok_attach_alone x : session x = None → restore x = None → shell x = false → console_ok (at_index m x M) S A.
Proof.
  intros Hs Hr Hsh. destruct (no_session_unlinked M S A m Hok unattached) as (Nk & Nr & No & Nn & _).
  destruct Hok as [H1 H2 H3 H4 H5 H6 H7 H8 H9 H10 H11 H12 [rank H13]]. split; try done.
  - intros n. at_cases; eauto.
  - intros i k n Hk. at_cases; [by destruct (Nk i k)|eauto].
  - intros i n. at_cases; [congruence|eauto].
  - intros i n Hn. at_cases; [by destruct (Nr i)|eauto].
  - intros i n Hn. at_cases; [by destruct (No i)|eauto].
  - intros n r Hn. assert (r ≠ m) by (intros ->; revert Hn; at_cases; [congruence|apply Nn]). at_cases; try congruence; eauto.
  - intros i n. at_cases; [congruence|eauto].
  - intros n. at_cases; [congruence|eauto].
  - intros i n Hn. at_cases; [by destruct (Nr i)|eauto].
  - exists rank. intros n r. at_cases; [congruence|eauto].
Qed.

Lemma ok_join x i k r o : 0 ≤ i < CONSOLE_SESSIONS → 0 ≤ k < CONSOLE_SESSIONS → session_members (S i) !! k = None →
  closing (S i) = false → is_Some (root (S i)) → joins x i r →
  (r = None ∧ o = owner (S i) ∨ ∃ p, r = Some p ∧ owner (S i) = Some p ∧ o = Some m) →
  console_ok (at_index m x M) (at_index i (set_owner o (set_members (<[k := m]> (session_members (S i))) (S i))) S) A.
Proof.
  intros Hi Hk Hfree Hcl [t Ht] (Hs & Hr & Hl & Hsh) Hcase.
  destruct (no_session_unlinked M S A m Hok unattached) as (Nk & Nr & No & Nn & _).
  assert (r = None ∨ ∃ p, r = Some p ∧ owner (S i) = Some p) as Hr' by (destruct Hcase as [[? _]|(p & ? & ? & _)]; eauto).
  assert (∀ j n, linked (M n) (S j) n → linked (M n) (at_index i (set_owner o (set_members (<[k := m]> (session_members (S i))) (S i))) S j) n) as Hlk.
  { intros j n. unfold linked. at_cases; done. }
  destruct Hok as [H1 H2 H3 H4 H5 H6 H7 H8 H9 H10 H11 H12 [rank H13]]. split.
  - intros n. at_cases; [done|eauto].
  - intros j k' n. at_cases; cbn [session_members set_owner set_members]; rewrite ?lookup_insert_Some; intros; naive_solver.
  - intros j n. at_cases; cbn [session_members set_owner set_members]; intros Hj; simplify_eq.
    + exists k. by rewrite lookup_insert_eq.
    + destruct (H3 _ _ Hj) as [k' Hk']. exists k'. rewrite lookup_insert_ne by congruence. done.
    + eauto.
  - intros j k1 k2 n. at_cases; cbn [session_members set_owner set_members]; rewrite ?lookup_insert_Some; intros; naive_solver.
  - intros j n. at_cases; cbn [root closing set_owner set_members]; intros Hn; try (by destruct (Nr _ Hn)); eauto.
  - intros j n. at_cases; cbn [owner root closing set_owner set_members]; intros Hn.
    + split_and!; [done..| |done]. destruct Hcase as [[-> ->]|(p & -> & _)]; [by destruct (No i)|]. left. by rewrite Hr.
    + destruct Hcase as [[-> ->]|(p & -> & _ & ->)]; [|congruence]. destruct (H6 _ _ Hn) as (? & ? & ? & ?). split_and!; done.
    + by destruct (No j).
    + destruct (H6 _ _ Hn) as (? & ? & ? & ?). eauto.
  - intros n r0. intros Hn. assert (r0 ≠ m) as Hne.
    { intros ->. revert Hn. at_cases; [|by apply Nn]. rewrite Hr. destruct Hr' as [->|(p & -> & Hp)]; [done|]. intros [= ->]. by destruct (No i). }
    rewrite (at_other m x M r0) by done. at_cases.
    + rewrite Hr in Hn. destruct Hr' as [->|(p & -> & Hp)]; [done|]. injection Hn as ->. destruct (H6 _ _ Hp) as (? & ? & ? & ?).
      exists i. split_and!; [done..|by apply Hlk|]. by rewrite at_same.
    + destruct (H7 _ _ Hn) as (j & ? & ? & ? & ? & ? & ?). exists j. split_and!; [done..|by apply Hlk|]. at_cases; done.
  - intros j Hj. at_cases; cbn [root set_owner set_members]; eauto.
  - intros j n. at_cases; cbn [root closing set_owner set_members]; intros; simplify_eq; eauto.
  - intros j. at_cases; cbn [session_members set_owner set_members]; [|eauto]. intros E. exfalso.
    assert ((<[k := m]> (session_members (S i))) !! k = None) by (by rewrite E). by rewrite lookup_insert_eq in *.
  - intros n. at_cases; [congruence|]. intros. destruct (H11 n) as (j & ? & ?); [done..|]. exists j. split; [done|]. at_cases; done.
  - intros j n. at_cases; cbn [root owner set_owner set_members]; intros Hn; try (by destruct (Nr _ Hn)); [|eauto].
    intros Hc. destruct Hcase as [[-> ->]|(p & -> & _ & ->)]; [eauto|done].
  - exists (at_index m (Datatypes.S (rank (default m r))) rank). intros n r0. destruct (decide (n = m)) as [->|Hn].
    + rewrite !at_same, Hr. destruct Hr' as [->|(p & -> & Hp)]; [done|]. intros [= <-]. rewrite at_other by (intros ->; by destruct (No i)). cbn. lia.
    + rewrite !(at_other _ _ _ n) by done. intros E. rewrite at_other by (intros ->; by destruct (Nn n)). eauto.
Qed.
End Attach.

(** A session that nobody occupies is zeroed, and no session is open while none is active. *)
Lemma inactive_closed M S n j : console_ok M S None → root (S j) = None ∧ owner (S j) = None ∧ restore (M n) = None.
Proof.
  intros Hok. assert (∀ j, root (S j) = None) as Hr.
  { intros j'. destruct (root (S j')) eqn:E; [|done]. by destruct (ok_root _ _ _ Hok _ _ E) as (_ & _ & _ & _ & ?). }
  assert (∀ n' j', session (M n') = Some j' → closing (S j') = false → False) as Hc.
  { intros n' j' Hs Hc. destruct (ok_open _ _ _ Hok _ _ Hs Hc) as [t Ht]. by rewrite Hr in Ht. }
  split_and!; [apply Hr|..].
  - destruct (owner (S j)) eqn:E; [|done]. destruct (ok_owner _ _ _ Hok _ _ E) as (? & _ & _ & ?). by destruct (Hc z j).
  - destruct (restore (M n)) eqn:E; [|done]. destruct (ok_restore _ _ _ Hok _ _ E) as (i & ? & _ & _ & _ & _ & ?). by destruct (Hc n i).
Qed.

Lemma ok_attach_root M S m x i k refs : console_ok M S None → session (M m) = None → 0 ≤ m < CONSOLE_RECORDS → joins x i None →
  0 ≤ i < CONSOLE_SESSIONS → 0 ≤ k < CONSOLE_SESSIONS → session_members (S i) = ∅ →
  console_ok (at_index m x M) (at_index i (Session refs false false 0 (Some m) (Some m) {[k := m]}) S) (Some i).
Proof.
  intros Hok Hm Hrange (Hs & Hr & Hl & Hsh) Hi Hk Hempty.
  destruct (no_session_unlinked M S None m Hok Hm) as (Nk & _).
  assert (∀ j, root (S j) = None) as Nroot by (intros j; by destruct (inactive_closed M S 0 j Hok)).
  assert (∀ j, owner (S j) = None) as Nown by (intros j; by destruct (inactive_closed M S 0 j Hok) as (_ & ? & _)).
  assert (∀ n, restore (M n) = None) as Nres by (intros n; by destruct (inactive_closed M S n 0 Hok) as (_ & _ & ?)).
  assert (∀ n, session (M n) ≠ Some i) as Nin.
  { intros n Hn. destruct (ok_placed _ _ _ Hok _ _ Hn) as [k' Hk']. by rewrite Hempty, lookup_empty in Hk'. }
  destruct Hok as [H1 H2 H3 H4 _ _ _ _ H9 H10 H11 _ _]. split.
  - intros n. at_cases; [done|eauto].
  - intros j k' n. unfold at_index at 1. destruct (decide (j = i)) as [->|]; cbn [session_members].
    + rewrite lookup_singleton_Some. intros [<- <-]. by rewrite at_same.
    + intros Hn. rewrite at_other by (intros ->; by destruct (Nk j k')). eauto.
  - intros j n. at_cases; cbn [session_members]; intros Hn; try congruence; try (by destruct (Nin n)); eauto.
    exists k. by rewrite lookup_singleton_eq.
  - intros j k1 k2 n. at_cases; cbn [session_members]; rewrite ?lookup_singleton_Some; [|eauto]. intros [? _] [? _]. congruence.
  - intros j n. at_cases; cbn [root closing]; rewrite ?Nroot; intros; simplify_eq. done.
  - intros j n. at_cases; cbn [owner root closing]; rewrite ?Nown; intros; simplify_eq. split_and!; try done. by right.
  - intros n r. at_cases; rewrite ?Nres, ?Hr; done.
  - intros j [= <-]. rewrite at_same. done.
  - intros j n. at_cases; cbn [root]; intros; simplify_eq; eauto.
  - intros j. at_cases; cbn [session_members]; [|eauto]. intros E. apply (f_equal (lookup k)) in E. by rewrite lookup_singleton_eq in E.
  - intros n. at_cases; [congruence|]. intros Hlive Hshell. destruct (H11 n) as (j & ? & ?); [done..|]. by rewrite Nroot in *.
  - intros j r. at_cases; cbn [root owner]; rewrite ?Nroot; done.
  - exists (λ _, O). intros n r. at_cases; rewrite ?Nres, ?Hr; done.
Qed.

(** ** Exit *)

Section Leave.
Context (M : Z → console_member) (S : Z → console_session) (A : option Z) (m : Z).
Hypothesis Hok : console_ok M S A.

(** A member that nothing refers to can end. *)
Lemma ok_retire x : session x = session (M m) → restore x = None → live x = false →
  (∀ i, root (S i) ≠ Some m) → (∀ i, owner (S i) ≠ Some m) → (∀ n, restore (M n) ≠ Some m) → console_ok (at_index m x M) S A.
Proof.
  intros Hs Hr Hl Nr No Nn. destruct Hok as [H1 H2 H3 H4 H5 H6 H7 H8 H9 H10 H11 H12 [rank H13]]. split; try done.
  - intros n. at_cases; [|eauto]. intros [?|Hx]; [congruence|]. rewrite Hs in Hx. eauto.
  - intros i k n Hk. at_cases; [rewrite Hs|]; eauto.
  - intros i n. at_cases; [rewrite Hs|]; eauto.
  - intros i n Hn. at_cases; [by destruct (Nr i)|eauto].
  - intros i n Hn. at_cases; [by destruct (No i)|eauto].
  - intros n r Hn. assert (r ≠ m) by (intros ->; revert Hn; at_cases; [congruence|apply Nn]). at_cases; try congruence; eauto.
  - intros i n. at_cases; [rewrite Hs|]; eauto.
  - intros n. at_cases; [congruence|eauto].
  - intros i n Hn. at_cases; [by destruct (Nr i)|eauto].
  - exists rank. intros n r. at_cases; [congruence|eauto].
Qed.

(** The return links past a member that is not its session's root. *)
Definition past (x : console_member) : console_member := if ptr_is (restore x) m then set_restore (restore (M m)) x else x.
Lemma restore_past x r : restore (past x) = Some r → (restore x = Some m ∧ restore (M m) = Some r) ∨ (restore x = Some r ∧ r ≠ m).
Proof.
  unfold past, ptr_is. case_bool_decide as E; cbn [restore set_restore]; [by left|]. intros Hr. right. split; [done|]. congruence.
Qed.
Lemma past_same x : session (past x) = session x ∧ live (past x) = live x ∧ cancelled (past x) = cancelled x ∧ shell (past x) = shell x.
Proof. unfold past. by destruct (ptr_is _ _). Qed.
Lemma rank_irrefl n : restore (M n) ≠ Some n.
Proof. destruct Hok as [_ _ _ _ _ _ _ _ _ _ _ _ [rank Hrank]]. intros E. specialize (Hrank _ _ E). lia. Qed.
Lemma no_past n : restore (past (M n)) ≠ Some m.
Proof. intros [[_ E]|[_ ?]]%restore_past; [|done]. by apply (rank_irrefl m). Qed.

Hypothesis not_root : ∀ i, root (S i) ≠ Some m.
Lemma linked_past n i : session (M n) = Some i → linked (M n) (S i) n → linked (past (M n)) (S i) n.
Proof.
  unfold linked, past, ptr_is. case_bool_decide as E; [|done]. intros Hs _. left. cbn [restore set_restore].
  destruct (ok_restore _ _ _ Hok _ _ E) as (j & _ & _ & _ & _ & [|Hr] & _); [done|]. by destruct (not_root j).
Qed.
Lemma ok_past : console_ok (λ n, past (M n)) S A.
Proof.
  pose proof linked_past as Hlk. pose proof (λ n, past_same (M n)) as Hsame.
  assert (∀ n, session (past (M n)) = session (M n)) as Es by (intros n; by destruct (Hsame n)).
  assert (∀ n, live (past (M n)) = live (M n)) as El by (intros n; by destruct (Hsame n) as (_ & ? & _)).
  assert (∀ n, shell (past (M n)) = shell (M n)) as Eh by (intros n; by destruct (Hsame n) as (_ & _ & _ & ?)).
  assert (∀ n, cancelled (past (M n)) = cancelled (M n)) as Ec by (intros n; by destruct (Hsame n) as (_ & _ & ? & _)).
  assert (∀ n, restore (M n) = None → restore (past (M n)) = None) as En by (intros n E; unfold past, ptr_is; by rewrite E).
  pose proof Hok as [H1 H2 H3 H4 H5 H6 H7 H8 H9 H10 H11 H12 [rank H13]].
  split; intros *; cbn beta; rewrite ?Es, ?El, ?Eh, ?Ec; eauto.
  - intros Hr. destruct (H5 _ _ Hr) as (? & ? & ? & ?). eauto.
  - intros Ho. destruct (H6 _ _ Ho) as (? & ? & ? & ?). eauto.
  - intros [[Hr Hm]|[Hr Hn]]%restore_past.
    + destruct (H7 _ _ Hr) as (j & ? & Hj & ? & ? & ? & ?). destruct (H7 _ _ Hm) as (j' & ? & ? & ? & ? & ? & ?).
      exists j. rewrite ?Es, ?El. simplify_eq. split_and!; try done; by apply Hlk.
    + destruct (H7 _ _ Hr) as (j & ? & ? & ? & ? & ? & ?). exists j. rewrite ?Es, ?El. split_and!; try done; by apply Hlk.
  - exists rank. intros n r [[Hr Hm]|[Hr _]]%restore_past; [|eauto]. pose proof (H13 _ _ Hr). pose proof (H13 _ _ Hm). lia.
Qed.

Lemma ok_pass i o : (∀ q, o = Some q → session (M q) = Some i ∧ live (M q) = true ∧ linked (M q) (S i) q ∧ closing (S i) = false) →
  (o = None → ∀ r, root (S i) = Some r → cancelled (M r) = true) → is_Some (owner (S i)) →
  console_ok M (at_index i (set_owner o (S i)) S) A.
Proof.
  intros Ho Hn [o0 Ho0]. pose proof Hok as [H1 H2 H3 H4 H5 H6 H7 H8 H9 H10 H11 H12 [rank H13]]. split; try done.
  - intros j k n. at_cases; cbn; eauto.
  - intros j n. at_cases; cbn; eauto.
  - intros j k1 k2 n. at_cases; cbn; eauto.
  - intros j n. at_cases; cbn; eauto.
  - intros j n. at_cases; [|eauto]. apply Ho.
  - intros n r Hr. destruct (H7 _ _ Hr) as (j & ? & ? & ? & ? & ? & ?). exists j. split_and!; try done; at_cases; done.
  - intros j Hj. at_cases; cbn; eauto.
  - intros j n. at_cases; cbn; eauto.
  - intros j. at_cases; cbn; [|eauto]. intros E. specialize (H10 _ E). rewrite H10 in Ho0. done.
  - intros n ??. destruct (H11 n) as (j & ? & ?); [done..|]. exists j. at_cases; done.
  - intros j r. at_cases; [|eauto]. cbn [root owner set_owner]. intros Hr Hc. destruct o as [q|]; [done|]. rewrite (Hn eq_refl r Hr) in Hc. done.
  - by exists rank.
Qed.
End Leave.

(** ** Where the console returns to

    The reference: the nearest member along the return links that is live and not
    cancelled. *)

Definition usable (x : console_member) : bool := live x && negb (cancelled x).
Inductive hands_to (M : Z → console_member) : option Z → option Z → Prop :=
| hands_nobody : hands_to M None None
| hands_here r : usable (M r) = true → hands_to M (Some r) (Some r)
| hands_past r o : usable (M r) = false → hands_to M (restore (M r)) o → hands_to M (Some r) o.

Lemma shape_usable x y : shape x = shape y → usable x = usable y.
Proof. intros [= ]. unfold usable. congruence. Qed.

(** The records a search of [n] steps visits. *)
Fixpoint visits (n : nat) (M : Z → console_member) (p : option Z) : list Z :=
  match n, p with Datatypes.S n, Some r => r :: visits n M (restore (M r)) | _, _ => [] end.

Section Return.
Context (M : Z → console_member) (S : Z → console_session) (A : option Z) (i : Z).
Hypothesis Hok : console_ok M S A.

(** Return links stay among the linked, live members of an open session. *)
Definition good (q : Z) : Prop := session (M q) = Some i ∧ live (M q) = true ∧ linked (M q) (S i) q ∧ closing (S i) = false.
Lemma good_restore q r : session (M q) = Some i → restore (M q) = Some r → good r.
Proof. intros Hs Hr. destruct (ok_restore _ _ _ Hok _ _ Hr) as (j & ? & ? & ? & ? & ? & ?). simplify_eq. done. Qed.
Lemma good_owner q : owner (S i) = Some q → good q.
Proof. intros. by apply (ok_owner _ _ _ Hok). Qed.

Lemma hands_to_good p o q : hands_to M p o → (∀ r, p = Some r → good r) → o = Some q → good q ∧ cancelled (M q) = false.
Proof.
  intros H. induction H as [|r Hu|r o Hu _ IH]; intros Hp Ho; [done| |].
  - injection Ho as ->. split; [by apply Hp|]. unfold usable in Hu. by destruct (cancelled (M q)), (live (M q)).
  - apply IH; [|done]. intros r' Hr. apply (good_restore r); [|done]. by apply Hp.
Qed.
Lemma hands_to_root p o t : hands_to M p o → is_Some p → (∀ r, p = Some r → good r) → root (S i) = Some t → cancelled (M t) = false → is_Some o.
Proof.
  intros H. induction H as [|r Hu|r o Hu _ IH]; intros [p' Hp'] Hp Ht Hc; [done..|].
  destruct (Hp r eq_refl) as (Hs & _ & [Hl|Hl] & _).
  - apply IH; [done| |done|done]. intros r' Hr. by apply (good_restore r).
  - rewrite Ht in Hl. injection Hl as <-. destruct (ok_root _ _ _ Hok _ _ Ht) as (_ & Hlive & _). unfold usable in Hu. by rewrite Hlive, Hc in Hu.
Qed.

Lemma visits_good n p : (∀ r, p = Some r → good r) → Forall good (visits n M p).
Proof.
  revert p; induction n as [|n IH]; intros p Hp; [done|]. destruct p as [r|]; [|done]. cbn [visits].
  constructor; [by apply Hp|]. apply IH. intros r' Hr. apply (good_restore r); [|done]. by apply Hp.
Qed.
Lemma visits_rank (rank : Z → nat) n p b : (∀ m r, restore (M m) = Some r → (rank r < rank m)%nat) →
  (∀ r, p = Some r → (rank r < b)%nat) → Forall (λ r, (rank r < b)%nat) (visits n M p) ∧ NoDup (visits n M p).
Proof.
  intros Hrank. revert p b; induction n as [|n IH]; intros p b Hp; [split; constructor|]. destruct p as [r|]; [|split; constructor]. cbn [visits].
  destruct (IH (restore (M r)) (rank r)) as [Hf Hn]; [intros; eauto|]. split; constructor; try done; [by apply Hp| |].
  - eapply List.Forall_impl; [|done]. intros x Hx. cbn in Hx. specialize (Hp r eq_refl). lia.
  - intros Hin%list_elem_of_In. rewrite List.Forall_forall in Hf. specialize (Hf r Hin). cbn in Hf. lia.
Qed.

(** A session has sixteen places, so a list of its members is no longer. *)
Lemma members_bound l : NoDup l → Forall (λ n, session (M n) = Some i) l → Z.of_nat (List.length l) ≤ CONSOLE_SESSIONS.
Proof.
  intros Hnd Hin. assert (∃ ks, Forall2 (λ n k, session_members (S i) !! k = Some n) l ks) as [ks Hks].
  { clear Hnd. induction Hin as [|n l Hn _ [ks IH]]; [by exists []|]. destruct (ok_placed _ _ _ Hok _ _ Hn) as [k Hk]. exists (k :: ks). by constructor. }
  rewrite (Forall2_length Hks). assert (NoDup ks) as Hnk.
  { clear Hin. induction Hks as [|n k l ks Hk Hks IH]; [constructor|]. inversion Hnd as [|? ? Hx Hnd']; subst. constructor; [|by apply IH].
    intros Hkin. apply Hx. clear -Hk Hks Hkin. induction Hks as [|n' k' l' ks' Hk' _ IH]; [by inversion Hkin|].
    rewrite elem_of_cons in Hkin |- *. destruct Hkin as [->|Hin]; [left; congruence|right; by apply IH]. }
  assert (incl ks (seqZ 0 CONSOLE_SESSIONS)) as Hincl.
  { intros k Hk. apply list_elem_of_In, elem_of_seqZ. clear Hnk Hnd Hin. induction Hks as [|n' k' l' ks' Hk' _ IH]; [done|].
    destruct Hk as [->|Hk]; [|by apply IH]. destruct (ok_place _ _ _ Hok _ _ _ Hk') as (_ & ? & _). lia. }
  apply NoDup_ListNoDup in Hnk. pose proof (NoDup_incl_length Hnk Hincl) as Hlen. rewrite length_seqZ in Hlen. unfold CONSOLE_SESSIONS in *. lia.
Qed.
End Return.

Lemma previous_loop_hands n c i p : (∀ k r, r ∈ visits k (get_member c) p → session (get_member c r) = Some i) →
  (List.length (visits n (get_member c) p) < n)%nat → hands_to (get_member c) p (previous_loop n c (Some i) p).
Proof.
  revert p; induction n as [|n IH]; intros p Hs Hlen; [cbn in Hlen; lia|]. destruct p as [r|]; cbn [previous_loop]; [|constructor].
  rewrite (bool_decide_true (session (get_member c r) = Some i)) by (apply (Hs 1%nat); cbn; apply elem_of_cons; by left). rewrite andb_true_r.
  fold (usable (get_member c r)). destruct (usable (get_member c r)) eqn:Eu; [by constructor|]. apply hands_past; [done|]. apply IH.
  - intros k r' Hr. apply (Hs (Datatypes.S k)). cbn [visits]. apply elem_of_cons. by right.
  - cbn [visits List.length] in Hlen. lia.
Qed.

(** The search does not see the member that is leaving. *)
Lemma visits_ext M M' m n p : (∀ k, k ≠ m → restore (M k) = restore (M' k)) → (∀ k, restore (M' k) ≠ Some m) → p ≠ Some m → visits n M p = visits n M' p.
Proof.
  intros He Hn. revert p; induction n as [|n IH]; intros p Hp; [done|]. destruct p as [r|]; [|done]. cbn [visits].
  rewrite He by congruence. f_equal. by apply IH.
Qed.
Lemma hands_to_ext M M' m p o : (∀ k, k ≠ m → restore (M k) = restore (M' k) ∧ usable (M k) = usable (M' k)) → (∀ k, restore (M' k) ≠ Some m) →
  p ≠ Some m → hands_to M p o → hands_to M' p o.
Proof.
  intros He Hn Hp H. induction H as [|r Hu|r o Hu _ IH]; [constructor|constructor; by rewrite <- (proj2 (He r ltac:(congruence)))|].
  destruct (He r ltac:(congruence)) as [Hr Hu']. apply hands_past; [congruence|]. rewrite <- Hr. apply IH. rewrite Hr. apply Hn.
Qed.
(** Bypassing [m] does not change the way back from below it. *)
Lemma hands_to_past (rank : Z → nat) M m p o : (∀ k r, restore (M k) = Some r → (rank r < rank k)%nat) → (∀ r, p = Some r → (rank r < rank m)%nat) →
  hands_to (λ n, past M m (M n)) p o → hands_to M p o.
Proof.
  intros Hrank Hp H. induction H as [|r Hu|r o Hu _ IH]; [constructor|constructor|].
  - revert Hu. unfold past, ptr_is, usable. by case_bool_decide.
  - assert (past M m (M r) = M r) as E.
    { unfold past, ptr_is. rewrite bool_decide_false; [done|]. intros Hr%Hrank. specialize (Hp r eq_refl). lia. }
    rewrite E in *. apply hands_past; [done|]. apply IH. intros r' Hr. apply Hrank in Hr. specialize (Hp r eq_refl). lia.
Qed.

Lemma hands_to_avoid M m p o : (∀ k, restore (M k) ≠ Some m) → p ≠ Some m → hands_to M p o → o ≠ Some m.
Proof. intros Hn Hp H. induction H as [|r Hu|r o Hu _ IH]; [done|done|]. apply IH, Hn. Qed.

Lemma get_pass_owner i next c n : shape (get_member (pass_owner i next c) n) = shape (get_member c n).
Proof. unfold pass_owner. rewrite shape_bump. unfold upd_session. rewrite get_member_put_session. apply shape_bump. Qed.
Lemma get_session_pass_owner i next c j : get_session (pass_owner i next c) j = at_index i (set_owner next (get_session c i)) (get_session c) j.
Proof. unfold pass_owner. rewrite get_session_bump. unfold upd_session. by rewrite get_put_session, !get_session_bump. Qed.
Lemma active_pass_owner i next c : active (pass_owner i next c) = active c.
Proof. unfold pass_owner. rewrite active_bump. cbn [active upd_session put_session]. apply active_bump. Qed.
Lemma pass_owner_sessions i next c j : session_surplus (pass_owner i next c) j = session_surplus c j.
Proof. unfold pass_owner. rewrite surplus_bump_members, surplus_session_same by done. apply surplus_bump_members. Qed.
Lemma release_return_sessions_counted m c j : session_surplus (release_return m c) j = session_surplus c j.
Proof. unfold release_return. apply (surplus_bump_members (restore (get_member c m)) (-1) c j). Qed.

Section LeaveSession.
Context (c : console) (i m : Z).
Hypothesis Hok : console_ok (get_member c) (get_session c) (active c).
Hypothesis is_member : session (get_member c m) = Some i.
Hypothesis open : closing (get_session c i) = false.
Hypothesis not_the_root : root (get_session c i) ≠ Some m.
Let M := get_member c.
Let ended (x : console_member) : console_member := set_command false (set_live false x).
Let c0 := upd_member m ended c.
Let c1 := relink_members i m c0.

Lemma leaving_not_root j : root (get_session c j) ≠ Some m.
Proof. intros Hr. destruct (ok_root _ _ _ Hok _ _ Hr) as (Hs & _). assert (j = i) as -> by congruence. done. Qed.
Lemma places_in_range k n j : session_members (get_session c j) !! k = Some n → 0 ≤ n < CONSOLE_RECORDS.
Proof. intros Hk. destruct (ok_place _ _ _ Hok _ _ _ Hk) as (_ & _ & Hs). apply (ok_member_range _ _ _ Hok). right. by rewrite Hs. Qed.
Lemma session_in_range : 0 ≤ i < CONSOLE_SESSIONS.
Proof. destruct (ok_placed _ _ _ Hok _ _ is_member) as [k Hk]. by destruct (ok_place _ _ _ Hok _ _ _ Hk). Qed.
Lemma member_in_range : 0 ≤ m < CONSOLE_RECORDS.
Proof. apply (ok_member_range _ _ _ Hok). right. by rewrite is_member. Qed.

Lemma relinked_spec :
  (∀ n, shape (get_member c1 n) = shape (if decide (n = m) then ended (M m) else past M m (M n))) ∧
  get_session c1 = get_session c ∧ active c1 = active c ∧ ∀ n, eq32 (member_surplus c1 n) (member_surplus c n).
Proof.
  assert (∀ n, get_member c0 n = if decide (n = m) then ended (M m) else M n) as H0.
  { intros n. unfold c0, upd_member. rewrite get_put_member. done. }
  assert (restore (get_member c0 m) = restore (M m)) as Hm0 by (by rewrite H0, decide_True).
  destruct (relink_members_spec c0 i m) as (Hs & Hg & Ha & Hb).
  { intros k n. apply places_in_range. }
  { rewrite Hm0. apply (rank_irrefl _ _ _ Hok). }
  fold c1 in Hs, Hg, Ha, Hb. split_and!; [|done|done|].
  - intros n. rewrite Hs. unfold return_past. rewrite Hm0. unfold past. destruct (decide (n = m)) as [->|Hn].
    + rewrite H0, decide_True by done. unfold ptr_is. rewrite bool_decide_false by apply (rank_irrefl _ _ _ Hok). by destruct (placed _ _ _).
    + rewrite H0, decide_False by done. unfold ptr_is. case_bool_decide as Er; [|by destruct (placed _ _ _)].
      replace (placed _ _ _) with true; [done|]. symmetry. apply placed_spec. destruct (ok_restore _ _ _ Hok _ _ Er) as (j & Hn' & Hm & _).
      assert (j = i) as -> by congruence. destruct (ok_placed _ _ _ Hok _ _ Hn') as [k Hk]. exists k. split; [by destruct (ok_place _ _ _ Hok _ _ _ Hk) as (_ & ? & _)|done].
  - intros n. rewrite Hb. unfold c0. rewrite surplus_member by done. done.
Qed.

Lemma relinked_restore n : restore (get_member c1 n) = restore (past M m (M n)).
Proof.
  destruct relinked_spec as (Hs & _). rewrite (shape_restore _ _ (Hs n)). destruct (decide (n = m)) as [->|]; [|done].
  unfold past, ptr_is. by rewrite bool_decide_false by apply (rank_irrefl _ _ _ Hok).
Qed.
Lemma relinked_session n : session (get_member c1 n) = session (M n).
Proof. destruct relinked_spec as (Hs & _). rewrite (shape_session _ _ (Hs n)). destruct (decide (n = m)) as [->|]; [done|]. by destruct (past_same M m (M n)). Qed.

Lemma previous_hands o : owner (get_session c i) = Some o → hands_to (λ n, past M m (M n)) (restore (past M m (M o))) (previous c1 o).
Proof.
  intros Ho. pose proof (ok_past M _ _ m Hok leaving_not_root) as Hok'. destruct (good_owner _ _ _ i Hok' o Ho) as (Hso & _).
  pose proof (no_past M _ _ m Hok) as Hno.
  assert (∀ k, visits k (get_member c1) (restore (get_member c1 o)) = visits k (λ n, past M m (M n)) (restore (past M m (M o)))) as Hv.
  { intros k. rewrite relinked_restore. apply (visits_ext _ _ m); [intros; apply relinked_restore|apply Hno|apply Hno]. }
  assert (∀ k, Forall (good (λ n, past M m (M n)) (get_session c) i) (visits k (λ n, past M m (M n)) (restore (past M m (M o))))) as Hg.
  { intros k. apply (visits_good _ _ _ i Hok'). intros r Hr. by apply (good_restore _ _ _ i Hok' o). }
  assert (session (get_member c1 o) = Some i) as Hs1 by (rewrite relinked_session; by destruct (past_same M m (M o)) as [<- _]).
  unfold previous. rewrite Hs1. rewrite <- relinked_restore.
  apply (hands_to_ext (get_member c1) _ m); [|apply Hno|rewrite relinked_restore; apply Hno|].
  { intros k Hk. split; [apply relinked_restore|]. destruct relinked_spec as (Hs & _). specialize (Hs k). rewrite decide_False in Hs by done.
    rewrite (shape_usable _ _ Hs). unfold past. by destruct (ptr_is _ _). }
  apply previous_loop_hands.
  - intros k r Hr. rewrite Hv in Hr. rewrite relinked_session. specialize (Hg k). rewrite List.Forall_forall in Hg.
    destruct (Hg r) as (Hsr & _); [by apply list_elem_of_In|]. by destruct (past_same M m (M r)) as [<- _].
  - rewrite Hv. destruct (ok_ranked _ _ _ Hok') as [rank Hrank].
    destruct (visits_rank _ rank (Z.to_nat CONSOLE_SESSIONS) (restore (past M m (M o))) (rank o) Hrank (Hrank o)) as [Hlt Hnd].
    specialize (Hg (Z.to_nat CONSOLE_SESSIONS)). set (v := visits _ _ _) in *. clearbody v. clear Hv.
    assert (Z.of_nat (List.length (o :: v)) ≤ CONSOLE_SESSIONS) as Hb; [|cbn [List.length] in Hb; lia].
    apply (members_bound _ _ _ i Hok'); constructor; [|exact Hnd| |].
    + intros Hin%list_elem_of_In. rewrite List.Forall_forall in Hlt. specialize (Hlt o Hin). cbn in Hlt. lia.
    + exact Hso.
    + eapply List.Forall_impl; [|exact Hg]. by intros r [? _].
Qed.

(** What is left once [m] has gone and [o] is the owner. *)
Lemma owner_elsewhere o j : o ≠ Some m → owner (at_index i (set_owner o (get_session c i)) (get_session c) j) ≠ Some m.
Proof.
  intros Ho. at_cases; [exact Ho|]. intros Hj. destruct (ok_owner _ _ _ Hok _ _ Hj) as (Hs & _). congruence.
Qed.
Lemma leave_ok c' o : o ≠ Some m →
  (owner (get_session c i) = o ∨ ∃ q, owner (get_session c i) = Some q ∧ hands_to (λ n, past M m (M n)) (restore (past M m (M q))) o ∧
     (q = m ∨ cancelled (M q) = true)) →
  (∀ n, shape (get_member c' n) = shape (at_index m (set_restore None (ended (M m))) (λ n, past M m (M n)) n)) →
  (∀ j, get_session c' j = at_index i (set_owner o (get_session c i)) (get_session c) j) → active c' = active c →
  console_ok (get_member c') (get_session c') (active c').
Proof.
  intros Hne Hcase HM HS HA. pose proof (ok_past M _ _ m Hok leaving_not_root) as Hok'. rewrite HA.
  apply (ok_shape (at_index m (set_restore None (ended (M m))) (λ n, past M m (M n))) (at_index i (set_owner o (get_session c i)) (get_session c)));
    [|exact HM|intros j; by rewrite HS].
  assert (∀ j, root (at_index i (set_owner o (get_session c i)) (get_session c) j) = root (get_session c j)) as Hroot by (intros j; at_cases; done).
  apply ok_retire.
  - destruct Hcase as [Ho|(q & Hq & Hh & Hc)].
    + apply (ok_shape _ _ _ _ _ Hok'); [done|]. intros j. at_cases; [|done]. rewrite <- Ho. by destruct (get_session c i).
    + destruct (good_owner _ _ _ i Hok' q Hq) as (Hs & Hl & Hk & _).
      assert (∀ r, restore (past M m (M q)) = Some r → good (λ n, past M m (M n)) (get_session c) i r) as Hgood by (intros r; by apply (good_restore _ _ _ i Hok' q)).
      apply (ok_pass _ _ _ Hok'); [| |by rewrite Hq].
      * intros o' ->. by destruct (hands_to_good _ _ _ i Hok' _ _ o' Hh Hgood eq_refl).
      * intros -> r Hr. destruct (cancelled (past M m (M r))) eqn:Ec; [done|]. exfalso. destruct Hk as [Hk|Hk].
        -- by destruct (hands_to_root _ _ _ i Hok' _ _ r Hh Hk Hgood Hr Ec).
        -- rewrite Hr in Hk. injection Hk as ->. destruct Hc as [->|Hc]; [done|].
           destruct (past_same M m (M q)) as (_ & _ & E & _). congruence.
  - cbn. symmetry. by destruct (past_same M m (M m)).
  - done.
  - done.
  - intros j. rewrite Hroot. apply leaving_not_root.
  - intros j. by apply owner_elsewhere.
  - intros n. apply (no_past M _ _ m Hok).
Qed.

(** The branches of [leave_session]: the owner stays, or is replaced. *)
Lemma leave_branches :
  (leave_session i m c0 = c1 ∧ owner (get_session c i) ≠ Some m) ∨
  ∃ q, owner (get_session c i) = Some q ∧ leave_session i m c0 = pass_owner i (previous c1 q) c1 ∧ (q = m ∨ cancelled (M q) = true).
Proof.
  destruct relinked_spec as (Hs & Hg & _). unfold leave_session. fold c1. rewrite Hg.
  change (owner (get_session c0 i)) with (owner (get_session c i)).
  destruct (owner (get_session c i)) as [q|] eqn:Eo; [|by left]. unfold ptr_is.
  destruct (decide (q = m)) as [->|Hq].
  - rewrite !bool_decide_true by done. cbn [orb andb]. right. exists m. by eauto.
  - rewrite (bool_decide_false (Some q = Some m)), (bool_decide_false (q = m)) by congruence. cbn [orb].
    assert (cancelled (get_member c1 q) = cancelled (M q)) as ->.
    { specialize (Hs q). rewrite decide_False in Hs by done. rewrite (shape_cancelled _ _ Hs). by destruct (past_same M m (M q)) as (_ & _ & ? & _). }
    destruct (returning_loop _ _ _ _), (cancelled (M q)) eqn:Ec; cbn [andb]; [right; exists q; by eauto|left; split; [done|congruence]..].
Qed.

Let c' := release_return m (leave_session i m c0).
Lemma leave_session_spec : console_ok (get_member c') (get_session c') (active c') ∧
  (∀ n, eq32 (member_surplus c' n) (member_surplus c n)) ∧ (∀ j, session_surplus c' j = session_surplus c j) ∧
  (owner (get_session c i) = Some m → hands_to M (restore (M m)) (owner (get_session c' i))).
Proof.
  destruct relinked_spec as (Hs & Hg & Ha & Hb). unfold c'.
  assert (∀ x n, shape x = shape (get_member c1 n) → shape (if decide (n = m) then set_restore None x else x) =
    shape (at_index m (set_restore None (ended (M m))) (λ n, past M m (M n)) n)) as Hfin.
  { intros x n Hx. rewrite Hs in Hx. unfold at_index. destruct (decide (n = m)); [by apply shape_set_restore|done]. }
  assert (∀ j, session_surplus c1 j = session_surplus c j) as Hj.
  { intros j. unfold session_surplus, places_in. by rewrite Hg, Ha. }
  destruct leave_branches as [[-> Hne]|(q & Hq & -> & Hc)].
  - destruct (release_return_sessions m c1) as [Hg' Ha']. split_and!.
    + apply (leave_ok _ (owner (get_session c i))); [done|by left|intros n; rewrite get_release_return; by apply Hfin| |congruence].
      intros j. rewrite Hg', Hg. at_cases; [by destruct (get_session c i)|done].
    + intros n. rewrite release_return_surplus by apply member_in_range. apply Hb.
    + intros j. rewrite release_return_sessions_counted. apply Hj.
    + done.
  - pose proof (previous_hands q Hq) as Hh. pose proof (no_past M _ _ m Hok) as Hno.
    destruct (release_return_sessions m (pass_owner i (previous c1 q) c1)) as [Hg' Ha']. split_and!.
    + apply (leave_ok _ (previous c1 q)); [by apply (hands_to_avoid _ _ _ _ Hno (Hno q))|right; by exists q| | |by rewrite Ha', active_pass_owner].
      * intros n. rewrite get_release_return. apply Hfin, get_pass_owner.
      * intros j. rewrite Hg', get_session_pass_owner. by rewrite Hg.
    + intros n. rewrite release_return_surplus by apply member_in_range. rewrite pass_owner_surplus by apply session_in_range. apply Hb.
    + intros j. rewrite release_return_sessions_counted, pass_owner_sessions. apply Hj.
    + intros Hm. assert (q = m) as -> by congruence. rewrite Hg', get_session_pass_owner, at_same. cbn [owner set_owner].
      destruct (ok_ranked _ _ _ Hok) as [rank Hrank]. apply (hands_to_past rank _ m); [exact Hrank|intros r Hr; by apply Hrank|].
      replace (restore (M m)) with (restore (past M m (M m))); [exact Hh|].
      unfold past, ptr_is. by rewrite bool_decide_false by apply (rank_irrefl _ _ _ Hok).
Qed.
End LeaveSession.

(** ** The root leaves: its session closes *)

(** Only the active session is open. *)
Lemma only_active_open M S i n j : console_ok M S (Some i) → j ≠ i → root (S j) = None ∧ owner (S j) = None ∧ (session (M n) = Some j → restore (M n) = None).
Proof.
  intros Hok Hj. assert (root (S j) = None) as Hr.
  { destruct (root (S j)) eqn:E; [|done]. destruct (ok_root _ _ _ Hok _ _ E) as (_ & _ & _ & _ & ?). congruence. }
  assert (∀ n', session (M n') = Some j → closing (S j) = false → False) as Hc.
  { intros n' Hs Hc. destruct (ok_open _ _ _ Hok _ _ Hs Hc) as [t Ht]. congruence. }
  split_and!; [done|..].
  - destruct (owner (S j)) eqn:E; [|done]. destruct (ok_owner _ _ _ Hok _ _ E) as (? & _ & _ & ?). by destruct (Hc z).
  - intros Hs. destruct (restore (M n)) eqn:E; [|done]. destruct (ok_restore _ _ _ Hok _ _ E) as (i' & ? & _ & _ & _ & _ & ?).
    assert (i' = j) as -> by congruence. by destruct (Hc n).
Qed.
Lemma ok_close M S m i M' S' : console_ok M S (Some i) → root (S i) = Some m →
  (∀ n, session (M' n) = session (M n) ∧ shell (M' n) = shell (M n) ∧ live (M' n) = (if decide (n = m) then false else live (M n)) ∧
    (session (M n) = Some i → restore (M' n) = None) ∧ (session (M n) ≠ Some i → restore (M' n) = restore (M n))) →
  (∀ j, j ≠ i → S' j = S j) → session_members (S' i) = session_members (S i) → root (S' i) = None → owner (S' i) = None → closing (S' i) = true →
  console_ok M' S' None.
Proof.
  intros Hok Hroot HM HS Hmem Hr Ho Hc. destruct (ok_root _ _ _ Hok _ _ Hroot) as (Hms & _).
  assert (∀ n, session (M' n) = session (M n)) as Es by (intros n; by destruct (HM n)).
  assert (∀ j, session_members (S' j) = session_members (S j)) as Em by (intros j; destruct (decide (j = i)) as [->|]; [done|by rewrite HS]).
  assert (∀ j, root (S' j) = None) as Er.
  { intros j. destruct (decide (j = i)) as [->|]; [done|]. rewrite HS by done. by destruct (only_active_open M S i 0 j Hok). }
  assert (∀ j, owner (S' j) = None) as Eo.
  { intros j. destruct (decide (j = i)) as [->|]; [done|]. rewrite HS by done. by destruct (only_active_open M S i 0 j Hok) as (_ & ? & _). }
  assert (∀ n, restore (M' n) = None) as En.
  { intros n. destruct (HM n) as (_ & _ & _ & Hin & Hout). destruct (decide (session (M n) = Some i)); [by apply Hin|]. rewrite Hout by done.
    destruct (restore (M n)) eqn:E; [|done]. destruct (ok_restore _ _ _ Hok _ _ E) as (j & Hj & _).
    destruct (only_active_open M S i n j Hok ltac:(congruence)) as (_ & _ & Hn). by rewrite Hn in E. }
  destruct Hok as [H1 H2 H3 H4 H5 _ _ _ H9 H10 H11 _ _]. split; intros *; rewrite ?Es, ?Em, ?Er, ?Eo, ?En; try done; eauto.
  - destruct (HM m0) as (_ & _ & -> & _). intros [Hl|Hl]; [|eauto]. destruct (decide (m0 = m)); [done|eauto].
  - intros Hs Hcl. destruct (decide (i0 = i)) as [->|]; [congruence|]. rewrite HS in Hcl by done. destruct (H9 _ _ Hs Hcl) as [t Ht].
    destruct (H5 _ _ Ht) as (_ & _ & _ & _ & ?). congruence.
  - intros E. destruct (decide (i0 = i)) as [->|]; [|rewrite HS by done; by apply H10].
    destruct (H3 _ _ Hms) as [k Hk]. by rewrite E in Hk.
  - destruct (HM m0) as (_ & -> & -> & _). destruct (decide (m0 = m)) as [|Hm0]; [done|]. intros Hl Hsh. destruct (H11 _ Hl Hsh) as (j & Hj & Hrj).
    destruct (H5 _ _ Hrj) as (_ & _ & _ & _ & ?). assert (j = i) as -> by congruence. congruence.
  - exists (λ _, O). intros n r. by rewrite En.
Qed.

(** The whole of [close_session], for the active session [i] whose root is [m]. *)
Lemma close_session_steps i m c : 0 ≤ i < CONSOLE_SESSIONS → (∀ k n, session_members (get_session c i) !! k = Some n → 0 ≤ n < CONSOLE_RECORDS) →
  active c = Some i → root (get_session c i) = Some m →
  (∀ n, shape (get_member (close_session i m c) n) =
     shape (if placed (session_members (get_session c i)) CONSOLE_SESSIONS n then set_command false (set_restore None (get_member c n)) else get_member c n)) ∧
  (∀ j, session_shape (get_session (close_session i m c) j) =
     session_shape (at_index i (set_owner None (set_root None (set_closing true (get_session c i)))) (get_session c) j)) ∧
  active (close_session i m c) = None ∧
  (∀ n, eq32 (member_surplus (close_session i m c) n) (member_surplus c n)) ∧
  (∀ j, eq32 (session_surplus (close_session i m c) j) (session_surplus c j)).
Proof.
  intros Hi Hplaces Ha Hr. unfold close_session.
  set (ca := upd_session i (set_closing true) c).
  assert (∀ j, get_session ca j = at_index i (set_closing true (get_session c i)) (get_session c) j) as Sa by (intros j; apply get_put_session).
  assert (∀ n, member_surplus ca n = member_surplus c n) as Ba by (intros n; unfold ca; rewrite surplus_session by done; cbn; lia).
  assert (∀ j, session_surplus ca j = session_surplus c j) as Ja by (intros j; by apply surplus_session_same).
  assert (∀ n, get_member ca n = get_member c n) as Ma by done. assert (active ca = Some i) as Aa by done. clearbody ca.
  assert (session_members (get_session ca i) = session_members (get_session c i)) as Hl by (rewrite Sa, at_same; done).
  destruct (close_members_spec ca i) as (Mb & Sb & Ab & Bb); [by rewrite Hl|]. rewrite Hl in Mb.
  generalize dependent (close_members i ca). intros cb Mb Sb Ab Bb.
  pose proof (get_pass_owner i None cb) as Mc. pose proof (get_session_pass_owner i None cb) as Sc. pose proof (active_pass_owner i None cb) as Ac.
  pose proof (λ n, pass_owner_surplus i None cb n Hi) as Bc. pose proof (pass_owner_sessions i None cb) as Jc.
  generalize dependent (pass_owner i None cb). intros cc Mc Sc Ac Bc Jc.
  assert (ptr_is (active (upd_session i (set_root None) (bump (Some m) (-1) cc))) i = true) as ->.
  { change (ptr_is (active cc) i = true). unfold ptr_is. apply bool_decide_true. congruence. }
  assert (∀ j, get_session cc j = at_index i (set_owner None (set_closing true (get_session c i))) (get_session c) j) as Sc'.
  { intros j. rewrite Sc, Sb. at_cases; [by rewrite Sa, at_same|by rewrite Sa, at_other]. }
  assert (∀ j, session_surplus cb j = session_surplus c j) as Jb.
  { intros j. rewrite <- Ja. unfold session_surplus, places_in. by rewrite Sb, Ab. }
  split_and!; [..|done| |].
  - intros n. unfold bump_session, upd_session. rewrite get_member_put_session. change (shape (get_member (bump (Some m) (-1) cc) n) = shape (if placed (session_members (get_session c i)) CONSOLE_SESSIONS n then set_command false (set_restore None (get_member c n)) else get_member c n)).
    rewrite shape_bump, Mc, Mb. by rewrite Ma.
  - intros j. unfold bump_session, upd_session. rewrite get_put_session. change (get_session (set_active None ?x)) with (get_session x).
    rewrite !get_put_session, !get_session_bump, !Sc'. at_cases; rewrite ?decide_True, ?decide_False by done; rewrite ?at_same, ?at_other by done; done.
  - intros n. rewrite surplus_bump_session_members by done. change (member_surplus (set_active None ?x) n) with (member_surplus x n).
    rewrite surplus_session by done. rewrite surplus_bump, get_session_bump, Bc, Bb, Ba, Sc', at_same. cbn [owner root set_owner set_root set_closing].
    rewrite Hr. change (points_at None n) with 0. apply eq32_of. lia.
  - intros j. rewrite surplus_bump_session.
    assert (session_surplus (set_active None (upd_session i (set_root None) (bump (Some m) (-1) cc))) j = session_surplus c j + Z.b2z (bool_decide (j = i))) as ->; [|apply eq32_of; lia].
    rewrite <- Jb, <- Jc. rewrite <- (surplus_bump_members (Some m) (-1) cc j), <- (surplus_session_same i (set_root None) (bump (Some m) (-1) cc) j) by done.
    unfold session_surplus, places_in. change (active (set_active None ?x)) with (@None Z). change (get_session (set_active None ?x)) with (get_session x).
    change (active (upd_session i (set_root None) (bump (Some m) (-1) cc))) with (active cc). rewrite Ac, Ab, Aa.
    change (points_at None j) with 0. unfold points_at, ptr_is. destruct (decide (j = i)) as [->|].
    + rewrite !bool_decide_true by done. cbn. lia.
    + rewrite !bool_decide_false by congruence. cbn. lia.
Qed.

(** ** Exit preserves the invariant *)

Lemma placed_session c i n : console_ok (get_member c) (get_session c) (active c) →
  placed (session_members (get_session c i)) CONSOLE_SESSIONS n = bool_decide (session (get_member c n) = Some i).
Proof.
  intros Hok. apply eq_true_iff_eq. rewrite placed_spec, bool_decide_eq_true. split.
  - intros (k & _ & Hk). by destruct (ok_place _ _ _ Hok _ _ _ Hk) as (_ & _ & ?).
  - intros Hs. destruct (ok_placed _ _ _ Hok _ _ Hs) as [k Hk]. exists k. split; [|done]. by destruct (ok_place _ _ _ Hok _ _ _ Hk) as (_ & ? & _).
Qed.

Definition ended (x : console_member) : console_member := set_command false (set_live false x).
Lemma get_ended m c n : get_member (upd_member m ended c) n = at_index m (ended (get_member c m)) (get_member c) n.
Proof. apply get_put_member. Qed.

Definition same_counts (c c' : console) : Prop :=
  (∀ n, eq32 (member_surplus c' n) (member_surplus c n)) ∧ (∀ j, eq32 (session_surplus c' j) (session_surplus c j)).
Lemma same_counts_wf c c' : console_wf c → same_counts c c' → console_ok (get_member c') (get_session c') (active c') → console_wf c'.
Proof. intros (_ & Hm & Hs) [Em Es] Hok. split_and!; [done|intros n; by rewrite Em, Hm|intros j; by rewrite Es, Hs]. Qed.

Lemma exit_retire m c : console_ok (get_member c) (get_session c) (active c) → 0 ≤ m < CONSOLE_RECORDS →
  (∀ i, root (get_session c i) ≠ Some m) → (∀ i, owner (get_session c i) ≠ Some m) → (∀ n, restore (get_member c n) ≠ Some m) →
  let c' := release_return m (upd_member m ended c) in
  console_ok (get_member c') (get_session c') (active c') ∧ same_counts c c'.
Proof.
  intros Hok Hm Nr No Nn c'. destruct (release_return_sessions m (upd_member m ended c)) as [HS HA]. split.
  - unfold c'. rewrite HS, HA. apply (ok_shape (at_index m (set_restore None (ended (get_member c m))) (get_member c)) (get_session c)); [|intros n|done].
    + by apply ok_retire.
    + rewrite get_release_return, get_ended. unfold at_index. by destruct (decide (n = m)) as [->|].
  - split; intros n; unfold c'; [rewrite release_return_surplus by done; by rewrite surplus_member|]. by rewrite release_return_sessions_counted.
Qed.


Lemma exit_close m i c : console_ok (get_member c) (get_session c) (active c) → root (get_session c i) = Some m →
  let c' := release_return m (close_session i m (upd_member m ended c)) in
  console_ok (get_member c') (get_session c') (active c') ∧ same_counts c c'.
Proof.
  intros Hok Hr c'. destruct (ok_root _ _ _ Hok _ _ Hr) as (Hs & _ & Hr0 & _ & Ha).
  destruct (close_session_steps i m (upd_member m ended c) (session_in_range c i m Hok Hs)) as (HM & HS & HA & HB & HJ);
    [intros k n; apply (places_in_range c Hok)|done|done|].
  change (get_session (upd_member m ended c)) with (get_session c) in HM, HS.
  pose proof (λ n, placed_session c i n Hok) as Hp.
  unfold c'. clear c'. generalize dependent (close_session i m (upd_member m ended c)). intros d HM HS HA HB HJ.
  destruct (release_return_sessions m d) as [HS' HA']. split.
  - rewrite HS', HA', HA. rewrite Ha in Hok.
    assert (∀ n, shape (get_member (release_return m d) n) = shape (if bool_decide (session (get_member c n) = Some i)
      then set_command false (set_restore None (at_index m (ended (get_member c m)) (get_member c) n)) else get_member c n)) as Hn.
    { intros n. rewrite get_release_return. pose proof (HM n) as H. rewrite Hp, get_ended in H. destruct (decide (n = m)) as [->|].
      - rewrite bool_decide_true in * by done. by rewrite (shape_set_restore None _ _ H).
      - rewrite H. unfold at_index. by rewrite decide_False. }
    apply (ok_shape (get_member (release_return m d)) (at_index i (set_owner None (set_root None (set_closing true (get_session c i)))) (get_session c)));
      [|done|exact HS].
    apply (ok_close (get_member c) (get_session c) m i); [exact Hok|exact Hr|..].
    + intros n. specialize (Hn n). rewrite (shape_session _ _ Hn), (shape_shell _ _ Hn), (shape_live _ _ Hn), (shape_restore _ _ Hn).
      case_bool_decide as Hin; at_cases; rewrite ?decide_True, ?decide_False by done; try done. by destruct (decide (n = m)) as [->|].
    + intros j Hj. by rewrite at_other.
    + by rewrite at_same.
    + by rewrite at_same.
    + by rewrite at_same.
    + by rewrite at_same.
  - split; intros n; [rewrite release_return_surplus by apply (member_in_range c i m Hok Hs); rewrite HB; by rewrite surplus_member|].
    rewrite release_return_sessions_counted, HJ. done.
Qed.

Lemma console_member_exit_wf p c : console_wf c →
  console_wf (snd (console_member_exit p c)) ∧
  (∀ m i, p = Some m → owner (get_session c i) = Some m → root (get_session c i) ≠ Some m →
    hands_to (get_member c) (restore (get_member c m)) (owner (get_session (snd (console_member_exit p c)) i))).
Proof.
  intros Hwf. pose proof Hwf as (Hok & _). destruct p as [m|]; [|by split]. unfold console_member_exit.
  destruct (live (get_member c m)) eqn:Hl; cbn [negb]; last first.
  { split; [done|]. intros m' i [= <-] Ho _. destruct (ok_owner _ _ _ Hok _ _ Ho) as (_ & ? & _). congruence. }
  fold ended. pose proof (ok_member_range _ _ _ Hok m (or_introl Hl)) as Hm.
  change (get_session (upd_member m ended c)) with (get_session c).
  destruct (session (get_member c m)) as [i|] eqn:Hs; cbn [snd]; last first.
  { destruct (no_session_unlinked _ _ _ m Hok Hs) as (_ & Nr & No & Nn & _). destruct (exit_retire m c Hok Hm Nr No Nn) as [H1 H2].
    split; [by apply (same_counts_wf c)|]. intros m' i [= <-] Ho. by destruct (No i). }
  assert (∀ j, owner (get_session c j) = Some m → j = i) as Honly.
  { intros j Ho. destruct (ok_owner _ _ _ Hok _ _ Ho) as (? & _). congruence. }
  unfold ptr_is. case_bool_decide as Hr; [|destruct (closing (get_session c i)) eqn:Hc].
  - destruct (exit_close m i c Hok Hr) as [H1 H2]. split; [by apply (same_counts_wf c)|]. intros m' j [= <-] ->%Honly. done.
  - destruct (exit_retire m c Hok Hm) as [H1 H2].
    + intros j Hj. destruct (ok_root _ _ _ Hok _ _ Hj) as (? & _). congruence.
    + intros j Hj. destruct (ok_owner _ _ _ Hok _ _ Hj) as (? & _ & _ & ?). congruence.
    + intros n Hn. destruct (ok_restore _ _ _ Hok _ _ Hn) as (j & _ & ? & _ & _ & _ & ?). congruence.
    + split; [by apply (same_counts_wf c)|]. intros m' j [= <-] Hj. destruct (ok_owner _ _ _ Hok _ _ Hj) as (? & _ & _ & ?). congruence.
  - destruct (leave_session_spec c i m Hok Hs Hc Hr) as (H1 & H2 & H3 & H4). split.
    + apply (same_counts_wf c); [done| |exact H1]. split; [exact H2|]. intros j. cbn [snd]. rewrite H3. done.
    + intros m' j [= <-] Ho _. pose proof (Honly _ Ho) as ->. by apply H4.
Qed.

(** ** Attaching and detaching *)

Lemma surplus_put m x c n : restore x = restore (get_member c m) → references x = references (get_member c m) →
  member_surplus (put_member m x c) n = member_surplus c n.
Proof.
  intros Hr Hn. unfold member_surplus, links_to. change (get_session (put_member m x c)) with (get_session c).
  assert (∀ k, restore (get_member (put_member m x c) k) = restore (get_member c k) ∧
    references (get_member (put_member m x c) k) = references (get_member c k)) as He.
  { intros k. rewrite get_put_member. by destruct (decide (k = m)) as [->|]. }
  rewrite (proj2 (He n)). do 2 f_equal. apply sum_range_ext. intros k _. by rewrite (proj1 (He k)).
Qed.
Definition held (l : gmap Z Z) : Z := sum_range 0 CONSOLE_SESSIONS (λ k, Z.b2z (bool_decide (is_Some (l !! k)))).
Lemma held_insert l k m : 0 ≤ k < CONSOLE_SESSIONS → l !! k = None → held (<[k := m]> l) = held l + 1.
Proof.
  intros Hk Hl. unfold held. rewrite (sum_range_point 0 CONSOLE_SESSIONS k _ (λ k', Z.b2z (bool_decide (is_Some (l !! k'))))); [|done|].
  - by rewrite lookup_insert_eq, Hl.
  - intros k' _ Hne. by rewrite lookup_insert_ne.
Qed.
Lemma held_delete l k m : 0 ≤ k < CONSOLE_SESSIONS → l !! k = Some m → held (delete k l) = held l - 1.
Proof.
  intros Hk Hl. replace l with (<[k := m]> (delete k l)) at 2 by (by apply insert_delete_id). rewrite held_insert; [lia|done|apply lookup_delete_eq].
Qed.
Lemma held_bounds l : 0 ≤ held l ≤ CONSOLE_SESSIONS.
Proof.
  unfold held. assert (∀ n, 0 ≤ n → 0 ≤ sum_range 0 n (λ k, Z.b2z (bool_decide (is_Some (l !! k)))) ≤ n) as H; [|by apply H].
  apply natlike_ind; [by cbn|]. intros n Hn IH. unfold Z.succ. rewrite sum_range_snoc by done. destruct (bool_decide _); cbn [Z.b2z]; lia.
Qed.
Lemma held_zero l : held l = 0 → ∀ k, 0 ≤ k < CONSOLE_SESSIONS → l !! k = None.
Proof.
  intros H0 k Hk. destruct (l !! k) as [m|] eqn:E; [|done]. pose proof (held_bounds (delete k l)). rewrite (held_delete l k m) in * by done. lia.
Qed.
Lemma session_surplus_members i f c j : (∀ x, session_references (f x) = session_references x) →
  session_surplus (upd_session i f c) j =
  session_surplus c j + (held (session_members (get_session c i)) - held (session_members (f (get_session c i)))) * Z.b2z (bool_decide (j = i)).
Proof.
  intros Hf. unfold session_surplus, places_in, upd_session. cbn [active put_session]. rewrite get_put_session. destruct (decide (j = i)) as [->|].
  - rewrite bool_decide_true by done. rewrite Hf. unfold held. cbn [Z.b2z]. lia.
  - rewrite bool_decide_false by done. cbn [Z.b2z]. lia.
Qed.

(** The record joins place [k] of session [i]. *)
Definition join_place (m : Z) (x : console_member) (i k : Z) (c : console) : console :=
  bump_session i 1 (upd_session i (λ y, set_members (<[k := m]> (session_members y)) y) (put_member m x c)).
Lemma join_place_spec m x i k c : 0 ≤ i < CONSOLE_SESSIONS → 0 ≤ k < CONSOLE_SESSIONS → session_members (get_session c i) !! k = None →
  restore x = restore (get_member c m) → references x = references (get_member c m) →
  (∀ n, get_member (join_place m x i k c) n = at_index m x (get_member c) n) ∧
  (∀ j, session_shape (get_session (join_place m x i k c) j) =
     session_shape (at_index i (set_members (<[k := m]> (session_members (get_session c i))) (get_session c i)) (get_session c) j)) ∧
  active (join_place m x i k c) = active c ∧ same_counts c (join_place m x i k c).
Proof.
  intros Hi Hk Hfree Hr Hn. unfold join_place. split_and!; [intros n; apply get_put_member| |done|split].
  - intros j. unfold bump_session, upd_session. rewrite !get_put_session, (decide_True (P := i = i)) by done. unfold at_index. by destruct (decide (j = i)) as [->|].
  - intros n. rewrite surplus_bump_session_members by done. rewrite surplus_session by done. cbn [owner root set_members].
    rewrite surplus_put by done. change (get_session (put_member m x c)) with (get_session c). apply eq32_of. lia.
  - intros j. rewrite surplus_bump_session. rewrite session_surplus_members by done.
    change (get_session (put_member m x c)) with (get_session c). change (session_surplus (put_member m x c) j) with (session_surplus c j).
    cbn [session_members set_members]. rewrite held_insert by done. apply eq32_of. lia.
Qed.

Lemma find_seqZ f n k : List.find f (seqZ 0 n) = Some k → 0 ≤ k < n ∧ f k = true.
Proof. intros [Hk%list_elem_of_In%elem_of_seqZ Hf]%find_some. split; [lia|done]. Qed.
Lemma free_place_some l k : free_place l = Some k → 0 ≤ k < CONSOLE_SESSIONS ∧ l !! k = None.
Proof. intros [Hk Hf]%find_seqZ. split; [done|]. apply negb_true_iff, bool_decide_eq_false in Hf. by apply eq_None_not_Some. Qed.
Lemma available_some c i : console_wf c → available c = Some i → 0 ≤ i < CONSOLE_SESSIONS ∧ session_members (get_session c i) = ∅.
Proof.
  intros (Hok & _ & Hj) [Hi Hz]%find_seqZ. split; [done|]. apply Z.eqb_eq in Hz. specialize (Hj i). unfold session_surplus, places_in in Hj. rewrite Hz in Hj.
  fold (held (session_members (get_session c i))) in Hj. set (h := held _) in *. pose proof (held_bounds (session_members (get_session c i))) as Hb. fold h in Hb.
  assert (0 ≤ points_at (active c) i ≤ 1) as Hp by (unfold points_at; destruct (ptr_is _ _); cbn; lia).
  assert (h = 0) as H0.
  { apply wrap32_zero in Hj; unfold CONSOLE_SESSIONS, UINT32_MAX in *; lia. }
  apply map_eq. intros k. rewrite lookup_empty. destruct (session_members (get_session c i) !! k) as [m|] eqn:E; [|done].
  destruct (ok_place _ _ _ Hok _ _ _ E) as (_ & Hk & _). by rewrite (held_zero _ H0 k Hk) in E.
Qed.

Section AttachWf.
Context (c : console) (m id : Z) (foreground : bool).
Hypothesis Hwf : console_wf c.
Hypothesis in_range : 0 ≤ m < CONSOLE_RECORDS.
Hypothesis unattached : session (get_member c m) = None.
Hypothesis unreferenced : references (get_member c m) = 0.
Let fresh (s : option Z) : console_member := Member s None id 0 true false false false foreground.

Lemma attach_ok : console_ok (get_member c) (get_session c) (active c).
Proof. apply Hwf. Qed.
Lemma attach_restore : restore (get_member c m) = None.
Proof. by destruct (no_session_unlinked _ _ _ m attach_ok unattached) as (_ & _ & _ & _ & ?). Qed.

Lemma attach_alone_wf : console_wf (put_member m (fresh None) c).
Proof.
  pose proof attach_ok as Hok. pose proof attach_restore as Hr. apply (same_counts_wf c); [done| |].
  - split; [|done]. intros n. by rewrite surplus_put.
  - apply (ok_shape (at_index m (fresh None) (get_member c)) (get_session c)); [by apply ok_attach_alone| |done].
    intros n. by rewrite get_put_member.
Qed.

Lemma attach_background_wf i k : 0 ≤ i < CONSOLE_SESSIONS → 0 ≤ k < CONSOLE_SESSIONS → session_members (get_session c i) !! k = None →
  closing (get_session c i) = false → is_Some (root (get_session c i)) → console_wf (join_place m (fresh (Some i)) i k c).
Proof.
  intros Hi Hk Hfree Hc Ht. pose proof attach_ok as Hok. pose proof attach_restore as Hr.
  destruct (join_place_spec m (fresh (Some i)) i k c) as (HM & HS & HA & HB); [done..|]. apply (same_counts_wf c); [done|done|]. rewrite HA.
  apply (ok_shape _ _ _ _ _ (ok_join _ _ _ m Hok unattached in_range (fresh (Some i)) i k None (owner (get_session c i)) Hi Hk Hfree Hc Ht
    ltac:(done) (or_introl (conj eq_refl eq_refl)))); [intros n; by rewrite HM|].
  intros j. rewrite HS. at_cases; [by destruct (get_session c i)|done].
Qed.

Lemma attach_foreground_wf i k p : 0 ≤ i < CONSOLE_SESSIONS → 0 ≤ k < CONSOLE_SESSIONS → session_members (get_session c i) !! k = None →
  closing (get_session c i) = false → owner (get_session c i) = Some p → is_Some (root (get_session c i)) →
  console_wf (pass_owner i (Some m) (bump (Some p) 1 (upd_member m (set_restore (Some p)) (join_place m (fresh (Some i)) i k c)))).
Proof.
  intros Hi Hk Hfree Hc Ho Ht. pose proof attach_ok as Hok. pose proof attach_restore as Hr.
  destruct (join_place_spec m (fresh (Some i)) i k c) as (HM & HS & HA & HB & HJ); [done..|].
  generalize dependent (join_place m (fresh (Some i)) i k c). intros d HM HS HA HB HJ.
  apply (same_counts_wf c); [done|split|].
  - intros n. rewrite pass_owner_surplus, surplus_bump, surplus_restore, HM, at_same by done. rewrite HB. cbn [restore fresh].
    change (points_at None n) with 0. apply eq32_of. lia.
  - intros j. rewrite pass_owner_sessions, surplus_bump_members. apply HJ.
  - rewrite active_pass_owner, active_bump. change (active (upd_member m (set_restore (Some p)) d)) with (active d). rewrite HA.
    apply (ok_shape _ _ _ _ _ (ok_join _ _ _ m Hok unattached in_range (set_restore (Some p) (fresh (Some i))) i k (Some p) (Some m) Hi Hk Hfree Hc Ht
      ltac:(done) (or_intror (ex_intro _ p (conj eq_refl (conj Ho eq_refl)))))).
    + intros n. rewrite get_pass_owner, shape_bump. unfold upd_member. rewrite get_put_member, !HM. unfold at_index. rewrite (decide_True (P := m = m)) by done.
      by destruct (decide (n = m)).
    + intros j. rewrite get_session_pass_owner, get_session_bump. change (get_session (upd_member m (set_restore (Some p)) d)) with (get_session d).
      pose proof (HS j) as Hj. pose proof (HS i) as Hii. at_cases; [|done]. by rewrite (session_shape_owner (Some m) _ _ Hii).
Qed.

Lemma attach_root_wf i k : 0 ≤ i < CONSOLE_SESSIONS → 0 ≤ k < CONSOLE_SESSIONS → session_members (get_session c i) = ∅ → active c = None →
  console_wf (pass_owner i (Some m) (bump (Some m) 1 (upd_session i (set_root (Some m))
    (bump_session i 1 (set_active (Some i) (join_place m (fresh (Some i)) i k c)))))).
Proof.
  intros Hi Hk Hempty Ha. pose proof attach_ok as Hok. pose proof attach_restore as Hr.
  destruct (join_place_spec m (fresh (Some i)) i k c) as (HM & HS & HA & HB & HJ); [done|done|by rewrite Hempty|done|done|].
  generalize dependent (join_place m (fresh (Some i)) i k c). intros d HM HS HA HB HJ.
  assert (root (get_session c i) = None) as Hroot by (rewrite Ha in Hok; by destruct (inactive_closed _ _ 0 i Hok)).
  assert (∀ j, get_session (bump_session i 1 (set_active (Some i) d)) j =
    at_index i (set_session_references (wrap32 (session_references (get_session d i) + 1)) (get_session d i)) (get_session d) j) as Hb
    by (intros j; unfold bump_session, upd_session; by rewrite get_put_session).
  assert (root (get_session d i) = None) as Hdroot.
  { rewrite (session_shape_root _ _ (HS i)), at_same. done. }
  apply (same_counts_wf c); [done|split|].
  - intros n. rewrite pass_owner_surplus, surplus_bump, surplus_session, surplus_bump_session_members by done.
    change (member_surplus (set_active (Some i) d) n) with (member_surplus d n). rewrite Hb, at_same. cbn [owner root set_session_references set_root].
    rewrite Hdroot, HB. change (points_at None n) with 0. apply eq32_of. lia.
  - intros j. rewrite pass_owner_sessions, surplus_bump_members, surplus_session_same by done. rewrite surplus_bump_session.
    rewrite <- HJ. apply eq32_of. unfold session_surplus, places_in. change (get_session (set_active (Some i) d)) with (get_session d).
    cbn [active set_active]. rewrite HA, Ha. change (points_at None j) with 0. unfold points_at, ptr_is.
    replace (bool_decide (Some i = Some j)) with (bool_decide (j = i)) by (apply bool_decide_ext; split; congruence). lia.
  - rewrite active_pass_owner. rewrite Ha in Hok.
    apply (ok_shape _ _ _ _ _ (ok_attach_root _ _ m (fresh (Some i)) i k 0 Hok unattached in_range ltac:(done) Hi Hk Hempty)).
    + intros n. rewrite get_pass_owner, shape_bump. change (shape (get_member d n) = shape (at_index m (fresh (Some i)) (get_member c) n)). by rewrite HM.
    + intros j. rewrite get_session_pass_owner, get_session_bump. unfold upd_session. rewrite !Hb, at_same.
      unfold at_index at 1. rewrite !get_put_session, (decide_True (P := i = i)) by done. pose proof (HS j) as Hj. unfold at_index in *.
      destruct (decide (j = i)) as [->|Hne]; [|rewrite Hb, decide_False by done; exact Hj].
      pose proof (ok_empty _ _ _ Hok i Hempty) as He. rewrite He in Hj. cbn [session_members set_session_references no_session] in Hj.
      rewrite insert_empty in Hj. exact (session_shape_rooted (Some m) (Some m) _ _ _ Hj).
Qed.
End AttachWf.

Lemma console_attach_wf p id parent foreground c : console_wf c → (∀ m, p = Some m → 0 ≤ m < CONSOLE_RECORDS) →
  console_wf (snd (console_attach p id parent foreground c)).
Proof.
  intros Hwf Hrange. pose proof Hwf as (Hok & _). destruct p as [m|]; [|done]. specialize (Hrange m eq_refl). unfold console_attach.
  destruct (id =? 0); [done|]. destruct (live (get_member c m)); [done|]. cbn [orb].
  destruct (session (get_member c m)) eqn:Hs; [done|]. rewrite (bool_decide_false (is_Some None)) by (by intros [? ?]). cbn [orb].
  destruct (Z.eqb_spec (references (get_member c m)) 0) as [Hn|]; cbn [negb orb]; [|done].
  destruct (console_can_launch c parent foreground) eqn:Hl; cbn [negb]; [|done].
  destruct parent as [p|].
  - unfold console_can_launch in Hl. cbn [mbind option_bind] in *. destruct (live (get_member c p)) eqn:Hlive, (cancelled (get_member c p)) eqn:Hcan; cbn [negb andb] in Hl; try done.
    destruct (session (get_member c p)) as [i|] eqn:Hp; [|by apply attach_alone_wf].
    destruct (closing (get_session c i)) eqn:Hc; cbn [negb andb] in Hl; [done|].
    destruct (free_place (session_members (get_session c i))) as [k|] eqn:Hk; [|done]. apply free_place_some in Hk as [Hk Hfree].
    pose proof (session_in_range c i p Hok Hp) as Hi. pose proof (ok_open _ _ _ Hok _ _ Hp Hc) as Ht.
    destruct foreground; cbn [snd negb orb] in *; [|by apply attach_background_wf].
    destruct (owns c (Some p)) eqn:Hown; [|done]. apply attach_foreground_wf; try done.
    unfold owns in Hown. rewrite Hlive, Hcan, Hp in Hown. cbn [negb andb] in Hown. unfold ptr_is in Hown. rewrite !andb_true_iff in Hown.
    destruct Hown as [_ Ho]. by apply bool_decide_eq_true in Ho.
  - destruct foreground; [|by apply attach_alone_wf]. unfold console_can_launch in Hl. cbn [negb orb mbind option_bind] in Hl.
    destruct (active c) as [a|] eqn:Ha; [by rewrite bool_decide_true in Hl by done|].
    destruct (available c) as [i|] eqn:Hav; [|by rewrite andb_comm in Hl]. destruct (available_some c i Hwf Hav) as [Hi He].
    destruct (free_place (session_members (get_session c i))) as [k|] eqn:Hk; [|done]. apply free_place_some in Hk as [Hk Hfree].
    cbn [snd]. by apply attach_root_wf.
Qed.

Lemma points_at_bounds p m : 0 ≤ points_at p m ≤ 1.
Proof. unfold points_at. destruct (ptr_is p m); cbn; lia. Qed.
Lemma points_at_zero p m : points_at p m = 0 → p ≠ Some m.
Proof. unfold points_at, ptr_is. case_bool_decide; [done|done]. Qed.
Lemma links_bounds c m : 0 ≤ links_to c m ≤ 100.
Proof.
  unfold links_to.
  pose proof (sum_range_bounds 0 CONSOLE_SESSIONS (λ i, points_at (owner (get_session c i)) m + points_at (root (get_session c i)) m) 2 ltac:(done)) as H1.
  pose proof (sum_range_bounds 0 CONSOLE_RECORDS (λ n, points_at (restore (get_member c n)) m) 1 ltac:(done)) as H2.
  assert (∀ p, 0 ≤ points_at p m ≤ 1) as Hp by (intros; apply points_at_bounds).
  specialize (H1 ltac:(intros i _; pose proof (Hp (owner (get_session c i))); pose proof (Hp (root (get_session c i))); lia)).
  specialize (H2 ltac:(intros i _; apply Hp)). unfold CONSOLE_SESSIONS, CONSOLE_RECORDS in *. lia.
Qed.
(** A counter of zero means that nothing points at the record. *)
Lemma unreferenced_unlinked c m : console_wf c → references (get_member c m) = 0 →
  (∀ i, root (get_session c i) ≠ Some m) ∧ (∀ i, owner (get_session c i) ≠ Some m) ∧ (∀ n, restore (get_member c n) ≠ Some m).
Proof.
  intros (Hok & Hm & _) Hz. specialize (Hm m). unfold member_surplus in Hm. rewrite Hz in Hm. pose proof (links_bounds c m) as Hb.
  apply wrap32_zero in Hm; [|unfold UINT32_MAX; lia]. assert (links_to c m = 0) as H0 by lia. unfold links_to in H0.
  assert (∀ p, 0 ≤ points_at p m) as Hp by (intros; apply points_at_bounds).
  assert (0 ≤ sum_range 0 CONSOLE_RECORDS (λ n, points_at (restore (get_member c n)) m)) as Hs2
    by (apply (sum_range_bounds _ _ _ 1); [done|intros; apply points_at_bounds]).
  assert (0 ≤ sum_range 0 CONSOLE_SESSIONS (λ i, points_at (owner (get_session c i)) m + points_at (root (get_session c i)) m)) as Hs1.
  { apply (sum_range_bounds _ _ _ 2); [done|]. intros i _. pose proof (points_at_bounds (owner (get_session c i)) m). pose proof (points_at_bounds (root (get_session c i)) m). lia. }
  pose proof (sum_range_each_zero 0 CONSOLE_SESSIONS (λ i, points_at (owner (get_session c i)) m + points_at (root (get_session c i)) m)) as H1.
  pose proof (sum_range_each_zero 0 CONSOLE_RECORDS (λ n, points_at (restore (get_member c n)) m)) as H2. cbv beta in H1, H2.
  assert (∀ i, owner (get_session c i) = Some m ∨ root (get_session c i) = Some m → 0 ≤ i < CONSOLE_SESSIONS) as Hrange.
  { intros i [Ho|Ho]; [destruct (ok_owner _ _ _ Hok _ _ Ho) as (Hs & _)|destruct (ok_root _ _ _ Hok _ _ Ho) as (Hs & _)];
      apply (session_in_range c i m Hok Hs). }
  assert (∀ i, 0 ≤ i < CONSOLE_SESSIONS → owner (get_session c i) ≠ Some m ∧ root (get_session c i) ≠ Some m) as Hsess.
  { intros i Hi. specialize (H1 ltac:(intros j _; pose proof (Hp (owner (get_session c j))); pose proof (Hp (root (get_session c j))); lia) ltac:(lia) i Hi).
    split; apply points_at_zero; pose proof (Hp (owner (get_session c i))); pose proof (Hp (root (get_session c i))); lia. }
  split_and!; [intros i Hi; destruct (Hsess i); eauto..|]. intros n Hn. destruct (ok_restore _ _ _ Hok _ _ Hn) as (i & Hs & _).
  apply (points_at_zero (restore (get_member c n)) m); [|done]. apply H2; [intros; apply Hp|lia|]. apply (ok_member_range _ _ _ Hok). right. by rewrite Hs.
Qed.

(** A place is given back; [S'] zeroes the session exactly when it was the last. *)
Lemma ok_detach M S A m i k S' : console_ok M S A → session (M m) = Some i → session_members (S i) !! k = Some m →
  (∀ j, root (S j) ≠ Some m) → (∀ j, owner (S j) ≠ Some m) → (∀ n, restore (M n) ≠ Some m) → restore (M m) = None → live (M m) = false →
  (∀ j, j ≠ i → S' j = S j) →
  (S' i = no_session ∧ delete k (session_members (S i)) = ∅ ∧ A ≠ Some i ∨
   S' i = set_members (delete k (session_members (S i))) (S i) ∧ delete k (session_members (S i)) ≠ ∅) →
  console_ok (at_index m no_member M) S' A.
Proof.
  intros Hok Hs Hk Nr No Nn Hrm Hlm HS Hcase.
  assert (∀ n, session (M n) = Some i → n ≠ m → ∃ k', delete k (session_members (S i)) !! k' = Some n) as Hstay.
  { intros n Hn Hne. destruct (ok_placed _ _ _ Hok _ _ Hn) as [k' Hk']. exists k'. rewrite lookup_delete_ne by congruence. done. }
  assert (session_members (S' i) = delete k (session_members (S i))) as Emi.
  { destruct Hcase as [(-> & E & _)|[-> _]]; [by rewrite E|done]. }
  assert (∀ n, session (M n) = Some i → n ≠ m → root (S' i) = root (S i) ∧ owner (S' i) = owner (S i) ∧ closing (S' i) = closing (S i)) as Esame.
  { intros n Hn Hne. destruct Hcase as [(_ & E & _)|[-> _]]; [|done]. destruct (Hstay n Hn Hne) as [k' Hk']. by rewrite E in Hk'. }
  assert (∀ j n, session_members (S' j) !! n = None ∨ session_members (S' j) !! n = session_members (S j) !! n) as Emem.
  { intros j n. destruct (decide (j = i)) as [->|]; [|right; by rewrite HS]. rewrite Emi.
    destruct (decide (n = k)) as [->|]; [left; apply lookup_delete_eq|right; by rewrite lookup_delete_ne]. }
  assert (∀ j q, root (S' j) = Some q → root (S j) = Some q) as Hroot.
  { intros j q. destruct (decide (j = i)) as [->|]; [|by rewrite HS]. destruct Hcase as [(-> & _)|[-> _]]; done. }
  assert (∀ j q, owner (S' j) = Some q → owner (S j) = Some q) as Hown.
  { intros j q. destruct (decide (j = i)) as [->|]; [|by rewrite HS]. destruct Hcase as [(-> & _)|[-> _]]; done. }
  assert (∀ n j, session (M n) = Some j → n ≠ m → root (S' j) = root (S j) ∧ owner (S' j) = owner (S j) ∧ closing (S' j) = closing (S j)) as Esame'.
  { intros n j Hn Hne. destruct (decide (j = i)) as [->|]; [by apply (Esame n)|by rewrite HS]. }
  pose proof Hok as [H1 H2 H3 H4 H5 H6 H7 H8 H9 H10 H11 H12 [rank H13]]. split.
  - intros n. at_cases; [by intros [|[]]|eauto].
  - intros j k' n Hj. destruct (Emem j k') as [E|E]; [congruence|]. rewrite E in Hj. destruct (H2 _ _ _ Hj) as (? & ? & Hn).
    split; [done|]. split; [done|]. rewrite at_other; [done|]. intros ->. assert (j = i) as -> by congruence. assert (k' = k) as -> by eauto.
    rewrite Emi, lookup_delete_eq in E. congruence.
  - intros j n. at_cases; [done|]. intros Hn. destruct (decide (j = i)) as [->|]; [rewrite Emi; eauto|rewrite HS by done; eauto].
  - intros j k1 k2 n E1 E2. destruct (Emem j k1), (Emem j k2); try congruence. eapply H4; [rewrite <- E1|rewrite <- E2]; eauto.
  - intros j n Hj. pose proof (Hroot _ _ Hj) as Hr. assert (n ≠ m) by (intros ->; by destruct (Nr j)). at_cases. destruct (H5 _ _ Hr) as (Hn & ? & ? & ? & ?).
    destruct (Esame' n j Hn) as (_ & _ & ->); done.
  - intros j n Hj. pose proof (Hown _ _ Hj) as Ho. assert (n ≠ m) by (intros ->; by destruct (No j)). at_cases. destruct (H6 _ _ Ho) as (Hn & ? & Hl & ?).
    destruct (Esame' n j Hn) as (Er & _ & ->); [done|]. split_and!; try done. unfold linked in *. by rewrite Er.
  - intros n r Hn. destruct (decide (n = m)) as [->|]; [by rewrite at_same in Hn|]. rewrite at_other in Hn by done. assert (r ≠ m) by (intros ->; by destruct (Nn n)). at_cases. destruct (H7 _ _ Hn) as (j & Hnj & Hrj & ? & ? & Hl & ?).
    exists j. destruct (Esame' r j Hrj) as (Er & _ & Ec); [done|]. rewrite Ec. split_and!; try done. unfold linked in *. by rewrite Er.
  - intros j Hj. destruct (H8 _ Hj) as [r Hr]. destruct (H5 _ _ Hr) as (Hn & _). destruct (Esame' r j Hn) as (-> & _); [|done]. intros ->. by destruct (Nr j).
  - intros j n. at_cases; [done|]. intros Hn Hc. destruct (Esame' n j Hn) as (-> & _ & Ec); [done|]. rewrite Ec in Hc. eauto.
  - intros j. destruct (decide (j = i)) as [->|]; [|rewrite HS by done; eauto]. rewrite Emi. destruct Hcase as [(-> & _)|[_ Hne]]; done.
  - intros n. at_cases; [done|]. intros Hl Hsh. destruct (H11 _ Hl Hsh) as (j & Hj & Hr). exists j. by destruct (Esame' n j Hj) as (-> & _).
  - intros j r Hr. pose proof (Hroot _ _ Hr) as Hr'. assert (r ≠ m) by (intros ->; by destruct (Nr j)). at_cases. destruct (H5 _ _ Hr') as (Hn & _).
    destruct (Esame' r j Hn) as (_ & -> & _); [done|]. eauto.
  - exists rank. intros n r. at_cases; [done|eauto].
Qed.

(** The place and its reference are given back. *)
Definition leave_place (i k : Z) (c : console) : console := bump_session i (-1) (upd_session i (λ x, set_members (delete k (session_members x)) x) c).
Lemma leave_place_spec i k m c : 0 ≤ i < CONSOLE_SESSIONS → 0 ≤ k < CONSOLE_SESSIONS → session_members (get_session c i) !! k = Some m →
  same_counts c (leave_place i k c) ∧
  (∀ j, session_shape (get_session (leave_place i k c) j) =
     session_shape (at_index i (set_members (delete k (session_members (get_session c i))) (get_session c i)) (get_session c) j)) ∧
  get_member (leave_place i k c) = get_member c ∧ active (leave_place i k c) = active c.
Proof.
  intros Hi Hk Hm. unfold leave_place. split; [split|split_and!; [|done|done]].
  - intros n. rewrite surplus_bump_session_members, surplus_session by done. cbn [owner root set_members]. apply eq32_of. lia.
  - intros j. rewrite surplus_bump_session, session_surplus_members by done. cbn [session_members set_members]. rewrite (held_delete _ k m) by done. apply eq32_of. lia.
  - intros j. unfold bump_session, upd_session. rewrite !get_put_session, (decide_True (P := i = i)) by done. unfold at_index. by destruct (decide (j = i)) as [->|].
Qed.


Lemma held_empty l : (∀ k m, l !! k = Some m → 0 ≤ k < CONSOLE_SESSIONS) → held l = 0 ↔ l = ∅.
Proof.
  intros Hl. split.
  - intros H0. apply map_eq. intros k. rewrite lookup_empty. destruct (l !! k) as [m|] eqn:E; [|done]. by rewrite (held_zero l H0 k (Hl _ _ E)) in E.
  - intros ->. unfold held. apply sum_range_all_zero. intros k _. by rewrite lookup_empty.
Qed.
(** The counter reaches zero exactly when the last place is given back. *)
Lemma leave_place_last c i k m : console_wf c → session_members (get_session c i) !! k = Some m → root (get_session c i) ≠ Some m →
  session_references (get_session (leave_place i k c) i) = 0 ↔ delete k (session_members (get_session c i)) = ∅ ∧ active c ≠ Some i.
Proof.
  intros Hwf Hm Hr. pose proof Hwf as (Hok & _ & Hj). destruct (ok_place _ _ _ Hok _ _ _ Hm) as (Hi & Hk & Hs).
  destruct (leave_place_spec i k m c Hi Hk Hm) as ([_ Ej] & HS & _ & HA). specialize (Ej i). red in Ej. rewrite (Hj i) in Ej.
  assert (session_members (get_session (leave_place i k c) i) = delete k (session_members (get_session c i))) as El.
  { rewrite (session_shape_members _ _ (HS i)), at_same. done. }
  unfold session_surplus, places_in in Ej. rewrite HA, El in Ej. fold (held (delete k (session_members (get_session c i)))) in Ej.
  rewrite <- held_empty; last first.
  { intros k' n [_ Hn]%lookup_delete_Some. by destruct (ok_place _ _ _ Hok _ _ _ Hn) as (_ & ? & _). }
  pose proof (held_bounds (delete k (session_members (get_session c i)))) as Hb. pose proof (points_at_bounds (active c) i) as Hp.
  assert (0 ≤ session_references (get_session (leave_place i k c) i) ≤ UINT32_MAX) as Hu.
  { unfold leave_place, bump_session, upd_session. rewrite get_put_session, decide_True by done. apply wrap32_bound. }
  apply wrap32_zero in Ej; [|unfold UINT32_MAX, CONSOLE_SESSIONS in *; lia]. split.
  - intros Hz. split; [lia|]. apply points_at_zero. lia.
  - intros [Hh Ha]. assert (points_at (active c) i = 0) as H0; [|lia]. unfold points_at, ptr_is. by rewrite bool_decide_false.
Qed.

Lemma console_detach_wf p c : console_wf c → console_wf (snd (console_detach p c)).
Proof.
  intros Hwf. pose proof Hwf as (Hok & Hcm & Hcs). destruct p as [m|]; [|done]. unfold console_detach.
  destruct (live (get_member c m)) eqn:Hl; [done|]. cbn [orb]. destruct (Z.eqb_spec (references (get_member c m)) 0) as [Hz|]; cbn [negb orb]; [|done].
  destruct (restore (get_member c m)) eqn:Hr; [by rewrite bool_decide_true|]. rewrite bool_decide_false by (by intros []).
  destruct (unreferenced_unlinked c m Hwf Hz) as (Nr & No & Nn).
  destruct (session (get_member c m)) as [i|] eqn:Hs; last first.
  { cbn [snd]. apply (same_counts_wf c); [done|split; [|done]; intros n; by rewrite surplus_put|].
    apply (ok_shape (at_index m no_member (get_member c)) (get_session c)); [|intros n; by rewrite get_put_member|done].
    apply ok_retire; try done. }
  destruct (place_of (session_members (get_session c i)) m) as [k|] eqn:Hk; [|done]. apply find_seqZ in Hk as [Hk Hm]. apply bool_decide_eq_true in Hm.
  pose proof (session_in_range c i m Hok Hs) as Hi. pose proof (leave_place_last c i k m Hwf Hm (Nr i)) as Hlast.
  destruct (leave_place_spec i k m c Hi Hk Hm) as ([Em Ej] & HS & HM & HA). cbn [snd]. fold (leave_place i k c). revert Hlast.
  generalize dependent (leave_place i k c). intros d Em Ej HS HM HA Hlast.
  assert (∀ e n, get_member e = get_member d → get_member (put_member m no_member e) n = at_index m no_member (get_member c) n) as Hmem
    by (intros e n He; by rewrite get_put_member, He, HM).
  assert (∀ e n, get_member e = get_member d → member_surplus (put_member m no_member e) n = member_surplus e n) as Hsur
    by (intros e n He; apply surplus_put; by rewrite He, HM).
  destruct (Z.eqb_spec (session_references (get_session d i)) 0) as [H0|H0].
  - apply Hlast in H0 as [Hdel Hact].
    assert (root (get_session c i) = None) as Hroot.
    { destruct (root (get_session c i)) eqn:E; [|done]. destruct (ok_root _ _ _ Hok _ _ E) as (_ & _ & _ & _ & ?). done. }
    assert (owner (get_session c i) = None) as Hown.
    { destruct (owner (get_session c i)) as [q|] eqn:E; [|done]. destruct (ok_owner _ _ _ Hok _ _ E) as (Hq & _ & [Hq'|Hq'] & Hcl); [|congruence].
      by destruct (ok_open _ _ _ Hok _ _ Hq Hcl); congruence. }
    apply (same_counts_wf c); [done|split|].
    + intros n. rewrite Hsur by done. change (put_session i no_session d) with (upd_session i (λ _, no_session) d). rewrite surplus_session by done.
      rewrite (session_shape_root _ _ (HS i)), (session_shape_own _ _ (HS i)), at_same. cbn [root owner set_members no_session]. rewrite Hroot, Hown, Em.
      apply eq32_of. lia.
    + intros j. change (session_surplus (put_member m no_member (put_session i no_session d)) j) with (session_surplus (put_session i no_session d) j).
      destruct (decide (j = i)) as [->|Hj]; [|rewrite <- Ej; unfold session_surplus, places_in; by rewrite get_put_session, decide_False].
      transitivity 0; [|red; by rewrite (Hcs i)].
      unfold session_surplus, places_in. rewrite get_put_session, decide_True by done. cbn [session_references session_members no_session active put_session].
      fold (held ∅). rewrite (proj2 (held_empty ∅ ltac:(done)) eq_refl), HA. unfold points_at, ptr_is. by rewrite bool_decide_false.
    + change (active (put_member m no_member (put_session i no_session d))) with (active d). rewrite HA.
      apply (ok_shape (at_index m no_member (get_member c)) (at_index i no_session (get_session c))); [|intros n; by rewrite Hmem|].
      * apply (ok_detach _ (get_session c) _ m i k); try done; [intros j Hj; by rewrite at_other|left; by rewrite at_same].
      * intros j. change (get_session (put_member m no_member (put_session i no_session d)) j) with (get_session (put_session i no_session d) j).
        rewrite get_put_session. pose proof (HS j) as Hj. unfold at_index in *. by destruct (decide (j = i)) as [->|].
  - apply (same_counts_wf c); [done|split|].
    + intros n. rewrite Hsur by done. apply Em.
    + intros j. apply Ej.
    + change (active (put_member m no_member d)) with (active d). rewrite HA.
      apply (ok_shape (at_index m no_member (get_member c)) (at_index i (set_members (delete k (session_members (get_session c i))) (get_session c i)) (get_session c)));
        [|intros n; by rewrite Hmem|exact HS].
      apply (ok_detach _ (get_session c) _ m i k); try done; [intros j Hj; by rewrite at_other|right; rewrite at_same; split; [done|]].
      intros E. apply H0, Hlast. split; [done|]. intros Ha. destruct (ok_active _ _ _ Hok _ Ha) as [r Hroot].
      destruct (ok_root _ _ _ Hok _ _ Hroot) as (Hrs & _). destruct (ok_placed _ _ _ Hok _ _ Hrs) as [k' Hk'].
      assert (r ≠ m) by (intros ->; by destruct (Nr i)). assert (delete k (session_members (get_session c i)) !! k' = Some r) as Hd by (rewrite lookup_delete_ne; congruence).
      by rewrite E in Hd.
Qed.

(** ** Labels *)

Lemma relabel_wf m f c : console_wf c →
  (∀ x, session (f x) = session x ∧ restore (f x) = restore x ∧ live (f x) = live x ∧ references (f x) = references x) →
  (cancelled (f (get_member c m)) = false → cancelled (get_member c m) = false) →
  (shell (f (get_member c m)) = true → shell (get_member c m) = true ∨ ∃ i, session (get_member c m) = Some i ∧ root (get_session c i) = Some m) →
  console_wf (upd_member m f c).
Proof.
  intros Hwf Hf Hc Hs. pose proof Hwf as (Hok & _). apply (same_counts_wf c); [done| |].
  - split; [|done]. intros n. rewrite surplus_member; [done|]. intros x. by destruct (Hf x) as (_ & ? & _ & ?).
  - apply (ok_relabel (get_member c) (get_session c)); [done| |done]. intros n. unfold upd_member. rewrite get_put_member.
    destruct (decide (n = m)) as [->|]; [|by eauto 10]. destruct (Hf (get_member c m)) as (? & ? & ? & ?). split_and!; done.
Qed.
Lemma console_mark_shell_wf p c : console_wf c → console_wf (snd (console_mark_shell p c)).
Proof.
  intros Hwf. destruct p as [m|]; [|done]. unfold console_mark_shell. destruct (_ && _) eqn:E; [|done]. rewrite !andb_true_iff in E. destruct E as [[_ Hr] _].
  apply relabel_wf; [done|done|done|]. intros _. right. unfold roots in Hr. destruct (session (get_member c m)) as [i|]; [|done].
  exists i. split; [done|]. by apply bool_decide_eq_true in Hr.
Qed.
Lemma console_grant_command_wf sh p c : console_wf c → console_wf (snd (console_grant_command sh p c)).
Proof.
  intros Hwf. unfold console_grant_command. destruct sh as [s|], (active c) as [a|], p as [m|]; try done.
  destruct (_ && _); [|done]. apply relabel_wf; [done|done|done|]. by left.
Qed.
Lemma console_cancel_member_wf p c : console_wf c → console_wf (console_cancel_member p c).
Proof. intros Hwf. destruct p as [m|]; [|done]. apply relabel_wf; [done|done|done|]. by left. Qed.
Lemma console_request_exit_wf p status c : console_wf c → console_wf (snd (console_request_exit p status c)).
Proof.
  intros Hwf. pose proof Hwf as (Hok & _). unfold console_request_exit. destruct (p ≫= _) as [i|] eqn:E; [|done].
  destruct (bool_decide _); [|done]. destruct p as [m|]; [|done]. cbn in E. pose proof (session_in_range c i m Hok E) as Hi.
  apply (same_counts_wf c); [done|split|].
  - intros n. cbn [snd]. rewrite surplus_session by done. cbn [owner root set_exit]. apply eq32_of. lia.
  - intros j. cbn [snd]. by rewrite surplus_session_same.
  - apply (ok_relabel (get_member c) (get_session c)); [done|by intros n; eauto 10|]. intros j. cbn [snd]. unfold upd_session. rewrite get_put_session.
    destruct (decide (j = i)) as [->|]; [|done]. split_and!; try done. intros He _. destruct (ok_placed _ _ _ Hok _ _ E) as [k Hk]. by rewrite He in Hk.
Qed.
(** [member->foreground_launch = false], the parent's acknowledgement. *)
Definition acknowledge (m : Z) (c : console) : console := upd_member m (set_foreground_launch false) c.

(** ** Every history of calls *)

Inductive console_step : console → console → Prop :=
| attach_step m id parent foreground c : 0 ≤ m < CONSOLE_RECORDS → console_step c (snd (console_attach (Some m) id parent foreground c))
| shell_step p c : console_step c (snd (console_mark_shell p c))
| grant_step sh p c : console_step c (snd (console_grant_command sh p c))
| cancel_step p c : console_step c (console_cancel_member p c)
| exit_step p c : console_step c (snd (console_member_exit p c))
| detach_step p c : console_step c (snd (console_detach p c))
| request_step p status c : console_step c (snd (console_request_exit p status c))
| acknowledge_step m c : console_step c (acknowledge m c).

Lemma no_console_wf : console_wf no_console.
Proof.
  split_and!; [|intros m|intros i].
  - split; try done; [by intros m [|[]]|]. by exists (λ _, O).
  - unfold member_surplus, links_to. rewrite !sum_range_all_zero by done. done.
  - unfold session_surplus, places_in. rewrite sum_range_all_zero by done. done.
Qed.
Lemma console_step_wf c c' : console_step c c' → console_wf c → console_wf c'.
Proof.
  intros [m id parent fg d Hm|p d|sh p d|p d|p d|p d|p st d|m d] Hwf.
  - apply console_attach_wf; [done|]. by intros ? [= <-].
  - by apply console_mark_shell_wf.
  - by apply console_grant_command_wf.
  - by apply console_cancel_member_wf.
  - by apply console_member_exit_wf.
  - by apply console_detach_wf.
  - by apply console_request_exit_wf.
  - apply relabel_wf; [done|done|done|]. by left.
Qed.
Lemma console_reachable_wf c : rtc console_step no_console c → console_wf c.
Proof.
  intros H. assert (∀ d, rtc console_step d c → console_wf d → console_wf c) as Hall; [|by apply (Hall no_console H), no_console_wf].
  clear H. intros d H. induction H as [d|d e f Hs _ IH]; [done|]. intros Hd. apply IH. by apply (console_step_wf d).
Qed.

(** The counters stay within their width, so they equal what they count. *)
Definition in_width (c : console) : Prop :=
  (∀ m, 0 ≤ references (get_member c m) ≤ UINT32_MAX) ∧ (∀ i, 0 ≤ session_references (get_session c i) ≤ UINT32_MAX).
Lemma width_put_member m x c : 0 ≤ references x ≤ UINT32_MAX → in_width c → in_width (put_member m x c).
Proof. intros Hx [Hm Hs]. split; [|done]. intros n. rewrite get_put_member. by destruct (decide (n = m)). Qed.
Lemma width_put_session i x c : 0 ≤ session_references x ≤ UINT32_MAX → in_width c → in_width (put_session i x c).
Proof. intros Hx [Hm Hs]. split; [done|]. intros n. rewrite get_put_session. by destruct (decide (n = i)). Qed.
Lemma width_upd_member m f c : (∀ x, references (f x) = references x) → in_width c → in_width (upd_member m f c).
Proof. intros Hf Hc. apply width_put_member; [|done]. rewrite Hf. apply Hc. Qed.
Lemma width_upd_session i f c : (∀ x, session_references (f x) = session_references x) → in_width c → in_width (upd_session i f c).
Proof. intros Hf Hc. apply width_put_session; [|done]. rewrite Hf. apply Hc. Qed.
Lemma width_bump p d c : in_width c → in_width (bump p d c).
Proof. destruct p; [|done]. apply width_put_member, wrap32_bound. Qed.
Lemma width_bump_session i d c : in_width c → in_width (bump_session i d c).
Proof. apply width_put_session, wrap32_bound. Qed.
Lemma width_active a c : in_width c → in_width (set_active a c).
Proof. done. Qed.
Create HintDb width.
#[local] Hint Resolve width_upd_member width_upd_session width_bump width_bump_session width_active width_put_member width_put_session : width.
Lemma width_release m c : in_width c → in_width (release_return m c).
Proof. unfold release_return. auto with width. Qed.
Lemma width_pass i o c : in_width c → in_width (pass_owner i o c).
Proof. unfold pass_owner. auto with width. Qed.
#[local] Hint Resolve width_release width_pass : width.
Lemma width_close i c : in_width c → in_width (close_members i c).
Proof. intros Hc. unfold close_members. apply for_range_pres; [done|]. intros k t _ Ht. unfold close_place. destruct (_ !! k); auto with width. Qed.
Lemma width_relink i m c : in_width c → in_width (relink_members i m c).
Proof.
  intros Hc. unfold relink_members. apply for_range_pres; [done|]. intros k t _ Ht. unfold relink_place. destruct (_ !! k) as [n|]; [|done].
  destruct (ptr_is _ _); auto with width.
Qed.
#[local] Hint Resolve width_close width_relink : width.
Lemma width_exit p c : in_width c → in_width (snd (console_member_exit p c)).
Proof.
  intros Hc. destruct p as [m|]; [|done]. unfold console_member_exit. destruct (live (get_member c m)); cbn [negb]; [|done].
  destruct (session (get_member c m)) as [i|]; [|cbn [snd]; auto with width].
  destruct (ptr_is _ m); [|destruct (closing _)]; cbn [snd]; [| |unfold leave_session]; auto with width.
  - unfold close_session. destruct (ptr_is _ i); auto 10 with width.
  - destruct (owner _); [destruct (_ && _)|]; auto with width.
Qed.
Lemma width_attach m id parent fg c : in_width c → in_width (snd (console_attach (Some m) id parent fg c)).
Proof.
  intros Hc. unfold console_attach. destruct (id =? 0); [done|]. destruct (_ || _); [done|].
  set (s := match parent with Some _ => _ | None => _ end). clearbody s. destruct s as [i|]; [|cbn [snd]; by apply width_put_member].
  destruct (free_place _) as [k|]; [|done]. cbn [snd].
  set (e := bump_session i 1 (upd_session i _ (put_member m _ c))).
  assert (in_width e) as He by (apply width_bump_session, width_upd_session; [done|]; by apply width_put_member). clearbody e.
  destruct fg; [|done]. destruct parent; auto 10 with width.
Qed.
Lemma width_detach p c : in_width c → in_width (snd (console_detach p c)).
Proof.
  intros Hc. destruct p as [m|]; [|done]. unfold console_detach. destruct (_ || _); [done|].
  destruct (session _) as [i|]; [|cbn [snd]; by apply width_put_member]. destruct (place_of _ _) as [k|]; [|done]. cbn [snd].
  apply width_put_member; [done|]. destruct (_ =? 0); [apply width_put_session; [done|]|]; auto with width.
Qed.
Lemma console_step_width c c' : console_step c c' → in_width c → in_width c'.
Proof.
  intros [m id parent fg d Hm|p d|sh p d|p d|p d|p d|p st d|m d] Hw.
  - by apply width_attach.
  - unfold console_mark_shell. destruct p; [|done]. destruct (_ && _); cbn [snd]; auto with width.
  - unfold console_grant_command. destruct sh, (active d), p; try done. destruct (_ && _); cbn [snd]; auto with width.
  - destruct p; [|done]. unfold console_cancel_member. auto with width.
  - by apply width_exit.
  - by apply width_detach.
  - unfold console_request_exit. destruct (_ ≫= _); [|done]. destruct (bool_decide _); cbn [snd]; auto with width.
  - unfold acknowledge. auto with width.
Qed.
Lemma console_reachable_width c : rtc console_step no_console c → in_width c.
Proof.
  intros H. assert (∀ d, rtc console_step d c → in_width d → in_width c) as Hall; [|by apply (Hall no_console H)].
  clear H. intros d H. induction H as [d|d e f Hs _ IH]; [done|]. intros Hd. apply IH. by apply (console_step_width d).
Qed.

(** C14: In every state that calls to the console can reach, its sessions, owners, roots
    and return links are consistent, and every counter is exact: a record counts the
    owner, root and return links that point at it, a session its occupied places and
    the active console. *)
Theorem console_invariant c : rtc console_step no_console c →
  console_ok (get_member c) (get_session c) (active c) ∧
  (∀ m, references (get_member c m) = links_to c m) ∧ (∀ i, session_references (get_session c i) = places_in c i).
Proof.
  intros H. destruct (console_reachable_wf c H) as (Hok & Hm & Hs), (console_reachable_width c H) as [Wm Ws]. split_and!; [done|..].
  - intros m. specialize (Hm m). specialize (Wm m). pose proof (links_bounds c m). unfold member_surplus in Hm.
    apply wrap32_zero in Hm; unfold UINT32_MAX in *; lia.
  - intros i. specialize (Hs i). specialize (Ws i). unfold session_surplus in Hs. pose proof (held_bounds (session_members (get_session c i))) as Hb.
    pose proof (points_at_bounds (active c) i) as Hp. unfold places_in in *. fold (held (session_members (get_session c i))) in *.
    apply wrap32_zero in Hs; unfold UINT32_MAX, CONSOLE_SESSIONS in *; lia.
Qed.

(** C15: When the process that owns the console exits and is not its session's root, the
    console passes to the nearest live and uncancelled process along the return links,
    and to nobody only if there is none; the bounded search always suffices. *)
Theorem console_handoff c m i : rtc console_step no_console c →
  owner (get_session c i) = Some m → root (get_session c i) ≠ Some m →
  hands_to (get_member c) (restore (get_member c m)) (owner (get_session (snd (console_member_exit (Some m) c)) i)).
Proof. intros H Ho Hr. apply console_reachable_wf in H. by apply console_member_exit_wf. Qed.

(** While a console session is active its root is live, and unless that root has been
    cancelled there is an owner: a live member of the session. No other process owns
    the console input. *)
Theorem console_never_stranded c i : rtc console_step no_console c → active c = Some i →
  ∃ r, root (get_session c i) = Some r ∧ live (get_member c r) = true ∧
  (cancelled (get_member c r) = false → ∃ o, owner (get_session c i) = Some o ∧ live (get_member c o) = true ∧ session (get_member c o) = Some i) ∧
  (∀ p, console_owns_input c p = true → p = owner (get_session c i)).
Proof.
  intros (Hok & _)%console_reachable_wf Ha. destruct (ok_active _ _ _ Hok _ Ha) as [r Hr]. exists r. destruct (ok_root _ _ _ Hok _ _ Hr) as (? & ? & _).
  split_and!; [done|done|..].
  - intros Hc. destruct (ok_owned _ _ _ Hok _ _ Hr Hc) as [o Ho]. exists o. by destruct (ok_owner _ _ _ Hok _ _ Ho) as (? & ? & _).
  - intros [m|]; [|done]. unfold console_owns_input, owns, ptr_is. destruct (session (get_member c m)) as [j|]; [|by rewrite andb_false_r].
    rewrite !andb_true_iff, !bool_decide_eq_true. intros (_ & (Hj & _) & Ho). congruence.
Qed.

(** A record that [console_detach] accepts is free of every reference: afterwards no
    session names it as owner or root, no process returns to it and no place holds it,
    so the process table may reuse it. *)
Theorem console_detach_unreferenced c m : rtc console_step no_console c → fst (console_detach (Some m) c) = true →
  let c' := snd (console_detach (Some m) c) in
  get_member c' m = no_member ∧
  ∀ i, root (get_session c' i) ≠ Some m ∧ owner (get_session c' i) ≠ Some m ∧ restore (get_member c' i) ≠ Some m ∧
    ∀ k, session_members (get_session c' i) !! k ≠ Some m.
Proof.
  intros H Ht c'. assert (console_wf c') as (Hok & _) by (by apply console_detach_wf, console_reachable_wf).
  assert (get_member c' m = no_member) as Hm.
  { unfold c' in *. clear -Ht. unfold console_detach in *. destruct (_ || _); [done|]. destruct (session _); [destruct (place_of _ _)|]; try done;
      cbn [snd]; by rewrite get_put_member, decide_True. }
  split; [done|]. destruct (no_session_unlinked _ _ _ m Hok) as (Hk & Hr & Ho & Hn & _); [by rewrite Hm|]. intros i. split_and!; try done.
Qed.

(** ** A shell with one foreground command, for the witnesses *)

Module ConsoleSample.
Definition c1 : console := snd (console_attach (Some 2) 3 None true no_console).
Definition c2 : console := snd (console_mark_shell (Some 2) c1).
Definition c3 : console := snd (console_attach (Some 3) 4 (Some 2) true c2).
Definition c4 : console := snd (console_member_exit (Some 3) c3).
End ConsoleSample.
Lemma sample_reachable : rtc console_step no_console ConsoleSample.c3.
Proof.
  apply (rtc_l _ _ ConsoleSample.c1); [by apply attach_step|]. apply (rtc_l _ _ ConsoleSample.c2); [apply shell_step|].
  apply (rtc_l _ _ ConsoleSample.c3); [by apply attach_step|]. apply rtc_refl.
Qed.

Lemma console_invariant_witness : references (get_member ConsoleSample.c3 2) = 2 ∧ links_to ConsoleSample.c3 2 = 2.
Proof.
  assert (references (get_member ConsoleSample.c3 2) = 2) as E by (vm_compute; reflexivity).
  split; [exact E|]. destruct (console_invariant ConsoleSample.c3 sample_reachable) as (_ & Hm & _). rewrite <- (Hm 2). exact E.
Defined.
Lemma console_handoff_witness : owner (get_session ConsoleSample.c3 0) = Some 3 ∧ owner (get_session ConsoleSample.c4 0) = Some 2 ∧
  hands_to (get_member ConsoleSample.c3) (restore (get_member ConsoleSample.c3 3)) (owner (get_session ConsoleSample.c4 0)).
Proof.
  assert (owner (get_session ConsoleSample.c3 0) = Some 3) as E by (vm_compute; reflexivity).
  split; [exact E|]. split; [vm_compute; reflexivity|].
  apply (console_handoff ConsoleSample.c3 3 0 sample_reachable E). vm_compute. discriminate.
Defined.
Lemma console_never_stranded_witness : active ConsoleSample.c3 = Some 0 ∧ ∃ r, root (get_session ConsoleSample.c3 0) = Some r.
Proof.
  assert (active ConsoleSample.c3 = Some 0) as E by (vm_compute; reflexivity).
  split; [exact E|]. destruct (console_never_stranded ConsoleSample.c3 0 sample_reachable E) as (r & Hr & _). exists r. exact Hr.
Defined.
Lemma console_detach_unreferenced_witness : fst (console_detach (Some 3) ConsoleSample.c4) = true ∧
  get_member (snd (console_detach (Some 3) ConsoleSample.c4)) 3 = no_member.
Proof.
  assert (fst (console_detach (Some 3) ConsoleSample.c4) = true) as E by (vm_compute; reflexivity).
  split; [exact E|]. assert (rtc console_step no_console ConsoleSample.c4) as H by (eapply rtc_r; [exact sample_reachable|apply exit_step]).
  exact (proj1 (console_detach_unreferenced ConsoleSample.c4 3 H E)).
Defined.
