(* ===== verification/Handles.v ===== *)
(** * Process handles (kernel/process/handles.c)

    A process's table of handles over the virtual filesystem of Fs.v: the standard
    streams, files and directories with their offsets and deferred errors. *)

From S2P Require Import Prelude Block Path Fs.
Import FsSpec.

Definition RUM_EINVAL : Z := 1.
Definition RUM_EFAULT : Z := 2.
Definition RUM_ENOMEM : Z := 3.
Definition RUM_ENOSYS : Z := 4.
Definition RUM_EBADF : Z := 5.
Definition RUM_EIO : Z := 6.
Definition RUM_ENOENT : Z := 7.
Definition RUM_E2BIG : Z := 8.
Definition RUM_EBUSY : Z := 9.
Definition RUM_EINTR : Z := 10.
Definition RUM_EACCES : Z := 11.
Definition RUM_EROFS : Z := 12.
Definition RUM_ENOSPC : Z := 13.
Definition RUM_EMFILE : Z := 14.
Definition RUM_ENOTDIR : Z := 15.
Definition RUM_EISDIR : Z := 16.
Definition RUM_EEXIST : Z := 17.
Definition RUM_ENOTEMPTY : Z := 18.
Definition RUM_ENAMETOOLONG : Z := 19.
Definition RUM_EOVERFLOW : Z := 20.
Definition RUM_ERANGE : Z := 21.
Definition RUM_ETIMEDOUT : Z := 22.
Definition RUM_ENODEV : Z := 23.
Definition RUM_ENOEXEC : Z := 24.
Definition RUM_ECHILD : Z := 25.
Definition RUM_ESRCH : Z := 26.
Definition RUM_ABI_HANDLE_LIMIT : Z := 32.
Definition RUM_OPEN_DIRECTORY : Z := 1.
Definition RUM_SEEK_SET : Z := 0.
Definition RUM_SEEK_CUR : Z := 1.
Definition RUM_SEEK_END : Z := 2.

Inductive process_handle_kind := HANDLE_UNUSED | HANDLE_INPUT | HANDLE_OUTPUT | HANDLE_FILE | HANDLE_DIRECTORY.
#[global] Instance process_handle_kind_eq : EqDecision process_handle_kind.
Proof. solve_decision. Defined.
Record process_handle := ProcessHandle {
  hreference : Z; hoffset : Z; haccess : Z; hkind : process_handle_kind; pending_error : Z
}.
#[global] Instance process_handle_eq : EqDecision process_handle.
Proof. solve_decision. Defined.
Definition no_handle : process_handle := ProcessHandle 0 0 0 HANDLE_UNUSED 0.
(** [slots[i]]; an absent slot is zeroed. *)
Notation process_handles := (gmap Z process_handle).
Definition slot (t : process_handles) (i : Z) : process_handle := default no_handle (t !! i).
Definition unused (h : process_handle) : bool := bool_decide (hkind h = HANDLE_UNUSED).

(** [irq_in_handler()] and the interrupt flag. *)
Definition process_filesystem_context (in_handler interrupts : bool) : bool := if in_handler then false else interrupts.

Definition process_fs_error (error : fs_error) : Z :=
  match error with
  | FS_OK | FS_END => 0
  | FS_INVALID | FS_MOUNT_ESCAPE => - RUM_EINVAL
  | FS_UNAVAILABLE => - RUM_ENODEV
  | FS_NOT_FOUND => - RUM_ENOENT
  | FS_NOT_DIRECTORY => - RUM_ENOTDIR
  | FS_IS_DIRECTORY => - RUM_EISDIR
  | FS_EXISTS => - RUM_EEXIST
  | FS_NOT_EMPTY => - RUM_ENOTEMPTY
  | FS_PATH_TOO_LONG | FS_NAME_TOO_LONG | FS_TOO_DEEP => - RUM_ENAMETOOLONG
  | FS_RANGE => - RUM_ERANGE
  | FS_ACCESS => - RUM_EACCES
  | FS_READ_ONLY => - RUM_EROFS
  | FS_BUSY => - RUM_EBUSY
  | FS_NO_MEMORY => - RUM_ENOMEM
  | FS_NO_SPACE => - RUM_ENOSPC
  | FS_UNSUPPORTED => - RUM_ENOSYS
  | FS_TIMEOUT => - RUM_ETIMEDOUT
  | FS_IO_ERROR | FS_DEVICE_FAULT => - RUM_EIO
  end.

Definition process_handles_initialize : process_handles :=
  <[0 := ProcessHandle 0 0 FS_READ HANDLE_INPUT 0]>
    (<[1 := ProcessHandle 0 0 FS_WRITE HANDLE_OUTPUT 0]> (<[2 := ProcessHandle 0 0 FS_WRITE HANDLE_OUTPUT 0]> ∅)).
(** [None] is a NULL table. *)
Definition process_handles_count (t : option process_handles) : Z :=
  match t with Some t => count_range 0 RUM_ABI_HANDLE_LIMIT (λ i, negb (unused (slot t i))) | None => 0 end.
Definition process_handle_get (t : option process_handles) (handle : Z) : option process_handle :=
  match t with
  | Some t => if (0 <=? handle) && (handle <? RUM_ABI_HANDLE_LIMIT) && negb (unused (slot t handle)) then Some (slot t handle) else None
  | None => None
  end.

(** [while (slot < RUM_ABI_HANDLE_LIMIT && slots[slot].kind != HANDLE_UNUSED) ++slot], from 3. *)
Definition free_slot (t : process_handles) : option Z := List.find (λ i, unused (slot t i)) (seqZ 3 (RUM_ABI_HANDLE_LIMIT - 3)).

Section Handles.
Context {K : Type} (ops : fs_operations K) (in_handler interrupts : bool).
Implicit Types (s : vfs K) (t : process_handles).
#[local] Notation context_ok := (process_filesystem_context in_handler interrupts).

Definition process_handle_open (table : option process_handles) (context : option fs_context) (path : option (list Z))
    (access flags : Z) s : (Z * option process_handles) * vfs K :=
  match table with
  | None => ((- RUM_EINVAL, table), s)
  | Some t =>
      if negb (if path then true else false) || (access =? 0) || negb (Z.land access (not32 (Z.lor FS_READ FS_WRITE)) =? 0) ||
         negb (Z.land flags (not32 RUM_OPEN_DIRECTORY) =? 0) ||
         (negb (Z.land flags RUM_OPEN_DIRECTORY =? 0) && negb (access =? FS_READ)) then ((- RUM_EINVAL, table), s) else
      match free_slot t with
      | None => ((- RUM_EMFILE, table), s)
      | Some i =>
          if negb context_ok then ((- RUM_EBUSY, table), s) else
          let '((e, ref), s) := fs_open ops context path access true s in
          if bool_decide (e ≠ FS_OK) then ((process_fs_error e, table), s) else
          let '((e, info), s) := fs_stat ops ref true s in
          let e := if bool_decide (e = FS_OK) && negb (Z.land flags RUM_OPEN_DIRECTORY =? 0) && negb (info_kind info =? FS_DIRECTORY)
                   then FS_NOT_DIRECTORY else e in
          if bool_decide (e ≠ FS_OK) then ((process_fs_error e, table), snd (fs_close ops ref s)) else
          let h := ProcessHandle ref 0 access (if info_kind info =? FS_DIRECTORY then HANDLE_DIRECTORY else HANDLE_FILE) 0 in
          ((i, Some (<[i := h]> t)), s)
      end
  end.

Definition process_handle_close (table : option process_handles) (id : Z) s : (Z * option process_handles) * vfs K :=
  match table, process_handle_get table id with
  | Some t, Some h =>
      if negb context_ok then ((- RUM_EBUSY, table), s) else
      if hreference h =? 0 then ((0, Some (<[id := no_handle]> t)), s) else
      let '(e, s) := fs_close ops (hreference h) s in
      if bool_decide (e ≠ FS_OK) then ((process_fs_error e, table), s) else ((0, Some (<[id := no_handle]> t)), s)
  | _, _ => ((- RUM_EBADF, table), s)
  end.

(** The loop of [process_handles_destroy] from slot [i], with [n] slots left. *)
Fixpoint destroy_loop (n : nat) (i : Z) (table : option process_handles) s : (Z * option process_handles) * vfs K :=
  match n with
  | O => ((0, table), s)
  | S n =>
      match process_handle_get table i with
      | None => destroy_loop n (i + 1) table s
      | Some _ =>
          let '((e, table), s) := process_handle_close table i s in
          if e =? 0 then destroy_loop n (i + 1) table s else ((e, table), s)
      end
  end.
Definition process_handles_destroy (table : option process_handles) s : (Z * option process_handles) * vfs K :=
  match table with
  | None => ((- RUM_EINVAL, table), s)
  | Some _ => destroy_loop (Z.to_nat RUM_ABI_HANDLE_LIMIT) 0 table s
  end.

Definition set_offset (offset : Z) (h : process_handle) : process_handle :=
  ProcessHandle (hreference h) offset (haccess h) (hkind h) (pending_error h).
Definition set_pending (error : Z) (h : process_handle) : process_handle :=
  ProcessHandle (hreference h) (hoffset h) (haccess h) (hkind h) error.

(** The arithmetic of a seek: the new position, [None] on overflow. *)
Definition seek_position (base displacement : Z) : option Z :=
  let negative := negb (Z.shiftr displacement 63 =? 0) in
  let magnitude := if negative then wrap64 (Z.lxor displacement UINT64_MAX + 1) else displacement in
  if (if negative then magnitude >? base else magnitude >? UINT64_MAX - base) then None
  else Some (if negative then base - magnitude else base + magnitude).

(** Where the displacement counts from; the end is the size the filesystem reports. *)
Definition seek_base (h : process_handle) (whence : Z) s : (fs_error * Z) * vfs K :=
  if whence =? RUM_SEEK_END then let '((e, info), s) := fs_stat ops (hreference h) true s in ((e, info_size info), s)
  else ((FS_OK, if whence =? RUM_SEEK_CUR then hoffset h else 0), s).
(** [out] is [position != NULL]; the result, the handle and [*position]. *)
Definition process_handle_seek (handle : option process_handle) (displacement whence : Z) (out : bool) s
    : (Z * option process_handle * option Z) * vfs K :=
  match handle with
  | None => ((- RUM_EBADF, handle, None), s)
  | Some h =>
      if negb out || (whence >? RUM_SEEK_END) then ((- RUM_EINVAL, handle, None), s) else
      if bool_decide (hkind h = HANDLE_INPUT) || bool_decide (hkind h = HANDLE_OUTPUT) then ((- RUM_EINVAL, handle, None), s) else
      if bool_decide (hkind h = HANDLE_DIRECTORY) && (negb (whence =? RUM_SEEK_SET) || negb (displacement =? 0))
      then ((- RUM_EINVAL, handle, None), s) else
      if negb context_ok then ((- RUM_EBUSY, handle, None), s) else
      let '((e, base), s) := seek_base h whence s in
      if bool_decide (e ≠ FS_OK) then ((process_fs_error e, handle, None), s) else
      match seek_position base displacement with
      | None => ((- RUM_EOVERFLOW, handle, None), s)
      | Some position => ((0, Some (set_offset position h), Some position), s)
      end
  end.

(** The result, the handle and the caller's buffer. *)
Definition transfer (handle : option process_handle) (buffer : option (list Z)) (bytes : Z) (write : bool) s
    : (Z * option process_handle * option (list Z)) * vfs K :=
  match handle with
  | None => ((- RUM_EBADF, handle, buffer), s)
  | Some h =>
      if Z.land (haccess h) (if write then FS_WRITE else FS_READ) =? 0 then ((- RUM_EBADF, handle, buffer), s) else
      if bool_decide (hkind h = HANDLE_DIRECTORY) then ((- RUM_EISDIR, handle, buffer), s) else
      if negb (bool_decide (hkind h = HANDLE_FILE)) || (negb (bytes =? 0) && negb (if buffer then true else false))
      then ((- RUM_EINVAL, handle, buffer), s) else
      if (bytes >? INT32_MAX) || (bytes >? UINT64_MAX - hoffset h) then ((- RUM_EOVERFLOW, handle, buffer), s) else
      if bytes =? 0 then ((0, handle, buffer), s) else
      if negb context_ok then ((- RUM_EBUSY, handle, buffer), s) else
      if negb (pending_error h =? 0) then ((pending_error h, Some (set_pending 0 h), buffer), s) else
      let '((result, buffer), s) :=
        if write then let '(r, s) := fs_write ops (hreference h) (hoffset h) buffer bytes s in ((r, buffer), s)
        else fs_read ops (hreference h) (hoffset h) buffer bytes s in
      let h := set_offset (wrap64 (hoffset h + transferred result)) h in
      let error := process_fs_error (io_error result) in
      let h := if negb (transferred result =? 0) && negb (error =? 0) then set_pending error h else h in
      ((if transferred result =? 0 then error else transferred result, Some h, buffer), s)
  end.
Definition process_handle_read (handle : option process_handle) (buffer : option (list Z)) (bytes : Z) s
    : (Z * option process_handle * option (list Z)) * vfs K := transfer handle buffer bytes false s.
Definition process_handle_write (handle : option process_handle) (buffer : option (list Z)) (bytes : Z) s
    : (Z * option process_handle * option (list Z)) * vfs K := transfer handle buffer bytes true s.

(** The result, the handle and [*entry]; [out] is [entry != NULL]. *)
Definition process_handle_readdir (handle : option process_handle) (out : bool) s : (Z * option process_handle * fs_entry) * vfs K :=
  match handle with
  | None => ((- RUM_EBADF, handle, no_entry), s)
  | Some h =>
      if Z.land (haccess h) FS_READ =? 0 then ((- RUM_EBADF, handle, no_entry), s) else
      if negb (bool_decide (hkind h = HANDLE_DIRECTORY)) then ((- RUM_ENOTDIR, handle, no_entry), s) else
      if negb context_ok then ((- RUM_EBUSY, handle, no_entry), s) else
      let '((e, (cursor, entry)), s) := fs_readdir ops (hreference h) (Some (hoffset h)) out s in
      ((if bool_decide (e = FS_OK) then 1 else process_fs_error e, Some (set_offset cursor h), entry), s)
  end.
Definition process_handle_flush (handle : option process_handle) s : Z * vfs K :=
  match handle with
  | None => (- RUM_EBADF, s)
  | Some h =>
      if hreference h =? 0 then (- RUM_EBADF, s) else
      if negb context_ok then (- RUM_EBUSY, s) else
      let '(e, s) := fs_flush ops (hreference h) s in (process_fs_error e, s)
  end.
End Handles.

(** ** Seeking *)

(** The two's-complement value of 64 bits. *)
Definition signed64 (x : Z) : Z := if x <? 2 ^ 63 then x else x - 2 ^ 64.

Lemma complement64 d : 0 ≤ d ≤ UINT64_MAX → Z.lxor d UINT64_MAX = UINT64_MAX - d.
Proof.
  intros Hd. change UINT64_MAX with (Z.ones 64) in *. assert (0 ≤ d < 2 ^ 64) as Hd' by (rewrite Z.ones_equiv in Hd; lia).
  assert (Z.log2 d < 64) as Hl by (destruct (decide (d = 0)) as [->|]; [done|apply Z.log2_lt_pow2; lia]).
  rewrite <- Z.ldiff_ones_l_low by lia. symmetry. apply Z.sub_nocarry_ldiff. apply Z.ldiff_ones_r_low; lia.
Qed.
Lemma seek_position_spec base d : 0 ≤ base ≤ UINT64_MAX → 0 ≤ d ≤ UINT64_MAX →
  seek_position base d = if bool_decide (0 ≤ base + signed64 d ≤ UINT64_MAX) then Some (base + signed64 d) else None.
Proof.
  intros Hb Hd. unfold seek_position, signed64. rewrite complement64, Z.shiftr_div_pow2 by lia. rewrite !Z.gtb_ltb.
  change (2 ^ 63) with 9223372036854775808. change (2 ^ 64) with 18446744073709551616. unfold UINT64_MAX, wrap64 in *.
  destruct (Z.ltb_spec d 9223372036854775808).
  - rewrite Z.div_small by lia. cbn [Z.eqb negb]. destruct (Z.ltb_spec (0xffffffffffffffff - base) d); case_bool_decide; done || lia.
  - assert (d / 9223372036854775808 = 1) as -> by (symmetry; apply (Z.div_unique _ _ _ (d - 9223372036854775808)); lia).
    cbn [Z.eqb negb]. rewrite Z.mod_small by lia. destruct (Z.ltb_spec base (0xffffffffffffffff - d + 1)); case_bool_decide; try lia; f_equal; lia.
Qed.

(** A seek on a file moves to base plus the signed 64-bit displacement exactly when
    that lies in the unsigned 64-bit range, and otherwise reports overflow and leaves
    the offset alone; a failure to find the end is reported as such. *)
Theorem process_handle_seek_exact {K : Type} (ops : fs_operations K) h d whence s e base s' :
  hkind h = HANDLE_FILE → 0 ≤ d ≤ UINT64_MAX → 0 ≤ whence ≤ RUM_SEEK_END → 0 ≤ base ≤ UINT64_MAX →
  seek_base ops h whence s = ((e, base), s') →
  process_handle_seek ops false true (Some h) d whence true s =
    (if bool_decide (e ≠ FS_OK) then (process_fs_error e, Some h, None)
     else if bool_decide (0 ≤ base + signed64 d ≤ UINT64_MAX) then (0, Some (set_offset (base + signed64 d) h), Some (base + signed64 d))
     else (- RUM_EOVERFLOW, Some h, None), s').
Proof.
  intros Hk Hd Hw Hb Hbase. unfold process_handle_seek. rewrite Hk, Z.gtb_ltb. rewrite (proj2 (Z.ltb_ge RUM_SEEK_END whence)) by lia. cbn [negb orb].
  rewrite !bool_decide_eq_false_2 by done. cbn [orb andb process_filesystem_context negb]. rewrite Hbase.
  destruct (bool_decide (e ≠ FS_OK)); [done|]. rewrite seek_position_spec by done. by destruct (bool_decide _).
Qed.

(** ** Transfers *)

(** The filesystem never claims more than was asked for. *)
Lemma io_bounded {K : Type} (ops : fs_operations K) u o b n w s : 0 ≤ n →
  transferred (fst (fst (io ops u o b n w s))) ≤ n.
Proof.
  intros Hn. unfold io. destruct (_ && _); [done|]. destruct (n >? UINT64_MAX - o); [done|]. unfold locked, enter.
  destruct (ready s), (busy s); cbn [negb]; try done.
  rewrite (bool_decide_eq_true_2 (FS_OK = FS_OK)), bool_decide_eq_false_2 by (done || by intros E).
  destruct (find_reference _ _) as [r|]; [|done]. destruct (_ =? 0); [done|]. destruct (negb (_ =? FS_FILE)); [done|]. destruct (w && _); [done|].
  destruct b as [data|]; [|done]. destruct (n =? 0); [done|].
  assert (∀ result, transferred (if transferred result >? n then io_failure FS_IO_ERROR else result) ≤ n) as Hle.
  { intros result. rewrite Z.gtb_ltb. destruct (Z.ltb_spec n (transferred result)); [done|lia]. }
  destruct w; [destruct (op_write ops) as [f|]; [destruct (f _ _ _ _ _) as [result k]|]|destruct (op_read ops _ _ _ _ _) as [[result data'] k]]; apply Hle.
Qed.

(** What the filesystem did for a transfer. *)
Definition transfer_io {K : Type} (ops : fs_operations K) (h : process_handle) (buffer : option (list Z)) (bytes : Z) (write : bool) (s : vfs K)
    : (fs_io_result * option (list Z)) * vfs K :=
  let '((r, b), s') := io ops (hreference h) (hoffset h) buffer bytes write s in ((r, if write then buffer else b), s').
Lemma transfer_eq {K : Type} (ops : fs_operations K) h b n (w : bool) s :
  hkind h = HANDLE_FILE → Z.land (haccess h) (if w then FS_WRITE else FS_READ) ≠ 0 → 0 < n ≤ INT32_MAX → n ≤ UINT64_MAX - hoffset h → is_Some b →
  transfer ops false true (Some h) b n w s =
    if pending_error h =? 0 then
      let '((r, b'), s') := transfer_io ops h b n w s in
      let h' := set_offset (wrap64 (hoffset h + transferred r)) h in
      let error := process_fs_error (io_error r) in
      ((if transferred r =? 0 then error else transferred r,
        Some (if negb (transferred r =? 0) && negb (error =? 0) then set_pending error h' else h'), b'), s')
    else ((pending_error h, Some (set_pending 0 h), b), s).
Proof.
  intros Hk Ha Hn Ho [data ->]. unfold transfer. rewrite (proj2 (Z.eqb_neq _ _) Ha), Hk. rewrite bool_decide_eq_false_2, bool_decide_eq_true_2 by done.
  rewrite !Z.gtb_ltb, (proj2 (Z.ltb_ge INT32_MAX n)), (proj2 (Z.ltb_ge (UINT64_MAX - hoffset h) n)), (proj2 (Z.eqb_neq n 0)) by lia.
  cbn [negb andb orb process_filesystem_context]. destruct (pending_error h =? 0); cbn [negb]; [|done].
  unfold transfer_io, fs_write, fs_read. destruct w.
  - by destruct (io ops (hreference h) (hoffset h) (Some data) n true s) as [[r b'] s'].
  - by destruct (io ops (hreference h) (hoffset h) (Some data) n false s) as [[r b'] s'].
Qed.

(** A read or write that moved some bytes returns their number, advances the offset by
    exactly that many, and keeps the error that cut it short: the next nonempty transfer
    on the handle reports that error, once, without touching the filesystem, the offset
    or the buffer. A transfer that moved nothing returns its error at once. *)
Theorem transfer_reports_error_once {K : Type} (ops : fs_operations K) h b n (w : bool) s r b' s' b2 n2 (w2 : bool) :
  hkind h = HANDLE_FILE → Z.land (haccess h) (if w then FS_WRITE else FS_READ) ≠ 0 → Z.land (haccess h) (if w2 then FS_WRITE else FS_READ) ≠ 0 →
  0 ≤ hoffset h → 0 < n ≤ INT32_MAX → n ≤ UINT64_MAX - hoffset h → is_Some b → pending_error h = 0 →
  0 < n2 ≤ INT32_MAX → n2 ≤ UINT64_MAX - (hoffset h + n) → is_Some b2 →
  transfer_io ops h b n w s = ((r, b'), s') → 0 ≤ transferred r →
  let e := process_fs_error (io_error r) in
  let h' := ProcessHandle (hreference h) (hoffset h + transferred r) (haccess h) HANDLE_FILE (if transferred r =? 0 then 0 else e) in
  transfer ops false true (Some h) b n w s = ((if transferred r =? 0 then e else transferred r, Some h', b'), s') ∧
  (transferred r ≠ 0 → e ≠ 0 → transfer ops false true (Some h') b2 n2 w2 s' = ((e, Some (set_pending 0 h'), b2), s')).
Proof.
  intros Hk Ha Ha2 Hoff Hn Hrange Hb Hp Hn2 Hr2 Hb2 Hio Ht e h'.
  assert (transferred r ≤ n) as Hle.
  { pose proof (io_bounded ops (hreference h) (hoffset h) b n w s ltac:(lia)) as H. unfold transfer_io in Hio.
    destruct (io ops (hreference h) (hoffset h) b n w s) as [[r0 b0] s0]. cbn [fst] in H. by injection Hio as -> _ _. }
  assert (wrap64 (hoffset h + transferred r) = hoffset h + transferred r) as Hw by (apply Z.mod_small; unfold UINT64_MAX in *; lia). split.
  - rewrite transfer_eq, Hp, Hio by done. cbn [Z.eqb]. rewrite Hw. fold e. do 3 f_equal. unfold h', set_pending, set_offset.
    destruct h as [href hoff hacc hk hp]. cbn in *. subst hk hp. destruct (Z.eqb_spec (transferred r) 0), (Z.eqb_spec e 0); cbn; congruence.
  - intros Hne He. rewrite transfer_eq; try done; [|cbn [hoffset h']; lia]. unfold h'. cbn [pending_error]. rewrite (proj2 (Z.eqb_neq _ _) Hne).
    by rewrite (proj2 (Z.eqb_neq _ _) He).
Qed.

(** ** Handles own references

    Every used slot is a stream or owns one live reference of its own kind and
    access, and no two slots own the same one. *)

Definition backed (H : handles) (h : process_handle) : Prop :=
  match hkind h with
  | HANDLE_UNUSED => h = no_handle
  | HANDLE_INPUT | HANDLE_OUTPUT => hreference h = 0
  | HANDLE_FILE => hreference h ≠ 0 ∧ ∃ id, H (hreference h) = Some (id, FS_FILE, haccess h)
  | HANDLE_DIRECTORY => hreference h ≠ 0 ∧ ∃ id, H (hreference h) = Some (id, FS_DIRECTORY, haccess h)
  end.
Record table_ok (t : process_handles) (H : handles) : Prop := TableOk {
  table_range i : slot t i ≠ no_handle → 0 ≤ i < RUM_ABI_HANDLE_LIMIT;
  table_backed i : backed H (slot t i);
  table_distinct i j : hreference (slot t i) ≠ 0 → hreference (slot t i) = hreference (slot t j) → i = j
}.
Definition owned (t : process_handles) (u : Z) : Prop := u ≠ 0 ∧ ∃ i, hreference (slot t i) = u.

Lemma slot_insert t i h j : slot (<[i := h]> t) j = if decide (j = i) then h else slot t j.
Proof. unfold slot. destruct (decide (j = i)) as [->|]; [by rewrite lookup_insert_eq|by rewrite lookup_insert_ne by done]. Qed.
Lemma unused_true h : unused h = true ↔ hkind h = HANDLE_UNUSED.
Proof. apply bool_decide_eq_true. Qed.
Lemma get_some t i h : process_handle_get (Some t) i = Some h ↔ 0 ≤ i < RUM_ABI_HANDLE_LIMIT ∧ h = slot t i ∧ hkind h ≠ HANDLE_UNUSED.
Proof.
  unfold process_handle_get. split.
  - destruct (Z.leb_spec 0 i), (Z.ltb_spec i RUM_ABI_HANDLE_LIMIT); cbn [andb]; try done. destruct (unused (slot t i)) eqn:E; cbn [negb]; [done|].
    intros [= <-]. split_and!; [done..|]. intros Hk%unused_true. congruence.
  - intros (Hi & -> & Hk). rewrite (proj2 (Z.leb_le 0 i)), (proj2 (Z.ltb_lt i RUM_ABI_HANDLE_LIMIT)) by lia.
    assert (unused (slot t i) = false) as -> by (by apply bool_decide_eq_false). done.
Qed.
Lemma get_none t i H : table_ok t H → process_handle_get (Some t) i = None → slot t i = no_handle.
Proof.
  intros Ht Hg. destruct (decide (hkind (slot t i) = HANDLE_UNUSED)) as [Hk|Hk].
  - pose proof (table_backed _ _ Ht i) as Hb. unfold backed in Hb. by rewrite Hk in Hb.
  - destruct (decide (slot t i = no_handle)) as [E|E]; [done|]. pose proof (table_range _ _ Ht i E) as Hi.
    rewrite (proj2 (get_some t i (slot t i))) in Hg by done. done.
Qed.

Section Ownership.
Context {K : Type} (ops : fs_operations K) `{!BackendLaw ops}.
Implicit Types (s : vfs K) (t : process_handles).

Lemma fs_close_live u s h : fs_inv ops s → ready s = true → busy s = false → handle_of s u = Some h →
  ∃ s', fs_close ops u s = (FS_OK, s') ∧ settled ops s s' ∧ ∀ v, handle_of s' v = if decide (v = u) then None else handle_of s v.
Proof.
  intros Hi Hr Hb Hh. unfold fs_close, locked, enter. rewrite Hr, Hb. cbn [negb].
  rewrite (bool_decide_eq_true_2 (FS_OK = FS_OK)), bool_decide_eq_false_2 by (done || by intros E).
  pose proof (close_reference_spec ops u (set_busy true s) (proj2 (busy_inv ops true s) Hi)) as Hc.
  destruct (close_reference ops u (set_busy true s)) as [e s'] eqn:Ec. destruct Hc as (Hi' & _ & Hr' & Hb' & Hc).
  change (handle_of (set_busy true s)) with (handle_of s) in Hc. rewrite Hh in Hc. destruct Hc as [-> Hc].
  exists (leave s'). split; [done|]. split; [split_and!; [by apply busy_inv|exact Hr'|done]|]. exact Hc.
Qed.

(** The slot is cleared and its reference, if any, dropped. *)
Lemma clear_slot_ok t i H H' : table_ok t H →
  (∀ v, H' v = if decide (hreference (slot t i) ≠ 0 ∧ v = hreference (slot t i)) then None else H v) → table_ok (<[i := no_handle]> t) H'.
Proof.
  intros Ht HH. split.
  - intros j. rewrite slot_insert. destruct (decide (j = i)); [done|]. apply (table_range _ _ Ht).
  - intros j. rewrite slot_insert. destruct (decide (j = i)) as [|Hj]; [done|]. pose proof (table_backed _ _ Ht j) as Hb. unfold backed in *.
    assert (hreference (slot t j) ≠ 0 → H' (hreference (slot t j)) = H (hreference (slot t j))) as He.
    { intros Hn. rewrite HH, decide_False; [done|]. intros [_ E]. by apply Hj, (table_distinct _ _ Ht). }
    destruct (hkind (slot t j)); try done; destruct Hb as [Hn [id Hid]]; (split; [done|]; exists id; by rewrite He).
  - intros j k. rewrite !slot_insert. destruct (decide (j = i)); [done|]. intros Hn E. destruct (decide (k = i)); [done|]. by apply (table_distinct _ _ Ht).
Qed.
Lemma close_slot t i s h : fs_inv ops s → ready s = true → busy s = false → table_ok t (handle_of s) → process_handle_get (Some t) i = Some h →
  ∃ s', process_handle_close ops false true (Some t) i s = ((0, Some (<[i := no_handle]> t)), s') ∧ settled ops s s' ∧
  (∀ v, handle_of s' v = if decide (hreference h ≠ 0 ∧ v = hreference h) then None else handle_of s v) ∧ table_ok (<[i := no_handle]> t) (handle_of s').
Proof.
  intros Hi Hr Hb Ht Hg. unfold process_handle_close. rewrite Hg. cbn [process_filesystem_context negb].
  apply get_some in Hg as (Hrange & -> & Hk). destruct (Z.eqb_spec (hreference (slot t i)) 0) as [E|E].
  - exists s. assert (∀ v, handle_of s v = if decide (hreference (slot t i) ≠ 0 ∧ v = hreference (slot t i)) then None else handle_of s v) as Hv
      by (intros v; by rewrite decide_False by tauto).
    split_and!; [done|by apply settled_refl|exact Hv|]. by apply (clear_slot_ok t i (handle_of s)).
  - pose proof (table_backed _ _ Ht i) as Hbk. assert (is_Some (handle_of s (hreference (slot t i)))) as [x Hx].
    { unfold backed in Hbk. destruct (hkind (slot t i)); try done; destruct Hbk as [_ [id Hid]]; by rewrite Hid. }
    destruct (fs_close_live _ s x Hi Hr Hb Hx) as (s' & Ec & Hset & Hv). rewrite Ec.
    rewrite bool_decide_eq_false_2 by (by intros []). exists s'.
    assert (∀ v, handle_of s' v = if decide (hreference (slot t i) ≠ 0 ∧ v = hreference (slot t i)) then None else handle_of s v) as Hv'.
    { intros v. rewrite Hv. destruct (decide (v = _)); [by rewrite decide_True|by rewrite decide_False by tauto]. }
    split_and!; [done|done|done|]. by apply (clear_slot_ok t i (handle_of s)).
Qed.

Lemma owned_clear t i u H : table_ok t H → owned (<[i := no_handle]> t) u ↔ owned t u ∧ u ≠ hreference (slot t i).
Proof.
  intros Ht. unfold owned. split.
  - intros [Hu [j Hj]]. rewrite slot_insert in Hj. destruct (decide (j = i)) as [|Hne]; [by subst u|]. split; [eauto|].
    intros E. apply Hne, (table_distinct _ _ Ht); congruence.
  - intros [[Hu [j Hj]] Hne]. split; [done|]. exists j. rewrite slot_insert, decide_False; [done|]. intros ->. done.
Qed.

Lemma destroy_loop_spec n i t s : fs_inv ops s → ready s = true → busy s = false → table_ok t (handle_of s) → (∀ j, j < i → slot t j = no_handle) →
  ∃ t' s', destroy_loop ops false true n i (Some t) s = ((0, Some t'), s') ∧ settled ops s s' ∧ table_ok t' (handle_of s') ∧
  (∀ j, j < i + Z.of_nat n → slot t' j = no_handle) ∧ (∀ j, i + Z.of_nat n ≤ j → slot t' j = slot t j) ∧
  (∀ v, handle_of s' v = handle_of s v ∨ handle_of s' v = None ∧ owned t v ∧ ¬ owned t' v) ∧ (∀ v, owned t v → ¬ owned t' v → handle_of s' v = None).
Proof.
  revert i t s; induction n as [|n IH]; intros i t s Hi Hr Hb Ht Hlow; cbn [destroy_loop].
  { exists t, s. split; [done|]. split; [by apply settled_refl|]. split_and!; [done|intros j Hj; apply Hlow; lia|done|by left|done]. }
  destruct (process_handle_get (Some t) i) as [h|] eqn:Hg; last first.
  { destruct (IH (i + 1) t s Hi Hr Hb Ht) as (t' & s' & He & Hset & Ht' & H1 & H2 & H3 & H4).
    { intros j Hj. destruct (decide (j = i)) as [->|]; [by apply (get_none _ _ _ Ht)|apply Hlow; lia]. }
    exists t', s'. split; [done|]. split; [done|]. split_and!; [done|intros j Hj; apply H1; lia|intros j Hj; apply H2; lia|done|done]. }
  destruct (close_slot t i s h Hi Hr Hb Ht Hg) as (s1 & Ec & (Hi1 & Hr1 & Hb1) & Hv & Ht1). rewrite Ec. cbn [Z.eqb].
  apply get_some in Hg as (Hrange & -> & Hk).
  destruct (IH (i + 1) (<[i := no_handle]> t) s1) as (t' & s' & He & (Hi' & Hr' & Hb') & Ht' & H1 & H2 & H3 & H4); [done|congruence|congruence|done| |].
  { intros j Hj. rewrite slot_insert. destruct (decide (j = i)); [done|]. apply Hlow. lia. }
  exists t', s'. split; [done|]. split; [split_and!; [done|congruence|congruence]|]. split; [done|].
  assert (∀ v, ¬ owned (<[i := no_handle]> t) v → ¬ owned t' v) as Hsub.
  { intros v Hno [Hv0 [j Hj]]. destruct (decide (j < i + 1 + Z.of_nat n)) as [Hlt|]; [rewrite H1 in Hj by lia; by subst v|].
    apply Hno. split; [done|]. exists j. by rewrite <- (H2 j) by lia. }
  split_and!.
  - intros j Hj. apply H1. lia.
  - intros j Hj. rewrite H2 by lia. rewrite slot_insert, decide_False by lia. done.
  - intros v. destruct (H3 v) as [E|(E & Ho & Hno)].
    + rewrite E, Hv. destruct (decide _) as [[Hn ->]|]; [right|by left]. split; [done|]. split; [split; [done|by exists i]|].
      apply Hsub. rewrite (owned_clear _ _ _ _ Ht). tauto.
    + right. apply (owned_clear _ _ _ _ Ht) in Ho as [Ho _]. done.
  - intros v Ho Hno. destruct (decide (v = hreference (slot t i))) as [->|Hne].
    + destruct (H3 (hreference (slot t i))) as [E|[E _]]; [|done]. rewrite E, Hv. rewrite decide_True; [done|]. split; [by destruct Ho|done].
    + apply H4; [by apply (owned_clear _ _ _ _ Ht)|done].
Qed.

Lemma count_unused t : (∀ i, slot t i = no_handle) → process_handles_count (Some t) = 0.
Proof. intros Ht. apply count_range_zero. intros i _. by rewrite Ht. Qed.

(** C16: Destroying a process's handles in a context where the filesystem may be called
    always succeeds: every slot becomes unused, every reference a slot owned is closed,
    and every other live reference of the system is left as it was. *)
Theorem process_handles_destroy_exact t s :
  fs_inv ops s → ready s = true → busy s = false → table_ok t (handle_of s) →
  ∃ t' s', process_handles_destroy ops false true (Some t) s = ((0, Some t'), s') ∧
  process_handles_count (Some t') = 0 ∧ fs_inv ops s' ∧ busy s' = false ∧
  ∀ v, (owned t v → handle_of s' v = None) ∧ (¬ owned t v → handle_of s' v = handle_of s v).
Proof.
  intros Hi Hr Hb Ht. destruct (destroy_loop_spec (Z.to_nat RUM_ABI_HANDLE_LIMIT) 0 t s Hi Hr Hb Ht) as (t' & s' & He & (Hi' & Hr' & Hb') & Ht' & H1 & H2 & H3 & H4).
  { intros j Hj. destruct (decide (slot t j = no_handle)) as [|Hne]; [done|]. pose proof (table_range _ _ Ht j Hne). lia. }
  assert (∀ i, slot t' i = no_handle) as Hall.
  { intros i. destruct (decide (i < RUM_ABI_HANDLE_LIMIT)); [apply H1; rewrite Z2Nat.id by done; lia|].
    destruct (decide (slot t' i = no_handle)) as [|Hne]; [done|]. pose proof (table_range _ _ Ht' i Hne). lia. }
  assert (∀ v, ¬ owned t' v) as Hno by (intros v [Hv [i Hi2]]; by rewrite Hall in Hi2).
  exists t', s'. split_and!; [done|by apply count_unused|done|congruence|]. intros v. split; [intros Ho; by apply H4|].
  intros Hn. destruct (H3 v) as [|(_ & Ho & _)]; done.
Qed.

(** ** Opening *)

Lemma fs_open_free c p a s r s' : fs_open ops c p a true s = ((FS_OK, r), s') → ready s = true ∧ busy s = false.
Proof.
  unfold fs_open. destruct (negb true || _ || _); [done|]. destruct (preflight c p) as [e plan].
  destruct (bool_decide (e ≠ FS_OK)) eqn:E; [intros [= -> _ _]; apply bool_decide_eq_true in E; done|].
  unfold locked, enter. destruct (ready s), (busy s); done.
Qed.
Lemma fs_open_inv c p a out s : fs_inv ops s → fs_inv ops (snd (fs_open ops c p a out s)).
Proof.
  intros Hi. pose proof (open_good ops c p a out s Hi) as H. unfold good_call, exec in H.
  destruct (fs_open ops c p a out s) as [[e r] s']. by destruct H as [[? _] _].
Qed.
(** A successful stat reports the kind its handle stands for. *)
Lemma fs_stat_kind r s info s' : fs_stat ops r true s = ((FS_OK, info), s') →
  ∃ id a, handle_of s r = Some (id, info_kind info, a) ∧ (info_kind info = FS_FILE ∨ info_kind info = FS_DIRECTORY).
Proof.
  unfold fs_stat. cbn [negb]. unfold locked, enter. destruct (ready s), (busy s); try done. cbn [negb].
  rewrite (bool_decide_eq_true_2 (FS_OK = FS_OK)), bool_decide_eq_false_2 by (done || by intros E).
  change (find_reference r (set_busy true s)) with (find_reference r s). destruct (find_reference r s) as [i|] eqn:Ef; [|done].
  destruct (op_stat ops _ _) as [[e n] k]. cbn [snd fst].
  set (o := object_at (set_busy true s) (ref_object (reference_at (set_busy true s) i))).
  destruct (decide (e = FS_OK)) as [->|He]; last first.
  { rewrite (bool_decide_eq_false_2 (e = FS_OK)) by done. cbn [andb]. rewrite (bool_decide_eq_false_2 (e = FS_OK)) by done. by intros [= -> _]. }
  rewrite (bool_decide_eq_true_2 (FS_OK = FS_OK)) by done. cbn [andb].
  destruct (valid_node n) eqn:Hv; cbn [negb orb]; [|done]. destruct (node_id n =? object_id o); cbn [negb orb]; [|done].
  destruct (Z.eqb_spec (node_kind n) (object_kind o)) as [Hk|]; cbn [negb]; [|done]. rewrite bool_decide_eq_true_2 by done. intros [= <- <-].
  assert (∀ st : vfs K, info_kind (information (Location (object_mount o) 0 {[0 := n]}) st) = node_kind n) as Ein.
  { intros st. unfold information, here, node_at. cbn [info_kind loc_depth nodes]. by rewrite lookup_singleton_eq. }
  rewrite !Ein. exists (object_id o), (ref_access (reference_at s i)). unfold handle_of. rewrite Ef. cbn [mbind option_bind]. split; [by rewrite Hk|].
  unfold valid_node in Hv. rewrite !andb_true_iff, orb_true_iff, !Z.eqb_eq in Hv. by destruct Hv.
Qed.

Lemma insert_slot_ok t i h H H' : table_ok t H → slot t i = no_handle → 0 ≤ i < RUM_ABI_HANDLE_LIMIT → backed H' h → H (hreference h) = None → hreference h ≠ 0 →
  (∀ v, v ≠ hreference h → H' v = H v) → table_ok (<[i := h]> t) H'.
Proof.
  intros Ht Hs Hi Hb Hfresh Hn HH.
  assert (∀ j, hreference (slot t j) ≠ hreference h) as Hother.
  { intros j E. pose proof (table_backed _ _ Ht j) as Hj. unfold backed in Hj. rewrite E in Hj.
    destruct (hkind (slot t j)); try done; [by rewrite Hj in E|..]; destruct Hj as [_ [id Hid]]; congruence. }
  split.
  - intros j. rewrite slot_insert. destruct (decide (j = i)) as [->|]; [done|]. apply (table_range _ _ Ht).
  - intros j. rewrite slot_insert. destruct (decide (j = i)) as [|]; [done|]. pose proof (table_backed _ _ Ht j) as Hj. unfold backed in *.
    destruct (hkind (slot t j)); try done; destruct Hj as [? [id Hid]]; (split; [done|]; exists id; by rewrite HH).
  - intros j k. rewrite !slot_insert. destruct (decide (j = i)), (decide (k = i)); intros Hj E; try congruence; try (by destruct (Hother k)); try (by destruct (Hother j)).
    by apply (table_distinct _ _ Ht).
Qed.
Lemma find_first f a n k : List.find f (seqZ a n) = Some k → a ≤ k < a + n ∧ f k = true ∧ ∀ j, a ≤ j < k → f j = false.
Proof.
  intros Hf. assert (∀ l, (∀ x y i j, l !! i = Some x → l !! j = Some y → (i < j)%nat → x < y) → List.find f l = Some k →
    k ∈ l ∧ f k = true ∧ ∀ j, j ∈ l → j < k → f j = false) as Hl.
  { clear Hf. induction l as [|x l IH]; intros Hs Hf; [done|]. cbn in Hf. destruct (f x) eqn:Ex.
    - injection Hf as ->. split; [by left|]. split; [done|]. intros j Hj Hlt. exfalso. apply elem_of_cons in Hj as [->|Hj]; [lia|].
      apply list_elem_of_lookup in Hj as [i Hi]. specialize (Hs k j 0%nat (S i) eq_refl Hi ltac:(lia)). lia.
    - destruct IH as (H1 & H2 & H3); [|done|].
      { intros x' y' i j Hi Hj Hij. apply (Hs x' y' (S i) (S j)); [done|done|lia]. }
      split; [by right|]. split; [done|]. intros j [->|Hj]%elem_of_cons; [done|]. by apply H3. }
  destruct (Hl (seqZ a n)) as (H1 & H2 & H3); [|exact Hf|].
  { intros x y i j Hi Hj Hij. apply lookup_seqZ in Hi as [-> ?], Hj as [-> ?]. lia. }
  apply elem_of_seqZ in H1. split_and!; [lia|lia|done|]. intros j Hj. apply H3; [apply elem_of_seqZ; lia|lia].
Qed.
Lemma process_fs_error_nonpos e : process_fs_error e ≤ 0.
Proof. by destruct e. Qed.

(** Opening either fails with a nonpositive result, leaving the process's table and
    every live reference of the system as they were, or fills the lowest free slot from
    3 with a handle that owns exactly one new reference of the kind the path has. *)
Theorem process_handle_open_exact in_handler interrupts t c p access flags s :
  fs_inv ops s → table_ok t (handle_of s) →
  let '((r, t'), s') := process_handle_open ops in_handler interrupts (Some t) c p access flags s in
  fs_inv ops s' ∧ busy s' = busy s ∧
  ((r ≤ 0 ∧ t' = Some t ∧ ∀ v, handle_of s' v = handle_of s v) ∨
   (3 ≤ r < RUM_ABI_HANDLE_LIMIT ∧ slot t r = no_handle ∧ (∀ j, 3 ≤ j < r → slot t j ≠ no_handle) ∧
    ∃ ref id kind, t' = Some (<[r := ProcessHandle ref 0 access (if kind =? FS_DIRECTORY then HANDLE_DIRECTORY else HANDLE_FILE) 0]> t) ∧
      adds ref (id, kind, access) (handle_of s) (handle_of s') ∧ (flags = RUM_OPEN_DIRECTORY → kind = FS_DIRECTORY) ∧
      table_ok (<[r := ProcessHandle ref 0 access (if kind =? FS_DIRECTORY then HANDLE_DIRECTORY else HANDLE_FILE) 0]> t) (handle_of s'))).
Proof.
  intros Hi Ht. unfold process_handle_open. destruct (_ || _ || _ || _ || _); [split_and!; [done|done|left; done]|].
  destruct (free_slot t) as [i|] eqn:Hfree; [|split_and!; [done|done|left; done]].
  destruct (process_filesystem_context in_handler interrupts); cbn [negb]; [|split_and!; [done|done|left; done]].
  pose proof (open_good ops c p access true s Hi) as Hg. unfold good_call, exec in Hg.
  destruct (fs_open ops c p access true s) as [[e ref] s1] eqn:Eo. destruct Hg as [(Hi1 & Hr1 & Hb1) Ho].
  destruct (decide (e = FS_OK)) as [->|He]; last first.
  { rewrite bool_decide_eq_true_2 by done. split_and!; [done|done|]. left. split_and!; [apply process_fs_error_nonpos|done|].
    unfold outcome in Ho. by rewrite decide_False in Ho. }
  rewrite bool_decide_eq_false_2 by (by intros []). apply fs_open_free in Eo as [Hready Hbusy].
  unfold outcome in Ho. rewrite decide_True in Ho by done. destruct Ho as (id & kind & Hadd & _).
  pose proof (stat_good ops ref true s1 Hi1) as Hg. unfold good_call, exec in Hg.
  pose proof (fs_stat_kind ref s1) as Hkind.
  destruct (fs_stat ops ref true s1) as [[e info] s2] eqn:Es. destruct Hg as [(Hi2 & Hr2 & Hb2) Hsame].
  assert (∀ v, handle_of s2 v = handle_of s1 v) as Hv.
  { unfold outcome in Hsame. destruct (decide (e = FS_OK)); [by destruct Hsame|done]. }
  set (e' := if _ && _ && _ then FS_NOT_DIRECTORY else e).
  destruct (decide (e' = FS_OK)) as [He'|He']; last first.
  { rewrite bool_decide_eq_true_2 by done. destruct Hadd as (Hn & Hfresh & Hadd).
    destruct (fs_close_live ref s2 (id, kind, access) Hi2) as (s3 & -> & (Hi3 & _ & Hb3) & Hclose); [congruence|congruence|by rewrite Hv, Hadd, decide_True|].
    cbn [snd]. split_and!; [done|congruence|]. left. split_and!; [apply process_fs_error_nonpos|done|]. intros v. rewrite Hclose, Hv, Hadd.
    by destruct (decide (v = ref)) as [->|]. }
  rewrite bool_decide_eq_false_2 by tauto. split_and!; [done|congruence|]. right.
  assert (e = FS_OK) as -> by (unfold e' in He'; by destruct (_ && _ && _)).
  destruct (Hkind info s2 eq_refl) as (id' & a' & Hh & Hcase). destruct Hadd as (Hn & Hfresh & Hadd). rewrite Hadd, decide_True in Hh by done.
  injection Hh as <- -> <-. apply find_first in Hfree as (Hrange & Hunused & Hfirst).
  assert (slot t i = no_handle) as Hslot.
  { pose proof (table_backed _ _ Ht i) as Hb. unfold backed in Hb. apply unused_true in Hunused. by rewrite Hunused in Hb. }
  split; [unfold RUM_ABI_HANDLE_LIMIT in *; lia|]. split; [done|]. split.
  { intros j Hj E. specialize (Hfirst j Hj). by rewrite E in Hfirst. }
  exists ref, id, (info_kind info). split; [done|]. split; [split_and!; [done|done|]; intros u; by rewrite Hv, Hadd|]. split.
  { intros ->. unfold e' in He'. rewrite bool_decide_eq_true_2 in He' by done. cbn in He'. destruct (Z.eqb_spec (info_kind info) FS_DIRECTORY); [done|]. done. }
  apply (insert_slot_ok t i _ (handle_of s)); cbn [hreference]; try done; [unfold RUM_ABI_HANDLE_LIMIT in *; lia| |].
  - unfold backed. cbn [hkind hreference haccess]. destruct (Z.eqb_spec (info_kind info) FS_DIRECTORY) as [E|E]; (split; [done|]; exists id; rewrite Hv, Hadd, decide_True by done).
    + by rewrite E.
    + destruct Hcase as [->|]; done.
  - intros v Hne. by rewrite Hv, Hadd, decide_False.
Qed.
End Ownership.

(** ** A process with its streams and one open file, for the witnesses *)

Module HandlesSample.
Definition opened : vfs (gmap Z Z) := snd (fs_open SampleBackend.ops None (Some SampleBackend.file) FS_READ true SampleBackend.mounted_state).
Definition file_handle : process_handle := ProcessHandle 1 0 FS_READ HANDLE_FILE 0.
Definition table : process_handles := <[3 := file_handle]> process_handles_initialize.
End HandlesSample.

Lemma sample_mounted_inv : fs_inv SampleBackend.ops SampleBackend.mounted_state ∧ ∀ u, handle_of SampleBackend.mounted_state u = None.
Proof.
  destruct (mount_inv SampleBackend.ops SampleBackend.disk_backend (snd (fs_initialize SampleBackend.power_on)) SampleBackend.mounted_state ∅) as (Hi & _ & Hh); [|done| |done].
  - intros id. cbn. unfold aget. by rewrite lookup_empty.
  - assert (fst (fs_mount_disk SampleBackend.ops true SampleBackend.disk_backend (snd (fs_initialize SampleBackend.power_on))) = FS_OK) as E
      by (vm_compute; reflexivity).
    rewrite <- E. apply surjective_pairing.
Qed.
Lemma streams_ok H : table_ok process_handles_initialize H.
Proof.
  unfold process_handles_initialize. split.
  - intros i. rewrite !slot_insert. repeat (destruct (decide (i = _)) as [->|]; [intros _; unfold RUM_ABI_HANDLE_LIMIT; lia|]). done.
  - intros i. rewrite !slot_insert. repeat (destruct (decide (i = _)) as [->|]; [done|]). done.
  - intros i j. rewrite !slot_insert. repeat (destruct (decide (i = _)) as [->|]; [done|]). done.
Qed.
Lemma sample_opened_inv : fs_inv SampleBackend.ops HandlesSample.opened.
Proof. exact (fs_open_inv SampleBackend.ops None (Some SampleBackend.file) FS_READ true SampleBackend.mounted_state (proj1 sample_mounted_inv)). Qed.
Lemma sample_table_ok : table_ok HandlesSample.table (handle_of HandlesSample.opened).
Proof.
  apply (insert_slot_ok _ _ HandlesSample.file_handle (λ v, if decide (v = 1) then None else handle_of HandlesSample.opened v)); try done.
  - apply streams_ok.
  - split; [done|]. exists 2. vm_compute. reflexivity.
  - intros v Hv. by rewrite decide_False.
Qed.

Lemma process_handles_destroy_exact_witness :
  table_ok HandlesSample.table (handle_of HandlesSample.opened) ∧ handle_of HandlesSample.opened 1 = Some (2, FS_FILE, FS_READ) ∧
  ∃ t' s', process_handles_destroy SampleBackend.ops false true (Some HandlesSample.table) HandlesSample.opened = ((0, Some t'), s') ∧ handle_of s' 1 = None.
Proof.
  split; [exact sample_table_ok|]. split; [vm_compute; reflexivity|].
  destruct (process_handles_destroy_exact SampleBackend.ops HandlesSample.table HandlesSample.opened sample_opened_inv
    ltac:(vm_compute; reflexivity) ltac:(vm_compute; reflexivity) sample_table_ok) as (t' & s' & E & _ & _ & _ & Hv).
  exists t', s'. split; [exact E|]. apply (proj1 (Hv 1)). split; [done|]. exists 3. reflexivity.
Defined.
Lemma process_handle_open_exact_witness :
  fst (fst (process_handle_open SampleBackend.ops false true (Some process_handles_initialize) None (Some SampleBackend.file) FS_READ 0 SampleBackend.mounted_state)) = 3 ∧
  fs_inv SampleBackend.ops (snd (process_handle_open SampleBackend.ops false true (Some process_handles_initialize) None (Some SampleBackend.file) FS_READ 0 SampleBackend.mounted_state)).
Proof.
  split; [vm_compute; reflexivity|].
  pose proof (process_handle_open_exact SampleBackend.ops false true process_handles_initialize None (Some SampleBackend.file) FS_READ 0
    SampleBackend.mounted_state (proj1 sample_mounted_inv) (streams_ok _)) as H.
  destruct (process_handle_open SampleBackend.ops false true (Some process_handles_initialize) None (Some SampleBackend.file) FS_READ 0 SampleBackend.mounted_state) as [[r t'] s'].
  exact (proj1 H).
Defined.
Lemma process_handle_seek_exact_witness :
  process_handle_seek SampleBackend.ops false true (Some (set_offset 7 HandlesSample.file_handle)) (2 ^ 64 - 3) RUM_SEEK_CUR true HandlesSample.opened =
    ((0, Some (set_offset 4 HandlesSample.file_handle), Some 4), HandlesSample.opened).
Proof.
  rewrite (process_handle_seek_exact SampleBackend.ops (set_offset 7 HandlesSample.file_handle) (2 ^ 64 - 3) RUM_SEEK_CUR HandlesSample.opened FS_OK 7 HandlesSample.opened);
    [reflexivity|reflexivity|split; discriminate|split; discriminate|split; discriminate|reflexivity].
Defined.
Lemma transfer_reports_error_once_witness : ∃ s',
  transfer SampleBackend.ops false true (Some HandlesSample.file_handle) (Some []) 3 false HandlesSample.opened =
    ((3, Some (set_offset 3 HandlesSample.file_handle), Some []), s').
Proof.
  assert (fst (transfer_io SampleBackend.ops HandlesSample.file_handle (Some []) 3 false HandlesSample.opened) = (IoResult FS_OK 3 0 0, Some [])) as E by (vm_compute; reflexivity).
  destruct (transfer_io SampleBackend.ops HandlesSample.file_handle (Some []) 3 false HandlesSample.opened) as [rb s'] eqn:Eio. cbn [fst] in E. subst rb.
  exists s'. generalize dependent HandlesSample.opened. intros s Eio.
  refine (proj1 (transfer_reports_error_once SampleBackend.ops HandlesSample.file_handle (Some []) 3 false s (IoResult FS_OK 3 0 0) (Some [])
    s' (Some []) 3 false _ _ _ _ _ _ _ _ _ _ _ Eio _)); try reflexivity; try discriminate; try (split; [reflexivity|discriminate]); try (eexists; reflexivity).
Defined.
