(* ===== verification/Gdt.v ===== *)
(** * Segments and task-state segments (arch/i386/gdt.c)

    The two hardware task-state segments and the descriptors that name them. Loading
    the descriptor table and the task register is assembly and not modelled. *)

From S2P Require Import Prelude.

Definition KERNEL_CODE_SELECTOR : Z := 0x08.
Definition KERNEL_DATA_SELECTOR : Z := 0x10.
Definition TSS_SELECTOR : Z := 0x28.
Definition DOUBLE_FAULT_TSS_SELECTOR : Z := 0x30.
Definition RUM_STACK_ALIGNMENT : Z := 16.
Definition GDT_PAGE_SIZE : Z := 0x1000.
Definition SIZEOF_TSS : Z := 104.

Record gdt_entry := GdtEntry { limit_low : Z; base_low : Z; base_middle : Z; access : Z; limit_flags : Z; base_high : Z }.
(** The fields that are ever written; the rest stay zero. *)
Record i386_tss := Tss {
  esp0 : Z; ss0 : Z; cr3 : Z; eip : Z; eflags : Z; esp : Z;
  tss_es : Z; tss_cs : Z; tss_ss : Z; tss_ds : Z; tss_fs : Z; tss_gs : Z; iomap_base : Z
}.
Definition zero_tss : i386_tss := Tss 0 0 0 0 0 0 0 0 0 0 0 0 0.
Record gdt := Gdt { initialized : bool; rum_tss : i386_tss; rum_double_fault_tss : i386_tss; rum_gdt : gmap Z gdt_entry }.
Definition set_entry (i : Z) (e : gdt_entry) (g : gdt) : gdt := Gdt (initialized g) (rum_tss g) (rum_double_fault_tss g) (<[i := e]> (rum_gdt g)).
Definition set_tss (t : i386_tss) (g : gdt) : gdt := Gdt (initialized g) t (rum_double_fault_tss g) (rum_gdt g).
Definition no_gdt_entry : gdt_entry := GdtEntry 0 0 0 0 0 0.
Definition set_gdt_access (a : Z) (e : gdt_entry) : gdt_entry :=
  GdtEntry (limit_low e) (base_low e) (base_middle e) a (limit_flags e) (base_high e).

(** [base] is the address of the segment. *)
Definition tss_descriptor (base : Z) : gdt_entry :=
  GdtEntry (SIZEOF_TSS - 1) (wrap16 base) (wrap8 (Z.shiftr base 16)) 0x89 0 (wrap8 (Z.shiftr base 24)).

Section Gdt.
(** [&rum_tss], [&rum_double_fault_tss], [__boot_stack_top] and [double_fault_entry]. *)
Context (tss_address double_fault_address boot_stack_top double_fault_entry : Z).

Definition gdt_initialize (g : gdt) : gdt :=
  if initialized g then g else
  let g := Gdt (initialized g) (Tss boot_stack_top KERNEL_DATA_SELECTOR 0 0 0 0 0 0 0 0 0 0 SIZEOF_TSS) zero_tss (rum_gdt g) in
  let g := set_entry (Z.shiftr TSS_SELECTOR 3) (tss_descriptor tss_address) g in
  let g := set_entry (Z.shiftr DOUBLE_FAULT_TSS_SELECTOR 3) (tss_descriptor double_fault_address) g in
  Gdt true (rum_tss g) (rum_double_fault_tss g) (rum_gdt g).

Definition stack_acceptable (top : Z) (g : gdt) : bool :=
  initialized g && negb (top =? 0) && (top mod RUM_STACK_ALIGNMENT =? 0).
Definition directory_acceptable (directory : Z) : bool := negb (directory =? 0) && (directory mod GDT_PAGE_SIZE =? 0).
Definition set_esp0 (top directory : Z) (t : i386_tss) : i386_tss :=
  Tss top (ss0 t) directory (eip t) (eflags t) (esp t) (tss_es t) (tss_cs t) (tss_ss t) (tss_ds t) (tss_fs t) (tss_gs t) (iomap_base t).

Definition gdt_set_kernel_stack (top : Z) (g : gdt) : bool * gdt :=
  if stack_acceptable top g then (true, set_tss (set_esp0 top (cr3 (rum_tss g)) (rum_tss g)) g) else (false, g).
Definition gdt_set_kernel_context (top directory : Z) (g : gdt) : bool * gdt :=
  if stack_acceptable top g && directory_acceptable directory then (true, set_tss (set_esp0 top directory (rum_tss g)) g) else (false, g).
Definition gdt_set_double_fault_stack (top kernel_directory : Z) (g : gdt) : bool * gdt :=
  if stack_acceptable top g && directory_acceptable kernel_directory then
    let t := Tss top KERNEL_DATA_SELECTOR kernel_directory double_fault_entry 2 top
               KERNEL_DATA_SELECTOR KERNEL_CODE_SELECTOR KERNEL_DATA_SELECTOR KERNEL_DATA_SELECTOR KERNEL_DATA_SELECTOR KERNEL_DATA_SELECTOR
               SIZEOF_TSS in
    let i := Z.shiftr DOUBLE_FAULT_TSS_SELECTOR 3 in
    (true, set_entry i (set_gdt_access 0x89 (default no_gdt_entry (rum_gdt g !! i))) (Gdt (initialized g) (rum_tss g) t (rum_gdt g)))
  else (false, g).
End Gdt.
