(* ===== verification/Keyboard.v ===== *)
(** * Keyboard (drivers/input/keyboard_decode.c, keyboard.c)

    The scan-code decoder, the ring of decoded characters, and the controller
    set-up. The ports are a device whose reads and writes are parameters. The
    interrupt handler itself, which also wakes tasks, is in Task.v. *)

From S2P Require Import Prelude.

(** ** The decoder *)

(** Layout tables, by scan code; an absent code holds zero. *)
Definition normal : gmap Z Z := list_to_map [
  (0x02, 49); (0x03, 50); (0x04, 51); (0x05, 52); (0x06, 53); (0x07, 54); (0x08, 55); (0x09, 56); (0x0A, 57);
  (0x0B, 48); (0x0C, 45); (0x0D, 61); (0x0E, 8); (0x0F, 9); (0x10, 113); (0x11, 119); (0x12, 101); (0x13,
  114); (0x14, 116); (0x15, 121); (0x16, 117); (0x17, 105); (0x18, 111); (0x19, 112); (0x1A, 91); (0x1B, 93);
  (0x1C, 10); (0x1E, 97); (0x1F, 115); (0x20, 100); (0x21, 102); (0x22, 103); (0x23, 104); (0x24, 106); (0x25,
  107); (0x26, 108); (0x27, 59); (0x28, 39); (0x29, 96); (0x2B, 92); (0x2C, 122); (0x2D, 120); (0x2E, 99);
  (0x2F, 118); (0x30, 98); (0x31, 110); (0x32, 109); (0x33, 44); (0x34, 46); (0x35, 47); (0x37, 42); (0x39,
  32); (0x4A, 45); (0x4E, 43)].
Definition shifted : gmap Z Z := list_to_map [
  (0x02, 33); (0x03, 64); (0x04, 35); (0x05, 36); (0x06, 37); (0x07, 94); (0x08, 38); (0x09, 42); (0x0A, 40);
  (0x0B, 41); (0x0C, 95); (0x0D, 43); (0x1A, 123); (0x1B, 125); (0x27, 58); (0x28, 34); (0x29, 126); (0x2B,
  124); (0x33, 60); (0x34, 62); (0x35, 63)].

Record keyboard_decoder := Decoder {
  left_shift : bool; right_shift : bool; caps_lock : bool; caps_down : bool; extended : bool;
  left_ctrl : bool; right_ctrl : bool; left_alt : bool; right_alt : bool; pause_remaining : Z
}.
Definition no_decoder : keyboard_decoder := Decoder false false false false false false false false false 0.
Definition set_shifts (l r : bool) d : keyboard_decoder :=
  Decoder l r (caps_lock d) (caps_down d) (extended d) (left_ctrl d) (right_ctrl d) (left_alt d) (right_alt d) (pause_remaining d).
Definition set_caps (lock down : bool) d : keyboard_decoder :=
  Decoder (left_shift d) (right_shift d) lock down (extended d) (left_ctrl d) (right_ctrl d) (left_alt d) (right_alt d) (pause_remaining d).
Definition set_extended (e : bool) d : keyboard_decoder :=
  Decoder (left_shift d) (right_shift d) (caps_lock d) (caps_down d) e (left_ctrl d) (right_ctrl d) (left_alt d) (right_alt d) (pause_remaining d).
Definition set_controls (l r : bool) d : keyboard_decoder :=
  Decoder (left_shift d) (right_shift d) (caps_lock d) (caps_down d) (extended d) l r (left_alt d) (right_alt d) (pause_remaining d).
Definition set_alts (l r : bool) d : keyboard_decoder :=
  Decoder (left_shift d) (right_shift d) (caps_lock d) (caps_down d) (extended d) (left_ctrl d) (right_ctrl d) l r (pause_remaining d).
Definition set_pause (n : Z) d : keyboard_decoder :=
  Decoder (left_shift d) (right_shift d) (caps_lock d) (caps_down d) (extended d) (left_ctrl d) (right_ctrl d) (left_alt d) (right_alt d) n.

(** The character a plain make code types. *)
Definition typed (code : Z) (d : keyboard_decoder) : Z :=
  let character := aget normal code in
  let shift := left_shift d || right_shift d in
  if (97 <=? character) && (character <=? 122) then
    if negb (Bool.eqb shift (caps_lock d)) then character - 97 + 65 else character
  else if shift && negb (aget shifted code =? 0) then aget shifted code
  else character.

Definition keyboard_decode (d : keyboard_decoder) (scancode : Z) : Z * keyboard_decoder :=
  if negb (pause_remaining d =? 0) then (0, set_pause (pause_remaining d - 1) d) else
  if scancode =? 0xE1 then (0, set_extended false (set_pause 5 d)) else
  if scancode =? 0xE0 then (0, set_extended true d) else
  let ext := extended d in
  let d := set_extended false d in
  let released := negb (Z.land scancode 0x80 =? 0) in
  let code := Z.land scancode 0x7F in
  if code =? 0x1D then
    (0, if ext then set_controls (left_ctrl d) (negb released) d else set_controls (negb released) (right_ctrl d) d) else
  if code =? 0x38 then
    (0, if ext then set_alts (left_alt d) (negb released) d else set_alts (negb released) (right_alt d) d) else
  if negb ext && ((code =? 0x2A) || (code =? 0x36)) then
    (0, if code =? 0x2A then set_shifts (negb released) (right_shift d) d else set_shifts (left_shift d) (negb released) d) else
  if negb ext && (code =? 0x3A) then
    (0, set_caps (if negb released && negb (caps_down d) then negb (caps_lock d) else caps_lock d) (negb released) d) else
  let control := left_ctrl d || right_ctrl d in
  if negb released && negb ext && control && negb (left_alt d) && negb (right_alt d) && (code =? 0x2E) then (3, d) else
  if released || control || left_alt d || right_alt d then (0, d) else
  if ext then (if code =? 0x1C then 10 else if code =? 0x35 then 47 else 0, d) else
  (typed code d, d).

(** ** The ring of characters *)

Definition QUEUE_SIZE : Z := 128.
Record keyboard := Keyboard { decoder : keyboard_decoder; queue : gmap Z Z; head : Z; tail : Z; dropped : Z }.
Definition no_keyboard : keyboard := Keyboard no_decoder ∅ 0 0 0.
Definition set_decoder (d : keyboard_decoder) (k : keyboard) : keyboard := Keyboard d (queue k) (head k) (tail k) (dropped k).

Definition advance (i : Z) : Z := Z.land (wrap32 (i + 1)) (QUEUE_SIZE - 1).
(** The end of the handler's loop body: whether the character was queued. *)
Definition enqueue (character : Z) (k : keyboard) : bool * keyboard :=
  let next := advance (head k) in
  if next =? tail k then (false, Keyboard (decoder k) (queue k) (head k) (tail k) (wrap32 (dropped k + 1)))
  else (true, Keyboard (decoder k) (aset (queue k) (head k) character) next (tail k) (dropped k)).
Definition keyboard_read (k : keyboard) : option Z * keyboard :=
  if tail k =? head k then (None, k)
  else (Some (aget (queue k) (tail k)), Keyboard (decoder k) (queue k) (head k) (advance (tail k)) (dropped k)).
Definition keyboard_dropped (k : keyboard) : Z := dropped k.
Definition keyboard_discard_input (k : keyboard) : keyboard :=
  Keyboard (decoder k) (queue k) (head k) (head k) (dropped k).

(** ** Controller set-up *)

Section Controller.
Context {D : Type} (inb : Z → D → Z * D) (outb : Z → Z → D → D) (io_wait : D → D).
Implicit Types (d : D).

Definition PS2_DATA : Z := 0x60.
Definition PS2_STATUS : Z := 0x64.
Definition PS2_COMMAND : Z := 0x64.
Definition POLL_LIMIT : nat := Z.to_nat 100000.

Fixpoint write_port_loop (polls : nat) (port value : Z) d : bool * D :=
  match polls with
  | O => (false, d)
  | S polls =>
      let '(status, d) := inb PS2_STATUS d in
      if Z.land status 2 =? 0 then (true, outb port value d) else write_port_loop polls port value (io_wait d)
  end.
Definition write_port (port value : Z) d : bool * D := write_port_loop POLL_LIMIT port value d.

Fixpoint read_reply_loop (polls : nat) d : option Z * D :=
  match polls with
  | O => (None, d)
  | S polls =>
      let '(status, d) := inb PS2_STATUS d in
      if Z.land status 1 =? 0 then read_reply_loop polls (io_wait d) else
      let '(value, d) := inb PS2_DATA d in
      if Z.land status 0xE0 =? 0 then (Some value, d) else read_reply_loop polls (io_wait d)
  end.
Definition read_reply d : option Z * D := read_reply_loop POLL_LIMIT d.

Fixpoint command_loop (attempts : nat) (command : Z) d : bool * D :=
  match attempts with
  | O => (false, d)
  | S attempts =>
      let '(ok, d) := write_port PS2_DATA command d in
      if negb ok then (false, d) else
      let '(reply, d) := read_reply d in
      match reply with
      | None => (false, d)
      | Some reply =>
          if reply =? 0xFA then (true, d) else if negb (reply =? 0xFE) then (false, d) else command_loop attempts command d
      end
  end.
Definition keyboard_command (command : Z) d : bool * D := command_loop 3 command d.

(** [for (count = 0; count < 256 && (inb(STATUS) & 1); ++count) inb(DATA)] *)
Fixpoint drain_loop (n : nat) d : D :=
  match n with
  | O => d
  | S n => let '(status, d) := inb PS2_STATUS d in if Z.land status 1 =? 0 then d else drain_loop n (snd (inb PS2_DATA d))
  end.

(** The commands after the reset of the statics; [registered] becomes whether
    [irq_register(1, keyboard_interrupt)] was reached. *)
Definition keyboard_initialize_ports d : (bool * bool) * D :=
  let '(ok, d) := (write_port PS2_COMMAND 0xAD &&> write_port PS2_COMMAND 0xA7) d in
  if negb ok then ((false, false), d) else
  let d := drain_loop 256 d in
  let '(ok, d) := write_port PS2_COMMAND 0x20 d in
  if negb ok then ((false, false), d) else
  let '(config, d) := read_reply d in
  match config with
  | None => ((false, false), d)
  | Some config =>
      let config := wrap8 (Z.lor (Z.land config (not32 0x03)) 0x70) in
      let '(ok, d) := (write_port PS2_COMMAND 0x60 &&> write_port PS2_DATA config &&> write_port PS2_COMMAND 0xAE &&>
                       keyboard_command 0xF5 &&> keyboard_command 0xF0 &&> keyboard_command 0x02 &&> keyboard_command 0xF4) d in
      if negb ok then ((false, false), d) else
      let config := wrap8 (Z.lor (Z.land config (not32 0x13)) 0x61) in
      let '(ok, d) := (write_port PS2_COMMAND 0x60 &&> write_port PS2_DATA config) d in
      ((ok, true), d)
  end.
(** The statics of the driver are reset first; the ring's bytes stay. The reset of
    [input_event] is with the events, in Task.v. *)
Definition keyboard_initialize (k : keyboard) d : (bool * bool) * keyboard * D :=
  let '(r, d) := keyboard_initialize_ports d in (r, Keyboard no_decoder (queue k) 0 0 0, d).
End Controller.

(** ** What the decoder yields *)

Definition decoder_ok (d : keyboard_decoder) : Prop := 0 ≤ pause_remaining d ≤ 5.
(** Zero, Ctrl+C, backspace, tab, newline or a printable character. *)
Definition text (c : Z) : bool := (c =? 0) || (c =? 3) || (c =? 8) || (c =? 9) || (c =? 10) || ((32 <=? c) && (c <=? 126)).
Definition modified (d : keyboard_decoder) : bool := left_ctrl d || right_ctrl d || left_alt d || right_alt d.

Lemma all_text : all_range 0 128 (λ code, text (aget normal code) && text (aget shifted code) &&
  negb (aget normal code =? 3) && negb (aget shifted code =? 3)) = true.
Proof. vm_compute. reflexivity. Qed.

Lemma typed_text code d : 0 ≤ code < 128 → text (typed code d) = true ∧ typed code d ≠ 3.
Proof.
  intros H. pose proof (proj1 (all_range_true _ _ _) all_text code H) as A. cbn beta in A. unfold typed, text in *.
  repeat case_match; lia.
Qed.

Lemma land_7f scancode : 0 ≤ Z.land scancode 0x7F < 128.
Proof. change 0x7F with (Z.ones 7). rewrite Z.land_ones by lia. apply Z.mod_pos_bound. lia. Qed.

(** C17: the decoder is total on every byte and yields only text: zero, Ctrl+C, backspace,
    tab, newline or a printable ASCII character. While a control or alt key is held it
    yields nothing but Ctrl+C, which needs a control key and no alt key; and the count of
    Pause bytes left to skip stays within the five that can follow. *)
Theorem keyboard_decode_type (d : keyboard_decoder) (scancode : Z) :
  decoder_ok d →
  let r := keyboard_decode d scancode in
  decoder_ok (snd r) ∧ text (fst r) = true ∧
  (modified (snd r) = true → fst r = 0 ∨ fst r = 3) ∧
  (fst r = 3 → (left_ctrl (snd r) || right_ctrl (snd r)) = true ∧ (left_alt (snd r) || right_alt (snd r)) = false).
Proof.
  intros H. pose proof (land_7f scancode) as B.
  pose proof (typed_text (Z.land scancode 0x7F) (set_extended false d) B) as [T1 T2].
  unfold decoder_ok, keyboard_decode in *. revert B T1 T2.
  generalize (Z.land scancode 0x7F), (typed (Z.land scancode 0x7F) (set_extended false d)). intros code c B T1 T2.
  repeat case_match; cbn in *; unfold modified, text in *; cbn in *;
    repeat split; try done; try lia; try (intros; by left); try (intros; by right);
    destruct (left_ctrl d), (right_ctrl d), (left_alt d), (right_alt d); cbn in *; try done; try lia;
    rewrite ?andb_false_r in *; try done; lia.
Qed.

Lemma keyboard_decode_type_witness :
  decoder_ok no_decoder ∧ fst (keyboard_decode (snd (keyboard_decode no_decoder 0x1D)) 0x2E) = 3 ∧
  text (fst (keyboard_decode no_decoder 0x1E)) = true.
Proof.
  split; [unfold decoder_ok; cbn; lia|]. split; [reflexivity|].
  apply (keyboard_decode_type no_decoder 0x1E). unfold decoder_ok; cbn; lia.
Defined.

(** ** The ring is a bounded queue *)

Inductive queue_call := Enqueue (character : Z) | Read | Discard.
Inductive queue_reply := Queued (stored : bool) | Got (character : option Z) | Discarded.

Definition exec (c : queue_call) (k : keyboard) : queue_reply * keyboard :=
  match c with
  | Enqueue x => let '(b, k) := enqueue x k in (Queued b, k)
  | Read => let '(r, k) := keyboard_read k in (Got r, k)
  | Discard => (Discarded, keyboard_discard_input k)
  end.
(** The contract: a first-in first-out queue of 127 characters that drops the newest. *)
Definition queue_spec (c : queue_call) (q : list Z) : queue_reply * list Z :=
  match c, q with
  | Enqueue x, _ => if (length q <? 127)%nat then (Queued true, q ++ [x]) else (Queued false, q)
  | Read, [] => (Got None, [])
  | Read, x :: q => (Got (Some x), q)
  | Discard, _ => (Discarded, [])
  end.
Fixpoint run_all {S R : Type} (f : queue_call → S → R * S) (cs : list queue_call) (s : S) : list R * S :=
  match cs with
  | [] => ([], s)
  | c :: cs => let '(r, s) := f c s in let '(rs, s) := run_all f cs s in (r :: rs, s)
  end.
Definition drops (rs : list queue_reply) : Z :=
  Z.of_nat (length (List.filter (λ r, match r with Queued false => true | _ => false end) rs)).

Definition ring_ok (k : keyboard) : Prop := 0 ≤ head k < 128 ∧ 0 ≤ tail k < 128 ∧ 0 ≤ dropped k ≤ UINT32_MAX.
Definition contents (k : keyboard) : list Z :=
  (λ i, aget (queue k) ((tail k + i) mod 128)) <$> seqZ 0 ((head k - tail k) mod 128).

Lemma advance_mod i : 0 ≤ i < 128 → advance i = (i + 1) mod 128.
Proof.
  intros. unfold advance, QUEUE_SIZE. rewrite wrap32_small by (unfold UINT32_MAX; lia).
  change (128 - 1) with (Z.ones 7). by rewrite Z.land_ones by lia.
Qed.

Lemma contents_length k : ring_ok k → Z.of_nat (length (contents k)) = (head k - tail k) mod 128.
Proof.
  intros _. unfold contents. rewrite length_fmap, length_seqZ.
  pose proof (Z.mod_pos_bound (head k - tail k) 128). lia.
Qed.

(** Indices of the ring as differences below 128. *)
Lemma mod_unique_128 a r : 0 ≤ r < 128 → (∃ q, a = q * 128 + r) → a mod 128 = r.
Proof. intros Hr [q ->]. rewrite Z.add_comm, Z.mod_add by lia. by apply Z.mod_small. Qed.
Lemma diff_cases h t : 0 ≤ h < 128 → 0 ≤ t < 128 →
  (h - t) mod 128 = (if decide (t ≤ h) then h - t else h - t + 128).
Proof. intros. apply mod_unique_128; case_decide; [lia..|exists 0; lia|exists (-1); lia]. Qed.
Lemma sum_cases t i : 0 ≤ t < 128 → 0 ≤ i < 128 → (t + i) mod 128 = (if decide (t + i < 128) then t + i else t + i - 128).
Proof. intros. apply mod_unique_128; case_decide; [lia..|exists 0; lia|exists 1; lia]. Qed.
Ltac ring_arith := repeat case_decide; rewrite ?sum_cases, ?diff_cases by lia; repeat case_decide; lia.

Lemma enqueue_full k : ring_ok k → (advance (head k) =? tail k) = (127 <=? (head k - tail k) mod 128).
Proof. intros (? & ? & _). rewrite advance_mod, sum_cases, diff_cases by lia. repeat case_decide; lia. Qed.

Lemma contents_enqueue k x k' : ring_ok k → enqueue x k = (true, k') → contents k' = contents k ++ [x] ∧ ring_ok k'.
Proof.
  intros R E. pose proof (enqueue_full k R) as F. unfold enqueue in E. destruct (_ =? _); [done|].
  destruct R as (H & T & D). simplify_eq. split.
  - unfold contents. cbn.
    assert ((advance (head k) - tail k) mod 128 = (head k - tail k) mod 128 + 1) as ->.
    { rewrite advance_mod, sum_cases by lia. rewrite diff_cases in F by lia.
      ring_arith. }
    rewrite diff_cases in F |- * by lia. rewrite seqZ_app by (case_decide; lia). rewrite fmap_app. f_equal.
    + apply list_fmap_ext. intros i j [-> Hi]%lookup_seqZ. unfold aget, aset. rewrite lookup_insert_ne; [done|].
      rewrite sum_cases by (repeat case_decide; lia). repeat case_decide; lia.
    + rewrite seqZ_cons by lia. cbn. f_equal. unfold aget, aset.
      rewrite (mod_unique_128 _ (head k)); [by rewrite lookup_insert_eq|lia|]. case_decide; [exists 0|exists 1]; lia.
  - repeat split; cbn; try lia; rewrite advance_mod by lia; apply Z.mod_pos_bound; lia.
Qed.

Lemma contents_read k x k' : ring_ok k → keyboard_read k = (Some x, k') → contents k = x :: contents k' ∧ ring_ok k'.
Proof.
  intros (H & T & D) E. unfold keyboard_read in E. destruct (Z.eqb_spec (tail k) (head k)) as [|N]; [done|]. simplify_eq. split.
  - unfold contents. cbn. rewrite seqZ_cons by (rewrite diff_cases by lia; case_decide; lia). cbn. f_equal.
    { unfold aget. rewrite Z.add_0_r, Z.mod_small by lia. done. }
    assert ((head k - advance (tail k)) mod 128 = Z.pred ((head k - tail k) mod 128)) as ->.
    { rewrite advance_mod, sum_cases by lia. ring_arith. }
    change (Z.succ 0) with (1 + 0). rewrite <- (fmap_add_seqZ 1 0). rewrite <- list_fmap_compose. apply list_fmap_ext. intros i j [-> Hi]%lookup_seqZ. cbn.
    f_equal. rewrite advance_mod by lia. rewrite Z.add_mod_idemp_l by lia. f_equal. lia.
  - repeat split; cbn; try lia; rewrite advance_mod by lia; apply Z.mod_pos_bound; lia.
Qed.

Lemma contents_empty k : ring_ok k → contents k = [] ↔ tail k = head k.
Proof.
  intros R. pose proof (contents_length k R) as L. destruct R as (H & T & _). rewrite diff_cases in L by lia.
  split; [intros E; rewrite E in L; cbn in L; case_decide; lia|intros E].
  rewrite E in L. rewrite decide_True in L by lia. apply length_zero_iff_nil. lia.
Qed.

Lemma exec_spec c k : ring_ok k →
  let '(r, k') := exec c k in
  ring_ok k' ∧ queue_spec c (contents k) = (r, contents k') ∧
  dropped k' = wrap32 (dropped k + drops [r]).
Proof.
  intros R. pose proof (contents_length k R) as L. pose proof (enqueue_full k R) as F.
  destruct c as [x| |]; cbn [exec].
  - destruct (enqueue x k) as [b k'] eqn:E. assert (b = negb (127 <=? (head k - tail k) mod 128)) as Eb.
    { unfold enqueue in E. rewrite F in E. case_match; by simplify_eq. }
    destruct b.
    + destruct (contents_enqueue _ _ _ R E) as [-> R']. split; [done|]. split.
      * unfold queue_spec. destruct (Nat.ltb_spec (length (contents k)) 127); [done|lia].
      * unfold enqueue in E. case_match; simplify_eq. cbn. rewrite Z.add_0_r. symmetry. apply wrap32_small, R.
    + unfold enqueue in E. case_match; simplify_eq. split; [|split; [|done]].
      * destruct R as (? & ? & _). repeat split; cbn; try lia; apply wrap32_bound.
      * unfold queue_spec. destruct (Nat.ltb_spec (length (contents k)) 127); [lia|done].
  - destruct (keyboard_read k) as [r k'] eqn:E. pose proof (contents_empty k R) as N.
    destruct r as [x|].
    + destruct (contents_read _ _ _ R E) as [-> R']. split; [done|]. split; [done|].
      unfold keyboard_read in E. case_match; simplify_eq. cbn. rewrite Z.add_0_r. symmetry. apply wrap32_small, R.
    + unfold keyboard_read in E. case_match; simplify_eq. rewrite (proj2 N) by lia. split; [done|]. split; [done|].
      cbn. rewrite Z.add_0_r. symmetry. apply wrap32_small, R.
  - assert (ring_ok (keyboard_discard_input k)) as R' by (destruct R as (? & ? & ?); repeat split; cbn; lia).
    split; [done|]. split; [|cbn; rewrite Z.add_0_r; symmetry; apply wrap32_small, R].
    cbn. f_equal. symmetry. by apply contents_empty.
Qed.

Lemma drops_cons r rs : drops (r :: rs) = drops [r] + drops rs.
Proof. unfold drops. cbn. destruct r as [[]| |]; cbn; lia. Qed.

(** C18: the keyboard ring is a first-in first-out queue of 127 characters: any sequence of
    characters typed, characters read and discards gets the replies of that queue, a
    character typed into a full ring is dropped and never overwrites an unread one, and the
    dropped count grows by exactly the number refused, modulo 2^32. *)
Theorem keyboard_queue_refines (cs : list queue_call) (k : keyboard) :
  ring_ok k →
  let '(rs, k') := run_all exec cs k in
  run_all queue_spec cs (contents k) = (rs, contents k') ∧ dropped k' = wrap32 (dropped k + drops rs) ∧ ring_ok k'.
Proof.
  revert k. induction cs as [|c cs IH]; intros k R; cbn [run_all].
  - split; [done|]. split; [|done]. cbn. rewrite Z.add_0_r. symmetry. apply wrap32_small, R.
  - pose proof (exec_spec c k R) as S. destruct (exec c k) as [r k1]. destruct S as (R1 & S1 & D1).
    specialize (IH k1 R1). destruct (run_all exec cs k1) as [rs k2]. destruct IH as (S2 & D2 & R2).
    rewrite S1, S2. split; [done|]. split; [|done]. rewrite D2, D1, (drops_cons r rs). unfold wrap32.
    rewrite Z.add_mod_idemp_l by lia. f_equal. lia.
Qed.

Lemma keyboard_queue_refines_witness :
  ring_ok no_keyboard ∧
  let '(rs, k') := run_all exec [Enqueue 104; Enqueue 105; Read] no_keyboard in
  run_all queue_spec [Enqueue 104; Enqueue 105; Read] (contents no_keyboard) = (rs, contents k') ∧
  dropped k' = wrap32 (dropped no_keyboard + drops rs) ∧ ring_ok k'.
Proof.
  assert (ring_ok no_keyboard) by (unfold ring_ok, UINT32_MAX; cbn; lia).
  split; [done|]. apply (keyboard_queue_refines _ no_keyboard). done.
Defined.
