(* ===== verification/Task.v ===== *)
(** * Tasks, scheduling and process lifetime (kernel/process/task.c, hal/pc/pit.c)

    The registry of tasks and processes over the address spaces of Paging.v, the
    filesystem of Fs.v, the console of Session.v, the handle tables of Handles.v, the
    segments of Gdt.v and the keyboard ring of Keyboard.v, and the interrupt handlers
    that change it. A pointer to a task is its slot; the console record of the process
    in a slot is the console member of that number.

    [None] is [cpu_halt]: the machine stops. Execution switches contexts only in
    [schedule]: an operation that calls it ends there with [Switched], and its tail is
    the operation named [..._resume], which runs when the context is chosen again.
    Interrupts that arrive while an operation runs with IF set are arguments. *)

From S2P Require Import Prelude Block Path Fs Paging Session Handles Gdt Keyboard.

Definition TASK_SLOTS : Z := RUM_PROCESS_LIMIT + 2.
Definition TASK_TIME_SLICE_TICKS : Z := 5.
Definition BOOT : Z := 0.
Definition IDLE : Z := 1.
Definition EMERGENCY_STACK_SLOT : Z := RUM_KERNEL_STACK_SLOTS - 1.
Definition RUM_KERNEL_STACK_SLOT_TOP (slot : Z) : Z := wrap32 (RUM_KERNEL_STACK_SLOT_BASE slot + RUM_KERNEL_STACK_SIZE).
Definition IF : Z := 0x200.
Definition USER_CODE_SELECTOR : Z := 0x1B.
Definition USER_DATA_SELECTOR : Z := 0x23.
Definition RUM_ABI_PID_MAX : Z := 0x7FFFFFFF.
Definition RUM_ABI_STACK_FIXED_WORDS : Z := 3.
Definition RUM_PROCESS_NAME_CAPACITY : Z := 64.
Definition RUM_COMMAND_TEXT_CAPACITY : Z := 256.
Definition RUM_PROCESS_LIST_LIMIT : Z := 16.
Definition RUM_SESSION_CHDIR : Z := 1.
Definition RUM_SESSION_RECOVERY : Z := 3.
Definition RUM_SHELL_RECOVERY_STATUS : Z := 75.
Definition TIMER_HZ : Z := 100.
Definition PIT_INPUT_HZ : Z := 1193182.
Definition TIMER_HALF_RANGE : Z := 0x80000000.
Definition RUM_SLEEP_MAX_MS : Z := 86400000.

Inductive task_state := TASK_UNUSED | TASK_RUNNABLE | TASK_RUNNING | TASK_BLOCKED | TASK_EXITED.
#[global] Instance task_state_eq_dec : EqDecision task_state.
Proof. solve_decision. Defined.
Inductive task_kind := TASK_KERNEL | TASK_PROCESS.
#[global] Instance task_kind_eq_dec : EqDecision task_kind.
Proof. solve_decision. Defined.
Inductive task_termination :=
  TASK_TERMINATION_NONE | TASK_TERMINATION_EXIT | TASK_TERMINATION_FAULT | TASK_TERMINATION_CANCELLED.
Inductive task_wait_result := TASK_WAIT_EVENT | TASK_WAIT_TIMEOUT | TASK_WAIT_CANCELLED | TASK_WAIT_INVALID.
#[global] Instance task_wait_result_eq_dec : EqDecision task_wait_result.
Proof. solve_decision. Defined.

(** A [struct task_event *]: the two events inside the process of a slot, the timer's
    and the keyboard's, and any other. *)
Inductive event := Children (slot : Z) | ConsoleInput (slot : Z) | Work | Input | Other (n : Z).
#[global] Instance event_eq_dec : EqDecision event.
Proof. solve_decision. Defined.

Record exception_frame := Frame {
  gs : Z; fs : Z; es : Z; ds : Z; edi : Z; esi : Z; ebp : Z; saved_esp : Z; ebx : Z; edx : Z; ecx : Z; eax : Z;
  vector : Z; error : Z; frame_eip : Z; cs : Z; frame_eflags : Z
}.
Record exception_user_frame := UserFrame { core : exception_frame; frame_esp : Z; ss : Z }.
Definition no_frame : exception_user_frame := UserFrame (Frame 0 0 0 0 0 0 0 0 0 0 0 0 0 0 0 0 0) 0 0.
Definition exception_frame_from_user (f : exception_frame) : bool := Z.land (cs f) 3 =? 3.
(** The frame as the words in memory behind the pointer. *)
Definition exception_frame_esp (f : exception_user_frame) : Z :=
  if exception_frame_from_user (core f) then frame_esp f else wrap32 (saved_esp (core f) + 5 * 4).

Record task_resources := Resources { kernel_stack_pages : Z; directory_pages : Z; user_table_pages : Z; resource_user_pages : Z }.
Definition no_resources : task_resources := Resources 0 0 0 0.
Record task_fault := Fault { fault_vector : Z; fault_error : Z; fault_address : Z; fault_instruction : Z; fault_stack : Z }.
Definition no_fault : task_fault := Fault 0 0 0 0 0.

(** Its console record is the console member of the same slot. *)
Record process_state := Process {
  process_id : Z; parent : Z; kind : task_kind; space : option Z; owns_space : bool; termination : task_termination;
  status : Z; fault : task_fault; resources : task_resources; filesystem : fs_context; handles : process_handles;
  cancellation_requested : bool; orphaned : bool; children_event : Z; console_event : Z; name : gmap Z Z; command_text
  : gmap Z Z
}.
Definition no_process : process_state :=
  Process 0 0 TASK_KERNEL None false TASK_TERMINATION_NONE 0 no_fault no_resources no_context ∅ false false 0 0 ∅ ∅.
Definition set_parent (v : Z) (x : process_state) : process_state :=
  Process (process_id x) v (kind x) (space x) (owns_space x) (termination x) (status x) (fault x) (resources x) (filesystem x) (handles x) (cancellation_requested x) (orphaned x) (children_event x) (console_event x) (name x) (command_text x).
Definition set_termination (v : task_termination) (x : process_state) : process_state :=
  Process (process_id x) (parent x) (kind x) (space x) (owns_space x) v (status x) (fault x) (resources x) (filesystem x) (handles x) (cancellation_requested x) (orphaned x) (children_event x) (console_event x) (name x) (command_text x).
Definition set_status (v : Z) (x : process_state) : process_state :=
  Process (process_id x) (parent x) (kind x) (space x) (owns_space x) (termination x) v (fault x) (resources x) (filesystem x) (handles x) (cancellation_requested x) (orphaned x) (children_event x) (console_event x) (name x) (command_text x).
Definition set_fault (v : task_fault) (x : process_state) : process_state :=
  Process (process_id x) (parent x) (kind x) (space x) (owns_space x) (termination x) (status x) v (resources x) (filesystem x) (handles x) (cancellation_requested x) (orphaned x) (children_event x) (console_event x) (name x) (command_text x).
Definition set_filesystem (v : fs_context) (x : process_state) : process_state :=
  Process (process_id x) (parent x) (kind x) (space x) (owns_space x) (termination x) (status x) (fault x) (resources x) v (handles x) (cancellation_requested x) (orphaned x) (children_event x) (console_event x) (name x) (command_text x).
Definition set_handles (v : process_handles) (x : process_state) : process_state :=
  Process (process_id x) (parent x) (kind x) (space x) (owns_space x) (termination x) (status x) (fault x) (resources x) (filesystem x) v (cancellation_requested x) (orphaned x) (children_event x) (console_event x) (name x) (command_text x).
Definition set_cancellation_requested (v : bool) (x : process_state) : process_state :=
  Process (process_id x) (parent x) (kind x) (space x) (owns_space x) (termination x) (status x) (fault x) (resources x) (filesystem x) (handles x) v (orphaned x) (children_event x) (console_event x) (name x) (command_text x).
Definition set_orphaned (v : bool) (x : process_state) : process_state :=
  Process (process_id x) (parent x) (kind x) (space x) (owns_space x) (termination x) (status x) (fault x) (resources x) (filesystem x) (handles x) (cancellation_requested x) v (children_event x) (console_event x) (name x) (command_text x).
Definition set_children_event (v : Z) (x : process_state) : process_state :=
  Process (process_id x) (parent x) (kind x) (space x) (owns_space x) (termination x) (status x) (fault x) (resources x) (filesystem x) (handles x) (cancellation_requested x) (orphaned x) v (console_event x) (name x) (command_text x).
Definition set_console_event (v : Z) (x : process_state) : process_state :=
  Process (process_id x) (parent x) (kind x) (space x) (owns_space x) (termination x) (status x) (fault x) (resources x) (filesystem x) (handles x) (cancellation_requested x) (orphaned x) (children_event x) v (name x) (command_text x).
Definition set_command_text (v : gmap Z Z) (x : process_state) : process_state :=
  Process (process_id x) (parent x) (kind x) (space x) (owns_space x) (termination x) (status x) (fault x) (resources x) (filesystem x) (handles x) (cancellation_requested x) (orphaned x) (children_event x) (console_event x) (name x) v.
(** [process] is the index into [processes]. *)
Record task := Task {
  tid : Z; state : task_state; stack : Z; stack_slot : Z; stack_base : Z; stack_top : Z; stack_pages : Z; switch_holds
  : Z; slice_ticks : Z; reschedule : bool; entry : option Z; argument : Z; user_frame : exception_user_frame; waiting
  : option event; deadline : Z; deadline_active : bool; wake_reason : task_wait_result; process : option Z
}.
Definition no_task : task :=
  Task 0 TASK_UNUSED 0 0 0 0 0 0 0 false None 0 no_frame None 0 false TASK_WAIT_EVENT None.
Definition set_state (v : task_state) (x : task) : task :=
  Task (tid x) v (stack x) (stack_slot x) (stack_base x) (stack_top x) (stack_pages x) (switch_holds x) (slice_ticks x) (reschedule x) (entry x) (argument x) (user_frame x) (waiting x) (deadline x) (deadline_active x) (wake_reason x) (process x).
Definition set_stack (v : Z) (x : task) : task :=
  Task (tid x) (state x) v (stack_slot x) (stack_base x) (stack_top x) (stack_pages x) (switch_holds x) (slice_ticks x) (reschedule x) (entry x) (argument x) (user_frame x) (waiting x) (deadline x) (deadline_active x) (wake_reason x) (process x).
Definition set_switch_holds (v : Z) (x : task) : task :=
  Task (tid x) (state x) (stack x) (stack_slot x) (stack_base x) (stack_top x) (stack_pages x) v (slice_ticks x) (reschedule x) (entry x) (argument x) (user_frame x) (waiting x) (deadline x) (deadline_active x) (wake_reason x) (process x).
Definition set_slice_ticks (v : Z) (x : task) : task :=
  Task (tid x) (state x) (stack x) (stack_slot x) (stack_base x) (stack_top x) (stack_pages x) (switch_holds x) v (reschedule x) (entry x) (argument x) (user_frame x) (waiting x) (deadline x) (deadline_active x) (wake_reason x) (process x).
Definition set_reschedule (v : bool) (x : task) : task :=
  Task (tid x) (state x) (stack x) (stack_slot x) (stack_base x) (stack_top x) (stack_pages x) (switch_holds x) (slice_ticks x) v (entry x) (argument x) (user_frame x) (waiting x) (deadline x) (deadline_active x) (wake_reason x) (process x).
Definition set_user_frame (v : exception_user_frame) (x : task) : task :=
  Task (tid x) (state x) (stack x) (stack_slot x) (stack_base x) (stack_top x) (stack_pages x) (switch_holds x) (slice_ticks x) (reschedule x) (entry x) (argument x) v (waiting x) (deadline x) (deadline_active x) (wake_reason x) (process x).
Definition set_waiting (v : option event) (x : task) : task :=
  Task (tid x) (state x) (stack x) (stack_slot x) (stack_base x) (stack_top x) (stack_pages x) (switch_holds x) (slice_ticks x) (reschedule x) (entry x) (argument x) (user_frame x) v (deadline x) (deadline_active x) (wake_reason x) (process x).
Definition set_deadline (v : Z) (x : task) : task :=
  Task (tid x) (state x) (stack x) (stack_slot x) (stack_base x) (stack_top x) (stack_pages x) (switch_holds x) (slice_ticks x) (reschedule x) (entry x) (argument x) (user_frame x) (waiting x) v (deadline_active x) (wake_reason x) (process x).
Definition set_deadline_active (v : bool) (x : task) : task :=
  Task (tid x) (state x) (stack x) (stack_slot x) (stack_base x) (stack_top x) (stack_pages x) (switch_holds x) (slice_ticks x) (reschedule x) (entry x) (argument x) (user_frame x) (waiting x) (deadline x) v (wake_reason x) (process x).
Definition set_wake_reason (v : task_wait_result) (x : task) : task :=
  Task (tid x) (state x) (stack x) (stack_slot x) (stack_base x) (stack_top x) (stack_pages x) (switch_holds x) (slice_ticks x) (reschedule x) (entry x) (argument x) (user_frame x) (waiting x) (deadline x) (deadline_active x) v (process x).
Definition set_process (v : option Z) (x : task) : task :=
  Task (tid x) (state x) (stack x) (stack_slot x) (stack_base x) (stack_top x) (stack_pages x) (switch_holds x) (slice_ticks x) (reschedule x) (entry x) (argument x) (user_frame x) (waiting x) (deadline x) (deadline_active x) (wake_reason x) v.
Definition set_stack_of (slot base top pages : Z) (x : task) : task :=
  Task (tid x) (state x) (stack x) slot base top pages (switch_holds x) (slice_ticks x) (reschedule x) (entry x)
    (argument x) (user_frame x) (waiting x) (deadline x) (deadline_active x) (wake_reason x) (process x).

(** The statics of task.c, the components it calls, and the machine: whether an interrupt
    handler runs, the interrupt flag, the tick count and whether a block request is active. *)
Record kstate (K : Type) := Kstate {
  tasks : gmap Z task; processes : gmap Z process_state; current : option Z; next_id : Z; next_process_id : Z; ready :
  bool; created : Z; exited : Z; reaped : Z; switches : Z; work_event : Z; input_event : Z; other_events : gmap Z Z;
  task_idle_stack_base : Z; task_emergency_stack_base : Z; task_current_stack_top : Z; consoles : console; memory :
  paging; files : vfs K; segments : gdt; keys : keyboard; in_irq : bool; iflag : bool; ticks : Z; block_active : bool
}.
Arguments Kstate {K}.
Arguments tasks {K} _.
Arguments processes {K} _.
Arguments current {K} _.
Arguments next_id {K} _.
Arguments next_process_id {K} _.
Arguments ready {K} _.
Arguments created {K} _.
Arguments exited {K} _.
Arguments reaped {K} _.
Arguments switches {K} _.
Arguments work_event {K} _.
Arguments input_event {K} _.
Arguments other_events {K} _.
Arguments task_idle_stack_base {K} _.
Arguments task_emergency_stack_base {K} _.
Arguments task_current_stack_top {K} _.
Arguments consoles {K} _.
Arguments memory {K} _.
Arguments files {K} _.
Arguments segments {K} _.
Arguments keys {K} _.
Arguments in_irq {K} _.
Arguments iflag {K} _.
Arguments ticks {K} _.
Arguments block_active {K} _.

Section State.
Context {K : Type}.
Implicit Types (s x : kstate K).
Definition set_tasks (v : gmap Z task) (x : kstate K) : kstate K :=
  Kstate v (processes x) (current x) (next_id x) (next_process_id x) (ready x) (created x) (exited x) (reaped x) (switches x) (work_event x) (input_event x) (other_events x) (task_idle_stack_base x) (task_emergency_stack_base x) (task_current_stack_top x) (consoles x) (memory x) (files x) (segments x) (keys x) (in_irq x) (iflag x) (ticks x) (block_active x).
Definition set_processes (v : gmap Z process_state) (x : kstate K) : kstate K :=
  Kstate (tasks x) v (current x) (next_id x) (next_process_id x) (ready x) (created x) (exited x) (reaped x) (switches x) (work_event x) (input_event x) (other_events x) (task_idle_stack_base x) (task_emergency_stack_base x) (task_current_stack_top x) (consoles x) (memory x) (files x) (segments x) (keys x) (in_irq x) (iflag x) (ticks x) (block_active x).
Definition set_current (v : option Z) (x : kstate K) : kstate K :=
  Kstate (tasks x) (processes x) v (next_id x) (next_process_id x) (ready x) (created x) (exited x) (reaped x) (switches x) (work_event x) (input_event x) (other_events x) (task_idle_stack_base x) (task_emergency_stack_base x) (task_current_stack_top x) (consoles x) (memory x) (files x) (segments x) (keys x) (in_irq x) (iflag x) (ticks x) (block_active x).
Definition set_next_id (v : Z) (x : kstate K) : kstate K :=
  Kstate (tasks x) (processes x) (current x) v (next_process_id x) (ready x) (created x) (exited x) (reaped x) (switches x) (work_event x) (input_event x) (other_events x) (task_idle_stack_base x) (task_emergency_stack_base x) (task_current_stack_top x) (consoles x) (memory x) (files x) (segments x) (keys x) (in_irq x) (iflag x) (ticks x) (block_active x).
Definition set_next_process_id (v : Z) (x : kstate K) : kstate K :=
  Kstate (tasks x) (processes x) (current x) (next_id x) v (ready x) (created x) (exited x) (reaped x) (switches x) (work_event x) (input_event x) (other_events x) (task_idle_stack_base x) (task_emergency_stack_base x) (task_current_stack_top x) (consoles x) (memory x) (files x) (segments x) (keys x) (in_irq x) (iflag x) (ticks x) (block_active x).
Definition set_ready (v : bool) (x : kstate K) : kstate K :=
  Kstate (tasks x) (processes x) (current x) (next_id x) (next_process_id x) v (created x) (exited x) (reaped x) (switches x) (work_event x) (input_event x) (other_events x) (task_idle_stack_base x) (task_emergency_stack_base x) (task_current_stack_top x) (consoles x) (memory x) (files x) (segments x) (keys x) (in_irq x) (iflag x) (ticks x) (block_active x).
Definition set_created (v : Z) (x : kstate K) : kstate K :=
  Kstate (tasks x) (processes x) (current x) (next_id x) (next_process_id x) (ready x) v (exited x) (reaped x) (switches x) (work_event x) (input_event x) (other_events x) (task_idle_stack_base x) (task_emergency_stack_base x) (task_current_stack_top x) (consoles x) (memory x) (files x) (segments x) (keys x) (in_irq x) (iflag x) (ticks x) (block_active x).
Definition set_exited (v : Z) (x : kstate K) : kstate K :=
  Kstate (tasks x) (processes x) (current x) (next_id x) (next_process_id x) (ready x) (created x) v (reaped x) (switches x) (work_event x) (input_event x) (other_events x) (task_idle_stack_base x) (task_emergency_stack_base x) (task_current_stack_top x) (consoles x) (memory x) (files x) (segments x) (keys x) (in_irq x) (iflag x) (ticks x) (block_active x).
Definition set_reaped (v : Z) (x : kstate K) : kstate K :=
  Kstate (tasks x) (processes x) (current x) (next_id x) (next_process_id x) (ready x) (created x) (exited x) v (switches x) (work_event x) (input_event x) (other_events x) (task_idle_stack_base x) (task_emergency_stack_base x) (task_current_stack_top x) (consoles x) (memory x) (files x) (segments x) (keys x) (in_irq x) (iflag x) (ticks x) (block_active x).
Definition set_switches (v : Z) (x : kstate K) : kstate K :=
  Kstate (tasks x) (processes x) (current x) (next_id x) (next_process_id x) (ready x) (created x) (exited x) (reaped x) v (work_event x) (input_event x) (other_events x) (task_idle_stack_base x) (task_emergency_stack_base x) (task_current_stack_top x) (consoles x) (memory x) (files x) (segments x) (keys x) (in_irq x) (iflag x) (ticks x) (block_active x).
Definition set_work_event (v : Z) (x : kstate K) : kstate K :=
  Kstate (tasks x) (processes x) (current x) (next_id x) (next_process_id x) (ready x) (created x) (exited x) (reaped x) (switches x) v (input_event x) (other_events x) (task_idle_stack_base x) (task_emergency_stack_base x) (task_current_stack_top x) (consoles x) (memory x) (files x) (segments x) (keys x) (in_irq x) (iflag x) (ticks x) (block_active x).
Definition set_input_event (v : Z) (x : kstate K) : kstate K :=
  Kstate (tasks x) (processes x) (current x) (next_id x) (next_process_id x) (ready x) (created x) (exited x) (reaped x) (switches x) (work_event x) v (other_events x) (task_idle_stack_base x) (task_emergency_stack_base x) (task_current_stack_top x) (consoles x) (memory x) (files x) (segments x) (keys x) (in_irq x) (iflag x) (ticks x) (block_active x).
Definition set_other_events (v : gmap Z Z) (x : kstate K) : kstate K :=
  Kstate (tasks x) (processes x) (current x) (next_id x) (next_process_id x) (ready x) (created x) (exited x) (reaped x) (switches x) (work_event x) (input_event x) v (task_idle_stack_base x) (task_emergency_stack_base x) (task_current_stack_top x) (consoles x) (memory x) (files x) (segments x) (keys x) (in_irq x) (iflag x) (ticks x) (block_active x).
Definition set_consoles (v : console) (x : kstate K) : kstate K :=
  Kstate (tasks x) (processes x) (current x) (next_id x) (next_process_id x) (ready x) (created x) (exited x) (reaped x) (switches x) (work_event x) (input_event x) (other_events x) (task_idle_stack_base x) (task_emergency_stack_base x) (task_current_stack_top x) v (memory x) (files x) (segments x) (keys x) (in_irq x) (iflag x) (ticks x) (block_active x).
Definition set_memory (v : paging) (x : kstate K) : kstate K :=
  Kstate (tasks x) (processes x) (current x) (next_id x) (next_process_id x) (ready x) (created x) (exited x) (reaped x) (switches x) (work_event x) (input_event x) (other_events x) (task_idle_stack_base x) (task_emergency_stack_base x) (task_current_stack_top x) (consoles x) v (files x) (segments x) (keys x) (in_irq x) (iflag x) (ticks x) (block_active x).
Definition set_files (v : vfs K) (x : kstate K) : kstate K :=
  Kstate (tasks x) (processes x) (current x) (next_id x) (next_process_id x) (ready x) (created x) (exited x) (reaped x) (switches x) (work_event x) (input_event x) (other_events x) (task_idle_stack_base x) (task_emergency_stack_base x) (task_current_stack_top x) (consoles x) (memory x) v (segments x) (keys x) (in_irq x) (iflag x) (ticks x) (block_active x).
Definition set_segments (v : gdt) (x : kstate K) : kstate K :=
  Kstate (tasks x) (processes x) (current x) (next_id x) (next_process_id x) (ready x) (created x) (exited x) (reaped x) (switches x) (work_event x) (input_event x) (other_events x) (task_idle_stack_base x) (task_emergency_stack_base x) (task_current_stack_top x) (consoles x) (memory x) (files x) v (keys x) (in_irq x) (iflag x) (ticks x) (block_active x).
Definition set_keys (v : keyboard) (x : kstate K) : kstate K :=
  Kstate (tasks x) (processes x) (current x) (next_id x) (next_process_id x) (ready x) (created x) (exited x) (reaped x) (switches x) (work_event x) (input_event x) (other_events x) (task_idle_stack_base x) (task_emergency_stack_base x) (task_current_stack_top x) (consoles x) (memory x) (files x) (segments x) v (in_irq x) (iflag x) (ticks x) (block_active x).
Definition set_in_irq (v : bool) (x : kstate K) : kstate K :=
  Kstate (tasks x) (processes x) (current x) (next_id x) (next_process_id x) (ready x) (created x) (exited x) (reaped x) (switches x) (work_event x) (input_event x) (other_events x) (task_idle_stack_base x) (task_emergency_stack_base x) (task_current_stack_top x) (consoles x) (memory x) (files x) (segments x) (keys x) v (iflag x) (ticks x) (block_active x).
Definition set_iflag (v : bool) (x : kstate K) : kstate K :=
  Kstate (tasks x) (processes x) (current x) (next_id x) (next_process_id x) (ready x) (created x) (exited x) (reaped x) (switches x) (work_event x) (input_event x) (other_events x) (task_idle_stack_base x) (task_emergency_stack_base x) (task_current_stack_top x) (consoles x) (memory x) (files x) (segments x) (keys x) (in_irq x) v (ticks x) (block_active x).
Definition set_ticks (v : Z) (x : kstate K) : kstate K :=
  Kstate (tasks x) (processes x) (current x) (next_id x) (next_process_id x) (ready x) (created x) (exited x) (reaped x) (switches x) (work_event x) (input_event x) (other_events x) (task_idle_stack_base x) (task_emergency_stack_base x) (task_current_stack_top x) (consoles x) (memory x) (files x) (segments x) (keys x) (in_irq x) (iflag x) v (block_active x).
Definition set_marks (i e c : Z) s : kstate K :=
  Kstate (tasks s) (processes s) (current s) (next_id s) (next_process_id s) (ready s) (created s) (exited s) (reaped s) (switches s)
    (work_event s) (input_event s) (other_events s) i e c (consoles s) (memory s) (files s) (segments s) (keys s)
    (in_irq s) (iflag s) (ticks s) (block_active s).

Definition get_task s (i : Z) : task := default no_task (tasks s !! i).
Definition put_task (i : Z) (t : task) s : kstate K := set_tasks (<[i := t]> (tasks s)) s.
Definition upd_task (i : Z) (f : task → task) s : kstate K := put_task i (f (get_task s i)) s.
Definition get_process s (i : Z) : process_state := default no_process (processes s !! i).
Definition put_process (i : Z) (p : process_state) s : kstate K := set_processes (<[i := p]> (processes s)) s.
Definition upd_process (i : Z) (f : process_state → process_state) s : kstate K := put_process i (f (get_process s i)) s.

(** [tasks[i].process->...]: published tasks own the process of their slot. *)
Definition proc s (i : Z) : process_state := default no_process (process (get_task s i) ≫= λ j, processes s !! j).
Definition upd_proc (i : Z) (f : process_state → process_state) s : kstate K :=
  match process (get_task s i) with Some j => upd_process j f s | None => s end.
(** [current], which is set once the registry is ready. *)
Definition cur s : Z := default 0 (current s).
Definition used s (i : Z) : bool := bool_decide (state (get_task s i) ≠ TASK_UNUSED).
Definition in_state s (i : Z) (st : task_state) : bool := bool_decide (state (get_task s i) = st).
Definition is_process s (i : Z) : bool := bool_decide (kind (proc s i) = TASK_PROCESS).
Definition slots_from (first : Z) : list Z := seqZ first (TASK_SLOTS - first).

Definition upd_console {A : Type} (f : console → A * console) s : A * kstate K :=
  let '(a, c) := f (consoles s) in (a, set_consoles c s).
(** A call into paging.c, which may itself stop the machine. *)
Definition paged {A : Type} (f : paging → A * paging) s : option (A * kstate K) :=
  let '(a, m) := f (memory s) in if halted m then None else Some (a, set_memory m s).
Definition on_files {A : Type} (f : vfs K → A * vfs K) s : A * kstate K :=
  let '(a, v) := f (files s) in (a, set_files v s).
End State.

(** Sequencing after an operation that may stop the machine. *)
#[local] Notation "'let!' p ':=' m 'in' k" := (match m with Some p => k | None => None end)
  (at level 200, p pattern, right associativity).

(** The loop over slots of an operation that may stop the machine. *)
Fixpoint for_slots {A S : Type} (l : list Z) (body : Z → A → S → option (A * S)) (a : A) (s : S) : option (A * S) :=
  match l with
  | [] => Some (a, s)
  | i :: l => let! (a, s) := body i a s in for_slots l body a s
  end.

(** ** The clock *)

Definition timer_deadline_reached (now deadline : Z) : bool := wrap32 (now - deadline) <? TIMER_HALF_RANGE.
(** [*result], for a result pointer that is given. *)
Definition timer_duration_ticks (milliseconds : Z) : option Z :=
  if milliseconds >? RUM_SLEEP_MAX_MS then None else
  let duration := if milliseconds =? 0 then 0 else wrap64 (wrap64 (milliseconds * TIMER_HZ + 999) / 1000 + 1) in
  if duration >=? TIMER_HALF_RANGE then None else Some (wrap32 duration).

(** ** Waking *)

Definition clear_wait (t : task) : task := set_deadline 0 (set_deadline_active false (set_waiting None t)).
Definition wake_task (reason : task_wait_result) (t : task) : task :=
  set_state TASK_RUNNABLE (set_wake_reason reason (clear_wait t)).

Section Events.
Context {K : Type}.
Implicit Types (s : kstate K) (e : event).

Definition sequence s e : Z :=
  match e with
  | Children i => children_event (get_process s i)
  | ConsoleInput i => console_event (get_process s i)
  | Work => work_event s
  | Input => input_event s
  | Other n => aget (other_events s) n
  end.
Definition set_sequence e (v : Z) s : kstate K :=
  match e with
  | Children i => upd_process i (set_children_event v) s
  | ConsoleInput i => upd_process i (set_console_event v) s
  | Work => set_work_event v s
  | Input => set_input_event v s
  | Other n => set_other_events (aset (other_events s) n v) s
  end.

(** [NULL] is [None]. *)
Definition task_event_sequence (event : option event) s : Z := match event with Some e => sequence s e | None => 0 end.
Definition waits_on s e (i : Z) : bool := in_state s i TASK_BLOCKED && bool_decide (waiting (get_task s i) = Some e).
Definition task_event_signal (event : option event) s : kstate K :=
  match event with
  | None => s
  | Some e =>
      let saved := iflag s in
      let s := set_iflag false s in
      let s := set_sequence e (wrap32 (sequence s e + 1)) s in
      let s := if ready s then for_range 0 TASK_SLOTS (λ i s, if waits_on s e i then upd_task i (wake_task TASK_WAIT_EVENT) s else s) s else s in
      set_iflag saved s
  end.
Definition task_work_event : event := Work.

(** *** The interrupt handlers *)

Definition due s (now i : Z) : bool :=
  in_state s i TASK_BLOCKED && deadline_active (get_task s i) && timer_deadline_reached now (deadline (get_task s i)).
Definition task_timer_tick (now : Z) s : kstate K :=
  if negb (ready s) then s else
  let s := for_range 0 TASK_SLOTS (λ i s, if due s now i then upd_task i (wake_task TASK_WAIT_TIMEOUT) s else s) s in
  match current s with
  | None => s
  | Some c =>
      if slice_ticks (get_task s c) =? 0 then s else
      let s := upd_task c (set_slice_ticks (slice_ticks (get_task s c) - 1)) s in
      if slice_ticks (get_task s c) =? 0 then upd_task c (set_reschedule true) s else s
  end.
Definition timer_interrupt s : kstate K :=
  let s := set_ticks (wrap32 (ticks s + 1)) s in
  task_event_signal (Some task_work_event) (task_timer_tick (ticks s) s).
Definition timer_ticks s : Z := ticks s.

(** [cancellation_requested], the console record, and the wait of a live process. *)
Definition cancel_slot (i : Z) s : kstate K :=
  let s := upd_proc i (set_cancellation_requested true) s in
  let s := set_consoles (console_cancel_member (Some i) (consoles s)) s in
  if in_state s i TASK_BLOCKED then upd_task i (wake_task TASK_WAIT_CANCELLED) s else s.
Definition task_cancel_foreground s : bool * kstate K :=
  let saved := iflag s in
  let s := set_iflag false s in
  let foreground := console_cancellation_target (consoles s) in
  if negb (ready s && negb (foreground =? 0)) then (false, set_iflag saved s) else
  match List.find (λ i, (tid (get_task s i) =? foreground) && is_process s i && negb (in_state s i TASK_EXITED) && used s i) (slots_from 2) with
  | Some i => (true, set_iflag saved (cancel_slot i s))
  | None => (false, set_iflag saved s)
  end.

Definition task_notify_shell_input s : kstate K :=
  if negb (ready s) then s else
  let saved := iflag s in
  let s := for_range 2 TASK_SLOTS (λ i s,
    if used s i && console_is_shell (consoles s) (Some i) && console_owns_input (consoles s) (Some i)
    then task_event_signal (Some (ConsoleInput i)) s else s) (set_iflag false s) in
  set_iflag saved s.

(** One pass of the handler's loop: [status] and [scancode] as read from the ports. *)
Definition keyboard_byte (status scancode : Z) s : kstate K :=
  if negb (Z.land status 0xE0 =? 0) then s else
  let '(character, d) := keyboard_decode (decoder (keys s)) scancode in
  let s := set_keys (set_decoder d (keys s)) s in
  if character =? 0 then s else
  let '(cancelled, s) := if character =? 3 then task_cancel_foreground s else (false, s) in
  if cancelled then task_event_signal (Some Work) s else
  let '(stored, k) := enqueue character (keys s) in
  let s := set_keys k s in
  if stored then task_event_signal (Some Work) (task_notify_shell_input (task_event_signal (Some Input) s)) else s.
(** At most 32 bytes; the list is what the controller holds. *)
Definition keyboard_interrupt (bytes : list (Z * Z)) s : kstate K :=
  foldl (λ s '(status, scancode), keyboard_byte status scancode s) s (take 32 bytes).

Definition keyboard_input_event : event := Input.

(** *** Device start *)

(** [keyboard_initialize] with the event it resets. *)
Definition keyboard_start {D : Type} (inb : Z → D → Z * D) (outb : Z → Z → D → D) (io_wait : D → D) (d : D) s : (bool * bool) * kstate K * D :=
  let '(r, k, d) := keyboard_initialize inb outb io_wait (keys s) d in (r, set_input_event 0 (set_keys k s), d).
(** The tick count restarts and channel 0 gets the divisor for 100 Hz. *)
Definition timer_initialize {D : Type} (outb : Z → Z → D → D) (d : D) s : kstate K * D :=
  let divisor := wrap16 ((PIT_INPUT_HZ + TIMER_HZ / 2) / TIMER_HZ) in
  (set_ticks 0 s, outb 0x40 (wrap8 (Z.shiftr divisor 8)) (outb 0x40 (wrap8 divisor) (outb 0x43 0x34 d))).

(** The interrupts of the machine's two devices, delivered only with IF set. The gate
    clears IF and the dispatcher marks the handler; the return restores both. *)
Inductive irq := Timer | Keys (bytes : list (Z * Z)).
Definition interrupt (i : irq) s : kstate K :=
  if negb (iflag s) then s else
  let depth := in_irq s in
  let s := set_in_irq true (set_iflag false s) in
  let s := match i with Timer => timer_interrupt s | Keys l => keyboard_interrupt l s end in
  set_iflag true (set_in_irq depth s).
Definition interrupts (w : list irq) s : kstate K := foldl (λ s i, interrupt i s) s w.
End Events.

(** ** The current task *)

Section Current.
Context {K : Type}.
Implicit Types (s : kstate K).

Definition task_current_id s : Z := if ready s then tid (get_task s (cur s)) else 0.
Definition task_current_is_process s : bool := ready s && (if current s then true else false) && is_process s (cur s).
Definition task_current_process_id s : Z := if task_current_is_process s then process_id (proc s (cur s)) else 0.
Definition task_current_process_space s : option Z := if task_current_is_process s then space (proc s (cur s)) else None.
(** The slot whose context is meant. *)
Definition task_current_filesystem s : option Z :=
  if ready s && (if current s then true else false) && negb (directory_ (filesystem (proc s (cur s))) =? 0) && negb (in_irq s)
  then Some (cur s) else None.
Definition task_current_handles s : option Z := if task_current_is_process s && negb (in_irq s) then Some (cur s) else None.
Definition task_current_cancelled s : bool := task_current_is_process s && cancellation_requested (proc s (cur s)).
Definition task_current_is_shell s : bool := task_current_is_process s && console_is_shell (consoles s) (Some (cur s)).
Definition task_current_owns_console s : bool :=
  task_current_is_process s && negb (orphaned (proc s (cur s))) && console_owns_input (consoles s) (Some (cur s)).
Definition parent_console s : option Z := if is_process s (cur s) then Some (cur s) else None.
Definition switch_protected s : bool :=
  negb (switch_holds (get_task s (cur s)) =? 0) || fs_operation_active (files s) || block_active s.

Definition task_switch_hold s : bool * kstate K :=
  if negb (ready s) || in_irq s then (false, s) else
  if negb (cur s =? IDLE) && negb (switch_holds (get_task s (cur s)) =? UINT32_MAX)
  then (true, upd_task (cur s) (λ t, set_switch_holds (switch_holds t + 1) t) s) else (false, s).
Definition task_switch_release s : bool * kstate K :=
  if negb (ready s) || in_irq s then (false, s) else
  if negb (cur s =? IDLE) && negb (switch_holds (get_task s (cur s)) =? 0)
  then (true, upd_task (cur s) (λ t, set_switch_holds (switch_holds t - 1) t) s) else (false, s).
End Current.

(** How an operation ends: it returns, or its context was switched away from. *)
Inductive progress (A : Type) := Returned (a : A) | Switched.
Arguments Returned {A} _.
Arguments Switched {A}.

Record task_process := TaskProcess { tp_space : option Z; tp_frame : exception_user_frame; tp_name : gmap Z Z }.

Section Task.
(** The filesystem backend; [&kernel_space] and the heap's release; the linker's stack
    bounds and the entry points stored in frames and segments; and the stack pointer
    [kernel_context_switch] saves for the context it leaves. *)
Context {K : Type} (ops : fs_operations K) (kernel : Z) (kfree : Z → paging → bool * paging).
Context (boot_stack_bottom boot_stack_top double_fault_entry start_address halt_address idle_address : Z).
Context (switch_esp : kstate K → Z).
Implicit Types (w : nat → list irq).

(** ** Construction *)

Definition paging_active (s : kstate K) : option Z := paging_active_space (memory s).
Definition directory_of_space (p : option Z) (s : kstate K) : Z := match p with Some p => paging_directory_address kernel p (memory s) | None => 0 end.

(** The record's console member is zero as well. *)
Definition publish (i : Z) (t : task) (p : process_state) (s : kstate K) : option (kstate K) :=
  if iflag s then None else
  Some (put_task i (set_process (Some i) t) (set_consoles (put_member i no_member (consoles s)) (put_process i p s))).

Definition new_stack (t : task) (slot : Z) (s : kstate K) : option ((bool * task) * kstate K) :=
  let! (ok, s) := paged (paging_kernel_stack_allocate kernel slot) s in
  Some (if ok then (true, set_stack_of slot (RUM_KERNEL_STACK_SLOT_BASE slot) (RUM_KERNEL_STACK_SLOT_TOP slot) STACK_PAGES t, s)
        else (false, t, s)).

(** A store through the page tables; an unmapped kernel address is a fatal fault. *)
Definition store_virtual (address value : Z) (s : kstate K) : option (kstate K) :=
  match paging_active s with
  | None => None
  | Some a =>
      match paging_translate kernel a address (memory s) with
      | Some physical => Some (set_memory (put_word physical value (memory s)) s)
      | None => None
      end
  end.
Fixpoint store_words (address : Z) (l : list Z) (s : kstate K) : option (kstate K) :=
  match l with [] => Some s | v :: l => let! s := store_virtual address v s in store_words (address + 4) l s end.
(** [struct kernel_context]: edi, esi, ebx, ebp, eip, return_address. *)
Definition SIZEOF_CONTEXT : Z := 24.
Definition prepare_stack (t : task) (s : kstate K) : option (task * kstate K) :=
  let context := wrap32 (stack_top t - SIZEOF_CONTEXT) in
  let! s := store_words context [0; 0; 0; 0; start_address; halt_address] s in
  Some (set_stack context t, s).

Definition release_stack (slot : Z) (s : kstate K) : option (kstate K) :=
  let! (_, s) := paged (paging_kernel_stack_release kernel slot) s in Some s.

Definition boot_task (base top : Z) : task :=
  Task 1 TASK_RUNNING 0 0 base top 0 0 0 false None 0 no_frame None 0 false TASK_WAIT_EVENT (Some BOOT).
Definition idle_task : task :=
  Task 2 TASK_RUNNABLE 0 0 0 0 0 0 0 false (Some idle_address) 0 no_frame None 0 false TASK_WAIT_EVENT None.
Definition kernel_process (sp : option Z) (f : fs_context) : process_state :=
  Process 0 0 TASK_KERNEL sp false TASK_TERMINATION_NONE 0 no_fault no_resources f ∅ false false 0 0 ∅ ∅.

(** From [cpu_interrupt_save] on, with every resource in hand. *)
Definition task_initialize_registry (idle : task) (f : fs_context) (emergency_base : Z) (s : kstate K) : option (bool * kstate K) :=
  let saved := iflag s in
  let s := set_iflag false s in
  let kspace := paging_kernel_space kernel (memory s) in
  let s := put_process BOOT (kernel_process kspace f) (set_consoles (put_member BOOT no_member (consoles s)) s) in
  let s := put_task BOOT (boot_task boot_stack_bottom boot_stack_top) s in
  let! s := publish IDLE idle (kernel_process kspace no_context) s in
  let! (t, s) := prepare_stack (get_task s IDLE) s in
  let s := set_current (Some BOOT) (put_task IDLE t s) in
  let '(ok, g) := gdt_set_kernel_context (stack_top (get_task s BOOT)) (directory_of_space (space (proc s BOOT)) s) (segments s) in
  let s := set_segments g s in
  if negb ok then
    let s := set_consoles (Console ∅ (sessions (consoles s)) (active (consoles s))) (set_processes ∅ (set_tasks ∅ (set_current None s))) in
    let! s := release_stack EMERGENCY_STACK_SLOT (set_iflag saved s) in
    let! s := release_stack 0 s in
    let '(_, s) := on_files (fs_context_destroy ops (Some f)) s in
    Some (false, s)
  else
    let s := set_ready true (set_marks (stack_base idle) emergency_base (stack_top (get_task s BOOT)) s) in
    Some (true, set_iflag saved (upd_task BOOT (set_slice_ticks TASK_TIME_SLICE_TICKS) s)).

Definition task_initialize (s : kstate K) : option (bool * kstate K) :=
  let kspace := paging_kernel_space kernel (memory s) in
  if ready s || in_irq s || (if kspace then false else true) || bool_decide (paging_active s ≠ kspace) then Some (false, s) else
  let! (r, s) := new_stack idle_task 0 s in
  let '(ok, idle) := r in
  if negb ok then Some (false, s) else
  let! (ok, s) := paged (paging_kernel_stack_allocate kernel EMERGENCY_STACK_SLOT) s in
  if negb ok then let! s := release_stack 0 s in Some (false, s) else
  let '(ok, g) := gdt_set_double_fault_stack double_fault_entry (RUM_KERNEL_STACK_SLOT_TOP EMERGENCY_STACK_SLOT)
                    (directory_of_space kspace s) (segments s) in
  let s := set_segments g s in
  if negb ok then let! s := release_stack EMERGENCY_STACK_SLOT s in let! s := release_stack 0 s in Some (false, s) else
  let '(started, s) := on_files fs_initialize s in
  let '((e, f), s) := if (started : bool) then on_files (fs_context_initialize ops (Some no_context)) s else ((FS_UNAVAILABLE, Some no_context), s) in
  if bool_decide (e ≠ FS_OK) && bool_decide (e ≠ FS_UNAVAILABLE) then
    let! s := release_stack EMERGENCY_STACK_SLOT s in let! s := release_stack 0 s in Some (false, s)
  else task_initialize_registry idle (default no_context f) (RUM_KERNEL_STACK_SLOT_BASE EMERGENCY_STACK_SLOT) s.

(** A conflict with a live owner of the space refuses whatever slot is free. *)
Definition owns_the_space (s : kstate K) (sp : option Z) (i : Z) : bool :=
  (if sp then true else false) && used s i && bool_decide (space (proc s i) = sp).
Definition available_slot (sp : option Z) (s : kstate K) : option Z :=
  if existsb (owns_the_space s sp) (slots_from 2) then None else List.find (λ i, negb (used s i)) (slots_from 2).
Definition background_capacity (s : kstate K) : bool :=
  if negb (is_process s (cur s)) then true else count_range 2 TASK_SLOTS (λ i, negb (used s i)) >? 1.

Definition valid_user_frame (sp : option Z) (f : exception_user_frame) (s : kstate K) : bool :=
  match sp with
  | None => false
  | Some p =>
      let bytes := RUM_ABI_STACK_FIXED_WORDS * 4 in
      (gs (core f) =? USER_DATA_SELECTOR) && (fs (core f) =? USER_DATA_SELECTOR) && (es (core f) =? USER_DATA_SELECTOR) &&
      (ds (core f) =? USER_DATA_SELECTOR) && (cs (core f) =? USER_CODE_SELECTOR) && (ss f =? USER_DATA_SELECTOR) &&
      (vector (core f) =? 0) && (error (core f) =? 0) && (frame_eflags (core f) =? IF + 2) && (frame_esp f mod RUM_STACK_ALIGNMENT =? 0) &&
      memory_range_contains RUM_USER_BASE RUM_USER_PROGRAM_END (frame_eip (core f)) 1 &&
      memory_range_contains RUM_USER_STACK_BASE RUM_USER_STACK_TOP (frame_esp f) bytes &&
      paging_user_accessible kernel p (frame_eip (core f)) 1 false (memory s) &&
      paging_user_accessible kernel p (frame_esp f) bytes true (memory s)
  end.

(** [paging_space_stats(space, &space) && !space.kernel && space != paging_active_space()]:
    the private tables and user pages when it holds. *)
Definition inactive_private (p : Z) (s : kstate K) : option (Z * Z) :=
  match paging_space_stats kernel p true (memory s) with
  | (true, Some (_, tables, pages, is_kernel)) =>
      if negb is_kernel && bool_decide (paging_active s ≠ Some p) then Some (tables, pages) else None
  | _ => None
  end.

(** The steps both constructors share once a slot is chosen and switches are held: clone
    the directory, map the stack. [None] inside means refusal, everything released. *)
Definition acquire (p : process_state) (t : task) (slot : Z) w (s : kstate K) : option (option (process_state * task) * kstate K) :=
  let s := interrupts (w 0%nat) s in
  let '((e, f), s) := on_files (fs_context_clone ops (Some (filesystem (proc s (cur s)))) (Some (filesystem p))) s in
  if bool_decide (e ≠ FS_OK) then Some (None, snd (task_switch_release s)) else
  let f := default no_context f in
  let s := interrupts (w 1%nat) s in
  let! (r, s) := new_stack t slot s in
  let '(ok, t) := r in
  let s := interrupts (w 2%nat) s in
  if negb ok then
    let '(_, s) := on_files (fs_context_destroy ops (Some f)) s in Some (None, snd (task_switch_release s))
  else Some (Some (set_filesystem f p, t), s).

Definition task_create (entry : option Z) (argument : Z) (owned_space : option Z) w (s : kstate K) : option (Z * kstate K) :=
  if negb (ready s) || (if entry then false else true) || in_irq s then Some (0, s) else
  let saved := iflag s in
  let stats := match owned_space with Some p => inactive_private p s | None => Some (0, 0) end in
  let valid := saved && negb (next_id s =? 0) && (if stats then true else false) in
  match (if valid then available_slot owned_space s else None) with
  | None => Some (0, s)
  | Some i =>
      let '(held, s) := task_switch_hold s in
      if negb held then Some (0, s) else
      let '(tables, pages) := default (0, 0) stats in
      let p := Process 0 0 TASK_KERNEL (match owned_space with Some p => Some p | None => paging_kernel_space kernel (memory s) end)
                 (if owned_space then true else false) TASK_TERMINATION_NONE 0 no_fault
                 (if owned_space then Resources 0 1 tables pages else no_resources) no_context ∅ false false 0 0 ∅ ∅ in
      let t := Task (next_id s) TASK_RUNNABLE 0 0 0 0 0 0 0 false entry argument no_frame None 0 false TASK_WAIT_EVENT None in
      let! (r, s) := acquire p t (i - 1) w s in
      match r with
      | None => Some (0, s)
      | Some (p, t) =>
          let s := set_iflag false s in
          let s := set_next_id (wrap32 (next_id s + 1)) s in
          let! (t, s) := prepare_stack t s in
          let! s := publish i t p s in
          let id := tid (get_task s i) in
          let s := set_iflag saved (set_created (wrap32 (created s + 1)) s) in
          Some (id, snd (task_switch_release s))
      end
  end.

(** The stored name: at most 63 characters, unprintable ones replaced. *)
Definition program_name : gmap Z Z := list_to_map (zip (seqZ 0 7) [112; 114; 111; 103; 114; 97; 109]).
Definition printable (c : Z) : Z := if (32 <=? c) && (c <=? 126) then c else 63.
Fixpoint copy_name (n : nat) (i : Z) (from : gmap Z Z) (to : gmap Z Z) : gmap Z Z :=
  match n with
  | O => to
  | S n => if aget from i =? 0 then to else copy_name n (i + 1) from (aset to i (printable (aget from i)))
  end.
Definition process_name (given : gmap Z Z) : gmap Z Z :=
  copy_name (Z.to_nat (RUM_PROCESS_NAME_CAPACITY - 1)) 0 (if aget given 0 =? 0 then program_name else given) ∅.

(** Publication under the lock, once every resource is owned. *)
Definition publish_process (i : Z) (t : task) (p : process_state) (make_foreground shell saved : bool) (s : kstate K) : option (Z * kstate K) :=
  let s := set_iflag false s in
  let parent_console := parent_console s in
  if negb (console_can_launch (consoles s) parent_console make_foreground) || task_current_cancelled s then
    let! s := release_stack (i - 1) (set_iflag saved s) in
    let '(_, s) := on_files (fs_context_destroy ops (Some (filesystem p))) s in
    Some (0, snd (task_switch_release s))
  else
    let p := set_handles process_handles_initialize p in
    let s := set_next_process_id (wrap32 (next_process_id s + 1)) (set_next_id (wrap32 (next_id s + 1)) s) in
    let! (t, s) := prepare_stack t s in
    let! s := publish i t p s in
    let id := tid (get_task s i) in
    let '(ok, s) := upd_console (console_attach (Some i) id parent_console make_foreground) s in
    if negb ok then None else
    let '(ok, s) := if shell then upd_console (console_mark_shell (Some i)) s else (true, s) in
    if negb ok then None else
    let s := set_iflag saved (set_created (wrap32 (created s + 1)) s) in
    Some (id, snd (task_switch_release s)).

Definition create_process (given : option task_process) (make_foreground shell : bool) w (s : kstate K) : option (Z * kstate K) :=
  match given with
  | None => Some (0, s)
  | Some q =>
      if negb (ready s) || in_irq s then Some (0, s) else
      let saved := iflag s in
      let admitted := saved && negb (next_id s =? 0) && (next_process_id s <=? RUM_ABI_PID_MAX) &&
        (make_foreground || background_capacity s) && console_can_launch (consoles s) (parent_console s) make_foreground in
      let stats := match tp_space q with Some p => if admitted then inactive_private p s else None | None => None end in
      let valid := (if stats then true else false) && valid_user_frame (tp_space q) (tp_frame q) s in
      let parent := if valid then tid (get_task s (cur s)) else 0 in
      match (if valid then available_slot (tp_space q) s else None) with
      | None => Some (0, s)
      | Some i =>
          let '(held, s) := task_switch_hold s in
          if negb held then Some (0, s) else
          let '(tables, pages) := default (0, 0) stats in
          let p := Process (next_process_id s) parent TASK_PROCESS (tp_space q) true TASK_TERMINATION_NONE 0 no_fault
                     (Resources 0 1 tables pages) no_context ∅ false false 0 0 (process_name (tp_name q)) ∅ in
          let t := Task (next_id s) TASK_RUNNABLE 0 0 0 0 0 0 0 false None 0 (tp_frame q) None 0 false TASK_WAIT_EVENT None in
          let! (r, s) := acquire p t (i - 1) w s in
          match r with
          | None => Some (0, s)
          | Some (p, t) => publish_process i t p make_foreground shell saved s
          end
      end
  end.
Definition task_create_process q w (s : kstate K) := create_process q false false w s.
Definition task_create_foreground_process q w (s : kstate K) := create_process q true false w s.
Definition task_create_shell_process q w (s : kstate K) : option (Z * kstate K) :=
  if negb (ready s) || in_irq s || is_process s (cur s) then Some (0, s) else create_process q true true w s.

Definition task_process_creation_status (make_foreground : bool) (s : kstate K) : Z :=
  if negb (ready s) || in_irq s then - RUM_EBUSY else
  if negb (iflag s) || (cur s =? IDLE) then - RUM_EBUSY else
  if (next_id s =? 0) || (next_process_id s >? RUM_ABI_PID_MAX) then - RUM_EOVERFLOW else
  if negb (console_can_launch (consoles s) (parent_console s) make_foreground) then - RUM_EBUSY else
  if (if available_slot None s then false else true) || (negb make_foreground && negb (background_capacity s)) then - RUM_ENOMEM else 0.

(** ** Shell commands *)

(** A runnable child process of the current task. *)
Definition runnable_child (id : Z) (s : kstate K) (i : Z) : bool :=
  (tid (get_task s i) =? id) && (parent (proc s i) =? tid (get_task s (cur s))) && is_process s i && in_state s i TASK_RUNNABLE.
Definition task_mark_foreground_shell (id : Z) (s : kstate K) : bool * kstate K :=
  if negb (ready s) || (id =? 0) || in_irq s || is_process s (cur s) then (false, s) else
  match List.find (runnable_child id s) (slots_from 2) with
  | Some i => upd_console (console_mark_shell (Some i)) s
  | None => (false, s)
  end.

(** [while (bytes < CAPACITY && text[bytes]) ++bytes] over a string [text]. *)
Definition store_text (text : list Z) (to : gmap Z Z) : gmap Z Z :=
  aset (foldl (λ m '(i, c), aset m i c) to (zip (seqZ 0 (Z.of_nat (length text))) text)) (Z.of_nat (length text)) 0.
Definition task_mark_shell_command (id : Z) (text : option (list Z)) (s : kstate K) : bool * kstate K :=
  match text with
  | None => (false, s)
  | Some text =>
      if negb (task_current_is_shell s) || (id =? 0) || in_irq s || (RUM_COMMAND_TEXT_CAPACITY <=? Z.of_nat (length text)) then (false, s) else
      match List.find (runnable_child id s) (slots_from 2) with
      | None => (false, s)
      | Some i =>
          let '(ok, s) := upd_console (console_grant_command (Some (cur s)) (Some i)) s in
          if negb ok then (false, s) else (true, upd_proc i (λ p, set_command_text (store_text text (command_text p)) p) s)
      end
  end.
Definition task_current_command_text (s : kstate K) : option (gmap Z Z) :=
  if task_current_is_process s && (if console_command_shell (consoles s) (Some (cur s)) then true else false)
  then Some (command_text (proc s (cur s))) else None.

(** The last slot the loop accepts. *)
Definition last_slot (f : Z → bool) : option Z := List.find f (rev (slots_from 2)).
Definition task_session_control (action : Z) (path : option (list Z)) (s : kstate K) : Z * kstate K :=
  if (action <? RUM_SESSION_CHDIR) || (action >? RUM_SESSION_RECOVERY) then (- RUM_EINVAL, s) else
  if negb (process_filesystem_context (in_irq s) (iflag s)) then (- RUM_EBUSY, s) else
  match console_command_shell (consoles s) (Some (cur s)) with
  | None => (- RUM_EACCES, s)
  | Some sh =>
      match last_slot (λ i, used s i && (i =? sh) && (tid (get_task s i) =? parent (proc s (cur s)))) with
      | None => (- RUM_EACCES, s)
      | Some i =>
          if negb (console_is_shell (consoles s) (Some i)) || negb (in_state s i TASK_BLOCKED) ||
             negb (bool_decide (waiting (get_task s i) = Some (Children i))) then (- RUM_EACCES, s) else
          if action =? RUM_SESSION_CHDIR then
            let '((e, f), s) := on_files (fs_context_chdir ops (Some (filesystem (proc s i))) path) s in
            (process_fs_error e, upd_proc i (set_filesystem (default no_context f)) s)
          else
            let '(ok, s) := upd_console (console_request_exit (Some (cur s)) (if action =? RUM_SESSION_RECOVERY then RUM_SHELL_RECOVERY_STATUS else 0)) s in
            (if ok then 0 else - RUM_EACCES, s)
      end
  end.

(** ** Queries *)

Definition slot_of_id (id : Z) (s : kstate K) : option Z := List.find (λ i, used s i && (tid (get_task s i) =? id)) (slots_from 0).
Definition task_handle_count (id : Z) (s : kstate K) : Z :=
  if ready s && negb (id =? 0) then
    match slot_of_id id s with Some i => process_handles_count (Some (handles (proc s i))) | None => 0 end
  else 0.
(** The string stored through [buffer] of [capacity] bytes. *)
Definition task_working_directory (id capacity : Z) (s : kstate K) : option (list Z) :=
  if negb (ready s) || (id =? 0) || (capacity =? 0) then None else
  match List.find (λ i, used s i && (tid (get_task s i) =? id) && negb (directory_ (filesystem (proc s i)) =? 0)) (slots_from 0) with
  | None => None
  | Some i =>
      let text := string_of (path_ (filesystem (proc s i))) in
      let length := Z.of_nat (length text) in
      if (length <? capacity) && (length <? FS_PATH_CAPACITY) then Some text else None
  end.

Record task_information := TaskInformation {
  info_slot : Z; info_task : task; info_process_id : Z; info_parent : Z; info_kind : task_kind; info_termination : task_termination;
  info_status : Z; info_fault : task_fault; info_resources : task_resources; info_cancelled : bool; info_directory : Z;
  info_owns_space : bool; info_owns_stack : bool
}.
(** The fields copied from the task record itself are its record. *)
Definition information (i : Z) (s : kstate K) : task_information :=
  let t := get_task s i in let p := proc s i in
  TaskInformation i t (process_id p) (parent p) (kind p) (termination p) (status p) (fault p)
    (Resources (stack_pages t) (directory_pages (resources p)) (user_table_pages (resources p)) (resource_user_pages (resources p)))
    (cancellation_requested p) (directory_of_space (space p) s) (owns_space p) (negb (i =? BOOT)).
Definition task_query (id : Z) (s : kstate K) : option task_information :=
  if negb (ready s) || (id =? 0) then None else (λ i, information i s) <$> slot_of_id id s.

Record rum_process_entry := ProcessEntry { entry_id : Z; entry_parent : Z; entry_state : Z; entry_flags : Z; entry_name_ : gmap Z Z }.
Definition public_state (st : task_state) : Z := match st with TASK_RUNNABLE => 1 | TASK_RUNNING => 2 | TASK_BLOCKED => 3 | _ => 4 end.
Definition public_entry (s : kstate K) (i : Z) : rum_process_entry :=
  ProcessEntry (process_id (proc s i))
    (match List.find (λ j, used s j && (tid (get_task s j) =? parent (proc s i))) (rev (slots_from 0)) with
     | Some j => process_id (proc s j) | None => 0 end)
    (public_state (state (get_task s i))) (if cancellation_requested (proc s i) then 1 else 0) (name (proc s i)).
(** The count, the entries written and [*total]; [given] is whether the
    pointers are, [entries] only for a positive capacity. *)
Definition task_process_list (capacity : Z) (given : bool) (s : kstate K) : Z * list rum_process_entry * option Z :=
  if negb given || (capacity >? RUM_PROCESS_LIST_LIMIT) then (0, [], None) else
  if negb (ready s) then (0, [], Some 0) else
  let l := List.filter (λ i, used s i && is_process s i) (slots_from 2) in
  let shown := take (Z.to_nat capacity) l in
  (Z.of_nat (length shown), public_entry s <$> shown, Some (Z.of_nat (length l))).

Definition task_shell_input_event (s : kstate K) : option event := if task_current_is_shell s then Some (ConsoleInput (cur s)) else None.
Definition task_shell_has_completion (s : kstate K) : bool :=
  task_current_is_shell s &&
  existsb (λ i, in_state s i TASK_EXITED && is_process s i && (parent (proc s i) =? tid (get_task s (cur s))) && negb (orphaned (proc s i))) (slots_from 2).

Record task_snapshot := Snapshot {
  snap_current : Z; snap_console : console_statistics; snap_emergency : Z; snap_counts : Z * Z * Z * Z; snap_tasks : list task_information;
  snap_states : task_state → Z; snap_event_waiters : Z; snap_deadline_waiters : Z; snap_processes : Z; snap_pages : task_resources
}.
Definition tally (s : kstate K) (f : Z → bool) : Z := Z.of_nat (length (List.filter (λ i, used s i && f i) (slots_from 0))).
Definition total_pages (s : kstate K) (f : task_resources → Z) : Z :=
  foldl (λ n i, wrap32 (n + f (info_resources (information i s)))) 0 (List.filter (used s) (slots_from 0)).
(** [None] is the zeroed snapshot of a registry that is not ready. *)
Definition task_snapshot_read (s : kstate K) : option task_snapshot :=
  if negb (ready s) then None else
  Some (Snapshot (tid (get_task s (cur s))) (console_stats (consoles s)) STACK_PAGES (created s, exited s, reaped s, switches s)
    ((λ i, information i s) <$> List.filter (used s) (slots_from 0)) (λ st, tally s (λ i, in_state s i st))
    (tally s (λ i, if waiting (get_task s i) then true else false)) (tally s (λ i, deadline_active (get_task s i)))
    (tally s (is_process s))
    (Resources (total_pages s kernel_stack_pages) (total_pages s directory_pages) (total_pages s user_table_pages) (total_pages s resource_user_pages))).

(** ** Reaping *)

Definition reapable (i : Z) (s : kstate K) : bool :=
  let t := get_task s i in let p := proc s i in
  in_state s i TASK_EXITED && negb (bool_decide (current s = Some i)) && (if waiting t then false else true) &&
  negb (deadline_active t) && (deadline t =? 0) &&
  (Session.references (get_member (consoles s) i) =? 0) && negb (live (get_member (consoles s) i)) &&
  negb (owns_space p && bool_decide (space p = paging_active s)) && (process_handles_count (Some (handles p)) =? 0).
Definition reap_slot (i : Z) (s : kstate K) : option (bool * kstate K) :=
  if negb (reapable i s) then Some (false, s) else
  let p := proc s i in
  let '((e, f), s) := on_files (fs_context_destroy ops (Some (filesystem p))) s in
  let s := upd_proc i (set_filesystem (default no_context f)) s in
  if bool_decide (e ≠ FS_OK) then Some (false, s) else
  let! (ok, s) := (match space p with
    | Some a => if owns_space p then paged (paging_space_destroy kernel kfree a) s else Some (true, s)
    | None => Some (negb (owns_space p), s) end) in
  if negb ok then Some (false, s) else
  let! (ok, s) := paged (paging_kernel_stack_release kernel (stack_slot (get_task s i))) s in
  if negb ok then None else
  let '(ok, s) := upd_console (console_detach (Some i)) s in
  if negb ok then None else
  let s := set_consoles (put_member i no_member (consoles s)) (put_process i no_process s) in
  Some (true, set_reaped (wrap32 (reaped s + 1)) (put_task i no_task s)).

Definition reap_candidate (include_processes : bool) (s : kstate K) (i : Z) : bool :=
  used s i && negb (is_process s i && negb (orphaned (proc s i)) && (negb include_processes || negb (parent (proc s i) =? tid (get_task s (cur s))))).
(** [reap_slot] between [cpu_interrupt_save] and [cpu_interrupt_restore]. *)
Definition reap_locked (i : Z) (s : kstate K) : option (bool * kstate K) :=
  let! (released, s') := reap_slot i (set_iflag false s) in Some (released, set_iflag (iflag s) s').
Definition reap_exited (include_processes : bool) (s : kstate K) : option (Z * kstate K) :=
  if negb (ready s) || in_irq s then Some (0, s) else
  for_slots (slots_from 2) (λ i count s,
    if negb (reap_candidate include_processes s i) then Some (count, s) else
    let! (released, s) := reap_locked i s in Some (if (released : bool) then count + 1 else count, s)) 0 s.
Definition task_reap (s : kstate K) : option (Z * kstate K) := reap_exited true s.
Definition child_of_current (id : Z) (s : kstate K) (i : Z) : bool :=
  (tid (get_task s i) =? id) && is_process s i && (parent (proc s i) =? tid (get_task s (cur s))).
Definition task_reap_process (id : Z) (s : kstate K) : option (bool * kstate K) :=
  if negb (ready s) || (id =? 0) || in_irq s then Some (false, s) else
  match List.find (child_of_current id s) (slots_from 2) with Some i => reap_locked i s | None => Some (false, s) end.

(** ** Scheduling *)

(** The circular search from the slot after [i], [i] last, the idle slot never. *)
Definition candidates (i : Z) : list Z := (λ offset, (i + offset) mod TASK_SLOTS) <$> seqZ 1 TASK_SLOTS.
Definition choose (i : Z) (s : kstate K) : Z :=
  default IDLE (List.find (λ c, negb (c =? IDLE) && in_state s c TASK_RUNNABLE) (candidates i)).
Definition may_schedule (s : kstate K) : bool :=
  negb (iflag s) && ready s && negb (in_irq s) && (if current s then true else false) &&
  (if process (get_task s (cur s)) then true else false) && negb (switch_protected s) &&
  bool_decide (space (proc s (cur s)) = paging_active s) && (esp0 (rum_tss (segments s)) =? stack_top (get_task s (cur s))).
(** Until the contexts switch: whether they did. *)
Definition schedule (s : kstate K) : option (bool * kstate K) :=
  if negb (may_schedule s) then None else
  let previous := cur s in
  let s := if in_state s previous TASK_RUNNING then upd_task previous (set_state TASK_RUNNABLE) s else s in
  let next := choose previous s in
  let s := upd_task next (set_state TASK_RUNNING) s in
  let s := upd_task previous (set_reschedule false) s in
  let s := upd_task next (λ t, set_slice_ticks TASK_TIME_SLICE_TICKS (set_reschedule false t)) s in
  if next =? previous then Some (false, s) else
  match space (proc s next) with
  | None => None
  | Some a =>
      let! (ok, s) := paged (paging_switch_space kernel a) s in
      if negb ok then None else
      let '(ok, g) := gdt_set_kernel_context (stack_top (get_task s next)) (directory_of_space (Some a) s) (segments s) in
      if negb ok then None else
      let s := set_current (Some next) (set_segments g s) in
      let s := set_marks (task_idle_stack_base s) (task_emergency_stack_base s) (stack_top (get_task s next)) s in
      let s := set_switches (wrap32 (switches s + 1)) s in
      Some (true, upd_task previous (set_stack (switch_esp s)) s)
  end.
(** The rest of [schedule] in the context that was chosen, on its own stack. *)
Definition schedule_resume (s : kstate K) : option (kstate K) := let! (_, s) := reap_exited false s in Some s.
(** A call of [schedule] by an operation whose tail after it is [k]. *)
Definition scheduled {A : Type} (k : kstate K → option (A * kstate K)) (s : kstate K) : option (progress A * kstate K) :=
  let! (switched, s) := schedule s in
  if (switched : bool) then Some (Switched, s) else let! (a, s) := k s in Some (Returned a, s).

Definition task_yield_tail (s : kstate K) : option (bool * kstate K) := Some (true, set_iflag true s).
Definition task_yield (s : kstate K) : option (progress bool * kstate K) :=
  if negb (ready s) || in_irq s then Some (Returned false, s) else
  if negb (iflag s) || (cur s =? IDLE) || switch_protected s then Some (Returned false, s) else
  scheduled task_yield_tail (upd_task (cur s) (set_state TASK_RUNNABLE) (set_iflag false s)).
Definition task_yield_resume (s : kstate K) : option (bool * kstate K) := let! s := schedule_resume s in task_yield_tail s.

(** ** Exit *)

(** The queue of ids whose children are sought, the slots marked, and one id's scan. *)
Definition scan_children (id : Z) (s : kstate K) (i : Z) (a : list Z * gset Z) : list Z * gset Z :=
  let '(queue, marked) := a in
  if negb (used s i) || (i =? cur s) || bool_decide (i ∈ marked) || negb (parent (proc s i) =? id) then a
  else (queue ++ [tid (get_task s i)], marked ∪ {[ i ]}).
Fixpoint descend (fuel : nat) (queue : list Z) (marked : gset Z) (s : kstate K) : gset Z :=
  match fuel, queue with
  | S fuel, id :: queue =>
      let '(queue, marked) := for_range 2 TASK_SLOTS (scan_children id s) (queue, marked) in descend fuel queue marked s
  | _, _ => marked
  end.
Definition descendants (s : kstate K) : gset Z := descend (Z.to_nat TASK_SLOTS) [tid (get_task s (cur s))] ∅ s.
(** With the whole session when its root exits. *)
Definition abandoned (s : kstate K) : gset Z :=
  let tree := descendants s in
  if console_is_root (consoles s) (Some (cur s)) then
    for_range 2 TASK_SLOTS (λ i m, if used s i && negb (i =? cur s) && console_same_session (consoles s) (Some i) (Some (cur s))
                                   then m ∪ {[ i ]} else m) tree
  else tree.
Definition orphan (i : Z) (s : kstate K) : kstate K :=
  cancel_slot i (upd_proc i (λ p, set_orphaned true (set_parent (tid (get_task s BOOT)) p)) s).
Definition orphan_all (marked : gset Z) (s : kstate K) : kstate K :=
  for_range 2 TASK_SLOTS (λ i s, if bool_decide (i ∈ marked) then orphan i s else s) s.
(** The parent's completion event, and a shell parent's input event. *)
Definition notify_parent (s : kstate K) : kstate K :=
  if negb (is_process s (cur s)) then s else
  match slot_of_id (parent (proc s (cur s))) s with
  | None => s
  | Some i =>
      let s := task_event_signal (Some (Children i)) s in
      if console_is_shell (consoles s) (Some i) then task_event_signal (Some (ConsoleInput i)) s else s
  end.

Definition record_fault (frame : option exception_user_frame) (fault_address : Z) (s : kstate K) : kstate K :=
  match frame with
  | None => s
  | Some f =>
      upd_proc (cur s) (set_fault (Fault (vector (core f)) (error (core f)) (if vector (core f) =? 14 then fault_address else 0)
                                     (frame_eip (core f)) (exception_frame_esp f)))
        (upd_task (cur s) (set_user_frame f) s)
  end.
(** From the second [cpu_interrupt_save] to [schedule]. *)
Definition leave_registry (s : kstate K) : kstate K :=
  let s := orphan_all (abandoned s) s in
  let '(discard, s) := upd_console (console_member_exit (Some (cur s))) s in
  let s := if (discard : bool) then set_keys (keyboard_discard_input (keys s)) s else s in
  let s := upd_task (cur s) (set_state TASK_EXITED) s in
  notify_parent (set_exited (wrap32 (exited s + 1)) s).
(** It never returns: the state in which another context runs. [w] arrives while the
    handles are closed with IF set. *)
Definition terminate_current (why : task_termination) (code : Z) (frame : option exception_user_frame) (fault_address : Z) w (s : kstate K) : option (kstate K) :=
  if negb (ready s) || in_irq s || (cur s =? BOOT) || (cur s =? IDLE) || switch_protected s then None else
  let s := upd_task (cur s) clear_wait (set_iflag false s) in
  let s := upd_proc (cur s) (λ p, set_status code (set_termination why p)) s in
  let s := record_fault frame fault_address s in
  let s := interrupts (w 0%nat) (set_iflag true s) in
  let '((r, t), s) := on_files (process_handles_destroy ops (in_irq s) (iflag s) (Some (handles (proc s (cur s))))) s in
  let s := upd_proc (cur s) (set_handles (default ∅ t)) s in
  if negb (r =? 0) then None else
  let s := interrupts (w 1%nat) s in
  let! (switched, s) := schedule (leave_registry (set_iflag false s)) in
  if (switched : bool) then Some s else None.

Definition task_exit_with_status (code : Z) w (s : kstate K) := terminate_current TASK_TERMINATION_EXIT code None 0 w s.
Definition task_exit w (s : kstate K) := task_exit_with_status 0 w s.
Definition task_exit_from_user_fault (frame : option exception_user_frame) (fault_address : Z) w (s : kstate K) : option (kstate K) :=
  match frame with
  | None => None
  | Some f =>
      if negb (ready s) || (if current s then false else true) || negb (is_process s (cur s)) ||
         negb (exception_frame_from_user (core f)) || in_irq s then None
      else terminate_current TASK_TERMINATION_FAULT 0 frame fault_address w s
  end.
(** Operations that exit or return: [Switched] is the exit. *)
Definition task_exit_shell_if_requested w (s : kstate K) : option (progress unit * kstate K) :=
  if task_current_is_shell s then
    match console_exit_requested (consoles s) (Some (cur s)) true with
    | Some code => let! s := task_exit_with_status code w s in Some (Switched, s)
    | None => Some (Returned (), s)
    end
  else Some (Returned (), s).
Definition task_cancel_current_if_requested w (s : kstate K) : option (progress unit * kstate K) :=
  if task_current_cancelled s then let! s := terminate_current TASK_TERMINATION_CANCELLED 0 None 0 w s in Some (Switched, s)
  else Some (Returned (), s).

(** ** Cancellation *)

Definition task_foreground_end (id : Z) (s : kstate K) : bool * kstate K :=
  if negb (ready s) || (id =? 0) || in_irq s then (false, s) else
  match List.find (λ i, child_of_current id s i && in_state s i TASK_EXITED && foreground_launch (get_member (consoles s) i)) (slots_from 2) with
  | Some i => (true, set_consoles (upd_member i (set_foreground_launch false) (consoles s)) s)
  | None => (false, s)
  end.

Definition task_request_termination (id : Z) (session : bool) (s : kstate K) : Z * kstate K :=
  if (id =? 0) || (id >? RUM_ABI_PID_MAX) then (- RUM_EINVAL, s) else
  if negb (task_current_is_process s) || in_irq s then (- RUM_EACCES, s) else
  let target := last_slot (λ i, used s i && is_process s i && (process_id (proc s i) =? id)) in
  let sh := last_slot (λ i, used s i && (tid (get_task s i) =? parent (proc s (cur s))) && console_is_shell (consoles s) (Some i)) in
  match target with
  | None => (- RUM_ESRCH, s)
  | Some i =>
      let authorized :=
        if session then
          match sh with
          | Some j => bool_decide (console_command_shell (consoles s) (Some (cur s)) = Some j) &&
                      console_same_session (consoles s) (Some i) (Some j) && (parent (proc s i) =? tid (get_task s j))
          | None => false
          end
        else parent (proc s i) =? tid (get_task s (cur s)) in
      if negb authorized || (i =? cur s) || shell (get_member (consoles s) i) || orphaned (proc s i) then (- RUM_EACCES, s) else
      if in_state s i TASK_EXITED then (0, s) else (0, cancel_slot i s)
  end.

(** ** The return to user mode *)

(** [frame] at [address], entered with IF clear. *)
Definition SIZEOF_USER_FRAME : Z := 76.
Definition task_on_user_return (frame : option exception_user_frame) (address : Z) w (s : kstate K) : option (progress unit * kstate K) :=
  match frame with
  | None => Some (Returned (), s)
  | Some f =>
      if negb (ready s) || negb (exception_frame_from_user (core f)) then Some (Returned (), s) else
      if iflag s || in_irq s || negb (is_process s (cur s)) || switch_protected s ||
         negb (address =? wrap32 (stack_top (get_task s (cur s)) - SIZEOF_USER_FRAME)) then None else
      let s := upd_task (cur s) (set_user_frame f) s in
      let! (r, s) := task_cancel_current_if_requested w s in
      match r with
      | Switched => Some (Switched, s)
      | Returned _ =>
          if reschedule (get_task s (cur s)) then
            let! (switched, s) := schedule s in
            if (switched : bool) then Some (Switched, s) else task_cancel_current_if_requested w s
          else task_cancel_current_if_requested w s
      end
  end.
Definition task_on_user_return_resume w (s : kstate K) : option (progress unit * kstate K) :=
  let! s := schedule_resume s in task_cancel_current_if_requested w s.

(** ** Waiting *)

Definition wait_tail (s : kstate K) : option (task_wait_result * kstate K) :=
  let t := get_task s (cur s) in
  if (if waiting t then true else false) || deadline_active t || negb (deadline t =? 0) then None else
  Some (if task_current_cancelled s then TASK_WAIT_CANCELLED else wake_reason t, set_iflag true s).
Definition wait_common (event : option event) (observed : Z) (timed : bool) (duration : Z) (s : kstate K) : option (progress task_wait_result * kstate K) :=
  if negb (ready s) || ((if event then false else true) && negb timed) || in_irq s then Some (Returned TASK_WAIT_INVALID, s) else
  if negb (iflag s) || (cur s =? IDLE) || switch_protected s || (timed && (duration >=? TIMER_HALF_RANGE))
  then Some (Returned TASK_WAIT_INVALID, s) else
  if task_current_cancelled s then Some (Returned TASK_WAIT_CANCELLED, s) else
  if (match event with Some e => negb (sequence s e =? observed) | None => false end) then Some (Returned TASK_WAIT_EVENT, s) else
  if timed && (duration =? 0) then Some (Returned TASK_WAIT_TIMEOUT, s) else
  scheduled wait_tail (upd_task (cur s) (λ t, set_state TASK_BLOCKED
    (set_deadline (if timed then wrap32 (timer_ticks s + duration) else 0) (set_deadline_active timed (set_waiting event t)))) (set_iflag false s)).
Definition wait_resume (s : kstate K) : option (task_wait_result * kstate K) := let! s := schedule_resume s in wait_tail s.

Definition valid_wait (r : task_wait_result) : bool := bool_decide (r ≠ TASK_WAIT_INVALID).
Definition map_progress {A B : Type} (f : A → B) (p : progress A) : progress B := match p with Returned a => Returned (f a) | Switched => Switched end.
Definition task_wait (event : option event) (observed : Z) (s : kstate K) : option (progress bool * kstate K) :=
  let! (r, s) := wait_common event observed false 0 s in Some (map_progress valid_wait r, s).
Definition task_wait_for (event : option event) (observed duration : Z) (s : kstate K) := wait_common event observed true duration s.
Definition sleep_result (r : task_wait_result) : Z :=
  match r with TASK_WAIT_TIMEOUT => 0 | TASK_WAIT_CANCELLED => - RUM_EINTR | _ => - RUM_EBUSY end.
Definition yield_result (yielded : bool) (s : kstate K) : Z :=
  if yielded then (if task_current_cancelled s then - RUM_EINTR else 0) else - RUM_EBUSY.
Definition task_sleep (milliseconds : Z) (s : kstate K) : option (progress Z * kstate K) :=
  match timer_duration_ticks milliseconds with
  | None => Some (Returned (- RUM_ERANGE), s)
  | Some duration =>
      if duration =? 0 then let! (r, s) := task_yield s in Some (map_progress (λ b, yield_result b s) r, s)
      else let! (r, s) := task_wait_for None 0 duration s in Some (map_progress sleep_result r, s)
  end.
Definition task_sleep_resume (timed : bool) (s : kstate K) : option (Z * kstate K) :=
  if timed then let! (r, s) := wait_resume s in Some (sleep_result r, s)
  else let! (r, s) := task_yield_resume s in Some (yield_result r s, s).

(** One pass of the loop of [task_wait_child]: it ends the call, blocks, or goes round
    again after a wait that returned at once. [w] arrives before the wait. *)
Definition waited_child (id : Z) (s : kstate K) (i : Z) : bool :=
  used s i && is_process s i && negb (orphaned (proc s i)) && (parent (proc s i) =? tid (get_task s (cur s))) &&
  ((id =? 0) || (process_id (proc s i) =? id)).
Inductive child_progress := ChildResult (code : Z) (result : option task_information) | ChildBlocked | ChildAgain.
Definition wait_child_pass (id : Z) (nohang : bool) (w : list irq) (s : kstate K) : option (child_progress * kstate K) :=
  if task_current_cancelled s then Some (ChildResult (- RUM_EINTR) None, s) else
  let event := Some (Children (cur s)) in
  let observed := task_event_sequence event s in
  match List.find (λ i, waited_child id s i && in_state s i TASK_EXITED) (slots_from 2) with
  | Some i => Some (ChildResult 1 (Some (information i s)), s)
  | None =>
      if negb (existsb (waited_child id s) (slots_from 2)) then Some (ChildResult (- RUM_ECHILD) None, s) else
      if nohang then Some (ChildResult 0 None, s) else
      let! (r, s) := task_wait event observed (interrupts w s) in
      Some (match r with Switched => ChildBlocked | Returned true => ChildAgain | Returned false => ChildResult (- RUM_EBUSY) None end, s)
  end.
(** [ChildAgain] only if [fuel] passes were not enough. *)
Fixpoint wait_child_loop (fuel : nat) (id : Z) (nohang : bool) w (s : kstate K) : option (child_progress * kstate K) :=
  match fuel with
  | O => Some (ChildAgain, s)
  | S fuel =>
      let! (r, s) := wait_child_pass id nohang (w fuel) s in
      match r with ChildAgain => wait_child_loop fuel id nohang w s | _ => Some (r, s) end
  end.
Definition WAIT_CHILD_PASSES : nat := 2.
Definition task_wait_child (id : Z) (nohang given : bool) w (s : kstate K) : option (child_progress * kstate K) :=
  if (id >? RUM_ABI_PID_MAX) || negb given then Some (ChildResult (- RUM_EINVAL) None, s) else
  if negb (ready s) || in_irq s then Some (ChildResult (- RUM_EBUSY) None, s) else
  if negb (iflag s) || (cur s =? IDLE) || switch_protected s then Some (ChildResult (- RUM_EBUSY) None, s) else
  wait_child_loop WAIT_CHILD_PASSES id nohang w s.
(** The wait ended; an invalid one ends the call. *)
Definition task_wait_child_resume (id : Z) (nohang : bool) w (s : kstate K) : option (child_progress * kstate K) :=
  let! (r, s) := wait_resume s in
  if valid_wait r then wait_child_loop WAIT_CHILD_PASSES id nohang w s else Some (ChildResult (- RUM_EBUSY) None, s).

(** [None] is [false] at once; the call is true when the wait's result is 1. *)
Definition task_wait_process (id : Z) (given : bool) w (s : kstate K) : option (option child_progress * kstate K) :=
  if negb (ready s) || (id =? 0) || negb given || in_irq s then Some (None, s) else
  match task_query id s with
  | None => Some (None, s)
  | Some child =>
      if bool_decide (info_kind child = TASK_PROCESS) && (info_parent child =? tid (get_task s (cur s))) then
        let! (r, s) := task_wait_child (info_process_id child) false true w s in Some (Some r, s)
      else Some (None, s)
  end.

Definition collect_body (id i : Z) (ok : bool) (s : kstate K) : bool * kstate K :=
  if ok && (tid (get_task s i) =? id) && foreground_launch (get_member (consoles s) i) then task_foreground_end id s else (ok, s).
Definition task_collect_child (id : Z) (s : kstate K) : option (bool * kstate K) :=
  if negb (ready s) || in_irq s then Some (false, s) else
  match task_query id s with
  | None => Some (false, s)
  | Some info =>
      if negb (info_parent info =? tid (get_task s (cur s))) || negb (bool_decide (state (info_task info) = TASK_EXITED)) then Some (false, s) else
      let '(ok, s) := foldl (λ '(ok, s) i, collect_body id i ok s) (true, s) (slots_from 2) in
      if ok then task_reap_process id s else Some (false, s)
  end.

(** ** Contexts *)

Inductive start := EnterUser (frame : exception_user_frame) | RunEntry (entry : option Z) (argument : Z) | Gone.
Definition start_task w (s : kstate K) : option (start * kstate K) :=
  let! s := schedule_resume s in
  if is_process s (cur s) then
    let! (r, s) := task_cancel_current_if_requested w s in
    match r with
    | Switched => Some (Gone, s)
    | Returned _ =>
        let f := user_frame (get_task s (cur s)) in
        Some (EnterUser f, set_iflag (negb (Z.land (frame_eflags (core f)) IF =? 0)) s)
    end
  else Some (RunEntry (entry (get_task s (cur s))) (argument (get_task s (cur s))), set_iflag true s).

(** One turn of [idle_loop]; [w] ends the [HLT]. *)
Definition pending (s : kstate K) : bool := existsb (λ i, negb (i =? IDLE) && in_state s i TASK_RUNNABLE) (slots_from 0).
Definition idle_turn (w : list irq) (s : kstate K) : option (progress unit * kstate K) :=
  let! s := schedule_resume s in
  let saved := iflag s in
  let s := set_iflag false s in
  if pending s then scheduled (λ s, Some ((), set_iflag saved s)) s
  else Some (Returned (), set_iflag saved (interrupts w (set_iflag true s))).
End Task.
