(* ===== verification/Registry.v ===== *)
(** * The task registry's invariant (kernel/process/task.c)

    What holds between any two operations of the task registry: one running task, the
    current one; unique ids; waits registered exactly for blocked tasks; free slots
    zeroed; stacks, segments and address spaces that agree with the slot. The first part
    is the vocabulary of changes the operations are made of, the rest shows that each
    operation of Task.v is made of them. *)

From S2P Require Import Prelude Block Path Fs Paging Spaces Session Handles Gdt Keyboard Task.

(** What the scheduler reads of a task. *)
Definition core_of (t : task) : Z * task_state * (option event * bool * Z) * option Z * (Z * Z) :=
  (tid t, state t, (waiting t, deadline_active t, deadline t), process t, (stack_slot t, stack_top t)).
Definition waits (t : task) : Prop := waiting t ≠ None ∨ deadline_active t = true.
Definition stack_ok (top : Z) : Prop := top ≠ 0 ∧ top mod RUM_STACK_ALIGNMENT = 0.

Lemma core_of_used (t t' : task) : core_of t' = core_of t → state t' = state t ∧ tid t' = tid t ∧ process t' = process t ∧
  stack_slot t' = stack_slot t ∧ stack_top t' = stack_top t ∧ waiting t' = waiting t ∧ deadline_active t' = deadline_active t ∧ deadline t' = deadline t.
Proof. unfold core_of. by intros [= -> -> -> -> -> -> -> ->]. Qed.

Section Registry.
Context {K : Type} (kernel : Z).
Implicit Types (s t : kstate K).

(** Every registered space has a page directory in a frame. *)
Definition directories_ok (m : paging) : Prop :=
  ∀ a, known_space kernel a m = true → directory_acceptable (paging_directory_address kernel a m) = true.

(** [rest]: the current task runs; otherwise it is about to leave the processor. *)
Record registry (rest : bool) s : Prop := {
  reg_ready : ready s = true;
  reg_current : current s = Some (cur s);
  reg_running : ∀ i, state (get_task s i) = TASK_RUNNING → i = cur s;
  reg_rest : if rest then state (get_task s (cur s)) = TASK_RUNNING else used s (cur s) = true;
  reg_range : ∀ i, used s i = true → 0 ≤ i < TASK_SLOTS;
  reg_free : ∀ i, used s i = false → get_task s i = no_task;
  reg_process : ∀ i, used s i = true → process (get_task s i) = Some i;
  reg_next : 0 ≤ next_id s ≤ UINT32_MAX;
  reg_ids : ∀ i, used s i = true → 0 < tid (get_task s i) ≤ UINT32_MAX ∧ (next_id s ≠ 0 → tid (get_task s i) < next_id s);
  reg_unique : ∀ i j, used s i = true → used s j = true → tid (get_task s i) = tid (get_task s j) → i = j;
  reg_wait : ∀ i, state (get_task s i) = TASK_BLOCKED ↔ waits (get_task s i);
  reg_deadline : ∀ i, deadline_active (get_task s i) = false → deadline (get_task s i) = 0;
  reg_boot : tid (get_task s BOOT) = 1 ∧ used s BOOT = true ∧ state (get_task s BOOT) ≠ TASK_EXITED;
  reg_idle : tid (get_task s IDLE) = 2 ∧ (state (get_task s IDLE) = TASK_RUNNABLE ∨ state (get_task s IDLE) = TASK_RUNNING);
  reg_stack : ∀ i, used s i = true → i ≠ BOOT → stack_slot (get_task s i) = i - 1;
  reg_top : ∀ i, used s i = true → stack_ok (stack_top (get_task s i));
  reg_esp0 : esp0 (rum_tss (segments s)) = stack_top (get_task s (cur s)) ∧ initialized (segments s) = true;
  reg_active : paging_active_space (memory s) = space (get_process s (cur s));
  reg_dirs : directories_ok (memory s);
  reg_space : ∀ i, used s i = true → ∃ a, space (get_process s i) = Some a ∧ known_space kernel a (memory s) = true;
  reg_shared : ∀ i, used s i = true → owns_space (get_process s i) = false → space (get_process s i) = Some kernel;
  reg_owned : ∀ i, used s i = true → owns_space (get_process s i) = true →
    space (get_process s i) ≠ Some kernel ∧ ∀ j, used s j = true → space (get_process s j) = space (get_process s i) → j = i;
  reg_resident : owns_space (get_process s BOOT) = false ∧ owns_space (get_process s IDLE) = false
}.

(** ** Changes the scheduler does not see *)

(** Whatever code outside the registry does: the spaces that tasks run in stay registered. *)

Record outside s t : Prop := {
  out_core : ∀ i, core_of (get_task t i) = core_of (get_task s i);
  out_zero : ∀ i, get_task s i = no_task → get_task t i = no_task;
  out_current : current t = current s;
  out_ready : ready t = ready s;
  out_next : next_id t = next_id s;
  out_process : ∀ i, space (get_process t i) = space (get_process s i) ∧ owns_space (get_process t i) = owns_space (get_process s i);
  out_segments : segments t = segments s;
  out_active : paging_active_space (memory t) = paging_active_space (memory s);
  out_known : ∀ i a, used s i = true → space (get_process s i) = Some a → known_space kernel a (memory s) = true →
    known_space kernel a (memory t) = true;
  out_dirs : directories_ok (memory s) → directories_ok (memory t)
}.
Lemma outside_used s t i : outside s t → used t i = used s i.
Proof. intros M. unfold used. by destruct (core_of_used _ _ (out_core s t M i)) as (-> & _). Qed.
Lemma outside_cur s t : outside s t → cur t = cur s.
Proof. intros M. unfold cur. by rewrite (out_current s t M). Qed.
Lemma outside_registry rest s t : registry rest s → outside s t → registry rest t.
Proof.
  intros R M. pose proof (λ i, outside_used s t i M) as U. pose proof (outside_cur s t M) as C.
  pose proof (λ i, core_of_used _ _ (out_core s t M i)) as T. destruct R, M.
  constructor; try congruence.
  - intros i. destruct (T i) as (-> & _). rewrite C. auto.
  - rewrite C. destruct rest; [|by rewrite U]. by destruct (T (cur s)) as (-> & _).
  - intros i. rewrite U. auto.
  - intros i H. apply out_zero0, reg_free0. by rewrite <- U.
  - intros i. rewrite U. destruct (T i) as (_ & _ & -> & _). auto.
  - intros i. rewrite U, out_next0. destruct (T i) as (_ & -> & _). auto.
  - intros i j. rewrite !U. destruct (T i) as (_ & -> & _), (T j) as (_ & -> & _). auto.
  - intros i. unfold waits. destruct (T i) as (-> & _ & _ & _ & _ & -> & -> & _). apply reg_wait0.
  - intros i. destruct (T i) as (_ & _ & _ & _ & _ & _ & -> & ->). auto.
  - rewrite U. by destruct (T BOOT) as (-> & -> & _).
  - by destruct (T IDLE) as (-> & -> & _).
  - intros i. rewrite U. destruct (T i) as (_ & _ & _ & -> & _). auto.
  - intros i. rewrite U. destruct (T i) as (_ & _ & _ & _ & -> & _). auto.
  - rewrite C, out_segments0. by destruct (T (cur s)) as (_ & _ & _ & _ & -> & _).
  - rewrite C, out_active0. by destruct (out_process0 (cur s)) as [-> _].
  - auto.
  - intros i H. rewrite U in H. destruct (out_process0 i) as [-> _]. destruct (reg_space0 i H) as (a & E & Kn).
    exists a. split; [done|]. by apply (out_known0 i a).
  - intros i. rewrite U. destruct (out_process0 i) as [-> ->]. auto.
  - intros i. rewrite U. destruct (out_process0 i) as [-> ->]. intros H O. destruct (reg_owned0 i H O) as [N D].
    split; [done|]. intros j. rewrite U. destruct (out_process0 j) as [-> _]. auto.
  - by destruct (out_process0 BOOT) as [_ ->], (out_process0 IDLE) as [_ ->].
Qed.

(** What the registry's own operations do: no space comes or goes at all. *)
Record minor s t : Prop := {
  minor_core : ∀ i, core_of (get_task t i) = core_of (get_task s i);
  minor_zero : ∀ i, get_task s i = no_task → get_task t i = no_task;
  minor_current : current t = current s;
  minor_ready : ready t = ready s;
  minor_next : next_id t = next_id s;
  minor_process : ∀ i, space (get_process t i) = space (get_process s i) ∧ owns_space (get_process t i) = owns_space (get_process s i);
  minor_segments : segments t = segments s;
  minor_spaces : spaces (memory t) = spaces (memory s)
}.
Lemma minor_outside s t : minor s t → outside s t.
Proof.
  intros []. constructor; try done; [by apply active_space_same|..].
  - intros i a _ _ H. by rewrite (known_space_same kernel a _ _ minor_spaces0).
  - intros D a. rewrite (known_space_same kernel a _ _ minor_spaces0), (directory_address_same kernel a _ _ minor_spaces0). apply D.
Qed.
Lemma minor_refl s : minor s s.
Proof. by constructor. Qed.
Lemma minor_registry rest s t : registry rest s → minor s t → registry rest t.
Proof. intros R M. eapply outside_registry; [done|by apply minor_outside]. Qed.

(** ** Reading back updates *)

Lemma get_put_task i x s j : get_task (put_task i x s) j = if decide (j = i) then x else get_task s j.
Proof. unfold get_task, put_task. cbn. case_decide; [subst; by rewrite lookup_insert_eq|by rewrite lookup_insert_ne]. Qed.
Lemma get_upd_task i f s j : get_task (upd_task i f s) j = if decide (j = i) then f (get_task s i) else get_task s j.
Proof. apply get_put_task. Qed.
Lemma get_put_process i x s j : get_process (put_process i x s) j = if decide (j = i) then x else get_process s j.
Proof. unfold get_process, put_process. cbn. case_decide; [subst; by rewrite lookup_insert_eq|by rewrite lookup_insert_ne]. Qed.
Lemma get_upd_process i f s j : get_process (upd_process i f s) j = if decide (j = i) then f (get_process s i) else get_process s j.
Proof. apply get_put_process. Qed.
Lemma proc_used rest s i : registry rest s → used s i = true → proc s i = get_process s i.
Proof. intros R H. unfold proc. by rewrite (reg_process _ _ R i H). Qed.

Lemma registry_cur_used rest s : registry rest s → used s (cur s) = true.
Proof. intros R. pose proof (reg_rest _ _ R) as H. destruct rest; [|done]. unfold used. by rewrite H. Qed.
Lemma used_state s i st : state (get_task s i) = st → st ≠ TASK_UNUSED → used s i = true.
Proof. intros E N. unfold used. rewrite E. by apply bool_decide_eq_true. Qed.

Lemma minor_upd_task i f s : (∀ x, core_of (f x) = core_of x) → used s i = true → minor s (upd_task i f s).
Proof.
  intros F U. constructor; try done.
  - intros j. rewrite get_upd_task. case_decide; [subst; apply F|done].
  - intros j E. rewrite get_upd_task. case_decide as D; [|done]. subst j. unfold used in U. by rewrite E in U.
Qed.
Lemma minor_upd_process i f s : (∀ p, space (f p) = space p ∧ owns_space (f p) = owns_space p) → minor s (upd_process i f s).
Proof.
  intros F. constructor; try done. intros j. rewrite get_upd_process. case_decide; [subst; apply F|done].
Qed.
Lemma minor_upd_proc i f s : (∀ p, space (f p) = space p ∧ owns_space (f p) = owns_space p) → minor s (upd_proc i f s).
Proof. intros F. unfold upd_proc. case_match; [by apply minor_upd_process|apply minor_refl]. Qed.
(** Page-table updates that keep the registered spaces. *)
Lemma minor_set_memory m s : spaces m = spaces (memory s) → minor s (set_memory m s).
Proof.
  intros E. by constructor.
Qed.

(** ** Calm changes: minor ones and wake-ups *)

Definition woken_or_same s t (i : Z) : Prop :=
  state (get_task t i) = state (get_task s i) ∨ (state (get_task s i) = TASK_BLOCKED ∧ state (get_task t i) = TASK_RUNNABLE).
Record calm (rest : bool) s t : Prop := {
  calm_registry : registry rest t;
  calm_current : current t = current s;
  calm_next : next_id t = next_id s;
  calm_process : ∀ i, space (get_process t i) = space (get_process s i) ∧ owns_space (get_process t i) = owns_space (get_process s i);
  calm_spaces : spaces (memory t) = spaces (memory s);
  calm_state : ∀ i, woken_or_same s t i;
  calm_tid : ∀ i, tid (get_task t i) = tid (get_task s i)
}.

Lemma calm_refl rest s : registry rest s → calm rest s s.
Proof. intros R. constructor; try done. intros i. by left. Qed.
Lemma calm_trans rest s t u : calm rest s t → calm rest t u → calm rest s u.
Proof.
  intros [_ C N P M S I] [R C' N' P' M' S' I']. constructor; try congruence.
  { intros i. destruct (P i) as [<- <-]. apply P'. }
  intros i. unfold woken_or_same in *. destruct (S i) as [?|[? ?]], (S' i) as [?|[? ?]]; [left|right|right|right]; split_and?; congruence.
Qed.
Lemma calm_minor rest s t u : calm rest s t → minor t u → calm rest s u.
Proof.
  intros C M. apply (calm_trans _ _ t); [done|]. destruct C as [R _ _ _ _ _ _]. constructor; [by eapply minor_registry|apply M..| |];
    intros i; destruct (core_of_used _ _ (minor_core _ _ M i)) as (E1 & E2 & _); [by left|done].
Qed.
Lemma calm_cur rest s t : calm rest s t → cur t = cur s.
Proof. intros C. unfold cur. by rewrite (calm_current _ _ _ C). Qed.
Lemma calm_used rest s t i : calm rest s t → used t i = used s i.
Proof. intros C. unfold used. apply bool_decide_ext. destruct (calm_state _ _ _ C i) as [->|[-> ->]]; done. Qed.

Lemma waits_wake r x : ¬ waits (wake_task r x).
Proof. unfold waits. cbn. intros [?|?]; done. Qed.

Lemma wake_registry rest r i s : registry rest s → state (get_task s i) = TASK_BLOCKED → registry rest (upd_task i (wake_task r) s).
Proof.
  intros R B. assert (used s i = true) as U by (eapply used_state; done).
  assert (∀ j, used (upd_task i (wake_task r) s) j = used s j) as U'.
  { intros j. unfold used. rewrite get_upd_task. case_decide; [subst; by rewrite B|done]. }
  assert (∀ j, tid (get_task (upd_task i (wake_task r) s) j) = tid (get_task s j) ∧ process (get_task (upd_task i (wake_task r) s) j) = process (get_task s j)
    ∧ stack_slot (get_task (upd_task i (wake_task r) s) j) = stack_slot (get_task s j) ∧ stack_top (get_task (upd_task i (wake_task r) s) j) = stack_top (get_task s j)) as F.
  { intros j. rewrite get_upd_task. by case_decide; subst. }
  assert (state (get_task s i) ≠ TASK_RUNNING ∧ state (get_task s i) ≠ TASK_RUNNABLE) as [N1 N2] by by rewrite B.
  pose proof R as R0. destruct R. constructor; try done.
  - intros j. rewrite get_upd_task. case_decide; [done|]. apply reg_running0.
  - destruct rest; [|by rewrite U']. change (cur (upd_task i (wake_task r) s)) with (cur s).
    rewrite get_upd_task. case_decide as D; [|done]. exfalso. apply N1. by rewrite <- D.
  - intros j. rewrite U'. auto.
  - intros j H. rewrite U' in H. rewrite get_upd_task. rewrite decide_False; [auto|]. intros ->. congruence.
  - intros j. rewrite U'. destruct (F j) as (_ & -> & _). auto.
  - intros j. rewrite U'. destruct (F j) as (-> & _). auto.
  - intros j k. rewrite !U'. destruct (F j) as (-> & _), (F k) as (-> & _). auto.
  - intros j. rewrite get_upd_task. case_decide; [|auto]. split; [done|]. intros W. by apply waits_wake in W.
  - intros j. rewrite get_upd_task. case_decide; [done|auto].
  - rewrite U', (proj1 (F BOOT)). split; [apply reg_boot0|split; [apply reg_boot0|]]. rewrite get_upd_task. case_decide; [done|apply reg_boot0].
  - rewrite (proj1 (F IDLE)). split; [apply reg_idle0|]. rewrite get_upd_task. case_decide; [by left|apply reg_idle0].
  - intros j. rewrite U'. destruct (F j) as (_ & _ & -> & _). auto.
  - intros j. rewrite U'. destruct (F j) as (_ & _ & _ & ->). auto.
  - change (cur (upd_task i (wake_task r) s)) with (cur s). destruct (F (cur s)) as (_ & _ & _ & ->). done.
  - intros j. rewrite U'. apply reg_space0.
  - intros j. rewrite U'. apply reg_shared0.
  - intros j. rewrite U'. intros H O. destruct (reg_owned0 j H O) as [N D]. split; [done|]. intros k. rewrite U'. apply D.
Qed.
Lemma calm_wake rest r i s t : calm rest s t → state (get_task t i) = TASK_BLOCKED → calm rest s (upd_task i (wake_task r) t).
Proof.
  intros C B. apply (calm_trans _ _ t); [done|]. destruct C as [R _ _ _ _ _ _]. constructor; try done; [by apply wake_registry|..].
  - intros j. unfold woken_or_same. rewrite get_upd_task. case_decide; [subst; right|left]; done.
  - intros j. rewrite get_upd_task. by case_decide; subst.
Qed.

(** The setters of everything the scheduler does not read. *)
Lemma minor_consoles v s : minor s (set_consoles v s).
Proof. by constructor. Qed.
Lemma minor_files v s : minor s (set_files v s).
Proof. by constructor. Qed.
Lemma minor_keys v s : minor s (set_keys v s).
Proof. by constructor. Qed.
Lemma minor_in_irq v s : minor s (set_in_irq v s).
Proof. by constructor. Qed.
Lemma minor_iflag v s : minor s (set_iflag v s).
Proof. by constructor. Qed.
Lemma minor_ticks v s : minor s (set_ticks v s).
Proof. by constructor. Qed.
Lemma minor_work_event v s : minor s (set_work_event v s).
Proof. by constructor. Qed.
Lemma minor_input_event v s : minor s (set_input_event v s).
Proof. by constructor. Qed.
Lemma minor_other_events v s : minor s (set_other_events v s).
Proof. by constructor. Qed.
Lemma minor_created v s : minor s (set_created v s).
Proof. by constructor. Qed.
Lemma minor_exited v s : minor s (set_exited v s).
Proof. by constructor. Qed.
Lemma minor_reaped v s : minor s (set_reaped v s).
Proof. by constructor. Qed.
Lemma minor_next_process_id v s : minor s (set_next_process_id v s).
Proof. by constructor. Qed.
Ltac minor_set := first [apply minor_consoles | apply minor_files | apply minor_keys | apply minor_in_irq | apply minor_iflag | apply minor_ticks | apply minor_work_event | apply minor_input_event | apply minor_other_events | apply minor_created | apply minor_exited | apply minor_reaped | apply minor_next_process_id].
(** One layer of a state built from setters. *)
Ltac calm_set := eapply calm_minor; [|minor_set].
Ltac calm_proc := eapply calm_minor; [|by apply minor_upd_proc].

Lemma in_state_eq s i st : in_state s i st = true ↔ state (get_task s i) = st.
Proof. apply bool_decide_eq_true. Qed.

Lemma calm_for_range rest s t first last body : calm rest s t →
  (∀ i u, first ≤ i < last → calm rest s u → calm rest s (body i u)) → calm rest s (for_range first last body t).
Proof. intros C H. by apply (for_range_pres (calm rest s)). Qed.

(** *** Events *)

Lemma calm_set_sequence rest s t e v : calm rest s t → calm rest s (set_sequence e v t).
Proof. intros C. destruct e; cbn; [eapply calm_minor; [done|by apply minor_upd_process]..| | |]; calm_set; done. Qed.
Lemma calm_signal rest s t e : calm rest s t → calm rest s (task_event_signal e t).
Proof.
  intros C. destruct e as [e|]; [|done]. cbn. calm_set. case_match; [|apply calm_set_sequence; by calm_set].
  apply calm_for_range; [apply calm_set_sequence; by calm_set|]. intros i u _ Cu. destruct (waits_on _ _ _) eqn:W; [|done].
  unfold waits_on in W. apply andb_true_iff in W as [W _]. apply in_state_eq in W. by apply calm_wake.
Qed.

Lemma calm_cur_task rest s t f : calm rest s t → (∀ x, core_of (f x) = core_of x) → calm rest s (upd_task (cur t) f t).
Proof. intros C F. eapply calm_minor; [done|]. apply minor_upd_task; [done|]. apply (registry_cur_used rest). apply C. Qed.

Lemma calm_tick rest s t now : calm rest s t → calm rest s (task_timer_tick now t).
Proof.
  intros C. unfold task_timer_tick. case_match; [done|].
  match goal with |- context [for_range 0 TASK_SLOTS ?b t] => assert (calm rest s (for_range 0 TASK_SLOTS b t)) as C';
    [|revert C'; generalize (for_range 0 TASK_SLOTS b t); intros u C'] end.
  { apply calm_for_range; [done|]. intros i u _ Cu. destruct (due _ _ _) eqn:W; [|done].
    unfold due in W. do 2 apply andb_true_iff in W as [W _]. apply in_state_eq in W. by apply calm_wake. }
  pose proof (calm_registry _ _ _ C') as R. rewrite (reg_current _ _ R). case_match; [done|].
  assert (calm rest s (upd_task (cur u) (set_slice_ticks (slice_ticks (get_task u (cur u)) - 1)) u)) as C1 by by apply calm_cur_task.
  case_match; [|done]. change (cur u) with (cur (upd_task (cur u) (set_slice_ticks (slice_ticks (get_task u (cur u)) - 1)) u)) at 1.
  by apply calm_cur_task.
Qed.
Lemma calm_timer_interrupt rest s t : calm rest s t → calm rest s (timer_interrupt t).
Proof. intros C. unfold timer_interrupt. apply calm_signal, calm_tick. by calm_set. Qed.

Lemma calm_cancel_slot rest s t i : calm rest s t → calm rest s (cancel_slot i t).
Proof.
  intros C. unfold cancel_slot.
  match goal with |- calm _ _ (if in_state ?u _ _ then _ else _) => assert (calm rest s u) as Cu by (calm_set; by calm_proc) end.
  destruct (in_state _ _ _) eqn:E; [|done]. apply in_state_eq in E. by apply calm_wake.
Qed.
Lemma calm_cancel_foreground rest s t : calm rest s t → calm rest s (snd (task_cancel_foreground t)).
Proof. intros C. unfold task_cancel_foreground. repeat case_match; cbn [snd]; calm_set; [by calm_set|apply calm_cancel_slot|]; by calm_set. Qed.
Lemma calm_notify rest s t : calm rest s t → calm rest s (task_notify_shell_input t).
Proof.
  intros C. unfold task_notify_shell_input. case_match; [done|]. calm_set. apply calm_for_range; [by calm_set|].
  intros i u _ Cu. case_match; [by apply calm_signal|done].
Qed.

Lemma calm_keyboard_byte rest s t status code : calm rest s t → calm rest s (keyboard_byte status code t).
Proof.
  intros C. unfold keyboard_byte. case_match; [done|]. destruct (keyboard_decode _ _) as [c d].
  assert (calm rest s (set_keys (set_decoder d (keys t)) t)) as C1 by by calm_set.
  revert C1. generalize (set_keys (set_decoder d (keys t)) t). intros u C1. case_match; [done|].
  assert (calm rest s (snd (if c =? 3 then task_cancel_foreground u else (false, u)))) as C2 by (case_match; [by apply calm_cancel_foreground|done]).
  destruct (if c =? 3 then _ else _) as [b v]. cbn [snd] in C2. destruct b; [by apply calm_signal|].
  destruct (enqueue _ _) as [[] k]; [apply calm_signal, calm_notify, calm_signal|]; by calm_set.
Qed.
Lemma calm_keyboard rest s t l : calm rest s t → calm rest s (keyboard_interrupt l t).
Proof.
  unfold keyboard_interrupt. revert t. induction (take 32 l) as [|[a b] l' IH]; intros t C; cbn; [done|]. by apply IH, calm_keyboard_byte.
Qed.
Lemma calm_interrupt rest s t i : calm rest s t → calm rest s (interrupt i t).
Proof.
  intros C. unfold interrupt. case_match; [done|]. do 2 calm_set. destruct i; [apply calm_timer_interrupt|apply calm_keyboard]; do 2 calm_set; done.
Qed.
Lemma calm_interrupts rest s t w : calm rest s t → calm rest s (interrupts w t).
Proof. unfold interrupts. revert t. induction w as [|i w IH]; intros t C; cbn; [done|]. by apply IH, calm_interrupt. Qed.

(** *** Holds, marks and requests *)

Lemma calm_hold rest s t : calm rest s t → calm rest s (snd (task_switch_hold t)).
Proof. intros C. unfold task_switch_hold. repeat case_match; cbn [snd]; [done| |done]. by apply calm_cur_task. Qed.
Lemma calm_release rest s t : calm rest s t → calm rest s (snd (task_switch_release t)).
Proof. intros C. unfold task_switch_release. repeat case_match; cbn [snd]; [done| |done]. by apply calm_cur_task. Qed.
Lemma calm_console {A : Type} rest s t (f : console → A * console) : calm rest s t → calm rest s (snd (upd_console f t)).
Proof. intros C. unfold upd_console. destruct (f _). cbn [snd]. by calm_set. Qed.
Lemma calm_files {A : Type} rest s t (f : vfs K → A * vfs K) : calm rest s t → calm rest s (snd (on_files f t)).
Proof. intros C. unfold on_files. destruct (f _). cbn [snd]. by calm_set. Qed.
Lemma calm_paged {A : Type} rest s t (f : paging → A * paging) a u : calm rest s t → (∀ m, spaces (snd (f m)) = spaces m) →
  paged f t = Some (a, u) → calm rest s u.
Proof.
  intros C F. unfold paged. specialize (F (memory t)). destruct (f (memory t)) as [b m]. case_match; [done|]. intros [= _ <-].
  eapply calm_minor; [done|by apply minor_set_memory].
Qed.

(** ** The dispatcher *)

Definition released s : kstate K := if in_state s (cur s) TASK_RUNNING then upd_task (cur s) (set_state TASK_RUNNABLE) s else s.
Definition pick s : Z := choose (cur s) (released s).
Definition eligible s (i : Z) : Prop := i ≠ IDLE ∧ state (get_task (released s) i) = TASK_RUNNABLE.

Lemma released_task s i : get_task (released s) i =
  if decide (i = cur s ∧ state (get_task s i) = TASK_RUNNING) then set_state TASK_RUNNABLE (get_task s i) else get_task s i.
Proof.
  unfold released. destruct (in_state s (cur s) TASK_RUNNING) eqn:E.
  - apply in_state_eq in E. rewrite get_upd_task. case_decide; case_decide; subst; naive_solver.
  - case_decide as D; [|done]. destruct D as [-> D]. apply in_state_eq in D. congruence.
Qed.
Lemma released_state rest s i : registry rest s →
  state (get_task (released s) i) = (if decide (state (get_task s i) = TASK_RUNNING) then TASK_RUNNABLE else state (get_task s i)).
Proof.
  intros R. rewrite released_task. case_decide as D; case_decide; cbn; try done; [naive_solver|].
  destruct D. split; [by apply (reg_running _ _ R)|done].
Qed.

(** [choose] takes the first candidate in circular order that may run. *)
Lemma find_split {A : Type} (f : A → bool) (l : list A) x : List.find f l = Some x →
  ∃ l1 l2, l = l1 ++ x :: l2 ∧ f x = true ∧ Forall (λ y, f y = false) l1.
Proof.
  induction l as [|y l IH]; cbn; [done|]. destruct (f y) eqn:E.
  - intros [= <-]. by exists [], l.
  - intros H. destruct (IH H) as (l1 & l2 & -> & Hx & F). exists (y :: l1), l2. by repeat constructor.
Qed.

Lemma candidates_spec i c : 0 ≤ c < TASK_SLOTS → c ∈ candidates i.
Proof.
  intros H. unfold candidates, TASK_SLOTS, RUM_PROCESS_LIMIT in *. apply list_elem_of_fmap. exists ((c - i - 1) mod 18 + 1). split.
  - rewrite <- (Z.mod_small c 18) at 1 by lia. rewrite (Z.add_comm ((c - i - 1) mod 18)), Z.add_assoc, Z.add_mod_idemp_r by lia. f_equal. lia.
  - apply elem_of_seqZ. pose proof (Z.mod_pos_bound (c - i - 1) 18). lia.
Qed.
Lemma candidates_range i c : c ∈ candidates i → 0 ≤ c < TASK_SLOTS.
Proof. unfold candidates. intros (o & -> & _)%list_elem_of_fmap. apply Z.mod_pos_bound. done. Qed.

Lemma pick_eligible s : pick s = IDLE ∨ eligible s (pick s).
Proof.
  unfold pick, choose. destruct (List.find _ _) as [x|] eqn:E; cbn; [|by left]. apply find_split in E as (_ & _ & _ & F & _).
  apply andb_true_iff in F as [F1 F2]. right. apply in_state_eq in F2. split; [|done]. intros ->. done.
Qed.
Lemma pick_idle s i : pick s = IDLE → 0 ≤ i < TASK_SLOTS → ¬ eligible s i.
Proof.
  intros P Hi [N E]. unfold pick, choose in P. destruct (List.find _ _) as [x|] eqn:F; cbn in P.
  - apply find_split in F as (_ & _ & _ & F & _). subst x. done.
  - pose proof (List.find_none _ _ F i) as G. rewrite <- list_elem_of_In in G. specialize (G (candidates_spec _ _ Hi)).
    rewrite andb_false_iff, negb_false_iff, Z.eqb_eq in G. destruct G as [?|G]; [done|]. apply in_state_eq in E. congruence.
Qed.
Lemma pick_used rest s : registry rest s → used s (pick s) = true.
Proof.
  intros R. destruct (pick_eligible s) as [->|[_ E]].
  - unfold used. apply bool_decide_eq_true. destruct (reg_idle _ _ R) as [_ [->| ->]]; done.
  - rewrite (released_state _ _ _ R) in E. unfold used. apply bool_decide_eq_true. case_decide; congruence.
Qed.

Context (switch_esp : kstate K → Z).

(** What a dispatch does to the registry: the chosen task runs, a task that ran may run
    again, and the machine follows the chosen one. *)
Record dispatched (s t : kstate K) : Prop := {
  disp_current : current t = Some (pick s);
  disp_state : ∀ i, state (get_task t i) = if decide (i = pick s) then TASK_RUNNING else state (get_task (released s) i);
  disp_rest : ∀ i, tid (get_task t i) = tid (get_task s i) ∧ process (get_task t i) = process (get_task s i) ∧
    stack_slot (get_task t i) = stack_slot (get_task s i) ∧ stack_top (get_task t i) = stack_top (get_task s i) ∧
    waiting (get_task t i) = waiting (get_task s i) ∧ deadline_active (get_task t i) = deadline_active (get_task s i) ∧
    deadline (get_task t i) = deadline (get_task s i);
  disp_zero : ∀ i, used s i = false → get_task t i = get_task s i;
  disp_processes : processes t = processes s;
  disp_same : ready t = ready s ∧ next_id t = next_id s ∧ consoles t = consoles s ∧ files t = files s ∧ keys t = keys s ∧
    ticks t = ticks s ∧ iflag t = iflag s ∧ in_irq t = in_irq s ∧ block_active t = block_active s;
  disp_memory : kernel_space (memory t) = kernel_space (memory s) ∧ chain (memory t) = chain (memory s) ∧
    enabled (memory t) = enabled (memory s);
  disp_active : paging_active_space (memory t) = space (get_process s (pick s));
  disp_segments : esp0 (rum_tss (segments t)) = stack_top (get_task s (pick s)) ∧ initialized (segments t) = true
}.

(** The registry part of [schedule], before the machine is switched. *)
Definition chosen s : kstate K :=
  upd_task (pick s) (λ x, set_slice_ticks TASK_TIME_SLICE_TICKS (set_reschedule false x))
    (upd_task (cur s) (set_reschedule false) (upd_task (pick s) (set_state TASK_RUNNING) (released s))).

Lemma chosen_task s i : ∃ sl rs,
  get_task (chosen s) i = set_slice_ticks sl (set_reschedule rs
    (if decide (i = pick s) then set_state TASK_RUNNING (get_task (released s) i) else get_task (released s) i)) ∧
  (i ≠ pick s → i ≠ cur s → get_task (chosen s) i = get_task (released s) i).
Proof.
  unfold chosen. destruct (decide (i = pick s)) as [E|N].
  - eexists TASK_TIME_SLICE_TICKS, false. split; [|done]. rewrite get_upd_task, decide_True by done. rewrite E, !get_upd_task.
    rewrite (decide_True _ _ (eq_refl (pick s))). repeat case_decide; try done; congruence.
  - rewrite get_upd_task, decide_False by done. rewrite get_upd_task. case_decide as D.
    + rewrite get_upd_task, decide_False by congruence. subst i. exists (slice_ticks (get_task (released s) (cur s))), false. split; [|done].
      by destruct (get_task (released s) (cur s)).
    + rewrite get_upd_task, decide_False by done. exists (slice_ticks (get_task (released s) i)), (reschedule (get_task (released s) i)).
      split; [|done]. by destruct (get_task (released s) i).
Qed.

Lemma released_other s : current (released s) = current s ∧ processes (released s) = processes s ∧ memory (released s) = memory s ∧
  segments (released s) = segments s ∧ (ready (released s) = ready s ∧ next_id (released s) = next_id s ∧ consoles (released s) = consoles s ∧
  files (released s) = files s ∧ keys (released s) = keys s ∧ ticks (released s) = ticks s ∧ iflag (released s) = iflag s ∧
  in_irq (released s) = in_irq s ∧ block_active (released s) = block_active s).
Proof. unfold released. case_match; done. Qed.

Lemma schedule_eq s : schedule kernel switch_esp s =
  if negb (may_schedule s) then None else
  if pick s =? cur s then Some (false, chosen s) else
  match space (proc (chosen s) (pick s)) with
  | None => None
  | Some a =>
      match paged (paging_switch_space kernel a) (chosen s) with
      | None => None
      | Some (ok, t) =>
          if negb ok then None else
          let '(ok, g) := gdt_set_kernel_context (stack_top (get_task t (pick s))) (directory_of_space kernel (Some a) t) (segments t) in
          if negb ok then None else
          let t := set_current (Some (pick s)) (set_segments g t) in
          let t := set_marks (task_idle_stack_base t) (task_emergency_stack_base t) (stack_top (get_task t (pick s))) t in
          let t := set_switches (wrap32 (switches t + 1)) t in
          Some (true, upd_task (cur s) (set_stack (switch_esp t)) t)
      end
  end.
Proof. done. Qed.

Lemma chosen_other s : processes (chosen s) = processes s ∧ memory (chosen s) = memory s ∧ segments (chosen s) = segments s ∧
  current (chosen s) = current s ∧ (ready (chosen s) = ready s ∧ next_id (chosen s) = next_id s ∧ consoles (chosen s) = consoles s ∧
  files (chosen s) = files s ∧ keys (chosen s) = keys s ∧ ticks (chosen s) = ticks s ∧ iflag (chosen s) = iflag s ∧
  in_irq (chosen s) = in_irq s ∧ block_active (chosen s) = block_active s).
Proof. destruct (released_other s) as (E1 & E2 & E3 & E4 & E5). unfold chosen. cbn. rewrite E1, E2, E3, E4. done. Qed.

Lemma chosen_fields s i :
  state (get_task (chosen s) i) = (if decide (i = pick s) then TASK_RUNNING else state (get_task (released s) i)) ∧
  tid (get_task (chosen s) i) = tid (get_task s i) ∧ process (get_task (chosen s) i) = process (get_task s i) ∧
  stack_slot (get_task (chosen s) i) = stack_slot (get_task s i) ∧ stack_top (get_task (chosen s) i) = stack_top (get_task s i) ∧
  waiting (get_task (chosen s) i) = waiting (get_task s i) ∧ deadline_active (get_task (chosen s) i) = deadline_active (get_task s i) ∧
  deadline (get_task (chosen s) i) = deadline (get_task s i).
Proof.
  destruct (chosen_task s i) as (sl & rs & -> & _). rewrite released_task.
  case_decide; case_decide; done.
Qed.

Lemma chosen_zero rest s i : registry rest s → used s i = false → get_task (chosen s) i = get_task s i.
Proof.
  intros R U. destruct (chosen_task s i) as (_ & _ & _ & ->).
  - rewrite released_task, decide_False; [done|]. intros [-> _]. by rewrite (registry_cur_used _ _ R) in U.
  - intros ->. by rewrite (pick_used _ _ R) in U.
  - intros ->. by rewrite (registry_cur_used _ _ R) in U.
Qed.

Lemma chosen_proc rest s : registry rest s → proc (chosen s) (pick s) = get_process s (pick s).
Proof.
  intros R. unfold proc. destruct (chosen_fields s (pick s)) as (_ & _ & -> & _). rewrite (reg_process _ _ R _ (pick_used _ _ R)).
  destruct (chosen_other s) as (E & _). change (default no_process (processes (chosen s) !! pick s) = get_process s (pick s)). by rewrite E.
Qed.

(** After the registry part, a state that agrees on tasks up to the saved stack pointer. *)
Lemma dispatched_intro rest s t : registry rest s → (∀ i, ∃ sp, get_task t i = set_stack sp (get_task (chosen s) i)) →
  (∀ i, i ≠ cur s → get_task t i = get_task (chosen s) i) → processes t = processes s → current t = Some (pick s) →
  (ready t = ready s ∧ next_id t = next_id s ∧ consoles t = consoles s ∧ files t = files s ∧ keys t = keys s ∧
    ticks t = ticks s ∧ iflag t = iflag s ∧ in_irq t = in_irq s ∧ block_active t = block_active s) →
  (kernel_space (memory t) = kernel_space (memory s) ∧ chain (memory t) = chain (memory s) ∧ enabled (memory t) = enabled (memory s)) →
  paging_active_space (memory t) = space (get_process s (pick s)) →
  (esp0 (rum_tss (segments t)) = stack_top (get_task s (pick s)) ∧ initialized (segments t) = true) → dispatched s t.
Proof.
  intros R T T' P C S M A G. constructor; try done.
  - intros i. destruct (T i) as [sp ->]. apply (chosen_fields s i).
  - intros i. destruct (T i) as [sp ->]. apply (chosen_fields s i).
  - intros i U. rewrite T'; [by apply (chosen_zero rest)|]. intros ->. by rewrite (registry_cur_used _ _ R) in U.
Qed.

Lemma known_space_chain a m m' : kernel_space m' = kernel_space m ∧ chain m' = chain m ∧ enabled m' = enabled m →
  known_space kernel a m' = known_space kernel a m ∧ paging_directory_address kernel a m' = paging_directory_address kernel a m.
Proof. intros (E1 & E2 & E3). unfold paging_directory_address, known_space, get_space. by rewrite E1, E2, E3. Qed.

Lemma set_same_stack x : x = set_stack (stack x) x.
Proof. by destruct x. Qed.

Lemma schedule_dispatched rest s b t : registry rest s → schedule kernel switch_esp s = Some (b, t) → dispatched s t.
Proof.
  intros R. rewrite schedule_eq. destruct (may_schedule s) eqn:MS; [|done]. cbn [negb].
  destruct (chosen_other s) as (P & M & G & C & O). destruct (Z.eqb_spec (pick s) (cur s)) as [E|N].
  - intros [= <- <-]. apply (dispatched_intro rest); try done.
    + intros i. eexists. apply set_same_stack.
    + rewrite C, (reg_current _ _ R). by rewrite E.
    + by rewrite M.
    + rewrite M, E. apply R.
    + rewrite G, E. apply R.
  - rewrite (chosen_proc rest) by done. destruct (space (get_process s (pick s))) as [a|] eqn:Sp; [|done].
    unfold paged. destruct (paging_switch_space kernel a (memory (chosen s))) as [ok m] eqn:W. destruct (halted m); [done|].
    destruct ok; [|done]. cbn [negb]. unfold paging_switch_space in W. rewrite M in W.
    destruct (known_space kernel a (memory s)) eqn:Kn; [|done]. injection W as <-.
    unfold gdt_set_kernel_context. destruct (_ && _) eqn:Ok; [|done]. cbn [negb]. cbv zeta. intros [= <- <-].
    assert (initialized (segments s) = true) as I by apply R.
    apply (dispatched_intro rest); try done.
    + intros i. rewrite get_upd_task. case_decide; [subst; by eexists|]. eexists. apply set_same_stack.
    + intros i Hi. by rewrite get_upd_task, decide_False.
    + cbn. unfold paging_active_space. cbn. unfold known_space in Kn. apply andb_true_iff in Kn as [-> _]. done.
    + split; [exact (proj1 (proj2 (proj2 (proj2 (proj2 (chosen_fields s (pick s))))))) |].
      change (initialized (segments (chosen s)) = true). by rewrite G.
Qed.

Lemma pick_ready rest s : registry rest s → state (get_task s (pick s)) = TASK_RUNNABLE ∨ state (get_task s (pick s)) = TASK_RUNNING.
Proof.
  intros R. destruct (pick_eligible s) as [->|[_ E]]; [apply (reg_idle _ _ R)|].
  rewrite (released_state _ _ _ R) in E. case_decide; [by right|by left].
Qed.
Lemma dispatched_state rest s t i : registry rest s → dispatched s t → state (get_task t i) =
  if decide (i = pick s) then TASK_RUNNING else if decide (state (get_task s i) = TASK_RUNNING) then TASK_RUNNABLE else state (get_task s i).
Proof. intros R D. by rewrite (disp_state _ _ D), (released_state _ _ _ R). Qed.
Lemma dispatched_used rest s t i : registry rest s → dispatched s t → used t i = used s i.
Proof.
  intros R D. unfold used. apply bool_decide_ext. rewrite (dispatched_state _ _ _ _ R D). pose proof (pick_ready _ _ R) as P.
  case_decide; [subst; destruct P as [->| ->]; done|]. case_decide as E; [by rewrite E|done].
Qed.
Lemma dispatched_cur s t : dispatched s t → cur t = pick s.
Proof. intros D. unfold cur. by rewrite (disp_current _ _ D). Qed.

Lemma dispatched_registry rest s t : registry rest s → dispatched s t → registry true t.
Proof.
  intros R D. pose proof (dispatched_cur s t D) as C. pose proof (λ i, dispatched_used _ _ _ i R D) as U.
  assert (∀ i, get_process t i = get_process s i) as P by (intros i; unfold get_process; by rewrite (disp_processes _ _ D)).
  pose proof (λ a, known_space_chain a _ _ (disp_memory _ _ D)) as Kn. pose proof (disp_rest _ _ D) as T.
  pose proof (λ i, dispatched_state _ _ _ i R D) as S. destruct (disp_same _ _ D) as (E1 & E2 & _).
  pose proof (pick_ready _ _ R) as PR. pose proof (disp_zero _ _ D) as Z0. destruct R. constructor.
  - by rewrite E1.
  - by rewrite C, (disp_current _ _ D).
  - intros i. rewrite S, C. repeat (case_decide; [done|]). done.
  - rewrite C, S. by rewrite decide_True.
  - intros i. rewrite U. auto.
  - intros i H. rewrite U in H. rewrite Z0 by done. auto.
  - intros i. rewrite U. destruct (T i) as (_ & -> & _). auto.
  - by rewrite E2.
  - intros i. rewrite U, E2. destruct (T i) as (-> & _). auto.
  - intros i j. rewrite !U. destruct (T i) as (-> & _), (T j) as (-> & _). auto.
  - intros i. unfold waits. destruct (T i) as (_ & _ & _ & _ & -> & -> & _). fold (waits (get_task s i)). rewrite <- reg_wait0, S.
    case_decide; [subst; destruct PR as [->| ->]; done|]. case_decide as Q; [by rewrite Q|done].
  - intros i. destruct (T i) as (_ & _ & _ & _ & _ & -> & ->). auto.
  - destruct (T BOOT) as (-> & _). rewrite U, S. destruct reg_boot0 as (? & ? & ?). split_and!; [done..|]. repeat (case_decide; [done|]). done.
  - destruct (T IDLE) as (-> & _). rewrite S. destruct reg_idle0 as (? & ?). split; [done|]. case_decide; [by right|].
    case_decide; [by left|]. done.
  - intros i. rewrite U. destruct (T i) as (_ & _ & -> & _). auto.
  - intros i. rewrite U. destruct (T i) as (_ & _ & _ & -> & _). auto.
  - rewrite C. destruct (T (pick s)) as (_ & _ & _ & -> & _). apply D.
  - rewrite C, P. apply D.
  - intros a. destruct (Kn a) as [-> ->]. apply reg_dirs0.
  - intros i H. rewrite U in H. rewrite P. destruct (reg_space0 i H) as (a & ? & ?). exists a. destruct (Kn a) as [-> _]. done.
  - intros i. rewrite U, P. auto.
  - intros i. rewrite U, P. intros H O. destruct (reg_owned0 i H O) as [N D']. split; [done|]. intros j. rewrite U, P. auto.
  - by rewrite !P.
Qed.

(** The machine never stops in the dispatcher: its guards and the switch itself succeed. *)
Lemma schedule_total rest s : registry rest s → iflag s = false → in_irq s = false → switch_protected s = false → halted (memory s) = false →
  ∃ b t, schedule kernel switch_esp s = Some (b, t) ∧ (b = false → pick s = cur s) ∧ (b = true → pick s ≠ cur s).
Proof.
  intros R I Q W H. rewrite schedule_eq. assert (may_schedule s = true) as ->.
  { unfold may_schedule. pose proof (registry_cur_used _ _ R) as U. rewrite I, Q, W, (reg_ready _ _ R), (reg_current _ _ R), (reg_process _ _ R _ U).
    rewrite (proc_used _ _ _ R U). destruct (reg_esp0 _ _ R) as [-> _]. rewrite <- (reg_active _ _ R), Z.eqb_refl. cbn.
    rewrite andb_true_r. by apply bool_decide_eq_true. }
  cbn [negb]. destruct (chosen_other s) as (P & M & G & _). destruct (Z.eqb_spec (pick s) (cur s)) as [E|N]; [by eexists _, _|].
  pose proof (pick_used _ _ R) as U. rewrite (chosen_proc rest) by done. destruct (reg_space _ _ R _ U) as (a & -> & Kn). pose proof (reg_dirs _ _ R a Kn) as Dir.
  unfold paged, paging_switch_space. rewrite M, Kn. cbn [halted set_active reload_directory set_cr3]. change (halted _) with (halted (memory s)). rewrite H.
  cbn [negb]. unfold gdt_set_kernel_context.
  assert (stack_acceptable (stack_top (get_task (chosen s) (pick s))) (segments s) = true) as Sa.
  { unfold stack_acceptable. destruct (chosen_fields s (pick s)) as (_ & _ & _ & _ & -> & _). destruct (reg_top _ _ R _ U) as [T1 T2].
    rewrite T2. destruct (reg_esp0 _ _ R) as [_ ->]. cbn. rewrite andb_true_r. by apply negb_true_iff, Z.eqb_neq. }
  change (segments (set_memory _ (chosen s))) with (segments (chosen s)). rewrite G.
  change (get_task (set_memory _ (chosen s)) (pick s)) with (get_task (chosen s) (pick s)). rewrite Sa.
  unfold directory_of_space. cbn [memory set_memory]. change (paging_directory_address kernel a _) with (paging_directory_address kernel a (memory s)).
  rewrite Dir. by eexists _, _.
Qed.

(** ** Leaving the processor *)

(** What an operation may do to the current task just before it calls [schedule]. *)
Record departs (s : kstate K) (x : task) : Prop := {
  dep_tid : tid x = tid (get_task s (cur s));
  dep_process : process x = process (get_task s (cur s));
  dep_stack : stack_slot x = stack_slot (get_task s (cur s)) ∧ stack_top x = stack_top (get_task s (cur s));
  dep_state : state x ≠ TASK_UNUSED ∧ state x ≠ TASK_RUNNING;
  dep_wait : state x = TASK_BLOCKED ↔ waits x;
  dep_deadline : deadline_active x = false → deadline x = 0;
  dep_idle : cur s ≠ IDLE;
  dep_boot : cur s = BOOT → state x ≠ TASK_EXITED
}.
Lemma depart_registry s x : registry true s → departs s x → registry false (put_task (cur s) x s).
Proof.
  intros R [I P [S1 S2] [N1 N2] W De Id B].
  assert (∀ j, used (put_task (cur s) x s) j = used s j) as U.
  { intros j. unfold used. rewrite get_put_task. case_decide as E; [|done]. subst j. apply bool_decide_ext. rewrite (reg_rest _ _ R). done. }
  assert (∀ j, tid (get_task (put_task (cur s) x s) j) = tid (get_task s j) ∧ process (get_task (put_task (cur s) x s) j) = process (get_task s j) ∧
    stack_slot (get_task (put_task (cur s) x s) j) = stack_slot (get_task s j) ∧ stack_top (get_task (put_task (cur s) x s) j) = stack_top (get_task s j)) as F.
  { intros j. rewrite get_put_task. case_decide; [subst|]; done. }
  pose proof (registry_cur_used _ _ R) as Uc. destruct R. constructor; try done; change (cur (put_task (cur s) x s)) with (cur s).
  - intros j. rewrite get_put_task. case_decide; [done|]. apply reg_running0.
  - by rewrite U.
  - intros j. rewrite U. auto.
  - intros j H. rewrite U in H. rewrite get_put_task, decide_False; [auto|]. intros ->. congruence.
  - intros j. rewrite U. destruct (F j) as (_ & -> & _). auto.
  - intros j. rewrite U. destruct (F j) as (-> & _). auto.
  - intros j k. rewrite !U. destruct (F j) as (-> & _), (F k) as (-> & _). auto.
  - intros j. rewrite get_put_task. case_decide; [done|auto].
  - intros j. rewrite get_put_task. case_decide; [done|auto].
  - rewrite U, (proj1 (F BOOT)). split; [apply reg_boot0|split; [apply reg_boot0|]]. rewrite get_put_task. case_decide; [auto|apply reg_boot0].
  - rewrite (proj1 (F IDLE)). split; [apply reg_idle0|]. rewrite get_put_task. rewrite decide_False by done. apply reg_idle0.
  - intros j. rewrite U. destruct (F j) as (_ & _ & -> & _). auto.
  - intros j. rewrite U. destruct (F j) as (_ & _ & _ & ->). auto.
  - destruct (F (cur s)) as (_ & _ & _ & ->). done.
  - intros j. rewrite U. apply reg_space0.
  - intros j. rewrite U. apply reg_shared0.
  - intros j. rewrite U. intros H O. destruct (reg_owned0 j H O) as [N D]. split; [done|]. intros k. rewrite U. apply D.
Qed.

Lemma running_waits_not s i : registry true s → state (get_task s i) = TASK_RUNNING → waiting (get_task s i) = None ∧ deadline_active (get_task s i) = false ∧ deadline (get_task s i) = 0.
Proof.
  intros R E. assert (¬ waits (get_task s i)) as N by (rewrite <- (reg_wait _ _ R), E; done).
  unfold waits in N. destruct (waiting _); [destruct N; by left|]. destruct (deadline_active _) eqn:D; [destruct N; by right|].
  split; [done|]. split; [done|]. by apply (reg_deadline _ _ R).
Qed.

(** ** Publication *)

Record fresh (s : kstate K) (i : Z) (x : task) (p : process_state) : Prop := {
  fresh_slot : 2 ≤ i < TASK_SLOTS ∧ used s i = false;
  fresh_state : state x = TASK_RUNNABLE ∧ waiting x = None ∧ deadline_active x = false ∧ deadline x = 0;
  fresh_tid : 0 < tid x ≤ UINT32_MAX ∧ (next_id s ≠ 0 → tid x < next_id s) ∧ ∀ j, used s j = true → tid (get_task s j) ≠ tid x;
  fresh_stack : stack_slot x = i - 1 ∧ stack_ok (stack_top x);
  fresh_space : ∃ a, space p = Some a ∧ known_space kernel a (memory s) = true ∧
    (owns_space p = false → a = kernel) ∧
    (owns_space p = true → a ≠ kernel ∧ ∀ j, used s j = true → space (get_process s j) ≠ Some a)
}.
Lemma publish_spec i x p s t : publish i x p s = Some t →
  t = put_task i (set_process (Some i) x) (set_consoles (put_member i no_member (consoles s)) (put_process i p s)).
Proof. unfold publish. case_match; [done|]. by intros [= <-]. Qed.

Lemma published_task i x p s j : get_task (put_task i (set_process (Some i) x) (set_consoles (put_member i no_member (consoles s)) (put_process i p s))) j
  = if decide (j = i) then set_process (Some i) x else get_task s j.
Proof. rewrite get_put_task. done. Qed.
Lemma published_process i x p s j : get_process (put_task i (set_process (Some i) x) (set_consoles (put_member i no_member (consoles s)) (put_process i p s))) j
  = if decide (j = i) then p else get_process s j.
Proof. exact (get_put_process i p s j). Qed.

Lemma publish_registry i x p s t : registry true s → fresh s i x p → publish i x p s = Some t → registry true t.
Proof.
  intros R F ->%publish_spec. pose proof (published_task i x p s) as T. pose proof (published_process i x p s) as P.
  revert T P. set (t := put_task _ _ _). intros T P. destruct F as [[Si U0] (St & Wa & Da & De) (I1 & I2 & I3) [S1 S2] (a & Sp & Kn & Sh & Ow)].
  assert (cur t = cur s) as C by done. pose proof (registry_cur_used _ _ R) as Uc. assert (cur s ≠ i) as Nc by (intros E; congruence).
  assert (∀ j, used t j = if decide (j = i) then true else used s j) as U.
  { intros j. unfold used. rewrite T. case_decide; [|done]. cbn. by rewrite St. }
  destruct R. constructor; try done; rewrite ?C.
  - intros j. rewrite T. case_decide; [cbn; by rewrite St|apply reg_running0].
  - rewrite T, decide_False by done. done.
  - intros j. rewrite U. case_decide; [lia|auto].
  - intros j. rewrite U, T. case_decide; [done|auto].
  - intros j. rewrite U, T. case_decide; [by subst|auto].
  - intros j. rewrite U, T. change (next_id t) with (next_id s). case_decide; [done|auto].
  - intros j k. rewrite !U, !T. repeat case_decide; subst; try done; intros; [exfalso; by apply (I3 k)|exfalso; by apply (I3 j)|auto].
  - intros j. rewrite T. case_decide; [|auto]. unfold waits. cbn. rewrite St, Wa, Da. split; [done|intros [?|?]; done].
  - intros j. rewrite T. case_decide; [done|auto].
  - rewrite U, T. unfold BOOT in *. rewrite !decide_False by lia. done.
  - rewrite T. unfold IDLE in *. rewrite !decide_False by lia. done.
  - intros j. rewrite U, T. case_decide; [by subst|auto].
  - intros j. rewrite U, T. case_decide; [done|auto].
  - change (segments t) with (segments s). rewrite T, decide_False by done. done.
  - change (memory t) with (memory s). rewrite P, decide_False by done. done.
  - intros j. rewrite U, P. change (memory t) with (memory s). case_decide; [intros _; by exists a|auto].
  - intros j. rewrite U, P. case_decide; [intros _ O; by rewrite Sp, (Sh O)|auto].
  - intros j. rewrite U, P. case_decide as E; [intros _ O|intros Uj O].
    + destruct (Ow O) as [N D]. rewrite Sp. split; [congruence|]. intros k. rewrite U, P. case_decide; [by subst|]. intros Uk. by apply D in Uk.
    + destruct (reg_owned0 j Uj O) as [N D]. split; [done|]. intros k. rewrite U, P. case_decide; [|auto]. intros _ Q. exfalso.
      rewrite Sp in Q. destruct (owns_space p) eqn:Op; [destruct (Ow eq_refl) as [_ D']; by apply (D' j Uj)|].
      apply N. rewrite <- Q. by rewrite (Sh eq_refl).
  - rewrite !P. unfold BOOT, IDLE in *. by rewrite !decide_False by lia.
Qed.

Lemma next_id_registry rest s : registry rest s → next_id s ≠ 0 → registry rest (set_next_id (wrap32 (next_id s + 1)) s).
Proof.
  intros R N. destruct R. constructor; try done; cbn.
  - apply wrap32_bound.
  - intros i U. destruct (reg_ids0 i U) as [B L]. split; [done|]. intros Q. specialize (L N).
    change (tid (get_task s i) < wrap32 (next_id s + 1)). destruct (decide (next_id s = UINT32_MAX)) as [E|]; [destruct Q; by rewrite E|]. rewrite wrap32_small by lia. lia.
Qed.

(** ** Construction *)

(** Nobody is dispatched and nobody that may run loses that. *)
Definition quiet s t : Prop :=
  current t = current s ∧ ∀ i, state (get_task s i) = TASK_RUNNABLE → state (get_task t i) = TASK_RUNNABLE.
Lemma quiet_trans s t u : quiet s t → quiet t u → quiet s u.
Proof. intros [C S] [C' S']. split; [congruence|auto]. Qed.
Lemma calm_quiet rest s t : calm rest s t → quiet s t.
Proof. intros C. split; [apply C|]. intros i E. destruct (calm_state _ _ _ C i) as [->|[? ?]]; congruence. Qed.

Context (ops : fs_operations K) (start_address halt_address : Z).

Lemma calm_store_words rest s t u address l : calm rest s t → store_words kernel address l t = Some u → calm rest s u.
Proof.
  revert address t. induction l as [|v l IH]; intros address t C; cbn; [by intros [= <-]|].
  destruct (store_virtual kernel address v t) as [k|] eqn:V; [|done]. intros E. eapply IH; [|done]. unfold store_virtual in V.
  destruct (paging_active t); [|done]. destruct (paging_translate _ _ _ _); [|done]. injection V as <-.
  eapply calm_minor; [done|]. by apply minor_set_memory.
Qed.
Lemma calm_prepare rest s t x x' u : calm rest s t → prepare_stack kernel start_address halt_address x t = Some (x', u) →
  calm rest s u ∧ ∃ sp, x' = set_stack sp x.
Proof.
  intros C. unfold prepare_stack. destruct (store_words _ _ _ _) as [v|] eqn:E; [|done]. intros [= <- <-].
  split; [by eapply calm_store_words|by eexists].
Qed.
Lemma calm_release_stack rest s t u slot : calm rest s t → release_stack kernel slot t = Some u → calm rest s u.
Proof.
  intros C. unfold release_stack. destruct (paged _ _) as [[b v]|] eqn:E; [|done]. intros [= <-].
  by apply (calm_paged _ _ _ _ _ _ C (spaces_stack_release kernel slot) E).
Qed.

Lemma slot_tops_ok : all_range 0 (RUM_KERNEL_STACK_SLOTS - 1) (λ i,
  negb (RUM_KERNEL_STACK_SLOT_TOP i =? 0) && (RUM_KERNEL_STACK_SLOT_TOP i mod RUM_STACK_ALIGNMENT =? 0)) = true.
Proof. vm_compute. reflexivity. Qed.
Lemma slot_top_ok i : 1 ≤ i < TASK_SLOTS → stack_ok (RUM_KERNEL_STACK_SLOT_TOP (i - 1)).
Proof.
  intros H. assert (0 ≤ i - 1 < RUM_KERNEL_STACK_SLOTS - 1) as H' by (unfold TASK_SLOTS, RUM_KERNEL_STACK_SLOTS in *; lia).
  pose proof (proj1 (all_range_true _ _ _) slot_tops_ok (i - 1) H') as A. apply andb_true_iff in A as [A B]. split; lia.
Qed.

(** Both constructors: refused with everything as it was for the scheduler, or a process
    with the new directory and a task on the slot's stack. *)
Lemma acquire_spec rest s t u p x slot w r : calm rest s t → acquire ops kernel p x slot w t = Some (r, u) →
  calm rest s u ∧ ∀ p' x', r = Some (p', x') →
    (∃ f, p' = set_filesystem f p) ∧ x' = set_stack_of slot (RUM_KERNEL_STACK_SLOT_BASE slot) (RUM_KERNEL_STACK_SLOT_TOP slot) STACK_PAGES x.
Proof.
  intros C. unfold acquire. pose proof (calm_interrupts _ _ _ (w 0%nat) C) as C0. revert C0. generalize (interrupts (w 0%nat) t). intros t0 C0.
  match goal with |- context [on_files ?f t0] => pose proof (calm_files _ _ _ f C0) as C1; destruct (on_files f t0) as [[e f'] t1] end. cbn [snd] in C1.
  case_match; [intros [= <- <-]; split; [by apply calm_release|done]|].
  pose proof (calm_interrupts _ _ _ (w 1%nat) C1) as C2. revert C2. generalize (interrupts (w 1%nat) t1). intros t2 C2.
  unfold new_stack. destruct (paged _ _) as [[ok t3]|] eqn:P; [|done]. pose proof (calm_paged _ _ _ _ _ _ C2 (spaces_stack_allocate kernel slot) P) as C3.
  pose proof (calm_interrupts _ _ _ (w 2%nat) C3) as C4. destruct ok; cbn [negb].
  - intros [= <- <-]. split; [done|]. intros p' x' [= <- <-]. split; [by eexists|done].
  - revert C4. generalize (interrupts (w 2%nat) t3). intros t4 C4.
    match goal with |- context [on_files ?f t4] => pose proof (calm_files _ _ _ f C4) as C5; destruct (on_files f t4) as [y t5] end. cbn [snd] in C5.
    intros [= <- <-]. split; [by apply calm_release|done].
Qed.

Lemma available_slot_spec sp s i : available_slot sp s = Some i →
  2 ≤ i < TASK_SLOTS ∧ used s i = false ∧
  ∀ a, sp = Some a → ∀ j, 2 ≤ j < TASK_SLOTS → used s j = true → space (proc s j) ≠ Some a.
Proof.
  unfold available_slot. destruct (existsb _ _) eqn:E; [done|]. intros F. apply find_split in F as (l1 & l2 & L & Fi & _).
  assert (i ∈ slots_from 2) as Hi by (rewrite L; set_solver). apply elem_of_seqZ in Hi.
  split; [lia|]. split; [by apply negb_true_iff|]. intros a -> j Hj Uj Q.
  assert (existsb (owns_the_space s (Some a)) (slots_from 2) = true); [|congruence]. apply existsb_exists. exists j.
  split; [apply list_elem_of_In, elem_of_seqZ; lia|]. unfold owns_the_space. rewrite Uj, Q. cbn. by apply bool_decide_eq_true.
Qed.

(** A task under construction in a slot that is free and stays so. *)
Record constructed (s : kstate K) (i : Z) (x : task) (p : process_state) : Prop := {
  con_slot : 2 ≤ i < TASK_SLOTS ∧ used s i = false;
  con_task : tid x = next_id s ∧ next_id s ≠ 0 ∧ state x = TASK_RUNNABLE ∧ waiting x = None ∧ deadline_active x = false ∧ deadline x = 0;
  con_stack : stack_slot x = i - 1 ∧ stack_top x = RUM_KERNEL_STACK_SLOT_TOP (i - 1);
  con_space : ∃ a, space p = Some a ∧ known_space kernel a (memory s) = true ∧ (owns_space p = false → a = kernel) ∧
    (owns_space p = true → a ≠ kernel ∧ ∀ j, used s j = true → space (get_process s j) ≠ Some a)
}.

Lemma set_stack_core sp x : core_of (set_stack sp x) = core_of x.
Proof. done. Qed.

(** A new task in a slot that was free, and nothing else. *)
Record created_in s (i id : Z) t : Prop := {
  cr_slot : 2 ≤ i < TASK_SLOTS ∧ used s i = false;
  cr_id : id = next_id s ∧ id ≠ 0 ∧ next_id t = wrap32 (id + 1);
  cr_task : used t i = true ∧ tid (get_task t i) = id;
  cr_others : ∀ j, j ≠ i → used t j = used s j ∧ tid (get_task t j) = tid (get_task s j)
}.
Lemma created_calm s i id t u : created_in s i id t → calm true t u → created_in s i id u.
Proof.
  intros [? (? & ? & N) [U I] O] C. constructor; try done.
  - by rewrite (calm_next _ _ _ C).
  - by rewrite (calm_used _ _ _ i C), (calm_tid _ _ _ C).
  - intros j. rewrite (calm_used _ _ _ j C), (calm_tid _ _ _ C). apply O.
Qed.

Lemma publication s u v i x p sp t : registry true s → calm true s u → constructed s i x p →
  calm true (set_next_id (wrap32 (next_id u + 1)) u) v → publish i (set_stack sp x) p v = Some t →
  registry true t ∧ quiet s t ∧ created_in s i (next_id s) t.
Proof.
  intros R C Con Cv Pub. destruct Con as [[Si U] (I & N & St & Wa & Da & De) [S1 S2] (a & Sp & Kn & Sh & Ow)].
  assert (∀ j, used v j = used s j) as Uv by (intros j; rewrite (calm_used _ _ _ j Cv); exact (calm_used _ _ _ j C)).
  assert (∀ j, tid (get_task v j) = tid (get_task s j)) as Iv by (intros j; rewrite (calm_tid _ _ _ Cv j); apply (calm_tid _ _ _ C)).
  assert (next_id v = wrap32 (next_id s + 1)) as Nv by (rewrite (calm_next _ _ _ Cv); cbn; by rewrite (calm_next _ _ _ C)).
  assert (spaces (memory v) = spaces (memory s)) as Mv by (rewrite (calm_spaces _ _ _ Cv); apply (calm_spaces _ _ _ C)).
  split; [|split].
  - eapply publish_registry; [apply (calm_registry _ _ _ Cv)| |done]. constructor.
    + by rewrite Uv.
    + done.
    + cbn. pose proof (reg_next _ _ R) as B. rewrite I, Nv. split; [lia|]. split.
      * intros Q. destruct (decide (next_id s = UINT32_MAX)) as [E|]; [destruct Q; by rewrite E|]. rewrite wrap32_small by lia. lia.
      * intros j. rewrite Uv, Iv. intros Uj. destruct (reg_ids _ _ R j Uj) as [_ L]. specialize (L N). lia.
    + cbn. rewrite S2. split; [done|]. apply slot_top_ok. lia.
    + exists a. rewrite (known_space_same kernel a _ _ Mv). split_and!; try done. intros O. destruct (Ow O) as [Na D]. split; [done|].
      intros j. rewrite Uv. intros Uj. destruct (calm_process _ _ _ Cv j) as [-> _]. change (space (get_process u j) ≠ Some a).
      destruct (calm_process _ _ _ C j) as [-> _]. auto.
  - apply (quiet_trans _ u); [by eapply calm_quiet|]. apply (quiet_trans _ v); [by apply (calm_quiet true) in Cv|].
    apply publish_spec in Pub as ->. split; [done|]. intros j. rewrite published_task. case_decide as E; [|done].
    intros Q. subst j. rewrite <- Uv in U. unfold used in U. by rewrite Q in U.
  - apply publish_spec in Pub as ->. constructor; try done.
    + unfold used. rewrite published_task, decide_True by done. cbn. by rewrite St.
    + intros j Nj. unfold used. rewrite !published_task, decide_False by done. split; [apply Uv|apply Iv].
Qed.

Lemma kernel_known rest s : registry rest s → known_space kernel kernel (memory s) = true ∧ paging_kernel_space kernel (memory s) = Some kernel.
Proof.
  intros R. destruct (reg_space _ _ R _ (registry_cur_used _ _ R)) as (a & _ & Kn). unfold known_space, paging_kernel_space in *.
  apply andb_true_iff in Kn as [-> _]. rewrite Z.eqb_refl. done.
Qed.
Lemma inactive_private_spec a s x : inactive_private kernel a s = Some x → a ≠ kernel ∧ known_space kernel a (memory s) = true.
Proof.
  unfold inactive_private, paging_space_stats. cbn [negb]. destruct (known_space kernel a (memory s)) eqn:Kn; [|done].
  destruct (Z.eqb_spec a kernel); [done|]. done.
Qed.
(** A space no live task of the pool has, and not the kernel's: no task at all has it. *)
Lemma unowned s a i : registry true s → a ≠ kernel → available_slot (Some a) s = Some i → ∀ j, used s j = true → space (get_process s j) ≠ Some a.
Proof.
  intros R N A j Uj. destruct (reg_resident _ _ R) as [B I]. apply available_slot_spec in A as (_ & _ & A). pose proof (reg_range _ _ R j Uj) as H.
  destruct (decide (j = BOOT)) as [->|]; [rewrite (reg_shared _ _ R _ Uj B); congruence|].
  destruct (decide (j = IDLE)) as [->|]; [rewrite (reg_shared _ _ R _ Uj I); congruence|].
  rewrite <- (proc_used _ _ _ R Uj). apply (A a eq_refl); [unfold BOOT, IDLE in *; lia|done].
Qed.

Lemma task_create_ok entry argument owned w s id t : registry true s →
  task_create ops kernel start_address halt_address entry argument owned w s = Some (id, t) → registry true t ∧ quiet s t.
Proof.
  intros R. unfold task_create. case_match; [intros [= _ <-]; by split|]. cbv zeta.
  match goal with |- context [if ?b then available_slot owned s else None] => destruct b eqn:V end; [|intros [= _ <-]; by split].
  destruct (available_slot owned s) as [i|] eqn:A; [|intros [= _ <-]; by split]. apply andb_true_iff in V as [[_ N]%andb_true_iff V]. apply negb_true_iff, Z.eqb_neq in N.
  pose proof (calm_hold _ _ _ (calm_refl _ _ R)) as C0. destruct (task_switch_hold s) as [held s0]. cbn [snd] in C0.
  destruct held; cbn [negb]; [|intros [= _ <-]; split; [apply C0|by eapply calm_quiet]].
  destruct (default _ _) as [tables pages]. destruct (acquire _ _ _ _ _ _ _) as [[r s1]|] eqn:Q; [|done].
  apply (acquire_spec true s s0) in Q as [C1 Q]; [|done]. destruct r as [[p x]|]; [|intros [= _ <-]; split; [apply C1|by eapply calm_quiet]].
  destruct (Q p x eq_refl) as [[f ->] ->]. clear Q.
  destruct (prepare_stack _ _ _ _ _) as [[x' s2]|] eqn:P; [|done].
  assert (calm true s (set_iflag false s1)) as C2 by by calm_set.
  assert (registry true (set_next_id (wrap32 (next_id (set_iflag false s1) + 1)) (set_iflag false s1))) as R2.
  { apply next_id_registry; [apply C2|]. by rewrite (calm_next _ _ _ C2). }
  apply (calm_prepare true _ _ _ _ _ (calm_refl _ _ R2)) in P as [C3 [sp ->]].
  destruct (publish _ _ _ _) as [s3|] eqn:Pub; [|done]. intros [= _ <-].
  assert (registry true s3 ∧ quiet s s3 ∧ created_in s i (next_id s) s3) as (R3 & Q3 & _).
  { eapply (publication s (set_iflag false s1)); [done|done| |exact C3|exact Pub].
    pose proof (available_slot_spec _ _ _ A) as (Hi & U & _). constructor; [done| |done|].
    - split; [|done]. apply (calm_next _ _ _ C0).
    - destruct owned as [a|]; cbn.
      + destruct (inactive_private kernel a s) eqn:IP; [|done]. apply inactive_private_spec in IP as [Na Kn].
        exists a. split_and!; try done. intros _. split; [done|]. by apply (unowned s a i).
      + exists kernel. destruct (kernel_known _ _ (calm_registry _ _ _ C0)) as [_ ->]. destruct (kernel_known _ _ R) as [-> _]. done. }
  assert (calm true s3 (set_iflag (iflag s) (set_created (wrap32 (created s3 + 1)) s3))) as C5 by (calm_set; calm_set; by apply calm_refl).
  apply calm_release in C5. split; [apply C5|]. eapply quiet_trans; [done|by eapply calm_quiet].
Qed.

Lemma publish_process_ok s u i x p fg sh saved id t : registry true s → calm true s u → constructed s i x p →
  publish_process ops kernel start_address halt_address i x p fg sh saved u = Some (id, t) →
  (id = 0 ∧ calm true s t) ∨ (registry true t ∧ quiet s t ∧ created_in s i id t).
Proof.
  intros R C Con. unfold publish_process. assert (calm true s (set_iflag false u)) as C0 by by calm_set.
  revert C0. generalize (set_iflag false u). intros u0 C0. cbv zeta. case_match.
  - destruct (release_stack _ _ _) as [u1|] eqn:E; [|done]. apply (calm_release_stack true s) in E; [|by calm_set].
    match goal with |- context [on_files ?f u1] => pose proof (calm_files _ _ _ f E) as C1; destruct (on_files f u1) as [y u2] end.
    cbn [snd] in C1. intros [= <- <-]. apply calm_release in C1. by left.
  - destruct (prepare_stack _ _ _ _ _) as [[x' s2]|] eqn:P; [|done].
    assert (registry true (set_next_id (wrap32 (next_id u0 + 1)) u0)) as R2.
    { apply next_id_registry; [apply C0|]. rewrite (calm_next _ _ _ C0). apply Con. }
    apply (calm_prepare true (set_next_id (wrap32 (next_id u0 + 1)) u0)) in P as [C3 [sp ->]]; [|calm_set; by apply calm_refl].
    destruct (publish _ _ _ _) as [s3|] eqn:Pub; [|done].
    assert (registry true s3 ∧ quiet s s3 ∧ created_in s i (next_id s) s3) as (R3 & Q3 & Cr).
    { eapply (publication s u0); [done|done| |exact C3|exact Pub]. destruct Con. by constructor. }
    match goal with |- context [upd_console ?f s3] => pose proof (calm_console _ _ _ f (calm_refl _ _ R3)) as C4; destruct (upd_console f s3) as [ok s4] end.
    cbn [snd] in C4. destruct ok; cbn [negb]; [|done].
    assert (calm true s3 (snd (if sh then upd_console (console_mark_shell (Some i)) s4 else (true, s4)))) as C5
      by (case_match; [by apply calm_console|done]).
    destruct (if sh then _ else _) as [ok s5]. cbn [snd] in C5. destruct ok; cbn [negb]; [|done]. intros [= <- <-].
    assert (calm true s3 (set_iflag saved (set_created (wrap32 (created s5 + 1)) s5))) as C6 by (calm_set; by calm_set).
    apply calm_release in C6. right. split; [apply C6|]. split; [eapply quiet_trans; [done|by eapply calm_quiet]|].
    destruct (cr_task _ _ _ _ Cr) as [_ ->]. by eapply created_calm.
Qed.

Lemma create_process_cases given fg sh w s id t : registry true s →
  create_process ops kernel start_address halt_address given fg sh w s = Some (id, t) →
  (id = 0 ∧ calm true s t) ∨ ∃ i, registry true t ∧ quiet s t ∧ created_in s i id t.
Proof.
  intros R. unfold create_process. destruct given as [q|]; [|intros [= <- <-]; left; split; [done|by apply calm_refl]]. case_match; [intros [= <- <-]; left; split; [done|by apply calm_refl]|]. cbv zeta.
  match goal with |- context [if ?b then available_slot (tp_space q) s else None] => destruct b eqn:V end; [|intros [= <- <-]; left; split; [done|by apply calm_refl]].
  destruct (available_slot (tp_space q) s) as [i|] eqn:A; [|intros [= <- <-]; left; split; [done|by apply calm_refl]].
  apply andb_true_iff in V as [V _]. destruct (tp_space q) as [a|] eqn:Ta; [|done].
  match type of V with context [if ?b then inactive_private kernel a s else None] => destruct b eqn:Ad end; [|done].
  destruct (inactive_private kernel a s) as [st|] eqn:IP; [|done]. apply inactive_private_spec in IP as [Na Kn].
  repeat rewrite andb_true_iff in Ad. destruct Ad as [[[[_ N] _] _] _]. apply negb_true_iff, Z.eqb_neq in N.
  pose proof (calm_hold _ _ _ (calm_refl _ _ R)) as C0. destruct (task_switch_hold s) as [held s0]. cbn [snd] in C0.
  destruct held; cbn [negb]; [|intros [= <- <-]; by left].
  destruct (default _ _) as [tables pages]. destruct (acquire _ _ _ _ _ _ _) as [[r s1]|] eqn:Q; [|done].
  apply (acquire_spec true s s0) in Q as [C1 Q]; [|done]. destruct r as [[p x]|]; [|intros [= <- <-]; by left].
  destruct (Q p x eq_refl) as [[f ->] ->]. clear Q. intros Pp. apply (publish_process_ok s) in Pp as [?|?]; [by left|right; by exists i|done|done|].
  pose proof (available_slot_spec _ _ _ A) as (Hi & U & _). constructor; [done| |done|].
  - split; [|done]. apply (calm_next _ _ _ C0).
  - exists a. cbn. split_and!; try done. intros _. split; [done|]. by apply (unowned s a i).
Qed.
Lemma create_process_ok given fg sh w s id t : registry true s →
  create_process ops kernel start_address halt_address given fg sh w s = Some (id, t) → registry true t ∧ quiet s t.
Proof. intros R [[_ C]|(i & Rt & Q & _)]%create_process_cases; [split; [apply C|by eapply calm_quiet]|done|done]. Qed.

(** ** Reaping *)

Record erased (i : Z) s t : Prop := {
  er_tasks : ∀ j, get_task t j = if decide (j = i) then no_task else get_task s j;
  er_processes : ∀ j, get_process t j = if decide (j = i) then no_process else get_process s j;
  er_same : current t = current s ∧ ready t = ready s ∧ next_id t = next_id s ∧ segments t = segments s;
  er_active : paging_active_space (memory t) = paging_active_space (memory s);
  er_known : ∀ a, known_space kernel a (memory t) = true → known_space kernel a (memory s) = true ∧
    paging_directory_address kernel a (memory t) = paging_directory_address kernel a (memory s);
  er_kept : ∀ j a, j ≠ i → used s j = true → space (get_process s j) = Some a → known_space kernel a (memory s) = true →
    known_space kernel a (memory t) = true
}.
Lemma erased_registry i s t : registry true s → 2 ≤ i → i ≠ cur s → erased i s t → registry true t.
Proof.
  intros R Hi Ni [T P (E1 & E2 & E3 & E4) A Kn Ke].
  assert (cur t = cur s) as C by (unfold cur; by rewrite E1).
  assert (∀ j, used t j = if decide (j = i) then false else used s j) as U.
  { intros j. unfold used. rewrite T. by case_decide. }
  destruct R. constructor; try congruence.
  - intros j. rewrite T, C. case_decide; [done|auto].
  - rewrite C, T, decide_False by done. done.
  - intros j. rewrite U. case_decide; [done|auto].
  - intros j. rewrite U, T. case_decide; [done|auto].
  - intros j. rewrite U, T. case_decide; [done|auto].
  - intros j. rewrite U, T, E3. case_decide; [done|auto].
  - intros j k. rewrite !U, !T. repeat case_decide; try done. auto.
  - intros j. rewrite T. case_decide; [|auto]. unfold waits. cbn. split; [done|intros [?|?]; done].
  - intros j. rewrite T. case_decide; [done|auto].
  - rewrite U, T. unfold BOOT in *. rewrite !decide_False by lia. done.
  - rewrite T. unfold IDLE in *. rewrite !decide_False by lia. done.
  - intros j. rewrite U, T. case_decide; [done|auto].
  - intros j. rewrite U, T. case_decide; [done|auto].
  - rewrite E4, C, T, decide_False by done. done.
  - rewrite A, C, P, decide_False by done. done.
  - intros a H. destruct (Kn a H) as [H' ->]. auto.
  - intros j. rewrite U, P. case_decide; [done|]. intros Uj. destruct (reg_space0 j Uj) as (a & Sp & Ka). exists a. eauto.
  - intros j. rewrite U, P. case_decide; [done|auto].
  - intros j. rewrite U, P. case_decide; [done|]. intros Uj O. destruct (reg_owned0 j Uj O) as [N D]. split; [done|].
    intros k. rewrite U, P. case_decide; [done|auto].
  - rewrite !P. unfold BOOT, IDLE in *. by rewrite !decide_False by lia.
Qed.

Context (kfree : Z → paging → bool * paging) (kfree_spaces : ∀ a m, spaces (snd (kfree a m)) = spaces m).

(** The address space of an exited owner goes; every other registered space stays. *)
Lemma destroyed_space a m m' : paging_space_destroy kernel kfree a m = (true, m') →
  paging_active_space m' = paging_active_space m ∧
  (∀ b, known_space kernel b m' = true → known_space kernel b m = true ∧ paging_directory_address kernel b m' = paging_directory_address kernel b m) ∧
  (∀ b, b ≠ a → known_space kernel b m = true → known_space kernel b m' = true).
Proof.
  intros H. apply space_destroy_spec in H as (Na & E1 & E2 & E3 & E4); [|done].
  assert (∀ b, b ≠ a → known_space kernel b m' = known_space kernel b m ∧ get_space kernel b m' = get_space kernel b m) as Q.
  { intros b N. unfold known_space, get_space. rewrite E1, E3, E4. destruct (chain_filter_other a b (chain m)) as [-> ->]; done. }
  split; [unfold paging_active_space; by rewrite E2, E3|]. split.
  - intros b Kb. destruct (decide (b = a)) as [->|N]; [|destruct (Q b N) as [K1 G]; rewrite <- K1; split; [done|]; unfold paging_directory_address; by rewrite K1, G].
    exfalso. unfold known_space in Kb. rewrite E4 in Kb. apply andb_true_iff in Kb as [_ [Kb|Kb]%orb_true_iff]; [lia|].
    apply existsb_exists in Kb as (q & [_ F]%filter_In & G). lia.
  - intros b N. by destruct (Q b N) as [-> _].
Qed.

(** [s1] when the slot's space was destroyed if owned, [m], and its stack released, [s2]. *)
Lemma reap_erased i a s1 s2 m c k : registry true s1 → used s1 i = true → space (get_process s1 i) = Some a →
  current s2 = current s1 ∧ ready s2 = ready s1 ∧ next_id s2 = next_id s1 ∧ segments s2 = segments s1 →
  tasks s2 = tasks s1 → processes s2 = processes s1 → spaces (memory s2) = spaces m →
  (spaces m = spaces (memory s1) ∨ (owns_space (get_process s1 i) = true ∧ paging_space_destroy kernel kfree a (memory s1) = (true, m))) →
  erased i s1 (set_reaped c (put_task i no_task (set_consoles k (put_process i no_process s2)))).
Proof.
  intros R U Sp E ET EP Em Hm. constructor; try done; cbn [memory set_reaped put_task set_tasks set_consoles put_process set_processes].
  - intros j. change (get_task (put_task i no_task (set_consoles k (put_process i no_process s2))) j = if decide (j = i) then no_task else get_task s1 j).
    rewrite get_put_task. case_decide; [done|]. unfold get_task. cbn. by rewrite ET.
  - intros j. change (get_process (put_process i no_process s2) j = if decide (j = i) then no_process else get_process s1 j).
    rewrite get_put_process. case_decide; [done|]. unfold get_process. by rewrite EP.
  - rewrite (active_space_same _ _ Em). destruct Hm as [Hm|[_ Hm]]; [by apply active_space_same|by apply (destroyed_space a)].
  - intros b. rewrite (known_space_same kernel b _ _ Em), (directory_address_same kernel b _ _ Em).
    destruct Hm as [Hm|[_ Hm]]; [by rewrite (known_space_same kernel b _ _ Hm), (directory_address_same kernel b _ _ Hm)|]. by apply (destroyed_space a).
  - intros j b Nj Uj Sj Kb. rewrite (known_space_same kernel b _ _ Em).
    destruct Hm as [Hm|[O Hm]]; [by rewrite (known_space_same kernel b _ _ Hm)|].
    apply (destroyed_space a (memory s1)); [done| |done]. intros ->. apply Nj, (reg_owned _ _ R i U O); [done|congruence].
Qed.

Lemma paged_spec {A : Type} (f : paging → A * paging) s a t : paged f s = Some (a, t) → t = set_memory (snd (f (memory s))) s ∧ a = fst (f (memory s)).
Proof. unfold paged. destruct (f (memory s)). case_match; [done|]. by intros [= <- <-]. Qed.

Lemma reap_slot_ok i s b t : registry true s → 2 ≤ i → reap_slot ops kernel kfree i s = Some (b, t) → registry true t ∧ quiet s t.
Proof.
  intros R Hi. unfold reap_slot. destruct (reapable i s) eqn:Re; [|intros [= _ <-]; by split]. cbn [negb]. cbv zeta.
  unfold reapable in Re. repeat rewrite andb_true_iff in Re. destruct Re as [[[[[[[[Ex Ni] _] _] _] _] _] _] _].
  apply in_state_eq in Ex. apply negb_true_iff, bool_decide_eq_false in Ni.
  assert (i ≠ cur s) as Nc by (intros ->; apply Ni, (reg_current _ _ R)). assert (used s i = true) as Ui by (by eapply used_state).
  match goal with |- context [on_files ?f s] => pose proof (calm_files _ _ _ f (calm_refl _ _ R)) as C1; destruct (on_files f s) as [[e f'] s1] end.
  cbn [snd] in C1. assert (calm true s (upd_proc i (set_filesystem (default no_context f')) s1)) as C2 by by calm_proc.
  revert C2. generalize (upd_proc i (set_filesystem (default no_context f')) s1). clear s1 C1. intros s1 C1.
  case_match; [intros [= _ <-]; split; [apply C1|by eapply calm_quiet]|].
  rewrite (proc_used _ _ _ R Ui). destruct (reg_space _ _ R i Ui) as (a & Sp & Ka). rewrite Sp.
  pose proof (calm_registry _ _ _ C1) as R1. destruct (calm_process _ _ _ C1 i) as [Sp1 Ow1]. rewrite Sp in Sp1. rewrite <- Ow1.
  assert (used s1 i = true) as U1 by by rewrite (calm_used _ _ _ i C1).
  match goal with |- context [if owns_space (get_process s1 i) then ?x else ?y] => destruct (if owns_space (get_process s1 i) then x else y) as [[ok s2]|] eqn:D end; [|done].
  assert (∃ m, s2 = set_memory m s1 ∧ if ok then (spaces m = spaces (memory s1) ∨
    (owns_space (get_process s1 i) = true ∧ paging_space_destroy kernel kfree a (memory s1) = (true, m))) else m = memory s1) as (m & -> & Hm).
  { destruct (owns_space _).
    - apply paged_spec in D as [-> ->]. eexists. split; [done|]. destruct (paging_space_destroy _ _ _ _) as [[] m] eqn:Q; cbn; [by right|].
      by apply space_destroy_fail in Q.
    - injection D as <- <-. exists (memory s1). split; [by destruct s1|by left]. }
  destruct ok; cbn [negb]; [|subst m; intros [= _ <-]; destruct s1; split; [apply C1|exact (calm_quiet _ _ _ C1)]].
  destruct (paged (paging_kernel_stack_release kernel _) _) as [[ok s3]|] eqn:Q; [|done]. destruct ok; cbn [negb]; [|done].
  apply paged_spec in Q as [-> _]. unfold upd_console. destruct (console_detach _ _) as [ok k]. destruct ok; cbn [negb]; [|done]. intros [= _ <-].
  match goal with |- registry true ?u ∧ _ => assert (erased i s1 u) as Er end.
  { apply (reap_erased i a s1 _ m); try done. cbn. apply spaces_stack_release. }
  split; [apply (erased_registry i s1); [done|done|by rewrite (calm_cur _ _ _ C1)|done]|].
  apply (quiet_trans _ s1); [by eapply calm_quiet|]. split; [done|]. intros j. rewrite (er_tasks _ _ _ Er). destruct (decide (j = i)) as [->|]; [|done].
  intros Q. destruct (calm_state _ _ _ C1 i) as [?|[? ?]]; congruence.
Qed.

Lemma reap_locked_ok i s b t : registry true s → 2 ≤ i → reap_locked ops kernel kfree i s = Some (b, t) → registry true t ∧ quiet s t.
Proof.
  intros R Hi. unfold reap_locked. destruct (reap_slot _ _ _ _ _) as [[r u]|] eqn:E; [|done]. intros [= _ <-].
  assert (calm true s (set_iflag false s)) as C by (calm_set; by apply calm_refl).
  apply reap_slot_ok in E as [Ru Qu]; [|apply C|done].
  assert (calm true u (set_iflag (iflag s) u)) as C' by (calm_set; by apply calm_refl).
  split; [apply C'|]. eapply quiet_trans; [by eapply calm_quiet|]. eapply quiet_trans; [done|by eapply calm_quiet].
Qed.

Lemma for_slots_ok {A : Type} l (body : Z → A → kstate K → option (A * kstate K)) a s r t :
  (∀ i a u r v, i ∈ l → registry true u → body i a u = Some (r, v) → registry true v ∧ quiet u v) →
  registry true s → for_slots l body a s = Some (r, t) → registry true t ∧ quiet s t.
Proof.
  intros H. revert a s. induction l as [|i l IH]; intros a s R; cbn; [intros [= _ <-]; by split|].
  destruct (body i a s) as [[a' u]|] eqn:E; [|done]. apply H in E as [Ru Qu]; [|set_solver|done]. intros F.
  apply IH in F as [Rt Qt]; [|intros; eapply H; eauto; set_solver|done]. split; [done|by eapply quiet_trans].
Qed.
Lemma reap_exited_ok all s n t : registry true s → reap_exited ops kernel kfree all s = Some (n, t) → registry true t ∧ quiet s t.
Proof.
  intros R. unfold reap_exited. case_match; [intros [= _ <-]; by split|]. apply for_slots_ok; [|done].
  intros i a u r v [Hi _]%elem_of_seqZ Ru. case_match; [intros [= _ <-]; by split|].
  destruct (reap_locked _ _ _ _ _) as [[b x]|] eqn:E; [|done]. intros [= _ <-]. by eapply reap_locked_ok.
Qed.
Lemma task_reap_process_ok id s b t : registry true s → task_reap_process ops kernel kfree id s = Some (b, t) → registry true t ∧ quiet s t.
Proof.
  intros R. unfold task_reap_process. case_match; [intros [= _ <-]; by split|].
  destruct (List.find _ _) as [i|] eqn:F; [|intros [= _ <-]; by split]. apply reap_locked_ok; [done|].
  apply List.find_some in F as [F _]. apply list_elem_of_In, elem_of_seqZ in F. lia.
Qed.
Lemma schedule_resume_ok s t : registry true s → schedule_resume ops kernel kfree s = Some t → registry true t ∧ quiet s t.
Proof.
  intros R. unfold schedule_resume. destruct (reap_exited _ _ _ _ _) as [[n u]|] eqn:E; [|done]. intros [= <-]. by eapply reap_exited_ok.
Qed.

(** ** Operations that give up the processor *)

(** Between two states at rest: at most one switch of contexts, quiet around it. *)
Inductive evolves : nat → kstate K → kstate K → Prop :=
| evolves_quiet s t : quiet s t → evolves 0 s t
| evolves_dispatch s u v t : quiet s u → registry false u → dispatched u v → pick u ≠ cur u → quiet v t → evolves 1 s t.
Definition moves_on (n : nat) s t : Prop := registry true t ∧ evolves n s t.

Lemma quiet_refl s : quiet s s.
Proof. done. Qed.
Lemma evolves_before n s t u : quiet s t → evolves n t u → evolves n s u.
Proof.
  intros Q E. destruct E as [t u Q'|t a b u Q1 R D P Q2]; [apply evolves_quiet; by eapply quiet_trans|].
  eapply evolves_dispatch; [by eapply quiet_trans|done..].
Qed.
Lemma evolves_after n s t u : evolves n s t → quiet t u → evolves n s u.
Proof.
  intros E Q. destruct E as [s t Q'|s a b t Q1 R D P Q2]; [apply evolves_quiet; by eapply quiet_trans|].
  eapply evolves_dispatch; [done..|by eapply quiet_trans].
Qed.
Lemma moves_refl s : registry true s → moves_on 0 s s.
Proof. intros R. split; [done|by constructor]. Qed.
Lemma moves_calm s t : calm true s t → moves_on 0 s t.
Proof. intros C. split; [apply C|constructor; by eapply calm_quiet]. Qed.
Lemma moves_quiet s t : registry true t ∧ quiet s t → moves_on 0 s t.
Proof. intros [R Q]. split; [done|by constructor]. Qed.
Lemma moves_before n s t u : quiet s t → moves_on n t u → moves_on n s u.
Proof. intros Q [R E]. split; [done|by eapply evolves_before]. Qed.

Lemma registry_mid s : registry true s → registry false s.
Proof. intros R. pose proof (registry_cur_used _ _ R). destruct R. by constructor. Qed.
Lemma depart_quiet s x : registry true s → quiet s (put_task (cur s) x s).
Proof.
  intros R. split; [done|]. intros i E. rewrite get_put_task. case_decide as D; [|done]. subst i.
  pose proof (reg_rest _ _ R) as Q. cbn in Q. congruence.
Qed.
Lemma schedule_switched u b t : schedule kernel switch_esp u = Some (b, t) → if b then pick u ≠ cur u else pick u = cur u.
Proof.
  rewrite schedule_eq. case_match; [done|]. destruct (Z.eqb_spec (pick u) (cur u)); [by intros [= <- _]|].
  case_match; [|done]. destruct (paged _ _) as [[ok m]|]; [|done]. case_match; [done|]. destruct (gdt_set_kernel_context _ _ _). case_match; [done|].
  by intros [= <- _].
Qed.
(** A call that keeps its own context changes nothing; one that switches is the dispatch. *)
Lemma schedule_moves s u b t : registry true s → registry false u → quiet s u → schedule kernel switch_esp u = Some (b, t) →
  moves_on (if b then 1 else 0) s t.
Proof.
  intros Rs R Q E. pose proof (schedule_switched _ _ _ E) as P. apply (schedule_dispatched false) in E as D; [|done].
  split; [by apply (dispatched_registry false u)|]. destruct b; [by eapply (evolves_dispatch s u t t)|]. constructor.
  assert (cur u = cur s) as C by (unfold cur; by rewrite (proj1 Q)). split.
  - by rewrite (disp_current _ _ D), P, C, (reg_current _ _ Rs).
  - intros i Ei. rewrite (dispatched_state _ _ _ _ R D). rewrite decide_False.
    + destruct Q as [_ Q]. specialize (Q i Ei). rewrite Q. done.
    + rewrite P, C. intros ->. pose proof (reg_rest _ _ Rs) as F. cbn in F. congruence.
Qed.
Definition cost {A : Type} (r : progress A) : nat := match r with Switched => 1 | Returned _ => 0 end.
Lemma scheduled_moves {A : Type} (k : kstate K → option (A * kstate K)) s u r t : registry true s → registry false u → quiet s u →
  (∀ v r w, registry true v → k v = Some (r, w) → registry true w ∧ quiet v w) →
  scheduled kernel switch_esp k u = Some (r, t) → moves_on (cost r) s t.
Proof.
  intros Rs R Q Hk. unfold scheduled. destruct (schedule _ _ _) as [[b v]|] eqn:S; [|done]. apply (schedule_moves s) in S; [|done..].
  destruct b; [by intros [= <- <-]|]. destruct (k v) as [[a w]|] eqn:E; [|done]. intros [= <- <-].
  destruct S as [Rv Ev]. apply Hk in E as [Rw Qw]; [|done]. split; [done|by eapply evolves_after].
Qed.

(** An early return. *)
Ltac refused := match goal with |- (if ?b then _ else _) = _ → _ => destruct b; [intros [= <- <-]|] end.

Lemma calm_iflag_now s b : registry true s → calm true s (set_iflag b s).
Proof. intros R. calm_set. by apply calm_refl. Qed.
Lemma set_iflag_quiet b s : registry true s → registry true (set_iflag b s) ∧ quiet s (set_iflag b s).
Proof. intros R. pose proof (calm_iflag_now s b R) as C. split; [apply C|by eapply calm_quiet]. Qed.

Lemma task_yield_ok s r t : registry true s → task_yield kernel switch_esp s = Some (r, t) → moves_on (cost r) s t.
Proof.
  intros R. unfold task_yield. case_match; [intros [= <- <-]; by apply moves_refl|].
  destruct (_ || switch_protected s) eqn:G; [intros [= <- <-]; by apply moves_refl|]. intros E.
  destruct (set_iflag_quiet false s R) as [R1 Q1].
  assert (cur (set_iflag false s) ≠ IDLE) as Ni by (change (cur s ≠ IDLE); repeat rewrite orb_false_iff in G; lia).
  revert E R1 Q1 Ni. change (cur s) with (cur (set_iflag false s)) at 1. generalize (set_iflag false s). intros u E R1 Q1 Ni.
  destruct (running_waits_not u (cur u) R1 (reg_rest _ _ R1)) as (W1 & W2 & W3).
  eapply scheduled_moves; [exact R| |eapply quiet_trans; [exact Q1|by apply depart_quiet]| |exact E].
  - apply depart_registry; [done|]. constructor; try done. unfold waits. cbn. rewrite W1, W2. split; [done|intros [?|?]; congruence].
  - intros v r' w Rv [= _ <-]. by apply set_iflag_quiet.
Qed.

Lemma wait_tail_ok v r w : registry true v → wait_tail v = Some (r, w) → registry true w ∧ quiet v w.
Proof. intros R. unfold wait_tail. case_match; [done|]. intros [= _ <-]. by apply set_iflag_quiet. Qed.
Lemma wait_common_ok e observed timed duration s r t : registry true s →
  wait_common kernel switch_esp e observed timed duration s = Some (r, t) → moves_on (cost r) s t.
Proof.
  intros R. unfold wait_common. destruct (_ || in_irq s) eqn:G0; [intros [= <- <-]; by apply moves_refl|].
  destruct (_ || (timed && (duration >=? TIMER_HALF_RANGE))) eqn:G; [intros [= <- <-]; by apply moves_refl|].
  do 3 (refused; [by apply moves_refl|]). intros E.
  destruct (set_iflag_quiet false s R) as [R1 Q1].
  assert (cur (set_iflag false s) ≠ IDLE) as Ni by (change (cur s ≠ IDLE); repeat rewrite orb_false_iff in G; lia).
  assert (e ≠ None ∨ timed = true) as W by (repeat rewrite orb_false_iff in G0; destruct e, timed; naive_solver).
  revert E R1 Q1 Ni. change (cur s) with (cur (set_iflag false s)) at 1. generalize (set_iflag false s). intros u E R1 Q1 Ni.
  eapply scheduled_moves; [exact R| |eapply quiet_trans; [exact Q1|by apply depart_quiet]|apply wait_tail_ok|exact E].
  apply depart_registry; [done|]. constructor; try done; cbn; by intros ->.
Qed.

(** *** Exit *)

Lemma calm_clear_wait s t : calm true s t → calm true s (upd_task (cur t) clear_wait t).
Proof.
  intros C. pose proof (calm_registry _ _ _ C) as R. destruct (running_waits_not t (cur t) R (reg_rest _ _ R)) as (W1 & W2 & W3).
  eapply calm_minor; [done|]. pose proof (registry_cur_used _ _ R) as U. constructor; try done.
  - intros j. rewrite get_upd_task. case_decide as E; [|done]. subst j. unfold core_of. cbn. by rewrite W1, W2, W3.
  - intros j E. rewrite get_upd_task. case_decide as D; [|done]. subst j. unfold used in U. by rewrite E in U.
Qed.
Lemma calm_record_fault s t f a : calm true s t → calm true s (record_fault f a t).
Proof.
  intros C. unfold record_fault. destruct f; [|done]. calm_proc. by apply calm_cur_task.
Qed.
Lemma calm_orphan rest s t i : calm rest s t → calm rest s (orphan i t).
Proof. intros C. unfold orphan. apply calm_cancel_slot. by calm_proc. Qed.
Lemma calm_orphan_all rest s t m : calm rest s t → calm rest s (orphan_all m t).
Proof. intros C. unfold orphan_all. apply calm_for_range; [done|]. intros i u _ Cu. case_match; [by apply calm_orphan|done]. Qed.
Lemma calm_notify_parent rest s t : calm rest s t → calm rest s (notify_parent t).
Proof. intros C. unfold notify_parent. case_match; [done|]. case_match; [|done]. case_match; repeat apply calm_signal; done. Qed.

Lemma leave_registry_ok s : registry true s → cur s ≠ BOOT → cur s ≠ IDLE → registry false (leave_registry s) ∧ quiet s (leave_registry s).
Proof.
  intros R Nb Ni. unfold leave_registry. pose proof (calm_orphan_all _ _ _ (abandoned s) (calm_refl _ _ R)) as C1.
  revert C1. generalize (orphan_all (abandoned s) s). intros s1 C1. cbv zeta.
  match goal with |- context [upd_console ?f s1] => pose proof (calm_console _ _ _ f C1) as C2; destruct (upd_console f s1) as [discard s2] end. cbn [snd] in C2.
  assert (calm true s (if discard then set_keys (keyboard_discard_input (keys s2)) s2 else s2)) as C3 by (case_match; [by calm_set|done]).
  revert C3. generalize (if discard then set_keys (keyboard_discard_input (keys s2)) s2 else s2). clear s1 C1 s2 C2. intros s1 C1.
  pose proof (calm_registry _ _ _ C1) as R1. rewrite <- (calm_cur _ _ _ C1) in Nb, Ni.
  destruct (running_waits_not s1 (cur s1) R1 (reg_rest _ _ R1)) as (W1 & W2 & W3).
  assert (registry false (upd_task (cur s1) (set_state TASK_EXITED) s1)) as R2.
  { apply depart_registry; [done|]. constructor; try done. unfold waits. cbn. rewrite W1, W2. split; [done|intros [?|?]; congruence]. }
  pose proof (depart_quiet s1 (set_state TASK_EXITED (get_task s1 (cur s1))) R1) as Q2. fold (upd_task (cur s1) (set_state TASK_EXITED) s1) in Q2.
  revert R2 Q2. generalize (upd_task (cur s1) (set_state TASK_EXITED) s1). intros s2 R2 Q2.
  assert (calm false s2 (notify_parent (set_exited (wrap32 (exited s2 + 1)) s2))) as C3 by (apply calm_notify_parent; calm_set; by apply calm_refl).
  split; [apply C3|]. eapply quiet_trans; [by eapply calm_quiet|]. eapply quiet_trans; [done|by eapply calm_quiet].
Qed.

Lemma terminate_ok why code f a w s t : registry true s → terminate_current ops kernel switch_esp why code f a w s = Some t → moves_on 1 s t.
Proof.
  intros R. unfold terminate_current. destruct (_ || switch_protected s) eqn:G; [done|]. repeat rewrite orb_false_iff in G.
  destruct G as [[[[_ _] Nb] Ni] _]. apply Z.eqb_neq in Nb, Ni. cbv zeta.
  assert (calm true s (upd_task (cur s) clear_wait (set_iflag false s))) as C1 by exact (calm_clear_wait s _ (calm_iflag_now s false R)).
  revert C1. generalize (upd_task (cur s) clear_wait (set_iflag false s)). intros s1 C1.
  match goal with |- context [record_fault f a ?x] => assert (calm true s (record_fault f a x)) as C2 by (apply calm_record_fault; by calm_proc);
    revert C2; generalize (record_fault f a x) end. intros s2 C2.
  match goal with |- context [interrupts (w 0%nat) ?x] => assert (calm true s (interrupts (w 0%nat) x)) as C3 by (apply calm_interrupts; by calm_set);
    revert C3; generalize (interrupts (w 0%nat) x) end. intros s3 C3.
  match goal with |- context [on_files ?g s3] => pose proof (calm_files _ _ _ g C3) as C4; destruct (on_files g s3) as [[r tb] s4] end. cbn [snd] in C4.
  assert (calm true s (upd_proc (cur s4) (set_handles (default ∅ tb)) s4)) as C5 by by calm_proc.
  revert C5. generalize (upd_proc (cur s4) (set_handles (default ∅ tb)) s4). intros s5 C5. case_match; [done|].
  assert (calm true s (set_iflag false (interrupts (w 1%nat) s5))) as C6 by (calm_set; by apply calm_interrupts).
  revert C6. generalize (set_iflag false (interrupts (w 1%nat) s5)). intros s6 C6.
  destruct (leave_registry_ok s6) as [R7 Q7]; [apply C6|by rewrite (calm_cur _ _ _ C6)..|].
  destruct (schedule _ _ _) as [[[] u]|] eqn:S; [|done..]. intros [= <-].
  eapply (schedule_moves s) in S; [exact S|done|done|]. eapply quiet_trans; [by eapply calm_quiet|done].
Qed.

(** Operations that either finish where they are or give up the processor once. *)
Lemma cancel_current_ok w s r t : registry true s → task_cancel_current_if_requested ops kernel switch_esp w s = Some (r, t) →
  match r with Returned _ => t = s | Switched => moves_on 1 s t end.
Proof.
  intros R. unfold task_cancel_current_if_requested. case_match; [|by intros [= <- <-]].
  destruct (terminate_current _ _ _ _ _ _ _ _ _) as [u|] eqn:E; [|done]. intros [= <- <-]. by eapply terminate_ok.
Qed.
Lemma cancel_current_moves w s r t : registry true s → task_cancel_current_if_requested ops kernel switch_esp w s = Some (r, t) → ∃ n, moves_on n s t.
Proof. intros R E. apply cancel_current_ok in E; [|done]. destruct r; [exists 0%nat; subst; by apply moves_refl|by exists 1%nat]. Qed.

Lemma moves_after n s t u : moves_on n s t → registry true u ∧ quiet t u → moves_on n s u.
Proof. intros [_ E] [R Q]. split; [done|by eapply evolves_after]. Qed.

Lemma user_return_ok f a w s r t : registry true s → task_on_user_return ops kernel switch_esp f a w s = Some (r, t) → ∃ n, moves_on n s t.
Proof.
  intros R. unfold task_on_user_return. destruct f as [f|]; [|intros [= _ <-]; exists 0%nat; by apply moves_refl].
  case_match; [intros [= _ <-]; exists 0%nat; by apply moves_refl|]. case_match; [done|].
  pose proof (calm_cur_task _ _ _ (set_user_frame f) (calm_refl _ _ R) (λ x, eq_refl)) as C. revert C.
  generalize (upd_task (cur s) (set_user_frame f) s). intros s1 C. pose proof (calm_registry _ _ _ C) as R1.
  destruct (task_cancel_current_if_requested _ _ _ _ s1) as [[r1 s2]|] eqn:E1; [|done]. apply cancel_current_ok in E1 as M1; [|done].
  destruct r1 as [u|]; [subst s2|intros [= _ <-]; exists 1%nat; eapply moves_before; [by eapply calm_quiet|done]].
  case_match; [|intros E2; apply cancel_current_moves in E2 as [n M2]; [|done]; exists n; eapply moves_before; [by eapply calm_quiet|done]].
  destruct (schedule _ _ _) as [[b s3]|] eqn:S; [|done]. apply (schedule_moves s1) in S; [|done|by apply registry_mid|done].
  destruct b; [intros [= _ <-]; exists 1%nat; eapply moves_before; [by eapply calm_quiet|done]|].
  destruct S as [R3 Q3]. inversion Q3 as [? ? Q|]; subst. intros E3. apply cancel_current_moves in E3 as [n M3]; [|done].
  exists n. eapply moves_before; [by eapply calm_quiet|]. by eapply moves_before.
Qed.
Lemma user_return_resume_ok w s r t : registry true s → task_on_user_return_resume ops kernel kfree switch_esp w s = Some (r, t) → ∃ n, moves_on n s t.
Proof.
  intros R. unfold task_on_user_return_resume. destruct (schedule_resume _ _ _ _) as [u|] eqn:E; [|done].
  apply schedule_resume_ok in E as [Ru Qu]; [|done]. intros F. apply cancel_current_moves in F as [n M]; [|done]. exists n. by eapply moves_before.
Qed.
Lemma start_task_ok w s r t : registry true s → start_task ops kernel kfree switch_esp w s = Some (r, t) → ∃ n, moves_on n s t.
Proof.
  intros R. unfold start_task. destruct (schedule_resume _ _ _ _) as [u|] eqn:E; [|done]. apply schedule_resume_ok in E as [Ru Qu]; [|done].
  case_match; [|intros [= _ <-]; exists 0%nat; eapply moves_before; [done|]; by apply moves_quiet, set_iflag_quiet].
  destruct (task_cancel_current_if_requested _ _ _ _ u) as [[r1 s2]|] eqn:F; [|done]. apply cancel_current_ok in F as M; [|done].
  destruct r1; [subst|]; intros [= _ <-]; [exists 0%nat; eapply moves_before; [done|]; by apply moves_quiet, set_iflag_quiet|].
  exists 1%nat. by eapply moves_before.
Qed.
Lemma idle_turn_ok w s r t : registry true s → idle_turn ops kernel kfree switch_esp w s = Some (r, t) → ∃ n, moves_on n s t.
Proof.
  intros R. unfold idle_turn. destruct (schedule_resume _ _ _ _) as [u|] eqn:E; [|done]. apply schedule_resume_ok in E as [Ru Qu]; [|done].
  cbv zeta. destruct (set_iflag_quiet false u Ru) as [R1 Q1]. case_match.
  - intros F. eapply (scheduled_moves _ s) in F; [by eexists|done|by apply registry_mid|by eapply quiet_trans|].
    intros v r' x Rv [= _ <-]. by apply set_iflag_quiet.
  - intros [= _ <-]. exists 0%nat. eapply moves_before; [done|]. apply moves_calm. calm_set. apply calm_interrupts. calm_set. calm_set. by apply calm_refl.
Qed.

Lemma task_wait_ok e o s r t : registry true s → task_wait kernel switch_esp e o s = Some (r, t) → moves_on (cost r) s t.
Proof.
  intros R. unfold task_wait. destruct (wait_common _ _ _ _ _ _ _) as [[x u]|] eqn:E; [|done]. intros [= <- <-].
  apply wait_common_ok in E; [|done]. by destruct x.
Qed.
Lemma task_sleep_ok ms s r t : registry true s → task_sleep kernel switch_esp ms s = Some (r, t) → ∃ n, moves_on n s t.
Proof.
  intros R. unfold task_sleep. case_match; [|intros [= _ <-]; exists 0%nat; by apply moves_refl]. case_match.
  - destruct (task_yield _ _ _) as [[x u]|] eqn:E; [|done]. intros [= _ <-]. apply task_yield_ok in E; [by eexists|done].
  - unfold task_wait_for. destruct (wait_common _ _ _ _ _ _ _) as [[x u]|] eqn:E; [|done]. intros [= _ <-]. apply wait_common_ok in E; [by eexists|done].
Qed.
Lemma resumed_ok {A : Type} (tail : kstate K → option (A * kstate K)) s r t : registry true s →
  (∀ v r w, registry true v → tail v = Some (r, w) → registry true w ∧ quiet v w) →
  match schedule_resume ops kernel kfree s with Some u => tail u | None => None end = Some (r, t) → registry true t ∧ quiet s t.
Proof.
  intros R H. destruct (schedule_resume _ _ _ _) as [u|] eqn:E; [|done]. apply schedule_resume_ok in E as [Ru Qu]; [|done].
  intros F. apply H in F as [Rt Qt]; [|done]. split; [done|by eapply quiet_trans].
Qed.
Lemma yield_resume_ok s r t : registry true s → task_yield_resume ops kernel kfree s = Some (r, t) → registry true t ∧ quiet s t.
Proof. intros R. apply resumed_ok; [done|]. intros v r' w Rv [= _ <-]. by apply set_iflag_quiet. Qed.
Lemma wait_resume_ok s r t : registry true s → wait_resume ops kernel kfree s = Some (r, t) → registry true t ∧ quiet s t.
Proof. intros R. apply resumed_ok; [done|]. apply wait_tail_ok. Qed.
Lemma sleep_resume_ok b s r t : registry true s → task_sleep_resume ops kernel kfree b s = Some (r, t) → registry true t ∧ quiet s t.
Proof.
  intros R. unfold task_sleep_resume. destruct b.
  - destruct (wait_resume _ _ _ _) as [[x u]|] eqn:E; [|done]. intros [= _ <-]. by eapply wait_resume_ok.
  - destruct (task_yield_resume _ _ _ _) as [[x u]|] eqn:E; [|done]. intros [= _ <-]. by eapply yield_resume_ok.
Qed.

Definition child_cost (r : child_progress) : nat := match r with ChildBlocked => 1 | _ => 0 end.
Lemma wait_child_pass_ok id nohang w s r t : registry true s → wait_child_pass kernel switch_esp id nohang w s = Some (r, t) → moves_on (child_cost r) s t.
Proof.
  intros R. unfold wait_child_pass. refused; [by apply moves_refl|]. cbv zeta. destruct (List.find _ _); [intros [= <- <-]; by apply moves_refl|].
  refused; [by apply moves_refl|]. refused; [by apply moves_refl|].
  pose proof (calm_interrupts _ _ _ w (calm_refl _ _ R)) as C. revert C. generalize (interrupts w s). intros s1 C.
  destruct (task_wait _ _ _ _ _) as [[x u]|] eqn:E; [|done]. intros [= <- <-]. apply task_wait_ok in E; [|apply C].
  apply (moves_before _ _ s1); [by eapply calm_quiet|]. by destruct x as [[]|].
Qed.
Lemma wait_child_loop_ok n id nohang w s r t : registry true s → wait_child_loop kernel switch_esp n id nohang w s = Some (r, t) → moves_on (child_cost r) s t.
Proof.
  revert s. induction n as [|n IH]; intros s R; cbn; [intros [= <- <-]; by apply moves_refl|].
  destruct (wait_child_pass _ _ _ _ _ _) as [[x u]|] eqn:E; [|done]. apply wait_child_pass_ok in E; [|done].
  destruct x; try by intros [= <- <-]. destruct E as [Ru Eu]. inversion Eu as [? ? Q|]; subst. intros F. apply IH in F; [|done]. by eapply moves_before.
Qed.
Lemma wait_child_ok id nohang given w s r t : registry true s → task_wait_child kernel switch_esp id nohang given w s = Some (r, t) → moves_on (child_cost r) s t.
Proof.
  intros R. unfold task_wait_child. do 3 (refused; [by apply moves_refl|]). by apply wait_child_loop_ok.
Qed.
Lemma wait_child_resume_ok id nohang w s r t : registry true s →
  task_wait_child_resume ops kernel kfree switch_esp id nohang w s = Some (r, t) → moves_on (child_cost r) s t.
Proof.
  intros R. unfold task_wait_child_resume. destruct (wait_resume _ _ _ _) as [[x u]|] eqn:E; [|done]. apply wait_resume_ok in E as [Ru Qu]; [|done].
  case_match; [intros F; apply wait_child_loop_ok in F; [|done]; by eapply moves_before|]. intros [= <- <-]. by apply moves_quiet.
Qed.
Lemma wait_process_ok id given w s r t : registry true s → task_wait_process kernel switch_esp id given w s = Some (r, t) → ∃ n, moves_on n s t.
Proof.
  intros R. unfold task_wait_process. refused; [exists 0%nat; by apply moves_refl|]. destruct (task_query _ _); [|intros [= _ <-]; exists 0%nat; by apply moves_refl].
  case_match; [|intros [= _ <-]; exists 0%nat; by apply moves_refl].
  destruct (task_wait_child _ _ _ _ _ _ _) as [[x u]|] eqn:E; [|done]. intros [= _ <-]. apply wait_child_ok in E; [by eexists|done].
Qed.

(** *** Requests that change only flags, the console or the filesystem *)

Lemma calm_mark_shell rest s t id : calm rest s t → calm rest s (snd (task_mark_foreground_shell id t)).
Proof. intros C. unfold task_mark_foreground_shell. case_match; [done|]. case_match; [by apply calm_console|done]. Qed.
Lemma calm_mark_command rest s t id text : calm rest s t → calm rest s (snd (task_mark_shell_command id text t)).
Proof.
  intros C. unfold task_mark_shell_command. case_match; [|done]. case_match; [done|]. case_match; [|done].
  match goal with |- context [upd_console ?f t] => pose proof (calm_console _ _ _ f C) as C1; destruct (upd_console f t) as [ok t1] end.
  cbn [snd] in C1. destruct ok; cbn [negb snd]; [|done]. by calm_proc.
Qed.
Lemma calm_session_control rest s t action path : calm rest s t → calm rest s (snd (task_session_control ops action path t)).
Proof.
  intros C. unfold task_session_control. do 2 (case_match; [done|]). case_match; [|done]. case_match; [|done]. case_match; [done|]. case_match.
  - match goal with |- context [on_files ?f t] => pose proof (calm_files _ _ _ f C) as C1; destruct (on_files f t) as [[e c] t1] end.
    cbn [snd] in C1 |- *. by calm_proc.
  - match goal with |- context [upd_console ?f t] => pose proof (calm_console _ _ _ f C) as C1; destruct (upd_console f t) as [ok t1] end. done.
Qed.
Lemma calm_foreground_end rest s t id : calm rest s t → calm rest s (snd (task_foreground_end id t)).
Proof. intros C. unfold task_foreground_end. case_match; [done|]. case_match; [by calm_set|done]. Qed.
Lemma calm_request_termination rest s t id session : calm rest s t → calm rest s (snd (task_request_termination id session t)).
Proof.
  intros C. unfold task_request_termination. do 2 (case_match; [done|]). cbv zeta. destruct (last_slot _) as [i|]; [|done].
  match goal with |- context [if ?b then (- RUM_EACCES, t) else _] => destruct b; [done|] end. destruct (in_state t i TASK_EXITED); [done|].
  by apply calm_cancel_slot.
Qed.

Lemma collect_child_ok id s b t : registry true s → task_collect_child ops kernel kfree id s = Some (b, t) → registry true t ∧ quiet s t.
Proof.
  intros R. unfold task_collect_child. refused; [by split|]. destruct (task_query _ _ _); [|intros [= _ <-]; by split]. refused; [by split|].
  assert (∀ l ok u, calm true s u → calm true s (snd (foldl (λ '(ok, s) i, collect_body id i ok s) (ok, u) l))) as H.
  { induction l as [|i l IH]; intros ok u C; cbn; [done|]. unfold collect_body at 2. case_match; [|by apply IH].
    pose proof (calm_foreground_end _ _ _ id C) as C1. destruct (task_foreground_end id u) as [ok' u']. by apply IH. }
  specialize (H (slots_from 2) true s (calm_refl _ _ R)). destruct (foldl _ _ _) as [ok u]. cbn [snd] in H. case_match.
  - intros E. apply task_reap_process_ok in E as [Rt Qt]; [|apply H]. split; [done|]. eapply quiet_trans; [by eapply calm_quiet|done].
  - intros [= _ <-]. split; [apply H|by eapply calm_quiet].
Qed.
Lemma exit_shell_ok w s r t : registry true s → task_exit_shell_if_requested ops kernel switch_esp w s = Some (r, t) → ∃ n, moves_on n s t.
Proof.
  intros R. unfold task_exit_shell_if_requested. case_match; [|intros [= _ <-]; exists 0%nat; by apply moves_refl].
  case_match; [|intros [= _ <-]; exists 0%nat; by apply moves_refl]. unfold task_exit_with_status.
  destruct (terminate_current _ _ _ _ _ _ _ _ _) as [u|] eqn:E; [|done]. intros [= _ <-]. apply terminate_ok in E; [by eexists|done].
Qed.
Lemma user_fault_ok f a w s t : registry true s → task_exit_from_user_fault ops kernel switch_esp f a w s = Some t → moves_on 1 s t.
Proof. intros R. unfold task_exit_from_user_fault. destruct f; [|done]. case_match; [done|]. by apply terminate_ok. Qed.

(** ** Every operation

    One step of the system: a whole operation of task.c, run by the context that holds
    the processor or by an interrupt, up to its return or its switch; or code elsewhere. *)
Inductive kstep (s t : kstate K) : Prop :=
| k_interrupts w : t = interrupts w s → kstep s t
| k_signal e : t = task_event_signal e s → kstep s t
| k_hold : t = snd (task_switch_hold s) → kstep s t
| k_release : t = snd (task_switch_release s) → kstep s t
| k_create entry argument owned w id : task_create ops kernel start_address halt_address entry argument owned w s = Some (id, t) → kstep s t
| k_create_process q fg sh w id : create_process ops kernel start_address halt_address q fg sh w s = Some (id, t) → kstep s t
| k_mark_shell id : t = snd (task_mark_foreground_shell id s) → kstep s t
| k_mark_command id text : t = snd (task_mark_shell_command id text s) → kstep s t
| k_session_control action path : t = snd (task_session_control ops action path s) → kstep s t
| k_foreground_end id : t = snd (task_foreground_end id s) → kstep s t
| k_cancel_foreground : t = snd (task_cancel_foreground s) → kstep s t
| k_request_termination id session : t = snd (task_request_termination id session s) → kstep s t
| k_reap n : task_reap ops kernel kfree s = Some (n, t) → kstep s t
| k_reap_process id b : task_reap_process ops kernel kfree id s = Some (b, t) → kstep s t
| k_collect_child id b : task_collect_child ops kernel kfree id s = Some (b, t) → kstep s t
| k_yield r : task_yield kernel switch_esp s = Some (r, t) → kstep s t
| k_yield_resume r : task_yield_resume ops kernel kfree s = Some (r, t) → kstep s t
| k_wait e observed timed duration r : wait_common kernel switch_esp e observed timed duration s = Some (r, t) → kstep s t
| k_wait_resume r : wait_resume ops kernel kfree s = Some (r, t) → kstep s t
| k_sleep ms r : task_sleep kernel switch_esp ms s = Some (r, t) → kstep s t
| k_sleep_resume b r : task_sleep_resume ops kernel kfree b s = Some (r, t) → kstep s t
| k_wait_child id nohang given w r : task_wait_child kernel switch_esp id nohang given w s = Some (r, t) → kstep s t
| k_wait_child_resume id nohang w r : task_wait_child_resume ops kernel kfree switch_esp id nohang w s = Some (r, t) → kstep s t
| k_wait_process id given w r : task_wait_process kernel switch_esp id given w s = Some (r, t) → kstep s t
| k_exit status w : task_exit_with_status ops kernel switch_esp status w s = Some t → kstep s t
| k_user_fault f a w : task_exit_from_user_fault ops kernel switch_esp f a w s = Some t → kstep s t
| k_exit_shell w r : task_exit_shell_if_requested ops kernel switch_esp w s = Some (r, t) → kstep s t
| k_cancel_current w r : task_cancel_current_if_requested ops kernel switch_esp w s = Some (r, t) → kstep s t
| k_user_return f a w r : task_on_user_return ops kernel switch_esp f a w s = Some (r, t) → kstep s t
| k_user_return_resume w r : task_on_user_return_resume ops kernel kfree switch_esp w s = Some (r, t) → kstep s t
| k_start w r : start_task ops kernel kfree switch_esp w s = Some (r, t) → kstep s t
| k_idle w r : idle_turn ops kernel kfree switch_esp w s = Some (r, t) → kstep s t
| k_elsewhere : outside s t → kstep s t.

Lemma outside_quiet s t : outside s t → quiet s t.
Proof. intros O. split; [apply O|]. intros i. by destruct (core_of_used _ _ (out_core _ _ O i)) as (-> & _). Qed.

Lemma kstep_moves s t : registry true s → kstep s t → ∃ n, moves_on n s t.
Proof.
  intros R. pose proof (calm_refl _ _ R) as C. intros [].
  all: try (exists 0%nat; apply moves_calm; subst t;
    first [by apply calm_interrupts | by apply calm_signal | by apply calm_hold | by apply calm_release | by apply calm_mark_shell | by apply calm_mark_command
          | by apply calm_session_control | by apply calm_foreground_end | by apply calm_cancel_foreground | by apply calm_request_termination]; fail).
  - exists 0%nat. apply moves_quiet. by eapply task_create_ok.
  - exists 0%nat. apply moves_quiet. by eapply create_process_ok.
  - exists 0%nat. apply moves_quiet. by eapply reap_exited_ok.
  - exists 0%nat. apply moves_quiet. by eapply task_reap_process_ok.
  - exists 0%nat. apply moves_quiet. by eapply collect_child_ok.
  - eexists. by eapply task_yield_ok.
  - exists 0%nat. apply moves_quiet. by eapply yield_resume_ok.
  - eexists. by eapply wait_common_ok.
  - exists 0%nat. apply moves_quiet. by eapply wait_resume_ok.
  - by eapply task_sleep_ok.
  - exists 0%nat. apply moves_quiet. by eapply sleep_resume_ok.
  - eexists. by eapply wait_child_ok.
  - eexists. by eapply wait_child_resume_ok.
  - by eapply wait_process_ok.
  - eexists. by eapply terminate_ok.
  - eexists. by eapply user_fault_ok.
  - by eapply exit_shell_ok.
  - by eapply cancel_current_moves.
  - by eapply user_return_ok.
  - by eapply user_return_resume_ok.
  - by eapply start_task_ok.
  - by eapply idle_turn_ok.
  - exists 0%nat. apply moves_quiet. split; [by eapply outside_registry|by apply outside_quiet].
Qed.
End Registry.
