(* ===== verification/Scheduler.v ===== *)
(** * What the scheduler guarantees (kernel/process/task.c, hal/pc/pit.c)

    The invariant of Registry.v on every reachable state, the dispatcher that never stops
    the machine, round-robin fairness, events that are not lost, and sleeps that end at
    their deadline across the wrap of the clock. *)

From S2P Require Import Prelude Block Path Fs Paging Spaces Session Handles Gdt Keyboard Task Registry.

Section Scheduler.
Context {K : Type} (kernel : Z) (switch_esp : kstate K → Z) (ops : fs_operations K) (start_address halt_address : Z).
Context (kfree : Z → paging → bool * paging).
Implicit Types (s t : kstate K).
Notation kstep := (kstep kernel switch_esp ops start_address halt_address kfree).
Notation registry := (registry kernel).
(** Releasing heap memory leaves the address spaces alone. *)
Definition heap_keeps_spaces : Prop := ∀ a m, spaces (snd (kfree a m)) = spaces m.

(** ** The booted registry *)

Section Boot.
Context (boot_stack_bottom boot_stack_top double_fault_entry idle_address : Z).
(** The statics as the loader leaves them, the segments set up, paging on. *)
Record power_on s : Prop := {
  on_tasks : tasks s = ∅;
  on_processes : processes s = ∅;
  on_next : next_id s = 3;
  on_segments : initialized (segments s) = true;
  on_directories : directories_ok kernel (memory s);
  on_stack : stack_ok boot_stack_top
}.

(** Boot and idle registered on their stacks, boot running. *)
Record two_tasks (x0 x1 : task) s : Prop := {
  two_ready : ready s = true;
  two_current : current s = Some BOOT;
  two_next : next_id s = 3;
  two_tasks_are : ∀ i, get_task s i = if decide (i = BOOT) then x0 else if decide (i = IDLE) then x1 else no_task;
  two_processes : ∀ i, i = BOOT ∨ i = IDLE → space (get_process s i) = Some kernel ∧ owns_space (get_process s i) = false;
  two_boot : tid x0 = 1 ∧ state x0 = TASK_RUNNING ∧ waiting x0 = None ∧ deadline_active x0 = false ∧ deadline x0 = 0 ∧ process x0 = Some BOOT ∧ stack_ok (stack_top x0);
  two_idle : tid x1 = 2 ∧ state x1 = TASK_RUNNABLE ∧ waiting x1 = None ∧ deadline_active x1 = false ∧ deadline x1 = 0 ∧ process x1 = Some IDLE ∧
    stack_ok (stack_top x1) ∧ stack_slot x1 = 0;
  two_segments : esp0 (rum_tss (segments s)) = stack_top x0 ∧ initialized (segments s) = true;
  two_memory : paging_active_space (memory s) = Some kernel ∧ known_space kernel kernel (memory s) = true ∧ directories_ok kernel (memory s)
}.
Lemma two_tasks_registry x0 x1 s : two_tasks x0 x1 s → registry true s.
Proof.
  intros [Rd C N T P (B1 & B2 & B3 & B4 & B5 & B6 & B7) (I1 & I2 & I3 & I4 & I5 & I6 & I7 & I8) (G1 & G2) (M1 & M2 & M3)].
  assert (cur s = BOOT) as Cu by (unfold cur; by rewrite C).
  assert (∀ i, used s i = true → i = BOOT ∨ i = IDLE) as U.
  { intros i. unfold used. rewrite T. repeat case_decide; auto; done. }
  assert (T0 : get_task s BOOT = x0) by by rewrite T. assert (T1 : get_task s IDLE = x1) by by rewrite T.
  constructor; rewrite ?Cu, ?T0, ?T1; try done.
  - intros i. rewrite T. repeat case_decide; auto; by rewrite ?I2.
  - intros i [->| ->]%U; done.
  - intros i H%bool_decide_eq_false. revert H. rewrite T. destruct (decide _); [rewrite B2; by intros []|]. destruct (decide _); [rewrite I2; by intros []|done].
  - by intros i [->| ->]%U; rewrite ?T0, ?T1.
  - rewrite N. done.
  - intros i [->| ->]%U; rewrite N, ?T0, ?T1, ?B1, ?I1; unfold UINT32_MAX; lia.
  - intros i j [->| ->]%U [->| ->]%U; rewrite ?T0, ?T1, ?B1, ?I1; done.
  - intros i. rewrite T. unfold waits. repeat case_decide; [rewrite B2, B3, B4|rewrite I2, I3, I4|cbn]; split; try done; intros [?|?]; done.
  - intros i. rewrite T. repeat case_decide; done.
  - split; [done|]. unfold used. by rewrite T0, B2.
  - auto.
  - intros i [->| ->]%U; [done|]. intros _. by rewrite T1.
  - intros i [->| ->]%U; by rewrite ?T0, ?T1.
  - rewrite M1. symmetry. apply P. by left.
  - intros i H%U. exists kernel. split; [by apply P|done].
  - intros i H%U _. by apply P.
  - intros i H%U O. destruct (P i H) as [_ Q]. congruence.
  - split; apply P; auto.
Qed.

Lemma store_words_same a l s t : store_words kernel a l s = Some t → ∃ m, t = set_memory m s ∧ spaces m = spaces (memory s).
Proof.
  revert a s. induction l as [|v l IH]; intros a s; cbn; [intros [= <-]; exists (memory s); by destruct s|].
  destruct (store_virtual kernel a v s) as [u|] eqn:V; [|done]. unfold store_virtual in V.
  destruct (paging_active s); [|done]. destruct (paging_translate _ _ _ _) as [ph|]; [|done]. injection V as <-.
  intros E. apply IH in E as (m & -> & Em). exists m. by destruct s.
Qed.

Lemma initialize_registry_ok idle f base s t : tasks s = ∅ → processes s = ∅ → next_id s = 3 →
  tid idle = 2 ∧ state idle = TASK_RUNNABLE ∧ waiting idle = None ∧ deadline_active idle = false ∧ deadline idle = 0 ∧ stack_ok (stack_top idle) ∧ stack_slot idle = 0 →
  paging_active_space (memory s) = Some kernel → paging_kernel_space kernel (memory s) = Some kernel → directories_ok kernel (memory s) → stack_ok boot_stack_top →
  task_initialize_registry ops kernel boot_stack_bottom boot_stack_top start_address halt_address idle f base s = Some (true, t) →
  ∃ x0 x1, two_tasks x0 x1 t.
Proof.
  intros T P N (I1 & I2 & I3 & I4 & I5 & I6 & I7) A Ks D S. unfold task_initialize_registry. cbv zeta.
  destruct (publish _ _ _ _) as [s1|] eqn:Pub; [|done]. apply publish_spec in Pub.
  assert (∀ i, get_task s1 i = if decide (i = IDLE) then set_process (Some IDLE) idle else
    if decide (i = BOOT) then boot_task boot_stack_bottom boot_stack_top else no_task) as T1.
  { intros i. rewrite Pub, published_task. case_decide; [done|]. rewrite get_put_task. case_decide; [done|]. unfold get_task. cbn. by rewrite T. }
  assert (∀ i, i = BOOT ∨ i = IDLE → space (get_process s1 i) = Some kernel ∧ owns_space (get_process s1 i) = false) as P1.
  { intros i Hi. rewrite Pub, published_process. case_decide; [by cbn; rewrite Ks|].
    change (get_process _ i) with (get_process (put_process BOOT (kernel_process (paging_kernel_space kernel (memory s)) f) s) i).
    rewrite get_put_process, decide_True by naive_solver. cbn. by rewrite Ks. }
  assert (memory s1 = memory s ∧ next_id s1 = 3 ∧ segments s1 = segments s) as (M1 & N1 & G1) by by rewrite Pub.
  clear Pub. unfold prepare_stack. destruct (store_words _ _ _ s1) as [s2|] eqn:W; [|done]. apply store_words_same in W as (m & -> & Em).
  match goal with |- context [gdt_set_kernel_context ?x ?y ?z] => destruct (gdt_set_kernel_context x y z) as [ok g] eqn:G end.
  destruct ok; cbn [negb]; [|destruct (release_stack _ _ _); [|done]; destruct (release_stack _ _ _); [|done]; destruct (on_files _ _); done].
  intros [= <-]. unfold gdt_set_kernel_context in G. destruct (_ && _) eqn:Ok in G; [|done]. injection G as <-.
  apply andb_true_iff in Ok as [Ok _]. unfold stack_acceptable in Ok. do 2 apply andb_true_iff in Ok as [Ok _]. cbn in Ok. rewrite M1 in Em.
  exists (set_slice_ticks TASK_TIME_SLICE_TICKS (boot_task boot_stack_bottom boot_stack_top)),
    (set_stack (wrap32 (stack_top (get_task s1 IDLE) - SIZEOF_CONTEXT)) (get_task s1 IDLE)).
  assert (Ti : get_task s1 IDLE = set_process (Some IDLE) idle) by by rewrite T1.
  constructor; try done.
  - intros i. match goal with |- _ = ?r => change (get_task (upd_task BOOT (set_slice_ticks TASK_TIME_SLICE_TICKS)
      (put_task IDLE (set_stack (wrap32 (stack_top (get_task s1 IDLE) - SIZEOF_CONTEXT)) (get_task s1 IDLE)) s1)) i = r) end.
    rewrite get_upd_task. case_decide; [rewrite get_put_task, decide_False, T1 by done; done|].
    rewrite get_put_task. case_decide; [done|]. by rewrite T1, !decide_False.
  - by rewrite Ti.
  - split; [|done]. change (esp0 _) with (stack_top (get_task (put_task IDLE (set_stack (wrap32 (stack_top (get_task s1 IDLE) - SIZEOF_CONTEXT)) (get_task s1 IDLE)) s1) BOOT)).
    rewrite get_put_task, decide_False, T1 by done. done.
  - change (paging_active_space m = Some kernel ∧ known_space kernel kernel m = true ∧ directories_ok kernel m).
    rewrite (active_space_same _ _ Em), (known_space_same kernel kernel _ _ Em). split_and!; [done| |].
    + unfold paging_kernel_space in Ks. unfold known_space. destruct (enabled _); [|done]. by rewrite Z.eqb_refl.
    + intros a. rewrite (known_space_same kernel a _ _ Em), (directory_address_same kernel a _ _ Em). apply D.
Qed.

Notation task_initialize := (task_initialize ops kernel boot_stack_bottom boot_stack_top double_fault_entry start_address halt_address idle_address).

Lemma task_initialize_ok s t : power_on s → task_initialize s = Some (true, t) → registry true t.
Proof.
  intros [T P N G D S]. unfold Task.task_initialize. cbv zeta. destruct (_ || bool_decide _) eqn:Gu; [done|]. repeat rewrite orb_false_iff in Gu.
  destruct Gu as [[_ Ks] A]. destruct (paging_kernel_space kernel (memory s)) as [k|] eqn:Ks'; [|done]. clear Ks.
  assert (k = kernel) as -> by (unfold paging_kernel_space in Ks'; case_match; congruence).
  apply bool_decide_eq_false, dec_stable in A. unfold new_stack.
  destruct (paged _ s) as [[ok s1]|] eqn:P1; [|done]. apply paged_spec in P1 as [-> _]. destruct ok; cbn [negb]; [|done].
  set (m1 := snd (paging_kernel_stack_allocate kernel 0 (memory s))). assert (spaces m1 = spaces (memory s)) as E1 by apply spaces_stack_allocate.
  destruct (paged _ (set_memory m1 s)) as [[ok s2]|] eqn:P2; [|done]. apply paged_spec in P2 as [-> _].
  destruct ok; cbn [negb]; [|by destruct (release_stack _ _ _)]. cbn [memory set_memory].
  set (m2 := snd (paging_kernel_stack_allocate kernel EMERGENCY_STACK_SLOT m1)).
  assert (spaces m2 = spaces (memory s)) as E2 by (rewrite <- E1; apply spaces_stack_allocate).
  match goal with |- context [gdt_set_double_fault_stack ?e ?x ?y ?z] => destruct (gdt_set_double_fault_stack e x y z) as [ok g] eqn:Gd end.
  destruct ok; cbn [negb]; [|destruct (release_stack _ _ _); [|done]; by destruct (release_stack _ _ _)].
  unfold on_files. destruct (fs_initialize _) as [started v].
  match goal with |- context [if started then ?x else ?y] => destruct (if started then x else y) as [[e f] s3] eqn:F end.
  assert (∃ v', s3 = set_files v' (set_segments g (set_memory m2 s))) as [v' ->].
  { destruct started; [destruct (fs_context_initialize _ _ _) as [y v']; injection F as _ <-; exists v'; by destruct s|injection F as _ _ <-; exists v; by destruct s]. }
  match goal with |- (if ?b then _ else _) = _ → _ => destruct b end; [destruct (release_stack _ _ _); [|done]; by destruct (release_stack _ _ _)|].
  intros I. apply initialize_registry_ok in I as (x0 & x1 & I); try done; [by eapply two_tasks_registry|..]; cbn.
  - by rewrite (active_space_same _ _ E2).
  - unfold paging_kernel_space in *. unfold spaces in E2. by injection E2 as _ _ _ ->.
  - intros a. rewrite (known_space_same kernel a _ _ E2), (directory_address_same kernel a _ _ E2). apply D.
Qed.

Lemma steps_registry s t : heap_keeps_spaces → registry true s → rtc kstep s t → registry true t.
Proof.
  intros Hk R St. induction St as [|s u t St _ IH]; [done|]. apply IH. apply kstep_moves in St as [n [Rt _]]; done.
Qed.

(** C19: the registry is well formed after booting, and every sequence of operations and
    interrupts keeps it so: exactly the current task runs; ids are unique and never
    reused; a task is blocked exactly while it has a wait registered; a free slot is all
    zero and a used one owns the process record and the stack of its slot; boot and idle
    never exit and idle never blocks; the processor's stack and page directory are the
    current task's; every live task has a registered address space, which belongs to
    nobody else when it is private. *)
Theorem registry_invariant : heap_keeps_spaces →
  (∀ s t, power_on s → task_initialize s = Some (true, t) → registry true t) ∧
  (∀ s t, registry true s → rtc kstep s t → registry true t).
Proof.
  intros Hk. split; [intros s t; apply task_initialize_ok|]. intros s t R St. by eapply steps_registry.
Qed.
End Boot.

(** ** Fairness *)

(** How many slots the circular search looks at before [j]. *)
Definition ahead (c j : Z) : Z := (j - c - 1) mod TASK_SLOTS.

Lemma candidates_lookup c k : (k < Z.to_nat TASK_SLOTS)%nat → candidates c !! k = Some ((c + 1 + Z.of_nat k) mod TASK_SLOTS).
Proof.
  intros H. unfold candidates. rewrite list_lookup_fmap, lookup_seqZ_lt by lia. cbn. f_equal. f_equal. lia.
Qed.
Lemma ahead_self c j : 0 ≤ j < TASK_SLOTS → (c + 1 + ahead c j) mod TASK_SLOTS = j.
Proof.
  intros H. unfold ahead. rewrite Z.add_mod_idemp_r by done. replace (c + 1 + (j - c - 1)) with j by lia. by apply Z.mod_small.
Qed.
Lemma ahead_advance c j k : 0 ≤ j < TASK_SLOTS → 0 ≤ k < ahead c j → ahead ((c + 1 + k) mod TASK_SLOTS) j = ahead c j - k - 1.
Proof.
  intros H Hk. assert (0 ≤ ahead c j < TASK_SLOTS) as B by (apply Z.mod_pos_bound; done).
  rewrite <- (Z.mod_small (ahead c j - k - 1) TASK_SLOTS) by lia. unfold ahead at 1.
  replace (j - (c + 1 + k) mod TASK_SLOTS - 1) with (j - 1 - (c + 1 + k) mod TASK_SLOTS) by lia. rewrite Zminus_mod_idemp_r.
  replace (ahead c j - k - 1) with (ahead c j - (k + 1)) by lia. unfold ahead. rewrite Zminus_mod_idemp_l. f_equal. lia.
Qed.

(** The dispatcher takes the waiting task or one strictly nearer to it. *)
Lemma pick_nearer s j : 0 ≤ j < TASK_SLOTS → eligible s j → pick s = j ∨ ahead (pick s) j < ahead (cur s) j.
Proof.
  intros Hj E. unfold pick, choose. destruct (List.find _ _) as [x|] eqn:F; cbn.
  2: { exfalso. apply (pick_idle s j); [|done|done]. unfold pick, choose. by rewrite F. }
  apply find_split in F as (l1 & l2 & L & _ & Fl).
  assert (0 ≤ ahead (cur s) j < TASK_SLOTS) as B by (apply Z.mod_pos_bound; done).
  assert (length (candidates (cur s)) = Z.to_nat TASK_SLOTS) as Len by (unfold candidates; by rewrite length_fmap, length_seqZ).
  assert (length l1 < Z.to_nat TASK_SLOTS)%nat as Lt by (rewrite <- Len, L, length_app; cbn; lia).
  assert (x = (cur s + 1 + Z.of_nat (length l1)) mod TASK_SLOTS) as Ex.
  { pose proof (candidates_lookup (cur s) (length l1) Lt) as Q. rewrite L, lookup_app_r, Nat.sub_diag in Q by done. by injection Q. }
  destruct (decide (Z.of_nat (length l1) < ahead (cur s) j)) as [Lo|Hi].
  - right. rewrite Ex, ahead_advance by lia. lia.
  - destruct (decide (Z.of_nat (length l1) = ahead (cur s) j)) as [Eq|Ne]; [left; rewrite Ex, Eq; by apply ahead_self|].
    exfalso. assert (l1 !! Z.to_nat (ahead (cur s) j) = Some j) as Q.
    { rewrite <- (lookup_app_l l1 (x :: l2)) by lia. rewrite <- L, candidates_lookup by lia. f_equal. rewrite Z2Nat.id by lia. by apply ahead_self. }
    rewrite Forall_forall in Fl. specialize (Fl j (proj1 (list_elem_of_In _ _) (list_elem_of_lookup_2 _ _ _ Q))). destruct E as [Ni Ej]. apply in_state_eq in Ej.
    rewrite Ej, andb_true_r, negb_false_iff in Fl. lia.
Qed.

Lemma runnable_released rest s j : registry rest s → state (get_task s j) = TASK_RUNNABLE → j ≠ IDLE → eligible s j.
Proof. intros R E N. split; [done|]. rewrite (released_state _ _ _ _ R), E. done. Qed.

(** A list of states, each a step after the one before, and its switches of contexts. *)
Fixpoint execution s (l : list (kstate K)) : Prop := match l with [] => True | t :: l => kstep s t ∧ execution t l end.
Fixpoint switches_in s (l : list (kstate K)) : nat :=
  match l with [] => 0 | t :: l => (if decide (current t = current s) then 0 else 1) + switches_in t l end.

Lemma step_nearer s t j : heap_keeps_spaces → registry true s → kstep s t → state (get_task s j) = TASK_RUNNABLE → j ≠ IDLE → cur t ≠ j →
  registry true t ∧ state (get_task t j) = TASK_RUNNABLE ∧
  (current t = current s ∨ ahead (cur t) j < ahead (cur s) j).
Proof.
  intros Hk R St E N C. apply kstep_moves in St as [n [Rt Ev]]; [|done..]. split; [done|].
  destruct Ev as [s t [Q1 Q2]|s u v t [Q1 Q2] Ru D P [Q3 Q4]]; [by auto|].
  assert (used s j = true) as U by (eapply used_state; done). pose proof (reg_range _ _ _ R j U) as Hj.
  pose proof (Q2 j E) as Eu. assert (cur t = pick u) as Ct by (unfold cur; by rewrite Q3, (disp_current _ _ D)).
  split; [|right].
  - apply Q4. rewrite (dispatched_state _ _ _ _ _ Ru D), decide_False by congruence. by rewrite Eu.
  - assert (cur u = cur s) as Cu by (unfold cur; by rewrite Q1). rewrite Ct, <- Cu.
    destruct (pick_nearer u j Hj (runnable_released _ _ _ Ru Eu N)) as [?|?]; [congruence|done].
Qed.

Lemma overtaken_bound l s j : heap_keeps_spaces → registry true s → state (get_task s j) = TASK_RUNNABLE → j ≠ IDLE →
  execution s l → (∀ t, t ∈ l → cur t ≠ j) → Z.of_nat (switches_in s l) ≤ ahead (cur s) j.
Proof.
  intros Hk. revert s. induction l as [|t l IH]; intros s R E N X A; cbn; [apply Z.mod_pos_bound; done|].
  destruct X as [St X]. destruct (step_nearer s t j Hk R St E N) as (Rt & Et & Q); [apply A; left|].
  specialize (IH t Rt Et N X (λ u Hu, A u (list_elem_of_further _ _ _ Hu))).
  destruct (decide (current t = current s)) as [C|C]; [|destruct Q; [done|lia]].
  unfold cur in IH at 1. rewrite C in IH. fold (cur s) in IH. lia.
Qed.

(** C20: round-robin fairness. Whatever operations run and whatever interrupts arrive, a
    task that may run is dispatched before more switches of contexts have passed than
    there are slots ahead of it, fewer than [TASK_SLOTS]: every execution with that many
    switches contains a state in which it is the current task. *)
Theorem round_robin (s : kstate K) (l : list (kstate K)) (j : Z) :
  heap_keeps_spaces → registry true s → state (get_task s j) = TASK_RUNNABLE → j ≠ IDLE → execution s l →
  0 ≤ ahead (cur s) j < TASK_SLOTS ∧ (ahead (cur s) j < Z.of_nat (switches_in s l) → ∃ t, t ∈ l ∧ cur t = j).
Proof.
  intros Hk R E N X. split; [apply Z.mod_pos_bound; done|]. intros B. destruct (decide (Exists (λ t, cur t = j) l)) as [Ex|Ne].
  - apply Exists_exists in Ex as (t & ?%list_elem_of_In & ?). by exists t.
  - exfalso. apply Forall_Exists_neg in Ne. rewrite Forall_forall in Ne.
    pose proof (overtaken_bound l s j Hk R E N X (λ t Ht, Ne t (proj1 (list_elem_of_In _ _) Ht))). lia.
Qed.
(** ** The machine does not stop *)

Lemma scheduled_total {A : Type} (tail : kstate K → option (A * kstate K)) x s : registry true s → departs s x →
  switch_holds x = switch_holds (get_task s (cur s)) → iflag s = false → in_irq s = false → switch_protected s = false → halted (memory s) = false →
  (state x = TASK_BLOCKED ∨ ∀ u, tail u ≠ None) → scheduled kernel switch_esp tail (put_task (cur s) x s) ≠ None.
Proof using Type.
  intros R D Hx I Q W H Ht. assert (registry false (put_task (cur s) x s)) as Ru by by apply depart_registry.
  assert (switch_protected (put_task (cur s) x s) = false) as Wu.
  { unfold switch_protected in *. change (cur (put_task (cur s) x s)) with (cur s). by rewrite get_put_task, decide_True, Hx. }
  destruct (schedule_total kernel switch_esp false (put_task (cur s) x s)) as (b & t & E & P1 & _); try done.
  unfold scheduled. rewrite E. destruct b; [done|]. destruct Ht as [B|Ht]; [|specialize (Ht t); by destruct (tail t) as [[]|]].
  pose proof (pick_ready _ _ _ Ru) as PR. rewrite (P1 eq_refl) in PR. change (cur (put_task (cur s) x s)) with (cur s) in PR.
  rewrite get_put_task, decide_True, B in PR by done. by destruct PR.
Qed.

Lemma wait_total e observed timed d s : registry true s → halted (memory s) = false → wait_common kernel switch_esp e observed timed d s ≠ None.
Proof using Type.
  clear kfree. intros R H. destruct (set_iflag_quiet kernel false s R) as [R1 _].
  unfold wait_common. destruct (_ || in_irq s) eqn:G0; [done|].
  destruct (_ || (timed && (d >=? TIMER_HALF_RANGE))) eqn:G; [done|]. do 3 (match goal with |- (if ?b then _ else _) ≠ _ => destruct b; [done|] end). repeat rewrite orb_false_iff in *.
  apply (scheduled_total _ _ (set_iflag false s)); try done; try tauto. constructor; try done; [|by cbn; intros ->|change (cur s ≠ IDLE); lia].
  split; [intros _|done]. unfold waits. cbn. destruct G0 as [[_ G0] _]. destruct e; [by left|]. destruct timed; [by right|done].
Qed.

(** Giving up the processor never stops the machine. In every well-formed state, a yield
    and any wait return: each guard that halts the processor - the interrupt flag, the
    active address space, the stack in the task-state segment, the space and segment
    switch of the chosen task, a wait still registered on resumption - is never taken. *)
Theorem giving_up_never_halts (s : kstate K) : registry true s → halted (memory s) = false →
  task_yield kernel switch_esp s ≠ None ∧
  ∀ e observed timed duration, wait_common kernel switch_esp e observed timed duration s ≠ None.
Proof.
  intros R H. destruct (set_iflag_quiet kernel false s R) as [R1 _].
  destruct (running_waits_not kernel _ (cur s) R1 (reg_rest _ _ _ R1)) as (W1 & W2 & W3). split.
  - unfold task_yield. case_match; [done|]. destruct (_ || switch_protected s) eqn:G; [done|]. repeat rewrite orb_false_iff in *.
    apply (scheduled_total _ _ (set_iflag false s)); try done; try tauto; [|by right]. constructor; try done; [|change (cur s ≠ IDLE); lia].
    unfold waits. cbn. rewrite W1, W2. split; [done|intros [?|?]; congruence].
  - intros e o timed d. by apply wait_total.
Qed.
End Scheduler.

(** ** A small machine *)

Module TaskSample.
Definition memory0 : paging := Paging (PagingSpace 0x1000 0 0 ∅) [] 1 true 0 (Pmm.Pmm ∅ ∅ 0 0 0 0 0 true) ∅ 0 0x1000 0 false.
Definition segments0 : gdt := Gdt true (Tss 0x9000 KERNEL_DATA_SELECTOR 0x1000 0 0 0 0 0 0 0 0 0 SIZEOF_TSS) zero_tss ∅.
Definition boot : task := Task 1 TASK_RUNNING 0 0 0x5000 0x9000 0 0 5 false None 0 no_frame None 0 false TASK_WAIT_EVENT (Some 0).
Definition idle : task := Task 2 TASK_RUNNABLE 0 0 (RUM_KERNEL_STACK_SLOT_BASE 0) (RUM_KERNEL_STACK_SLOT_TOP 0) 4 0 0 false (Some 0x400) 0 no_frame None 0 false TASK_WAIT_EVENT (Some 1).
Definition worker : task := Task 3 TASK_RUNNABLE 0 1 (RUM_KERNEL_STACK_SLOT_BASE 1) (RUM_KERNEL_STACK_SLOT_TOP 1) 4 0 0 false (Some 0x500) 0 no_frame None 0 false TASK_WAIT_EVENT None.
Definition kproc : process_state := kernel_process (Some 1) no_context.
Definition booted : kstate (gmap Z Z) :=
  Kstate (<[0 := boot]> (<[1 := idle]> ∅)) (<[0 := kproc]> (<[1 := kproc]> ∅)) (Some 0) 3 1 true 0 0 0 0 0 0 ∅ 0 0 0
    no_console memory0 SampleBackend.power_on segments0 no_keyboard false false 0 false.
Definition ready_worker : kstate (gmap Z Z) := set_iflag true (set_next_id 4 (default booted (publish 2 worker kproc (set_next_id 4 booted)))).
Definition kfree (a : Z) (m : paging) : bool * paging := (true, m).
Definition esp (s : kstate (gmap Z Z)) : Z := 0.
End TaskSample.
Import TaskSample.

Lemma sample_directories : directories_ok 1 memory0.
Proof. intros a. unfold known_space. rewrite andb_true_iff, orb_true_iff. intros [_ [E|E]]; [apply Z.eqb_eq in E as <-; done|done]. Qed.
Lemma booted_two : two_tasks 1 boot idle booted.
Proof.
  constructor; try done.
  - intros i. unfold get_task. cbn. unfold BOOT, IDLE. case_decide; [subst; done|]. case_decide; [subst; done|].
    rewrite !lookup_insert_ne by done. done.
  - by intros i [->| ->].
  - split_and!; try done. apply sample_directories.
Qed.
Lemma booted_registry : registry 1 true booted.
Proof. eapply two_tasks_registry, booted_two. Qed.
Lemma ready_worker_registry : registry 1 true ready_worker.
Proof.
  assert (registry 1 true (set_next_id 4 booted)) as R by (apply (next_id_registry 1 true booted booted_registry); done).
  assert (registry 1 true (default booted (publish 2 worker kproc (set_next_id 4 booted)))) as R1.
  { eapply (publish_registry 1 2 worker kproc); [exact R| |reflexivity]. constructor; try done.
    - split; [done|]. split; [done|]. intros j Uj.
      destruct (reg_ids _ _ _ booted_registry j Uj) as [_ L]. specialize (L ltac:(done)). change (tid (get_task booted j) ≠ 3). change (tid (get_task booted j) < 3) in L. lia.
    - exists 1. split_and!; done. }
  eapply (minor_registry 1 true _ _ R1). by constructor.
Qed.

Lemma registry_invariant_witness :
  registry 1 true ready_worker ∧ registry 1 true (task_event_signal (Some Work) ready_worker).
Proof.
  split; [apply ready_worker_registry|].
  apply (registry_invariant 1 esp SampleBackend.ops 0x200 0x300 kfree 0 0 0 0 (λ a m, eq_refl)) with (s := ready_worker); [apply ready_worker_registry|].
  apply rtc_once. by apply (k_signal _ _ _ _ _ _ _ _ (Some Work)).
Defined.

(** Boot yields to the worker, which resumes and yields back. *)
Definition turn1 : kstate (gmap Z Z) := Eval vm_compute in match task_yield 1 esp ready_worker with Some (_, t) => t | None => ready_worker end.
Definition turn2 : kstate (gmap Z Z) := Eval vm_compute in match task_yield_resume SampleBackend.ops 1 kfree turn1 with Some (_, t) => t | None => turn1 end.
Definition turn3 : kstate (gmap Z Z) := Eval vm_compute in match task_yield 1 esp turn2 with Some (_, t) => t | None => turn2 end.

Lemma turn1_yields : task_yield 1 esp ready_worker = Some (Switched, turn1).
Proof. vm_compute. reflexivity. Qed.
Lemma turn2_resumes : task_yield_resume SampleBackend.ops 1 kfree turn1 = Some (true, turn2).
Proof. vm_compute. reflexivity. Qed.
Lemma turn3_yields : task_yield 1 esp turn2 = Some (Switched, turn3).
Proof. vm_compute. reflexivity. Qed.

Lemma round_robin_witness :
  ahead 0 2 = 1 ∧ switches_in ready_worker [turn1; turn2; turn3] = 2%nat ∧ ∃ t, t ∈ [turn1; turn2; turn3] ∧ cur t = 2.
Proof.
  split; [reflexivity|]. split; [reflexivity|].
  apply (round_robin 1 esp SampleBackend.ops 0x200 0x300 kfree ready_worker [turn1; turn2; turn3] 2).
  - intros a m. reflexivity.
  - apply ready_worker_registry.
  - reflexivity.
  - discriminate.
  - split; [exact (k_yield _ _ _ _ _ _ _ _ _ turn1_yields)|].
    split; [exact (k_yield_resume _ _ _ _ _ _ _ _ _ turn2_resumes)|].
    split; [exact (k_yield _ _ _ _ _ _ _ _ _ turn3_yields)|exact I].
  - reflexivity.
Defined.

Lemma giving_up_never_halts_witness : registry 1 true ready_worker ∧ task_yield 1 esp ready_worker ≠ None.
Proof. split; [apply ready_worker_registry|]. apply (giving_up_never_halts 1 esp kfree ready_worker ready_worker_registry). reflexivity. Defined.
