(* ===== verification/Waits.v ===== *)
(** * Events and deadlines (kernel/process/task.c, hal/pc/pit.c)

    What a signal and a tick do to every task, that a signal between capturing an event's
    sequence and waiting on it is never lost, and that a sleep ends at its deadline
    whatever the clock reads. *)

From S2P Require Import Prelude Block Path Fs Paging Spaces Session Handles Gdt Keyboard Task Registry Scheduler.

Section Waits.
Context {K : Type} (kernel : Z) (switch_esp : kstate K → Z).
Implicit Types (s t : kstate K) (e : event).
Notation registry := (registry kernel).

(** ** Loops that wake slots *)

(** A loop that wakes the slots passing a test of their own task alone. *)
Lemma wake_loop_task (test : task → bool) r s i :
  get_task (for_range 0 TASK_SLOTS (λ j s, if test (get_task s j) then upd_task j (wake_task r) s else s) s) i =
  if bool_decide (0 ≤ i < TASK_SLOTS) && test (get_task s i) then wake_task r (get_task s i) else get_task s i.
Proof.
  set (body := λ j s, if test (get_task s j) then upd_task j (wake_task r) s else s).
  assert (∀ n, 0 ≤ n → get_task (for_range 0 n body s) i = if bool_decide (0 ≤ i < n) && test (get_task s i) then wake_task r (get_task s i) else get_task s i) as H;
    [|apply H; done].
  intros n Hn. revert n Hn. apply natlike_ind; [rewrite for_range_nil by done; by rewrite bool_decide_eq_false_2 by lia|].
  intros n Hn IH. change (Z.succ n) with (n + 1). rewrite for_range_snoc by done. unfold body at 1.
  destruct (decide (i = n)) as [->|Ne].
  - rewrite (bool_decide_eq_false_2 (0 ≤ n < n)) in IH by lia. cbn [andb] in IH. rewrite IH, bool_decide_eq_true_2 by lia. cbn [andb].
    destruct (test (get_task s n)); [by rewrite get_upd_task, decide_True, IH|done].
  - replace (bool_decide (0 ≤ i < n + 1)) with (bool_decide (0 ≤ i < n)) by (apply bool_decide_ext; lia).
    rewrite <- IH. destruct (test (get_task (for_range 0 n body s) n)); [by rewrite get_upd_task, decide_False|done].
Qed.
(** It touches the tasks only. *)
Lemma wake_loop_other (test : task → bool) r s :
  ∃ l, for_range 0 TASK_SLOTS (λ j s, if test (get_task s j) then upd_task j (wake_task r) s else s) s = set_tasks l s.
Proof.
  apply (for_range_pres (λ u, ∃ l, u = set_tasks l s)); [exists (tasks s); by destruct s|].
  intros i u _ [l ->]. case_match; [|by eexists]. unfold upd_task, put_task. by eexists.
Qed.

(** ** Signals *)

Definition waits_for e (x : task) : bool := bool_decide (state x = TASK_BLOCKED) && bool_decide (waiting x = Some e).
Lemma sequence_set e e' v s : sequence (set_sequence e v s) e' = if decide (e' = e) then v else sequence s e'.
Proof.
  destruct e, e'; cbn; rewrite ?get_upd_process; repeat case_decide; simplify_eq; try done; cbn; try congruence.
  - unfold aget, aset. by rewrite lookup_insert_eq.
  - unfold aget, aset. rewrite lookup_insert_ne by congruence. done.
Qed.
Lemma sequence_tasks e l s : sequence (set_tasks l s) e = sequence s e.
Proof. by destruct e. Qed.
Lemma sequence_iflag e b s : sequence (set_iflag b s) e = sequence s e.
Proof. by destruct e. Qed.
Lemma set_sequence_ready e v s : ready (set_sequence e v s) = ready s ∧ tasks (set_sequence e v s) = tasks s ∧ current (set_sequence e v s) = current s.
Proof. by destruct e. Qed.

Definition wake_all (test : task → bool) r s : kstate K :=
  for_range 0 TASK_SLOTS (λ j s, if test (get_task s j) then upd_task j (wake_task r) s else s) s.
Lemma wake_all_task test r s i : get_task (wake_all test r s) i =
  if bool_decide (0 ≤ i < TASK_SLOTS) && test (get_task s i) then wake_task r (get_task s i) else get_task s i.
Proof. unfold wake_all. apply wake_loop_task. Qed.
Lemma signal_eq e s : task_event_signal (Some e) s =
  set_iflag (iflag s) (let u := set_sequence e (wrap32 (sequence (set_iflag false s) e + 1)) (set_iflag false s) in
                       if ready u then wake_all (waits_for e) TASK_WAIT_EVENT u else u).
Proof. unfold task_event_signal, wake_all, waits_for, waits_on, in_state. cbv zeta. reflexivity. Qed.
Lemma get_task_iflag b s i : get_task (set_iflag b s) i = get_task s i.
Proof. done. Qed.

Lemma signal_task e s i : ready s = true →
  get_task (task_event_signal (Some e) s) i = if bool_decide (0 ≤ i < TASK_SLOTS) && waits_for e (get_task s i) then wake_task TASK_WAIT_EVENT (get_task s i) else get_task s i.
Proof.
  intros R. rewrite signal_eq, get_task_iflag. cbv zeta.
  destruct (set_sequence_ready e (wrap32 (sequence (set_iflag false s) e + 1)) (set_iflag false s)) as (E & T & _).
  rewrite E. cbn [ready set_iflag]. rewrite R. unfold wake_all. rewrite wake_loop_task. unfold get_task. by rewrite T.
Qed.
Lemma signal_sequence e e' s : sequence (task_event_signal (Some e) s) e' = if decide (e' = e) then wrap32 (sequence s e + 1) else sequence s e'.
Proof.
  rewrite signal_eq, sequence_iflag. cbv zeta. set (u := set_sequence _ _ _).
  assert (sequence (if ready u then wake_all (waits_for e) TASK_WAIT_EVENT u else u) e' = sequence u e') as ->.
  { case_match; [|done]. destruct (wake_loop_other (waits_for e) TASK_WAIT_EVENT u) as [l E]. unfold wake_all. rewrite E. apply sequence_tasks. }
  unfold u. rewrite sequence_set, !sequence_iflag. done.
Qed.

Lemma signals_sequence n e s : 0 ≤ sequence s e ≤ UINT32_MAX →
  sequence (Nat.iter n (task_event_signal (Some e)) s) e = wrap32 (sequence s e + Z.of_nat n).
Proof.
  intros B. induction n as [|n IH]; [cbn; rewrite Z.add_0_r; by rewrite wrap32_small|].
  rewrite Nat.iter_succ, signal_sequence, decide_True, IH by done. unfold wrap32. rewrite Z.add_mod_idemp_l by done. f_equal. lia.
Qed.

(** ** What a wait leaves behind *)

(** The registration of a wait, up to the call of [schedule]. *)
Definition registered (e : option event) (timed : bool) (duration : Z) s : kstate K :=
  upd_task (cur s) (λ x, set_state TASK_BLOCKED (set_deadline (if timed then wrap32 (timer_ticks s + duration) else 0)
    (set_deadline_active timed (set_waiting e x)))) (set_iflag false s).
Lemma registered_registry (e : option event) timed duration s : registry true s → (e = None → timed = true) → cur s ≠ IDLE →
  registry false (registered e timed duration s).
Proof.
  intros R He Hi. destruct (set_iflag_quiet kernel false s R) as [R1 _]. apply (depart_registry kernel (set_iflag false s)); [done|].
  constructor; try done; [|by cbn; intros ->]. split; [intros _|done]. unfold waits. cbn. destruct e; [by left|]. right. by apply He.
Qed.
(** A registered task is not chosen again: the call of [schedule] switches. *)
Lemma registered_switches (e : option event) timed duration s b t : registry true s → (e = None → timed = true) → cur s ≠ IDLE →
  schedule kernel switch_esp (registered e timed duration s) = Some (b, t) → b = true.
Proof.
  intros R He Hi S. pose proof (registered_registry e timed duration s R He Hi) as Ru. apply (schedule_switched _ _ _) in S.
  destruct b; [done|]. exfalso. pose proof (pick_ready _ _ _ Ru) as P. rewrite S in P. change (cur (registered e timed duration s)) with (cur s) in P.
  unfold registered in P. rewrite get_upd_task, decide_True in P by done. by destruct P.
Qed.

Lemma wait_blocks (e : option event) observed (timed : bool) duration s t : registry true s →
  wait_common kernel switch_esp e observed timed duration s = Some (Switched, t) →
  registry true t ∧ ticks t = ticks s ∧ state (get_task t (cur s)) = TASK_BLOCKED ∧ waiting (get_task t (cur s)) = e ∧
  deadline_active (get_task t (cur s)) = timed ∧ deadline (get_task t (cur s)) = (if timed then wrap32 (ticks s + duration) else 0).
Proof.
  intros R W. assert (registry true t) as Rt by (apply (wait_common_ok kernel switch_esp) in W as [Rt _]; done). split; [done|]. revert W.
  unfold wait_common. destruct (_ || in_irq s) eqn:G0; [done|]. destruct (_ || (timed && (duration >=? TIMER_HALF_RANGE))) eqn:G; [done|].
  do 3 (match goal with |- (if ?b then _ else _) = _ → _ => destruct b; [done|] end).
  unfold scheduled. fold (registered e timed duration s).
  assert (registry false (registered e timed duration s)) as Ru.
  { repeat rewrite orb_false_iff in *. apply registered_registry; [done| |lia]. intros ->. destruct G0 as [[_ G0] _]. by destruct timed. }
  assert (get_task (registered e timed duration s) (cur s) = set_state TASK_BLOCKED (set_deadline (if timed then wrap32 (timer_ticks s + duration) else 0)
            (set_deadline_active timed (set_waiting e (get_task s (cur s)))))) as Eu by (unfold registered; by rewrite get_upd_task, decide_True).
  assert (ticks (registered e timed duration s) = ticks s ∧ cur (registered e timed duration s) = cur s) as [Tu Cu] by done.
  revert Ru Eu Tu Cu. generalize (registered e timed duration s). intros u Ru Eu Tu Cu.
  destruct (schedule kernel switch_esp u) as [[b v]|] eqn:S; [|done]. pose proof (schedule_switched _ _ _ _ _ S) as P.
  apply (schedule_dispatched kernel switch_esp false) in S; [|done]. destruct b; [|by destruct (wait_tail v) as [[]|]]. intros [= <-].
  destruct (disp_rest _ _ S (cur s)) as (_ & _ & _ & _ & -> & -> & ->). destruct (disp_same _ _ S) as (_ & _ & _ & _ & _ & -> & _).
  rewrite (dispatched_state _ _ _ _ _ Ru S), decide_False, Eu by congruence. done.
Qed.

(** A wait for an event that returns at once changes nothing, and says why. *)
Lemma wait_returns e observed s r t : registry true s → wait_common kernel switch_esp (Some e) observed false 0 s = Some (Returned r, t) →
  t = s ∧ (r ≠ TASK_WAIT_INVALID → task_current_cancelled s = true ∨ sequence s e ≠ observed).
Proof.
  intros R. unfold wait_common. destruct (_ || in_irq s); [by intros [= <- <-]|].
  destruct (_ || (false && (0 >=? TIMER_HALF_RANGE))) eqn:G; [by intros [= <- <-]|].
  destruct (task_current_cancelled s) eqn:C; [intros [= <- <-]; by auto|].
  destruct (Z.eqb_spec (sequence s e) observed) as [E|N]; cbn [negb]; [|intros [= <- <-]; by auto]. cbn [andb].
  unfold scheduled. fold (registered (Some e) false 0 s). destruct (schedule _ _ _) as [[b u]|] eqn:S; [|done].
  repeat rewrite orb_false_iff in G. apply registered_switches in S as ->; [done|done|done|lia].
Qed.


(** ** Ticks *)

(** Modular comparison is exact for distances below half the counter's range. *)
Lemma deadline_reached_exact n k d : 0 ≤ d < TIMER_HALF_RANGE → 0 ≤ k < TIMER_HALF_RANGE →
  timer_deadline_reached (wrap32 (n + k)) (wrap32 (n + d)) = (d <=? k).
Proof.
  intros Hd Hk. unfold timer_deadline_reached, wrap32, TIMER_HALF_RANGE in *. rewrite <- Zminus_mod.
  replace (n + k - (n + d)) with (k - d) by lia. destruct (Z.leb_spec d k).
  - rewrite Z.mod_small by lia. lia.
  - rewrite <- (Z.mod_unique (k - d) 0x100000000 (-1) (k - d + 0x100000000)) by lia. lia.
Qed.
Lemma timer_duration_spec ms d : 0 < ms → timer_duration_ticks ms = Some d → 0 < d < TIMER_HALF_RANGE ∧ ms ≤ 10 * (d - 1) < ms + 10.
Proof.
  intros Hm. unfold timer_duration_ticks. destruct (Z.gtb_spec ms RUM_SLEEP_MAX_MS) as [|Hx]; [done|].
  destruct (Z.eqb_spec ms 0); [lia|]. unfold RUM_SLEEP_MAX_MS, TIMER_HZ, TIMER_HALF_RANGE in *.
  pose proof (Z.div_mod (ms * 100 + 999) 1000 ltac:(done)) as D. pose proof (Z.mod_pos_bound (ms * 100 + 999) 1000 ltac:(done)) as M.
  unfold wrap64, wrap32. rewrite !(Z.mod_small _ 0x10000000000000000) by (rewrite ?(Z.mod_small _ 0x10000000000000000) by lia; lia).
  case_match; [done|]. intros [= <-]. rewrite Z.mod_small by lia. lia.
Qed.

Definition due_task (now : Z) (x : task) : bool :=
  bool_decide (state x = TASK_BLOCKED) && deadline_active x && timer_deadline_reached now (deadline x).
Definition charge s : kstate K :=
  match current s with
  | None => s
  | Some c =>
      if slice_ticks (get_task s c) =? 0 then s else
      let s := upd_task c (set_slice_ticks (slice_ticks (get_task s c) - 1)) s in
      if slice_ticks (get_task s c) =? 0 then upd_task c (set_reschedule true) s else s
  end.
Lemma tick_eq now s : task_timer_tick now s = if negb (ready s) then s else charge (wake_all (due_task now) TASK_WAIT_TIMEOUT s).
Proof. unfold task_timer_tick, charge, wake_all, due, due_task, in_state. cbv zeta. reflexivity. Qed.
Lemma wake_all_same test r s : ready (wake_all test r s) = ready s ∧ current (wake_all test r s) = current s ∧ ticks (wake_all test r s) = ticks s ∧ iflag (wake_all test r s) = iflag s.
Proof. unfold wake_all. by destruct (wake_loop_other test r s) as [l ->]. Qed.
Lemma charge_same s : ready (charge s) = ready s ∧ current (charge s) = current s ∧ ticks (charge s) = ticks s ∧ iflag (charge s) = iflag s.
Proof. unfold charge. repeat case_match; done. Qed.
Lemma signal_same e s : ready (task_event_signal (Some e) s) = ready s ∧ current (task_event_signal (Some e) s) = current s ∧
  ticks (task_event_signal (Some e) s) = ticks s ∧ iflag (task_event_signal (Some e) s) = iflag s.
Proof.
  rewrite signal_eq. cbv zeta. set (u := set_sequence _ _ _).
  assert (ready u = ready s ∧ current u = current s ∧ ticks u = ticks s) as (U1 & U2 & U3) by (unfold u; by destruct e).
  clearbody u. destruct (wake_all_same (waits_for e) TASK_WAIT_EVENT u) as (W1 & W2 & W3 & _).
  cbn. split_and!; try done; destruct (ready u) eqn:E; congruence.
Qed.

Lemma tick_task now s i : ready s = true → current s ≠ Some i →
  get_task (task_timer_tick now s) i = if bool_decide (0 ≤ i < TASK_SLOTS) && due_task now (get_task s i) then wake_task TASK_WAIT_TIMEOUT (get_task s i) else get_task s i.
Proof.
  intros R C. rewrite tick_eq, R. cbn [negb]. rewrite <- (wake_all_task (due_task now)).
  destruct (wake_all_same (due_task now) TASK_WAIT_TIMEOUT s) as (_ & E & _).
  revert E. generalize (wake_all (due_task now) TASK_WAIT_TIMEOUT s). intros u E. unfold charge. rewrite E.
  destruct (current s) as [c|]; [|done]. assert (i ≠ c) by congruence. cbv zeta.
  repeat case_match; rewrite ?get_upd_task, ?decide_False by done; done.
Qed.

Lemma timer_same s : ready s = true → ready (timer_interrupt s) = true ∧ ticks (timer_interrupt s) = wrap32 (ticks s + 1).
Proof.
  intros R. unfold timer_interrupt. cbv zeta. destruct (signal_same task_work_event (task_timer_tick (ticks (set_ticks (wrap32 (ticks s + 1)) s)) (set_ticks (wrap32 (ticks s + 1)) s))) as (-> & _ & -> & _).
  rewrite tick_eq. change (ready (set_ticks (wrap32 (ticks s + 1)) s)) with (ready s). rewrite R. cbn [negb].
  destruct (charge_same (wake_all (due_task (ticks (set_ticks (wrap32 (ticks s + 1)) s))) TASK_WAIT_TIMEOUT (set_ticks (wrap32 (ticks s + 1)) s))) as (-> & _ & -> & _).
  destruct (wake_all_same (due_task (ticks (set_ticks (wrap32 (ticks s + 1)) s))) TASK_WAIT_TIMEOUT (set_ticks (wrap32 (ticks s + 1)) s)) as (-> & _ & -> & _). done.
Qed.
Lemma timer_task s i : ready s = true → current s ≠ Some i → waits_for Work (get_task s i) = false →
  get_task (timer_interrupt s) i =
    (if bool_decide (0 ≤ i < TASK_SLOTS) && due_task (wrap32 (ticks s + 1)) (get_task s i) then wake_task TASK_WAIT_TIMEOUT (get_task s i) else get_task s i).
Proof.
  intros R C W. unfold timer_interrupt. cbv zeta. set (u := set_ticks (wrap32 (ticks s + 1)) s).
  pose proof (tick_task (ticks u) u i R C) as T. assert (ready (task_timer_tick (ticks u) u) = true) as Rt.
  { rewrite tick_eq. change (ready u) with (ready s). rewrite R. cbn [negb]. destruct (charge_same (wake_all (due_task (ticks u)) TASK_WAIT_TIMEOUT u)) as (-> & _).
    destruct (wake_all_same (due_task (ticks u)) TASK_WAIT_TIMEOUT u) as (-> & _). done. }
  rewrite signal_task by done. rewrite T. change (get_task u i) with (get_task s i). change (ticks u) with (wrap32 (ticks s + 1)).
  destruct (_ && due_task _ _); [by rewrite andb_false_r|]. change task_work_event with Work. rewrite W, andb_false_r. done.
Qed.

Lemma get_task_in_irq b s i : get_task (set_in_irq b s) i = get_task s i.
Proof. done. Qed.
Lemma ticks_iflag b c s : ticks (set_iflag b (set_in_irq c s)) = ticks s.
Proof. done. Qed.
Lemma timer_interrupt_task s i : registry true s → i ≠ cur s → waits_for Work (get_task s i) = false → iflag s = true →
  get_task (interrupt Timer s) i =
    (if bool_decide (0 ≤ i < TASK_SLOTS) && due_task (wrap32 (ticks s + 1)) (get_task s i) then wake_task TASK_WAIT_TIMEOUT (get_task s i) else get_task s i) ∧
  registry true (interrupt Timer s) ∧ cur (interrupt Timer s) = cur s ∧ iflag (interrupt Timer s) = true ∧ ticks (interrupt Timer s) = wrap32 (ticks s + 1).
Proof.
  intros R N W I. pose proof (calm_interrupt _ _ _ _ Timer (calm_refl _ _ _ R)) as C. pose proof (calm_registry _ _ _ _ C) as Rt.
  pose proof (calm_cur kernel true _ _ C) as Ct. split; [|split; [done|split; [done|]]].
  - unfold interrupt. rewrite I. cbn [negb]. cbv zeta. rewrite get_task_iflag, get_task_in_irq.
    rewrite timer_task; [by rewrite get_task_in_irq, get_task_iflag|apply R| |by rewrite get_task_in_irq, get_task_iflag].
    cbn [current set_in_irq set_iflag]. rewrite (reg_current _ _ _ R). congruence.
  - unfold interrupt. rewrite I. cbn [negb]. cbv zeta. split; [done|]. rewrite ticks_iflag.
    destruct (timer_same (set_in_irq true (set_iflag false s)) (reg_ready _ _ _ R)) as [_ ->]. done.
Qed.

(** A task asleep until [left] more ticks have passed. *)
Record asleep (i left : Z) s : Prop := {
  asleep_registry : registry true s;
  asleep_iflag : iflag s = true;
  asleep_other : i ≠ cur s;
  asleep_task : state (get_task s i) = TASK_BLOCKED ∧ waiting (get_task s i) = None ∧ deadline_active (get_task s i) = true ∧
    deadline (get_task s i) = wrap32 (ticks s + left)
}.
Lemma wrap32_shift n a : wrap32 (n + a) = wrap32 (wrap32 (n + 1) + (a - 1)).
Proof. unfold wrap32. rewrite Z.add_mod_idemp_l by done. f_equal. lia. Qed.
Lemma asleep_tick i left s : 0 < left < TIMER_HALF_RANGE → asleep i left s →
  if decide (left = 1) then state (get_task (interrupt Timer s) i) = TASK_RUNNABLE ∧ wake_reason (get_task (interrupt Timer s) i) = TASK_WAIT_TIMEOUT
  else asleep i (left - 1) (interrupt Timer s).
Proof.
  intros Hl [R I N (B & W & A & D)]. assert (used s i = true) as U by (by eapply used_state). pose proof (reg_range _ _ _ R i U) as Hi.
  destruct (timer_interrupt_task s i R N) as (T & Rt & Ct & It & Tt); [unfold waits_for; by rewrite W, (bool_decide_eq_false_2 (None = _)), andb_false_r|done|].
  rewrite bool_decide_eq_true_2 in T by done. cbn [andb] in T.
  assert (due_task (wrap32 (ticks s + 1)) (get_task s i) = (left <=? 1)) as E.
  { unfold due_task. rewrite B, A, D, bool_decide_eq_true_2 by done. apply deadline_reached_exact; unfold TIMER_HALF_RANGE in *; lia. }
  rewrite E in T. case_decide as L.
  - rewrite T. subst left. done.
  - replace (left <=? 1) with false in T by lia. constructor; [done|done|congruence|]. rewrite T, D, Tt. split_and!; try done. apply wrap32_shift.
Qed.
Lemma asleep_ticks i left s k : 0 < left < TIMER_HALF_RANGE → asleep i left s → 0 ≤ Z.of_nat k < left →
  asleep i (left - Z.of_nat k) (Nat.iter k (interrupt Timer) s).
Proof.
  intros Hl A. induction k as [|k IH]; intros Hk; [cbn; by rewrite Z.sub_0_r|].
  rewrite Nat.iter_succ. specialize (IH ltac:(lia)). pose proof (asleep_tick i (left - Z.of_nat k) _ ltac:(lia) IH) as T.
  rewrite decide_False in T by lia. by replace (left - Z.of_nat (S k)) with (left - Z.of_nat k - 1) by lia.
Qed.

(** ** Waiting for a child *)

(** Interrupts cancel and wake processes but complete none of them: no handler signals
    the event a parent waits on, nor touches memory. *)
Definition spares s t : Prop := memory t = memory s ∧ ∀ i, children_event (get_process t i) = children_event (get_process s i).
#[local] Instance spares_preorder : PreOrder spares.
Proof. split; [done|]. intros s t u [M A] [N B]. split; [congruence|]. intros i. by rewrite B. Qed.
Lemma spares_same s t : processes t = processes s → memory t = memory s → spares s t.
Proof. intros E M. split; [done|]. intros i. unfold get_process. by rewrite E. Qed.
Lemma spares_signal e s t : (∀ i, e ≠ Children i) → spares s t → spares s (task_event_signal (Some e) t).
Proof.
  intros N H. etransitivity; [exact H|]. split.
  - rewrite signal_eq. cbv zeta. set (u := set_sequence _ _ _). assert (memory u = memory t) as E by (by destruct e). clearbody u.
    case_match; [|done]. destruct (wake_loop_other (waits_for e) TASK_WAIT_EVENT u) as [l El]. unfold wake_all. by rewrite El.
  - intros i. pose proof (signal_sequence e (Children i) t) as S. cbn [sequence] in S. rewrite S, decide_False by (by intros <-; eapply N). done.
Qed.
Lemma spares_cancel i s t : spares s t → spares s (cancel_slot i t).
Proof.
  intros H. etransitivity; [exact H|]. unfold cancel_slot. cbv zeta. set (u := upd_proc i _ t). assert (spares t u) as Hu.
  { unfold u, upd_proc. case_match; [|done]. split; [done|]. intros j. rewrite get_upd_process. by case_decide; subst. }
  clearbody u. etransitivity; [exact Hu|]. case_match; by apply spares_same.
Qed.
Lemma spares_notify s t : spares s t → spares s (task_notify_shell_input t).
Proof.
  intros H. etransitivity; [exact H|]. unfold task_notify_shell_input. case_match; [done|]. cbv zeta.
  match goal with |- spares t (set_iflag _ ?u) => assert (spares t u) as Hu; [|revert Hu; generalize u] end.
  { apply (for_range_pres (spares t)); [by apply spares_same|]. intros i u _ Hu. case_match; [|done]. by apply spares_signal. }
  intros u Hu. etransitivity; [exact Hu|]. by apply spares_same.
Qed.
Lemma spares_byte status code s t : spares s t → spares s (keyboard_byte status code t).
Proof.
  intros H. etransitivity; [exact H|]. unfold keyboard_byte. case_match; [done|]. destruct (keyboard_decode _ _) as [c d]. cbv zeta.
  assert (spares t (set_keys (set_decoder d (keys t)) t)) as H1 by by apply spares_same. revert H1. generalize (set_keys (set_decoder d (keys t)) t).
  intros u Hu. case_match; [done|]. destruct (if c =? 3 then _ else _) as [b v] eqn:E. assert (spares u v) as Hv.
  { destruct (c =? 3); [|by injection E as <- <-]. unfold task_cancel_foreground in E. case_match; [injection E as <- <-; by apply spares_same|].
    case_match; injection E as <- <-; [|by apply spares_same]. transitivity (cancel_slot z (set_iflag false u)); [|by apply spares_same].
    by apply spares_cancel, spares_same. }
  etransitivity; [exact Hu|]. etransitivity; [exact Hv|]. destruct b; [by apply spares_signal|]. destruct (enqueue _ _) as [b k]. destruct b; [|by apply spares_same].
  apply spares_signal; [done|]. apply spares_notify, spares_signal; [done|]. by apply spares_same.
Qed.
Lemma spares_timer s t : spares s t → spares s (timer_interrupt t).
Proof.
  intros H. etransitivity; [exact H|]. unfold timer_interrupt. cbv zeta. apply spares_signal; [done|]. rewrite tick_eq. case_match; [by apply spares_same|].
  unfold charge, wake_all. destruct (wake_loop_other (due_task (ticks (set_ticks (wrap32 (ticks t + 1)) t))) TASK_WAIT_TIMEOUT (set_ticks (wrap32 (ticks t + 1)) t)) as [l El].
  rewrite El. repeat case_match; by apply spares_same.
Qed.
Lemma spares_interrupts w s : spares s (interrupts w s).
Proof.
  assert (∀ t, spares s t → spares s (interrupts w t)) as H; [|by apply H]. unfold interrupts. induction w as [|i w IH]; intros t Ht; [done|]. apply IH.
  unfold interrupt. case_match; [done|]. etransitivity; [exact Ht|]. cbv zeta. set (u := set_in_irq true (set_iflag false t)). assert (spares t u) as Hu by by apply spares_same.
  clearbody u. assert (spares t (match i with Timer => timer_interrupt u | Keys l => keyboard_interrupt l u end)) as Hv.
  { destruct i as [|l]; [by apply spares_timer|]. unfold keyboard_interrupt. revert u Hu. induction (take 32 l) as [|[a b] x IHx]; intros u Hu; [done|].
    cbn. by apply IHx, spares_byte. }
  etransitivity; [exact Hv|]. by apply spares_same.
Qed.

Lemma wait_child_again id nohang w s t : registry true s → wait_child_pass kernel switch_esp id nohang w s = Some (ChildAgain, t) →
  task_current_cancelled t = true.
Proof.
  intros R. unfold wait_child_pass. destruct (task_current_cancelled s); [done|]. cbv zeta. destruct (List.find _ _); [done|].
  destruct (negb (existsb _ _)); [done|]. destruct nohang; [done|].
  pose proof (calm_interrupts _ _ _ _ w (calm_refl _ _ _ R)) as C. destruct (spares_interrupts w s) as [_ E]. revert C E. generalize (interrupts w s). intros u C E.
  unfold task_wait. destruct (wait_common _ _ _ _ _ _ _) as [[r v]|] eqn:W; [|done]. destruct r as [r|]; [|done].
  apply wait_returns in W as [-> Wr]; [|apply C]. cbn [map_progress]. destruct (valid_wait r) eqn:V; [|done]. intros [= <-].
  unfold valid_wait in V. apply bool_decide_eq_true_1 in V. destruct (Wr V) as [?|N]; [done|]. exfalso. apply N. cbn. apply E.
Qed.
Lemma wait_child_pass_total id nohang w s : registry true s → halted (memory s) = false → wait_child_pass kernel switch_esp id nohang w s ≠ None.
Proof.
  intros R H. unfold wait_child_pass. destruct (task_current_cancelled s); [done|]. cbv zeta. destruct (List.find _ _); [done|].
  destruct (negb (existsb _ _)); [done|]. destruct nohang; [done|].
  pose proof (calm_interrupts _ _ _ _ w (calm_refl _ _ _ R)) as C. destruct (spares_interrupts w s) as [M _]. revert C M. generalize (interrupts w s). intros u C M.
  unfold task_wait. pose proof (wait_total kernel switch_esp (Some (Children (cur s))) (task_event_sequence (Some (Children (cur s))) s) false 0 u (calm_registry _ _ _ _ C)) as T.
  destruct (wait_common _ _ _ _ _ _ _) as [[]|]; [done|]. by rewrite M in T; specialize (T H).
Qed.
Lemma wait_child_blocks id nohang w s t : registry true s → wait_child_pass kernel switch_esp id nohang w s = Some (ChildBlocked, t) →
  waits_for (Children (cur s)) (get_task t (cur s)) = true.
Proof.
  intros R. unfold wait_child_pass. destruct (task_current_cancelled s); [done|]. cbv zeta. destruct (List.find _ _); [done|].
  destruct (negb (existsb _ _)); [done|]. destruct nohang; [done|].
  pose proof (calm_interrupts _ _ _ _ w (calm_refl _ _ _ R)) as C. revert C. generalize (interrupts w s). intros u C.
  unfold task_wait. destruct (wait_common _ _ _ _ _ _ _) as [[r v]|] eqn:W; [|done]. destruct r as [r|]; cbn [map_progress]; [by destruct (valid_wait r)|].
  intros [= <-]. apply wait_blocks in W as (_ & _ & St & Wt & _); [|apply C]. rewrite (calm_cur _ _ _ _ C) in *. unfold waits_for.
  by rewrite St, Wt, !bool_decide_eq_true_2.
Qed.
Lemma wait_child_loop_ends id nohang w s : registry true s → halted (memory s) = false →
  ∃ r t, wait_child_loop kernel switch_esp 2 id nohang w s = Some (r, t) ∧ r ≠ ChildAgain ∧
         (r = ChildBlocked → waits_for (Children (cur s)) (get_task t (cur s)) = true).
Proof.
  intros R H. cbn [wait_child_loop]. pose proof (wait_child_pass_total id nohang (w 1%nat) s R H) as T.
  destruct (wait_child_pass kernel switch_esp id nohang (w 1%nat) s) as [[r t]|] eqn:E; [|done].
  destruct r; [by eexists _, _|apply wait_child_blocks in E; [by eexists _, _|done]|].
  apply wait_child_again in E as C; [|done]. unfold wait_child_pass. rewrite C. by eexists _, _.
Qed.

(** C23: waiting for a child always comes to an end or blocks: in a well-formed state, with
    any interrupts arriving before each wait, the call goes round its loop at most twice,
    never stops the machine, and either returns a result or leaves its task registered on
    its children event. *)
Theorem wait_child_returns id nohang given w s : registry true s → halted (memory s) = false →
  (∃ code info t, task_wait_child kernel switch_esp id nohang given w s = Some (ChildResult code info, t)) ∨
  (∃ t, task_wait_child kernel switch_esp id nohang given w s = Some (ChildBlocked, t) ∧ waits_for (Children (cur s)) (get_task t (cur s)) = true).
Proof.
  intros R H. unfold task_wait_child. do 3 (match goal with |- context [if ?b then Some (ChildResult _ _, s) else _] => destruct b; [left; by eexists _, _, _|] end).
  destruct (wait_child_loop_ends id nohang w s R H) as (r & t & E & N & B). unfold WAIT_CHILD_PASSES. rewrite E.
  destruct r; [left; by eexists _, _, _|right; eexists; split; [done|by apply B]|done].
Qed.

(** C24: a sleep lasts at least the time asked for and ends exactly at its deadline, also
    when the tick counter wraps: a task that sleeps [ms] milliseconds is blocked for [d]
    ticks and runnable at tick [d], reporting the timeout, where [d - 1] whole periods of
    ten milliseconds cover [ms] and one period fewer would not. *)
Theorem sleep_ends_on_time (ms : Z) (s t : kstate K) : registry true s → 0 < ms →
  task_sleep kernel switch_esp ms s = Some (Switched, t) →
  ∃ d, ms ≤ 10 * (d - 1) < ms + 10 ∧
  let after k := get_task (Nat.iter k (interrupt Timer) (set_iflag true t)) (cur s) in
  (∀ k, Z.of_nat k < d → state (after k) = TASK_BLOCKED) ∧
  state (after (Z.to_nat d)) = TASK_RUNNABLE ∧ wake_reason (after (Z.to_nat d)) = TASK_WAIT_TIMEOUT.
Proof.
  intros R Hm. unfold task_sleep. destruct (timer_duration_ticks ms) as [d|] eqn:Du; [|done]. apply timer_duration_spec in Du as [Hd Hms]; [|done].
  destruct (Z.eqb_spec d 0); [lia|]. unfold task_wait_for. destruct (wait_common _ _ _ _ _ _ _) as [[r u]|] eqn:W; [|done].
  intros [= Er <-]. destruct r; [done|]. apply wait_blocks in W as (Rt & Tt & St & Wt & At & Dt); [|done]. exists d. split; [done|]. cbv zeta.
  assert (cur s ≠ cur u) as Nc by (intros E; pose proof (reg_rest _ _ _ Rt) as Q; cbn in Q; rewrite E in St; congruence).
  assert (asleep (cur s) d (set_iflag true u)) as A.
  { constructor; [apply set_iflag_quiet; done|done|done|]. rewrite get_task_iflag. split_and!; try done. by rewrite Dt, <- Tt. }
  split; [intros k Hk; apply (asleep_task _ _ _ (asleep_ticks _ _ _ k Hd A ltac:(lia)))|].
  replace (Z.to_nat d) with (S (Z.to_nat (d - 1))) by lia. rewrite !Nat.iter_succ.
  pose proof (asleep_ticks _ _ _ (Z.to_nat (d - 1)) Hd A ltac:(lia)) as B. pose proof (asleep_tick _ (d - Z.of_nat (Z.to_nat (d - 1))) _ ltac:(lia) B) as T. by rewrite decide_True in T by lia.
Qed.
End Waits.

Import TaskSample.
(** Boot waits for an event; boot sleeps 25 milliseconds with the clock about to wrap. *)
Definition boot_waiting : kstate (gmap Z Z) := Eval vm_compute in match wait_common 1 esp (Some Work) 0 false 0 ready_worker with Some (_, t) => t | None => ready_worker end.
Lemma boot_waits : wait_common 1 esp (Some Work) 0 false 0 ready_worker = Some (Switched, boot_waiting).
Proof. vm_compute. reflexivity. Qed.

Lemma wait_child_returns_witness : registry 1 true ready_worker ∧
  ((∃ code info t, task_wait_child 1 esp 0 false true (λ _, [Timer]) ready_worker = Some (ChildResult code info, t)) ∨
   (∃ t, task_wait_child 1 esp 0 false true (λ _, [Timer]) ready_worker = Some (ChildBlocked, t) ∧
         waits_for (Children (cur ready_worker)) (get_task t (cur ready_worker)) = true)).
Proof. split; [apply ready_worker_registry|]. apply (wait_child_returns 1 esp 0 false true (λ _, [Timer]) ready_worker ready_worker_registry). reflexivity. Defined.

Definition late_worker : kstate (gmap Z Z) := Eval vm_compute in set_ticks UINT32_MAX ready_worker.
Definition sleeping : kstate (gmap Z Z) := Eval vm_compute in match task_sleep 1 esp 25 late_worker with Some (_, t) => t | None => late_worker end.
Lemma late_worker_registry : registry 1 true late_worker.
Proof. eapply (minor_registry 1 true ready_worker); [apply ready_worker_registry|]. exact (minor_ticks UINT32_MAX ready_worker). Qed.
Lemma boot_sleeps : task_sleep 1 esp 25 late_worker = Some (Switched, sleeping).
Proof. vm_compute. reflexivity. Qed.
Lemma sleep_ends_on_time_witness : ∃ d, 25 ≤ 10 * (d - 1) < 25 + 10 ∧
  let after k := get_task (Nat.iter k (interrupt Timer) (set_iflag true sleeping)) (cur late_worker) in
  (∀ k, Z.of_nat k < d → state (after k) = TASK_BLOCKED) ∧
  state (after (Z.to_nat d)) = TASK_RUNNABLE ∧ wake_reason (after (Z.to_nat d)) = TASK_WAIT_TIMEOUT.
Proof. exact (sleep_ends_on_time 1 esp 25 late_worker sleeping late_worker_registry eq_refl boot_sleeps). Defined.
