(* ===== verification/Lifetime.v ===== *)
(** * The end of a process and its descendants (kernel/process/task.c)

    The breadth-first search of [terminate_current] finds exactly the transitive
    descendants, within its fixed queue, and the exit hands exactly those to the boot
    task, cancelled and never left blocked. *)

From S2P Require Import Prelude Block Path Fs Paging Spaces Session Handles Gdt Keyboard Task Registry Scheduler Waits.

Section Lifetime.
Context {K : Type} (kernel : Z).
Implicit Types (s t : kstate K).
Notation registry := (registry kernel).

(** ** Descendants *)

Definition other_slot s (i : Z) : Prop := 2 ≤ i < TASK_SLOTS ∧ used s i = true ∧ i ≠ cur s.
Inductive descendant s : Z → Prop :=
| desc_child i : other_slot s i → parent (proc s i) = tid (get_task s (cur s)) → descendant s i
| desc_step i j : descendant s j → other_slot s i → parent (proc s i) = tid (get_task s j) → descendant s i.

(** The slots one scan for the children of [id] adds. *)
Definition child_slot s (id i : Z) : Prop := other_slot s i ∧ parent (proc s i) = id.
Lemma descendant_slot s i : descendant s i → other_slot s i.
Proof. by intros []. Qed.

Record scanned s (id n : Z) (a a' : list Z * gset Z) : Prop := {
  sc_marked : ∀ i, i ∈ snd a' ↔ i ∈ snd a ∨ (child_slot s id i ∧ i < n);
  sc_queue : ∃ new, fst a' = fst a ++ new ∧ (∀ x, x ∈ new → ∃ i, x = tid (get_task s i) ∧ child_slot s id i ∧ i ∈ snd a') ∧
    (∀ i, child_slot s id i → i < n → i ∉ snd a → tid (get_task s i) ∈ new) ∧ (length new + size (snd a) = size (snd a'))%nat
}.

Lemma scan_spec s id n a : 2 ≤ n ≤ TASK_SLOTS → scanned s id n a (for_range 2 n (scan_children id s) a).
Proof.
  intros Hn. apply (for_range_inv (λ n a', scanned s id n a a')); [lia| |].
  - constructor; [intros i; split; [by left|intros [?|[[[? _] _] ?]]; [done|lia]]|].
    exists []. rewrite app_nil_r. split_and!; [done|by intros x ?%elem_of_nil| |done]. intros i [[? _] _]. lia.
  - intros i [q m] Hi [M (new & Q & N1 & N2 & L)]. unfold scan_children. cbn [fst snd] in *.
    destruct (_ || _) eqn:G.
    + assert (∀ j, child_slot s id j ∧ j < i + 1 → j ∈ snd a ∨ (child_slot s id j ∧ j < i)) as H.
      { intros j [C Hj]. destruct (decide (j = i)) as [->|]; [|right; split; [done|lia]]. destruct C as [(_ & U & Ne) P].
        rewrite U, (proj2 (Z.eqb_neq _ _) Ne), (proj2 (Z.eqb_eq _ _) P) in G. cbn in G. rewrite orb_false_r in G. apply bool_decide_eq_true in G. by apply M. }
      constructor; cbn [fst snd].
      * intros j. rewrite M. split; [intros [?|[? ?]]; [by left|right; split; [done|lia]]|intros [?|?]; [by left|by apply H]].
      * exists new. split_and!; try done. intros j C Hj Nj. destruct (H j (conj C Hj)) as [?|[_ ?]]; [done|by apply N2].
    + repeat rewrite orb_false_iff in G. destruct G as [[[U Ne] Nm] P].
      apply negb_false_iff in U, P. apply Z.eqb_neq in Ne. apply Z.eqb_eq in P. apply bool_decide_eq_false in Nm.
      assert (child_slot s id i) as C by (split; [split; [lia|done]|done]).
      constructor; cbn [fst snd].
      * intros j. rewrite elem_of_union, elem_of_singleton, M. split.
        -- intros [[?|[? ?]]| ->]; [by left|right; split; [done|lia]|right; split; [done|lia]].
        -- intros [?|[? ?]]; [by left; left|]. destruct (decide (j = i)) as [->|]; [by right|left; right; split; [done|lia]].
      * exists (new ++ [tid (get_task s i)]). split_and!.
        -- by rewrite Q, app_assoc.
        -- intros x [Hx|Hx]%elem_of_app; [destruct (N1 x Hx) as (j & ? & ? & ?); exists j; set_solver|].
           apply list_elem_of_singleton in Hx. exists i. set_solver.
        -- intros j Cj Hj Nj. apply elem_of_app. destruct (decide (j = i)) as [->|]; [right; by apply list_elem_of_singleton|].
           left. apply N2; [done|lia|done].
        -- rewrite length_app, size_union, size_singleton by set_solver. cbn. lia.
Qed.

(** Where children are sought: the exiting task and every slot found so far. *)
Definition source s (marked : gset Z) (x : Z) : Prop := x = tid (get_task s (cur s)) ∨ ∃ j, j ∈ marked ∧ x = tid (get_task s j).
Record searching s (fuel : nat) (queue : list Z) (marked : gset Z) : Prop := {
  se_marked : ∀ i, i ∈ marked → descendant s i;
  se_queue : ∀ x, x ∈ queue → source s marked x;
  se_closed : ∀ x, source s marked x → x ∈ queue ∨ ∀ i, child_slot s x i → i ∈ marked;
  se_fuel : (length queue + 16 ≤ fuel + size marked)%nat
}.
Lemma marked_size s (marked : gset Z) : (∀ i, i ∈ marked → descendant s i) → (size marked ≤ 16)%nat.
Proof.
  intros H. assert (marked ⊆ list_to_set (seqZ 2 16)) as Sub.
  { intros i Hi. apply elem_of_list_to_set, elem_of_seqZ. destruct (descendant_slot s i (H i Hi)) as [B _]. unfold TASK_SLOTS, RUM_PROCESS_LIMIT in B. lia. }
  etrans; [by apply subseteq_size|]. vm_compute. lia.
Qed.

Lemma searching_step s fuel id queue marked : searching s (S fuel) (id :: queue) marked →
  searching s fuel (fst (for_range 2 TASK_SLOTS (scan_children id s) (queue, marked))) (snd (for_range 2 TASK_SLOTS (scan_children id s) (queue, marked))).
Proof.
  intros [M Q C F]. destruct (scan_spec s id TASK_SLOTS (queue, marked)) as [M' (new & Q' & N1 & N2 & L)]; [done|].
  revert M' Q' N1 N2 L. generalize (for_range 2 TASK_SLOTS (scan_children id s) (queue, marked)). intros [q m] M' Q' N1 N2 L. cbn [fst snd] in *. subst q.
  assert (∀ i, i ∈ m → descendant s i) as D.
  { intros i [Hi|[[O P] _]]%M'; [by apply M|]. destruct (Q id) as [E|(j & Hj & E)]; [left|by apply desc_child; congruence|].
    apply (desc_step s i j); [by apply M|done|congruence]. }
  assert (∀ x, source s marked x → source s m x) as Mono.
  { intros x [E|(j & Hj & E)]; [by left|]. right. exists j. split; [apply M'; by left|done]. }
  constructor; [done| | |cbn in F; rewrite length_app; lia].
  - intros x [Hx|Hx]%elem_of_app; [apply Mono, Q; by right|]. destruct (N1 x Hx) as (i & -> & _ & Hi). right. by exists i.
  - assert (∀ i, child_slot s id i → i ∈ m) as Kids by (intros i Ci; apply M'; right; split; [done|apply Ci]).
    assert (∀ x, source s marked x → x ∈ queue ++ new ∨ ∀ i, child_slot s x i → i ∈ m) as Old.
    { intros x Sx. destruct (C x Sx) as [Hx|Hx]; [|right; intros i Ci; apply M'; left; by apply Hx].
      apply elem_of_cons in Hx as [->|Hx]; [by right|left; apply elem_of_app; by left]. }
    intros x [E|(j & Hj & ->)]; [apply Old; by left|]. destruct (decide (j ∈ marked)) as [Hm|Hm]; [apply Old; right; by exists j|].
    left. apply elem_of_app. right. apply M' in Hj as [?|[Cj Lj]]; [done|]. by apply N2.
Qed.

Lemma descend_spec s fuel queue marked i : searching s fuel queue marked → i ∈ descend fuel queue marked s ↔ descendant s i.
Proof.
  revert queue marked i. induction fuel as [|fuel IH]; intros queue marked i H.
  1: assert (queue = []) as -> by (destruct H as [M _ _ F]; pose proof (marked_size s marked M); destruct queue; [done|cbn in F; lia]).
  2: destruct queue as [|id queue].
  3: { cbn [descend]. apply searching_step in H. destruct (for_range _ _ _ _) as [q m]. by apply IH. }
  all: cbn; destruct H as [M _ C _]; split; [apply M|]; intros D; induction D as [i O P|i j D IHj O P].
  all: assert (∀ x, source s marked x → ∀ i, child_slot s x i → i ∈ marked) as C' by (intros x Sx; destruct (C x Sx) as [[]%elem_of_nil|?]; done).
  1,3: apply (C' (tid (get_task s (cur s)))); [by left|done].
  all: apply (C' (tid (get_task s j))); [right; by exists j|done].
Qed.
Lemma descendants_spec s i : i ∈ descendants s ↔ descendant s i.
Proof.
  apply descend_spec. constructor.
  - by intros j ?%elem_of_empty.
  - intros x ->%list_elem_of_singleton. by left.
  - intros x [->|(j & []%elem_of_empty & _)]. left. by apply list_elem_of_singleton.
  - vm_compute. lia.
Qed.

(** ** Whom the exit abandons *)

Definition family s (i : Z) : Z * bool * bool :=
  (parent (get_process s i), orphaned (get_process s i), cancellation_requested (get_process s i)).
Definition in_session s (i : Z) : Prop :=
  console_is_root (consoles s) (Some (cur s)) = true ∧ other_slot s i ∧ console_same_session (consoles s) (Some i) (Some (cur s)) = true.

Lemma abandoned_spec s i : i ∈ abandoned s ↔ descendant s i ∨ in_session s i.
Proof.
  unfold abandoned, in_session. rewrite <- descendants_spec. cbv zeta. generalize (descendants s). intros tree.
  destruct (console_is_root _ _); [|naive_solver].
  set (test := λ i, used s i && negb (i =? cur s) && console_same_session (consoles s) (Some i) (Some (cur s))).
  assert (∀ n, 2 ≤ n → i ∈ for_range 2 n (λ i m, if test i then m ∪ {[ i ]} else m) tree ↔ i ∈ tree ∨ (2 ≤ i < n ∧ test i = true)) as H.
  { intros n Hn. apply (for_range_inv (λ n m, i ∈ m ↔ i ∈ tree ∨ (2 ≤ i < n ∧ test i = true))); [lia|split; [by left|intros [?|[? ?]]; [done|lia]]|].
    intros j m Hj IH. destruct (test j) eqn:T; rewrite ?elem_of_union, ?elem_of_singleton, IH.
    - split; [intros [[?|[? ?]]| ->]; [by left|right; split; [lia|done]|right; split; [lia|done]]|].
      intros [?|[? ?]]; [by left; left|]. destruct (decide (i = j)); [by right|left; right; split; [lia|done]].
    - split; [intros [?|[? ?]]; [by left|right; split; [lia|done]]|]. intros [?|[? E]]; [by left|].
      right. split; [|done]. destruct (decide (i = j)) as [->|]; [congruence|lia]. }
  specialize (H TASK_SLOTS ltac:(done)). unfold test in H. rewrite H. unfold other_slot.
  rewrite !andb_true_iff, negb_true_iff, Z.eqb_neq. tauto.
Qed.

(** Updates that keep every process's family. *)
Definition same_families s t : Prop := ∀ i, family t i = family s i.
Lemma families_processes s t : processes t = processes s → same_families s t.
Proof. intros E i. unfold family, get_process. by rewrite E. Qed.
Lemma signal_families e s : same_families s (task_event_signal e s).
Proof.
  destruct e as [e|]; [|done]. intros i. rewrite signal_eq. cbv zeta. set (u := set_sequence _ _ _).
  assert (family u i = family s i) as <-.
  { unfold u, family. destruct e; cbn [set_sequence]; try done; rewrite get_upd_process; case_decide; by subst. }
  clearbody u. destruct (ready u); [|done]. unfold wake_all. by destruct (wake_loop_other (waits_for e) TASK_WAIT_EVENT u) as [l ->].
Qed.
Lemma notify_parent_families s : same_families s (notify_parent s).
Proof.
  unfold notify_parent. case_match; [done|]. case_match; [|done]. case_match; intros i; rewrite ?signal_families; done.
Qed.

Lemma cancel_slot_family i s j : registry true s → used s i = true →
  family (cancel_slot i s) j = if decide (j = i) then (parent (get_process s j), orphaned (get_process s j), true) else family s j.
Proof.
  intros R U. unfold cancel_slot. transitivity (family (upd_proc i (set_cancellation_requested true) s) j); [by case_match|].
  unfold upd_proc. rewrite (reg_process _ _ _ R i U). unfold family. rewrite get_upd_process. by case_decide; subst.
Qed.
Lemma orphan_family i s j : registry true s → used s i = true → family (orphan i s) j = if decide (j = i) then (1, true, true) else family s j.
Proof.
  intros R U. unfold orphan. set (f := λ p, set_orphaned true (set_parent (tid (get_task s BOOT)) p)).
  assert (calm kernel true s (upd_proc i f s)) as C by (eapply calm_minor; [by apply calm_refl|by apply minor_upd_proc]).
  rewrite cancel_slot_family; [|apply C|by rewrite (calm_used _ _ _ _ _ C)].
  unfold upd_proc. rewrite (reg_process _ _ _ R i U). unfold family. rewrite !get_upd_process. case_decide; [|done].
  cbn. by destruct (reg_boot _ _ _ R) as [-> _].
Qed.
Lemma cancel_slot_awake i s : state (get_task (cancel_slot i s) i) ≠ TASK_BLOCKED.
Proof.
  unfold cancel_slot. cbv zeta. destruct (in_state _ _ _) eqn:E; [by rewrite get_upd_task, decide_True|].
  intros F. apply in_state_eq in F. congruence.
Qed.

Lemma calm_awake rest s t i : calm kernel rest s t → state (get_task s i) ≠ TASK_BLOCKED → state (get_task t i) ≠ TASK_BLOCKED.
Proof. intros C N. destruct (calm_state _ _ _ _ C i) as [->|[? ?]]; congruence. Qed.

Record orphaned_below s (m : gset Z) (n : Z) u : Prop := {
  ob_calm : calm kernel true s u;
  ob_in : ∀ j, j ∈ m → j < n → family u j = (1, true, true) ∧ state (get_task u j) ≠ TASK_BLOCKED;
  ob_out : ∀ j, ¬ (j ∈ m ∧ j < n) → family u j = family s j
}.
Lemma orphan_all_spec s m : registry true s → (∀ j, j ∈ m → other_slot s j) → orphaned_below s m TASK_SLOTS (orphan_all m s).
Proof.
  intros R M. unfold orphan_all. apply (for_range_inv (orphaned_below s m)); [done| |].
  - constructor; [by apply calm_refl| |done]. intros j Hj. destruct (M j Hj) as [? _]. lia.
  - intros i u Hi [C In Out]. case_bool_decide as Hm.
    + assert (used u i = true) as U by (rewrite (calm_used _ _ _ _ _ C); apply M; done). pose proof (calm_registry _ _ _ _ C) as Ru.
      assert (calm kernel true u (orphan i u)) as C1 by (by apply calm_orphan, calm_refl).
      constructor; [by eapply calm_trans| |].
      * intros j Hj Lj. rewrite orphan_family by done. destruct (decide (j = i)) as [->|]; [split; [done|apply cancel_slot_awake]|].
        destruct (In j Hj ltac:(lia)) as [F A]. split; [done|by eapply calm_awake].
      * intros j Hj. rewrite orphan_family by done. rewrite decide_False; [apply Out; intros [? ?]; apply Hj; split; [done|lia]|].
        intros ->. apply Hj. split; [done|lia].
    + constructor; [done| |].
      * intros j Hj Lj. apply In; [done|]. assert (j ≠ i) by congruence. lia.
      * intros j Hj. apply Out. intros [? ?]. apply Hj. split; [done|lia].
Qed.

(** C22: an exit abandons exactly the exiting task's transitive descendants and, when it is
    the root of a console session, the other members of that session: each of them gets
    the boot task as parent, is marked orphaned and cancelled and is not left blocked,
    and the parent, orphan and cancellation marks of every other task are untouched. The
    search visits every descendant within its queue of one entry per slot. *)
Theorem exit_abandons_exactly (s : kstate K) (i : Z) : registry true s → cur s ≠ BOOT → cur s ≠ IDLE → i ≠ cur s →
  let t := leave_registry s in
  (descendant s i ∨ in_session s i → family t i = (1, true, true) ∧ state (get_task t i) ≠ TASK_BLOCKED) ∧
  (¬ (descendant s i ∨ in_session s i) → family t i = family s i).
Proof.
  intros R Nb Ni N. cbv zeta. rewrite <- abandoned_spec.
  assert (∀ j, j ∈ abandoned s → other_slot s j) as M by (intros j [D|(_ & O & _)]%abandoned_spec; [by apply descendant_slot|done]).
  destruct (orphan_all_spec s (abandoned s) R M) as [C In Out]. unfold leave_registry. cbv zeta.
  revert C In Out. generalize (orphan_all (abandoned s) s). intros s1 C In Out.
  match goal with |- context [upd_console ?f s1] => pose proof (calm_console _ _ _ _ f C) as C2; assert (same_families s1 (snd (upd_console f s1))) as F2
    by (unfold upd_console; destruct (f _); apply families_processes; done);
    assert (∀ j, get_task (snd (upd_console f s1)) j = get_task s1 j) as T2 by (unfold upd_console; by destruct (f _)); destruct (upd_console f s1) as [discard s2] end.
  cbn [snd] in C2, F2, T2. set (s3 := if discard then _ else s2).
  assert (calm kernel true s s3 ∧ same_families s1 s3 ∧ ∀ j, get_task s3 j = get_task s1 j) as (C3 & F3 & T3).
  { unfold s3. destruct discard; [|done]. split; [eapply calm_minor; [exact C2|apply minor_keys]|]. split; [exact F2|exact T2]. }
  clearbody s3. clear s2 C2 F2 T2. rewrite <- (calm_cur _ _ _ _ C3) in Nb, Ni, N. pose proof (calm_registry _ _ _ _ C3) as R3.
  destruct (running_waits_not kernel s3 (cur s3) R3 (reg_rest _ _ _ R3)) as (W1 & W2 & W3). set (s4 := upd_task (cur s3) (set_state TASK_EXITED) s3).
  assert (registry false s4) as R4.
  { apply (depart_registry kernel s3); [done|]. constructor; try done. unfold waits. cbn. rewrite W1, W2. split; [done|intros [?|?]; congruence]. }
  assert (get_task s4 i = get_task s1 i) as T4 by (unfold s4; by rewrite get_upd_task, decide_False, T3).
  assert (family s4 i = family s1 i) as F4 by exact (F3 i). clearbody s4.
  assert (calm kernel false s4 (notify_parent (set_exited (wrap32 (exited s4 + 1)) s4))) as C5
    by (apply calm_notify_parent; eapply calm_minor; [by apply calm_refl|apply minor_exited]).
  pose proof (notify_parent_families (set_exited (wrap32 (exited s4 + 1)) s4) i) as F5. change (family (set_exited _ s4) i) with (family s4 i) in F5.
  rewrite F5, F4. split; [|intros H; apply Out; tauto].
  intros H. destruct (M i H) as ([_ L] & _). destruct (In i H L) as [F A]. split; [done|]. apply (calm_awake false s4); [done|]. by rewrite T4.
Qed.

(** ** Creation is all or nothing *)

(** Creating a process either fails with 0 and leaves every slot, every id, the next id
    and the registered address spaces as they were, whatever interrupts arrive meanwhile
    and at whichever step it fails; or it returns the next id, never 0, and exactly one
    slot that was free holds a task with that id, which no other live task has. *)
Theorem creation_all_or_nothing ops start_address halt_address (given : option task_process) (fg sh : bool) (w : nat → list irq) (s t : kstate K) (id : Z) :
  registry true s → create_process ops kernel start_address halt_address given fg sh w s = Some (id, t) →
  if decide (id = 0) then
    (∀ i, used t i = used s i ∧ tid (get_task t i) = tid (get_task s i)) ∧ next_id t = next_id s ∧ spaces (memory t) = spaces (memory s)
  else
    id = next_id s ∧ ∃ i, used s i = false ∧ used t i = true ∧ tid (get_task t i) = id ∧
    (∀ j, j ≠ i → used t j = used s j ∧ tid (get_task t j) = tid (get_task s j)) ∧
    (∀ j, used t j = true → tid (get_task t j) = id → j = i).
Proof.
  intros R E. eapply (create_process_cases kernel (λ _, 0)) in E; [|exact R]. destruct E as [[-> C]|(i & Rt & _ & [[_ U] (-> & N & _) [Ut It] O])].
  - rewrite decide_True by done. split; [intros i; split; [by apply (calm_used kernel true)|apply (calm_tid _ _ _ _ C)]|].
    split; [apply (calm_next _ _ _ _ C)|apply (calm_spaces _ _ _ _ C)].
  - rewrite decide_False by done. split; [done|]. exists i. split_and!; try done. intros j Uj Ij. apply (reg_unique _ _ _ Rt); [done|done|congruence].
Qed.
End Lifetime.

(** The worker of the small machine with a child in slot 3. *)
Module LifetimeSample.
Import TaskSample.
Definition child : task := Task 4 TASK_RUNNABLE 0 2 (RUM_KERNEL_STACK_SLOT_BASE 2) (RUM_KERNEL_STACK_SLOT_TOP 2) 4 0 0 false (Some 0x600) 0 no_frame None 0 false TASK_WAIT_EVENT None.
Definition child_process : process_state := set_parent 3 kproc.
Definition with_child : kstate (gmap Z Z) := default turn1 (publish 3 child child_process (set_next_id 5 turn1)).
End LifetimeSample.
Import TaskSample LifetimeSample.

Lemma turn1_registry : registry 1 true turn1.
Proof. destruct (task_yield_ok 1 esp ready_worker Switched turn1 ready_worker_registry turn1_yields) as [R _]. exact R. Qed.
Lemma with_child_registry : registry 1 true with_child.
Proof.
  assert (registry 1 true (set_next_id 5 turn1)) as R by (apply (next_id_registry 1 true turn1 turn1_registry); done).
  eapply (publish_registry 1 3 child child_process); [exact R| |reflexivity]. constructor; try done.
  - split; [done|]. split; [done|]. intros j Uj. destruct (reg_ids _ _ _ turn1_registry j Uj) as [_ L]. specialize (L ltac:(done)).
    change (tid (get_task turn1 j) ≠ 4). change (tid (get_task turn1 j) < 4) in L. lia.
  - exists 1. split_and!; done.
Qed.
Lemma exit_abandons_exactly_witness : descendant with_child 3 ∧ family (leave_registry with_child) 3 = (1, true, true).
Proof.
  assert (descendant with_child 3) as D by (apply desc_child; [split; [split; done|split; [reflexivity|discriminate]]|reflexivity]).
  split; [exact D|]. apply (exit_abandons_exactly 1 with_child 3 with_child_registry); [discriminate..|]. left. exact D.
Defined.

(** The boot task asks for a process without an address space. *)
Lemma creation_all_or_nothing_witness :
  ∃ t, create_process SampleBackend.ops 1 0x200 0x300 (Some (TaskProcess None no_frame ∅)) true false (λ _, []) ready_worker = Some (0, t) ∧
  ∀ i, used t i = used ready_worker i ∧ tid (get_task t i) = tid (get_task ready_worker i).
Proof.
  exists ready_worker.
  assert (create_process SampleBackend.ops 1 0x200 0x300 (Some (TaskProcess None no_frame ∅)) true false (λ _, []) ready_worker = Some (0, ready_worker)) as E by (vm_compute; reflexivity).
  split; [exact E|].
  apply (creation_all_or_nothing 1 SampleBackend.ops 0x200 0x300 (Some (TaskProcess None no_frame ∅)) true false (λ _, []) ready_worker ready_worker 0 ready_worker_registry E).
Defined.
