(* ===== verification/Exits.v ===== *)
(** * Ends of tasks (kernel/process/task.c)

    What leaving the registry and interrupts do not touch, and from it that a task that may
    end does end: [terminate_current] never stops the machine, another context runs, and the
    record of the task says why it ended. *)

From S2P Require Import Prelude Block Path Fs Paging Spaces Session Handles Gdt Keyboard Task Registry Scheduler Waits Lifetime.

Section Exits.
Context {K : Type} (ops : fs_operations K) (kernel : Z) (switch_esp : kstate K → Z).
Implicit Types (s t u : kstate K) (e : event).
Notation registry := (registry kernel).

(** ** What stays *)

(** How a process ended, and its handles. *)
Definition fate (p : process_state) : task_termination * Z * task_fault * process_handles := (termination p, status p, fault p, handles p).
Record kept s t : Prop := {
  kept_memory : memory t = memory s;
  kept_files : files t = files s;
  kept_block : block_active t = block_active s;
  kept_irq : in_irq t = in_irq s;
  kept_iflag : iflag t = iflag s;
  kept_holds : ∀ i, switch_holds (get_task t i) = switch_holds (get_task s i);
  kept_fate : ∀ i, fate (get_process t i) = fate (get_process s i)
}.
#[local] Instance kept_preorder : PreOrder kept.
Proof.
  split; [done|]. intros s t u [] []. constructor; congruence.
Qed.
Lemma kept_upd_task i f s : (∀ x, switch_holds (f x) = switch_holds x) → kept s (upd_task i f s).
Proof. intros F. constructor; try done. intros j. rewrite get_upd_task. case_decide; [subst; apply F|done]. Qed.
Lemma kept_upd_process i f s : (∀ p, fate (f p) = fate p) → kept s (upd_process i f s).
Proof. intros F. constructor; try done. intros j. rewrite get_upd_process. case_decide; [subst; apply F|done]. Qed.
Lemma kept_upd_proc i f s : (∀ p, fate (f p) = fate p) → kept s (upd_proc i f s).
Proof. intros F. unfold upd_proc. case_match; [by apply kept_upd_process|done]. Qed.
Lemma kept_wake_all test r s : kept s (wake_all test r s).
Proof.
  assert (∃ l, wake_all test r s = set_tasks l s) as [l E] by apply wake_loop_other. constructor; try (by rewrite E).
  intros i. rewrite wake_all_task. by case_match.
Qed.
Lemma kept_sequence e v s : kept s (set_sequence e v s).
Proof. destruct e; cbn; try (by constructor); by apply kept_upd_process. Qed.
(** An interrupt flag cleared for a while. *)
Lemma kept_masked s t : kept (set_iflag false s) t → kept s (set_iflag (iflag s) t).
Proof. intros []. by constructor. Qed.
Lemma kept_signal (o : option event) s : kept s (task_event_signal o s).
Proof.
  destruct o as [e|]; [|done]. rewrite signal_eq. apply kept_masked. cbv zeta. set (u := set_sequence _ _ _).
  assert (kept (set_iflag false s) u) as H by apply kept_sequence. clearbody u. case_match; [|done]. etransitivity; [exact H|apply kept_wake_all].
Qed.
Lemma kept_consoles c s : kept s (set_consoles c s).
Proof. by constructor. Qed.
Lemma kept_keys k s : kept s (set_keys k s).
Proof. by constructor. Qed.
Lemma kept_cancel i s : kept s (cancel_slot i s).
Proof.
  unfold cancel_slot. cbv zeta. set (u := upd_proc i _ s). assert (kept s u) as Hu by by apply kept_upd_proc. clearbody u.
  etransitivity; [exact Hu|]. etransitivity; [apply kept_consoles|]. case_match; [by apply kept_upd_task|reflexivity].
Qed.
Lemma kept_notify s : kept s (task_notify_shell_input s).
Proof.
  unfold task_notify_shell_input. case_match; [done|]. cbv zeta. apply kept_masked. apply (for_range_pres (kept (set_iflag false s))); [reflexivity|].
  intros i u _ Hu. case_match; [|done]. etransitivity; [exact Hu|apply kept_signal].
Qed.
Lemma kept_cancel_foreground s : kept s (task_cancel_foreground s).2.
Proof.
  unfold task_cancel_foreground. cbv zeta. case_match; [by apply kept_masked|]. case_match; cbn [snd]; apply kept_masked; [apply kept_cancel|done].
Qed.
Lemma kept_byte status code s : kept s (keyboard_byte status code s).
Proof.
  unfold keyboard_byte. case_match; [done|]. destruct (keyboard_decode _ _) as [c d]. cbv zeta. etransitivity; [apply (kept_keys (set_decoder d (keys s)))|].
  generalize (set_keys (set_decoder d (keys s)) s). intros u. case_match; [done|]. assert (kept u (if c =? 3 then task_cancel_foreground u else (false, u)).2) as Hv
    by (destruct (c =? 3); [apply kept_cancel_foreground|done]). destruct (if c =? 3 then _ else _) as [b v]. cbn [snd] in Hv. etransitivity; [exact Hv|].
  destruct b; [apply kept_signal|]. destruct (enqueue _ _) as [stored k]. etransitivity; [apply (kept_keys k)|]. destruct stored; [|done].
  etransitivity; [apply kept_signal|]. etransitivity; [apply kept_notify|apply kept_signal].
Qed.
Lemma kept_charge s : kept s (charge s).
Proof.
  unfold charge. destruct (current s) as [c|]; [|done]. case_match; [done|]. cbv zeta. etransitivity; [by apply (kept_upd_task c (set_slice_ticks (slice_ticks (get_task s c) - 1)))|].
  case_match; [by apply kept_upd_task|done].
Qed.
Lemma kept_timer s : kept s (timer_interrupt s).
Proof.
  unfold timer_interrupt. cbv zeta. transitivity (set_ticks (wrap32 (ticks s + 1)) s); [by constructor|]. generalize (set_ticks (wrap32 (ticks s + 1)) s). intros u.
  etransitivity; [|apply kept_signal]. rewrite tick_eq. case_match; [done|]. etransitivity; [apply kept_wake_all|apply kept_charge].
Qed.
Lemma kept_interrupt i s : kept s (interrupt i s).
Proof.
  unfold interrupt. destruct (iflag s) eqn:I; cbn [negb]; [|done]. cbv zeta. set (u := set_in_irq true (set_iflag false s)).
  assert (kept u (match i with Timer => timer_interrupt u | Keys l => keyboard_interrupt l u end)) as [].
  { destruct i as [|l]; [apply kept_timer|]. unfold keyboard_interrupt. generalize u. induction (take 32 l) as [|[a b] x IH]; intros v; [done|]. cbn. etransitivity; [apply kept_byte|apply IH]. }
  by constructor.
Qed.
Lemma kept_interrupts w s : kept s (interrupts w s).
Proof. unfold interrupts. revert s. induction w as [|i w IH]; intros s; [done|]. cbn. etransitivity; [apply kept_interrupt|apply IH]. Qed.
Lemma kept_orphan_all m s : kept s (orphan_all m s).
Proof.
  unfold orphan_all. apply (for_range_pres (kept s)); [done|]. intros i u _ Hu. case_bool_decide; [|done]. etransitivity; [exact Hu|]. unfold orphan.
  etransitivity; [by apply (kept_upd_proc i (λ p, set_orphaned true (set_parent (tid (get_task u BOOT)) p)))|apply kept_cancel].
Qed.
Lemma kept_leave s : kept s (leave_registry s).
Proof.
  unfold leave_registry. cbv zeta. etransitivity; [apply (kept_orphan_all (abandoned s))|]. generalize (orphan_all (abandoned s) s). intros u.
  unfold upd_console. destruct (console_member_exit _ _) as [discard c]. etransitivity; [apply (kept_consoles c)|]. generalize (set_consoles c u). clear u. intros u.
  set (v := if discard then _ else u). assert (kept u v) as Hv by (unfold v; destruct discard; [apply kept_keys|done]). clearbody v. etransitivity; [exact Hv|].
  etransitivity; [by apply (kept_upd_task (cur v) (set_state TASK_EXITED))|]. generalize (upd_task (cur v) (set_state TASK_EXITED) v). clear. intros v.
  transitivity (set_exited (wrap32 (exited v + 1)) v); [by constructor|]. generalize (set_exited (wrap32 (exited v + 1)) v). clear v. intros v. unfold notify_parent.
  case_match; [done|]. case_match; [|done]. etransitivity; [apply kept_signal|]. case_match; [apply kept_signal|done].
Qed.

(** ** Leaving *)

Lemma calm_exited rest s t i : calm kernel rest s t → state (get_task t i) = TASK_EXITED ↔ state (get_task s i) = TASK_EXITED.
Proof. intros C. destruct (calm_state _ _ _ _ C i) as [->|[-> ->]]; done. Qed.
(** Leaving ends the current task and no other. *)
Lemma leave_exited s i : registry true s → cur s ≠ BOOT → cur s ≠ IDLE →
  state (get_task (leave_registry s) i) = TASK_EXITED ↔ i = cur s ∨ state (get_task s i) = TASK_EXITED.
Proof.
  intros R Nb Ni. unfold leave_registry. pose proof (calm_orphan_all kernel _ _ _ (abandoned s) (calm_refl _ _ _ R)) as C1.
  revert C1. generalize (orphan_all (abandoned s) s). intros s1 C1. cbv zeta.
  match goal with |- context [upd_console ?f s1] => pose proof (calm_console _ _ _ _ f C1) as C2; destruct (upd_console f s1) as [discard s2] end. cbn [snd] in C2.
  set (s3 := if discard then _ else s2). assert (calm kernel true s s3) as C3 by (unfold s3; destruct discard; [eapply calm_minor; [exact C2|apply minor_keys]|done]).
  clearbody s3. rewrite <- (calm_exited _ _ _ i C3). rewrite <- (calm_cur _ _ _ _ C3) in Nb, Ni |- *. pose proof (calm_registry _ _ _ _ C3) as R3.
  destruct (running_waits_not kernel s3 (cur s3) R3 (reg_rest _ _ _ R3)) as (W1 & W2 & W3). set (s4 := upd_task (cur s3) (set_state TASK_EXITED) s3).
  assert (registry false s4) as R4.
  { apply (depart_registry kernel s3); [done|]. constructor; try done. unfold waits. cbn. rewrite W1, W2. split; [done|intros [?|?]; congruence]. }
  assert (state (get_task s4 i) = TASK_EXITED ↔ i = cur s3 ∨ state (get_task s3 i) = TASK_EXITED) as E4
    by (unfold s4; rewrite get_upd_task; case_decide; [subst; cbn; tauto|tauto]). clearbody s4.
  assert (calm kernel false s4 (notify_parent (set_exited (wrap32 (exited s4 + 1)) s4))) as C5
    by (apply calm_notify_parent; eapply calm_minor; [by apply calm_refl|apply minor_exited]).
  by rewrite (calm_exited _ _ _ i C5).
Qed.

(** ** Ends *)

(** What an end writes in the record of the task. *)
Definition ended (why : task_termination) (code : Z) (frame : option exception_user_frame) (address : Z) (p : process_state) :
  task_termination * Z * task_fault :=
  (why, code, match frame with
              | None => fault p
              | Some f => Fault (vector (core f)) (error (core f)) (if vector (core f) =? 14 then address else 0) (frame_eip (core f)) (exception_frame_esp f)
              end).
Definition end_record (p : process_state) : task_termination * Z * task_fault := (termination p, status p, fault p).

(** The first part of an end: the wait is forgotten and the record is written. *)
Definition marked why code frame address s : kstate K :=
  let s := upd_task (cur s) clear_wait (set_iflag false s) in
  let s := upd_proc (cur s) (λ p, set_status code (set_termination why p)) s in
  set_iflag true (record_fault frame address s).
Lemma marked_calm why code frame address s : registry true s → calm kernel true s (marked why code frame address s).
Proof.
  intros R. unfold marked. cbv zeta. assert (calm kernel true s (upd_task (cur s) clear_wait (set_iflag false s))) as C1
    by exact (calm_clear_wait kernel s _ (calm_iflag_now kernel s false R)).
  eapply calm_minor; [|apply minor_iflag]. apply calm_record_fault. eapply calm_minor; [exact C1|]. by apply minor_upd_proc.
Qed.
Lemma marked_same why code frame address s : registry true s → let t := marked why code frame address s in
  memory t = memory s ∧ files t = files s ∧ block_active t = block_active s ∧ in_irq t = in_irq s ∧ iflag t = true ∧
  switch_holds (get_task t (cur s)) = switch_holds (get_task s (cur s)) ∧ handles (get_process t (cur s)) = handles (get_process s (cur s)) ∧
  ∀ i, end_record (get_process t i) = if decide (i = cur s) then ended why code frame address (get_process s (cur s)) else end_record (get_process s i).
Proof.
  intros R. cbv zeta. pose proof (reg_process _ _ _ R _ (registry_cur_used _ _ _ R)) as P. unfold marked, record_fault, upd_proc. cbv zeta.
  set (s1 := upd_task (cur s) clear_wait (set_iflag false s)). assert (process (get_task s1 (cur s)) = Some (cur s)) as P1
    by (unfold s1; rewrite get_upd_task, decide_True by done; exact P).
  change (cur s1) with (cur s). rewrite P1. set (s2 := upd_process (cur s) _ s1). change (cur s2) with (cur s).
  destruct frame as [f|].
  - assert (process (get_task (upd_task (cur s) (set_user_frame f) s2) (cur s)) = Some (cur s)) as P2
      by (rewrite get_upd_task, decide_True by done; exact P1).
    change (cur (upd_task _ _ s2)) with (cur s). rewrite P2. split_and!; try done.
    + change (get_task (set_iflag true (upd_process ?i ?g ?x)) ?j) with (get_task x j). rewrite get_upd_task, decide_True by done.
      change (get_task s2) with (get_task s1). unfold s1. by rewrite get_upd_task, decide_True.
    + change (get_process (set_iflag true ?x) ?j) with (get_process x j). rewrite get_upd_process, decide_True by done.
      change (get_process (upd_task _ _ s2)) with (get_process s2). unfold s2. by rewrite get_upd_process, decide_True.
    + intros i. change (get_process (set_iflag true ?x) ?j) with (get_process x j). rewrite get_upd_process.
      change (get_process (upd_task _ _ s2)) with (get_process s2). unfold s2. rewrite !get_upd_process. by repeat case_decide.
  - split_and!; try done.
    + change (get_task (set_iflag true s2)) with (get_task s1). unfold s1. by rewrite get_upd_task, decide_True.
    + change (get_process (set_iflag true s2)) with (get_process s2). unfold s2. by rewrite get_upd_process, decide_True.
    + intros i. change (get_process (set_iflag true s2)) with (get_process s2). unfold s2. rewrite get_upd_process. by case_decide.
Qed.

Context `{!BackendLaw ops}.

(** The current task may end: it is not one of the two permanent tasks, no interrupt is
    being served, nothing protects the processor, the machine still runs, and its handles are
    those that the filesystem knows. *)
Record may_end s : Prop := {
  me_registry : registry true s;
  me_boot : cur s ≠ BOOT;
  me_idle : cur s ≠ IDLE;
  me_irq : in_irq s = false;
  me_free : switch_protected s = false;
  me_runs : halted (memory s) = false;
  me_files : fs_inv ops (files s);
  me_ready : Fs.ready (files s) = true;
  me_table : table_ok (handles (proc s (cur s))) (handle_of (files s))
}.

Lemma destroy_frees (h : process_handles) (v : vfs K) : fs_inv ops v → Fs.ready v = true → busy v = false → table_ok h (handle_of v) →
  ∃ h' v', process_handles_destroy ops false true (Some h) v = ((0, Some h'), v') ∧ busy v' = false.
Proof.
  intros Hi Hr Hb Ht. destruct (destroy_loop_spec ops (Z.to_nat RUM_ABI_HANDLE_LIMIT) 0 h v Hi Hr Hb Ht) as (t' & v' & E & (_ & _ & B) & _).
  { intros j Hj. destruct (decide (slot h j = no_handle)) as [|Hne]; [done|]. pose proof (table_range _ _ Ht j Hne). lia. }
  exists t', v'. split; [exact E|]. by rewrite B.
Qed.

(** The handles are given up and interrupts are masked again. *)
Lemma close_handles why code frame address (w : nat → list irq) s : may_end s → let u := interrupts (w 0%nat) (marked why code frame address s) in
  ∃ h v, on_files (process_handles_destroy ops (in_irq u) (iflag u) (Some (handles (proc u (cur u))))) u = ((0, Some h), set_files v u) ∧
  let t := set_iflag false (interrupts (w 1%nat) (upd_proc (cur u) (set_handles h) (set_files v u))) in
  calm kernel true s t ∧ in_irq t = false ∧ switch_protected t = false ∧ halted (memory t) = false ∧ memory t = memory s ∧
  ∀ i, end_record (get_process t i) = if decide (i = cur s) then ended why code frame address (get_process s (cur s)) else end_record (get_process s i).
Proof.
  intros [R Nb Ni Q W H Fi Fr Ft]. cbv zeta. pose proof (marked_calm why code frame address s R) as C1.
  destruct (marked_same why code frame address s R) as (M1 & F1 & B1 & Q1 & I1 & H1 & T1 & E1). revert C1 M1 F1 B1 Q1 I1 H1 T1 E1.
  generalize (marked why code frame address s). intros s1 C1 M1 F1 B1 Q1 I1 H1 T1 E1.
  pose proof (calm_interrupts _ _ _ _ (w 0%nat) C1) as C2. destruct (kept_interrupts (w 0%nat) s1) as [M2 F2 B2 Q2 I2 H2 T2].
  revert C2 M2 F2 B2 Q2 I2 H2 T2. generalize (interrupts (w 0%nat) s1). intros u C2 M2 F2 B2 Q2 I2 H2 T2.
  assert (cur u = cur s) as Cu by apply (calm_cur _ _ _ _ C2). pose proof (calm_registry _ _ _ _ C2) as Ru. pose proof (registry_cur_used _ _ _ Ru) as Uu.
  assert (∀ i, end_record (get_process u i) = end_record (get_process s1 i)) as E2 by (intros i; specialize (T2 i) as X; unfold end_record; injection X; congruence).
  specialize (T2 (cur s)) as T2'. injection T2' as _ _ _ T2'. rewrite (proc_used _ _ _ _ Ru Uu). rewrite (proc_used _ _ _ _ R (registry_cur_used _ _ _ R)), <- T1, <- T2' in Ft.
  unfold switch_protected, fs_operation_active in W. rewrite !orb_false_iff in W. destruct W as [[W1 W2] W3].
  replace (in_irq u) with false by congruence. replace (iflag u) with true by congruence. rewrite Cu. unfold on_files.
  replace (files u) with (files s) by congruence. destruct (destroy_frees _ _ Fi Fr W2 Ft) as (h & v & -> & Bv). exists h, v. split; [done|].
  set (x := upd_proc (cur s) (set_handles h) (set_files v u)).
  assert (process (get_task u (cur s)) = Some (cur s)) as Pu by (rewrite <- Cu; by apply (reg_process _ _ _ Ru)).
  assert (x = upd_process (cur s) (set_handles h) (set_files v u)) as Ex by (unfold x, upd_proc; change (get_task (set_files v u)) with (get_task u); by rewrite Pu).
  assert (calm kernel true s x) as Cx by (eapply calm_minor; [|by apply minor_upd_proc]; eapply calm_minor; [exact C2|apply minor_files]).
  assert (∀ i, end_record (get_process x i) = end_record (get_process u i)) as Rx.
  { intros i. rewrite Ex, get_upd_process. change (get_process (set_files v u)) with (get_process u). case_decide; by subst. }
  assert (memory x = memory s ∧ files x = v ∧ block_active x = block_active s ∧ in_irq x = false ∧ get_task x (cur s) = get_task u (cur s)) as (Mx & Fx & Bx & Qx & Tx)
    by (rewrite Ex; cbn; split_and!; [congruence|done|congruence|congruence|done]).
  clearbody x. clear Ex. pose proof (calm_interrupts _ _ _ _ (w 1%nat) Cx) as C3. destruct (kept_interrupts (w 1%nat) x) as [M3 F3 B3 Q3 I3 H3 T3].
  revert C3 M3 F3 B3 Q3 I3 H3 T3. generalize (interrupts (w 1%nat) x). intros t C3 M3 F3 B3 Q3 I3 H3 T3.
  assert (calm kernel true s (set_iflag false t)) as C4 by (eapply calm_minor; [exact C3|apply minor_iflag]).
  split_and!; [exact C4|cbn; congruence| |cbn; congruence|cbn; congruence|].
  - unfold switch_protected, fs_operation_active. rewrite (calm_cur _ _ _ _ C4). change (get_task (set_iflag false t)) with (get_task t). cbn.
    rewrite H3, Tx, H2, H1, W1, F3, Fx, Bv, B3, Bx. done.
  - intros i. change (get_process (set_iflag false t)) with (get_process t). rewrite <- E1, <- E2, <- Rx. specialize (T3 i). injection T3. unfold end_record. congruence.
Qed.

(** A task that may end does: the call never stops the machine, another context runs, the
    task is left exited, and its record says why, with the frame of the fault if there is
    one. No other task ends, and no other record of an end changes. *)
Definition ends_alone why code frame address s t : Prop :=
  cur t ≠ cur s ∧ (∀ i, state (get_task t i) = TASK_EXITED ↔ i = cur s ∨ state (get_task s i) = TASK_EXITED) ∧
  ∀ i, end_record (get_process t i) = if decide (i = cur s) then ended why code frame address (get_process s (cur s)) else end_record (get_process s i).
Lemma terminate_fate why code frame address (w : nat → list irq) s : may_end s →
  ∃ t, terminate_current ops kernel switch_esp why code frame address w s = Some t ∧ moves_on kernel 1 s t ∧ ends_alone why code frame address s t.
Proof using Type*.
  intros Me. destruct (close_handles why code frame address w s Me) as (h & v & Eh & C & Q & W & H & _ & Rx). destruct Me as [R Nb Ni Qs Ws _ _ _ _].
  assert (∃ t, terminate_current ops kernel switch_esp why code frame address w s = Some t ∧ ends_alone why code frame address s t) as (t & E & A).
  2:{ exists t. split; [exact E|]. split; [by eapply terminate_ok|exact A]. }
  unfold terminate_current. rewrite (reg_ready _ _ _ R), Qs, Ws. rewrite (proj2 (Z.eqb_neq _ _) Nb), (proj2 (Z.eqb_neq _ _) Ni). cbn [negb orb]. cbv zeta.
  change (set_iflag true (record_fault frame address ?x)) with (marked why code frame address s). revert Eh C Q W H Rx. cbv zeta.
  generalize (interrupts (w 0%nat) (marked why code frame address s)). intros u Eh. rewrite Eh. cbn [default Z.eqb negb]. change (cur (set_files v u)) with (cur u). change (id h) with h.
  generalize (interrupts (w 1%nat) (upd_proc (cur u) (set_handles h) (set_files v u))). clear u Eh. intros x C Q W H Rx.
  pose proof (calm_cur _ _ _ _ C) as Cx. unfold ends_alone. pose proof (λ i, calm_exited _ _ _ i C) as Sx. rewrite <- Cx in Nb, Ni. pose proof (calm_registry _ _ _ _ C) as R6.
  destruct (leave_registry_ok kernel _ R6 Nb Ni) as [R7 Q7]. pose proof (λ i, leave_exited _ i R6 Nb Ni) as X7. destruct (kept_leave (set_iflag false x)) as [M7 F7 B7 I7 J7 H7 T7].
  revert R7 Q7 X7 M7 F7 B7 I7 J7 H7 T7. generalize (leave_registry (set_iflag false x)). intros y R7 Q7 X7 M7 F7 B7 I7 J7 H7 T7.
  assert (cur y = cur s) as Cy by (rewrite <- Cx; unfold cur; by rewrite (proj1 Q7)). setoid_rewrite Sx in X7. rewrite Cx in X7.
  destruct (schedule_total kernel switch_esp false y R7) as (b & t & S & Same & Other); [by rewrite J7|congruence| |congruence|].
  { unfold switch_protected in W |- *. rewrite Cy, <- Cx, H7, F7, B7. exact W. }
  rewrite S. pose proof (pick_ready kernel false y R7) as P. assert (state (get_task y (pick y)) ≠ TASK_EXITED) as Np by (destruct P; congruence).
  destruct b; [|exfalso; rewrite (Same eq_refl), Cy in Np; apply Np, X7; by left].
  specialize (Other eq_refl). apply (schedule_dispatched kernel switch_esp false) in S as D; [|done]. exists t. rewrite Cy in Other. split; [done|].
  rewrite (dispatched_cur _ _ D). split_and!; [done|intros i|intros i].
  - rewrite (dispatched_state _ _ _ _ _ R7 D), <- X7. repeat case_decide; subst; try done; split; congruence.
  - rewrite <- Rx. assert (get_process t i = get_process y i) as -> by (unfold get_process; by rewrite (disp_processes _ _ D)).
    specialize (T7 i). injection T7. unfold end_record. congruence.
Qed.
End Exits.

(** The worker of the small machine as a program with an open file. *)
Module ExitSample.
Import TaskSample.
Definition program_process : process_state :=
  Process 7 1 TASK_PROCESS (Some 1) false TASK_TERMINATION_NONE 0 no_fault no_resources no_context HandlesSample.table false false 0 0 ∅ ∅.
Definition program : kstate (gmap Z Z) := set_files HandlesSample.opened (put_process 2 program_process turn1).
End ExitSample.
Lemma sample_program_registry : registry 1 true ExitSample.program.
Proof.
  eapply (minor_registry 1 true); [exact turn1_registry|]. constructor; try done. intros i. change (get_process ExitSample.program i) with (get_process (put_process 2 ExitSample.program_process turn1) i).
  rewrite get_put_process. case_decide; [subst; done|done].
Qed.
Lemma sample_may_end : may_end SampleBackend.ops 1 ExitSample.program.
Proof.
  constructor; [exact sample_program_registry|discriminate|discriminate|reflexivity|vm_compute; reflexivity|reflexivity|exact sample_opened_inv|vm_compute; reflexivity|].
  change (table_ok HandlesSample.table (handle_of HandlesSample.opened)). exact sample_table_ok.
Qed.
