(* ===== verification/Irq.v ===== *)
(** * Interrupt controllers, dispatch and gates (hal/pc/pic.c, hal/pc/irq.c,
    arch/i386/exceptions.c)

    The masks kept for the two 8259 controllers, the table of handlers and its counters,
    and the interrupt descriptor table. The controllers are hardware: [Controllers] states
    how the documented registers answer the commands the kernel sends, and a pair of
    registers by itself is an instance. Handlers are function pointers: [invoke] is what
    calling one does. *)

From S2P Require Import Prelude Gdt Keyboard Task Scheduler.

Definition PIC_VECTOR_BASE : Z := 0x20.
Definition MASTER_COMMAND : Z := 0x20.
Definition MASTER_DATA : Z := 0x21.
Definition SLAVE_COMMAND : Z := 0xA0.
Definition SLAVE_DATA : Z := 0xA1.
Definition EOI : Z := 0x20.

(** ** The controllers (pic.c) *)

Record pic := Pic { master_mask : Z; slave_mask : Z }.

Section Pic.
Context {P : Type} (inb : Z → P → Z * P) (outb : Z → Z → P → P).
Implicit Types (p : P).

Definition io_wait p : P := outb 0x80 0 p.
Definition command (port value : Z) p : P := io_wait (outb port value p).
Definition pic_initialize p : pic * P :=
  let p := command SLAVE_COMMAND 0x11 (command MASTER_COMMAND 0x11 p) in
  let p := command SLAVE_DATA (PIC_VECTOR_BASE + 8) (command MASTER_DATA PIC_VECTOR_BASE p) in
  let p := command SLAVE_DATA 2 (command MASTER_DATA (Z.shiftl 1 2) p) in
  let p := command SLAVE_DATA 1 (command MASTER_DATA 1 p) in
  let m := Pic 0xFF 0xFF in
  (m, outb SLAVE_DATA (slave_mask m) (outb MASTER_DATA (master_mask m) p)).

Definition write_masks (m : pic) p : pic * P := (m, outb MASTER_DATA (master_mask m) (outb SLAVE_DATA (slave_mask m) p)).
Definition masked (irq : Z) (m : pic) : pic :=
  if irq <? 8 then Pic (Z.lor (master_mask m) (wrap8 (Z.shiftl 1 irq))) (slave_mask m) else
  let slave := Z.lor (slave_mask m) (wrap8 (Z.shiftl 1 (irq - 8))) in
  Pic (if slave =? 0xFF then Z.lor (master_mask m) (Z.shiftl 1 2) else master_mask m) slave.
Definition pic_mask (irq : Z) (m : pic) p : pic * P := if irq >=? 16 then (m, p) else write_masks (masked irq m) p.
Definition unmasked (irq : Z) (m : pic) : pic :=
  if irq <? 8 then Pic (Z.land (master_mask m) (wrap8 (not32 (Z.shiftl 1 irq)))) (slave_mask m) else
  Pic (Z.land (master_mask m) (wrap8 (not32 (Z.shiftl 1 2)))) (Z.land (slave_mask m) (wrap8 (not32 (Z.shiftl 1 (irq - 8))))).
Definition pic_unmask (irq : Z) (m : pic) p : pic * P := if irq >=? 16 then (m, p) else write_masks (unmasked irq m) p.

Definition pic_irq_is_real (irq : Z) p : bool * P :=
  if irq =? 7 then
    let '(status, p) := inb MASTER_COMMAND (outb MASTER_COMMAND 0x0B p) in (negb (Z.land status 0x80 =? 0), p)
  else if irq =? 15 then
    let '(status, p) := inb SLAVE_COMMAND (outb SLAVE_COMMAND 0x0B p) in
    if Z.land status 0x80 =? 0 then (false, outb MASTER_COMMAND EOI p) else (irq <? 16, p)
  else (irq <? 16, p).
Definition pic_end_of_interrupt (irq : Z) p : P :=
  if irq >=? 16 then p else outb MASTER_COMMAND EOI (if irq >=? 8 then outb SLAVE_COMMAND EOI p else p).
End Pic.

(** ** Dispatch (irq.c) *)

(** The statics of pic.c and irq.c, the ports and the rest of the machine. *)
Record irqs (P M : Type) := Irqs {
  masks : pic; handlers : gmap Z Z; irq_counts : gmap Z Z; spurious_irqs : Z; handler_depth : Z; ports : P; rest : M
}.
Arguments Irqs {P M} _ _ _ _ _ _ _.
Arguments masks {P M} _.
Arguments handlers {P M} _.
Arguments irq_counts {P M} _.
Arguments spurious_irqs {P M} _.
Arguments handler_depth {P M} _.
Arguments ports {P M} _.
Arguments rest {P M} _.

Section Dispatch.
Context {P M : Type} (inb : Z → P → Z * P) (outb : Z → Z → P → P) (invoke : Z → irqs P M → irqs P M).
Implicit Types (s : irqs P M) (p : P).

Definition set_masks_ports '((m, p) : pic * P) s : irqs P M := Irqs m (handlers s) (irq_counts s) (spurious_irqs s) (handler_depth s) p (rest s).
Definition set_ports p s : irqs P M := set_masks_ports (masks s, p) s.
Definition set_handlers (v : gmap Z Z) s : irqs P M := Irqs (masks s) v (irq_counts s) (spurious_irqs s) (handler_depth s) (ports s) (rest s).
Definition set_counts (v : gmap Z Z) s : irqs P M := Irqs (masks s) (handlers s) v (spurious_irqs s) (handler_depth s) (ports s) (rest s).
Definition set_spurious (v : Z) s : irqs P M := Irqs (masks s) (handlers s) (irq_counts s) v (handler_depth s) (ports s) (rest s).
Definition set_depth (v : Z) s : irqs P M := Irqs (masks s) (handlers s) (irq_counts s) (spurious_irqs s) v (ports s) (rest s).
Definition set_rest (v : M) s : irqs P M := Irqs (masks s) (handlers s) (irq_counts s) (spurious_irqs s) (handler_depth s) (ports s) v.

Definition irq_in_handler s : bool := negb (handler_depth s =? 0).
(** The interrupt flag is saved and restored around the store. *)
Definition irq_register (irq handler : Z) s : irqs P M := if irq >=? 16 then s else set_handlers (aset (handlers s) irq handler) s.
Definition irq_spurious_count s : Z := spurious_irqs s.

Definition serve (irq : Z) s : irqs P M :=
  if negb (aget (handlers s) irq =? 0) then
    let s := set_depth (wrap32 (handler_depth s + 1)) s in
    let s := invoke (aget (handlers s) irq) s in
    set_depth (wrap32 (handler_depth s - 1)) s
  else set_masks_ports (pic_mask outb irq (masks s) (ports s)) s.
Definition irq_dispatch (frame : exception_frame) s : irqs P M :=
  if (vector frame <? PIC_VECTOR_BASE) || (vector frame >=? PIC_VECTOR_BASE + 16) then s else
  let irq := wrap8 (vector frame - PIC_VECTOR_BASE) in
  let '(real, p) := pic_irq_is_real inb outb irq (ports s) in
  let s := set_ports p s in
  if negb real then set_spurious (wrap32 (spurious_irqs s + 1)) s else
  let s := set_counts (aset (irq_counts s) irq (wrap32 (aget (irq_counts s) irq + 1))) s in
  let s := serve irq s in
  set_ports (pic_end_of_interrupt outb irq (ports s)) s.
End Dispatch.

(** ** Gates (exceptions.c) *)

Definition RUM_SYSCALL_VECTOR : Z := 0x80.
Record idt_gate := IdtGate { offset_low : Z; selector : Z; gate_reserved : Z; attributes : Z; offset_high : Z }.
Definition no_gate : idt_gate := IdtGate 0 0 0 0 0.
Definition gate_to (address attributes : Z) : idt_gate :=
  IdtGate (wrap16 address) KERNEL_CODE_SELECTOR 0 attributes (wrap16 (Z.shiftr address 16)).
(** [exception_stub_table], [irq_stub_table] and [syscall_entry] are labels of assembly;
    the table is zero outside the entries written. *)
Definition idt_initialize (exception_stub_table irq_stub_table : Z → Z) (syscall_entry : Z) : gmap Z idt_gate :=
  let idt := for_range 0 48 (λ v idt,
    <[v := gate_to (if v <? 32 then exception_stub_table v else irq_stub_table (v - 32)) 0x8E]> idt) ∅ in
  let idt := <[8 := IdtGate 0 DOUBLE_FAULT_TSS_SELECTOR 0 0x85 0]> idt in
  <[RUM_SYSCALL_VECTOR := gate_to syscall_entry 0xEE]> idt.
Definition gate (idt : gmap Z idt_gate) (v : Z) : idt_gate := default no_gate (idt !! v).

(** ** The hardware *)

(** An 8259: the stage of its initialisation, the first vector, the mask and in-service
    registers and which register a read of the command port returns. *)
Inductive stage := Ready | Icw2 (single four : bool) | Icw3 (four : bool) | Icw4.
Record chip := Chip { chip_stage : stage; chip_base : Z; imr : Z; isr : Z; reads_isr : bool }.
(** A command: the start of an initialisation, the choice of register, or the end of the
    interrupt of highest priority. [None] for the commands the kernel does not use. *)
Definition chip_command (v : Z) (c : chip) : option chip :=
  if Z.testbit v 4 then Some (Chip (Icw2 (Z.testbit v 1) (Z.testbit v 0)) (chip_base c) 0 (isr c) false)
  else if Z.testbit v 3 then Some (Chip (chip_stage c) (chip_base c) (imr c) (isr c) (if Z.testbit v 1 then Z.testbit v 0 else reads_isr c))
  else if v =? EOI then Some (Chip (chip_stage c) (chip_base c) (imr c) (Z.land (isr c) (isr c - 1)) (reads_isr c))
  else None.
(** A byte to the data port continues an initialisation or sets the mask. *)
Definition chip_data (v : Z) (c : chip) : chip :=
  match chip_stage c with
  | Ready => Chip Ready (chip_base c) v (isr c) (reads_isr c)
  | Icw2 single four => Chip (if single then if four then Icw4 else Ready else Icw3 four) (Z.land v 0xF8) (imr c) (isr c) (reads_isr c)
  | Icw3 four => Chip (if four then Icw4 else Ready) (chip_base c) (imr c) (isr c) (reads_isr c)
  | Icw4 => Chip Ready (chip_base c) (imr c) (isr c) (reads_isr c)
  end.
Definition pic_ports : list Z := [MASTER_COMMAND; MASTER_DATA; SLAVE_COMMAND; SLAVE_DATA].

(** What the ports show of the two controllers. *)
Class Controllers {P : Type} (inb : Z → P → Z * P) (outb : Z → Z → P → P) := {
  master : P → chip;
  slave : P → chip;
  out_master_command v p c : chip_command v (master p) = Some c → master (outb MASTER_COMMAND v p) = c ∧ slave (outb MASTER_COMMAND v p) = slave p;
  out_slave_command v p c : chip_command v (slave p) = Some c → slave (outb SLAVE_COMMAND v p) = c ∧ master (outb SLAVE_COMMAND v p) = master p;
  out_master_data v p : master (outb MASTER_DATA v p) = chip_data v (master p) ∧ slave (outb MASTER_DATA v p) = slave p;
  out_slave_data v p : slave (outb SLAVE_DATA v p) = chip_data v (slave p) ∧ master (outb SLAVE_DATA v p) = master p;
  out_wait v p : master (outb 0x80 v p) = master p ∧ slave (outb 0x80 v p) = slave p;
  in_master p : reads_isr (master p) = true → fst (inb MASTER_COMMAND p) = isr (master p);
  in_slave p : reads_isr (slave p) = true → fst (inb SLAVE_COMMAND p) = isr (slave p);
  in_same port p : master (snd (inb port p)) = master p ∧ slave (snd (inb port p)) = slave p;
}.

(** The registers by themselves. *)
Module PicSample.
Definition inb (port : Z) (p : chip * chip) : Z * (chip * chip) :=
  (if port =? MASTER_COMMAND then isr (fst p) else if port =? SLAVE_COMMAND then isr (snd p) else 0, p).
Definition outb (port v : Z) (p : chip * chip) : chip * chip :=
  if port =? MASTER_COMMAND then (default (fst p) (chip_command v (fst p)), snd p) else
  if port =? SLAVE_COMMAND then (fst p, default (snd p) (chip_command v (snd p))) else
  if port =? MASTER_DATA then (chip_data v (fst p), snd p) else
  if port =? SLAVE_DATA then (fst p, chip_data v (snd p)) else p.
#[global] Instance registers : Controllers inb outb.
Proof. refine {| master := fst; slave := snd |}; unfold outb; cbn; by intros; try match goal with H : _ = Some _ |- _ => rewrite H end. Defined.
Definition power_on : chip * chip := (Chip Ready 8 0 0 false, Chip Ready 0x70 0 0 false).
End PicSample.

(** ** Lines *)

(** The calls that open and close lines, and what they ask for. *)
Inductive line_call := Mask (irq : Z) | Unmask (irq : Z).
Definition open_after (calls : list line_call) (irq : Z) : bool :=
  foldl (λ b c, match c with Mask i => if i =? irq then false else b | Unmask i => if i =? irq then true else b end) false calls.
(** Whether the controllers pass a line on to the processor. *)
Definition delivers (irq : Z) (m s : chip) : bool :=
  if irq <? 8 then negb (Z.testbit (imr m) irq) else negb (Z.testbit (imr s) (irq - 8)) && negb (Z.testbit (imr m) 2).

Section Lines.
Context {P : Type} (inb : Z → P → Z * P) (outb : Z → Z → P → P) `{!Controllers inb outb}.
Implicit Types (p : P).
Definition line_step (x : pic * P) (c : line_call) : pic * P :=
  match c with Mask i => pic_mask outb i (fst x) (snd x) | Unmask i => pic_unmask outb i (fst x) (snd x) end.

Lemma byte_lor a k : 0 ≤ a ≤ 0xFF → 0 ≤ k < 8 → 0 ≤ Z.lor a (wrap8 (Z.shiftl 1 k)) ≤ 0xFF ∧
  (∀ n, 0 ≤ n < 8 → Z.testbit (Z.lor a (wrap8 (Z.shiftl 1 k))) n = Z.testbit a n || (n =? k)).
Proof.
  assert (all_range 0 256 (λ a, all_range 0 8 (λ k, let b := Z.lor a (wrap8 (Z.shiftl 1 k)) in (0 <=? b) && (b <=? 0xFF) &&
    all_range 0 8 (λ n, eqb (Z.testbit b n) (Z.testbit a n || (n =? k))))) = true) as H by by vm_compute.
  intros Ha Hk. rewrite all_range_true in H. specialize (H a ltac:(lia)). rewrite all_range_true in H. specialize (H k Hk). cbv zeta in H.
  apply andb_prop in H as [H B]. split; [lia|]. intros n Hn. rewrite all_range_true in B. by apply eqb_prop, B.
Qed.
Lemma byte_clear a k : 0 ≤ a ≤ 0xFF → 0 ≤ k < 8 → 0 ≤ Z.land a (wrap8 (not32 (Z.shiftl 1 k))) ≤ 0xFF ∧
  (∀ n, 0 ≤ n < 8 → Z.testbit (Z.land a (wrap8 (not32 (Z.shiftl 1 k)))) n = Z.testbit a n && negb (n =? k)).
Proof.
  assert (all_range 0 256 (λ a, all_range 0 8 (λ k, let b := Z.land a (wrap8 (not32 (Z.shiftl 1 k))) in (0 <=? b) && (b <=? 0xFF) &&
    all_range 0 8 (λ n, eqb (Z.testbit b n) (Z.testbit a n && negb (n =? k))))) = true) as H by by vm_compute.
  intros Ha Hk. rewrite all_range_true in H. specialize (H a ltac:(lia)). rewrite all_range_true in H. specialize (H k Hk). cbv zeta in H.
  apply andb_prop in H as [H B]. split; [lia|]. intros n Hn. rewrite all_range_true in B. by apply eqb_prop, B.
Qed.
Lemma byte_full a : 0 ≤ a ≤ 0xFF → (a =? 0xFF) = all_range 0 8 (Z.testbit a).
Proof.
  assert (all_range 0 256 (λ a, eqb (a =? 0xFF) (all_range 0 8 (Z.testbit a))) = true) as H by by vm_compute.
  intros Ha. rewrite all_range_true in H. apply eqb_prop, H. lia.
Qed.

(** The controllers are set up, hold the masks the kernel keeps, and the cascade is open
    exactly when a line of the slave is. *)
Record lines (f : Z → bool) (x : pic * P) : Prop := {
  ln_ready : chip_stage (master (snd x)) = Ready ∧ chip_stage (slave (snd x)) = Ready;
  ln_base : chip_base (master (snd x)) = PIC_VECTOR_BASE ∧ chip_base (slave (snd x)) = PIC_VECTOR_BASE + 8;
  ln_imr : imr (master (snd x)) = master_mask (fst x) ∧ imr (slave (snd x)) = slave_mask (fst x);
  ln_byte : 0 ≤ master_mask (fst x) ≤ 0xFF ∧ 0 ≤ slave_mask (fst x) ≤ 0xFF;
  ln_master : ∀ i, 0 ≤ i < 8 → i ≠ 2 → Z.testbit (master_mask (fst x)) i = negb (f i);
  ln_slave : ∀ i, 0 ≤ i < 8 → Z.testbit (slave_mask (fst x)) i = negb (f (8 + i));
  ln_cascade : Z.testbit (master_mask (fst x)) 2 = (slave_mask (fst x) =? 0xFF);
}.

(** What each command does to each controller, as equations. *)
Definition starting (c : chip) : chip := Chip (Icw2 false true) (chip_base c) 0 (isr c) false.
Definition acknowledged (c : chip) : chip := Chip (chip_stage c) (chip_base c) (imr c) (Z.land (isr c) (isr c - 1)) (reads_isr c).
Definition showing_isr (c : chip) : chip := Chip (chip_stage c) (chip_base c) (imr c) (isr c) true.
Lemma master_data v p : master (outb MASTER_DATA v p) = chip_data v (master p).
Proof. apply out_master_data. Qed.
Lemma master_data' v p : slave (outb MASTER_DATA v p) = slave p.
Proof. apply out_master_data. Qed.
Lemma slave_data v p : slave (outb SLAVE_DATA v p) = chip_data v (slave p).
Proof. apply out_slave_data. Qed.
Lemma slave_data' v p : master (outb SLAVE_DATA v p) = master p.
Proof. apply out_slave_data. Qed.
Lemma wait_master v p : master (outb 0x80 v p) = master p.
Proof. apply out_wait. Qed.
Lemma wait_slave v p : slave (outb 0x80 v p) = slave p.
Proof. apply out_wait. Qed.
Lemma start_master p : master (outb MASTER_COMMAND 0x11 p) = starting (master p) ∧ slave (outb MASTER_COMMAND 0x11 p) = slave p.
Proof. by apply out_master_command. Qed.
Lemma start_slave p : slave (outb SLAVE_COMMAND 0x11 p) = starting (slave p) ∧ master (outb SLAVE_COMMAND 0x11 p) = master p.
Proof. by apply out_slave_command. Qed.
Lemma eoi_master p : master (outb MASTER_COMMAND EOI p) = acknowledged (master p) ∧ slave (outb MASTER_COMMAND EOI p) = slave p.
Proof. by apply out_master_command. Qed.
Lemma eoi_slave p : slave (outb SLAVE_COMMAND EOI p) = acknowledged (slave p) ∧ master (outb SLAVE_COMMAND EOI p) = master p.
Proof. by apply out_slave_command. Qed.
Lemma show_master p : master (outb MASTER_COMMAND 0x0B p) = showing_isr (master p) ∧ slave (outb MASTER_COMMAND 0x0B p) = slave p.
Proof. by apply out_master_command. Qed.
Lemma show_slave p : slave (outb SLAVE_COMMAND 0x0B p) = showing_isr (slave p) ∧ master (outb SLAVE_COMMAND 0x0B p) = master p.
Proof. by apply out_slave_command. Qed.
Ltac chips := repeat first
  [rewrite master_data|rewrite master_data'|rewrite slave_data|rewrite slave_data'|rewrite wait_master|rewrite wait_slave
  |rewrite (proj1 (start_master _))|rewrite (proj2 (start_master _))|rewrite (proj1 (start_slave _))|rewrite (proj2 (start_slave _))
  |rewrite (proj1 (eoi_master _))|rewrite (proj2 (eoi_master _))|rewrite (proj1 (eoi_slave _))|rewrite (proj2 (eoi_slave _))
  |rewrite (proj1 (show_master _))|rewrite (proj2 (show_master _))|rewrite (proj1 (show_slave _))|rewrite (proj2 (show_slave _))].

Lemma full_byte i : 0 ≤ i < 8 → Z.testbit 0xFF i = true.
Proof. apply (all_range_true 0 8 (Z.testbit 0xFF)). by vm_compute. Qed.
Lemma initialize_lines p : lines (λ _, false) (pic_initialize outb p).
Proof.
  unfold pic_initialize, command, io_wait. constructor; cbn [fst snd]; chips; [done..|intros i Hi _; by apply full_byte|intros i Hi; by apply full_byte|done].
Qed.

Definition update (f : Z → bool) (c : line_call) (i : Z) : bool :=
  match c with Mask j => if j =? i then false else f i | Unmask j => if j =? i then true else f i end.
Lemma write_lines f f' (m m' : pic) p : lines f (m, p) → 0 ≤ master_mask m' ≤ 0xFF ∧ 0 ≤ slave_mask m' ≤ 0xFF →
  (∀ i, 0 ≤ i < 8 → i ≠ 2 → Z.testbit (master_mask m') i = negb (f' i)) → (∀ i, 0 ≤ i < 8 → Z.testbit (slave_mask m') i = negb (f' (8 + i))) →
  Z.testbit (master_mask m') 2 = (slave_mask m' =? 0xFF) → lines f' (write_masks outb m' p).
Proof.
  intros [[R1 R2] [B1 B2] _ _ _ _ _] Hb Hm Hs Hc. constructor; cbn [write_masks fst snd] in *; chips; unfold chip_data; rewrite ?R1, ?R2; try done.
Qed.

Lemma update_other f c i : match c with Mask j | Unmask j => j ≠ i end → update f c i = f i.
Proof. destruct c; cbn; intros H; by rewrite (proj2 (Z.eqb_neq _ _)). Qed.
Lemma update_same f c i : match c with Mask j | Unmask j => j = i end → update f c i = match c with Mask _ => false | Unmask _ => true end.
Proof. destruct c; cbn; intros ->; by rewrite Z.eqb_refl. Qed.
Lemma far_lines f c x : match c with Mask i | Unmask i => 16 ≤ i end → lines f x → lines (update f c) x.
Proof. intros H [R B I Y M S C]. constructor; try done; intros j Hj; rewrite update_other by (destruct c; lia); auto. Qed.

Lemma mask_lines f i x : 0 ≤ i → i ≠ 2 → lines f x → lines (update f (Mask i)) (line_step x (Mask i)).
Proof.
  destruct x as [m p]. intros Hi H2 L. unfold line_step, pic_mask. cbn [fst snd]. destruct (Z.geb_spec i 16); [by apply far_lines|].
  destruct (ln_byte _ _ L) as [Bm Bs]. pose proof (ln_master _ _ L) as Lm. pose proof (ln_slave _ _ L) as Ls. pose proof (ln_cascade _ _ L) as Lc. cbn [fst snd] in *.
  unfold masked. destruct (Z.ltb_spec i 8).
  - destruct (byte_lor (master_mask m) i Bm ltac:(lia)) as [B T]. apply (write_lines f _ m); [done|done|..]; cbn [master_mask slave_mask].
    + intros j Hj Nj. rewrite T by done. destruct (Z.eqb_spec j i) as [->|]; [by rewrite update_same, orb_true_r|rewrite update_other, orb_false_r by lia; auto].
    + intros j Hj. rewrite update_other by lia. auto.
    + rewrite T, (proj2 (Z.eqb_neq 2 i)), orb_false_r by lia. done.
  - destruct (byte_lor (slave_mask m) (i - 8) Bs ltac:(lia)) as [B T]. destruct (byte_lor (master_mask m) 2 Bm ltac:(lia)) as [B2 T2].
    change (wrap8 (Z.shiftl 1 2)) with (Z.shiftl 1 2) in *. set (sl := Z.lor (slave_mask m) _) in *. apply (write_lines f _ m); [done|..]; cbn [master_mask slave_mask].
    + split; [by case_match|done].
    + intros j Hj Nj. rewrite update_other by lia. case_match; [rewrite T2, (proj2 (Z.eqb_neq j 2)), orb_false_r by lia|]; auto.
    + intros j Hj. rewrite T by done. destruct (Z.eqb_spec j (i - 8)); [rewrite update_same, orb_true_r by lia; done|rewrite update_other, orb_false_r by lia; auto].
    + destruct (sl =? 0xFF) eqn:E; [rewrite T2 by lia; apply orb_true_r|]. rewrite Lc. rewrite (byte_full _ B) in E. rewrite byte_full by done. apply not_true_is_false. rewrite all_range_true. intros H'.
      apply not_true_iff_false in E. apply E, all_range_true. intros j Hj. by rewrite T, H'.
Qed.
Lemma unmask_lines f i x : 0 ≤ i → i ≠ 2 → lines f x → lines (update f (Unmask i)) (line_step x (Unmask i)).
Proof.
  destruct x as [m p]. intros Hi H2 L. unfold line_step, pic_unmask. cbn [fst snd]. destruct (Z.geb_spec i 16); [by apply far_lines|].
  destruct (ln_byte _ _ L) as [Bm Bs]. pose proof (ln_master _ _ L) as Lm. pose proof (ln_slave _ _ L) as Ls. pose proof (ln_cascade _ _ L) as Lc. cbn [fst snd] in *.
  unfold unmasked. destruct (Z.ltb_spec i 8).
  - destruct (byte_clear (master_mask m) i Bm ltac:(lia)) as [B T]. apply (write_lines f _ m); [done|done|..]; cbn [master_mask slave_mask].
    + intros j Hj Nj. rewrite T by done. destruct (Z.eqb_spec j i) as [->|]; [by rewrite update_same, andb_false_r|rewrite update_other, andb_true_r by lia; auto].
    + intros j Hj. rewrite update_other by lia. auto.
    + rewrite T, (proj2 (Z.eqb_neq 2 i)), andb_true_r by lia. done.
  - destruct (byte_clear (slave_mask m) (i - 8) Bs ltac:(lia)) as [B T]. destruct (byte_clear (master_mask m) 2 Bm ltac:(lia)) as [B2 T2].
    apply (write_lines f _ m); [done|done|..]; cbn [master_mask slave_mask].
    + intros j Hj Nj. rewrite update_other, T2, (proj2 (Z.eqb_neq j 2)), andb_true_r by lia. auto.
    + intros j Hj. rewrite T by done. destruct (Z.eqb_spec j (i - 8)); [rewrite update_same, andb_false_r by lia; done|rewrite update_other, andb_true_r by lia; auto].
    + rewrite T2, Z.eqb_refl, andb_false_r by lia. symmetry. rewrite byte_full by done. apply not_true_is_false. rewrite all_range_true. intros H'.
      specialize (H' (i - 8) ltac:(lia)). by rewrite T, Z.eqb_refl, andb_false_r in H' by lia.
Qed.

(** No call names line 2, which the calls for the slave's lines manage. *)
Definition manageable (c : line_call) : Prop := match c with Mask i | Unmask i => 0 ≤ i ∧ i ≠ 2 end.
Lemma calls_lines calls : ∀ f x, Forall manageable calls → lines f x →
  lines (λ i, foldl (λ b c, match c with Mask j => if j =? i then false else b | Unmask j => if j =? i then true else b end) (f i) calls) (foldl line_step x calls).
Proof.
  induction calls as [|c calls IH]; intros f x F L; [done|]. inversion F as [|? ? Hc Hr]; subst. cbn [foldl].
  assert (lines (update f c) (line_step x c)) as L' by (destruct c as [i|i], Hc; [by apply mask_lines|by apply unmask_lines]).
  specialize (IH _ _ Hr L'). by destruct c.
Qed.
End Lines.

(** The controllers pass on exactly the lines the kernel asked for. After the
    initialisation, whatever the state of the controllers before it, and any calls that
    mask and unmask lines other than the cascade: a line reaches the processor exactly when
    the last call for it unmasked it, a line of the slave also through the cascade, which is
    closed again with the last of them; and the sixteen vectors start at 0x20. *)
Theorem pic_lines_exact (P : Type) (inb : Z → P → Z * P) (outb : Z → Z → P → P) `{!Controllers inb outb} (p : P) (calls : list line_call) :
  Forall manageable calls →
  let p := snd (foldl (line_step outb) (pic_initialize outb p) calls) in
  (∀ i, 0 ≤ i < 16 → i ≠ 2 → delivers i (master p) (slave p) = open_after calls i) ∧
  Z.testbit (imr (master p)) 2 = all_range 8 16 (λ i, negb (open_after calls i)) ∧
  chip_base (master p) = PIC_VECTOR_BASE ∧ chip_base (slave p) = PIC_VECTOR_BASE + 8.
Proof.
  intros F q. pose proof (calls_lines inb outb calls _ _ F (initialize_lines inb outb p)) as [_ B [I1 I2] [_ Bs] M S C]. fold q in B, I1, I2. rewrite <- I1 in M, C. rewrite <- I2 in S, C, Bs.
  split; [|split; [|done]].
  - intros i Hi Ni. unfold delivers. destruct (Z.ltb_spec i 8); [rewrite M by lia; by rewrite negb_involutive|].
    rewrite S, C by lia. replace (8 + (i - 8)) with i by lia. fold (open_after calls i). rewrite negb_involutive. destruct (open_after calls i) eqn:E; [|done]. cbn [andb].
    apply negb_true_iff. rewrite byte_full by done. apply not_true_is_false. rewrite all_range_true. intros H'. specialize (H' (i - 8) ltac:(lia)).
    rewrite S in H' by lia. replace (8 + (i - 8)) with i in H' by lia. unfold open_after in E. by rewrite E in H'.
  - rewrite C, byte_full by done. apply eq_true_iff_eq. rewrite !all_range_true. split; intros H i Hi.
    + specialize (H (i - 8) ltac:(lia)). rewrite S in H by lia. by replace (8 + (i - 8)) with i in H by lia.
    + rewrite S by lia. apply H. lia.
Qed.
Lemma pic_lines_exact_witness :
  delivers 14 (fst (snd (foldl (line_step PicSample.outb) (pic_initialize PicSample.outb PicSample.power_on) [Unmask 0; Unmask 14; Mask 0])))
    (snd (snd (foldl (line_step PicSample.outb) (pic_initialize PicSample.outb PicSample.power_on) [Unmask 0; Unmask 14; Mask 0]))) = true.
Proof.
  destruct (pic_lines_exact _ PicSample.inb PicSample.outb PicSample.power_on [Unmask 0; Unmask 14; Mask 0] ltac:(repeat constructor; discriminate)) as [H _].
  by apply (H 14 ltac:(split; [discriminate|reflexivity])).
Defined.

(** ** Acknowledgement *)

(** Line [k] is the one of highest priority in service. *)
Definition served (k x : Z) : bool := all_range 0 k (λ j, negb (Z.testbit x j)) && Z.testbit x k.
(** [y] is [x] without the line of highest priority. *)
Definition drops (x y : Z) : Prop := ∀ k, 0 ≤ k < 8 → served k x = true → ∀ n, 0 ≤ n < 8 → Z.testbit y n = Z.testbit x n && negb (n =? k).
Lemma finished_drops x : 0 ≤ x ≤ 0xFF → drops x (Z.land x (x - 1)).
Proof.
  assert (all_range 0 256 (λ x, all_range 0 8 (λ k, negb (served k x) ||
    all_range 0 8 (λ n, eqb (Z.testbit (Z.land x (x - 1)) n) (Z.testbit x n && negb (n =? k))))) = true) as H by by vm_compute.
  intros Hx k Hk S n Hn. rewrite all_range_true in H. specialize (H x ltac:(lia)). rewrite all_range_true in H. specialize (H k Hk).
  rewrite S in H. cbn [negb orb] in H. rewrite all_range_true in H. by apply eqb_prop, H.
Qed.

Section Acknowledge.
Context {P M : Type} (inb : Z → P → Z * P) (outb : Z → Z → P → P) `{!Controllers inb outb} (invoke : Z → irqs P M → irqs P M).
Implicit Types (s t : irqs P M) (p : P).

(** Handlers leave the controllers and the dispatcher's own state alone. *)
Definition quiet : Prop := ∀ h s, let t := invoke h s in
  masks t = masks s ∧ irq_counts t = irq_counts s ∧ spurious_irqs t = spurious_irqs s ∧ handler_depth t = handler_depth s ∧
  master (ports t) = master (ports s) ∧ slave (ports t) = slave (ports s).

(** Two controllers that differ in what they serve only. *)
Definition same_setup (c d : chip) : Prop := chip_stage d = chip_stage c ∧ chip_base d = chip_base c ∧ imr d = imr c.
Lemma setup_lines f (m : pic) p q : same_setup (master p) (master q) → same_setup (slave p) (slave q) → lines inb outb f (m, p) → lines inb outb f (m, q).
Proof. intros (A1 & A2 & A3) (B1 & B2 & B3) [R B I Y Lm Ls C]. constructor; cbn [fst snd] in *; rewrite ?A1, ?A2, ?A3, ?B1, ?B2, ?B3; done. Qed.

(** A line is real unless it is the last of its controller and not in service. *)
Definition real_line (irq : Z) p : bool :=
  if irq =? 7 then Z.testbit (isr (master p)) 7 else if irq =? 15 then Z.testbit (isr (slave p)) 7 else true.
Lemma bit7 x : (Z.land x 0x80 =? 0) = negb (Z.testbit x 7).
Proof. rewrite <- (mask_testbit x 7) by lia. by rewrite negb_involutive. Qed.
Lemma is_real_exact irq p : 0 ≤ irq < 16 → let '(real, q) := pic_irq_is_real inb outb irq p in
  real = real_line irq p ∧ same_setup (master p) (master q) ∧ same_setup (slave p) (slave q) ∧
  isr (master q) = (if real || negb (irq =? 15) then isr (master p) else Z.land (isr (master p)) (isr (master p) - 1)) ∧ isr (slave q) = isr (slave p).
Proof.
  intros Hi. unfold pic_irq_is_real, real_line. destruct (Z.eqb_spec irq 7) as [->|N7].
  - destruct (inb MASTER_COMMAND _) as [v q] eqn:E. pose proof (in_master (outb MASTER_COMMAND 0x0B p)) as V. pose proof (in_same MASTER_COMMAND (outb MASTER_COMMAND 0x0B p)) as [Q1 Q2].
    rewrite E in V, Q1, Q2. cbn [fst snd] in *. rewrite (proj1 (show_master inb outb p)) in V, Q1. rewrite (proj2 (show_master inb outb p)) in Q2. rewrite (V eq_refl), Q1, Q2. cbn [isr showing_isr].
    rewrite bit7, negb_involutive, orb_true_r. done.
  - destruct (Z.eqb_spec irq 15) as [->|N15]; [|rewrite (proj2 (Z.ltb_lt irq 16)) by lia; done].
    destruct (inb SLAVE_COMMAND _) as [v q] eqn:E. pose proof (in_slave (outb SLAVE_COMMAND 0x0B p)) as V. pose proof (in_same SLAVE_COMMAND (outb SLAVE_COMMAND 0x0B p)) as [Q1 Q2].
    rewrite E in V, Q1, Q2. cbn [fst snd] in *. rewrite (proj1 (show_slave inb outb p)) in V, Q2. rewrite (proj2 (show_slave inb outb p)) in Q1. rewrite (V eq_refl). cbn [isr showing_isr].
    rewrite bit7. destruct (Z.testbit (isr (slave p)) 7) eqn:T; cbn [negb].
    + by rewrite Q1, Q2.
    + rewrite (proj1 (eoi_master inb outb q)), (proj2 (eoi_master inb outb q)), Q1, Q2. done.
Qed.
Lemma end_exact irq p : 0 ≤ irq < 16 → let q := pic_end_of_interrupt outb irq p in
  same_setup (master p) (master q) ∧ same_setup (slave p) (slave q) ∧ isr (master q) = Z.land (isr (master p)) (isr (master p) - 1) ∧
  isr (slave q) = if 8 <=? irq then Z.land (isr (slave p)) (isr (slave p) - 1) else isr (slave p).
Proof.
  intros Hi. unfold pic_end_of_interrupt. rewrite Z.geb_leb, (proj2 (Z.leb_gt 16 irq)) by lia. rewrite Z.geb_leb. destruct (8 <=? irq);
    rewrite (proj1 (eoi_master inb outb _)), (proj2 (eoi_master inb outb _)), ?(proj1 (eoi_slave inb outb _)), ?(proj2 (eoi_slave inb outb _)); done.
Qed.

Lemma mask_keeps_isr irq (m : pic) p f : lines inb outb f (m, p) →
  isr (master (snd (pic_mask outb irq m p))) = isr (master p) ∧ isr (slave (snd (pic_mask outb irq m p))) = isr (slave p).
Proof.
  intros [[R1 R2] _ _ _ _ _ _]. cbn [fst snd] in *. unfold pic_mask. case_match; [done|]. cbn [write_masks snd].
  rewrite (master_data inb outb), (master_data' inb outb), (slave_data inb outb), (slave_data' inb outb). unfold chip_data. by rewrite R1, R2.
Qed.

(** Serving a line calls its handler once, marked as running, or closes the line. *)
Lemma serve_exact irq s f : quiet → 0 ≤ irq < 16 → irq ≠ 2 → 0 ≤ handler_depth s < UINT32_MAX → lines inb outb f (masks s, ports s) →
  let t := serve outb invoke irq s in let h := aget (handlers s) irq in
  handler_depth t = handler_depth s ∧ irq_counts t = irq_counts s ∧ spurious_irqs t = spurious_irqs s ∧
  isr (master (ports t)) = isr (master (ports s)) ∧ isr (slave (ports t)) = isr (slave (ports s)) ∧
  lines inb outb (if h =? 0 then update f (Mask irq) else f) (masks t, ports t) ∧
  if h =? 0 then rest t = rest s else let u := set_depth (handler_depth s + 1) s in irq_in_handler u = true ∧ rest t = rest (invoke h u).
Proof.
  intros Q Hi N2 Hd L. unfold serve. cbv zeta. destruct (Z.eqb_spec (aget (handlers s) irq) 0) as [E|E]; cbn [negb].
  - destruct (mask_keeps_isr irq _ _ _ L) as [K1 K2]. pose proof (mask_lines inb outb f irq _ ltac:(lia) N2 L) as L'. cbn [line_step fst snd] in *.
    destruct (pic_mask outb irq (masks s) (ports s)) as [m p]. done.
  - assert (wrap32 (handler_depth s + 1) = handler_depth s + 1) as W by (apply wrap32_small; lia). rewrite W. set (u := set_depth (handler_depth s + 1) s).
    change (handlers u) with (handlers s). destruct (Q (aget (handlers s) irq) u) as (Q1 & Q2 & Q3 & Q4 & Q5 & Q6). set (t := invoke _ u) in *. cbn.
    rewrite Q1, Q2, Q3, Q4, Q5, Q6. cbn. split; [rewrite wrap32_small by lia; lia|]. split_and!; try done.
    + eapply setup_lines; [..|exact L]; [by rewrite Q5|by rewrite Q6].
    + unfold irq_in_handler. cbn. by rewrite (proj2 (Z.eqb_neq _ 0)) by lia.
Qed.
End Acknowledge.

(** C31: every hardware interrupt is accounted for and acknowledged once. An interrupt the
    controllers really raised is counted, its handler runs once, marked as such, or its line
    is closed when it has none; then the line served with the highest priority leaves the
    in-service register of the master, and for lines 8 to 15 of the slave. A spurious one
    runs nothing and is counted apart; only the cascade of a spurious line 15 is
    acknowledged, at the master. The nesting depth is as before, and no other line opens or
    closes. *)
Theorem irq_dispatch_exact (P M : Type) (inb : Z → P → Z * P) (outb : Z → Z → P → P) `{!Controllers inb outb} (invoke : Z → irqs P M → irqs P M)
    (frame : exception_frame) (s : irqs P M) (irq : Z) (f : Z → bool) :
  quiet inb outb invoke → 0 ≤ irq < 16 → irq ≠ 2 → vector frame = PIC_VECTOR_BASE + irq → 0 ≤ handler_depth s < UINT32_MAX →
  0 ≤ isr (master (ports s)) ≤ 0xFF → 0 ≤ isr (slave (ports s)) ≤ 0xFF → lines inb outb f (masks s, ports s) →
  let t := irq_dispatch inb outb invoke frame s in let h := aget (handlers s) irq in
  handler_depth t = handler_depth s ∧
  if real_line inb outb irq (ports s) then
    irq_counts t = aset (irq_counts s) irq (wrap32 (aget (irq_counts s) irq + 1)) ∧ spurious_irqs t = spurious_irqs s ∧
    (if h =? 0 then rest t = rest s else ∃ u, irq_in_handler u = true ∧ rest u = rest s ∧ rest t = rest (invoke h u)) ∧
    drops (isr (master (ports s))) (isr (master (ports t))) ∧
    (if 8 <=? irq then drops (isr (slave (ports s))) (isr (slave (ports t))) else isr (slave (ports t)) = isr (slave (ports s))) ∧
    lines inb outb (if h =? 0 then update f (Mask irq) else f) (masks t, ports t)
  else
    irq_counts t = irq_counts s ∧ spurious_irqs t = wrap32 (spurious_irqs s + 1) ∧ rest t = rest s ∧
    (if irq =? 15 then drops (isr (master (ports s))) (isr (master (ports t))) else isr (master (ports t)) = isr (master (ports s))) ∧
    isr (slave (ports t)) = isr (slave (ports s)) ∧ lines inb outb f (masks t, ports t).
Proof.
  intros Q Hi N2 Hv Hd Hm Hs L. unfold irq_dispatch. rewrite Hv, (proj2 (Z.ltb_ge _ PIC_VECTOR_BASE)) by lia. rewrite Z.geb_leb, (proj2 (Z.leb_gt (PIC_VECTOR_BASE + 16) _)) by lia. cbn [orb].
  replace (wrap8 (PIC_VECTOR_BASE + irq - PIC_VECTOR_BASE)) with irq by (unfold wrap8; rewrite Z.mod_small; lia).
  pose proof (is_real_exact inb outb irq (ports s) Hi) as R. destruct (pic_irq_is_real inb outb irq (ports s)) as [real p]. destruct R as (-> & S1 & S2 & I1 & I2).
  assert (lines inb outb f (masks s, p)) as Lp by by eapply setup_lines.
  destruct (real_line inb outb irq (ports s)) eqn:R; cbn [negb orb] in *.
  - set (s1 := set_counts _ _). destruct (serve_exact inb outb invoke irq s1 f Q Hi N2 Hd Lp) as (D & C & Sp & M1 & M2 & Lt & Re). change (handlers s1) with (handlers s) in *.
    set (t := serve outb invoke irq s1) in *. destruct (end_exact inb outb irq (ports t) Hi) as (E1 & E2 & F1 & F2). cbn. split; [done|]. split; [done|]. split; [done|].
    split; [destruct (aget (handlers s) irq =? 0); [exact Re|destruct Re as [Re1 Re2]; by exists (set_depth (handler_depth s1 + 1) s1)]|]. rewrite F1, F2, M1, M2. cbn [ports set_counts s1 set_ports set_masks_ports]. rewrite I1, I2.
    split; [by apply finished_drops|]. split; [case_match; [by apply finished_drops|done]|]. by eapply setup_lines.
  - cbn. split; [done|]. split; [done|]. split; [done|]. split; [done|]. rewrite I1, I2. destruct (Z.eqb_spec irq 15); cbn [negb]; (split; [|done]); [by apply finished_drops|done].
Qed.

(** ** The handlers of the machine

    The timer and the keyboard register their handlers for lines 0 and 1. The task model
    delivers interrupts by [interrupt], with a flag for a handler that runs; here that flag
    is the dispatcher's depth. *)

Section Devices.
Context {K P : Type} (inb : Z → P → Z * P) (outb : Z → Z → P → P) `{!Controllers inb outb} (timer keyboard : Z).
Implicit Types (s t : irqs P (kstate K)) (p : P).

(** The bytes the keyboard handler reads, in its loop of at most 32 passes. *)
Fixpoint read_bytes (n : nat) p : list (Z * Z) * P :=
  match n with
  | O => ([], p)
  | S n =>
      let '(status, p) := inb PS2_STATUS p in
      if Z.land status 1 =? 0 then ([], p) else
      let '(scancode, p) := inb PS2_DATA p in
      let '(l, p) := read_bytes n p in ((status, scancode) :: l, p)
  end.
Definition view s : kstate K := set_in_irq (irq_in_handler s) (rest s).
(** The function at an address: the timer's handler, the keyboard's, or none of them. *)
Definition devices (h : Z) s : irqs P (kstate K) :=
  if h =? timer then set_rest (timer_interrupt (view s)) s else
  if h =? keyboard then let '(l, p) := read_bytes 32 (ports s) in set_ports p (set_rest (keyboard_interrupt l (view s)) s)
  else s.

Lemma read_bytes_quiet n p : master (snd (read_bytes n p)) = master p ∧ slave (snd (read_bytes n p)) = slave p.
Proof.
  revert p. induction n as [|n IH]; intros p; [done|]. cbn. destruct (inb PS2_STATUS p) as [st q] eqn:E. pose proof (in_same PS2_STATUS p) as [A B]. rewrite E in A, B. cbn [snd] in *.
  case_match; [done|]. destruct (inb PS2_DATA q) as [sc r] eqn:E'. pose proof (in_same PS2_DATA q) as [A' B']. rewrite E' in A', B'. cbn [snd] in *.
  specialize (IH r). destruct (read_bytes n r). cbn [snd] in *. by rewrite (proj1 IH), (proj2 IH), A', B', A, B.
Qed.
Lemma read_bytes_length n p : (length (fst (read_bytes n p)) ≤ n)%nat.
Proof.
  revert p. induction n as [|n IH]; intros p; [done|]. cbn. destruct (inb PS2_STATUS p) as [st q]. case_match; cbn; [lia|]. destruct (inb PS2_DATA q) as [sc r].
  specialize (IH r). destruct (read_bytes n r). cbn in *. lia.
Qed.
Lemma devices_quiet : quiet inb outb devices.
Proof.
  intros h s. unfold devices. case_match; [done|]. case_match; [|done]. pose proof (read_bytes_quiet 32 (ports s)). by destruct (read_bytes 32 (ports s)).
Qed.

(** Entry through an interrupt gate clears the flag that [iret] restores. *)
Definition entered s : irqs P (kstate K) := set_rest (set_iflag false (rest s)) s.
Definition returned s : kstate K := set_iflag true (view s).
(** A line that cannot be spurious, with a handler: the tasks after the handler. *)
Lemma dispatch_handler irq (frame : exception_frame) invoke s : 0 ≤ irq < 7 → vector frame = PIC_VECTOR_BASE + irq → aget (handlers s) irq ≠ 0 →
  0 ≤ handler_depth s < UINT32_MAX → quiet inb outb invoke →
  ∃ u, irq_in_handler u = true ∧ rest u = rest s ∧ ports u = ports s ∧
    view (irq_dispatch inb outb invoke frame s) = set_in_irq (irq_in_handler s) (rest (invoke (aget (handlers s) irq) u)).
Proof.
  intros Hi Hv Hh Hd Q. unfold irq_dispatch. rewrite Hv, (proj2 (Z.ltb_ge _ PIC_VECTOR_BASE)) by lia. rewrite Z.geb_leb, (proj2 (Z.leb_gt (PIC_VECTOR_BASE + 16) _)) by lia. cbn [orb].
  replace (wrap8 (PIC_VECTOR_BASE + irq - PIC_VECTOR_BASE)) with irq by (unfold wrap8; rewrite Z.mod_small; lia).
  unfold pic_irq_is_real. rewrite (proj2 (Z.eqb_neq irq 7)), (proj2 (Z.eqb_neq irq 15)), (proj2 (Z.ltb_lt irq 16)) by lia. cbn [negb].
  set (s1 := set_counts _ _). unfold serve. change (handlers s1) with (handlers s). rewrite (proj2 (Z.eqb_neq _ 0) Hh). cbn [negb].
  assert (wrap32 (handler_depth s1 + 1) = handler_depth s + 1) as -> by (apply wrap32_small; cbn; lia). set (u := set_depth (handler_depth s + 1) s1). change (handlers u) with (handlers s).
  exists u. split; [unfold irq_in_handler; cbn; by rewrite (proj2 (Z.eqb_neq _ 0)) by lia|]. split; [done|]. split; [done|].
  destruct (Q (aget (handlers s) irq) u) as (_ & _ & _ & D & _). set (t := invoke _ u) in *. unfold view, irq_in_handler. cbn. rewrite D. cbn.
  by replace (wrap32 (handler_depth s + 1 - 1)) with (handler_depth s) by (rewrite wrap32_small; lia).
Qed.
End Devices.

(** C32: dispatching a device's interrupt is what the task model says an interrupt is. From
    a machine with interrupts enabled and a handler depth below its limit, a timer or
    keyboard interrupt taken through the gate, the dispatcher and the handler, and back,
    leaves the tasks exactly as [interrupt] does for that device, with the bytes the
    controller held. *)
Theorem dispatch_refines_interrupt (K P : Type) (inb : Z → P → Z * P) (outb : Z → Z → P → P) `{!Controllers inb outb} (timer keyboard : Z)
    (frame : exception_frame) (s : irqs P (kstate K)) :
  timer ≠ 0 → keyboard ≠ 0 → timer ≠ keyboard → aget (handlers s) 0 = timer → aget (handlers s) 1 = keyboard →
  iflag (rest s) = true → 0 ≤ handler_depth s < UINT32_MAX →
  let after := returned (irq_dispatch inb outb (devices inb timer keyboard) frame (entered s)) in
  (vector frame = PIC_VECTOR_BASE → after = interrupt Timer (view s)) ∧
  (vector frame = PIC_VECTOR_BASE + 1 → after = interrupt (Keys (fst (read_bytes inb 32 (ports s)))) (view s)).
Proof.
  intros Nt Nk Ne Ht Hk Hf Hd after. unfold interrupt. change (iflag (view s)) with (iflag (rest s)). rewrite Hf. cbn [negb].
  split; intros Hv; subst after; unfold returned.
  - destruct (dispatch_handler inb outb 0 frame (devices inb timer keyboard) (entered s) ltac:(lia) Hv ltac:(cbn; congruence) Hd (devices_quiet inb outb timer keyboard)) as (u & D & R & _ & ->).
    change (handlers (entered s)) with (handlers s). rewrite Ht. unfold devices. rewrite Z.eqb_refl. cbn [rest set_rest]. unfold view at 1. by rewrite D, R.
  - destruct (dispatch_handler inb outb 1 frame (devices inb timer keyboard) (entered s) ltac:(lia) Hv ltac:(cbn; congruence) Hd (devices_quiet inb outb timer keyboard)) as (u & D & R & Pu & ->).
    change (handlers (entered s)) with (handlers s). rewrite Hk. unfold devices. rewrite (proj2 (Z.eqb_neq keyboard timer)), Z.eqb_refl by done. rewrite Pu. change (ports (entered s)) with (ports s).
    destruct (read_bytes inb 32 (ports s)) as [l p]. cbn [rest set_rest set_ports set_masks_ports fst]. unfold view at 1. by rewrite D, R.
Qed.

(** ** Witnesses *)

(** The timer's line open and in service, its handler registered at 1, the keyboard's at 2. *)
Module IrqSample.
Definition open_timer (i : Z) : bool := i =? 0.
Definition serving_timer : chip * chip := (Chip Ready 0x20 0xFE 1 false, Chip Ready 0x28 0xFF 0 false).
Definition board {M : Type} (x : M) : irqs (chip * chip) M := Irqs (Pic 0xFE 0xFF) (aset (aset ∅ 0 1) 1 2) ∅ 0 0 serving_timer x.
Definition frame (v : Z) : exception_frame := Frame 0 0 0 0 0 0 0 0 0 0 0 0 v 0 0 0 0.
Lemma board_lines : lines PicSample.inb PicSample.outb open_timer (Pic 0xFE 0xFF, serving_timer).
Proof.
  assert (all_range 0 8 (λ i, eqb (Z.testbit 0xFE i) (negb (open_timer i)) && eqb (Z.testbit 0xFF i) (negb (open_timer (8 + i)))) = true) as H by by vm_compute.
  rewrite all_range_true in H. constructor; try done; cbn [fst snd master_mask slave_mask]; intros i Hi; [intros _|]; specialize (H i Hi); apply andb_prop in H as [H1 H2]; by apply eqb_prop.
Qed.
End IrqSample.

Lemma irq_dispatch_exact_witness :
  drops 1 (isr (fst (ports (irq_dispatch PicSample.inb PicSample.outb (λ _ s, set_rest (rest s + 1) s) (IrqSample.frame 0x20) (IrqSample.board 41))))).
Proof.
  pose proof (irq_dispatch_exact _ _ PicSample.inb PicSample.outb (λ _ s, set_rest (rest s + 1) s) (IrqSample.frame 0x20) (IrqSample.board 41) 0 IrqSample.open_timer
    ltac:(by intros h s) ltac:(by split) ltac:(done) eq_refl ltac:(by split) ltac:(by split) ltac:(by split) IrqSample.board_lines) as (_ & H).
  destruct H as (_ & _ & _ & H & _). exact H.
Defined.
Lemma dispatch_refines_interrupt_witness :
  returned (irq_dispatch PicSample.inb PicSample.outb (devices PicSample.inb 1 2) (IrqSample.frame 0x20) (entered (IrqSample.board (set_iflag true TaskSample.ready_worker)))) =
  interrupt Timer (view (IrqSample.board (set_iflag true TaskSample.ready_worker))).
Proof.
  by apply (dispatch_refines_interrupt _ _ PicSample.inb PicSample.outb 1 2 (IrqSample.frame 0x20) (IrqSample.board (set_iflag true TaskSample.ready_worker))).
Defined.

(** ** Gates *)

(** What the processor reads of a gate. *)
Definition gate_present (g : idt_gate) : bool := Z.testbit (attributes g) 7.
Definition gate_privilege (g : idt_gate) : Z := Z.land (Z.shiftr (attributes g) 5) 3.
Definition gate_type (g : idt_gate) : Z := Z.land (attributes g) 0x1F.
Definition gate_offset (g : idt_gate) : Z := Z.lor (offset_low g) (Z.shiftl (offset_high g) 16).
Definition INTERRUPT_GATE : Z := 0xE.
Definition TASK_GATE : Z := 5.

Lemma gate_to_offset a attributes : 0 ≤ a ≤ UINT32_MAX → gate_offset (gate_to a attributes) = a.
Proof.
  intros Ha. unfold gate_offset, gate_to. cbn [offset_low offset_high]. unfold wrap16. rewrite (lor_shiftl _ _ 16) by (try apply Z.mod_pos_bound; lia).
  rewrite Z.shiftr_div_pow2 by lia. rewrite (Z.mod_small (a / 2 ^ 16)) by (split; [apply Z.div_pos; lia|apply Z.div_lt_upper_bound; unfold UINT32_MAX in *; lia]).
  change (2 ^ 16) with 0x10000. pose proof (Z.div_mod a 0x10000 ltac:(lia)). lia.
Qed.
Lemma idt_loop ex st n v : 0 ≤ n → for_range 0 n (λ v idt, <[v := gate_to (if v <? 32 then ex v else st (v - 32)) 0x8E]> idt) (∅ : gmap Z idt_gate) !! v =
  if decide (0 ≤ v < n) then Some (gate_to (if v <? 32 then ex v else st (v - 32)) 0x8E) else None.
Proof.
  intros Hn. revert n Hn. apply (natlike_ind (λ n, _)); [by rewrite for_range_nil, lookup_empty, decide_False by lia|]. intros n Hn IH. rewrite <- Z.add_1_r, for_range_snoc by lia.
  destruct (decide (v = n)) as [->|N]; [by rewrite lookup_insert_eq, decide_True by lia|]. rewrite lookup_insert_ne by done. rewrite IH.
  destruct (decide (0 ≤ v < n)), (decide (0 ≤ v < n + 1)); try done; lia.
Qed.

(** User code enters the kernel by one gate only. Of the 256 vectors exactly the 32
    exceptions, the 16 lines of the controllers and the system call are present, and the
    system call's is the only gate a program may name; every gate leads to the address of
    its own stub on the kernel's code segment with interrupts off, except the double
    fault's, which switches to its own task. *)
Theorem idt_single_user_gate (exceptions irqs : Z → Z) (syscall v : Z) :
  (∀ i, 0 ≤ exceptions i ≤ UINT32_MAX) → (∀ i, 0 ≤ irqs i ≤ UINT32_MAX) → 0 ≤ syscall ≤ UINT32_MAX →
  let g := gate (idt_initialize exceptions irqs syscall) v in
  (gate_present g = true ↔ 0 ≤ v < 48 ∨ v = RUM_SYSCALL_VECTOR) ∧
  (gate_present g = true → gate_privilege g = if v =? RUM_SYSCALL_VECTOR then 3 else 0) ∧
  (gate_present g = true → v ≠ 8 → gate_type g = INTERRUPT_GATE ∧ selector g = KERNEL_CODE_SELECTOR ∧
    gate_offset g = if v =? RUM_SYSCALL_VECTOR then syscall else if v <? 32 then exceptions v else irqs (v - PIC_VECTOR_BASE)) ∧
  (v = 8 → gate_type g = TASK_GATE ∧ selector g = DOUBLE_FAULT_TSS_SELECTOR).
Proof.
  intros He Hi Hs g. subst g. unfold gate, idt_initialize, PIC_VECTOR_BASE. destruct (Z.eqb_spec v RUM_SYSCALL_VECTOR) as [->|N1].
  { rewrite lookup_insert_eq. cbn [default]. split; [split; [by right|done]|]. split; [done|]. split; [intros _ _; split; [done|]; split; [done|by apply gate_to_offset]|done]. }
  rewrite lookup_insert_ne by done. destruct (decide (v = 8)) as [->|N2].
  { rewrite lookup_insert_eq. cbn [default]. split; [split; [by left|done]|]. by split. }
  rewrite lookup_insert_ne by done. rewrite idt_loop by lia. destruct (decide (0 ≤ v < 48)) as [V|V]; cbn [default].
  - split; [split; [by left|done]|]. split; [done|]. split; [|done]. intros _ _. split; [done|]. split; [done|]. apply gate_to_offset. by case_match.
  - split; [split; [done|intros [?|?]; done]|]. done.
Qed.
Lemma idt_single_user_gate_witness : gate_privilege (gate (idt_initialize (λ i, 0x100000 + 16 * (i mod 32)) (λ i, 0x101000) 0x102000) 0x80) = 3.
Proof.
  refine (proj1 (proj2 (idt_single_user_gate (λ i, 0x100000 + 16 * (i mod 32)) (λ i, 0x101000) 0x102000 0x80 _ _ _)) _); [|by split|by split|done].
  intros i. pose proof (Z.mod_pos_bound i 32 ltac:(lia)). unfold UINT32_MAX. lia.
Defined.
