(* ===== verification/Elf.v ===== *)
(** * ELF loader (kernel/process/elf.c)

    Validation of an executable image and of an argument packet, the layout of the first
    stack, and the construction of an address space from them. The image is a function
    from offsets to bytes; the address spaces are those of Paging.v. *)

From S2P Require Import Prelude Block Path Fs Pmm Paging Spaces Session Handles Gdt Keyboard Task.

Definition RUM_ELF_EXEC : Z := 2.
Definition RUM_ELF_I386 : Z := 3.
Definition RUM_ELF_VERSION : Z := 1.
Definition RUM_ELF_PROGRAM_LIMIT : Z := 16.
Definition RUM_ELF_IMAGE_LIMIT : Z := 65536.
Definition RUM_ELF_PT_NULL : Z := 0.
Definition RUM_ELF_PT_LOAD : Z := 1.
Definition RUM_ELF_PT_GNU_STACK : Z := 0x6474E551.
Definition RUM_ELF_PF_X : Z := 1.
Definition RUM_ELF_PF_W : Z := 2.
Definition RUM_ELF_PF_R : Z := 4.
Definition RUM_PROCESS_ARGUMENT_LIMIT : Z := 32.
Definition RUM_PROCESS_ARGUMENT_BYTES : Z := 4096.
Definition SIZEOF_ELF_HEADER : Z := 52.
Definition SIZEOF_ELF_PROGRAM : Z := 32.
Definition USER_STACK_PAGES : Z := (RUM_USER_STACK_TOP - RUM_USER_STACK_BASE) / PAGE_SIZE.
Definition CPU_USER_EFLAGS : Z := 0x202.

(** ** Packets *)

Record rum_arguments := Arguments_ { argc : Z; string_bytes : Z; offsets : gmap Z Z; strings : gmap Z Z }.
Definition no_arguments : rum_arguments := Arguments_ 0 0 ∅ ∅.

(** [while (cursor < string_bytes && strings[cursor]) ++cursor], at most [n] passes. *)
Fixpoint string_end (n : nat) (a : rum_arguments) (cursor : Z) : Z :=
  match n with
  | O => cursor
  | S n => if (cursor <? string_bytes a) && negb (aget (strings a) cursor =? 0) then string_end n a (cursor + 1) else cursor
  end.
(** The loop over the arguments, [n] of them left. *)
Fixpoint offsets_valid (n : nat) (a : rum_arguments) (i cursor : Z) : bool :=
  match n with
  | O => cursor =? string_bytes a
  | S n =>
      if negb (aget (offsets a) i =? cursor) then false else
      let cursor := string_end (Z.to_nat RUM_PROCESS_ARGUMENT_BYTES) a cursor in
      if cursor =? string_bytes a then false else offsets_valid n a (i + 1) (cursor + 1)
  end.
Definition elf_arguments_valid (arguments : option rum_arguments) : bool :=
  match arguments with
  | None => false
  | Some a =>
      if (argc a =? 0) || (argc a >? RUM_PROCESS_ARGUMENT_LIMIT) || (string_bytes a =? 0) ||
         (string_bytes a >? RUM_PROCESS_ARGUMENT_BYTES) then false
      else offsets_valid (Z.to_nat (argc a)) a 0 0
  end.

(** ** Images *)

(** Little-endian words of a packed structure. *)
Definition u16_at (p : Z → Z) (i : Z) : Z := wrap8 (p i) + 0x100 * wrap8 (p (i + 1)).
Definition u32_at (p : Z → Z) (i : Z) : Z := u16_at p i + 0x10000 * u16_at p (i + 2).

Record rum_elf_header := ElfHeader {
  e_ident : list Z; e_type : Z; e_machine : Z; e_version : Z; e_entry : Z; e_phoff : Z; e_shoff : Z; e_flags : Z;
  e_ehsize : Z; e_phentsize : Z; e_phnum : Z; e_shentsize : Z; e_shnum : Z; e_shstrndx : Z
}.
Definition header_at (p : Z → Z) : rum_elf_header :=
  ElfHeader ((λ i, wrap8 (p i)) <$> seqZ 0 16) (u16_at p 16) (u16_at p 18) (u32_at p 20) (u32_at p 24) (u32_at p 28) (u32_at p 32)
    (u32_at p 36) (u16_at p 40) (u16_at p 42) (u16_at p 44) (u16_at p 46) (u16_at p 48) (u16_at p 50).
Record rum_elf_program := ElfProgram {
  p_type : Z; p_offset : Z; p_address : Z; p_physical : Z; p_file_bytes : Z; p_memory_bytes : Z; p_flags : Z; p_alignment : Z
}.
Definition program_at (p : Z → Z) (i : Z) : rum_elf_program :=
  ElfProgram (u32_at p i) (u32_at p (i + 4)) (u32_at p (i + 8)) (u32_at p (i + 12)) (u32_at p (i + 16)) (u32_at p (i + 20))
    (u32_at p (i + 24)) (u32_at p (i + 28)).
Record load_segment := LoadSegment { program : rum_elf_program; seg_start : Z; seg_pages : Z }.
Record load_plan := LoadPlan { plan_entry : Z; plan_segments : list load_segment }.
(** The variables of the loop. *)
Record planning := Planning { planned : list load_segment; has_entry : bool; has_stack : bool; previous_end : Z; pages : Z }.

Definition ident : list Z := [0x7f; 69; 76; 70; 1; 1; 1; 0; 0].
Definition header_valid (h : rum_elf_header) (bytes : Z) : bool :=
  bool_decide (take 9 (e_ident h) = ident) && (e_type h =? RUM_ELF_EXEC) && (e_machine h =? RUM_ELF_I386) && (e_version h =? RUM_ELF_VERSION) &&
  (e_flags h =? 0) && (e_ehsize h =? SIZEOF_ELF_HEADER) && (e_phentsize h =? SIZEOF_ELF_PROGRAM) && negb (e_phnum h =? 0) &&
  (e_phnum h <=? RUM_ELF_PROGRAM_LIMIT) && (SIZEOF_ELF_HEADER <=? e_phoff h) && (e_phoff h <=? bytes) &&
  (e_phnum h * SIZEOF_ELF_PROGRAM <=? bytes - e_phoff h).
Definition flags_valid (flags : Z) : bool :=
  negb (Z.land flags RUM_ELF_PF_R =? 0) && (Z.land flags (not32 7) =? 0) &&
  negb (Z.land flags (Z.lor RUM_ELF_PF_W RUM_ELF_PF_X) =? Z.lor RUM_ELF_PF_W RUM_ELF_PF_X).
Definition placement_valid (p : rum_elf_program) : bool :=
  let alignment := p_alignment p in
  negb ((alignment >? 1) && (negb (Z.land alignment (alignment - 1) =? 0) || negb (p_address p mod alignment =? p_offset p mod alignment))) &&
  (p_address p mod PAGE_SIZE =? p_offset p mod PAGE_SIZE) && (RUM_USER_BASE <=? p_address p) && (p_address p <? RUM_USER_PROGRAM_END) &&
  (p_memory_bytes p <=? RUM_USER_PROGRAM_END - p_address p).
(** One program header; [None] is [return false]. *)
Definition plan_program (entry bytes : Z) (p : rum_elf_program) (a : planning) : option planning :=
  if p_type p =? RUM_ELF_PT_NULL then Some a else
  if p_type p =? RUM_ELF_PT_GNU_STACK then
    if has_stack a || negb (p_flags p =? Z.lor RUM_ELF_PF_R RUM_ELF_PF_W) || negb (p_file_bytes p =? 0) || negb (p_memory_bytes p =? 0) then None
    else Some (Planning (planned a) (has_entry a) true (previous_end a) (pages a))
  else
  if negb (p_type p =? RUM_ELF_PT_LOAD) || (p_file_bytes p >? p_memory_bytes p) || (p_offset p >? bytes) ||
     (p_file_bytes p >? bytes - p_offset p) || negb (flags_valid (p_flags p)) then None else
  if p_memory_bytes p =? 0 then Some a else
  if negb (placement_valid p) then None else
  let first := Z.land (p_address p) (not32 (PAGE_SIZE - 1)) in
  let last := Z.land (wrap32 (p_address p + p_memory_bytes p + PAGE_SIZE - 1)) (not32 (PAGE_SIZE - 1)) in
  let count := wrap32 (last - first) / PAGE_SIZE in
  if (first <? previous_end a) || (count >? wrap32 (RUM_PROCESS_USER_BYTES / PAGE_SIZE - pages a)) then None else
  Some (Planning (planned a ++ [LoadSegment p first count])
          (has_entry a || (negb (Z.land (p_flags p) RUM_ELF_PF_X =? 0) && (p_address p <=? entry) && (entry - p_address p <? p_file_bytes p)))
          (has_stack a) last (wrap32 (pages a + count))).
Fixpoint plan_loop (n : nat) (image : Z → Z) (h : rum_elf_header) (bytes i : Z) (a : planning) : option planning :=
  match n with
  | O => Some a
  | S n =>
      match plan_program (e_entry h) bytes (program_at image (e_phoff h + i * SIZEOF_ELF_PROGRAM)) a with
      | None => None
      | Some a => plan_loop n image h bytes (i + 1) a
      end
  end.
(** [NULL] is [None]. *)
Definition plan_image (image : option (Z → Z)) (bytes : Z) : option load_plan :=
  match image with
  | None => None
  | Some image =>
      if (bytes <? SIZEOF_ELF_HEADER) || (bytes >? RUM_ELF_IMAGE_LIMIT) then None else
      let h := header_at image in
      if negb (header_valid h bytes) then None else
      match plan_loop (Z.to_nat (e_phnum h)) image h bytes 0 (Planning [] false false RUM_USER_BASE USER_STACK_PAGES) with
      | Some a => if has_entry a && has_stack a then Some (LoadPlan (e_entry h) (planned a)) else None
      | None => None
      end
  end.

(** ** The first stack *)

(** [words[0 .. argc + 2]]. *)
Definition stack_words (a : rum_arguments) (base : Z) : list Z :=
  argc a :: ((λ i, wrap32 (base + aget (offsets a) i)) <$> seqZ 0 (argc a)) ++ [0; 0].
Definition word_bytes (w : Z) : list Z := [wrap8 w; wrap8 (Z.shiftr w 8); wrap8 (Z.shiftr w 16); wrap8 (Z.shiftr w 24)].
(** Where the strings and the words go; [None] when they do not fit. *)
Definition stack_layout (a : rum_arguments) : option (Z * Z) :=
  let strings := wrap32 (RUM_USER_STACK_TOP - string_bytes a) in
  let words_bytes := wrap32 (wrap32 (argc a + RUM_ABI_STACK_FIXED_WORDS) * 4) in
  if strings <? wrap32 (RUM_USER_STACK_BASE + words_bytes) then None else
  let esp := Z.land (wrap32 (strings - words_bytes)) (not32 (RUM_STACK_ALIGNMENT - 1)) in
  if esp <? RUM_USER_STACK_BASE then None else Some (strings, esp).

Section Elf.
Context (kernel : Z) (kmalloc : Z → paging → Z * paging) (kfree : Z → paging → bool * paging).

Definition build_stack (space : Z) (a : rum_arguments) (s : paging) : option Z * paging :=
  match stack_layout a with
  | None => (None, s)
  | Some (base, esp) =>
      let text := (λ i, wrap8 (aget (strings a) i)) <$> seqZ 0 (string_bytes a) in
      let '(ok, s) := paging_copy_to_user kernel space base (Some text) (string_bytes a) s in
      if negb ok then (None, s) else
      let words := stack_words a base in
      let '(ok, s) := paging_copy_to_user kernel space esp (Some (words ≫= word_bytes)) ((argc a + RUM_ABI_STACK_FIXED_WORDS) * 4) s in
      if ok then (Some esp, s) else (None, s)
  end.

Definition cpu_user_frame_initialize (entry stack : Z) : exception_user_frame :=
  UserFrame (Frame USER_DATA_SELECTOR USER_DATA_SELECTOR USER_DATA_SELECTOR USER_DATA_SELECTOR 0 0 0 0 0 0 0 0 0 0 entry USER_CODE_SELECTOR CPU_USER_EFLAGS)
    stack USER_DATA_SELECTOR.

(** Pages, contents and protection of one segment. *)
Definition load_one (space : Z) (image : Z → Z) (g : load_segment) : attempt paging :=
  paging_user_allocate kernel space (seg_start g) (seg_pages g) PAGING_WRITABLE &&>
  paging_copy_to_user kernel space (p_address (program g))
    (Some ((λ i, wrap8 (image (p_offset (program g) + i))) <$> seqZ 0 (p_file_bytes (program g)))) (p_file_bytes (program g)) &&>
  when (Z.land (p_flags (program g)) RUM_ELF_PF_W =? 0) (paging_user_protect kernel space (seg_start g) (seg_pages g) 0).
Definition load_segments (space : Z) (image : Z → Z) (l : list load_segment) : attempt paging :=
  foldr (λ g rest, load_one space image g &&> rest) (check true) l.

(** The process, [None] with an empty [*process] on failure. *)
Definition elf_load_process (image : option (Z → Z)) (image_bytes : Z) (arguments : option rum_arguments) (s : paging)
    : option task_process * paging :=
  if negb (elf_arguments_valid arguments) then (None, s) else
  match plan_image image image_bytes, image, arguments with
  | Some plan, Some image, Some arguments =>
      let '(space, s) := paging_space_create kernel kmalloc kfree s in
      if space =? 0 then (None, s) else
      let '(success, s) := (load_segments space image (plan_segments plan) &&>
        paging_user_allocate kernel space RUM_USER_STACK_BASE USER_STACK_PAGES PAGING_WRITABLE) s in
      let '(stack, s) := if (success : bool) then build_stack space arguments s else (None, s) in
      match stack with
      | None => (None, snd (paging_space_destroy kernel kfree space s))
      | Some stack => (Some (TaskProcess (Some space) (cpu_user_frame_initialize (plan_entry plan) stack) ∅), s)
      end
  | _, _, _ => (None, s)
  end.
End Elf.

(** ** What a plan guarantees *)

Definition seg_end (g : load_segment) : Z := seg_start g + seg_pages g * PAGE_SIZE.
(** The pages of a segment are the pages its bytes touch, all of them in the program
    window; its file bytes lie in the image; it is readable and never both writable and
    executable. *)
Record segment_ok (bytes : Z) (g : load_segment) : Prop := {
  seg_aligned : seg_start g mod PAGE_SIZE = 0;
  seg_first : seg_start g ≤ p_address (program g) < seg_start g + PAGE_SIZE;
  seg_last : seg_end g - PAGE_SIZE < p_address (program g) + p_memory_bytes (program g) ≤ seg_end g;
  seg_window : RUM_USER_BASE ≤ seg_start g ∧ seg_end g ≤ RUM_USER_PROGRAM_END;
  seg_file : 0 ≤ p_file_bytes (program g) ≤ p_memory_bytes (program g) ∧ 0 ≤ p_offset (program g) ∧ p_offset (program g) + p_file_bytes (program g) ≤ bytes;
  seg_readable : Z.testbit (p_flags (program g)) 2 = true;
  seg_exclusive : Z.testbit (p_flags (program g)) 1 && Z.testbit (p_flags (program g)) 0 = false
}.
Fixpoint ordered (lo : Z) (l : list load_segment) : Prop :=
  match l with [] => True | g :: l => lo ≤ seg_start g ∧ ordered (seg_end g) l end.
Definition last_end (lo : Z) (l : list load_segment) : Z := foldl (λ _ g, seg_end g) lo l.
Definition page_total (l : list load_segment) : Z := foldr (λ g n, seg_pages g + n) 0 l.
Definition entered (entry : Z) (g : load_segment) : Prop :=
  Z.testbit (p_flags (program g)) 0 = true ∧ p_address (program g) ≤ entry < p_address (program g) + p_file_bytes (program g).

Lemma ordered_snoc lo l g : ordered lo (l ++ [g]) ↔ ordered lo l ∧ last_end lo l ≤ seg_start g.
Proof. revert lo. induction l as [|h l IH]; intros lo; cbn; [tauto|]. rewrite IH. tauto. Qed.
Lemma page_total_snoc l g : page_total (l ++ [g]) = page_total l + seg_pages g.
Proof. unfold page_total. rewrite foldr_snoc. induction l as [|h l IH]; cbn in *; lia. Qed.

Lemma u16_at_bound p i : 0 ≤ u16_at p i ≤ UINT16_MAX.
Proof. unfold u16_at, wrap8, UINT16_MAX. pose proof (Z.mod_pos_bound (p i) 0x100). pose proof (Z.mod_pos_bound (p (i + 1)) 0x100). lia. Qed.
Lemma u32_at_bound p i : 0 ≤ u32_at p i ≤ UINT32_MAX.
Proof. unfold u32_at, UINT32_MAX. pose proof (u16_at_bound p i). pose proof (u16_at_bound p (i + 2)). unfold UINT16_MAX in *. lia. Qed.
(** Rounding down to a power of two at 32 bits. *)
Lemma round_down k x : 0 ≤ k ≤ 32 → 0 ≤ x ≤ UINT32_MAX → Z.land x (Z.shiftl (Z.ones (32 - k)) k) = x / 2 ^ k * 2 ^ k.
Proof.
  intros Hk Hx. unfold UINT32_MAX in *. rewrite <- Z.shiftl_mul_pow2, <- Z.shiftr_div_pow2 by lia. apply Z.bits_inj'. intros n Hn.
  rewrite Z.land_spec, !Z.shiftl_spec by done. destruct (decide (n < k)).
  - rewrite !(Z.testbit_neg_r _ (n - k)) by lia. by rewrite andb_false_r.
  - rewrite Z.shiftr_spec by lia. replace (n - k + k) with n by lia. destruct (decide (n < 32)).
    + rewrite (proj2 (Z.ones_spec_iff (32 - k) (n - k) ltac:(lia))) by lia. by rewrite andb_true_r.
    + rewrite Z.ones_spec_high by lia. rewrite andb_false_r. symmetry. apply (Z.bits_above_log2 x n); [lia|].
      destruct (decide (x = 0)) as [->|]; [cbn; lia|]. apply Z.log2_lt_pow2; [lia|]. apply (Z.lt_le_trans _ (2 ^ 32)); [lia|]. apply Z.pow_le_mono_r; lia.
Qed.
Lemma page_floor x : 0 ≤ x ≤ UINT32_MAX → Z.land x (not32 (PAGE_SIZE - 1)) = x / PAGE_SIZE * PAGE_SIZE.
Proof. exact (round_down 12 x ltac:(lia)). Qed.
Lemma align_down x : 0 ≤ x ≤ UINT32_MAX → Z.land x (not32 (RUM_STACK_ALIGNMENT - 1)) = x / 16 * 16.
Proof. exact (round_down 4 x ltac:(lia)). Qed.
Lemma flags_valid_spec f : flags_valid f = true → Z.testbit f 2 = true ∧ Z.testbit f 1 && Z.testbit f 0 = false.
Proof.
  unfold flags_valid. intros H. repeat rewrite andb_true_iff in H. destruct H as [[H1 _] H2]. rewrite negb_true_iff, Z.eqb_neq in H1, H2. split.
  - destruct (Z.testbit f 2) eqn:E; [done|]. exfalso. apply H1. apply Z.bits_inj'. intros n Hn. rewrite Z.land_spec, Z.bits_0.
    change RUM_ELF_PF_R with (2 ^ 2). rewrite Z.pow2_bits_eqb by lia. destruct (Z.eqb_spec 2 n) as [<-|]; [by rewrite E|by rewrite andb_false_r].
  - destruct (Z.testbit f 1 && Z.testbit f 0) eqn:E; [|done]. exfalso. apply H2. apply andb_true_iff in E as [E1 E0]. apply Z.bits_inj'. intros n Hn.
    rewrite Z.land_spec. change (Z.lor RUM_ELF_PF_W RUM_ELF_PF_X) with (Z.ones 2). destruct (decide (n < 2)).
    + assert (n = 0 ∨ n = 1) as [-> | ->] by lia; by rewrite ?E0, ?E1.
    + by rewrite (Z.ones_spec_high 2 n), andb_false_r by lia.
Qed.
Lemma executable_bit f : Z.land f RUM_ELF_PF_X =? 0 = negb (Z.testbit f 0).
Proof. change RUM_ELF_PF_X with (Z.ones 1). rewrite Z.land_ones by lia. change (2 ^ 1) with 2. rewrite <- Z.bit0_mod. by destruct (Z.testbit f 0). Qed.

(** *** The loop over the program headers *)

Record plan_ok (entry bytes : Z) (a : planning) : Prop := {
  plan_all : Forall (segment_ok bytes) (planned a);
  plan_ordered : ordered RUM_USER_BASE (planned a);
  plan_last : previous_end a = last_end RUM_USER_BASE (planned a) ∧ RUM_USER_BASE ≤ previous_end a;
  plan_pages : pages a = USER_STACK_PAGES + page_total (planned a) ∧ pages a ≤ USER_PAGE_LIMIT ∧ 0 ≤ pages a;
  plan_entered : has_entry a = true → Exists (entered entry) (planned a)
}.
Lemma placed_pages p : placement_valid p = true → 0 < p_memory_bytes p →
  let first := Z.land (p_address p) (not32 (PAGE_SIZE - 1)) in
  let last := Z.land (wrap32 (p_address p + p_memory_bytes p + PAGE_SIZE - 1)) (not32 (PAGE_SIZE - 1)) in
  first mod PAGE_SIZE = 0 ∧ first ≤ p_address p < first + PAGE_SIZE ∧ last - PAGE_SIZE < p_address p + p_memory_bytes p ≤ last ∧
  RUM_USER_BASE ≤ first ∧ last ≤ RUM_USER_PROGRAM_END ∧ 0 < last - first ∧ first + wrap32 (last - first) / PAGE_SIZE * PAGE_SIZE = last.
Proof.
  unfold placement_valid. cbv zeta. intros H Hm. repeat rewrite andb_true_iff in H. destruct H as [[[_ H1] H2] H3].
  unfold wrap32, RUM_USER_BASE, RUM_USER_PROGRAM_END in *. rewrite (Z.mod_small (p_address p + _ + _ - 1)) by (unfold PAGE_SIZE; lia).
  rewrite !page_floor by (unfold UINT32_MAX, PAGE_SIZE; lia). unfold PAGE_SIZE in *.
  set (x := p_address p) in *. set (y := p_memory_bytes p) in *.
  assert (x / 0x1000 * 0x1000 ≤ x < x / 0x1000 * 0x1000 + 0x1000) by (pose proof (Z.div_mod x 0x1000); pose proof (Z.mod_pos_bound x 0x1000); lia).
  set (z := x + y + 0x1000 - 1). assert (z / 0x1000 * 0x1000 ≤ z < z / 0x1000 * 0x1000 + 0x1000) by (pose proof (Z.div_mod z 0x1000); pose proof (Z.mod_pos_bound z 0x1000); lia).
  assert (0x80000 ≤ x / 0x1000) by (apply Z.div_le_lower_bound; lia). assert (z / 0x1000 < 0xBFC01) by (apply Z.div_lt_upper_bound; lia).
  rewrite Z.mod_mul by done. split_and!; try lia. rewrite <- Z.mul_sub_distr_r, Z.mod_small, Z.div_mul by lia. lia.
Qed.
Lemma plan_program_ok entry bytes p a a' : 0 ≤ p_offset p → 0 ≤ p_file_bytes p → 0 ≤ p_memory_bytes p →
  plan_ok entry bytes a → plan_program entry bytes p a = Some a' → plan_ok entry bytes a' ∧ (length (planned a') ≤ S (length (planned a)))%nat.
Proof.
  intros Ho Hf Hm A. unfold plan_program. destruct (p_type p =? RUM_ELF_PT_NULL); [intros [= <-]; split; [done|lia]|].
  destruct (p_type p =? RUM_ELF_PT_GNU_STACK); [destruct (_ || _ || _ || _); [done|]; intros [= <-]; destruct A; split; [by constructor|cbn; lia]|].
  destruct (_ || negb (flags_valid (p_flags p))) eqn:G; [done|]. destruct (Z.eqb_spec (p_memory_bytes p) 0); [intros [= <-]; split; [done|lia]|].
  destruct (placement_valid p) eqn:V; cbn [negb]; [|done]. cbv zeta. pose proof (placed_pages p V ltac:(lia)) as Pp. cbv zeta in Pp. revert Pp.
  generalize (Z.land (p_address p) (not32 (PAGE_SIZE - 1))), (Z.land (wrap32 (p_address p + p_memory_bytes p + PAGE_SIZE - 1)) (not32 (PAGE_SIZE - 1))).
  intros first last (P1 & P2 & P3 & P4 & P5 & P6 & P7). set (count := wrap32 (last - first) / PAGE_SIZE) in *. clearbody count.
  destruct (_ || (count >? _)) eqn:B; [done|]. intros [= <-]. repeat rewrite orb_false_iff in *. destruct B as [B1 B2]. rewrite Z.gtb_ltb in B2.
  destruct A as [A1 A2 [A3 A4] (A5 & A6 & A7) A8]. destruct G as [[[[_ G1] G2] G3] G4]. apply negb_false_iff, flags_valid_spec in G4 as [G4 G5]. rewrite !Z.gtb_ltb in G1, G2, G3.
  assert (last = seg_end (LoadSegment p first count)) as El by (unfold seg_end; cbn; lia).
  assert (USER_PAGE_LIMIT = 4096 ∧ RUM_PROCESS_USER_BYTES / PAGE_SIZE = 4096) as [L1 L2] by done.
  assert (0 < count) by (unfold PAGE_SIZE in *; lia). rewrite L2 in B2. unfold wrap32 in *. rewrite L1 in A6. rewrite Z.mod_small in B2 by lia.
  split; [|cbn; rewrite length_app; cbn; lia]. constructor; cbn -[USER_PAGE_LIMIT Z.modulo].
  - apply Forall_app. split; [done|]. apply Forall_singleton. constructor; unfold seg_end in *; cbn in *; try done; lia.
  - apply ordered_snoc. split; [done|]. cbn. lia.
  - unfold last_end. rewrite foldl_app. cbn. split; [done|lia].
  - rewrite page_total_snoc. cbn. rewrite L1, Z.mod_small by lia. lia.
  - rewrite Exists_app, Exists_cons, Exists_nil, executable_bit, negb_involutive. intros [He|He]%orb_true_iff; [left; by apply A8|right; left].
    repeat rewrite andb_true_iff in He. destruct He as [[E1 E2] E3]. split; [done|]. cbn. lia.
Qed.
Lemma plan_loop_ok n image h bytes i a a' : plan_ok (e_entry h) bytes a → plan_loop n image h bytes i a = Some a' →
  plan_ok (e_entry h) bytes a' ∧ (length (planned a') ≤ n + length (planned a))%nat.
Proof.
  revert i a. induction n as [|n IH]; intros i a A; cbn; [intros [= <-]; by split|].
  destruct (plan_program _ _ _ _) as [a1|] eqn:E; [|done]. apply plan_program_ok in E as [A1 L1]; [|apply u32_at_bound..|done].
  intros H. apply IH in H as [A2 L2]; [|done]. split; [done|lia].
Qed.

(** C25: an image is accepted only with a sound plan. Every segment is page aligned, covers
    exactly the pages its bytes touch, lies in the program window below the stack, takes
    its file bytes from inside the image, is readable and never both writable and
    executable; the segments are in ascending order without sharing a page; with the stack
    they stay within the process's page budget; and the entry point is a byte loaded from
    the file into an executable segment. *)
Theorem elf_plan_sound (image : option (Z → Z)) (bytes : Z) (plan : load_plan) : plan_image image bytes = Some plan →
  Forall (segment_ok bytes) (plan_segments plan) ∧ ordered RUM_USER_BASE (plan_segments plan) ∧
  USER_STACK_PAGES + page_total (plan_segments plan) ≤ USER_PAGE_LIMIT ∧
  Z.of_nat (length (plan_segments plan)) ≤ RUM_ELF_PROGRAM_LIMIT ∧ Exists (entered (plan_entry plan)) (plan_segments plan).
Proof.
  unfold plan_image. destruct image as [image|]; [|done]. destruct (_ || _); [done|]. cbv zeta. destruct (header_valid (header_at image) bytes) eqn:V; [|done]. cbn [negb].
  destruct (plan_loop _ _ _ _ _ _) as [a|] eqn:E; [|done]. apply plan_loop_ok in E as [[A1 A2 _ (A5 & A6 & _) A8] L].
  - destruct (has_entry a && has_stack a) eqn:G; [|done]. intros [= <-]. apply andb_true_iff in G as [G _]. cbn [plan_segments plan_entry]. split_and!; try done; [lia| |by apply A8].
    unfold header_valid in V. repeat rewrite andb_true_iff in V. cbn in L. pose proof (u16_at_bound image 44). assert (e_phnum (header_at image) = u16_at image 44) by done. lia.
  - constructor; cbn; try done.
Qed.

(** ** What an argument packet holds *)

Record string_at (a : rum_arguments) (o : Z) (w : list Z) : Prop := {
  str_text : Forall (λ c, c ≠ 0) w;
  str_bytes : ∀ (j : nat) c, w !! j = Some c → aget (strings a) (o + Z.of_nat j) = c;
  str_nul : aget (strings a) (o + len w) = 0;
  str_inside : 0 ≤ o ∧ o + len w < string_bytes a
}.
(** The strings [ws] fill the packet from byte [o] on, one after the other, and are those
    of the arguments from [i] on. *)
Fixpoint holds (a : rum_arguments) (i o : Z) (ws : list (list Z)) : Prop :=
  match ws with
  | [] => o = string_bytes a
  | w :: ws => aget (offsets a) i = o ∧ string_at a o w ∧ holds a (i + 1) (o + len w + 1) ws
  end.

Lemma string_end_spec n a c : 0 ≤ c ≤ string_bytes a → string_bytes a - c ≤ Z.of_nat n →
  let e := string_end n a c in
  c ≤ e ≤ string_bytes a ∧ (∀ j, c ≤ j < e → aget (strings a) j ≠ 0) ∧ (e = string_bytes a ∨ aget (strings a) e = 0).
Proof.
  revert c. induction n as [|n IH]; intros c Hc Hn; cbn [string_end]; [split_and!; try lia; left; lia|].
  destruct (Z.ltb_spec c (string_bytes a)); cbn [andb]; [|split_and!; try lia; left; lia].
  destruct (Z.eqb_spec (aget (strings a) c) 0) as [E|N]; cbn [negb]; [split_and!; try lia; by right|].
  destruct (IH (c + 1)) as (B & T & F); [lia|lia|]. split; [lia|]. split; [|done]. intros j Hj. destruct (decide (j = c)) as [->|]; [done|apply T; lia].
Qed.
Lemma string_end_at n a o w : string_at a o w → string_bytes a - o ≤ Z.of_nat n → string_end n a o = o + len w.
Proof.
  intros [T B Z0 [I1 I2]] Hn. destruct (string_end_spec n a o) as (R & N & F); [lia|lia|]. cbv zeta in *. generalize dependent (string_end n a o). intros e R N F.
  destruct (decide (e < o + len w)).
  - exfalso. destruct (lookup_lt_is_Some_2 w (Z.to_nat (e - o))) as [c Ec]; [lia|]. pose proof (B _ _ Ec) as Bc. rewrite Z2Nat.id in Bc by lia.
    replace (o + (e - o)) with e in Bc by lia. destruct F as [->|F]; [lia|]. rewrite F in Bc. subst c. apply (Forall_lookup_1 _ _ _ _ T Ec). done.
  - destruct (decide (e = o + len w)) as [|Ne]; [done|]. exfalso. apply (N (o + len w)); [lia|done].
Qed.
Lemma string_here a c e : 0 ≤ c ≤ e → e < string_bytes a → (∀ j, c ≤ j < e → aget (strings a) j ≠ 0) → aget (strings a) e = 0 →
  ∃ w, string_at a c w ∧ len w = e - c.
Proof.
  intros Hc He T Z0. exists ((λ j, aget (strings a) (c + j)) <$> seqZ 0 (e - c)). assert (len ((λ j, aget (strings a) (c + j)) <$> seqZ 0 (e - c)) = e - c) as L.
  { rewrite length_fmap, length_seqZ. lia. }
  split; [|done]. constructor; rewrite ?L; [| |by replace (c + (e - c)) with e by lia|lia].
  - apply Forall_fmap, Forall_forall. intros j Hj%list_elem_of_In%elem_of_seqZ. apply T. lia.
  - intros j x Hj. rewrite list_lookup_fmap in Hj. destruct (seqZ 0 (e - c) !! j) as [y|] eqn:Ey; [|done]. apply lookup_seqZ in Ey as [-> _]. by injection Hj as <-.
Qed.
Lemma offsets_valid_spec n a i c : 0 ≤ c ≤ string_bytes a → string_bytes a ≤ RUM_PROCESS_ARGUMENT_BYTES →
  offsets_valid n a i c = true ↔ ∃ ws, length ws = n ∧ holds a i c ws.
Proof.
  intros Hc Hs. revert i c Hc. induction n as [|n IH]; intros i c Hc; cbn [offsets_valid].
  - rewrite Z.eqb_eq. split; [intros ->; by exists []|]. intros ([|] & ? & ?); done.
  - destruct (string_end_spec (Z.to_nat RUM_PROCESS_ARGUMENT_BYTES) a c) as (R & T & F); [lia|unfold RUM_PROCESS_ARGUMENT_BYTES in *; lia|]. cbv zeta in *.
    assert (∀ w, string_at a c w → string_end (Z.to_nat RUM_PROCESS_ARGUMENT_BYTES) a c = c + len w) as At.
    { intros w Hw. apply string_end_at; [done|]. unfold RUM_PROCESS_ARGUMENT_BYTES in *. lia. }
    revert R T F At. generalize (string_end (Z.to_nat RUM_PROCESS_ARGUMENT_BYTES) a c). intros e R T F At.
    destruct (Z.eqb_spec (aget (offsets a) i) c) as [Eo|No]; cbn [negb]; [|split; [done|intros ([|w ws] & ? & H); [done|by destruct H]]].
    destruct (Z.eqb_spec e (string_bytes a)) as [Ee|Ne].
    + split; [done|]. intros ([|w ws] & ? & H); [done|]. destruct H as (_ & Hw & _). apply At in Hw as E. destruct (str_inside _ _ _ Hw). lia.
    + rewrite IH by lia. destruct F as [|F]; [done|]. split.
      * intros (ws & L & H). destruct (string_here a c e) as (w & Hw & Lw); [lia|lia|done|done|]. exists (w :: ws). split; [by rewrite <- L|]. cbn. split_and!; [done..|].
        by replace (c + len w + 1) with (e + 1) by lia.
      * intros ([|w ws] & L & H); [done|]. destruct H as (_ & Hw & H). exists ws. split; [by injection L|]. by rewrite (At w Hw).
Qed.
Lemma holds_lookup a i o ws (k : nat) w : holds a i o ws → ws !! k = Some w → string_at a (aget (offsets a) (i + Z.of_nat k)) w.
Proof.
  revert i o k. induction ws as [|v ws IH]; intros i o k; [done|]. intros (E & At & H) Hk. destruct k as [|k].
  - injection Hk as <-. by rewrite Z.add_0_r, E.
  - replace (i + Z.of_nat (S k)) with (i + 1 + Z.of_nat k) by lia. by eapply IH.
Qed.
Lemma arguments_valid_spec a : 0 ≤ argc a → 0 ≤ string_bytes a →
  elf_arguments_valid (Some a) = true ↔
  0 < argc a ≤ RUM_PROCESS_ARGUMENT_LIMIT ∧ 0 < string_bytes a ≤ RUM_PROCESS_ARGUMENT_BYTES ∧ ∃ ws, len ws = argc a ∧ holds a 0 0 ws.
Proof.
  intros Ha Hs. unfold elf_arguments_valid. destruct (_ || _ || _ || _) eqn:G.
  - split; [done|]. intros (A & B & _). repeat rewrite orb_true_iff in G. rewrite !Z.gtb_ltb in G. lia.
  - repeat rewrite orb_false_iff in G. rewrite !Z.gtb_ltb in G. rewrite offsets_valid_spec by lia.
    split; [intros (ws & L & H); split_and!; try lia; exists ws; split; [lia|done]|intros (_ & _ & ws & L & H); exists ws; split; [lia|done]].
Qed.
Lemma stack_layout_spec a : 0 < argc a ≤ RUM_PROCESS_ARGUMENT_LIMIT → 0 < string_bytes a ≤ RUM_PROCESS_ARGUMENT_BYTES →
  ∃ base esp, stack_layout a = Some (base, esp) ∧ base + string_bytes a = RUM_USER_STACK_TOP ∧ esp mod RUM_STACK_ALIGNMENT = 0 ∧
  RUM_USER_STACK_BASE ≤ esp ∧ esp + 4 * (argc a + RUM_ABI_STACK_FIXED_WORDS) ≤ base.
Proof.
  unfold RUM_PROCESS_ARGUMENT_LIMIT, RUM_PROCESS_ARGUMENT_BYTES. intros Ha Hs. unfold stack_layout, wrap32. cbv zeta.
  change RUM_USER_STACK_TOP with 0xC0000000. change RUM_USER_STACK_BASE with 0xBFFF0000. change RUM_ABI_STACK_FIXED_WORDS with 3.
  rewrite (Z.mod_small (argc a + 3)) by lia. rewrite (Z.mod_small ((argc a + 3) * 4)) by lia. rewrite (Z.mod_small (0xC0000000 - _)) by lia.
  rewrite (Z.mod_small (0xBFFF0000 + _)) by lia. rewrite (Z.mod_small (0xC0000000 - _ - _)) by lia.
  destruct (Z.ltb_spec (0xC0000000 - string_bytes a) (0xBFFF0000 + (argc a + 3) * 4)); [lia|]. rewrite align_down by (unfold UINT32_MAX; lia).
  set (x := 0xC0000000 - string_bytes a - (argc a + 3) * 4). pose proof (Z.div_mod x 16 ltac:(lia)). pose proof (Z.mod_pos_bound x 16 ltac:(lia)).
  destruct (Z.ltb_spec (x / 16 * 16) 0xBFFF0000); [lia|]. eexists _, _. split; [done|]. split; [lia|]. split; [by apply Z.mod_mul|lia].
Qed.

(** C26: a packet is accepted exactly when it holds between 1 and 32 strings packed one
    after the other in at most 4096 bytes, each offset being the start of its string; and
    for every accepted packet the first stack always fits: the strings end at the top of
    the stack, the words lie below them on a 16-byte boundary inside the stack and are
    [argc], a pointer to each of the strings, and the two terminators. *)
Theorem elf_stack_abi (a : rum_arguments) : 0 ≤ argc a → 0 ≤ string_bytes a →
  (elf_arguments_valid (Some a) = true ↔
   0 < argc a ≤ RUM_PROCESS_ARGUMENT_LIMIT ∧ 0 < string_bytes a ≤ RUM_PROCESS_ARGUMENT_BYTES ∧ ∃ ws, len ws = argc a ∧ holds a 0 0 ws) ∧
  (∀ ws, elf_arguments_valid (Some a) = true → len ws = argc a → holds a 0 0 ws →
   ∃ base esp, stack_layout a = Some (base, esp) ∧ base + string_bytes a = RUM_USER_STACK_TOP ∧ esp mod RUM_STACK_ALIGNMENT = 0 ∧
   RUM_USER_STACK_BASE ≤ esp ∧ esp + 4 * len (stack_words a base) ≤ base ∧
   ∃ pointers, stack_words a base = argc a :: pointers ++ [0; 0] ∧ length pointers = length ws ∧
   ∀ k p w, pointers !! k = Some p → ws !! k = Some w → base ≤ p ∧ p + len w < RUM_USER_STACK_TOP ∧ string_at a (p - base) w).
Proof.
  intros Ha Hs. split; [by apply arguments_valid_spec|]. intros ws V L H. apply arguments_valid_spec in V as (A & B & _); [|done..].
  destruct (stack_layout_spec a A B) as (base & esp & E & T & M & Lo & Hi). exists base, esp. split_and!; try done.
  - unfold stack_words. rewrite length_cons, length_app, length_fmap, length_seqZ. change RUM_ABI_STACK_FIXED_WORDS with 3 in Hi. cbn [length]. lia.
  - eexists. split; [reflexivity|]. split; [rewrite length_fmap, length_seqZ; lia|]. intros k p w Hp Hw. rewrite list_lookup_fmap in Hp.
    destruct (seqZ 0 (argc a) !! k) as [i|] eqn:Ei; [|done]. apply lookup_seqZ in Ei as [-> Hk]. injection Hp as <-.
    pose proof (holds_lookup _ _ _ _ _ _ H Hw) as S. rewrite !Z.add_0_l in *. destruct (str_inside _ _ _ S) as [I1 I2].
    assert (RUM_USER_STACK_TOP = 0xC0000000) as ET by done. unfold wrap32. unfold RUM_PROCESS_ARGUMENT_BYTES in B. rewrite Z.mod_small by lia.
    replace (base + aget (offsets a) (Z.of_nat k) - base) with (aget (offsets a) (Z.of_nat k)) by lia. split; [lia|]. split; [lia|done].
Qed.

(** ** What loading does to the registered address spaces *)

(** The kernel heap as the loader uses it: it never touches the registry of spaces, and a
    block it hands out is not one of the registered spaces, which are live blocks. *)
Class HeapLaw (kernel : Z) (kmalloc : Z → paging → Z * paging) (kfree : Z → paging → bool * paging) : Prop := {
  heap_allocates n s : spaces (snd (kmalloc n s)) = spaces s;
  heap_fresh n s : fst (kmalloc n s) ≠ 0 → known_space kernel (fst (kmalloc n s)) s = false;
  heap_frees a s : spaces (snd (kfree a s)) = spaces s
}.

Section Loading.
Context (kernel : Z) (kmalloc : Z → paging → Z * paging) (kfree : Z → paging → bool * paging) `{!HeapLaw kernel kmalloc kfree}.
Implicit Types (s t : paging) (a b : Z).
Notation same_directories := (same_directories kernel).

(** The space [a] may have come; nothing else changed. *)
Record adds a s t : Prop := {
  adds_enabled : enabled t = enabled s;
  adds_active : active_space t = active_space s;
  adds_fresh : known_space kernel a s = false;
  adds_known b : b ≠ a → known_space kernel b t = known_space kernel b s;
  adds_directory b : b ≠ a → directory_physical (get_space kernel b t) = directory_physical (get_space kernel b s);
  adds_new : known_space kernel a t = true → directory_acceptable (directory_physical (get_space kernel a t)) = true
}.
Lemma adds_then a s t u : adds a s t → same_directories t u → adds a s u.
Proof.
  intros [] []. constructor; try congruence.
  - intros b N. rewrite same_known. auto.
  - intros b N. rewrite same_directory. auto.
  - rewrite same_known, same_directory. auto.
Qed.
Lemma page_aligned (f : pmm) : fst (pmm_allocate_page f) mod PAGE_SIZE = 0.
Proof.
  unfold pmm_allocate_page. destruct (_ && _); [|done]. cbv zeta. generalize (limit f / PAGE_SIZE). intros p. generalize (Z.to_nat p). intros n. revert f.
  induction n as [|n IH]; intros f; cbn [allocate_scan]; [done|]. cbv zeta. destruct (page_free _ _); [by apply Z.mod_mul|]. apply IH.
Qed.
Lemma create_adds s a t : paging_space_create kernel kmalloc kfree s = (a, t) → if decide (a = 0) then spaces t = spaces s else adds a s t.
Proof.
  unfold paging_space_create. destruct (enabled s && _) eqn:G; [|by intros [= <- <-]]. apply andb_true_iff in G as [En _].
  pose proof (heap_allocates sizeof_paging_space s) as E1. pose proof (heap_fresh sizeof_paging_space s) as Fr.
  destruct (kmalloc sizeof_paging_space s) as [x s1]. cbn [fst snd] in E1, Fr. destruct (Z.eqb_spec x 0) as [->|Nx]; [intros [= <- <-]; by rewrite decide_True|].
  specialize (Fr Nx). pose proof (spaces_take_frame s1) as E2. pose proof (page_aligned (frames s1)) as Al. unfold take_frame in *. destruct (pmm_allocate_page (frames s1)) as [p f]. cbn [fst snd] in *.
  destruct (Z.eqb_spec p 0) as [->|Np].
  { intros [= <- <-]. rewrite decide_True by done. by rewrite heap_frees, E2. }
  match goal with |- context [for_range 0 KERNEL_ENTRIES ?g ?u] => assert (spaces (for_range 0 KERNEL_ENTRIES g u) = spaces s) as E3; [|revert E3; generalize (for_range 0 KERNEL_ENTRIES g u)] end.
  { apply (for_range_pres (λ v, spaces v = spaces s)); [by autorewrite with spaces; rewrite E2|]. intros i v _ Hv. by rewrite spaces_put_word. }
  intros v Ev [= <- <-]. rewrite decide_False by done. assert (x ≠ kernel) as Nk by (intros ->; unfold known_space in Fr; by rewrite En, Z.eqb_refl in Fr).
  unfold spaces in Ev. injection Ev as K C A En'. constructor; try done; cbn.
  - intros b N. unfold known_space. cbn. rewrite C, En'. rewrite (proj2 (Z.eqb_neq x b)) by congruence. done.
  - intros b N. unfold get_space. cbn. rewrite K, C. unfold find_space. cbn. by rewrite (proj2 (Z.eqb_neq x b)) by congruence.
  - intros _. unfold get_space. cbn. rewrite (proj2 (Z.eqb_neq x kernel)) by done. unfold find_space. cbn. rewrite Z.eqb_refl. cbn.
    unfold directory_acceptable. apply andb_true_iff. split; [by apply negb_true_iff, Z.eqb_neq|]. by apply Z.eqb_eq.
Qed.
Lemma destroy_adds a s t u (x : bool) : adds a s t → paging_space_destroy kernel kfree a t = (x, u) → adds a s u.
Proof.
  intros A. destruct x; [|intros E; by apply space_destroy_fail in E as ->]. intros E.
  apply (space_destroy_spec kernel kfree heap_frees) in E as (Nk & K & Ac & En & C). destruct A. constructor; try congruence.
  - intros b N. rewrite <- adds_known0 by done. unfold known_space. rewrite C, En. by destruct (chain_filter_other a b (chain t) ltac:(congruence)) as [_ ->].
  - intros b N. rewrite <- adds_directory0 by done. unfold get_space. rewrite K, C. by destruct (chain_filter_other a b (chain t) ltac:(congruence)) as [-> _].
  - intros H. exfalso. unfold known_space in H. rewrite C in H. rewrite (proj2 (Z.eqb_neq kernel a)) in H by congruence. apply andb_true_iff in H as [_ H]. cbn in H.
    apply existsb_exists in H as (q & Hq%List.filter_In & Eq). destruct Hq as [_ Hq]. by rewrite Eq in Hq.
Qed.

(** Every step of loading keeps the directories. *)
Definition keeps (m : attempt paging) : Prop := ∀ s, same_directories s (snd (m s)).
Lemma keeps_and m1 m2 : keeps m1 → keeps m2 → keeps (m1 &&> m2).
Proof.
  intros H1 H2 s. unfold and_then. specialize (H1 s). destruct (m1 s) as [ok t]. cbn [snd] in H1. destruct ok; [|done]. etransitivity; [exact H1|apply H2].
Qed.
Lemma keeps_spaces m : (∀ s, spaces (snd (m s)) = spaces s) → keeps m.
Proof. intros H s. by apply same_spaces. Qed.
Lemma load_keeps space image l : keeps (load_segments kernel space image l).
Proof.
  induction l as [|g l IH]; [by intros s|]. apply keeps_and; [|exact IH]. apply keeps_and; [intros s; apply user_allocate_directories|].
  apply keeps_and; [apply keeps_spaces; intros s; apply spaces_copy_to_user|]. intros s. unfold when. case_match; [|done]. apply same_spaces, spaces_user_protect.
Qed.
Lemma build_stack_keeps space (a : rum_arguments) s : same_directories s (snd (build_stack kernel space a s)).
Proof.
  unfold build_stack. destruct (stack_layout a) as [[base esp]|]; [|done]. cbv zeta.
  match goal with |- context [paging_copy_to_user kernel space base ?x ?n s] => pose proof (spaces_copy_to_user kernel space base x n s) as E1; destruct (paging_copy_to_user kernel space base x n s) as [ok s1] end.
  cbn [snd] in E1. destruct ok; cbn [negb]; [|by apply same_spaces].
  match goal with |- context [paging_copy_to_user kernel space esp ?x ?n s1] => pose proof (spaces_copy_to_user kernel space esp x n s1) as E2; destruct (paging_copy_to_user kernel space esp x n s1) as [ok s2] end.
  cbn [snd] in E2. apply same_spaces. destruct ok; cbn; congruence.
Qed.
Lemma elf_load_adds image bytes arguments s r t : elf_load_process kernel kmalloc kfree image bytes arguments s = (r, t) →
  same_directories s t ∧ r = None ∨ ∃ a, adds a s t ∧ ∀ q, r = Some q → tp_space q = Some a.
Proof.
  unfold elf_load_process. destruct (negb _); [intros [= <- <-]; by left|]. destruct (plan_image image bytes) as [plan|]; [|intros [= <- <-]; by left].
  destruct image as [image|]; [|intros [= <- <-]; by left]. destruct arguments as [arguments|]; [|intros [= <- <-]; by left].
  destruct (paging_space_create _ _ _ s) as [a s1] eqn:E1. apply create_adds in E1. destruct (Z.eqb_spec a 0) as [->|N].
  { intros [= <- <-]. left. split; [by apply same_spaces|done]. }
  rewrite decide_False in E1 by done. match goal with |- context [(load_segments ?k ?x ?y ?l &&> ?m2) s1] => assert (same_directories s1 (snd ((load_segments k x y l &&> m2) s1))) as H;
    [apply keeps_and; [apply load_keeps|intros u; apply user_allocate_directories]|destruct ((load_segments k x y l &&> m2) s1) as [ok s2]] end.
  cbn [snd] in H. apply (adds_then a s s1) in H; [|done]. cbv beta iota.
  match goal with |- context [if ok then ?x else ?y] => assert (same_directories s2 (snd (if ok then x else y))) as Hb;
    [destruct ok; [apply build_stack_keeps|done]|destruct (if ok then x else y) as [[stack|] s3]] end;
    cbn [snd] in Hb; apply (adds_then a s s2) in Hb; try done.
  - intros [= <- <-]. right. exists a. split; [done|]. by intros q [= <-].
  - destruct (paging_space_destroy _ _ _ s3) as [x s4] eqn:E4. intros [= <- <-]. right. exists a. split; [by eapply destroy_adds|done].
Qed.
End Loading.

(** ** Concrete inputs *)

(** An executable of one code segment of four bytes and a stack header. *)
Definition tiny_bytes : list Z :=
  [0x7f; 69; 76; 70; 1; 1; 1; 0; 0; 0; 0; 0; 0; 0; 0; 0; 2; 0; 3; 0; 1; 0; 0; 0; 0x74; 0; 0; 0x80; 52; 0; 0; 0; 0; 0; 0; 0; 0; 0; 0; 0; 52; 0; 32; 0; 2; 0; 0; 0; 0; 0; 0; 0;
   1; 0; 0; 0; 0x74; 0; 0; 0; 0x74; 0; 0; 0x80; 0; 0; 0; 0; 4; 0; 0; 0; 8; 0; 0; 0; 5; 0; 0; 0; 0; 0x10; 0; 0;
   0x51; 0xE5; 0x74; 0x64; 0; 0; 0; 0; 0; 0; 0; 0; 0; 0; 0; 0; 0; 0; 0; 0; 0; 0; 0; 0; 6; 0; 0; 0; 16; 0; 0; 0; 0x90; 0x90; 0xCD; 0x80].
Definition tiny_image (i : Z) : Z := nth (Z.to_nat i) tiny_bytes 0.
Definition tiny_plan : load_plan := LoadPlan 0x80000074 [LoadSegment (ElfProgram 1 0x74 0x80000074 0 4 8 5 0x1000) 0x80000000 1].
Lemma elf_plan_sound_witness : plan_image (Some tiny_image) 120 = Some tiny_plan ∧ Forall (segment_ok 120) (plan_segments tiny_plan).
Proof. split; [by vm_compute|]. apply (elf_plan_sound (Some tiny_image) 120 tiny_plan). by vm_compute. Defined.

(** The packet of ["a"; ""]. *)
Definition tiny_arguments : rum_arguments := Arguments_ 2 3 {[1 := 2]} {[0 := 97]}.
Lemma elf_stack_abi_witness : elf_arguments_valid (Some tiny_arguments) = true ∧ ∃ ws, len ws = 2 ∧ holds tiny_arguments 0 0 ws.
Proof.
  split; [by vm_compute|]. apply (elf_stack_abi tiny_arguments ltac:(done) ltac:(done)). by vm_compute.
Defined.
