(* ===== verification/ElfCheck.v ===== *)
(** * Image checker (sdk/tools/check-user-elf.c)

    The host tool of the build that validates user executables before they go on the disk.
    It repeats the loader's rules in its own code; the theorem is that the two agree. A
    file is the bytes that reading it gives. *)

From stdpp Require Import strings.
From S2P Require Import Prelude Pmm Paging Spaces Elf.

(** The messages, by name. *)
Inductive reason :=
  CannotOpen | BadFile | NotStatic | BadStack | Unsupported | BadSegment | BadAlignment | OutsideWindow | Unordered | OverBudget | MissingEntry | Stripped.
Definition message (r : reason) : string :=
  match r with
  | CannotOpen => "cannot open ELF"
  | BadFile => "invalid file size, read failure or 64 KiB asset limit"
  | NotStatic => "expected static System V little-endian i386 ELF32 ET_EXEC"
  | BadStack => "expected one nonexecutable empty stack descriptor"
  | Unsupported => "unsupported interpreter, dynamic, TLS or program header"
  | BadSegment => "invalid segment size, bounds or permissions"
  | BadAlignment => "invalid segment alignment"
  | OutsideWindow => "segment outside user program window"
  | Unordered => "unordered or page-overlapping segments"
  | OverBudget => "mapped image plus user stack exceeds process budget"
  | MissingEntry => "missing file-backed executable entry or stack descriptor"
  | Stripped => "stripping changed the load image"
  end.

Definition HOST_FILE_LIMIT : Z := 64 * 1024 * 1024.

Record image := Image { data : Z → Z; bytes : Z; header : rum_elf_header; programs : list rum_elf_program }.
(** The variables of the loop over the program headers. *)
Record scan := Scan { entry : bool; stack : bool; scan_end : Z; scan_pages : Z }.

Definition check_header (h : rum_elf_header) (size : Z) : bool :=
  bool_decide (take 9 (e_ident h) = ident) && (e_type h =? RUM_ELF_EXEC) && (e_machine h =? RUM_ELF_I386) && (e_version h =? RUM_ELF_VERSION) &&
  (e_flags h =? 0) && (e_ehsize h =? SIZEOF_ELF_HEADER) && (e_phentsize h =? SIZEOF_ELF_PROGRAM) && negb (e_phnum h =? 0) &&
  negb (e_phnum h >? RUM_ELF_PROGRAM_LIMIT) && negb (e_phoff h <? SIZEOF_ELF_HEADER) && negb (e_phoff h >? size) &&
  negb (e_phnum h * e_phentsize h >? size - e_phoff h).
Definition check_program (h : rum_elf_header) (size : Z) (p : rum_elf_program) (a : scan) : reason + scan :=
  if p_type p =? RUM_ELF_PT_NULL then inr a else
  if p_type p =? RUM_ELF_PT_GNU_STACK then
    if stack a || negb (p_flags p =? Z.lor RUM_ELF_PF_R RUM_ELF_PF_W) || negb (p_file_bytes p =? 0) || negb (p_memory_bytes p =? 0) then inl BadStack
    else inr (Scan (entry a) true (scan_end a) (scan_pages a))
  else if negb (p_type p =? RUM_ELF_PT_LOAD) then inl Unsupported else
  if (p_file_bytes p >? p_memory_bytes p) || (p_offset p >? size) || (p_file_bytes p >? size - p_offset p) ||
     (Z.land (p_flags p) RUM_ELF_PF_R =? 0) || negb (Z.land (p_flags p) (not32 7) =? 0) ||
     (Z.land (p_flags p) (Z.lor RUM_ELF_PF_W RUM_ELF_PF_X) =? Z.lor RUM_ELF_PF_W RUM_ELF_PF_X) then inl BadSegment else
  if p_memory_bytes p =? 0 then inr a else
  let align := p_alignment p in
  if (align >? 1) && (negb (Z.land align (align - 1) =? 0) || negb (p_address p mod align =? p_offset p mod align)) ||
     negb (p_address p mod PAGE_SIZE =? p_offset p mod PAGE_SIZE) then inl BadAlignment else
  if (p_address p <? RUM_USER_BASE) || (p_address p >=? RUM_USER_PROGRAM_END) || (p_memory_bytes p >? RUM_USER_PROGRAM_END - p_address p)
  then inl OutsideWindow else
  let first := Z.land (p_address p) (not32 (PAGE_SIZE - 1)) in
  let last := Z.land (wrap32 (p_address p + p_memory_bytes p + PAGE_SIZE - 1)) (not32 (PAGE_SIZE - 1)) in
  if first <? scan_end a then inl Unordered else
  let count := wrap32 (last - first) / PAGE_SIZE in
  if count >? wrap32 (RUM_PROCESS_USER_BYTES / PAGE_SIZE - scan_pages a) then inl OverBudget else
  let found := negb (Z.land (p_flags p) RUM_ELF_PF_X =? 0) && (e_entry h >=? p_address p) && (e_entry h - p_address p <? p_file_bytes p) in
  inr (Scan (if found then true else entry a) (stack a) last (wrap32 (scan_pages a + count))).
Fixpoint check_programs (h : rum_elf_header) (size : Z) (l : list rum_elf_program) (a : scan) : reason + scan :=
  match l with
  | [] => inr a
  | p :: l => match check_program h size p a with inl r => inl r | inr a => check_programs h size l a end
  end.

(** [file] is [None] when it cannot be opened; [memory] is whether [malloc] succeeds. *)
Definition read_image (file : option (list Z)) (memory asset : bool) : reason + image :=
  match file with
  | None => inl CannotOpen
  | Some file =>
      let length := len file in
      if negb ((length >=? SIZEOF_ELF_HEADER) && (length <=? HOST_FILE_LIMIT) && (negb asset || (length <=? RUM_ELF_IMAGE_LIMIT)) && memory) then inl BadFile else
      let data := λ i, nth (Z.to_nat i) file 0 in
      let h := header_at data in
      if negb (check_header h length) then inl NotStatic else
      let programs := (λ i, program_at data (e_phoff h + i * SIZEOF_ELF_PROGRAM)) <$> seqZ 0 (e_phnum h) in
      match check_programs h length programs (Scan false false RUM_USER_BASE USER_STACK_PAGES) with
      | inl r => inl r
      | inr a => if negb (entry a) || negb (stack a) then inl MissingEntry else inr (Image data length h programs)
      end
  end.

Definition unloaded (p : rum_elf_program) : bool := negb (p_type p =? RUM_ELF_PT_LOAD) || (p_memory_bytes p =? 0).
Fixpoint skip_unloaded (l : list rum_elf_program) : list rum_elf_program :=
  match l with [] => [] | p :: rest => if unloaded p then skip_unloaded rest else l end.
(** [memcmp] of the file bytes of two segments. *)
Definition same_bytes (a b : image) (p q : rum_elf_program) : bool :=
  all_range 0 (p_file_bytes p) (λ i, wrap8 (data a (p_offset p + i)) =? wrap8 (data b (p_offset q + i))).
(** The loop over both images; every turn passes a header of each. *)
Fixpoint same_loop (n : nat) (a b : image) (l r : list rum_elf_program) : bool :=
  match n with
  | O => false
  | S n =>
      match skip_unloaded l, skip_unloaded r with
      | [], [] => true
      | p :: l, q :: r =>
          if negb (p_address p =? p_address q) || negb (p_file_bytes p =? p_file_bytes q) || negb (p_memory_bytes p =? p_memory_bytes q) ||
             negb (p_flags p =? p_flags q) || negb (p_alignment p =? p_alignment q) then false else
          if negb (same_bytes a b p q) then false else same_loop n a b l r
      | _, _ => false
      end
  end.
Definition same_load_image (asset debug : image) : bool :=
  (e_entry (header asset) =? e_entry (header debug)) && same_loop (S (length (programs asset))) asset debug (programs asset) (programs debug).

(** The verdict of the tool on an asset and, when given, the file it was stripped from. *)
Definition check_user_elf (asset : option (list Z)) (debug : option (option (list Z))) (memory : bool) : option reason :=
  match read_image asset memory true with
  | inl r => Some r
  | inr a =>
      match debug with
      | None => None
      | Some debug => match read_image debug memory false with inl r => Some r | inr d => if same_load_image a d then None else Some Stripped end
      end
  end.

(** ** Agreement with the loader *)

Definition forget (a : planning) : scan := Scan (has_entry a) (has_stack a) (previous_end a) (pages a).
Lemma check_program_agrees h size p a :
  match plan_program (e_entry h) size p a, check_program h size p (forget a) with
  | Some b, inr c => c = forget b ∧ (program <$> planned b) = (program <$> planned a) ++ (if unloaded p then [] else [p])
  | None, inl _ => True
  | _, _ => False
  end.
Proof.
  unfold plan_program, check_program, forget, unloaded. cbn [entry stack scan_end scan_pages].
  destruct (Z.eqb_spec (p_type p) RUM_ELF_PT_NULL) as [->|]; [by rewrite app_nil_r|].
  destruct (Z.eqb_spec (p_type p) RUM_ELF_PT_GNU_STACK) as [->|]; [destruct (_ || _ || _ || _); [done|cbn; by rewrite app_nil_r]|].
  destruct (p_type p =? RUM_ELF_PT_LOAD); [|done]. cbn [negb orb]. unfold flags_valid.
  destruct (p_file_bytes p >? p_memory_bytes p); [done|]. destruct (p_offset p >? size); [done|]. destruct (p_file_bytes p >? size - p_offset p); [done|]. cbn [orb].
  destruct (Z.land (p_flags p) RUM_ELF_PF_R =? 0); [done|]. destruct (Z.land (p_flags p) (not32 7) =? 0); [|done].
  destruct (Z.land (p_flags p) (Z.lor RUM_ELF_PF_W RUM_ELF_PF_X) =? Z.lor RUM_ELF_PF_W RUM_ELF_PF_X); [done|]. cbn [negb orb andb].
  destruct (p_memory_bytes p =? 0); [by rewrite app_nil_r|]. unfold placement_valid. cbv zeta.
  destruct ((p_alignment p >? 1) && _); [done|]. cbn [orb negb andb]. destruct (p_address p mod PAGE_SIZE =? p_offset p mod PAGE_SIZE); [|done]. cbn [negb andb].
  rewrite (Z.geb_leb (p_address p)), (Z.gtb_ltb (p_memory_bytes p)), (Z.ltb_antisym RUM_USER_BASE), (Z.leb_antisym (p_address p) RUM_USER_PROGRAM_END), (Z.ltb_antisym (p_memory_bytes p)).
  destruct (RUM_USER_BASE <=? p_address p); [|done]. destruct (p_address p <? RUM_USER_PROGRAM_END); [|done]. destruct (p_memory_bytes p <=? RUM_USER_PROGRAM_END - p_address p); [|done]. cbn [negb orb andb].
  destruct (Z.land (p_address p) (not32 (PAGE_SIZE - 1)) <? previous_end a); [done|]. cbn [orb]. destruct (_ >? wrap32 _); [done|]. cbn [has_entry has_stack previous_end pages planned].
  split; [|by rewrite fmap_app]. f_equal. rewrite Z.geb_leb. destruct (has_entry a); [by case_match|]. by case_match.
Qed.
Lemma check_programs_agrees image h size : ∀ n i a,
  match plan_loop n image h size i a, check_programs h size ((λ i, program_at image (e_phoff h + i * SIZEOF_ELF_PROGRAM)) <$> seqZ i (Z.of_nat n)) (forget a) with
  | Some b, inr c => c = forget b ∧ (program <$> planned b) = (program <$> planned a) ++
      filter (λ p, unloaded p = false) ((λ i, program_at image (e_phoff h + i * SIZEOF_ELF_PROGRAM)) <$> seqZ i (Z.of_nat n))
  | None, inl _ => True
  | _, _ => False
  end.
Proof.
  induction n as [|n IH]; intros i a; [cbn; by rewrite app_nil_r|].
  rewrite seqZ_cons by lia. replace (Z.succ i) with (i + 1) by lia. replace (Z.pred (Z.of_nat (S n))) with (Z.of_nat n) by lia. cbn [fmap list_fmap plan_loop check_programs].
  set (p := program_at image (e_phoff h + i * SIZEOF_ELF_PROGRAM)). pose proof (check_program_agrees h size p a) as A.
  destruct (plan_program (e_entry h) size p a) as [b|], (check_program h size p (forget a)) as [r|c]; try done. destruct A as [-> E].
  specialize (IH (i + 1) b). destruct (plan_loop n image h size (i + 1) b), (check_programs _ _ _ (forget b)); try done. destruct IH as [-> IH]. split; [done|].
  rewrite IH, E, <- app_assoc. f_equal. rewrite filter_cons. by destruct (unloaded p).
Qed.
Lemma check_header_agrees h size : check_header h size = header_valid h size.
Proof.
  unfold check_header, header_valid. rewrite !Z.gtb_ltb. repeat rewrite <- Z.leb_antisym.
  destruct (Z.eqb_spec (e_phentsize h) SIZEOF_ELF_PROGRAM) as [->|]; [done|]. by rewrite !andb_false_r.
Qed.

(** The segments an image asks for, and what one puts where. *)
Definition loaded (i : image) : list rum_elf_program := filter (λ p, unloaded p = false) (programs i).
Definition contents (f : Z → Z) (p : rum_elf_program) : Z * Z * Z * list Z :=
  (p_address p, p_memory_bytes p, p_flags p, (λ i, wrap8 (f (p_offset p + i))) <$> seqZ 0 (p_file_bytes p)).

Definition at_file (file : list Z) (i : Z) : Z := nth (Z.to_nat i) file 0.
(** The tool accepts an asset exactly when the loader plans it, with the same segments. *)
Lemma read_image_agrees file :
  match read_image (Some file) true true, plan_image (Some (at_file file)) (len file) with
  | inr i, Some plan => data i = at_file file ∧ plan_entry plan = e_entry (header i) ∧ (program <$> plan_segments plan) = loaded i
  | inl _, None => True
  | _, _ => False
  end.
Proof.
  unfold read_image, plan_image. cbn [negb orb]. fold (at_file file). change (λ i, nth (Z.to_nat i) file 0) with (at_file file). rewrite andb_true_r.
  rewrite Z.geb_leb, Z.gtb_ltb, Z.ltb_antisym, (Z.ltb_antisym (len file) RUM_ELF_IMAGE_LIMIT).
  destruct (SIZEOF_ELF_HEADER <=? len file); [|done]. cbn [andb negb orb]. destruct (Z.leb_spec (len file) RUM_ELF_IMAGE_LIMIT) as [L|L]; [|by rewrite andb_false_r].
  rewrite (proj2 (Z.leb_le (len file) HOST_FILE_LIMIT)) by (unfold RUM_ELF_IMAGE_LIMIT, HOST_FILE_LIMIT in *; lia). cbn [andb negb orb]. cbv zeta. rewrite check_header_agrees.
  destruct (header_valid (header_at (at_file file)) (len file)); [|done]. cbn [negb]. set (h := header_at (at_file file)).
  assert (0 ≤ e_phnum h) as Hn by apply u16_at_bound.
  pose proof (check_programs_agrees (at_file file) h (len file) (Z.to_nat (e_phnum h)) 0 (Planning [] false false RUM_USER_BASE USER_STACK_PAGES)) as A. rewrite Z2Nat.id in A by done.
  destruct (plan_loop _ _ _ _ _ _) as [b|], (check_programs _ _ _ _) as [r|c]; try done. destruct A as [-> A]. cbn [forget entry stack].
  destruct (has_entry b), (has_stack b); done.
Qed.

Lemma skip_unloaded_filter l : filter (λ p, unloaded p = false) l = filter (λ p, unloaded p = false) (skip_unloaded l).
Proof. induction l as [|p l IH]; [done|]. cbn [skip_unloaded]. destruct (unloaded p) eqn:E; [|done]. by rewrite filter_cons_False by (by rewrite E). Qed.
Lemma skip_unloaded_cons l p r : skip_unloaded l = p :: r → unloaded p = false.
Proof. induction l as [|q l IH]; [done|]. cbn. destruct (unloaded q) eqn:E; [done|]. by intros [= <- <-]. Qed.
Lemma same_bytes_contents a b p q : p_address p = p_address q → p_file_bytes p = p_file_bytes q → p_memory_bytes p = p_memory_bytes q → p_flags p = p_flags q →
  same_bytes a b p q = true → contents (data a) p = contents (data b) q.
Proof.
  intros E1 E2 E3 E4. unfold same_bytes, contents. rewrite all_range_true, E1, E2, E3, E4. intros H. f_equal. apply list_fmap_ext. intros j i Hj. apply lookup_seqZ in Hj as [-> Hj].
  specialize (H (0 + Z.of_nat j) ltac:(lia)). lia.
Qed.
Lemma same_loop_contents a b : ∀ n l r, same_loop n a b l r = true →
  (contents (data a) <$> filter (λ p, unloaded p = false) l) = (contents (data b) <$> filter (λ p, unloaded p = false) r).
Proof.
  induction n as [|n IH]; intros l r; [done|]. cbn [same_loop]. rewrite (skip_unloaded_filter l), (skip_unloaded_filter r).
  destruct (skip_unloaded l) as [|p l'] eqn:El, (skip_unloaded r) as [|q r'] eqn:Er; try done.
  destruct (_ || _ || _ || _ || _) eqn:E; [done|]. destruct (same_bytes a b p q) eqn:B; [|done]. cbn [negb]. intros H%IH.
  apply skip_unloaded_cons in El, Er. rewrite !filter_cons_True by done. cbn [fmap list_fmap]. f_equal; [|exact H]. apply same_bytes_contents; try done; lia.
Qed.

(** C33: the build's checker and the kernel's loader agree. A file passes as an asset
    exactly when the loader accepts it as an image. When it also passes against the file it
    was stripped from, the loader starts it at that file's entry, and the segments it maps
    have the addresses, sizes, permissions and bytes of that file's segments, in order. *)
Theorem checker_agrees_with_loader (file debug : list Z) :
  ((∃ i, read_image (Some file) true true = inr i) ↔ ∃ plan, plan_image (Some (at_file file)) (len file) = Some plan) ∧
  (check_user_elf (Some file) (Some (Some debug)) true = None → ∃ plan d,
    plan_image (Some (at_file file)) (len file) = Some plan ∧ read_image (Some debug) true false = inr d ∧ plan_entry plan = e_entry (header d) ∧
    (contents (at_file file) <$> (program <$> plan_segments plan)) = (contents (data d) <$> loaded d)).
Proof.
  pose proof (read_image_agrees file) as A. unfold check_user_elf. destruct (read_image (Some file) true true) as [r|i], (plan_image _ _) as [plan|]; try done.
  - split; [|done]. split; intros [? [=]].
  - destruct A as (D & E & P). split; [split; intros _; eauto|]. destruct (read_image (Some debug) true false) as [r|d]; [done|].
    destruct (same_load_image i d) eqn:S; [|done]. intros _. exists plan, d. split; [done|]. split; [done|]. unfold same_load_image in S. apply andb_prop in S as [S1 S2].
    split; [lia|]. rewrite P, <- D. by apply (same_loop_contents _ _ _ _ _ S2).
Qed.
(** The loader's tiny image passes, against itself too. *)
Example checker_accepts_tiny : check_user_elf (Some (tiny_image <$> seqZ 0 120)) (Some (Some (tiny_image <$> seqZ 0 120))) true = None.
Proof. by vm_compute. Qed.
