(* ===== verification/Steps.v ===== *)
(** * The system seen from above the registry

    The code above task.c changes the machine through the registry's operations, the
    filesystem, the user half of address spaces and the heap. Here such a change is a
    sequence of the steps of Registry.v; [aside] is a sequence that leaves every slot,
    every id and every task's address space as they were. *)

From S2P Require Import Prelude Block Path Fs Pmm Paging Spaces Session Handles Gdt Keyboard Task Registry Scheduler Elf.

Section Steps.
Context {K : Type} (kernel : Z) (switch_esp : kstate K → Z) (ops : fs_operations K) (start_address halt_address : Z).
Context (kmalloc : Z → paging → Z * paging) (kfree : Z → paging → bool * paging) `{!HeapLaw kernel kmalloc kfree}.
Implicit Types (s t u : kstate K).
Notation kstep := (kstep kernel switch_esp ops start_address halt_address kfree).
Notation registry := (registry kernel true).
Notation outside := (outside kernel).

Lemma heap_law_spaces : heap_keeps_spaces kfree.
Proof. intros a m. apply heap_frees. Qed.
Lemma steps_keep s t : registry s → rtc kstep s t → registry t.
Proof. intros R St. eapply steps_registry; [exact heap_law_spaces|exact R|exact St]. Qed.

Record aside s t : Prop := {
  aside_steps : rtc kstep s t;
  aside_tasks : ∀ i, used t i = used s i ∧ tid (get_task t i) = tid (get_task s i) ∧ space (get_process t i) = space (get_process s i);
  aside_next : next_id t = next_id s;
  aside_current : current t = current s
}.
#[global] Instance aside_preorder : PreOrder aside.
Proof.
  split; [intros s; by constructor|]. intros s t u [A B C D] [A' B' C' D']. constructor; [by etransitivity| |congruence|congruence].
  intros i. destruct (B' i) as (-> & -> & ->). apply B.
Qed.
Lemma outside_aside s t : outside s t → aside s t.
Proof.
  intros O. constructor; [by apply rtc_once, k_elsewhere| |apply O|apply O]. intros i. destruct (core_of_used _ _ (out_core _ _ _ O i)) as (E & T & _). unfold used. rewrite E, T.
  split_and!; [done..|]. by apply (out_process _ _ _ O).
Qed.
Lemma minor_aside s t : minor s t → aside s t.
Proof. intros M. by apply outside_aside, minor_outside. Qed.
Lemma aside_interrupts w s : registry s → aside s (interrupts w s).
Proof.
  intros R. pose proof (calm_interrupts kernel true s s w (calm_refl _ _ _ R)) as C. constructor; [by eapply rtc_once, k_interrupts| |apply (calm_next _ _ _ _ C)|apply (calm_current _ _ _ _ C)].
  intros i. split; [by eapply calm_used|]. split; [apply (calm_tid _ _ _ _ C)|]. by apply (calm_process _ _ _ _ C).
Qed.
Lemma aside_registry s t : registry s → aside s t → registry t.
Proof. intros R A. eapply steps_keep; [done|apply A]. Qed.
Lemma paged_memory {A : Type} (f : paging → A * paging) s r t : paged f s = Some (r, t) → r = fst (f (memory s)) ∧ t = set_memory (snd (f (memory s))) s.
Proof. unfold paged. destruct (f (memory s)) as [a m]. destruct (halted m); [done|]. by intros [= <- <-]. Qed.
Lemma files_aside {A : Type} (f : vfs K → A * vfs K) s r t : on_files f s = (r, t) → aside s t.
Proof. unfold on_files. destruct (f (files s)) as [a v]. intros [= _ <-]. apply minor_aside, minor_files. Qed.

(** ** Memory *)

Lemma directories_aside m s : same_directories kernel (memory s) m → aside s (set_memory m s).
Proof.
  intros [En Ac Kn Di]. apply outside_aside. constructor; try done; cbn.
  - unfold paging_active_space. by rewrite En, Ac.
  - intros i a _ _ H. by rewrite Kn.
  - intros D a. rewrite Kn. intros H. specialize (D a H). unfold paging_directory_address in *. rewrite Kn, H in *. by rewrite Di.
Qed.
Lemma adds_aside a m s : adds kernel a (memory s) m → registry s → aside s (set_memory m s).
Proof.
  intros [En Ac Fr Kn Di Nw] R. apply outside_aside. constructor; try done; cbn.
  - unfold paging_active_space. by rewrite En, Ac.
  - intros i b _ _ H. rewrite Kn; [done|]. intros ->. congruence.
  - intros D b H. unfold paging_directory_address. rewrite H. destruct (decide (b = a)) as [->|N]; [by apply Nw|]. rewrite Kn in H by done. specialize (D b H).
    unfold paging_directory_address in D. rewrite H in D. by rewrite Di.
Qed.
Lemma malloc_aside n s r t : paged (kmalloc n) s = Some (r, t) → aside s t.
Proof. intros [_ ->]%paged_memory. apply minor_aside, minor_set_memory, heap_allocates. Qed.
Lemma free_aside a s r t : paged (kfree a) s = Some (r, t) → aside s t.
Proof. intros [_ ->]%paged_memory. apply minor_aside, minor_set_memory, heap_frees. Qed.

(** A space no task runs in. *)
Definition unused_space (a : Z) s : Prop := ∀ i, used s i = true → space (get_process s i) ≠ Some a.
Lemma unused_aside a s t : aside s t → unused_space a s → unused_space a t.
Proof. intros A U i. destruct (aside_tasks _ _ A i) as (-> & _ & ->). apply U. Qed.
Lemma fresh_unused a s : registry s → known_space kernel a (memory s) = false → unused_space a s.
Proof. intros R F i U E. destruct (reg_space _ _ _ R i U) as (b & Eb & Kb). congruence. Qed.
Lemma destroy_aside a s r t : unused_space a s → paged (paging_space_destroy kernel kfree a) s = Some (r, t) → aside s t.
Proof.
  intros U [_ ->]%paged_memory. destruct (paging_space_destroy kernel kfree a (memory s)) as [ok m] eqn:E. cbn [snd]. destruct ok.
  - apply (space_destroy_spec kernel kfree heap_frees) in E as (Nk & K' & Ac & En & C). apply outside_aside. constructor; try done; cbn.
    + unfold paging_active_space. by rewrite En, Ac.
    + intros i b Ui Eb H. unfold known_space in *. rewrite C, En. assert (a ≠ b) as N by (intros ->; by apply (U i)). by destruct (chain_filter_other a b (chain (memory s)) N) as [_ ->].
    + intros D b H. assert (b ≠ a) as N.
      { intros ->. unfold known_space in H. rewrite C in H. rewrite (proj2 (Z.eqb_neq kernel a)) in H by congruence. apply andb_true_iff in H as [_ H]. cbn in H.
        apply existsb_exists in H as (q & Hq%List.filter_In & Eq). destruct Hq as [_ Hq]. by rewrite Eq in Hq. }
      destruct (chain_filter_other a b (chain (memory s)) ltac:(congruence)) as [F1 F2]. assert (known_space kernel b (memory s) = true) as H'.
      { unfold known_space in *. by rewrite C, En, F2 in H. }
      specialize (D b H'). unfold paging_directory_address in *. rewrite H. rewrite H' in D. unfold get_space in *. by rewrite K', C, F1.
  - apply space_destroy_fail in E as ->. apply directories_aside. done.
Qed.
Lemma elf_load_aside image bytes arguments s r t : registry s → paged (elf_load_process kernel kmalloc kfree image bytes arguments) s = Some (r, t) →
  aside s t ∧ ∀ q, r = Some q → ∃ a, tp_space q = Some a ∧ unused_space a t.
Proof.
  intros R [-> ->]%paged_memory. destruct (elf_load_process kernel kmalloc kfree image bytes arguments (memory s)) as [r m] eqn:E. cbn [fst snd].
  apply elf_load_adds in E as [[E ->]|(a & A & Q)]; [split; [by apply directories_aside|done]| |exact _]. assert (aside s (set_memory m s)) as S by by eapply adds_aside.
  split; [done|]. intros q Eq. exists a. split; [by apply Q|]. apply (unused_aside a s); [done|]. by apply fresh_unused, A.
Qed.
End Steps.
