(* ===== verification/Process.v ===== *)
(** * Program launch (kernel/process/process.c)

    Opening an executable, reading it into a heap block, loading it with Elf.v and
    creating the process with Task.v; the foreground run that waits for the child; and the
    construction of an argument packet from a command line. As in Task.v, [None] is
    [cpu_halt], a run that blocks ends there and its tail is the operation named
    [..._resume], and the interrupts that arrive are arguments. *)

From S2P Require Import Prelude Block Path Fs Pmm Paging Spaces Session Handles Gdt Keyboard Task Registry Scheduler Elf Steps.

#[local] Notation "'let!' p ':=' m 'in' k" := (match m with Some p => k | None => None end)
  (at level 200, p pattern, right associativity).

Inductive process_launch_error :=
  PROCESS_LAUNCH_OK | PROCESS_LAUNCH_INVALID_ARGUMENTS | PROCESS_LAUNCH_EXECUTABLE | PROCESS_LAUNCH_RESOURCES | PROCESS_LAUNCH_INTERNAL.
Record process_result := ProcessResult { result_id : Z; result_termination : task_termination; result_status : Z; result_fault : task_fault }.
Definition no_result : process_result := ProcessResult 0 TASK_TERMINATION_NONE 0 no_fault.

(** ** Argument packets *)

(** [text] has no NUL: a word of a string. *)
Definition add_argument (text : list Z) (a : rum_arguments) : option rum_arguments :=
  let bytes := len text in
  if (bytes =? 0) || (argc a >=? RUM_PROCESS_ARGUMENT_LIMIT) || (bytes >=? RUM_PROCESS_ARGUMENT_BYTES - string_bytes a) then None else
  let offset := string_bytes a in
  Some (Arguments_ (argc a + 1) (string_bytes a + bytes + 1) (aset (offsets a) (argc a) offset)
    (aset (foldl (λ m '(i, c), aset m (offset + i) c) (strings a) (zip (seqZ 0 bytes) text)) (offset + bytes) 0)).
Definition blank (c : Z) : bool := (c =? 32) || (c =? 9).
(** The text after its blanks, and the word up to the next blank with the rest. *)
Fixpoint skip_blanks (text : list Z) : list Z :=
  match text with [] => [] | c :: rest => if blank c then skip_blanks rest else text end.
Fixpoint next_word (text : list Z) : list Z * list Z :=
  match text with
  | [] => ([], [])
  | c :: rest => if blank c then ([], text) else let '(word, rest) := next_word rest in (c :: word, rest)
  end.
(** The loop over the command line; every turn takes at least a character. *)
Fixpoint add_words (n : nat) (text : list Z) (a : rum_arguments) : option rum_arguments :=
  match n with
  | O => Some a
  | S n =>
      match text with
      | [] => Some a
      | _ =>
          match skip_blanks text with
          | [] => Some a
          | text => let '(word, rest) := next_word text in let! a := add_argument word a in add_words n rest a
          end
      end
  end.
Definition build_arguments (program text : option (list Z)) : option rum_arguments :=
  match program, text with
  | Some program, Some text =>
      if (len program =? 0) then None else
      let! a := add_argument program no_arguments in add_words (S (length text)) text a
  | _, _ => None
  end.

(** ** Names *)

(** A dot after the last slash. *)
Definition has_extension (path : list Z) : bool :=
  foldl (λ b c, if c =? slash then false else if c =? 46 then true else b) false path.
(** The part after the last slash. *)
Definition basename (path : list Z) : list Z := foldl (λ name c, if c =? slash then [] else name ++ [c]) [] path.
Definition array_of (l : list Z) : gmap Z Z := list_to_map (zip (seqZ 0 (len l)) l).
Definition elf_suffix : list Z := [46; 101; 108; 102].

Section Process.
Context {K : Type} (ops : fs_operations K) (kernel : Z) (kmalloc : Z → paging → Z * paging) (kfree : Z → paging → bool * paging).
Context (start_address halt_address : Z) (switch_esp : kstate K → Z).
Implicit Types (w : nat → list irq).

(** The context of the current task, [NULL] is [None]. *)
Definition current_context (s : kstate K) : option fs_context := (λ i, filesystem (proc s i)) <$> task_current_filesystem s.

(** The loop that fills the image. Every turn transfers a byte or ends it, unless the
    backend answers [FS_END], which is not an error here: [None] if that goes on for
    longer than the image has bytes, when the loop need not end. *)
Fixpoint read_image (n : nat) (file size read : Z) (image : list Z) (s : kstate K) : option ((Z * list Z) * kstate K) :=
  if read >=? size then Some ((0, image), s) else
  match n with
  | O => None
  | S n =>
      let '((io, data), s) := on_files (fs_read ops file read (Some (drop (Z.to_nat read) image)) (size - read)) s in
      let image := take (Z.to_nat read) image ++ default [] data in
      let result := if bool_decide (io_error io ≠ FS_OK) then process_fs_error (io_error io) else if transferred io =? 0 then - RUM_EIO else 0 in
      if result =? 0 then read_image n file size (read + transferred io) image s else Some ((result, image), s)
  end.

(** The path and the file it opens to, with [.elf] added when it has no extension and is
    not found; or what [start_process] returns. *)
Definition opened (path : list Z) (r : fs_error * Z) : Z + list Z * Z :=
  if bool_decide (fst r ≠ FS_OK) then inl (process_fs_error (fst r)) else inr (path, snd r).
Definition open_program (path : list Z) (s : kstate K) : (Z + list Z * Z) * kstate K :=
  let '(r, s) := on_files (fs_open ops (current_context s) (Some path) FS_READ true) s in
  if bool_decide (fst r = FS_NOT_FOUND) && negb (has_extension path) then
    if len path + 5 >? FS_PATH_CAPACITY then (inl (- RUM_ENAMETOOLONG), s) else
    let '(r, s) := on_files (fs_open ops (current_context s) (Some (path ++ elf_suffix)) FS_READ true) s in (opened (path ++ elf_suffix) r, s)
  else (opened path r, s).

(** From [fs_stat] to [fs_close]: the result, the block, the size and the image in it. *)
Definition read_program (file : Z) (s : kstate K) : option ((Z * Z * Z * list Z) * kstate K) :=
  let '((e, info), s) := on_files (fs_stat ops file true) s in
  let result := process_fs_error e in
  let result := if (result =? 0) && (negb (Fs.info_kind info =? FS_FILE) || (info_size info =? 0) || (info_size info >? RUM_ELF_IMAGE_LIMIT))
                then - RUM_ENOEXEC else result in
  let! (block, s) := (if result =? 0 then paged (kmalloc (info_size info)) s else Some (0, s)) in
  let result := if (result =? 0) && (block =? 0) then - RUM_ENOMEM else result in
  let! (r, s) := (if result =? 0 then read_image (Z.to_nat (info_size info)) file (info_size info) 0 (replicate (Z.to_nat (info_size info)) 0) s
                  else Some ((result, []), s)) in
  let '(result, image) := r in
  let '(closed, s) := on_files (fs_close ops file) s in
  Some ((if result =? 0 then process_fs_error closed else result, block, info_size info, image), s).

Definition destroy_space (space : option Z) (s : kstate K) : option (kstate K) :=
  match space with
  | Some a => let! (_, s) := paged (paging_space_destroy kernel kfree a) s in Some s
  | None => Some s
  end.

(** The result and [*child]; every caller passes the address of a local variable and reads it
    only after a result of 0, so that 0 also stands for its value when the first check
    returns before the assignment. [program] has no NUL. *)
Definition start_process (program : option (list Z)) (arguments : option rum_arguments) (foreground shell : bool) w (s : kstate K) : option ((Z * Z) * kstate K) :=
  match program with
  | None => Some ((- RUM_EINVAL, 0), s)
  | Some program =>
      if negb (elf_arguments_valid arguments) then Some ((- RUM_EINVAL, 0), s) else
      if shell && task_current_is_process s then Some ((- RUM_EACCES, 0), s) else
      let status := task_process_creation_status foreground s in
      if negb (status =? 0) then Some ((status, 0), s) else
      if negb (process_filesystem_context (in_irq s) (iflag s)) then Some ((- RUM_EBUSY, 0), s) else
      if (len program =? 0) || (len program >=? FS_PATH_CAPACITY) then Some ((- RUM_ENAMETOOLONG, 0), s) else
      let '(r, s) := open_program program s in
      match r with
      | inl code => Some ((code, 0), s)
      | inr (path, file) =>
          let! (r, s) := read_program file s in
          let '(result, block, size, image) := r in
          let! (process, s) := (if result =? 0 then paged (elf_load_process kernel kmalloc kfree (Some (λ i, nth (Z.to_nat i) image 0)) size arguments) s
                                else Some (None, s)) in
          let result := if (result =? 0) && (if process then false else true) then - RUM_ENOEXEC else result in
          let! (_, s) := paged (kfree block) s in
          if negb (result =? 0) then Some ((result, 0), s) else
          match process with
          | None => Some ((result, 0), s) (* result is not zero then *)
          | Some process =>
              let s := interrupts (w 0%nat) s in
              if task_current_cancelled s then let! s := destroy_space (tp_space process) s in Some ((- RUM_EINTR, 0), s) else
              let name := copy_name (Z.to_nat (RUM_PROCESS_NAME_CAPACITY - 1)) 0 (array_of (basename path)) ∅ in
              let given := Some (TaskProcess (tp_space process) (tp_frame process) name) in
              let w := λ n, w (S n) in
              let! (child, s) := (if shell then task_create_shell_process ops kernel start_address halt_address given w s else
                                  if foreground then task_create_foreground_process ops kernel start_address halt_address given w s
                                  else task_create_process ops kernel start_address halt_address given w s) in
              if child =? 0 then let! s := destroy_space (tp_space process) s in Some ((- RUM_ENOMEM, 0), s) else Some ((0, child), s)
          end
      end
  end.
Definition process_start_foreground program arguments w (s : kstate K) := start_process program arguments true false w s.
Definition process_start_shell program arguments w (s : kstate K) := start_process program arguments true true w s.
Definition process_spawn program arguments w (s : kstate K) := start_process program arguments false false w s.

(** A foreground run returns its result, or waits for the child [id]. *)
Inductive run := RunReturned (code : Z) (result : process_result) | RunBlocked (id child : Z).
(** After [task_wait_child] answered. *)
Definition run_tail (id child : Z) (r : child_progress) (s : kstate K) : option (run * kstate K) :=
  match r with
  | ChildResult code info =>
      if negb (code =? 1) then Some (RunReturned (if code <? 0 then code else - RUM_EIO) no_result, s) else
      match info with
      | None => None (* a result of 1 carries the child *)
      | Some info =>
          let! (ok, s) := task_collect_child ops kernel kfree child s in
          if (ok : bool) then Some (RunReturned 0 (ProcessResult (info_process_id info) (info_termination info) (info_status info) (info_fault info)), s) else None
      end
  | ChildBlocked => Some (RunBlocked id child, s)
  | ChildAgain => None (* the loop has passes enough: see Waits.v *)
  end.
Definition run_foreground (path : option (list Z)) (arguments : option rum_arguments) (command_text : option (list Z)) w (s : kstate K) : option (run * kstate K) :=
  if (if command_text then true else false) && negb (task_current_is_shell s) then Some (RunReturned (- RUM_EACCES) no_result, s) else
  let! (r, s) := process_start_foreground path arguments w s in
  let '(code, child) := r in
  if negb (code =? 0) then Some (RunReturned code no_result, s) else
  let '(marked, s) := match command_text with Some _ => task_mark_shell_command child command_text s | None => (true, s) end in
  if negb marked then None else
  match task_query kernel child s with
  | None => None
  | Some info =>
      let! (r, s) := task_wait_child kernel switch_esp (info_process_id info) false true (λ n, w (n + 5)%nat) s in
      run_tail (info_process_id info) child r s
  end.
Definition run_foreground_resume (id child : Z) w (s : kstate K) : option (run * kstate K) :=
  let! (r, s) := task_wait_child_resume ops kernel kfree switch_esp id false w s in run_tail id child r s.
Definition process_run_foreground path arguments w (s : kstate K) := run_foreground path arguments None w s.
Definition process_run_command path arguments (text : option (list Z)) w (s : kstate K) : option (run * kstate K) :=
  match text with None => Some (RunReturned (- RUM_EINVAL) no_result, s) | Some _ => run_foreground path arguments text w s end.

Definition launch_error (code : Z) : process_launch_error :=
  if code =? 0 then PROCESS_LAUNCH_OK else if code =? - RUM_ENOMEM then PROCESS_LAUNCH_RESOURCES else
  if code =? - RUM_EIO then PROCESS_LAUNCH_INTERNAL else PROCESS_LAUNCH_EXECUTABLE.
Definition rum_prefix : list Z := [47; 114; 117; 109; 47].
(** The path a program name stands for: in [/rum/] unless it has a slash. *)
Definition program_path (program : list Z) : option (list Z) :=
  let path := (if existsb (λ c, c =? slash) program then [] else rum_prefix) ++ program in
  if len path >=? FS_PATH_CAPACITY then None else Some path.
(** [inl] is the error of a launch that ended; its result is in the run that returned. *)
Definition process_launch_foreground (program arguments : option (list Z)) w (s : kstate K) : option ((process_launch_error * process_result + run) * kstate K) :=
  match build_arguments program arguments, program with
  | Some packet, Some program =>
      match program_path program with
      | None => Some (inl (PROCESS_LAUNCH_INVALID_ARGUMENTS, no_result), s)
      | Some path =>
          let! (r, s) := process_run_foreground (Some path) (Some packet) w s in
          Some (match r with RunReturned code result => inl (launch_error code, result) | RunBlocked _ _ => inr r end, s)
      end
  | _, _ => Some (inl (PROCESS_LAUNCH_INVALID_ARGUMENTS, no_result), s)
  end.
End Process.

(** ** Launching is all or nothing *)

Section Launch.
Context {K : Type} (ops : fs_operations K) (kernel : Z) (kmalloc : Z → paging → Z * paging) (kfree : Z → paging → bool * paging) `{!HeapLaw kernel kmalloc kfree}.
Context (start_address halt_address : Z) (switch_esp : kstate K → Z).
Implicit Types (s t : kstate K) (w : nat → list irq).
Notation aside := (aside kernel switch_esp ops start_address halt_address kfree).
Notation kstep := (kstep kernel switch_esp ops start_address halt_address kfree).
Notation registry := (registry kernel true).
Hint Extern 0 (HeapLaw _ _ _) => exact HeapLaw0 : typeclass_instances.

Lemma read_image_aside n file size read image s r t : read_image ops n file size read image s = Some (r, t) → aside s t.
Proof.
  revert read image s. induction n as [|n IH]; intros read image s; cbn [read_image]; (destruct (read >=? size); [by intros [= _ <-]|]); [done|].
  destruct (on_files _ s) as [[io data] s1] eqn:E. eapply files_aside in E. cbv zeta. set (result := if bool_decide _ then _ else _). clearbody result. destruct (result =? 0).
  - intros H. etransitivity; [exact E|]. eapply IH, H.
  - intros [= _ <-]. exact E.
Qed.
Lemma open_program_aside path s r t : open_program ops path s = (r, t) → aside s t.
Proof.
  unfold open_program. destruct (on_files _ s) as [r1 s1] eqn:E1. eapply files_aside in E1. destruct (_ && _); [|by intros [= _ <-]]. destruct (_ >? _); [by intros [= _ <-]|].
  destruct (on_files _ s1) as [r2 s2] eqn:E2. eapply files_aside in E2. intros [= _ <-]. etransitivity; [exact E1|exact E2].
Qed.
Lemma read_program_aside file s r t : read_program ops kmalloc file s = Some (r, t) → aside s t.
Proof.
  unfold read_program. destruct (on_files _ s) as [[e info] s1] eqn:E1. eapply files_aside in E1. cbv zeta.
  set (r1 := if _ && _ then - RUM_ENOEXEC else _). clearbody r1. destruct (if r1 =? 0 then _ else _) as [[block s2]|] eqn:E2; [|done].
  assert (aside s1 s2) as A2 by (destruct (r1 =? 0); [by eapply malloc_aside|by injection E2 as _ <-]). set (r2 := if _ && _ then - RUM_ENOMEM else _). clearbody r2.
  destruct (if r2 =? 0 then _ else _) as [[[r3 image] s3]|] eqn:E3; [|done]. assert (aside s2 s3) as A3 by (destruct (r2 =? 0); [by eapply read_image_aside|by injection E3 as _ _ <-]).
  destruct (on_files _ s3) as [closed s4] eqn:E4. eapply files_aside in E4. intros [= _ <-]. etransitivity; [exact E1|]. etransitivity; [exact A2|]. etransitivity; [exact A3|exact E4].
Qed.
Lemma destroy_space_aside a s t : unused_space a s → destroy_space kernel kfree (Some a) s = Some t → aside s t.
Proof. intros U. unfold destroy_space. destruct (paged _ s) as [[r s1]|] eqn:E; [|done]. intros [= <-]. by eapply destroy_aside. Qed.

(** What creation does, whichever of the three it is. *)
Lemma create_cases (shell foreground : bool) given w s id t : registry s →
  (if shell then task_create_shell_process ops kernel start_address halt_address given w s else
   if foreground then task_create_foreground_process ops kernel start_address halt_address given w s
   else task_create_process ops kernel start_address halt_address given w s) = Some (id, t) →
  (id = 0 ∧ aside s t) ∨ ∃ i, registry t ∧ rtc kstep s t ∧ created_in s i id t.
Proof.
  intros R H. assert ((id = 0 ∧ t = s) ∨ ∃ fg sh, create_process ops kernel start_address halt_address given fg sh w s = Some (id, t)) as [[-> ->]|(fg & sh & E)].
  { destruct shell; [unfold task_create_shell_process in H; destruct (_ || _); [injection H as <- <-; by left|]|destruct foreground]; right; by eexists _, _. }
  - left. done.
  - assert (rtc kstep s t) as St by by eapply rtc_once, k_create_process. eapply (create_process_cases kernel switch_esp) in E; [|exact R]. destruct E as [[-> C]|(i & Rt & _ & Cr)].
    + left. split; [done|]. constructor; [exact St| |apply (calm_next _ _ _ _ C)|apply (calm_current _ _ _ _ C)].
      intros i. split; [by eapply calm_used|]. split; [apply (calm_tid _ _ _ _ C)|]. by apply (calm_process _ _ _ _ C).
    + right. exists i. done.
Qed.
(** Either nothing was created, or the child is the one new task. *)
Definition launched s (code child : Z) t : Prop :=
  (child = 0 ∧ aside s t) ∨ (code = 0 ∧ registry t ∧ rtc kstep s t ∧ ∃ i, created_in s i child t).
Lemma launched_none s code t : aside s t → launched s code 0 t.
Proof. intros A. by left. Qed.
Lemma created_after s t i id u : aside s t → created_in t i id u → created_in s i id u.
Proof.
  intros A [[B U] (C & D & E) F G]. constructor; [split; [done|]; destruct (aside_tasks _ _ _ _ _ _ _ _ A i) as (<- & _); done|split_and!; [by rewrite C, (aside_next _ _ _ _ _ _ _ _ A)|done..]|done|].
  intros j N. destruct (aside_tasks _ _ _ _ _ _ _ _ A j) as (<- & <- & _). by apply G.
Qed.
Lemma start_process_launched program arguments foreground shell w s code child t : registry s →
  start_process ops kernel kmalloc kfree start_address halt_address program arguments foreground shell w s = Some ((code, child), t) → launched s code child t.
Proof.
  intros R. unfold start_process. assert (∀ c, launched s c 0 s) as N by (intros c; by apply launched_none).
  destruct program as [program|]; [|by intros [= <- <- <-]]. do 5 (case_match; [by intros [= <- <- <-]|]).
  destruct (open_program ops program s) as [o s1] eqn:E1. apply open_program_aside in E1. destruct o as [c|[path file]]; [intros [= <- <- <-]; by apply launched_none|].
  destruct (read_program ops kmalloc file s1) as [[[[[result block] size] image] s2]|] eqn:E2; [|done]. apply read_program_aside in E2. assert (aside s s2) as A2 by (etransitivity; [exact E1|exact E2]).
  match goal with |- context [if result =? 0 then paged ?f s2 else Some (None, s2)] => destruct (if result =? 0 then paged f s2 else Some (None, s2)) as [[q s3]|] eqn:E3 end; [|done].
  assert (registry s2) as R2 by by eapply aside_registry.
  assert (aside s2 s3 ∧ ∀ p, q = Some p → ∃ a, tp_space p = Some a ∧ unused_space a s3) as [A3 Q] by (destruct (result =? 0); [by eapply elf_load_aside|by injection E3 as <- <-]).
  cbv zeta. set (r3 := if _ && _ then - RUM_ENOEXEC else result). clearbody r3. destruct (paged (kfree block) s3) as [[ok s4]|] eqn:E4; [|done]. eapply free_aside in E4; [|exact HeapLaw0].
  assert (aside s s4) as A4 by (etransitivity; [exact A2|]; etransitivity; [exact A3|exact E4]). destruct (negb (r3 =? 0)); [intros [= <- <- <-]; by apply launched_none|].
  destruct q as [p|]; [|intros [= <- <- <-]; by apply launched_none]. destruct (Q p eq_refl) as (a & Ea & U). eapply unused_aside in U; [|exact E4]. rewrite Ea.
  assert (registry s4) as R4 by (eapply aside_registry; [exact HeapLaw0|exact R|exact A4]). pose proof (aside_interrupts kernel switch_esp ops start_address halt_address kfree (w 0%nat) s4 R4) as A5. revert A5. generalize (interrupts (w 0%nat) s4). intros s5 A5.
  eapply unused_aside in U; [|exact A5]. assert (aside s s5) as B5 by (etransitivity; [exact A4|exact A5]). assert (registry s5) as R5 by (eapply aside_registry; [exact HeapLaw0|exact R|exact B5]). destruct (task_current_cancelled s5).
  { destruct (destroy_space _ _ _ s5) as [s6|] eqn:E6; [|done]. apply destroy_space_aside in E6; [|done]. intros [= <- <- <-]. apply launched_none. etransitivity; [exact B5|exact E6]. }
  match goal with |- match ?x with Some _ => _ | None => _ end = _ → _ => destruct x as [[id s6]|] eqn:E6 end; [|done]. apply create_cases in E6 as [[-> A6]|(i & R6 & S6 & C6)]; [| |exact R5].
  - cbn [Z.eqb]. eapply unused_aside in U; [|exact A6]. destruct (destroy_space _ _ _ s6) as [s7|] eqn:E7; [|done]. apply destroy_space_aside in E7; [|done]. intros [= <- <- <-]. apply launched_none.
    etransitivity; [exact B5|]. etransitivity; [exact A6|exact E7].
  - destruct (cr_id _ _ _ _ C6) as (_ & Nz & _). rewrite (proj2 (Z.eqb_neq id 0) Nz). intros [= <- <- <-]. right. split_and!; [done|done|etransitivity; [apply B5|exact S6]|]. exists i. by eapply created_after.
Qed.
End Launch.

(** C28: starting a program is all or nothing for the task registry. Whatever the file
    holds, wherever the path through the filesystem, the heap, the loader and process
    creation fails, and whatever interrupts arrive meanwhile: the call is a sequence of
    registry steps that keeps the registry well formed; without a child every slot, every
    id, every task's address space and the current task are as before; with a child the
    result is 0 and the child is the one new task, in a slot that was free, under the next
    id. *)
Theorem process_launch_atomic (K : Type) (ops : fs_operations K) (kernel : Z) (kmalloc : Z → paging → Z * paging) (kfree : Z → paging → bool * paging)
    `{!HeapLaw kernel kmalloc kfree} (start_address halt_address : Z) (switch_esp : kstate K → Z)
    (program : option (list Z)) (arguments : option rum_arguments) (foreground shell : bool) (w : nat → list irq) (s t : kstate K) (code child : Z) :
  registry kernel true s → start_process ops kernel kmalloc kfree start_address halt_address program arguments foreground shell w s = Some ((code, child), t) →
  registry kernel true t ∧ rtc (kstep kernel switch_esp ops start_address halt_address kfree) s t ∧
  if decide (child = 0) then
    (∀ i, used t i = used s i ∧ tid (get_task t i) = tid (get_task s i) ∧ space (get_process t i) = space (get_process s i)) ∧
    next_id t = next_id s ∧ current t = current s
  else code = 0 ∧ ∃ i, created_in s i child t.
Proof.
  intros R H. eapply (start_process_launched ops kernel kmalloc kfree start_address halt_address switch_esp) in H; [|exact R]. destruct H as [[-> A]|(-> & Rt & St & i & C)].
  - rewrite decide_True by done. split; [eapply aside_registry; [exact _|exact R|exact A]|]. destruct A. done.
  - split; [done|]. split; [done|]. destruct (cr_id _ _ _ _ C) as (_ & N & _). rewrite decide_False by done. split; [done|]. by exists i.
Qed.

(** ** Command lines *)

(** The words between blanks. *)
Fixpoint tokens (word text : list Z) : list (list Z) :=
  match text with
  | [] => if decide (word = []) then [] else [word]
  | c :: rest => if blank c then (if decide (word = []) then tokens [] rest else word :: tokens [] rest) else tokens (word ++ [c]) rest
  end.
Definition words (text : list Z) : list (list Z) := tokens [] text.
Definition packed (ws : list (list Z)) : Z := foldr (λ w n, len w + 1 + n) 0 ws.

Lemma packed_app ws vs : packed (ws ++ vs) = packed ws + packed vs.
Proof.
  induction ws as [|w ws IH]; [done|]. change (packed ((w :: ws) ++ vs)) with (len w + 1 + packed (ws ++ vs)). change (packed (w :: ws)) with (len w + 1 + packed ws). lia.
Qed.
Lemma packed_nonneg ws : 0 ≤ packed ws.
Proof. induction ws as [|w ws IH]; [done|]. change (packed (w :: ws)) with (len w + 1 + packed ws). lia. Qed.
Lemma words_skip text : words (skip_blanks text) = words text.
Proof. unfold words. induction text as [|c text IH]; cbn; [done|]. destruct (blank c) eqn:E; [exact IH|]. cbn. by rewrite E. Qed.
Lemma tokens_word word text : word ≠ [] → tokens word text = (word ++ fst (next_word text)) :: words (snd (next_word text)).
Proof.
  revert word. induction text as [|c text IH]; intros word N; cbn; [by rewrite decide_False, app_nil_r|]. destruct (blank c) eqn:E; cbn.
  - rewrite decide_False, app_nil_r by done. unfold words. cbn. by rewrite E.
  - rewrite IH by (by destruct word). destruct (next_word text) as [v r]. cbn. by rewrite <- app_assoc.
Qed.
Lemma words_step text : words text = match skip_blanks text with [] => [] | rest => fst (next_word rest) :: words (snd (next_word rest)) end.
Proof.
  rewrite <- words_skip. destruct (skip_blanks text) as [|c rest] eqn:E; [done|]. assert (blank c = false) as B.
  { clear -E. induction text as [|d text IH]; cbn in E; [done|]. destruct (blank d) eqn:D; [by apply IH|]. by injection E as -> ->. }
  unfold words. cbn. rewrite B. cbn. rewrite tokens_word by done. by destruct (next_word rest).
Qed.
Lemma skip_shorter text : (length (skip_blanks text) ≤ length text)%nat.
Proof. induction text as [|c text IH]; cbn; [done|]. destruct (blank c); cbn; lia. Qed.
Lemma next_shorter c rest : blank c = false → (length (snd (next_word (c :: rest))) ≤ length rest)%nat ∧ fst (next_word (c :: rest)) ≠ [].
Proof.
  intros B. cbn. rewrite B. assert (length (snd (next_word rest)) ≤ length rest)%nat as H.
  { clear B. induction rest as [|d rest IH]; cbn; [done|]. destruct (blank d); cbn; [done|]. destruct (next_word rest). cbn in *. lia. }
  by destruct (next_word rest).
Qed.
(** The bytes of a stored text, and every other byte. *)
Lemma stored_text (offset k : Z) (l : list Z) (m : gmap Z Z) (j : Z) :
  let m' := foldl (λ m '(i, c), aset m (offset + i) c) m (zip (seqZ k (len l)) l) in
  (∀ (n : nat) c, l !! n = Some c → aget m' (offset + k + Z.of_nat n) = c) ∧ (¬ (offset + k ≤ j < offset + k + len l) → aget m' j = aget m j).
Proof.
  revert k m. induction l as [|x l IH]; intros k m; [done|]. cbn [length]. rewrite Nat2Z.inj_succ, seqZ_cons by lia. replace (Z.pred (Z.succ (len l))) with (len l) by lia. cbn [zip zip_with foldl].
  destruct (IH (Z.succ k) (aset m (offset + k) x)) as [I1 I2]. cbv zeta in *. split.
  - intros [|n] c Hn.
    + injection Hn as <-. rewrite Z.add_0_r. clear I1 I2. assert (∀ k' m', k < k' → aget m' (offset + k) = x → aget (foldl (λ m '(i, c), aset m (offset + i) c) m' (zip (seqZ k' (len l)) l)) (offset + k) = x) as H.
      { clear IH. induction l as [|y l IH]; intros k' m' Hk Hm; [exact Hm|]. cbn [length]. rewrite Nat2Z.inj_succ, seqZ_cons by lia. replace (Z.pred (Z.succ (len l))) with (len l) by lia. cbn [zip zip_with foldl].
        apply IH; [lia|]. unfold aget, aset in *. rewrite lookup_insert_ne by lia. exact Hm. }
      apply H; [lia|]. unfold aget, aset. by rewrite lookup_insert_eq.
    + specialize (I1 n c Hn). by replace (offset + k + Z.of_nat (S n)) with (offset + Z.succ k + Z.of_nat n) by lia.
  - intros Hj. rewrite I2 by lia. unfold aget, aset. by rewrite lookup_insert_ne by lia.
Qed.

Record packs (a : rum_arguments) (ws : list (list Z)) : Prop := {
  packs_count : argc a = len ws;
  packs_bytes : string_bytes a = packed ws;
  packs_strings : holds a 0 0 ws
}.
Lemma holds_extend a a' w i o ws : 0 ≤ i → 0 ≤ o → i + len ws = argc a → Forall (λ c, c ≠ 0) w →
  string_bytes a' = string_bytes a + len w + 1 → (∀ j, j < argc a → aget (offsets a') j = aget (offsets a) j) → aget (offsets a') (argc a) = string_bytes a →
  (∀ j, j < string_bytes a → aget (strings a') j = aget (strings a) j) → (∀ (n : nat) c, w !! n = Some c → aget (strings a') (string_bytes a + Z.of_nat n) = c) →
  aget (strings a') (string_bytes a + len w) = 0 → holds a i o ws → holds a' i o (ws ++ [w]).
Proof.
  intros Hi Ho Hc Tw Hb O1 O2 S1 S2 S3. revert i o Hi Ho Hc. induction ws as [|v ws IH]; intros i o Hi Ho Hc H.
  - cbn in H. subst o. cbn in Hc |- *. replace i with (argc a) by lia. split; [done|]. split; [|lia]. constructor; try done. lia.
  - destruct H as (E & [T B Z0 I] & H). cbn [app holds]. cbn [length] in Hc. rewrite O1 by lia. split; [done|]. split; [|apply IH; lia || done].
    constructor; [done| |by rewrite S1 by lia|lia]. intros j c Hj. rewrite S1; [by apply B|]. apply lookup_lt_Some in Hj. lia.
Qed.
Lemma add_argument_spec a ws w : packs a ws → w ≠ [] → Forall (λ c, c ≠ 0) w →
  match add_argument w a with
  | Some a' => packs a' (ws ++ [w]) ∧ len (ws ++ [w]) ≤ RUM_PROCESS_ARGUMENT_LIMIT ∧ packed (ws ++ [w]) ≤ RUM_PROCESS_ARGUMENT_BYTES
  | None => len (ws ++ [w]) > RUM_PROCESS_ARGUMENT_LIMIT ∨ packed (ws ++ [w]) > RUM_PROCESS_ARGUMENT_BYTES
  end.
Proof.
  intros [C B H] N T. assert (0 < len w) by (destruct w; [done|cbn; lia]). unfold add_argument. cbv zeta. rewrite (proj2 (Z.eqb_neq (len w) 0)) by lia. rewrite !Z.geb_leb. cbn [orb].
  rewrite packed_app, length_app. cbn [length]. change (packed [w]) with (len w + 1 + 0). pose proof (packed_nonneg ws).
  destruct (Z.leb_spec RUM_PROCESS_ARGUMENT_LIMIT (argc a)); cbn [orb]; [left; lia|]. destruct (Z.leb_spec (RUM_PROCESS_ARGUMENT_BYTES - string_bytes a) (len w)); [right; lia|].
  split; [|lia]. split; cbn [argc string_bytes]; [rewrite length_app; cbn; lia|rewrite packed_app; cbn -[Z.add]; change (packed [w]) with (len w + 1 + 0); lia|].
  set (m := foldl _ _ _). assert (∀ (n : nat) c, w !! n = Some c → aget m (string_bytes a + Z.of_nat n) = c) as S2.
  { intros n c Hn. destruct (stored_text (string_bytes a) 0 w (strings a) 0) as [S _]. specialize (S n c Hn). by rewrite Z.add_0_r in S. }
  assert (∀ j, j < string_bytes a → aget m j = aget (strings a) j) as S1 by (intros j Hj; destruct (stored_text (string_bytes a) 0 w (strings a) j) as [_ S]; apply S; lia). clearbody m.
  apply (holds_extend a); cbn [argc string_bytes offsets strings]; try done; try lia.
  - intros j Hj. unfold aget, aset. by rewrite lookup_insert_ne by lia.
  - unfold aget, aset. by rewrite lookup_insert_eq.
  - intros j Hj. rewrite <- S1 by done. unfold aget, aset. by rewrite lookup_insert_ne by lia.
  - intros n c Hn. rewrite <- (S2 n c Hn). apply lookup_lt_Some in Hn. unfold aget, aset. by rewrite lookup_insert_ne by lia.
  - unfold aget, aset. by rewrite lookup_insert_eq.
Qed.
Definition fits (ws : list (list Z)) : Prop := len ws ≤ RUM_PROCESS_ARGUMENT_LIMIT ∧ packed ws ≤ RUM_PROCESS_ARGUMENT_BYTES.
Lemma next_word_nonzero text : Forall (λ c, c ≠ 0) text → Forall (λ c, c ≠ 0) (fst (next_word text)) ∧ Forall (λ c, c ≠ 0) (snd (next_word text)).
Proof.
  intros F. induction F as [|c text Hc F IH]; cbn; [done|]. destruct (blank c); cbn; [by split; [|constructor]|]. destruct (next_word text) as [w r]. cbn in *. split; [constructor; tauto|tauto].
Qed.
Lemma skip_nonzero text : Forall (λ c, c ≠ 0) text → Forall (λ c, c ≠ 0) (skip_blanks text).
Proof. intros F. induction F as [|c text Hc F IH]; cbn; [done|]. destruct (blank c); [done|by constructor]. Qed.
Lemma fits_more ws vs : ¬ fits ws → ¬ fits (ws ++ vs).
Proof. unfold fits. rewrite packed_app, length_app. pose proof (packed_nonneg vs). lia. Qed.
Lemma add_words_spec n text a ws : packs a ws → fits ws → Forall (λ c, c ≠ 0) text → (length text < n)%nat →
  match add_words n text a with Some a' => packs a' (ws ++ words text) ∧ fits (ws ++ words text) | None => ¬ fits (ws ++ words text) end.
Proof.
  revert text a ws. induction n as [|n IH]; intros text a ws P B F L; [lia|]. cbn [add_words]. destruct text as [|c0 text0]; [by rewrite app_nil_r|]. set (text := c0 :: text0) in *.
  pose proof (words_step text) as W. apply skip_nonzero in F as G. pose proof (skip_shorter text) as Sh. destruct (skip_blanks text) as [|c rest] eqn:E; [by rewrite W, app_nil_r|].
  change (words text = fst (next_word (c :: rest)) :: words (snd (next_word (c :: rest)))) in W. rewrite W. clear W.
  assert (blank c = false) as Bc. { clear -E. revert E. generalize text. intros l. induction l as [|d l IH]; cbn; [done|]. destruct (blank d) eqn:D; [done|]. by intros [= -> ->]. }
  destruct (next_shorter c rest Bc) as [L1 N1]. destruct (next_word_nonzero _ G) as [F1 F2]. destruct (next_word (c :: rest)) as [word rest']. cbn [fst snd] in *.
  pose proof (add_argument_spec a ws word P N1 F1) as A. replace (ws ++ word :: words rest') with ((ws ++ [word]) ++ words rest') by by rewrite <- app_assoc.
  destruct (add_argument word a) as [a'|].
  - destruct A as (P' & B'). apply IH; [done|done|done|]. cbn in Sh, L. lia.
  - apply fits_more. unfold fits. lia.
Qed.

(** A command line becomes exactly the packet of its words. For a program name and a
    text without NULs the packet is built unless the name is empty, there are more than 32
    words in all or they need more than 4096 bytes with their terminators; and the packet
    is one the loader accepts, holding the name and then the text's words between spaces
    and tabs, in order. *)
Theorem command_line_roundtrip (program text : list Z) : Forall (λ c, c ≠ 0) program → Forall (λ c, c ≠ 0) text →
  match build_arguments (Some program) (Some text) with
  | Some a => elf_arguments_valid (Some a) = true ∧ holds a 0 0 (program :: words text) ∧ argc a = len (program :: words text)
  | None => program = [] ∨ len (program :: words text) > RUM_PROCESS_ARGUMENT_LIMIT ∨ packed (program :: words text) > RUM_PROCESS_ARGUMENT_BYTES
  end.
Proof.
  intros Fp Ft. unfold build_arguments. destruct program as [|c program']; [by left|]. set (program := c :: program') in *. rewrite (proj2 (Z.eqb_neq (len program) 0)) by (cbn; lia).
  assert (packs no_arguments []) as P0 by by constructor. pose proof (add_argument_spec no_arguments [] program P0 ltac:(done) Fp) as A.
  destruct (add_argument program no_arguments) as [a|].
  - destruct A as (P & B1 & B2). pose proof (add_words_spec (S (length text)) text a [program] P ltac:(by split) Ft ltac:(lia)) as W. cbn [app] in W. destruct (add_words _ _ _) as [a'|].
    + destruct W as [[C B H] [L1 L2]]. split; [|by split]. apply arguments_valid_spec; [lia|rewrite B; apply packed_nonneg|]. split; [cbn [length] in *; lia|]. split; [|by exists (program :: words text)].
      rewrite B. split; [|done]. change (packed (program :: words text)) with (len program + 1 + packed (words text)). pose proof (packed_nonneg (words text)). lia.
    + right. unfold fits in W. lia.
  - right. cbn [app] in A. pose proof (fits_more [program] (words text)) as M. unfold fits in M. cbn [app] in M. lia.
Qed.
(** The command line [ls -l  /rum]. *)
Lemma command_line_roundtrip_witness :
  ∃ a, build_arguments (Some [108; 115]) (Some [32; 45; 108; 32; 32; 47; 114; 117; 109]) = Some a ∧ elf_arguments_valid (Some a) = true ∧
  holds a 0 0 [[108; 115]; [45; 108]; [47; 114; 117; 109]].
Proof.
  pose proof (command_line_roundtrip [108; 115] [32; 45; 108; 32; 32; 47; 114; 117; 109] ltac:(repeat constructor; done) ltac:(repeat constructor; done)) as H.
  destruct (build_arguments _ _) as [a|] eqn:E; [|by vm_compute in E]. exists a. split; [done|]. destruct H as (V & Ho & _). by split.
Defined.

(** The boot task of the small machine starts a program; no volume is mounted. *)
Module LaunchSample.
Definition kmalloc (n : Z) (m : paging) : Z * paging := (0, m).
#[global] Instance law : HeapLaw 1 kmalloc TaskSample.kfree.
Proof. by constructor. Qed.
End LaunchSample.
Lemma process_launch_atomic_witness :
  ∃ t, start_process SampleBackend.ops 1 LaunchSample.kmalloc TaskSample.kfree 0x200 0x300 (Some [108; 115]) (Some tiny_arguments) true false (λ _, []) TaskSample.ready_worker
       = Some ((- RUM_ENODEV, 0), t) ∧ registry 1 true t ∧ next_id t = next_id TaskSample.ready_worker.
Proof.
  destruct (start_process SampleBackend.ops 1 LaunchSample.kmalloc TaskSample.kfree 0x200 0x300 (Some [108; 115]) (Some tiny_arguments) true false (λ _, []) TaskSample.ready_worker)
    as [[[code child] t]|] eqn:E; [|by vm_compute in E].
  assert (code = - RUM_ENODEV ∧ child = 0) as [-> ->].
  { assert (fst <$> start_process SampleBackend.ops 1 LaunchSample.kmalloc TaskSample.kfree 0x200 0x300 (Some [108; 115]) (Some tiny_arguments) true false (λ _, []) TaskSample.ready_worker = Some (- RUM_ENODEV, 0)) as F by by vm_compute.
    rewrite E in F. clear E. change (Some (code, child) = Some (- RUM_ENODEV, 0)) in F. split; congruence. }
  exists t. split; [done|].
  destruct (process_launch_atomic _ SampleBackend.ops 1 LaunchSample.kmalloc TaskSample.kfree 0x200 0x300 TaskSample.esp _ _ _ _ _ TaskSample.ready_worker t _ _ ready_worker_registry E) as (R & _ & H).
  split; [exact R|]. apply H.
Defined.
