(* ===== verification/Terminal.v ===== *)
(** * Text terminal and serial port (drivers/display/terminal.c, drivers/serial/serial.c)

    The 80 by 25 cells of the display, the cursor and the colour, and the bytes sent to
    the serial port, over parameters for the port instructions. The last row is the status
    line; the 24 rows above it are the console, shown to be a window that slides down an
    unbounded page. *)

From S2P Require Import Prelude.

Definition VGA_WIDTH : Z := 80.
Definition VGA_HEIGHT : Z := 25.
Definition TEXT_HEIGHT : Z := VGA_HEIGHT - 1.
Definition VGA_BLACK : Z := 0.
Definition VGA_GREEN : Z := 2.
Definition VGA_CYAN : Z := 3.
Definition VGA_LIGHT_GREY : Z := 7.
Definition VGA_DARK_GREY : Z := 8.
Definition VGA_LIGHT_GREEN : Z := 10.
Definition VGA_LIGHT_CYAN : Z := 11.
Definition VGA_LIGHT_RED : Z := 12.
Definition VGA_YELLOW : Z := 14.
Definition VGA_WHITE : Z := 15.
Definition COM1 : Z := 0x3F8.
Definition SERIAL_ATTEMPTS : Z := 100000.

(** The statics of terminal.c and the ports. *)
Record terminal (P : Type) := Terminal { screen : gmap Z Z; row : Z; column : Z; color : Z; wires : P }.
Arguments Terminal {P} _ _ _ _ _.
Arguments screen {P} _.
Arguments row {P} _.
Arguments column {P} _.
Arguments color {P} _.
Arguments wires {P} _.

Section Terminal.
Context {P : Type} (inb : Z → P → Z * P) (outb : Z → Z → P → P).
Implicit Types (t : terminal P) (p : P).

Definition set_screen (v : gmap Z Z) t : terminal P := Terminal v (row t) (column t) (color t) (wires t).
Definition set_row (v : Z) t : terminal P := Terminal (screen t) v (column t) (color t) (wires t).
Definition set_column (v : Z) t : terminal P := Terminal (screen t) (row t) v (color t) (wires t).
Definition set_color (v : Z) t : terminal P := Terminal (screen t) (row t) (column t) v (wires t).
Definition set_wires (v : P) t : terminal P := Terminal (screen t) (row t) (column t) (color t) v.
Definition put_cell (i v : Z) t : terminal P := set_screen (aset (screen t) i v) t.

(** A character with attribute [attribute]. *)
Definition colored (attribute character : Z) : Z := wrap16 (Z.lor (wrap8 character) (Z.shiftl attribute 8)).
Definition entry (character : Z) t : Z := colored (color t) character.
Definition update_cursor t : terminal P :=
  let position := wrap16 (row t * VGA_WIDTH + column t) in
  set_wires (outb 0x3D5 (wrap8 (Z.shiftr position 8)) (outb 0x3D4 0x0E (outb 0x3D5 (wrap8 position) (outb 0x3D4 0x0F (wires t))))) t.
Definition clear_row (target : Z) t : terminal P :=
  for_range 0 VGA_WIDTH (λ x t, put_cell (target * VGA_WIDTH + x) (entry 32 t) t) t.
Definition advance_row t : terminal P :=
  let t := set_row (row t + 1) (set_column 0 t) in
  if row t <? TEXT_HEIGHT then t else
  let t := for_range 1 TEXT_HEIGHT (λ y t,
    for_range 0 VGA_WIDTH (λ x t, put_cell ((y - 1) * VGA_WIDTH + x) (aget (screen t) (y * VGA_WIDTH + x)) t) t) t in
  let t := set_row (TEXT_HEIGHT - 1) t in
  clear_row (row t) t.

Definition terminal_set_color (foreground background : Z) t : terminal P :=
  set_color (wrap8 (Z.lor foreground (Z.shiftl background 4))) t.
Definition terminal_initialize t : terminal P :=
  let t := terminal_set_color VGA_LIGHT_GREY VGA_BLACK (set_column 0 (set_row 0 t)) in
  let t := for_range 0 VGA_HEIGHT clear_row t in
  update_cursor (set_wires (outb 0x3D5 15 (outb 0x3D4 0x0B (outb 0x3D5 14 (outb 0x3D4 0x0A (wires t))))) t).

(** [terminal_putchar] for every character but the tab. *)
Definition put_plain (c : Z) t : terminal P :=
  let t :=
    if c =? 10 then advance_row t else
    if c =? 13 then set_column 0 t else
    if c =? 8 then
      let t := if column t >? 0 then set_column (column t - 1) t else
               if row t >? 0 then set_column (VGA_WIDTH - 1) (set_row (row t - 1) t) else t in
      put_cell (row t * VGA_WIDTH + column t) (entry 32 t) t
    else
      let t := put_cell (row t * VGA_WIDTH + column t) (entry c t) t in
      let t := set_column (column t + 1) t in
      if column t =? VGA_WIDTH then advance_row t else t in
  update_cursor t.
Definition terminal_putchar (c : Z) t : terminal P :=
  if c =? 9 then update_cursor (for_range 0 (4 - column t mod 4) (λ _, put_plain 32) t) else put_plain c t.

Definition terminal_clear t : terminal P :=
  update_cursor (for_range 0 TEXT_HEIGHT clear_row (set_column 0 (set_row 0 t))).
(** [terminal_write] of a text of [length] characters, [terminal_writestring] of a string. *)
Definition terminal_write (text : list Z) t : terminal P := foldl (λ t c, terminal_putchar c t) t text.
Definition terminal_writestring (text : list Z) t : terminal P := terminal_write text t.
Definition terminal_status (text : list Z) t : terminal P :=
  for_range 0 VGA_WIDTH (λ x, put_cell (TEXT_HEIGHT * VGA_WIDTH + x) (colored VGA_DARK_GREY (nth (Z.to_nat x) text 32))) t.
Definition terminal_put_at (x y character foreground background : Z) t : bool * terminal P :=
  if (x >=? VGA_WIDTH) || (y >=? TEXT_HEIGHT) then (false, t) else
  let attribute := wrap8 (Z.lor foreground (Z.shiftl background 4)) in
  (true, put_cell (y * VGA_WIDTH + x) (colored attribute character) t).
Definition terminal_cursor_visible (visible : bool) t : terminal P :=
  set_wires (outb 0x3D5 (if visible then 14 else Z.lor 14 0x20) (outb 0x3D4 0x0A (wires t))) t.

(** ** The serial port *)

Definition serial_initialize p : P :=
  outb (COM1 + 4) 0x03 (outb (COM1 + 2) 0xC7 (outb (COM1 + 3) 0x03 (outb (COM1 + 1) 0x00 (outb COM1 0x03
    (outb (COM1 + 3) 0x80 (outb (COM1 + 1) 0x00 p)))))).
Fixpoint serial_attempts (n : nat) (c : Z) p : P :=
  match n with
  | O => p
  | S n =>
      let '(status, p) := inb (COM1 + 5) p in
      if negb (Z.land status 0x20 =? 0) then outb COM1 (wrap8 c) p else serial_attempts n c p
  end.
Definition serial_putchar (c : Z) p : P := serial_attempts (Z.to_nat SERIAL_ATTEMPTS) c p.
Definition serial_writestring (text : list Z) p : P :=
  foldl (λ p c, serial_putchar c (if c =? 10 then serial_putchar 13 p else p)) p text.
Definition on_serial (f : P → P) t : terminal P := set_wires (f (wires t)) t.
End Terminal.

(** ** The console as a page

    A page has rows without end; the console shows the 24 rows from [top] on. Going past
    the last of them moves the window down one row, which is blanked. *)

Record page := Page { cells : Z → Z → Z; top : Z; page_row : Z; page_column : Z }.
Definition page_put (v : Z) (g : page) : page :=
  Page (λ r x, if (r =? page_row g) && (x =? page_column g) then v else cells g r x) (top g) (page_row g) (page_column g).
Definition page_at (r x : Z) (g : page) : page := Page (cells g) (top g) r x.
Definition page_newline (k : Z) (g : page) : page :=
  let r := page_row g + 1 in
  if r <? top g + TEXT_HEIGHT then page_at r 0 g else
  Page (λ r' x, if r' =? r then colored k 32 else cells g r' x) (top g + 1) r 0.
Definition page_plain (k c : Z) (g : page) : page :=
  if c =? 10 then page_newline k g else
  if c =? 13 then page_at (page_row g) 0 g else
  if c =? 8 then
    page_put (colored k 32)
      (if page_column g >? 0 then page_at (page_row g) (page_column g - 1) g else
       if page_row g >? top g then page_at (page_row g - 1) (VGA_WIDTH - 1) g else g)
  else
    let g := page_put (colored k c) g in
    if page_column g + 1 =? VGA_WIDTH then page_newline k g else page_at (page_row g) (page_column g + 1) g.
Definition page_putchar (k c : Z) (g : page) : page :=
  if c =? 9 then Nat.iter (Z.to_nat (4 - page_column g mod 4)) (page_plain k 32) g else page_plain k c g.
Definition page_write (k : Z) (text : list Z) (g : page) : page := foldl (λ g c, page_putchar k c g) g text.
Definition blank_page (k : Z) : page := Page (λ _ _, colored k 32) 0 0 0.

(** [t] shows [g]; every console cell is a cell of the window. *)
Record shows {P : Type} (g : page) (t : terminal P) : Prop := {
  sh_row : 0 ≤ row t < TEXT_HEIGHT;
  sh_column : 0 ≤ column t < VGA_WIDTH;
  sh_page_row : page_row g = top g + row t;
  sh_page_column : page_column g = column t;
  sh_cells y x : 0 ≤ y < TEXT_HEIGHT → 0 ≤ x < VGA_WIDTH → aget (screen t) (y * VGA_WIDTH + x) = cells g (top g + y) x
}.
(** What no console operation changes: the colour and every cell beside the console's. *)
Record spares {P : Type} (t u : terminal P) : Prop := {
  spares_color : color u = color t;
  spares_cells i : ¬ (0 ≤ i < TEXT_HEIGHT * VGA_WIDTH) → aget (screen u) i = aget (screen t) i
}.

Section TerminalProofs.
Context {P : Type} (outb : Z → Z → P → P).
Implicit Types (t u : terminal P) (g : page).
Notation update_cursor := (update_cursor outb).
Notation put_plain := (put_plain outb).
Notation terminal_putchar := (terminal_putchar outb).
Notation terminal_write := (terminal_write outb).

#[global] Instance spares_preorder : PreOrder (@spares P).
Proof.
  split; [by intros t|]. intros t u v [A B] [C D]. split; [congruence|]. intros i Hi. by rewrite D, B.
Qed.
Lemma put_cell_at i v t j : aget (screen (put_cell i v t)) j = if j =? i then v else aget (screen t) j.
Proof.
  unfold put_cell, aget, aset. cbn. destruct (Z.eqb_spec j i) as [->|]; [by rewrite lookup_insert_eq|by rewrite lookup_insert_ne by congruence].
Qed.

(** A range of cells gets the values [f]. *)
Record painted (lo hi : Z) (f : Z → Z) t u : Prop := {
  pt_row : row u = row t; pt_column : column u = column t; pt_color : color u = color t;
  pt_cells i : aget (screen u) i = if (lo <=? i) && (i <? hi) then f i else aget (screen t) i
}.
Lemma painted_none lo hi f t : hi ≤ lo → painted lo hi f t t.
Proof. intros H. split; try done. intros i. destruct (Z.leb_spec lo i), (Z.ltb_spec i hi); cbn; lia || done. Qed.
Lemma painted_one lo hi f t u i v : painted lo hi f t u → lo ≤ hi → i = hi → v = f hi → painted lo (hi + 1) f t (put_cell i v u).
Proof.
  intros [A B C D] H -> ->. split; try done. intros j. rewrite put_cell_at, D. destruct (Z.eqb_spec j hi) as [->|].
  - by rewrite (proj2 (Z.leb_le _ _) H), (proj2 (Z.ltb_lt hi (hi + 1))) by lia.
  - destruct (Z.leb_spec lo j), (Z.ltb_spec j hi), (Z.ltb_spec j (hi + 1)); cbn; lia || done.
Qed.
Lemma clear_row_painted y t : painted (y * VGA_WIDTH) (y * VGA_WIDTH + VGA_WIDTH) (λ _, entry 32 t) t (clear_row y t).
Proof.
  unfold clear_row. apply (for_range_inv (λ x u, painted (y * VGA_WIDTH) (y * VGA_WIDTH + x) (λ _, entry 32 t) t u)); [done|apply painted_none; lia|].
  intros x u Hx H. rewrite Z.add_assoc. apply painted_one; [done|lia|done|]. unfold entry. by rewrite (pt_color _ _ _ _ _ H).
Qed.
Lemma scroll_painted t : painted 0 ((TEXT_HEIGHT - 1) * VGA_WIDTH) (λ i, aget (screen t) (i + VGA_WIDTH)) t
  (for_range 1 TEXT_HEIGHT (λ y t, for_range 0 VGA_WIDTH (λ x t, put_cell ((y - 1) * VGA_WIDTH + x) (aget (screen t) (y * VGA_WIDTH + x)) t) t) t).
Proof.
  set (f := λ i, aget (screen t) (i + VGA_WIDTH)). apply (for_range_inv (λ y u, painted 0 ((y - 1) * VGA_WIDTH) f t u)); [done|by apply painted_none|].
  intros y u Hy H. replace ((y + 1 - 1) * VGA_WIDTH) with ((y - 1) * VGA_WIDTH + VGA_WIDTH) by lia.
  apply (for_range_inv (λ x u, painted 0 ((y - 1) * VGA_WIDTH + x) f t u)); [done|by rewrite Z.add_0_r|].
  intros x v Hx Hv. rewrite Z.add_assoc. unfold VGA_WIDTH in *. apply painted_one; [done|lia|done|]. rewrite (pt_cells _ _ _ _ _ Hv).
  destruct (Z.ltb_spec (y * 80 + x) ((y - 1) * 80 + x)); [lia|]. rewrite andb_false_r. unfold f. f_equal. lia.
Qed.
Lemma cell_index y x y' x' : 0 ≤ x < VGA_WIDTH → 0 ≤ x' < VGA_WIDTH → (y * VGA_WIDTH + x =? y' * VGA_WIDTH + x') = (y =? y') && (x =? x').
Proof.
  unfold VGA_WIDTH. intros. destruct (Z.eqb_spec y y') as [->|], (Z.eqb_spec x x') as [->|]; cbn [andb]; apply Z.eqb_eq || apply Z.eqb_neq; lia.
Qed.
Lemma row_index y x y' : 0 ≤ x < VGA_WIDTH → (y' * VGA_WIDTH <=? y * VGA_WIDTH + x) && (y * VGA_WIDTH + x <? y' * VGA_WIDTH + VGA_WIDTH) = (y =? y').
Proof.
  unfold VGA_WIDTH. intros. destruct (Z.eqb_spec y y') as [->|].
  - rewrite (proj2 (Z.leb_le _ _)), (proj2 (Z.ltb_lt _ _)) by lia. done.
  - destruct (Z.leb_spec (y' * 80) (y * 80 + x)), (Z.ltb_spec (y * 80 + x) (y' * 80 + 80)); cbn; lia.
Qed.
Lemma shows_cursor g t : shows g t → shows g (update_cursor t).
Proof. by intros []. Qed.
Lemma shows_put g t c : shows g t → shows (page_put (colored (color t) c) g) (put_cell (row t * VGA_WIDTH + column t) (entry c t) t).
Proof.
  intros [A B C D E]. split; try done. intros y x Hy Hx. rewrite put_cell_at, cell_index by done. cbn. rewrite E, C, D by done.
  replace (top g + y =? top g + row t) with (y =? row t) by (destruct (Z.eqb_spec y (row t)), (Z.eqb_spec (top g + y) (top g + row t)); lia). done.
Qed.
Lemma shows_newline g t : 0 ≤ row t < TEXT_HEIGHT → page_row g = top g + row t →
  (∀ y x, 0 ≤ y < TEXT_HEIGHT → 0 ≤ x < VGA_WIDTH → aget (screen t) (y * VGA_WIDTH + x) = cells g (top g + y) x) →
  shows (page_newline (color t) g) (advance_row t).
Proof.
  intros A C E. unfold advance_row, page_newline. cbn [row set_row set_column]. rewrite C.
  replace (top g + row t + 1 <? top g + TEXT_HEIGHT) with (row t + 1 <? TEXT_HEIGHT) by (destruct (Z.ltb_spec (row t + 1) TEXT_HEIGHT), (Z.ltb_spec (top g + row t + 1) (top g + TEXT_HEIGHT)); lia).
  destruct (Z.ltb_spec (row t + 1) TEXT_HEIGHT); [split; cbn; try lia; [done|exact E]|]. set (t1 := set_row _ (set_column 0 t)).
  pose proof (scroll_painted t1) as S. revert S. generalize (for_range 1 TEXT_HEIGHT (λ y t, for_range 0 VGA_WIDTH (λ x t, put_cell ((y - 1) * VGA_WIDTH + x) (aget (screen t) (y * VGA_WIDTH + x)) t) t) t1).
  intros u S. set (u1 := set_row (TEXT_HEIGHT - 1) u). pose proof (clear_row_painted (TEXT_HEIGHT - 1) u1) as R. revert R. generalize (clear_row (TEXT_HEIGHT - 1) u1). intros v R.
  destruct S as [S1 S2 S3 S4], R as [R1 R2 R3 R4]. cbn in S1, S2, S3, R1, R2, R3. split.
  1-4: rewrite ?R1, ?R2, ?S2. 1-4: cbn. 1-4: unfold TEXT_HEIGHT, VGA_HEIGHT, VGA_WIDTH in *; lia.
  intros y x Hy Hx. rewrite R4, row_index by done. cbn. unfold entry. cbn. rewrite S3. replace (top g + 1 + y =? top g + row t + 1) with (y =? TEXT_HEIGHT - 1).
  2: { unfold TEXT_HEIGHT, VGA_HEIGHT in *. destruct (Z.eqb_spec y 23), (Z.eqb_spec (top g + 1 + y) (top g + row t + 1)); lia. }
  destruct (Z.eqb_spec y (TEXT_HEIGHT - 1)); [done|]. rewrite S4. unfold TEXT_HEIGHT, VGA_HEIGHT, VGA_WIDTH in *.
  rewrite (proj2 (Z.leb_le _ _)), (proj2 (Z.ltb_lt _ _)) by lia. cbn [andb]. cbn. replace (y * 80 + x + 80) with ((y + 1) * 80 + x) by lia. rewrite E by lia. f_equal. lia.
Qed.
Lemma painted_spares lo hi f t u : painted lo hi f t u → 0 ≤ lo → hi ≤ TEXT_HEIGHT * VGA_WIDTH → spares t u.
Proof.
  intros [_ _ C D] Hl Hh. split; [done|]. intros i Hi. rewrite D. destruct (Z.leb_spec lo i), (Z.ltb_spec i hi); cbn; lia || done.
Qed.
Lemma spares_put g t v u : shows g t → row u = row t → column u = column t → color u = color t → screen u = screen t → spares t (put_cell (row t * VGA_WIDTH + column t) v u).
Proof.
  intros [A B _ _ _] Er Ec Ek Es. split; [done|]. intros i Hi. rewrite put_cell_at, Es. unfold TEXT_HEIGHT, VGA_HEIGHT, VGA_WIDTH in *. destruct (Z.eqb_spec i (row t * 80 + column t)); lia || done.
Qed.
Lemma spares_advance t : 0 ≤ row t < TEXT_HEIGHT → spares t (advance_row t).
Proof.
  intros A. unfold advance_row. cbv zeta. set (t1 := set_row _ (set_column 0 t)). assert (spares t t1) as S1 by by split. destruct (_ <? _); [done|].
  pose proof (scroll_painted t1) as S2. apply painted_spares in S2; [|done|done]. revert S2. cbn [row set_row]. clearbody t1.
  match goal with |- spares t1 ?x → _ => generalize x end. intros u S2. set (u1 := set_row (TEXT_HEIGHT - 1) u).
  pose proof (clear_row_painted (TEXT_HEIGHT - 1) u1) as S4. apply painted_spares in S4; [|done|done].
  etransitivity; [exact S1|]. etransitivity; [exact S2|]. transitivity u1; [by split|exact S4].
Qed.
Lemma shows_plain g t c : shows g t → shows (page_plain (color t) c g) (put_plain c t) ∧ spares t (put_plain c t).
Proof.
  intros S. pose proof S as [A B C D E]. unfold put_plain, page_plain. cbv zeta.
  enough (∀ h u, shows h u ∧ spares t u → shows h (update_cursor u) ∧ spares t (update_cursor u)) as K; [|intros h u [[] []]; done].
  destruct (c =? 10); [apply K; split; [by apply shows_newline|by apply spares_advance]|]. destruct (c =? 13); [apply K; split; [by split; cbn; try done; rewrite ?C|by split]|]. rewrite D.
  destruct (c =? 8).
  - replace (page_row g >? top g) with (row t >? 0) by (rewrite !Z.gtb_ltb, C; destruct (Z.ltb_spec 0 (row t)), (Z.ltb_spec (top g) (top g + row t)); lia).
    set (h := if column t >? 0 then _ else _). set (u := if column t >? 0 then _ else _). assert (shows h u ∧ spares t u) as [Sh Su].
    { subst h u. rewrite !Z.gtb_ltb. destruct (Z.ltb_spec 0 (column t)); [split; [split; cbn; try done; lia|by split]|].
      destruct (Z.ltb_spec 0 (row t)); [split; [split; cbn; try done; unfold VGA_WIDTH; lia|by split]|by split]. }
    apply K. split; [rewrite <- (spares_color _ _ Su); by apply shows_put|]. etransitivity; [exact Su|by eapply spares_put].
  - cbn [page_column page_put]. pose proof (shows_put g t c S) as [A' B' C' D' E']. cbn [column set_column put_cell set_screen].
    rewrite D. destruct (Z.eqb_spec (column t + 1) VGA_WIDTH).
    + set (u := set_column (column t + 1) (put_cell (row t * VGA_WIDTH + column t) (entry c t) t)). assert (spares t u) as Su by (transitivity (put_cell (row t * VGA_WIDTH + column t) (entry c t) t); [by eapply spares_put|by split]).
      apply K. split; [exact (shows_newline (page_put (colored (color t) c) g) u A' C' E')|]. etransitivity; [exact Su|by apply spares_advance].
    + apply K. split; [split; cbn; try done; try lia|]. transitivity (put_cell (row t * VGA_WIDTH + column t) (entry c t) t); [by eapply spares_put|by split].
Qed.
Lemma shows_putchar g t c : shows g t → shows (page_putchar (color t) c g) (terminal_putchar c t) ∧ spares t (terminal_putchar c t).
Proof.
  intros S. unfold terminal_putchar, page_putchar. destruct (c =? 9); [|by apply shows_plain]. rewrite (sh_page_column _ _ S).
  enough (∀ n, shows (Nat.iter n (page_plain (color t) 32) g) (for_loop n 0 (λ _, put_plain 32) t) ∧ spares t (for_loop n 0 (λ _, put_plain 32) t)) as K.
  { unfold for_range. rewrite Z.sub_0_r. destruct (K (Z.to_nat (4 - column t mod 4))) as [[] []]. split; by split. }
  induction n as [|n [IH IS]]; [by split|]. rewrite for_loop_snoc. cbn [Nat.iter nat_rect]. rewrite <- (spares_color _ _ IS) at 1. split; [by apply shows_plain|].
  etransitivity; [exact IS|]. by eapply shows_plain.
Qed.
Lemma shows_write g t text : shows g t → shows (page_write (color t) text g) (terminal_write text t) ∧ spares t (terminal_write text t).
Proof.
  revert g t. induction text as [|c text IH]; intros g t S; [by split|]. apply (shows_putchar _ _ c) in S as [S1 S2]. apply IH in S1 as [S3 S4].
  rewrite (spares_color _ _ S2) in S3. split; [exact S3|]. etransitivity; [exact S2|exact S4].
Qed.
Lemma painted_join lo mid hi f t u v : painted lo mid f t u → painted mid hi f u v → lo ≤ mid ≤ hi → painted lo hi f t v.
Proof.
  intros [A B C D] [A' B' C' D'] H. split; try congruence. intros i. rewrite D', D. destruct (Z.leb_spec mid i), (Z.ltb_spec i hi), (Z.leb_spec lo i), (Z.ltb_spec i mid); cbn; lia || done.
Qed.
Lemma clear_painted t : painted 0 (TEXT_HEIGHT * VGA_WIDTH) (λ _, entry 32 t) t (for_range 0 TEXT_HEIGHT clear_row t).
Proof.
  apply (for_range_inv (λ y u, painted 0 (y * VGA_WIDTH) (λ _, entry 32 t) t u)); [done|by apply painted_none|]. intros y u Hy H.
  replace ((y + 1) * VGA_WIDTH) with (y * VGA_WIDTH + VGA_WIDTH) by lia. eapply painted_join; [exact H| |unfold VGA_WIDTH; lia].
  pose proof (clear_row_painted y u) as R. unfold entry in *. by rewrite (pt_color _ _ _ _ _ H) in R.
Qed.
Lemma shows_clear t : shows (blank_page (color t)) (terminal_clear outb t) ∧ spares t (terminal_clear outb t).
Proof.
  unfold terminal_clear. set (t1 := set_column 0 (set_row 0 t)). pose proof (clear_painted t1) as H. pose proof (painted_spares _ _ _ _ _ H ltac:(done) ltac:(done)) as [S1 S2].
  revert H S1 S2. generalize (for_range 0 TEXT_HEIGHT clear_row t1). intros u [A B C D] S1 S2. cbn in A, B, C. split; [|by split]. split; cbn; rewrite ?A, ?B; try done.
  intros y x Hy Hx. rewrite D. unfold TEXT_HEIGHT, VGA_HEIGHT, VGA_WIDTH in *. rewrite (proj2 (Z.leb_le _ _)), (proj2 (Z.ltb_lt _ _)) by lia. done.
Qed.
Lemma shows_status g t text : shows g t → shows g (terminal_status text t).
Proof.
  intros S. unfold terminal_status. apply (for_range_pres (λ u, shows g u)); [done|]. intros x u Hx [A B C D E]. split; try done. intros y x' Hy Hx'. rewrite put_cell_at.
  unfold TEXT_HEIGHT, VGA_HEIGHT, VGA_WIDTH in *. rewrite (proj2 (Z.eqb_neq _ _)) by lia. by apply E.
Qed.
(** Rows that left the window keep what they held. *)
Lemma history_plain k c g : top g ≤ page_row g → let h := page_plain k c g in
  top g ≤ top h ≤ page_row h ∧ ∀ r x, r < top g → cells h r x = cells g r x.
Proof.
  intros H. unfold page_plain, page_newline. cbv zeta. rewrite !Z.gtb_ltb. destruct (c =? 10), (c =? 13), (c =? 8), (Z.ltb_spec 0 (page_column g)), (Z.ltb_spec (top g) (page_row g));
    cbn [page_put page_at page_row page_column top cells];
    repeat first [case_match | lia | progress cbn [page_put page_at page_row page_column top cells]]; split; try lia; intros r x Hr; cbn;
    repeat match goal with |- context [(?a =? ?b) && _] => rewrite (proj2 (Z.eqb_neq a b)) by lia; cbn [andb] | |- context [?a =? ?b] => rewrite (proj2 (Z.eqb_neq a b)) by lia end; done.
Qed.
Lemma history_write k text g : top g ≤ page_row g → let h := page_write k text g in
  top g ≤ top h ≤ page_row h ∧ ∀ r x, r < top g → cells h r x = cells g r x.
Proof.
  assert (∀ c g, top g ≤ page_row g → let h := page_putchar k c g in top g ≤ top h ≤ page_row h ∧ ∀ r x, r < top g → cells h r x = cells g r x) as K.
  { intros c h H. unfold page_putchar. destruct (c =? 9); [|by apply history_plain]. generalize (Z.to_nat (4 - page_column h mod 4)). induction n as [|n IH]; [by split; [cbn; lia|]|].
    cbn [Nat.iter nat_rect]. cbv zeta in *. destruct IH as [I1 I2]. destruct (history_plain k 32 (Nat.iter n (page_plain k 32) h)) as [J1 J2]; [lia|]. split; [unfold Nat.iter in *; lia|].
    intros r x Hr. etransitivity; [apply J2; lia|by apply I2]. }
  revert g. induction text as [|c text IH]; intros g H; [split; [cbn; lia|done]|]. destruct (K c g H) as [I1 I2]. destruct (IH (page_putchar k c g)) as [J1 J2]; [lia|]. cbv zeta in *.
  change (page_write k (c :: text) g) with (page_write k text (page_putchar k c g)). split; [lia|]. intros r x Hr. rewrite J2 by lia. by apply I2.
Qed.
End TerminalProofs.

(** C27: the console is a window on an unbounded page. Clearing shows a blank page;
    writing any text, with its newlines, returns, backspaces and tabs, shows what the page
    then holds, with the cursor inside the 80 by 24 console; the window only ever moves
    down and rows that left it are never rewritten; the status line changes neither the
    console nor its cursor, and console output changes neither the status line nor the
    colour nor any memory beside the console. *)
Theorem terminal_window (P : Type) (outb : Z → Z → P → P) (g : page) (t : terminal P) (text : list Z) :
  shows (blank_page (color t)) (terminal_clear outb t) ∧ spares t (terminal_clear outb t) ∧
  (shows g t →
   let h := page_write (color t) text g in
   shows h (terminal_write outb text t) ∧ spares t (terminal_write outb text t) ∧ shows g (terminal_status text t) ∧
   top g ≤ top h ∧ ∀ r x, r < top g → cells h r x = cells g r x).
Proof.
  split; [apply shows_clear|]. split; [apply shows_clear|]. intros S. cbv zeta. destruct (shows_write outb g t text S) as [A B]. split_and!; [done..|by apply shows_status| |].
  all: destruct (history_write (color t) text g) as [H1 H2]; [rewrite (sh_page_row _ _ S); pose proof (sh_row _ _ S); lia|]; lia || done.
Qed.

(** Twenty-five lines: the first has scrolled out. *)
Definition dark_terminal : terminal unit := terminal_clear (λ _ _ p, p) (Terminal ∅ 3 5 7 ()).
Definition long_text : list Z := concat (replicate 25 [104; 105; 10]).
Lemma terminal_window_witness :
  shows (page_write 7 long_text (blank_page 7)) (terminal_write (λ _ _ p, p) long_text dark_terminal) ∧ top (page_write 7 long_text (blank_page 7)) = 2 ∧
  aget (screen (terminal_write (λ _ _ p, p) long_text dark_terminal)) (22 * VGA_WIDTH) = colored 7 104.
Proof.
  split; [|split; by vm_compute]. apply (terminal_window unit (λ _ _ p, p) (blank_page 7) dark_terminal long_text). apply (shows_clear (λ _ _ p, p) (Terminal ∅ 3 5 7 ())).
Defined.
