(* ===== verification/SnakeModel.v ===== *)
(** * The game model (kernel/recovery/snake_model.c)

    The snake is a ring of cells with the newest at [head]. The rules are shown to be
    those of a list of cells that gains a head and, unless it eats, loses its tail. *)

From S2P Require Import Prelude.

Definition SNAKE_WIDTH : Z := 40.
Definition SNAKE_HEIGHT : Z := 16.
Definition SNAKE_CELLS : Z := SNAKE_WIDTH * SNAKE_HEIGHT.
Definition SNAKE_INITIAL_LENGTH : Z := 3.
Definition SNAKE_UP : Z := 0.
Definition SNAKE_RIGHT : Z := 1.
Definition SNAKE_DOWN : Z := 2.
Definition SNAKE_LEFT : Z := 3.
Inductive snake_event := SNAKE_MOVED | SNAKE_ATE | SNAKE_LOST | SNAKE_WON | SNAKE_STOPPED.
#[global] Instance snake_event_eq_dec : EqDecision snake_event.
Proof. solve_decision. Defined.
Record snake_cell := Cell { cell_x : Z; cell_y : Z }.
#[global] Instance snake_cell_eq_dec : EqDecision snake_cell.
Proof. solve_decision. Defined.
Definition no_cell : snake_cell := Cell 255 255.

Record snake_model := SnakeModel {
  body : gmap Z snake_cell; food : snake_cell; head : Z; length : Z; direction : Z; pending : Z; random : Z;
  turn_queued : bool; alive : bool; won : bool
}.
Implicit Types (m : snake_model) (c : snake_cell).
Notation len l := (Z.of_nat (Datatypes.length l)).
Definition body_at m (i : Z) : snake_cell := default (Cell 0 0) (body m !! i).

Definition snake_model_cell m (offset : Z) : snake_cell :=
  if offset >=? length m then no_cell else body_at m ((head m + SNAKE_CELLS - offset) mod SNAKE_CELLS).
Definition occupied m c (count : Z) : bool :=
  negb (all_range 0 count (λ i, negb (bool_decide (snake_model_cell m i = c)))).
Definition board_cell (index : Z) : snake_cell := Cell (wrap8 (index mod SNAKE_WIDTH)) (wrap8 (index / SNAKE_WIDTH)).
Definition set_food c (r : Z) m : snake_model :=
  SnakeModel (body m) c (head m) (length m) (direction m) (pending m) r (turn_queued m) (alive m) (won m).
Definition place_food m : snake_model :=
  let r := wrap32 (wrap32 (random m * 1664525) + 1013904223) in
  let start := r mod SNAKE_CELLS in
  match List.find (λ c, negb (occupied m c (length m))) ((λ i, board_cell ((start + i) mod SNAKE_CELLS)) <$> seqZ 0 SNAKE_CELLS) with
  | Some c => set_food c r m
  | None => set_food (food m) r m
  end.

Definition initial_body : gmap Z snake_cell :=
  for_range 0 SNAKE_INITIAL_LENGTH (λ i b, <[i := Cell (wrap8 (SNAKE_WIDTH / 2 - 2 + i)) (SNAKE_HEIGHT / 2)]> b) ∅.
Definition snake_model_reset (seed : Z) : snake_model :=
  place_food (SnakeModel initial_body (Cell 0 0) (SNAKE_INITIAL_LENGTH - 1) SNAKE_INITIAL_LENGTH SNAKE_RIGHT SNAKE_RIGHT seed false true false).

Definition snake_model_turn (d : Z) m : bool * snake_model :=
  if negb (alive m) || turn_queued m || (d >? SNAKE_LEFT) || (d =? direction m) || ((d + 2) mod 4 =? direction m) then (false, m) else
  (true, SnakeModel (body m) (food m) (head m) (length m) (direction m) d (random m) true (alive m) (won m)).

(** One cell further in a direction; off the board is negative or too large. *)
Definition ahead (d : Z) c : Z * Z :=
  if d =? SNAKE_UP then (cell_x c, cell_y c - 1) else
  if d =? SNAKE_RIGHT then (cell_x c + 1, cell_y c) else
  if d =? SNAKE_DOWN then (cell_x c, cell_y c + 1) else
  if d =? SNAKE_LEFT then (cell_x c - 1, cell_y c) else (cell_x c, cell_y c).
Definition die m : snake_model :=
  SnakeModel (body m) (food m) (head m) (length m) (direction m) (pending m) (random m) (turn_queued m) false (won m).
Definition take_turn m : snake_model :=
  SnakeModel (body m) (food m) (head m) (length m) (pending m) (pending m) (random m) false (alive m) (won m).
Definition push_head c m : snake_model :=
  let h := (head m + 1) mod SNAKE_CELLS in
  SnakeModel (<[h := c]> (body m)) (food m) h (length m) (direction m) (pending m) (random m) (turn_queued m) (alive m) (won m).
Definition grow m : snake_model :=
  SnakeModel (body m) (food m) (head m) (wrap16 (length m + 1)) (direction m) (pending m) (random m) (turn_queued m) (alive m) (won m).
Definition win m : snake_model :=
  SnakeModel (body m) no_cell (head m) (length m) (direction m) (pending m) (random m) (turn_queued m) false true.
Definition snake_model_step m : snake_event * snake_model :=
  if negb (alive m) then (SNAKE_STOPPED, m) else
  let h := snake_model_cell m 0 in
  let m := take_turn m in
  let '(x, y) := ahead (direction m) h in
  if (x <? 0) || (x >=? SNAKE_WIDTH) || (y <? 0) || (y >=? SNAKE_HEIGHT) then (SNAKE_LOST, die m) else
  let next := Cell (wrap8 x) (wrap8 y) in
  let eating := bool_decide (next = food m) in
  if occupied m next (length m - (if eating then 0 else 1)) then (SNAKE_LOST, die m) else
  let m := push_head next m in
  if negb eating then (SNAKE_MOVED, m) else
  let m := grow m in
  if length m =? SNAKE_CELLS then (SNAKE_WON, win m) else (SNAKE_ATE, place_food m).
Definition snake_model_score m : Z := wrap32 (length m - SNAKE_INITIAL_LENGTH).

(** ** The rules on a list of cells, the head first *)

Definition cells m : list snake_cell := snake_model_cell m <$> seqZ 0 (length m).
Definition on_board c : Prop := 0 ≤ cell_x c < SNAKE_WIDTH ∧ 0 ≤ cell_y c < SNAKE_HEIGHT.
Record snake_ok m : Prop := {
  ok_head : 0 ≤ head m < SNAKE_CELLS;
  ok_length : SNAKE_INITIAL_LENGTH ≤ length m ≤ SNAKE_CELLS;
  ok_board : Forall on_board (cells m);
  ok_distinct : NoDup (cells m);
  ok_food : won m = false → on_board (food m) ∧ food m ∉ cells m;
  ok_won : won m = true ↔ length m = SNAKE_CELLS;
  ok_stopped : won m = true → alive m = false;
  ok_turns : 0 ≤ direction m ≤ SNAKE_LEFT ∧ 0 ≤ pending m ≤ SNAKE_LEFT
}.
(** The cell the next step enters. *)
Definition next_cell m : snake_cell := let '(x, y) := ahead (pending m) (snake_model_cell m 0) in Cell x y.

Lemma cells_length m : 0 ≤ length m → len (cells m) = length m.
Proof. intros. unfold cells. rewrite length_fmap, length_seqZ. lia. Qed.
Lemma cells_lookup m (k : nat) : Z.of_nat k < length m → cells m !! k = Some (snake_model_cell m (Z.of_nat k)).
Proof. intros H. unfold cells. rewrite list_lookup_fmap, lookup_seqZ_lt by lia. done. Qed.
Lemma occupied_spec m c n : 0 ≤ n ≤ length m → occupied m c n = true ↔ c ∈ take (Z.to_nat n) (cells m).
Proof.
  intros Hn. unfold occupied. rewrite negb_true_iff, <- not_true_iff_false, all_range_true, list_elem_of_lookup. split.
  - intros H. destruct (decide (c ∈ take (Z.to_nat n) (cells m))) as [Hc|Hc]; [by apply list_elem_of_lookup in Hc|]. destruct H. intros i Hi.
    apply negb_true_iff, bool_decide_eq_false. intros E. apply Hc, list_elem_of_lookup. exists (Z.to_nat i).
    rewrite lookup_take_lt, cells_lookup by lia. rewrite Z2Nat.id by lia. by rewrite E.
  - intros (k & Hk) H. assert (k < Z.to_nat n)%nat as Lk. { apply lookup_lt_Some in Hk. rewrite length_take in Hk. lia. }
    rewrite lookup_take_lt, cells_lookup in Hk by lia. injection Hk as <-. specialize (H (Z.of_nat k) ltac:(lia)). by rewrite bool_decide_eq_true_2 in H.
Qed.

Section Ring.
Context (m : snake_model) (c : snake_cell).
Hypothesis (Hh : 0 ≤ head m < SNAKE_CELLS) (Hl : 0 < length m ≤ SNAKE_CELLS).
Lemma ring_head b : body b = body (push_head c m) → head b = head (push_head c m) → 0 < length b → snake_model_cell b 0 = c.
Proof.
  intros Eb Eh El. unfold snake_model_cell, body_at. destruct (Z.geb_spec 0 (length b)); [lia|]. rewrite Eb, Eh. cbn. unfold SNAKE_CELLS, SNAKE_WIDTH, SNAKE_HEIGHT in *.
  replace (((head m + 1) mod (40 * 16) + 40 * 16 - 0) mod (40 * 16)) with ((head m + 1) mod (40 * 16)) by (Z.to_euclidean_division_equations; lia).
  by rewrite lookup_insert_eq.
Qed.
Lemma ring_tail b i : body b = body (push_head c m) → head b = head (push_head c m) → 0 ≤ i < SNAKE_CELLS - 1 → i < length m → i + 1 < length b →
  snake_model_cell b (i + 1) = snake_model_cell m i.
Proof.
  intros Eb Eh Hi Hm El. unfold snake_model_cell, body_at. destruct (Z.geb_spec (i + 1) (length b)); [lia|]. destruct (Z.geb_spec i (length m)); [lia|]. rewrite Eb, Eh. cbn.
  unfold SNAKE_CELLS, SNAKE_WIDTH, SNAKE_HEIGHT in *. change (40 * 16) with 640 in *.
  replace (((head m + 1) mod 640 + 640 - (i + 1)) mod 640) with ((head m + 640 - i) mod 640) by (Z.to_euclidean_division_equations; lia).
  rewrite lookup_insert_ne; [done|]. intros E. Z.to_euclidean_division_equations; lia.
Qed.
Lemma push_cells : cells (push_head c m) = c :: take (Z.to_nat (length m - 1)) (cells m).
Proof.
  apply list_eq_same_length with (Z.to_nat (length m)).
  - cbn. rewrite length_take. pose proof (cells_length m ltac:(lia)). lia.
  - pose proof (cells_length (push_head c m) ltac:(cbn; lia)). cbn in *. lia.
  - intros [|k] x y Hk; rewrite cells_lookup by (cbn; lia); rewrite lookup_cons; intros [= <-].
    + intros [= <-]. apply ring_head; [done..|]. cbn. lia.
    + rewrite lookup_take_lt, cells_lookup by lia. intros [= <-]. replace (Z.of_nat (S k)) with (Z.of_nat k + 1) by lia. apply ring_tail; cbn; lia || done.
Qed.
Lemma grow_cells : length m < SNAKE_CELLS → cells (grow (push_head c m)) = c :: cells m ∧ length (grow (push_head c m)) = length m + 1.
Proof.
  intros Lt. assert (length (grow (push_head c m)) = length m + 1) as L.
  { cbn. unfold wrap16. rewrite Z.mod_small; [done|]. unfold SNAKE_CELLS, SNAKE_WIDTH, SNAKE_HEIGHT in *. lia. }
  split; [|done]. apply list_eq_same_length with (Z.to_nat (length m + 1)).
  - cbn. pose proof (cells_length m ltac:(lia)). lia.
  - pose proof (cells_length (grow (push_head c m)) ltac:(lia)). lia.
  - intros [|k] x y Hk; rewrite cells_lookup by lia; rewrite lookup_cons; intros [= <-].
    + intros [= <-]. apply ring_head; [done..|]. lia.
    + rewrite cells_lookup by lia. intros [= <-]. replace (Z.of_nat (S k)) with (Z.of_nat k + 1) by lia. apply ring_tail; lia || done.
Qed.
End Ring.

(** ** Food *)

Lemma board_cell_on i : 0 ≤ i < SNAKE_CELLS → on_board (board_cell i) ∧ cell_y (board_cell i) * SNAKE_WIDTH + cell_x (board_cell i) = i.
Proof.
  unfold on_board, board_cell, wrap8, SNAKE_CELLS, SNAKE_WIDTH, SNAKE_HEIGHT. cbn [cell_x cell_y]. intros H. change (40 * 16) with 640 in H. Z.to_euclidean_division_equations; lia.
Qed.
Lemma board_cell_of c : on_board c → 0 ≤ cell_y c * SNAKE_WIDTH + cell_x c < SNAKE_CELLS ∧ board_cell (cell_y c * SNAKE_WIDTH + cell_x c) = c.
Proof.
  destruct c as [x y]. unfold on_board, board_cell, wrap8, SNAKE_CELLS, SNAKE_WIDTH, SNAKE_HEIGHT. cbn [cell_x cell_y]. intros H. split; [lia|]. f_equal; Z.to_euclidean_division_equations; lia.
Qed.
(** The search visits the whole board, wherever it starts. *)
Lemma board_all r c : c ∈ ((λ i, board_cell ((r mod SNAKE_CELLS + i) mod SNAKE_CELLS)) <$> seqZ 0 SNAKE_CELLS) ↔ on_board c.
Proof.
  rewrite list_elem_of_fmap. split.
  - intros (i & -> & _). apply board_cell_on. by apply Z.mod_pos_bound.
  - intros H. apply board_cell_of in H as [B E]. exists ((cell_y c * SNAKE_WIDTH + cell_x c - r) mod SNAKE_CELLS). rewrite <- E at 1. split.
    + f_equal. rewrite <- Zplus_mod. replace (r + (cell_y c * SNAKE_WIDTH + cell_x c - r)) with (cell_y c * SNAKE_WIDTH + cell_x c) by lia. by rewrite Z.mod_small.
    + apply elem_of_seqZ. pose proof (Z.mod_pos_bound (cell_y c * SNAKE_WIDTH + cell_x c - r) SNAKE_CELLS). assert (0 < SNAKE_CELLS) by done. lia.
Qed.
Lemma board_crowded (l : list snake_cell) : (∀ c, on_board c → c ∈ l) → SNAKE_CELLS ≤ len l.
Proof.
  intros H. assert (NoDup (board_cell <$> seqZ 0 SNAKE_CELLS)) as D.
  { apply NoDup_fmap_2_strong; [|apply NoDup_seqZ]. intros i j Hi%elem_of_seqZ Hj%elem_of_seqZ E. destruct (board_cell_on i) as [_ Ei], (board_cell_on j) as [_ Ej]; [lia..|]. congruence. }
  apply NoDup_submseteq with (k := l) in D.
  - apply submseteq_length in D. rewrite length_fmap, length_seqZ in D. lia.
  - intros c (i & -> & Hi%elem_of_seqZ)%list_elem_of_fmap. apply H, board_cell_on. lia.
Qed.
Lemma place_food_ok m : 0 ≤ length m < SNAKE_CELLS → on_board (food (place_food m)) ∧ food (place_food m) ∉ cells m.
Proof.
  intros Hl. assert (∀ c, occupied m c (length m) = true ↔ c ∈ cells m) as O.
  { intros c. rewrite occupied_spec by lia. rewrite take_ge; [done|]. pose proof (cells_length m ltac:(lia)). lia. }
  unfold place_food. set (r := wrap32 _). destruct (List.find _ _) as [c|] eqn:E.
  - apply List.find_some in E as [E1%list_elem_of_In%board_all E2]. split; [exact E1|]. cbn. rewrite <- O. by destruct (occupied m c (length m)).
  - exfalso. pose proof (board_crowded (cells m)) as C. rewrite cells_length in C by lia. assert (SNAKE_CELLS ≤ length m); [|lia]. apply C. intros c Hc.
    apply (board_all r) in Hc. apply list_elem_of_In in Hc. pose proof (List.find_none _ _ E c Hc) as F. apply O. by apply negb_false_iff in F.
Qed.
Lemma place_food_frame m : let p := place_food m in
  body p = body m ∧ head p = head m ∧ length p = length m ∧ direction p = direction m ∧ pending p = pending m ∧ turn_queued p = turn_queued m ∧ alive p = alive m ∧ won p = won m.
Proof. unfold place_food. by destruct (List.find _ _). Qed.
Lemma cells_same m m' : body m' = body m → head m' = head m → length m' = length m → cells m' = cells m.
Proof. intros Eb Eh El. unfold cells, snake_model_cell, body_at. by rewrite Eb, Eh, El. Qed.
Lemma place_food_cells m : cells (place_food m) = cells m.
Proof. destruct (place_food_frame m) as (? & ? & ? & _). by apply cells_same. Qed.

(** ** The game *)

Lemma reset_ok seed : snake_ok (snake_model_reset seed) ∧ cells (snake_model_reset seed) = [Cell 20 8; Cell 19 8; Cell 18 8] ∧ alive (snake_model_reset seed) = true.
Proof.
  unfold snake_model_reset. set (m := SnakeModel _ _ _ _ _ _ _ _ _ _). assert (cells m = [Cell 20 8; Cell 19 8; Cell 18 8]) as C by by vm_compute.
  destruct (place_food_frame m) as (Fb & Fh & Fl & Fd & Fp & Ft & Fa & Fw). pose proof (place_food_ok m ltac:(done)) as [N1 N2]. rewrite <- place_food_cells in C. split; [|split; [done|by rewrite Fa]].
  split; rewrite ?Fh, ?Fl, ?Fd, ?Fp, ?Fa, ?Fw, ?C; try done.
  - unfold on_board, SNAKE_WIDTH, SNAKE_HEIGHT. repeat (apply Forall_cons_2; [cbn; lia|]). by apply Forall_nil.
  - by apply (bool_decide_unpack _).
Qed.
Lemma turn_ok d m : 0 ≤ d → snake_ok m → snake_ok (snd (snake_model_turn d m)) ∧ cells (snd (snake_model_turn d m)) = cells m.
Proof.
  intros Hd S. unfold snake_model_turn. rewrite Z.gtb_ltb. destruct (negb (alive m) || turn_queued m || (SNAKE_LEFT <? d) || _ || _) eqn:G; [done|].
  repeat rewrite orb_false_iff in G. split; [|done]. destruct S as [A B C D E F J [I1 I2]]. split; try done. cbn. split; [done|lia].
Qed.
Lemma next_board m : snake_ok m → let '(x, y) := ahead (pending m) (snake_model_cell m 0) in
  ((x <? 0) || (x >=? SNAKE_WIDTH) || (y <? 0) || (y >=? SNAKE_HEIGHT) = true ∧ ¬ on_board (next_cell m)) ∨
  ((x <? 0) || (x >=? SNAKE_WIDTH) || (y <? 0) || (y >=? SNAKE_HEIGHT) = false ∧ on_board (next_cell m) ∧ Cell (wrap8 x) (wrap8 y) = next_cell m).
Proof.
  intros S. unfold next_cell. destruct (ahead _ _) as [x y]. unfold on_board. cbn [cell_x cell_y]. rewrite !Z.geb_leb. unfold SNAKE_WIDTH, SNAKE_HEIGHT, wrap8.
  destruct (Z.ltb_spec x 0), (Z.leb_spec 40 x), (Z.ltb_spec y 0), (Z.leb_spec 16 y); cbn [orb]; try (left; split; [done|lia]).
  right. split; [done|]. split; [lia|]. f_equal; apply Z.mod_small; lia.
Qed.
Lemma dead_ok m m' : snake_ok m → alive m = true → m' = die (take_turn m) → snake_ok m' ∧ alive m' = false ∧ cells m' = cells m.
Proof.
  intros S A ->. assert (cells (die (take_turn m)) = cells m) as C by by apply cells_same. split; [|split; [done|exact C]]. destruct S. split; rewrite ?C; try done. tauto.
Qed.
Lemma trunk_removelast m : 0 < length m → take (Z.to_nat (length m - 1)) (cells m) = removelast (cells m).
Proof.
  intros H. rewrite removelast_firstn_len. pose proof (cells_length m ltac:(lia)). replace (Nat.pred (Datatypes.length (cells m))) with (Z.to_nat (length m - 1)) by lia. done.
Qed.
Lemma moved_ok m c : snake_ok m → won m = false → on_board c → c ≠ food m → c ∉ removelast (cells m) →
  snake_ok (push_head c (take_turn m)) ∧ cells (push_head c (take_turn m)) = c :: removelast (cells m).
Proof.
  intros S W B N F. pose proof (ok_length _ S) as L. unfold SNAKE_INITIAL_LENGTH in L. assert (cells (push_head c (take_turn m)) = c :: removelast (cells m)) as C.
  { rewrite push_cells; [|apply S|cbn; lia]. f_equal. rewrite <- trunk_removelast by lia. done. }
  split; [|exact C]. rewrite removelast_firstn_len in *. split; rewrite ?C.
  - cbn. apply Z.mod_pos_bound. done.
  - apply S.
  - constructor; [done|]. apply Forall_take, S.
  - constructor; [done|]. pose proof (ok_distinct _ S) as Dm. rewrite <- (take_drop (Nat.pred (Datatypes.length (cells m)))) in Dm. by apply list.NoDup_app in Dm as [Dm _].
  - intros _. destruct (ok_food _ S W) as [Fb Fn]. split; [exact Fb|]. cbn. rewrite not_elem_of_cons. split; [congruence|]. intros I. apply Fn. by eapply subseteq_take.
  - apply S.
  - apply S.
  - destruct (ok_turns _ S). done.
Qed.
Lemma grown_cells m : snake_ok m → won m = false → let g := grow (push_head (food m) (take_turn m)) in
  cells g = food m :: cells m ∧ length g = length m + 1 ∧ length m < SNAKE_CELLS ∧ Forall on_board (cells g) ∧ NoDup (cells g).
Proof.
  intros S W. cbv zeta. pose proof (ok_length _ S) as L. unfold SNAKE_INITIAL_LENGTH in L. assert (length m ≠ SNAKE_CELLS) as N by (rewrite <- (ok_won _ S); congruence).
  destruct (grow_cells (take_turn m) (food m)) as [C G]; [apply S|cbn; lia|cbn; lia|]. change (cells (take_turn m)) with (cells m) in C. destruct (ok_food _ S W) as [Fb Fn].
  rewrite C. split_and!; [done|exact G|lia| |]; constructor; done || apply S.
Qed.
Lemma ate_ok m : snake_ok m → won m = false → let g := grow (push_head (food m) (take_turn m)) in length g ≠ SNAKE_CELLS → snake_ok (place_food g).
Proof.
  intros S W g N. destruct (grown_cells m S W) as (C & G & Lt & B & D). fold g in C, G, B, D. pose proof (ok_length _ S) as L. unfold SNAKE_INITIAL_LENGTH in L.
  destruct (place_food_ok g) as [P1 P2]; [lia|]. destruct (place_food_frame g) as (Fb & Fh & Fl & Fd & Fp & Ft & Fa & Fw). split; rewrite ?place_food_cells, ?Fh, ?Fl, ?Fd, ?Fp, ?Fa, ?Fw; try done.
  - cbn. apply Z.mod_pos_bound. done.
  - unfold SNAKE_INITIAL_LENGTH. lia.
  - split; [cbn; congruence|done].
  - cbn. congruence.
  - destruct (ok_turns _ S). done.
Qed.
Lemma won_ok m : snake_ok m → won m = false → let g := grow (push_head (food m) (take_turn m)) in length g = SNAKE_CELLS →
  snake_ok (win g) ∧ cells (win g) = food m :: cells m ∧ ∀ c, on_board c → c ∈ cells (win g).
Proof.
  intros S W g N. destruct (grown_cells m S W) as (C & G & Lt & B & D). fold g in C, G, B, D. assert (cells (win g) = cells g) as E by by apply cells_same. rewrite E. split_and!.
  - split; rewrite ?E; try done; cbn [win head length won alive direction pending].
    + cbn. apply Z.mod_pos_bound. done.
    + rewrite N. done.
    + destruct (ok_turns _ S). done.
  - exact C.
  - intros c Hc. destruct (decide (c ∈ cells g)) as [|Hn]; [done|]. exfalso. assert (SNAKE_CELLS ≤ len (cells g) - 1); [|rewrite cells_length in * by (rewrite N; done); lia].
    assert (NoDup (c :: cells g)) as D2 by by constructor. assert (c :: cells g ⊆+ board_cell <$> seqZ 0 SNAKE_CELLS) as Sub.
    { apply NoDup_submseteq; [done|]. intros x Hx. apply list_elem_of_fmap. assert (on_board x) as Bx by (apply elem_of_cons in Hx as [->|Hx]; [done|rewrite Forall_forall in B; by apply B, list_elem_of_In]).
      apply board_cell_of in Bx as [R <-]. eexists. split; [done|]. apply elem_of_seqZ. lia. }
    apply submseteq_length in Sub. rewrite length_fmap, length_seqZ in Sub. cbn in Sub. pose proof (cells_length g ltac:(rewrite N; done)). lia.
Qed.

Lemma score_bound m : snake_ok m → 0 ≤ snake_model_score m ≤ SNAKE_CELLS - SNAKE_INITIAL_LENGTH.
Proof.
  intros S. pose proof (ok_length _ S). unfold snake_model_score, wrap32. unfold SNAKE_INITIAL_LENGTH, SNAKE_CELLS, SNAKE_WIDTH, SNAKE_HEIGHT in *. rewrite Z.mod_small; lia.
Qed.

(** The outcome of a step by the rules. *)
Definition by_the_rules m (event : snake_event) (m' : snake_model) : Prop :=
  let next := next_cell m in let stays := if decide (next = food m) then cells m else removelast (cells m) in
  snake_ok m' ∧
  match event with
  | SNAKE_STOPPED => alive m = false ∧ m' = m
  | SNAKE_LOST => alive m = true ∧ alive m' = false ∧ cells m' = cells m ∧ (¬ on_board next ∨ next ∈ stays)
  | _ => alive m = true ∧ on_board next ∧ next ∉ stays ∧ cells m' = next :: stays ∧
         (event = SNAKE_MOVED ↔ next ≠ food m) ∧ (event = SNAKE_WON ↔ won m' = true) ∧
         (event = SNAKE_WON → ∀ c, on_board c → c ∈ cells m')
  end.
Lemma step_rules m : snake_ok m → let '(event, m') := snake_model_step m in by_the_rules m event m'.
Proof.
  intros S. unfold by_the_rules. unfold snake_model_step. destruct (alive m) eqn:A; cbn [negb]; [|done]. assert (won m = false) as W by (destruct (won m) eqn:E; [apply (ok_stopped _ S) in E; congruence|done]).
  pose proof (next_board m S) as N. cbn [direction take_turn]. pose proof (ok_length _ S) as L. unfold SNAKE_INITIAL_LENGTH in L.
  destruct (ahead (pending m) (snake_model_cell m 0)) as [x y]. destruct N as [[-> Off]|(-> & On & ->)].
  { destruct (dead_ok m _ S A eq_refl) as (? & ? & ?). split; [done|]. split_and!; try done. by left. }
  set (c := next_cell m) in *. cbn [food take_turn length].
  set (stays := if decide (c = food m) then cells m else removelast (cells m)).
  assert (occupied (take_turn m) c (length m - (if bool_decide (c = food m) then 0 else 1)) = true ↔ c ∈ stays) as O.
  { rewrite occupied_spec by (cbn; case_bool_decide; lia). change (cells (take_turn m)) with (cells m). subst stays. case_bool_decide; [rewrite decide_True by done|rewrite decide_False by done].
    - rewrite take_ge; [done|]. pose proof (cells_length m ltac:(lia)). lia.
    - by rewrite trunk_removelast by lia. }
  destruct (occupied _ _ _).
  { destruct (dead_ok m _ S A eq_refl) as (? & ? & ?). split; [done|]. split_and!; try done. right. by apply O. }
  assert (c ∉ stays) as Ns by (intros H; by apply O in H). clear O. destruct (decide (c = food m)) as [Ef|Nf]; [rewrite bool_decide_eq_true_2 by done|rewrite bool_decide_eq_false_2 by done]; cbn [negb].
  - rewrite Ef. destruct (Z.eqb_spec (length (grow (push_head (food m) (take_turn m)))) SNAKE_CELLS) as [E|E].
    + destruct (won_ok m S W E) as (O1 & O2 & O3). split; [done|]. subst stays. rewrite ?decide_True in * by done. rewrite Ef in *. split_and!; try done.
    + pose proof (ate_ok m S W E) as O1. destruct (grown_cells m S W) as (C & _). split; [done|]. rewrite place_food_cells, C.
      destruct (place_food_frame (grow (push_head (food m) (take_turn m)))) as (_ & _ & _ & _ & _ & _ & _ & Fw). rewrite Fw. cbn. subst stays. rewrite ?decide_True in * by done. rewrite Ef in *. split_and!; try done. split; congruence.
  - destruct (moved_ok m c S W On Nf Ns) as [O1 O2]. split; [done|]. split_and!; try done. split; [done|]. cbn. congruence.
Qed.
Lemma step_ok m : snake_ok m → let '(event, m') := snake_model_step m in snake_ok m' ∧ 0 ≤ snake_model_score m' ≤ SNAKE_CELLS - SNAKE_INITIAL_LENGTH.
Proof. intros S. apply step_rules in S. destruct (snake_model_step m) as [e m']. split; [apply S|apply score_bound, S]. Qed.

(** The ring buffer plays the game of a list of cells. A new game starts with three
    cells. Turns keep the snake. A step on a live snake loses exactly when the next cell is
    off the board or on the part of the body that stays, and leaves the body as it was;
    otherwise the body gains the next cell and, unless that was the food, loses its last
    one; a snake that fills the board wins. The cells stay on the board and distinct, and
    while the game is not won there is food on a free cell. *)
Theorem snake_plays_by_the_rules (m : snake_model) : snake_ok m →
  (∀ seed, snake_ok (snake_model_reset seed) ∧ cells (snake_model_reset seed) = [Cell 20 8; Cell 19 8; Cell 18 8]) ∧
  (∀ d, 0 ≤ d → snake_ok (snd (snake_model_turn d m)) ∧ cells (snd (snake_model_turn d m)) = cells m) ∧
  let '(event, m') := snake_model_step m in by_the_rules m event m'.
Proof.
  intros S. split; [intros seed; destruct (reset_ok seed) as (? & ? & _); done|]. split; [intros d Hd; by apply turn_ok|]. by apply step_rules.
Qed.
Lemma snake_plays_by_the_rules_witness : snake_ok (snake_model_reset 7) ∧ snake_ok (snd (snake_model_step (snake_model_reset 7))).
Proof.
  pose proof (reset_ok 7) as (S & _). split; [exact S|]. pose proof (snake_plays_by_the_rules _ S) as (_ & _ & H). destruct (snake_model_step (snake_model_reset 7)) as [e m']. exact (proj1 H).
Defined.
