(* ===== verification/Snake.v ===== *)
(** * Snake (kernel/recovery/snake.c)

    The game of SnakeModel.v on the console of Terminal.v, with the best score kept in
    a file of Fs.v and the game itself in a block of the kernel heap. The state of the
    whole machine as the code above the drivers sees it is [system]: the registry of
    Task.v with the memory and the files, the display, and the statics of the game. *)

From Stdlib Require Import String Ascii.
From S2P Require Import Prelude Block Path Fs Paging Task Scheduler Terminal SnakeModel.

Definition LEFT : Z := 19.
Definition TOP : Z := 4.
Definition SNAKE_STEP_TICKS : Z := TIMER_HZ * 3 / 20.
(** [sizeof(struct snake_game)]: 640 two-byte cells, the scalars of the model, the step time and the pause. *)
Definition SIZEOF_SNAKE_GAME : Z := 1312.

(** The characters of a string literal. *)
Definition chars (s : string) : list Z := (λ c, Z.of_N (N_of_ascii c)) <$> list_ascii_of_string s.
Definition newline : list Z := [10].
(** ["\x1b[2J\x1b[H"]: clear the screen, home. *)
Definition clear_sequence : list Z := 27 :: chars "[2J" ++ 27 :: chars "[H".

Record snake_game := SnakeGame { model : snake_model; last_step : Z; paused : bool }.
(** The statics: [snake_game] with the address of its block, [best], [stored_best]. *)
Record game := Game { playing : option (Z * snake_game); best : Z; stored_best : Z }.
Record system (K P : Type) := System { machine : kstate K; display : terminal P; arcade : game }.
Arguments System {K P} _ _ _.
Arguments machine {K P} _.
Arguments display {K P} _.
Arguments arcade {K P} _.

(** Digits from the last to the first, reversed in place afterwards. *)
Fixpoint digits (n : nat) (value : Z) : list Z :=
  match n with
  | O => []
  | S n => (48 + value mod 10) :: if value / 10 =? 0 then [] else digits n (value / 10)
  end.
(** Ten digits hold any 32-bit value. *)
Definition decimal (value : Z) : list Z := rev (digits 10 value).
(** The score in the bytes [data] read from the file, 0 for anything else. *)
Definition parse_best (data : list Z) : Z :=
  if (len data =? 0) || (len data >? 4) then 0 else
  let data := if nth (Z.to_nat (len data - 1)) data 0 =? 10 then take (Z.to_nat (len data - 1)) data else data in
  if len data =? 0 then 0 else
  if existsb (λ c, (c <? 48) || (c >? 57)) data then 0 else
  let value := foldl (λ v c, wrap32 (v * 10 + c - 48)) 0 data in
  if value <=? SNAKE_CELLS - SNAKE_INITIAL_LENGTH then value else 0.
Definition score_file : list Z := chars "/SNAKE.DAT".

(** Sequencing after an operation that may stop the machine. *)
#[local] Notation "'let!' p ':=' m 'in' k" := (match m with Some p => k | None => None end)
  (at level 200, p pattern, right associativity).

Section Snake.
Context {K P : Type} (ops : fs_operations K) (kmalloc : Z → paging → Z * paging) (kfree : Z → paging → bool * paging).
Context (inb : Z → P → Z * P) (outb : Z → Z → P → P).
Implicit Types (s : system K P) (a : game).

Definition set_machine (k : kstate K) s : system K P := System k (display s) (arcade s).
Definition set_display (d : terminal P) s : system K P := System (machine s) d (arcade s).
Definition set_arcade a s : system K P := System (machine s) (display s) a.
Definition upd_display (f : terminal P → terminal P) s : system K P := set_display (f (display s)) s.
Definition serial (text : list Z) s : system K P := upd_display (on_serial (serial_writestring inb outb text)) s.
Definition on_machine {A : Type} (f : kstate K → option (A * kstate K)) s : option (A * system K P) :=
  let! (r, k) := f (machine s) in Some (r, set_machine k s).
Definition on_disk {A : Type} (f : vfs K → A * vfs K) s : A * system K P :=
  let '(r, k) := on_files f (machine s) in (r, set_machine k s).

Definition print (text : list Z) s : system K P := serial text (upd_display (terminal_writestring outb text) s).

(** Bytes of [data] beyond what was read are not looked at. *)
Definition load_best s : Z * system K P :=
  let '((e, file), s) := on_disk (fs_open ops None (Some score_file) FS_READ true) s in
  if bool_decide (e ≠ FS_OK) then (0, s) else
  let '((read, data), s) := on_disk (fs_read ops file 0 (Some (replicate 5 0)) 5) s in
  let '(closed, s) := on_disk (fs_close ops file) s in
  if bool_decide (io_error read ≠ FS_OK) || bool_decide (closed ≠ FS_OK) then (0, s) else
  (parse_best (take (Z.to_nat (transferred read)) (default [] data)), s).
Definition save_best s : bool * system K P :=
  let a := arcade s in
  if best a <=? stored_best a then (true, s) else
  let text := decimal (best a) ++ newline in
  let '(e, s) := on_disk (fs_replace ops None (Some score_file) (Some text) (len text)) s in
  if bool_decide (e ≠ FS_OK) then (false, serial (chars "snake: could not save best score." ++ newline) s)
  else (true, set_arcade (Game (playing (arcade s)) (best (arcade s)) (best (arcade s))) s).

Definition cell (x y c color : Z) (d : terminal P) : terminal P := snd (terminal_put_at x y c color VGA_BLACK d).
(** Until the string or the row of 80 cells ends. *)
Fixpoint text (x y : Z) (l : list Z) (color : Z) (d : terminal P) : terminal P :=
  match l with
  | [] => d
  | c :: l => if x <? 80 then text (x + 1) y l color (cell x y c color d) else d
  end.
Definition board_x (x : Z) : Z := LEFT + 1 + x.
Definition board_y (y : Z) : Z := TOP + 1 + y.
Definition render_body (m : snake_model) (d : terminal P) : terminal P :=
  foldl (λ d i, let b := snake_model_cell m i in
    cell (board_x (cell_x b)) (board_y (cell_y b)) (if i =? 0 then 64 else 111)
      (if i =? 0 then (if alive m || won m then VGA_LIGHT_GREEN else VGA_LIGHT_RED) else VGA_GREEN) d)
    d (rev (seqZ 0 (length m))).
Definition message (g : snake_game) : list Z :=
  if won (model g) then chars "Island conquered! R to play again, Q to leave." else
  if negb (alive (model g)) then chars "Game over. R to restart, Q to return to the shell." else
  if paused g then chars "Paused. P resumes; R starts a new game." else chars "Eat * and stay clear of walls and your tail.".
Definition render_game (g : snake_game) (top_score : Z) (d : terminal P) : terminal P :=
  let d := for_range 0 24 (λ y, for_range 0 80 (λ x, cell x y 32 VGA_LIGHT_GREY)) d in
  let d := text LEFT 0 (chars "rum / snake") VGA_LIGHT_CYAN d in
  let d := text LEFT 2 (chars "score: ") VGA_WHITE d in
  let d := text (LEFT + 7) 2 (decimal (snake_model_score (model g))) VGA_LIGHT_GREEN d in
  let d := text (LEFT + 17) 2 (chars "best: ") VGA_WHITE d in
  let d := text (LEFT + 23) 2 (decimal top_score) VGA_YELLOW d in
  let d := for_range 0 (SNAKE_WIDTH + 2) (λ x d, cell (LEFT + x) (TOP + SNAKE_HEIGHT + 1) 35 VGA_CYAN (cell (LEFT + x) TOP 35 VGA_CYAN d)) d in
  let d := for_range 0 SNAKE_HEIGHT (λ y d, cell (LEFT + SNAKE_WIDTH + 1) (TOP + 1 + y) 35 VGA_CYAN (cell LEFT (TOP + 1 + y) 35 VGA_CYAN d)) d in
  let m := model g in
  let d := if won m then d else cell (board_x (cell_x (food m))) (board_y (cell_y (food m))) 42 VGA_YELLOW d in
  let d := render_body m d in
  let d := text LEFT 22 (message g) VGA_LIGHT_GREY d in
  text LEFT 23 (chars "WASD move  P pause  R restart  Q quit") VGA_DARK_GREY d.
Definition render s : system K P :=
  match playing (arcade s) with
  | Some (_, g) => upd_display (render_game g (best (arcade s))) s
  | None => s
  end.

Definition snake_active s : bool := if playing (arcade s) then true else false.
Definition set_playing (p : option (Z * snake_game)) s : system K P := set_arcade (Game p (best (arcade s)) (stored_best (arcade s))) s.

Definition snake_start (now : Z) s : option (bool * system K P) :=
  if snake_active s then Some (false, s) else
  let! (block, s) := on_machine (paged (kmalloc SIZEOF_SNAKE_GAME)) s in
  if block =? 0 then Some (false, print (chars "Cannot start Snake: out of memory." ++ newline) s) else
  let '(stored, s) := load_best s in
  let a := arcade s in
  let s := set_arcade (Game (Some (block, SnakeGame (snake_model_reset (Z.lxor now 0x72756D)) now false))
                         (if stored >? best a then stored else best a) stored) s in
  let s := upd_display (terminal_cursor_visible outb false) (upd_display (terminal_clear outb) s) in
  let s := serial (clear_sequence ++ chars "rum / snake" ++ newline ++ chars "WASD move, P pause, R restart, Q quit." ++ newline ++
                   chars "rum_snake_started" ++ newline) s in
  Some (true, render s).

Definition lower (c : Z) : Z := if (65 <=? c) && (c <=? 90) then c + 32 else c.
Definition quit (block : Z) (g : snake_game) s : option (system K P) :=
  let score := snake_model_score (model g) in
  let '(saved, s) := save_best s in
  let! (_, s) := on_machine (paged (kfree block)) s in
  let s := set_playing None s in
  let s := upd_display (terminal_clear outb) (upd_display (terminal_cursor_visible outb true) s) in
  let s := serial clear_sequence s in
  let s := print (decimal score) (print (chars "Snake score: ") s) in
  let s := print newline (print (decimal (best (arcade s))) (print (chars " | best: ") s)) in
  let s := if (saved : bool) then s else print (chars "Best score could not be saved to disk." ++ newline) s in
  Some (serial (chars "rum_snake_quit" ++ newline) s).
Definition turned (block d : Z) (g : snake_game) s : system K P :=
  set_playing (Some (block, SnakeGame (snd (snake_model_turn d (model g))) (last_step g) (paused g))) s.
Definition snake_receive (character now : Z) s : option (system K P) :=
  match playing (arcade s) with
  | None => Some s
  | Some (block, g) =>
      let c := lower character in
      if c =? 113 then quit block g s else
      if c =? 114 then
        let '(_, s) := save_best s in
        let s := set_playing (Some (block, SnakeGame (snake_model_reset (Z.lxor now 0x9E3779B9)) now false)) s in
        Some (serial (chars "rum_snake_restarted" ++ newline) (render s))
      else if (c =? 112) && alive (model g) then
        let s := render (set_playing (Some (block, SnakeGame (model g) now (negb (paused g)))) s) in
        Some (serial ((if negb (paused g) then chars "rum_snake_paused" else chars "rum_snake_resumed") ++ newline) s)
      else Some
        (if c =? 119 then turned block SNAKE_UP g s else
         if c =? 100 then turned block SNAKE_RIGHT g s else
         if c =? 115 then turned block SNAKE_DOWN g s else
         if c =? 97 then turned block SNAKE_LEFT g s else s)
  end.

Definition snake_tick_due (now : Z) s : bool :=
  match playing (arcade s) with
  | Some (_, g) => alive (model g) && negb (paused g) && (wrap32 (now - last_step g) >=? SNAKE_STEP_TICKS)
  | None => false
  end.
Definition snake_tick (now : Z) s : system K P :=
  if negb (snake_tick_due now s) then s else
  match playing (arcade s) with
  | None => s
  | Some (block, g) =>
      let '(event, m) := snake_model_step (model g) in
      let score := snake_model_score m in
      let a := arcade s in
      let s := set_arcade (Game (Some (block, SnakeGame m now (paused g))) (if score >? best a then score else best a) (stored_best a)) s in
      let s := render s in
      if bool_decide (event = SNAKE_LOST) || bool_decide (event = SNAKE_WON) then
        let '(_, s) := save_best s in
        serial ((if bool_decide (event = SNAKE_WON) then chars "rum_snake_won" else chars "rum_snake_game_over") ++ newline) s
      else if bool_decide (event = SNAKE_ATE) then serial newline (serial (decimal score) (serial (chars "snake: score=") s)) else s
  end.
End Snake.

(** ** The score file *)

(** Every possible score, printed and read back. *)
Lemma best_reads_back b : 0 ≤ b ≤ SNAKE_CELLS - SNAKE_INITIAL_LENGTH → parse_best (decimal b ++ newline) = b ∧ 0 < len (decimal b ++ newline) ≤ 4.
Proof.
  intros Hb. assert (forallb (λ b, (parse_best (decimal b ++ newline) =? b) && (0 <? len (decimal b ++ newline)) && (len (decimal b ++ newline) <=? 4))
    (seqZ 0 (SNAKE_CELLS - SNAKE_INITIAL_LENGTH + 1)) = true) as F by by vm_compute.
  rewrite forallb_forall in F. specialize (F b). rewrite !andb_true_iff, Z.eqb_eq, Z.ltb_lt, Z.leb_le in F. destruct F as [[F1 F2] F3]; [apply list_elem_of_In, elem_of_seqZ; lia|done].
Qed.
Lemma parse_best_bound data : 0 ≤ parse_best data ≤ SNAKE_CELLS - SNAKE_INITIAL_LENGTH.
Proof.
  unfold parse_best. assert (0 ≤ 0 ≤ SNAKE_CELLS - SNAKE_INITIAL_LENGTH) as Z0 by done. destruct (_ || _); [done|]. cbv zeta.
  match goal with |- context [if ?b then take ?n data else data] => generalize (if b then take n data else data) end. intros d. destruct (len d =? 0); [done|]. destruct (existsb _ _); [done|].
  match goal with |- context [if ?x <=? _ then _ else _] => set (v := x) end. destruct (Z.leb_spec v (SNAKE_CELLS - SNAKE_INITIAL_LENGTH)); [|done]. split; [|done].
  subst v. destruct d as [|c d] using rev_ind; [done|]. rewrite foldl_app. cbn. apply Z.mod_pos_bound. done.
Qed.

(** ** What the game does to the console and to its own state *)

(** A display operation that keeps to the console. *)
Definition console_only {P : Type} (d d' : terminal P) : Prop := (∃ g, shows g d) → (∃ g, shows g d') ∧ spares d d'.
#[global] Instance console_only_preorder {P : Type} : PreOrder (@console_only P).
Proof.
  split; [by intros d H|]. intros d e f A B H. destruct (A H) as [H1 S1]. destruct (B H1) as [H2 S2]. split; [done|]. by transitivity e.
Qed.
Record game_ok (a : game) : Prop := {
  ok_best : 0 ≤ stored_best a ≤ best a ∧ best a ≤ SNAKE_CELLS - SNAKE_INITIAL_LENGTH;
  ok_model block g : playing a = Some (block, g) → snake_ok (model g)
}.

Section Display.
Context {P : Type} (inb : Z → P → Z * P) (outb : Z → Z → P → P).
Implicit Types (d : terminal P).
Lemma only_wires w d : console_only d (set_wires w d).
Proof. intros [g S]. split; [exists g; by destruct S|by split]. Qed.
Lemma only_write l d : console_only d (terminal_writestring outb l d).
Proof. intros [g S]. apply (shows_write outb _ _ l) in S as [S1 S2]. split; [by eexists|done]. Qed.
Lemma only_clear d : console_only d (terminal_clear outb d).
Proof. intros _. destruct (shows_clear outb d) as [S1 S2]. split; [by eexists|done]. Qed.
Lemma only_cell x y c k d : 0 ≤ x → 0 ≤ y → console_only d (cell x y c k d).
Proof.
  intros Hx Hy [g S]. unfold cell, terminal_put_at. rewrite !Z.geb_leb. destruct (Z.leb_spec VGA_WIDTH x), (Z.leb_spec TEXT_HEIGHT y); cbn [orb snd]; try (split; [by exists g|reflexivity]).
  set (v := colored _ _). split.
  - exists (Page (λ r z, if (r =? top g + y) && (z =? x) then v else Terminal.cells g r z) (top g) (page_row g) (page_column g)). destruct S as [A B C D E]. split; try done.
    intros y' x' Hy' Hx'. rewrite put_cell_at, cell_index by (unfold VGA_WIDTH in *; lia). cbn. rewrite E by done. replace (top g + y' =? top g + y) with (y' =? y); [done|].
    destruct (Z.eqb_spec y' y), (Z.eqb_spec (top g + y') (top g + y)); lia.
  - split; [done|]. intros i Hi. rewrite put_cell_at. unfold TEXT_HEIGHT, VGA_HEIGHT, VGA_WIDTH in *. destruct (Z.eqb_spec i (y * 80 + x)); [lia|done].
Qed.
Lemma only_text x y l k d : 0 ≤ x → 0 ≤ y → console_only d (text x y l k d).
Proof.
  intros Hx Hy. revert x d Hx. induction l as [|c l IH]; intros x d Hx; [done|]. cbn [text]. destruct (x <? 80); [|done].
  transitivity (cell x y c k d); [by apply only_cell|]. apply IH. lia.
Qed.
Lemma only_loop first last (f : Z → terminal P → terminal P) d : (∀ i e, first ≤ i < last → console_only e (f i e)) → console_only d (for_range first last f d).
Proof. intros H. apply (for_range_pres (λ e, console_only d e)); [done|]. intros i e Hi He. etransitivity; [exact He|by apply H]. Qed.
End Display.
Section Play.
Context {K P : Type} (ops : fs_operations K) (kmalloc : Z → paging → Z * paging) (kfree : Z → paging → bool * paging).
Context (inb : Z → P → Z * P) (outb : Z → Z → P → P).
Implicit Types (s : system K P) (d : terminal P).

Lemma only_render g b d : snake_ok (model g) → console_only d (render_game g b d).
Proof.
  intros S. unfold render_game. cbv zeta.
  assert (∀ x y l k e, console_only d e → 0 ≤ x → 0 ≤ y → console_only d (text x y l k e)) as T by (intros x y l k e He Hx Hy; etransitivity; [exact He|by apply only_text]).
  do 2 (apply T; [|done|done]).
  match goal with |- console_only _ (render_body _ (if _ then ?e else _)) => assert (console_only d e) as H end.
  - etransitivity; [|apply only_loop; intros y e Hy; etransitivity; apply only_cell; unfold LEFT, TOP, SNAKE_WIDTH, SNAKE_HEIGHT; lia].
    etransitivity; [|apply only_loop; intros x e Hx; etransitivity; apply only_cell; unfold LEFT, TOP, SNAKE_WIDTH, SNAKE_HEIGHT in *; lia].
    do 5 (apply T; [|done|done]). apply only_loop. intros y e Hy. apply only_loop. intros x e' Hx. apply only_cell; lia.
  - revert H. match goal with |- console_only _ ?e → _ => generalize e end. intros e H.
    assert (∀ c k v (e : terminal P), on_board c → console_only e (cell (board_x (cell_x c)) (board_y (cell_y c)) k v e)) as B.
    { intros c k v e' [[B1 _] [B2 _]]. apply only_cell; unfold board_x, board_y, LEFT, TOP; lia. }
    unfold render_body. transitivity (if won (model g) then e else cell (board_x (cell_x (food (model g)))) (board_y (cell_y (food (model g)))) 42 VGA_YELLOW e).
    { destruct (won (model g)) eqn:W; (etransitivity; [|exact H || (etransitivity; [exact H|apply B; by apply (ok_food _ S W)])]); done. }
    match goal with |- console_only ?e _ => generalize e end. clear e H. intros e. assert (Forall (λ i, on_board (snake_model_cell (model g) i)) (rev (seqZ 0 (length (model g))))) as F.
    { apply Forall_rev. pose proof (ok_board _ S) as F. unfold SnakeModel.cells in F. exact (proj1 (Forall_map _ _ _) F). }
    revert e. induction F as [|i l Hi F IH]; intros e; [done|]. cbn [foldl]. etransitivity; [|apply IH]. by apply B.
Qed.
Lemma only_serial l s : console_only (display s) (display (serial inb outb l s)) ∧ arcade (serial inb outb l s) = arcade s.
Proof. split; [apply only_wires|done]. Qed.
Lemma only_print l s : console_only (display s) (display (print inb outb l s)) ∧ arcade (print inb outb l s) = arcade s.
Proof. split; [|done]. unfold print. cbn. etransitivity; [apply only_write|apply only_wires]. Qed.
Lemma on_disk_frame {A : Type} (f : vfs K → A * vfs K) s : display (snd (on_disk f s)) = display s ∧ arcade (snd (on_disk f s)) = arcade s.
Proof. unfold on_disk. by destruct (on_files f (machine s)). Qed.
Lemma load_best_frame s : let '(b, s') := load_best ops s in
  display s' = display s ∧ arcade s' = arcade s ∧ 0 ≤ b ≤ SNAKE_CELLS - SNAKE_INITIAL_LENGTH.
Proof.
  unfold load_best. pose proof (on_disk_frame (fs_open ops None (Some score_file) FS_READ true) s) as [A1 A2]. destruct (on_disk _ s) as [[e file] s1]. cbn [snd] in *.
  case_bool_decide; [done|]. pose proof (on_disk_frame (fs_read ops file 0 (Some (replicate 5 0)) 5) s1) as [B1 B2]. destruct (on_disk _ s1) as [[r data] s2]. cbn [snd] in *.
  pose proof (on_disk_frame (fs_close ops file) s2) as [C1 C2]. destruct (on_disk _ s2) as [c s3]. cbn [snd] in *. destruct (_ || _); (split; [congruence|split; [congruence|]]); [done|apply parse_best_bound].
Qed.
Lemma save_best_frame s : game_ok (arcade s) → let s' := snd (save_best ops inb outb s) in
  console_only (display s) (display s') ∧ game_ok (arcade s') ∧ playing (arcade s') = playing (arcade s) ∧ best (arcade s') = best (arcade s).
Proof.
  intros G. cbv zeta. unfold save_best. cbv zeta. destruct (_ <=? _); [done|]. pose proof (on_disk_frame (fs_replace ops None (Some score_file) (Some (decimal (best (arcade s)) ++ newline)) (len (decimal (best (arcade s)) ++ newline))) s) as [A1 A2].
  destruct (on_disk _ s) as [e s1]. cbn [snd] in *. case_bool_decide; cbn [snd].
  - destruct (only_serial (chars "snake: could not save best score." ++ newline) s1) as [B1 B2]. rewrite A1 in B1. rewrite B2, A2. done.
  - cbn. rewrite A1, A2. split; [done|]. split; [|done]. destruct G as [G1 G2]. split; cbn; [lia|done].
Qed.

(** What every call into the game keeps. *)
Definition play_ok s s' : Prop := game_ok (arcade s') ∧ console_only (display s) (display s').
Lemma play_serial l s s' : play_ok s s' → play_ok s (serial inb outb l s').
Proof. intros [A B]. destruct (only_serial l s') as [C D]. split; [by rewrite D|]. etransitivity; [exact B|exact C]. Qed.
Lemma play_print l s s' : play_ok s s' → play_ok s (print inb outb l s').
Proof. intros [A B]. destruct (only_print l s') as [C D]. split; [by rewrite D|]. etransitivity; [exact B|exact C]. Qed.
Lemma play_display f s s' : (∀ d, console_only d (f d)) → play_ok s s' → play_ok s (upd_display f s').
Proof. intros H [A B]. split; [done|]. etransitivity; [exact B|apply H]. Qed.
Lemma play_render s s' : play_ok s s' → play_ok s (render s').
Proof.
  intros [A B]. unfold render. destruct (playing (arcade s')) as [[block g]|] eqn:E; [|done]. split; [done|]. etransitivity; [exact B|]. apply only_render. by eapply ok_model.
Qed.
Lemma play_save s s' : play_ok s s' → play_ok s (snd (save_best ops inb outb s')).
Proof. intros [A B]. apply save_best_frame in A as (C & D & _). split; [done|]. etransitivity; [exact B|exact C]. Qed.
Lemma play_set p s s' : (∀ block g, p = Some (block, g) → snake_ok (model g)) → play_ok s s' → play_ok s (set_playing p s').
Proof. intros H [[A _] B]. split; [split; [exact A|exact H]|done]. Qed.
Lemma play_machine {A : Type} (f : kstate K → option (A * kstate K)) s s' r t : on_machine f s' = Some (r, t) → play_ok s s' → play_ok s t.
Proof. unfold on_machine. destruct (f (machine s')) as [[a k]|]; [|done]. intros [= _ <-] [B C]. by split. Qed.
Lemma play_started block stored now s s' : play_ok s s' → 0 ≤ stored ≤ SNAKE_CELLS - SNAKE_INITIAL_LENGTH →
  play_ok s (set_arcade (Game (Some (block, SnakeGame (snake_model_reset (Z.lxor now 0x72756D)) now false)) (if stored >? best (arcade s') then stored else best (arcade s')) stored) s').
Proof.
  intros [[A _] B] Hs. split; [|done]. split; cbn -[snake_model_reset]; [rewrite Z.gtb_ltb; destruct (Z.ltb_spec (best (arcade s')) stored); lia|].
  intros b g [= <- <-]. apply reset_ok.
Qed.
Lemma quit_ok block g s s' : game_ok (arcade s) → quit ops kfree inb outb block g s = Some s' → play_ok s s' ∧ playing (arcade s') = None.
Proof.
  intros G. unfold quit. assert (play_ok s (snd (save_best ops inb outb s))) as H by (apply play_save; by split). destruct (save_best _ _ _ s) as [saved s1]. cbn [snd] in H.
  destruct (on_machine _ s1) as [[r s2]|] eqn:E; [|done]. apply (play_machine _ s) in E; [|done]. intros [= <-]. split; [|by destruct saved].
  apply play_serial. cbv zeta. set (u := print _ _ newline _). assert (play_ok s u) as U.
  { do 5 apply play_print. apply play_serial. apply play_display; [apply only_clear|]. apply play_display; [intros d; apply only_wires|]. by apply play_set. }
  clearbody u. destruct saved; [done|]. by apply play_print.
Qed.
Lemma turned_ok block (way : Z) g s : 0 ≤ way → game_ok (arcade s) → playing (arcade s) = Some (block, g) → play_ok s (turned block way g s).
Proof. intros Hd G E. apply play_set; [|by split]. intros b h [= <- <-]. apply turn_ok; [done|]. by eapply ok_model. Qed.
End Play.

(** Whatever is played, the game keeps its promises. Starting, any key and any tick
    keep the model well formed, the scores within the board and the stored score at most
    the best one; all drawing stays on the console, with the status line, the colour and
    the memory beside the screen untouched; a key leaves no game only when it quits it;
    and the best score, as it is written to the file, reads back as itself. *)
Theorem snake_session_safe (K P : Type) (ops : fs_operations K) (kmalloc : Z → paging → Z * paging) (kfree : Z → paging → bool * paging)
    (inb : Z → P → Z * P) (outb : Z → Z → P → P) (s : system K P) (now : Z) : game_ok (arcade s) →
  (∀ ok s', snake_start ops kmalloc inb outb now s = Some (ok, s') → play_ok s s' ∧ (ok = true → snake_active s' = true)) ∧
  (∀ c s', snake_receive ops kfree inb outb c now s = Some s' → play_ok s s' ∧ (snake_active s = true → snake_active s' = false → lower c = 113)) ∧
  play_ok s (snake_tick ops inb outb now s) ∧
  parse_best (decimal (best (arcade s)) ++ newline) = best (arcade s).
Proof.
  intros G. assert (play_ok s s) as H0 by by split. split_and!.
  - intros ok s'. unfold snake_start. destruct (snake_active s) eqn:Ac; [by intros [= <- <-]|]. destruct (on_machine _ s) as [[block s1]|] eqn:E; [|done].
    apply (play_machine _ s) in E; [|done]. destruct (block =? 0); [intros [= <- <-]; split; [by apply play_print|done]|]. pose proof (load_best_frame ops s1) as L. destruct (load_best ops s1) as [stored s2]. destruct L as (L1 & L2 & L3).
    intros [= <- <-]. assert (play_ok s s2) as H2 by (destruct E; split; rewrite ?L1, ?L2; done). split; [|done].
    apply play_render, play_serial. apply play_display; [intros d; apply only_wires|]. apply play_display; [apply only_clear|]. by apply play_started.
  - intros c s'. unfold snake_receive. destruct (playing (arcade s)) as [[block g]|] eqn:E; [|intros [= <-]; split; [done|]; unfold snake_active; by rewrite E]. cbv zeta.
    pose proof (ok_model _ G _ _ E) as M. destruct (Z.eqb_spec (lower c) 113) as [Eq|_]; [intros H; by apply quit_ok in H as [H _]|].
    destruct (lower c =? 114).
    { pose proof (play_save ops inb outb s s H0) as H1. destruct (save_best _ _ _ s) as [saved s1]. cbn [snd] in H1. intros [= <-]. split; [|by unfold render].
      apply play_serial, play_render, play_set; [|done]. intros b h [= <- <-]. apply reset_ok. }
    destruct (_ && alive (model g)); [intros [= <-]; split; [|by unfold render]; apply play_serial, play_render, play_set; [by intros b h [= <- <-]|done]|].
    intros [= <-]. repeat case_match; (split; [by apply turned_ok || done|]); unfold snake_active, turned; cbn; try done. by rewrite E.
  - unfold snake_tick. destruct (snake_tick_due now s); [|done]. cbn [negb]. destruct (playing (arcade s)) as [[block g]|] eqn:E; [|done]. pose proof (ok_model _ G _ _ E) as M.
    pose proof (step_ok (model g) M) as St. destruct (snake_model_step (model g)) as [event m]. destruct St as [St Sc]. cbv zeta.
    set (s1 := set_arcade _ s). assert (play_ok s s1) as H1.
    { split; [|done]. destruct G as [G1 _]. split; cbn; [rewrite Z.gtb_ltb; destruct (Z.ltb_spec (best (arcade s)) (snake_model_score m)); lia|]. by intros b h [= <- <-]. }
    clearbody s1. apply play_render in H1. destruct (_ || _).
    + apply (play_save ops inb outb) in H1. destruct (save_best _ _ _ _) as [saved s2]. by apply play_serial.
    + case_bool_decide; [do 3 apply play_serial; done|done].
  - apply best_reads_back. destruct (ok_best _ G). lia.
Qed.

(** A game in progress on an idle machine: fifteen ticks after its last step the snake moves. *)
Module SnakeSample.
Definition outb (port value : Z) (p : list Z) : list Z := p.
Definition inb (port : Z) (p : list Z) : Z * list Z := (0x20, p).
Definition kmalloc (n : Z) (m : paging) : Z * paging := (0x7000, m).
Definition started : system (gmap Z Z) (list Z) :=
  System TaskSample.booted (Terminal ∅ 0 0 7 []) (Game (Some (0x7000, SnakeGame (snake_model_reset 9) 100 false)) 5 5).
End SnakeSample.
Lemma snake_session_safe_witness :
  play_ok SnakeSample.started (snake_tick SampleBackend.ops SnakeSample.inb SnakeSample.outb 115 SnakeSample.started) ∧
  snake_tick_due 115 SnakeSample.started = true ∧ snake_tick_due 114 SnakeSample.started = false.
Proof.
  split; [|split; by vm_compute].
  refine (proj1 (proj2 (proj2 (snake_session_safe _ _ SampleBackend.ops SnakeSample.kmalloc TaskSample.kfree SnakeSample.inb SnakeSample.outb SnakeSample.started 115 _)))).
  split; [by cbn -[snake_model_reset]|]. intros block g [= <- <-]. apply (reset_ok 9).
Defined.
