(* ===== verification/Syscall.v ===== *)
(** * System calls (kernel/process/syscall.c)

    The handlers behind the system-call gate, over the whole machine: the registry with
    its memory and files (Task.v), program launch (Process.v), the display and the game
    (Terminal.v, Snake.v). A packet in user memory is the list of its bytes.

    [None] is [cpu_halt]. A handler ends with a result, with the exit of the task, or at
    one of the points where its context may be switched away from; that point is a
    [continuation], run by [resume] when the wait is over and by [continue] when the wait
    returned at once and the loop goes round. Interrupts that arrive are arguments. *)

From S2P Require Import Prelude Block Path Fs Paging Spaces Session Handles Gdt Keyboard Task Registry Scheduler Elf Steps Process Terminal Snake.

#[local] Notation "'let!' p ':=' m 'in' k" := (match m with Some p => k | None => None end)
  (at level 200, p pattern, right associativity).

Definition CONSOLE_CHUNK : Z := 128.
Definition FILE_CHUNK : Z := 512.
Definition RUM_SYSCALL_VECTOR : Z := 0x80.
Definition RUM_ABI_PATH_CAPACITY : Z := 256.
Definition RUM_ABI_COMPONENT_CAPACITY : Z := 64.
Definition RUM_FS_ABI_VERSION : Z := 1.
Definition RUM_OPEN_READ : Z := 1.
Definition RUM_OPEN_WRITE : Z := 2.
Definition RUM_ENTRY_FILE : Z := 1.
Definition RUM_ENTRY_DIRECTORY : Z := 2.
Definition RUM_ABI_REPLACE_LIMIT : Z := 65536.
Definition RUM_PROCESS_ABI_VERSION : Z := 1.
Definition RUM_COMMAND_ABI_VERSION : Z := 2.
Definition RUM_LIFECYCLE_ABI_VERSION : Z := 1.
Definition RUM_PROCESS_LIST_VERSION : Z := 1.
Definition RUM_SLEEP_ABI_VERSION : Z := 1.
Definition RUM_WAIT_NOHANG : Z := 1.
Definition RUM_TERMINATE_SESSION : Z := 1.
Definition RUM_RUN_COMMAND : Z := 1.
Definition RUM_CONSOLE_CLEAR : Z := 0.
Definition RUM_CONSOLE_SNAKE : Z := 1.
Definition SIZEOF_ARGUMENTS : Z := 4232.
Definition SIZEOF_PROCESS_ENTRY : Z := 80.

Inductive number :=
  SYS_EXIT | SYS_READ | SYS_WRITE | SYS_GETPID | SYS_OPEN | SYS_CLOSE | SYS_SEEK | SYS_READDIR | SYS_CHDIR | SYS_GETCWD | SYS_MKDIR | SYS_REMOVE |
  SYS_FLUSH | SYS_RUN | SYS_REPLACE | SYS_CONSOLE | SYS_COMMAND_TEXT | SYS_SESSION | SYS_SPAWN | SYS_WAIT | SYS_TERMINATE | SYS_YIELD | SYS_SLEEP | SYS_PROCESS_LIST.
#[global] Instance number_eq_dec : EqDecision number.
Proof. solve_decision. Defined.
(** The numbers of abi/syscall.h in their order, from 0. *)
Definition numbers : list number :=
  [SYS_EXIT; SYS_READ; SYS_WRITE; SYS_GETPID; SYS_OPEN; SYS_CLOSE; SYS_SEEK; SYS_READDIR; SYS_CHDIR; SYS_GETCWD; SYS_MKDIR; SYS_REMOVE;
   SYS_FLUSH; SYS_RUN; SYS_REPLACE; SYS_CONSOLE; SYS_COMMAND_TEXT; SYS_SESSION; SYS_SPAWN; SYS_WAIT; SYS_TERMINATE; SYS_YIELD; SYS_SLEEP; SYS_PROCESS_LIST].
Definition number_of (eax : Z) : option number := if eax <? 0 then None else numbers !! Z.to_nat eax.

(** ** Packets *)

Definition bytes_of (l : list Z) (i : Z) : Z := nth (Z.to_nat i) l 0.
(** Word [i] of a packet. *)
Definition field (l : list Z) (i : Z) : Z := u32_at (bytes_of l) (4 * i).
Definition packet (l : list Z) : list Z := l ≫= word_bytes.

Record rum_open_request := OpenRequest { o_version : Z; o_size : Z; o_path : Z; o_access : Z; o_flags : Z; o_reserved : Z }.
Definition open_request (l : list Z) : rum_open_request := OpenRequest (field l 0) (field l 1) (field l 2) (field l 3) (field l 4) (field l 5).
Record rum_seek_request := SeekRequest {
  k_version : Z; k_size : Z; k_offset_lo : Z; k_offset_hi : Z; k_whence : Z; k_reserved : Z; k_position_lo : Z; k_position_hi : Z
}.
Definition seek_request (l : list Z) : rum_seek_request :=
  SeekRequest (field l 0) (field l 1) (field l 2) (field l 3) (field l 4) (field l 5) (field l 6) (field l 7).
Definition seek_packet (r : rum_seek_request) : list Z :=
  packet [k_version r; k_size r; k_offset_lo r; k_offset_hi r; k_whence r; k_reserved r; k_position_lo r; k_position_hi r].
Record rum_directory_entry := DirectoryEntry { d_version : Z; d_size : Z; d_kind : Z; d_size_lo : Z; d_size_hi : Z; d_reserved : Z; d_name : gmap Z Z }.
Definition directory_entry (l : list Z) : rum_directory_entry :=
  DirectoryEntry (field l 0) (field l 1) (field l 2) (field l 3) (field l 4) (field l 5) (array_of (drop 24 l)).
Definition directory_packet (d : rum_directory_entry) : list Z :=
  packet [d_version d; d_size d; d_kind d; d_size_lo d; d_size_hi d; d_reserved d] ++ ((λ i, wrap8 (aget (d_name d) i)) <$> seqZ 0 RUM_ABI_COMPONENT_CAPACITY).
Record rum_replace_request := ReplaceRequest { p_version : Z; p_size : Z; p_path : Z; p_data : Z; p_bytes : Z; p_reserved : Z }.
Definition replace_request (l : list Z) : rum_replace_request := ReplaceRequest (field l 0) (field l 1) (field l 2) (field l 3) (field l 4) (field l 5).
Record rum_run_request := RunRequest {
  r_version : Z; r_size : Z; r_path : Z; r_arguments : Z; r_result : Z; r_flags : Z; r_reserved0 : Z; r_reserved1 : Z
}.
Definition run_request (l : list Z) : rum_run_request :=
  RunRequest (field l 0) (field l 1) (field l 2) (field l 3) (field l 4) (field l 5) (field l 6) (field l 7).
Record rum_process_result := ProcessPacket {
  q_version : Z; q_size : Z; q_process_id : Z; q_termination : Z; q_status : Z; q_fault_vector : Z; q_reserved : Z
}.
Definition result_request (l : list Z) : rum_process_result :=
  ProcessPacket (field l 0) (field l 1) (field l 2) (field l 3) (field l 4) (field l 5) (field l 6).
Definition termination_code (t : task_termination) : Z :=
  match t with TASK_TERMINATION_NONE => 0 | TASK_TERMINATION_EXIT => 1 | TASK_TERMINATION_FAULT => 2 | TASK_TERMINATION_CANCELLED => 3 end.
Definition result_packet (r : process_result) : list Z :=
  packet [RUM_PROCESS_ABI_VERSION; 28; result_id r; termination_code (result_termination r); wrap32 (result_status r);
          match result_termination r with TASK_TERMINATION_FAULT => fault_vector (result_fault r) | _ => 0 end; 0].
Record rum_spawn_request := SpawnRequest {
  n_version : Z; n_size : Z; n_path : Z; n_arguments : Z; n_flags : Z; n_reserved0 : Z; n_reserved1 : Z; n_reserved2 : Z
}.
Definition spawn_request (l : list Z) : rum_spawn_request :=
  SpawnRequest (field l 0) (field l 1) (field l 2) (field l 3) (field l 4) (field l 5) (field l 6) (field l 7).
Record rum_wait_request := WaitRequest {
  w_version : Z; w_size : Z; w_process_id : Z; w_result : Z; w_flags : Z; w_reserved0 : Z; w_reserved1 : Z; w_reserved2 : Z
}.
Definition wait_request (l : list Z) : rum_wait_request :=
  WaitRequest (field l 0) (field l 1) (field l 2) (field l 3) (field l 4) (field l 5) (field l 6) (field l 7).
Record rum_terminate_request := TerminateRequest { t_version : Z; t_size : Z; t_process_id : Z; t_flags : Z; t_reserved0 : Z; t_reserved1 : Z }.
Definition terminate_request (l : list Z) : rum_terminate_request := TerminateRequest (field l 0) (field l 1) (field l 2) (field l 3) (field l 4) (field l 5).
Record rum_sleep_request := SleepRequest { z_version : Z; z_size : Z; z_milliseconds : Z; z_flags : Z; z_reserved0 : Z; z_reserved1 : Z }.
Definition sleep_request (l : list Z) : rum_sleep_request := SleepRequest (field l 0) (field l 1) (field l 2) (field l 3) (field l 4) (field l 5).
Record rum_process_list_request := ListRequest {
  l_version : Z; l_size : Z; l_entries : Z; l_capacity : Z; l_count : Z; l_total : Z; l_reserved0 : Z; l_reserved1 : Z
}.
Definition list_request (l : list Z) : rum_process_list_request :=
  ListRequest (field l 0) (field l 1) (field l 2) (field l 3) (field l 4) (field l 5) (field l 6) (field l 7).
Definition list_packet (r : rum_process_list_request) : list Z :=
  packet [l_version r; l_size r; l_entries r; l_capacity r; l_count r; l_total r; l_reserved0 r; l_reserved1 r].
Definition entry_packet (e : rum_process_entry) : list Z :=
  packet [entry_id e; entry_parent e; entry_state e; entry_flags e] ++ ((λ i, wrap8 (aget (entry_name_ e) i)) <$> seqZ 0 RUM_PROCESS_NAME_CAPACITY).
(** [struct rum_arguments]: 32 offsets from byte 8, 4096 characters from byte 136. *)
Definition arguments_of (l : list Z) : rum_arguments :=
  Arguments_ (field l 0) (field l 1) (array_of ((λ i, field l (2 + i)) <$> seqZ 0 RUM_PROCESS_ARGUMENT_LIMIT)) (array_of (drop 136 l)).

(** ** Outcomes *)

(** Where a call waits; the address space is the caller's. *)
Inductive continuation :=
| InRead (address chunk : Z)
| InRun (result id child block : Z)
| InWait (request : rum_wait_request)
| InSleep (timed : bool)
| InYield
| InSnake.
Inductive outcome := Done (code : Z) | Waits (c : continuation) | Again (c : continuation) | Exited.

Section Syscall.
Context {K P : Type} (ops : fs_operations K) (kernel : Z) (kmalloc : Z → paging → Z * paging) (kfree : Z → paging → bool * paging).
Context (start_address halt_address : Z) (switch_esp : kstate K → Z) (inb : Z → P → Z * P) (outb : Z → Z → P → P).
Implicit Types (w : nat → list irq).

(** ** Access to the caller *)

Definition accessible (space address bytes : Z) (write : bool) (s : kstate K) : bool :=
  (bytes =? 0) || (memory_range_contains RUM_USER_BASE RUM_USER_END address bytes && paging_user_accessible kernel space address bytes write (memory s)).
Definition copy_in (space address bytes : Z) (s : kstate K) : option (list Z) := paging_copy_from_user kernel space true address bytes (memory s).
Definition copy_out (space address : Z) (data : list Z) (bytes : Z) (s : kstate K) : option (bool * kstate K) :=
  paged (paging_copy_to_user kernel space address (Some data) bytes) s.
(** A packet the handlers read: accessible as a whole, then copied. *)
Definition request_in (space address bytes : Z) (write : bool) (s : kstate K) : option (list Z) :=
  if accessible space address bytes write s then copy_in space address bytes s else None.

(** The path, or the error. *)
Fixpoint copy_path_loop (n : nat) (space address i : Z) (path : list Z) (s : kstate K) : Z + list Z :=
  match n with
  | O => inl (- RUM_ENAMETOOLONG)
  | S n =>
      if i >? UINT32_MAX - address then inl (- RUM_EFAULT) else
      match request_in space (address + i) 1 false s with
      | None => inl (- RUM_EFAULT)
      | Some l =>
          let c := bytes_of l 0 in
          if c =? 0 then (if i =? 0 then inl (- RUM_EINVAL) else inr path) else copy_path_loop n space address (i + 1) (path ++ [c]) s
      end
  end.
Definition copy_path (space address : Z) (s : kstate K) : Z + list Z := copy_path_loop (Z.to_nat RUM_ABI_PATH_CAPACITY) space address 0 [] s.

(** The caller's handles, and the table or one handle stored back. *)
Definition table (s : kstate K) : option process_handles := (λ i, handles (proc s i)) <$> task_current_handles s.
Definition store_table (t : option process_handles) (s : kstate K) : kstate K :=
  match t with Some t => upd_proc (cur s) (set_handles t) s | None => s end.
Definition store_handle (id : Z) (h : option process_handle) (s : kstate K) : kstate K :=
  match h with Some h => upd_proc (cur s) (λ p, set_handles (<[id := h]> (handles p)) p) s | None => s end.
Definition may_use_files (s : kstate K) : bool := process_filesystem_context (in_irq s) (iflag s).

(** ** Reading and writing *)

(** [while (count < chunk && keyboard_read(...)) ++count]. *)
Fixpoint read_keys (n : nat) (k : keyboard) : list Z * keyboard :=
  match n with
  | O => ([], k)
  | S n =>
      match keyboard_read k with
      | (Some c, k) => let '(l, k) := read_keys n k in (c :: l, k)
      | (None, k) => ([], k)
      end
  end.
(** One turn of the loop of [stream_read]: [w 2] arrives after the event was observed,
    [w 3] before the wait. *)
Definition stream_read (space address chunk : Z) w (s : kstate K) : option (outcome * kstate K) :=
  let! (r, s) := task_cancel_current_if_requested ops kernel switch_esp w s in
  match r with
  | Switched => Some (Exited, s)
  | Returned _ =>
      if negb (task_current_owns_console s) then Some (Done (- RUM_EACCES), s) else
      let event := match task_shell_input_event s with Some e => Some e | None => Some keyboard_input_event end in
      let observed := task_event_sequence event s in
      let s := interrupts (w 2%nat) s in
      if task_shell_has_completion s then Some (Done (- RUM_EINTR), s) else
      let '(buffer, k) := read_keys (Z.to_nat chunk) (keys s) in
      let s := set_keys k s in
      if len buffer =? 0 then
        let! (r, s) := task_wait kernel switch_esp event observed (interrupts (w 3%nat) s) in
        Some (match r with Switched => Waits (InRead address chunk) | Returned true => Again (InRead address chunk) | Returned false => Done (- RUM_EIO) end, s)
      else
        let! (ok, s) := copy_out space address buffer (len buffer) s in
        Some (Done (if (ok : bool) then len buffer else - RUM_EFAULT), s)
  end.

Definition serial_text (text : list Z) (p : P) : P :=
  foldl (λ p c, serial_putchar inb outb c (if c =? 10 then serial_putchar inb outb 13 p else p)) p text.
(** Output to both devices with switches held. *)
Definition write_output (buffer : list Z) (s : system K P) : option (outcome * system K P) :=
  let '(held, k) := task_switch_hold (machine s) in
  if negb held then Some (Done (- RUM_EBUSY), set_machine k s) else
  let s := upd_display (λ d, on_serial (serial_text buffer) (terminal_write outb buffer d)) (set_machine k s) in
  let '(released, k) := task_switch_release (machine s) in
  if negb released then None else Some (Done (len buffer), set_machine k s).

Definition lift (r : option (outcome * kstate K)) (s : system K P) : option (outcome * system K P) := let! (o, k) := r in Some (o, set_machine k s).

(** The file part of [transfer], with the bytes to write. *)
Definition transfer_file (space id address bytes chunk : Z) (h : process_handle) (data : option (list Z)) (s : kstate K) : option (outcome * kstate K) :=
  if bytes >? UINT64_MAX - hoffset h then Some (Done (- RUM_EOVERFLOW), s) else
  match data with
  | Some buffer =>
      let '((result, h, _), s) := on_files (process_handle_write ops (in_irq s) (iflag s) (Some h) (Some buffer) chunk) s in
      Some (Done result, store_handle id h s)
  | None =>
      let '((result, h, buffer), s) := on_files (process_handle_read ops (in_irq s) (iflag s) (Some h) (Some (replicate (Z.to_nat chunk) 0)) chunk) s in
      let s := store_handle id h s in
      if result >? 0 then
        let! (ok, s) := copy_out space address (default [] buffer) result s in
        if (ok : bool) then Some (Done result, s) else None
      else Some (Done result, s)
  end.
Definition transfer (space id address bytes : Z) (write : bool) w (s : system K P) : option (outcome * system K P) :=
  let k := machine s in
  match process_handle_get (table k) id with
  | None => Some (Done (- RUM_EBADF), s)
  | Some h =>
      if Z.land (haccess h) (if write then FS_WRITE else FS_READ) =? 0 then Some (Done (- RUM_EBADF), s) else
      if bool_decide (hkind h = HANDLE_DIRECTORY) then Some (Done (- RUM_EISDIR), s) else
      if bytes =? 0 then Some (Done 0, s) else
      if negb (accessible space address bytes (negb write) k) then Some (Done (- RUM_EFAULT), s) else
      if negb (may_use_files k) then Some (Done (- RUM_EBUSY), s) else
      if bool_decide (hkind h = HANDLE_INPUT) then lift (stream_read space address (Z.min bytes CONSOLE_CHUNK) w k) s else
      let chunk := Z.min bytes (if bool_decide (hkind h = HANDLE_OUTPUT) then CONSOLE_CHUNK else FILE_CHUNK) in
      let data := if write then copy_in space address chunk k else None in
      if write && (if data then false else true) then Some (Done (- RUM_EFAULT), s) else
      if bool_decide (hkind h = HANDLE_OUTPUT) then write_output (default [] data) s else
      lift (transfer_file space id address bytes chunk h data k) s
  end.

(** ** Files *)

Definition open_file (space address : Z) (s : kstate K) : outcome * kstate K :=
  match request_in space address 24 false s with
  | None => (Done (- RUM_EFAULT), s)
  | Some l =>
      let r := open_request l in
      if negb (o_version r =? RUM_FS_ABI_VERSION) || negb (o_size r =? 24) || negb (o_reserved r =? 0) || (o_access r =? 0) ||
         negb (Z.land (o_access r) (not32 (Z.lor RUM_OPEN_READ RUM_OPEN_WRITE)) =? 0) || negb (Z.land (o_flags r) (not32 RUM_OPEN_DIRECTORY) =? 0) ||
         (negb (Z.land (o_flags r) RUM_OPEN_DIRECTORY =? 0) && negb (o_access r =? RUM_OPEN_READ)) then (Done (- RUM_EINVAL), s) else
      match copy_path space (o_path r) s with
      | inl e => (Done e, s)
      | inr path =>
          let '((result, t), s) := on_files (process_handle_open ops (in_irq s) (iflag s) (table s) (current_context s) (Some path) (o_access r) (o_flags r)) s in
          (Done result, store_table t s)
      end
  end.
Definition close_file (id : Z) (s : kstate K) : outcome * kstate K :=
  let '((result, t), s) := on_files (process_handle_close ops (in_irq s) (iflag s) (table s) id) s in (Done result, store_table t s).
Definition flush_file (id : Z) (s : kstate K) : outcome * kstate K :=
  let '(result, s) := on_files (process_handle_flush ops (in_irq s) (iflag s) (process_handle_get (table s) id)) s in (Done result, s).

Definition seek_file (space id address : Z) (s : kstate K) : option (outcome * kstate K) :=
  match process_handle_get (table s) id with
  | None => Some (Done (- RUM_EBADF), s)
  | Some h =>
      match request_in space address 32 true s with
      | None => Some (Done (- RUM_EFAULT), s)
      | Some l =>
          let r := seek_request l in
          if negb (k_version r =? RUM_FS_ABI_VERSION) || negb (k_size r =? 32) || negb (k_reserved r =? 0) || negb (k_position_lo r =? 0) ||
             negb (k_position_hi r =? 0) || (k_whence r >? RUM_SEEK_END) then Some (Done (- RUM_EINVAL), s) else
          let '((result, h, position), s) := on_files (process_handle_seek ops (in_irq s) (iflag s) (Some h)
            (Z.lor (Z.shiftl (k_offset_hi r) 32) (k_offset_lo r)) (k_whence r) true) s in
          let s := store_handle id h s in
          if negb (result =? 0) then Some (Done result, s) else
          let position := default 0 position in
          let r := SeekRequest (k_version r) (k_size r) (k_offset_lo r) (k_offset_hi r) (k_whence r) (k_reserved r) (wrap32 position) (wrap32 (Z.shiftr position 32)) in
          let! (ok, s) := copy_out space address (seek_packet r) 32 s in
          if (ok : bool) then Some (Done 0, s) else None
      end
  end.

Definition list_directory (space id address : Z) (s : kstate K) : option (outcome * kstate K) :=
  match process_handle_get (table s) id with
  | None => Some (Done (- RUM_EBADF), s)
  | Some h =>
      match request_in space address 88 true s with
      | None => Some (Done (- RUM_EFAULT), s)
      | Some l =>
          let d := directory_entry l in
          if negb (d_version d =? RUM_FS_ABI_VERSION) || negb (d_size d =? 88) || negb (d_reserved d =? 0) then Some (Done (- RUM_EINVAL), s) else
          let '((result, h, entry), s) := on_files (process_handle_readdir ops (in_irq s) (iflag s) (Some h) true) s in
          let s := store_handle id h s in
          if result <? 0 then Some (Done result, s) else
          let output :=
            if result =? 0 then DirectoryEntry RUM_FS_ABI_VERSION 88 0 0 0 0 ∅
            else DirectoryEntry RUM_FS_ABI_VERSION 88 (if entry_kind entry =? FS_FILE then RUM_ENTRY_FILE else RUM_ENTRY_DIRECTORY)
                   (wrap32 (entry_size entry)) (wrap32 (Z.shiftr (entry_size entry) 32)) 0 (entry_name entry) in
          let! (ok, s) := copy_out space address (directory_packet output) 88 s in
          if (ok : bool) then Some (Done result, s) else None
      end
  end.

(** [number] is chdir, mkdir or remove; chdir changes the caller's own context. *)
Definition path_operation (space address : Z) (which : number) (s : kstate K) : outcome * kstate K :=
  match copy_path space address s with
  | inl e => (Done e, s)
  | inr path =>
      if negb (may_use_files s) then (Done (- RUM_EBUSY), s) else
      match which with
      | SYS_CHDIR =>
          let '((e, f), s) := on_files (fs_context_chdir ops (current_context s) (Some path)) s in
          (Done (process_fs_error e), match f with Some f => upd_proc (cur s) (set_filesystem f) s | None => s end)
      | SYS_MKDIR => let '(e, s) := on_files (fs_mkdir ops (current_context s) (Some path)) s in (Done (process_fs_error e), s)
      | _ => let '(e, s) := on_files (fs_remove ops (current_context s) (Some path)) s in (Done (process_fs_error e), s)
      end
  end.

(** The text with its terminator, at most the array's 256 bytes. *)
Definition working_directory (space address capacity : Z) (s : kstate K) : option (outcome * kstate K) :=
  if capacity =? 0 then Some (Done (- RUM_ERANGE), s) else
  if negb (accessible space address capacity true s) then Some (Done (- RUM_EFAULT), s) else
  match current_context s with
  | None => Some (Done (- RUM_EIO), s)
  | Some cwd =>
      let bytes := Z.min FS_PATH_CAPACITY (len (string_of (path_ cwd)) + 1) in
      if bytes >? capacity then Some (Done (- RUM_ERANGE), s) else
      let! (ok, s) := copy_out space address ((λ i, wrap8 (aget (path_ cwd) i)) <$> seqZ 0 bytes) bytes s in
      Some (Done (if (ok : bool) then bytes else - RUM_EFAULT), s)
  end.

Definition replace_file (space address : Z) (s : kstate K) : option (outcome * kstate K) :=
  match request_in space address 24 false s with
  | None => Some (Done (- RUM_EFAULT), s)
  | Some l =>
      let r := replace_request l in
      if negb (p_version r =? RUM_FS_ABI_VERSION) || negb (p_size r =? 24) || negb (p_reserved r =? 0) then Some (Done (- RUM_EINVAL), s) else
      if p_bytes r >? RUM_ABI_REPLACE_LIMIT then Some (Done (- RUM_E2BIG), s) else
      match copy_path space (p_path r) s with
      | inl e => Some (Done e, s)
      | inr path =>
          if negb (accessible space (p_data r) (p_bytes r) false s) then Some (Done (- RUM_EFAULT), s) else
          if negb (may_use_files s) then Some (Done (- RUM_EBUSY), s) else
          let! (block, s) := (if p_bytes r =? 0 then Some (0, s) else paged (kmalloc (p_bytes r)) s) in
          if negb (p_bytes r =? 0) && (block =? 0) then Some (Done (- RUM_ENOMEM), s) else
          let data := if p_bytes r =? 0 then None else copy_in space (p_data r) (p_bytes r) s in
          let '(code, s) :=
            if negb (p_bytes r =? 0) && (if data then false else true) then (- RUM_EFAULT, s)
            else let '(e, s) := on_files (fs_replace ops (current_context s) (Some path) data (p_bytes r)) s in (process_fs_error e, s) in
          let! (_, s) := paged (kfree block) s in
          Some (Done code, s)
      end
  end.

(** ** Processes *)

(** [inl] is an early result. The result packet's header at [address]. *)
Definition result_header (space address : Z) (s : kstate K) : option Z :=
  match request_in space address 28 true s with
  | None => Some (- RUM_EFAULT)
  | Some l =>
      let q := result_request l in
      if negb (q_version q =? RUM_PROCESS_ABI_VERSION) || negb (q_size q =? 28) || negb (q_reserved q =? 0) then Some (- RUM_EINVAL) else None
  end.
(** The command's text: printable characters before a NUL within 256 bytes. *)
Fixpoint command_loop (n : nat) (space address i : Z) (text : list Z) (s : kstate K) : Z + list Z :=
  match n with
  | O => inl (- RUM_E2BIG)
  | S n =>
      if i >? UINT32_MAX - address then inl (- RUM_EFAULT) else
      match request_in space (address + i) 1 false s with
      | None => inl (- RUM_EFAULT)
      | Some l =>
          let c := bytes_of l 0 in
          if c =? 0 then inr text else
          if (c <? 32) || (c >? 126) then inl (- RUM_EINVAL) else command_loop n space address (i + 1) (text ++ [c]) s
      end
  end.
(** The packet of arguments through a heap block: [None] for a bad packet. *)
Definition load_arguments (space address : Z) (s : kstate K) : Z + rum_arguments :=
  match copy_in space address SIZEOF_ARGUMENTS s with
  | None => inl (- RUM_EFAULT)
  | Some l => if elf_arguments_valid (Some (arguments_of l)) then inr (arguments_of l) else inl (- RUM_EINVAL)
  end.

(** After the run answered: release the packet, deliver the result. The block of a run
    that blocks is released when the run ends. *)
Definition run_finish (space result : Z) (r : run) (block : Z) (s : kstate K) : option (outcome * kstate K) :=
  match r with
  | RunBlocked id child => Some (Waits (InRun result id child block), s)
  | RunReturned code q =>
      let! (_, s) := paged (kfree block) s in
      if negb (code =? 0) then Some (Done code, s) else
      let! (ok, s) := copy_out space result (result_packet q) 28 s in
      if (ok : bool) then Some (Done 0, s) else None
  end.
Definition run_child (space address : Z) w (s : kstate K) : option (outcome * kstate K) :=
  match request_in space address 32 false s with
  | None => Some (Done (- RUM_EFAULT), s)
  | Some l =>
      let r := run_request l in
      let command := r_version r =? RUM_COMMAND_ABI_VERSION in
      if negb (r_size r =? 32) || negb (r_reserved1 r =? 0) ||
         (if command then negb (r_flags r =? RUM_RUN_COMMAND)
          else negb (r_version r =? RUM_PROCESS_ABI_VERSION) || negb (r_flags r =? 0) || negb (r_reserved0 r =? 0)) then Some (Done (- RUM_EINVAL), s) else
      if command && negb (task_current_is_shell s) then Some (Done (- RUM_EACCES), s) else
      match result_header space (r_result r) s with
      | Some e => Some (Done e, s)
      | None =>
          match copy_path space (r_path r) s with
          | inl e => Some (Done e, s)
          | inr path =>
              match (if command then command_loop (Z.to_nat RUM_COMMAND_TEXT_CAPACITY) space (r_reserved0 r) 0 [] s else inr []) with
              | inl e => Some (Done e, s)
              | inr text =>
                  if negb (accessible space (r_arguments r) SIZEOF_ARGUMENTS false s) then Some (Done (- RUM_EFAULT), s) else
                  if negb (may_use_files s) then Some (Done (- RUM_EBUSY), s) else
                  let! (block, s) := paged (kmalloc SIZEOF_ARGUMENTS) s in
                  if block =? 0 then Some (Done (- RUM_ENOMEM), s) else
                  match load_arguments space (r_arguments r) s with
                  | inl e => let! (_, s) := paged (kfree block) s in Some (Done e, s)
                  | inr arguments =>
                      let! (r', s) := (if command then process_run_command ops kernel kmalloc kfree start_address halt_address switch_esp (Some path) (Some arguments) (Some text) w s
                                       else process_run_foreground ops kernel kmalloc kfree start_address halt_address switch_esp (Some path) (Some arguments) w s) in
                      run_finish space (r_result r) r' block s
                  end
              end
          end
      end
  end.

Definition spawn_child (space address : Z) w (s : kstate K) : option (outcome * kstate K) :=
  match request_in space address 32 false s with
  | None => Some (Done (- RUM_EFAULT), s)
  | Some l =>
      let r := spawn_request l in
      if negb (n_version r =? RUM_LIFECYCLE_ABI_VERSION) || negb (n_size r =? 32) || negb (n_flags r =? 0) || negb (n_reserved0 r =? 0) ||
         negb (n_reserved1 r =? 0) || negb (n_reserved2 r =? 0) then Some (Done (- RUM_EINVAL), s) else
      match copy_path space (n_path r) s with
      | inl e => Some (Done e, s)
      | inr path =>
          if negb (accessible space (n_arguments r) SIZEOF_ARGUMENTS false s) then Some (Done (- RUM_EFAULT), s) else
          let! (block, s) := paged (kmalloc SIZEOF_ARGUMENTS) s in
          if block =? 0 then Some (Done (- RUM_ENOMEM), s) else
          let! (r', s) := (match load_arguments space (n_arguments r) s with
            | inl e => Some ((e, 0), s)
            | inr arguments => process_spawn ops kernel kmalloc kfree start_address halt_address (Some path) (Some arguments) w s
            end) in
          let '(code, child) := r' in
          let! (_, s) := paged (kfree block) s in
          if negb (code =? 0) then Some (Done code, s) else
          match task_query kernel child s with Some info => Some (Done (info_process_id info), s) | None => None end
      end
  end.

(** After [task_wait_child] answered: the output is checked again, copied, and only then
    the child is collected. *)
Definition wait_finish (space : Z) (r : rum_wait_request) (c : child_progress) (s : kstate K) : option (outcome * kstate K) :=
  match c with
  | ChildBlocked => Some (Waits (InWait r), s)
  | ChildAgain => None (* the loop has passes enough: see Waits.v *)
  | ChildResult code info =>
      if negb (code =? 1) then Some (Done code, s) else
      match info with
      | None => None (* a result of 1 carries the child *)
      | Some child =>
          let output := result_packet (ProcessResult (info_process_id child) (info_termination child) (info_status child) (info_fault child)) in
          if negb (accessible space (w_result r) 28 true s) then Some (Done (- RUM_EFAULT), s) else
          let! (ok, s) := copy_out space (w_result r) output 28 s in
          if negb ok then Some (Done (- RUM_EFAULT), s) else
          let! (collected, s) := task_collect_child ops kernel kfree (tid (info_task child)) s in
          if (collected : bool) then Some (Done 1, s) else None
      end
  end.
Definition wait_child (space address : Z) w (s : kstate K) : option (outcome * kstate K) :=
  match request_in space address 32 false s with
  | None => Some (Done (- RUM_EFAULT), s)
  | Some l =>
      let r := wait_request l in
      if negb (w_version r =? RUM_LIFECYCLE_ABI_VERSION) || negb (w_size r =? 32) || (w_process_id r >? RUM_ABI_PID_MAX) ||
         negb (Z.land (w_flags r) (not32 RUM_WAIT_NOHANG) =? 0) || negb (w_reserved0 r =? 0) || negb (w_reserved1 r =? 0) || negb (w_reserved2 r =? 0)
      then Some (Done (- RUM_EINVAL), s) else
      match result_header space (w_result r) s with
      | Some e => Some (Done e, s)
      | None =>
          let! (c, s) := task_wait_child kernel switch_esp (w_process_id r) (negb (Z.land (w_flags r) RUM_WAIT_NOHANG =? 0)) true w s in
          wait_finish space r c s
      end
  end.

Definition terminate_child (space address : Z) (s : kstate K) : outcome * kstate K :=
  match request_in space address 24 false s with
  | None => (Done (- RUM_EFAULT), s)
  | Some l =>
      let r := terminate_request l in
      if negb (t_version r =? RUM_LIFECYCLE_ABI_VERSION) || negb (t_size r =? 24) || negb (Z.land (t_flags r) (not32 RUM_TERMINATE_SESSION) =? 0) ||
         negb (t_reserved0 r =? 0) || negb (t_reserved1 r =? 0) then (Done (- RUM_EINVAL), s) else
      let '(code, s) := task_request_termination (t_process_id r) (negb (Z.land (t_flags r) RUM_TERMINATE_SESSION =? 0)) s in (Done code, s)
  end.

Definition slept (timed : bool) (r : progress Z) : outcome := match r with Switched => Waits (InSleep timed) | Returned code => Done code end.
(** A sleep of no time yields. *)
Definition sleep_timed (milliseconds : Z) : bool := negb (bool_decide (timer_duration_ticks milliseconds = Some 0)).
Definition sleep_process (space address : Z) (s : kstate K) : option (outcome * kstate K) :=
  match request_in space address 24 false s with
  | None => Some (Done (- RUM_EFAULT), s)
  | Some l =>
      let r := sleep_request l in
      if negb (z_version r =? RUM_SLEEP_ABI_VERSION) || negb (z_size r =? 24) || negb (z_flags r =? 0) || negb (z_reserved0 r =? 0) || negb (z_reserved1 r =? 0)
      then Some (Done (- RUM_EINVAL), s) else
      let! (p, s) := task_sleep kernel switch_esp (z_milliseconds r) s in Some (slept (sleep_timed (z_milliseconds r)) p, s)
  end.
Definition yield_process (s : kstate K) : option (outcome * kstate K) :=
  let! (r, s) := task_yield kernel switch_esp s in
  Some (match r with Switched => Waits InYield | Returned true => Done 0 | Returned false => Done (- RUM_EBUSY) end, s).

Definition process_list (space address : Z) (s : kstate K) : option (outcome * kstate K) :=
  match request_in space address 32 true s with
  | None => Some (Done (- RUM_EFAULT), s)
  | Some l =>
      let r := list_request l in
      if negb (l_version r =? RUM_PROCESS_LIST_VERSION) || negb (l_size r =? 32) || (l_capacity r >? RUM_PROCESS_LIST_LIMIT) || negb (l_count r =? 0) ||
         negb (l_total r =? 0) || negb (l_reserved0 r =? 0) || negb (l_reserved1 r =? 0) || ((l_capacity r =? 0) && negb (l_entries r =? 0))
      then Some (Done (- RUM_EINVAL), s) else
      let bytes := l_capacity r * SIZEOF_PROCESS_ENTRY in
      if negb (accessible space (l_entries r) bytes true s) then Some (Done (- RUM_EFAULT), s) else
      if negb (bytes =? 0) && (l_entries r <? address + 32) && (address <? l_entries r + bytes) then Some (Done (- RUM_EINVAL), s) else
      let '(count, entries, total) := task_process_list (l_capacity r) true s in
      let r := ListRequest (l_version r) (l_size r) (l_entries r) (l_capacity r) count (default 0 total) (l_reserved0 r) (l_reserved1 r) in
      let! (ok, s) := (if count =? 0 then Some (true, s) else copy_out space (l_entries r) (entries ≫= entry_packet) (count * SIZEOF_PROCESS_ENTRY) s) in
      if negb ok then Some (Done (- RUM_EFAULT), s) else
      let! (ok, s) := copy_out space address (list_packet r) 32 s in
      Some (Done (if (ok : bool) then count else - RUM_EFAULT), s)
  end.

(** The stored text ends with a NUL within the 256 bytes of its array. *)
Definition command_text_call (space address capacity reserved : Z) (s : kstate K) : option (outcome * kstate K) :=
  if negb (reserved =? 0) then Some (Done (- RUM_EINVAL), s) else
  match task_current_command_text s with
  | None => Some (Done (- RUM_EACCES), s)
  | Some text =>
      if capacity =? 0 then Some (Done (- RUM_ERANGE), s) else
      if negb (accessible space address capacity true s) then Some (Done (- RUM_EFAULT), s) else
      let bytes := len (string_of text) + 1 in
      if bytes >? capacity then Some (Done (- RUM_ERANGE), s) else
      let! (ok, s) := copy_out space address ((λ i, wrap8 (aget text i)) <$> seqZ 0 bytes) bytes s in
      Some (Done (if (ok : bool) then bytes else - RUM_EFAULT), s)
  end.
Definition session_control (space action address reserved : Z) (s : kstate K) : outcome * kstate K :=
  if negb (reserved =? 0) || (action <? RUM_SESSION_CHDIR) || (action >? RUM_SESSION_RECOVERY) || (negb (action =? RUM_SESSION_CHDIR) && negb (address =? 0))
  then (Done (- RUM_EINVAL), s) else
  match (if action =? RUM_SESSION_CHDIR then copy_path space address s else inr []) with
  | inl e => (Done e, s)
  | inr path => let '(code, s) := task_session_control ops action (if action =? RUM_SESSION_CHDIR then Some path else None) s in (Done code, s)
  end.

(** ** The console *)

(** Every key in the ring goes to the game; an interrupt character quits it. *)
Fixpoint snake_keys (n : nat) (s : system K P) : option (system K P) :=
  match n with
  | O => Some s
  | S n =>
      match keyboard_read (keys (machine s)) with
      | (None, _) => Some s
      | (Some key, k) =>
          let s := set_machine (set_keys k (machine s)) s in
          let! s := snake_receive ops kfree inb outb (if key =? 3 then 113 else key) (timer_ticks (machine s)) s in
          snake_keys n s
      end
  end.
(** One turn of the game's loop: [w 2] arrives after the event was observed, [w 3] before
    the wait, whose result is ignored. *)
Definition snake_turn w (s : system K P) : option (outcome * system K P) :=
  if negb (snake_active s) then Some (Done 0, s) else
  let observed := task_event_sequence (Some task_work_event) (machine s) in
  let s := set_machine (interrupts (w 2%nat) (machine s)) s in
  let! (r, s) := (if task_current_cancelled (machine s) then
      let! s := snake_receive ops kfree inb outb 113 (timer_ticks (machine s)) s in
      on_machine (task_cancel_current_if_requested ops kernel switch_esp w) s
    else Some (Returned (), s)) in
  match r with
  | Switched => Some (Exited, s)
  | Returned _ =>
      let! s := snake_keys (Z.to_nat QUEUE_SIZE) s in
      let s := snake_tick ops inb outb (timer_ticks (machine s)) s in
      if negb (snake_active s) then Some (Done 0, s) else
      let! (r, s) := on_machine (task_wait kernel switch_esp (Some task_work_event) observed) (set_machine (interrupts (w 3%nat) (machine s)) s) in
      Some (match r with Switched => Waits InSnake | Returned _ => Again InSnake end, s)
  end.
Definition console_action (action reserved1 reserved2 : Z) w (s : system K P) : option (outcome * system K P) :=
  if negb (reserved1 =? 0) || negb (reserved2 =? 0) || (action >? RUM_CONSOLE_SNAKE) then Some (Done (- RUM_EINVAL), s) else
  if negb (task_current_owns_console (machine s)) then Some (Done (- RUM_EACCES), s) else
  if negb (may_use_files (machine s)) then Some (Done (- RUM_EBUSY), s) else
  if action =? RUM_CONSOLE_CLEAR then
    let '(held, k) := task_switch_hold (machine s) in
    if negb held then Some (Done (- RUM_EBUSY), set_machine k s) else
    let s := serial inb outb clear_sequence (upd_display (terminal_clear outb) (set_machine k s)) in
    let '(released, k) := task_switch_release (machine s) in
    if negb released then None else Some (Done 0, set_machine k s)
  else
    let! (started, s) := snake_start ops kmalloc inb outb (timer_ticks (machine s)) s in
    if (started : bool) then snake_turn w s else Some (Done (- RUM_ENOMEM), s).

(** ** The gate *)

Definition signed32 (x : Z) : Z := if x >=? 0x80000000 then x - 0x100000000 else x.
Definition later (n : nat) w : nat → list irq := λ k, w (n + k)%nat.
Definition unused_registers (f : exception_frame) : bool := (ecx f =? 0) && (edx f =? 0).
Definition checked (ok : bool) (r : option (outcome * kstate K)) (s : kstate K) : option (outcome * kstate K) := if ok then r else Some (Done (- RUM_EINVAL), s).

(** The switch on the number; [space] is the caller's. *)
Definition call (n : option number) (space : Z) (f : exception_frame) w (s : system K P) : option (outcome * system K P) :=
  let k := machine s in
  match n with
  | None => Some (Done (- RUM_ENOSYS), s)
  | Some SYS_EXIT => let! k := task_exit_with_status ops kernel switch_esp (signed32 (ebx f)) w k in Some (Exited, set_machine k s)
  | Some SYS_GETPID => Some (Done (task_current_process_id k), s)
  | Some SYS_READ => transfer space (ebx f) (ecx f) (edx f) false w s
  | Some SYS_WRITE => transfer space (ebx f) (ecx f) (edx f) true w s
  | Some SYS_OPEN => lift (Some (open_file space (ebx f) k)) s
  | Some SYS_CLOSE => lift (Some (close_file (ebx f) k)) s
  | Some SYS_SEEK => lift (seek_file space (ebx f) (ecx f) k) s
  | Some SYS_READDIR => lift (list_directory space (ebx f) (ecx f) k) s
  | Some (SYS_CHDIR as n) | Some (SYS_MKDIR as n) | Some (SYS_REMOVE as n) => lift (Some (path_operation space (ebx f) n k)) s
  | Some SYS_GETCWD => lift (working_directory space (ebx f) (ecx f) k) s
  | Some SYS_FLUSH => lift (Some (flush_file (ebx f) k)) s
  | Some SYS_RUN => lift (run_child space (ebx f) w k) s
  | Some SYS_YIELD => lift (checked ((ebx f =? 0) && unused_registers f) (yield_process k) k) s
  | Some SYS_SLEEP => lift (checked (unused_registers f) (sleep_process space (ebx f) k) k) s
  | Some SYS_PROCESS_LIST => lift (checked (unused_registers f) (process_list space (ebx f) k) k) s
  | Some SYS_SPAWN => lift (checked (unused_registers f) (spawn_child space (ebx f) w k) k) s
  | Some SYS_WAIT => lift (checked (unused_registers f) (wait_child space (ebx f) w k) k) s
  | Some SYS_TERMINATE => lift (checked (unused_registers f) (Some (terminate_child space (ebx f) k)) k) s
  | Some SYS_REPLACE => lift (replace_file space (ebx f) k) s
  | Some SYS_CONSOLE => console_action (ebx f) (ecx f) (edx f) w s
  | Some SYS_COMMAND_TEXT => lift (command_text_call space (ebx f) (ecx f) (edx f) k) s
  | Some SYS_SESSION => lift (Some (session_control space (ebx f) (ecx f) (edx f) k)) s
  end.

(** How a dispatched call stands: returned with the frame to go back to, handed to
    [exception_dispatch] as it is no call of a process, or as above. *)
Inductive dispatched :=
| SysReturned (frame : exception_frame) | SysException (frame : exception_frame) | SysWaits (c : continuation) | SysAgain (c : continuation) | SysExited.
Definition set_eax (v : Z) (f : exception_frame) : exception_frame :=
  Frame (gs f) (fs f) (es f) (ds f) (edi f) (esi f) (ebp f) (saved_esp f) (ebx f) (edx f) (ecx f) v (vector f) (error f) (frame_eip f) (cs f) (frame_eflags f).
(** [frame->eax = result] and the exit a shell was asked for. *)
Definition finish (f : exception_frame) (r : option (outcome * system K P)) w : option (dispatched * system K P) :=
  let! (o, s) := r in
  match o with
  | Waits c => Some (SysWaits c, s)
  | Again c => Some (SysAgain c, s)
  | Exited => Some (SysExited, s)
  | Done code =>
      let! (r, s) := on_machine (task_exit_shell_if_requested ops kernel switch_esp w) s in
      Some (match r with Switched => SysExited | Returned _ => SysReturned (set_eax (wrap32 code) f) end, s)
  end.
Definition caller_space (s : system K P) : Z := default 0 (task_current_process_space (machine s)).
Definition syscall_dispatch (frame : option exception_frame) w (s : system K P) : option (dispatched * system K P) :=
  match frame with
  | None => None
  | Some f =>
      if negb (vector f =? RUM_SYSCALL_VECTOR) || negb (error f =? 0) || negb (exception_frame_from_user f) ||
         negb (task_current_is_process (machine s)) || in_irq (machine s) then Some (SysException f, s) else
      let s := set_machine (interrupts (w 0%nat) (set_iflag true (machine s))) s in
      let! (r, s) := on_machine (task_cancel_current_if_requested ops kernel switch_esp (later 1 w)) s in
      match r with
      | Switched => Some (SysExited, s)
      | Returned _ => finish f (call (number_of (eax f)) (caller_space s) f (later 3 w) s) (later 16 w)
      end
  end.

(** The loop goes round without a switch. *)
Definition continue (c : continuation) w (s : system K P) : option (outcome * system K P) :=
  match c with
  | InRead address chunk => lift (stream_read (caller_space s) address chunk w (machine s)) s
  | InSnake => snake_turn w s
  | _ => None (* only the two loops go round *)
  end.
(** The context was chosen again: the wait's tail, then the rest of the call. *)
Definition resume (c : continuation) w (s : system K P) : option (outcome * system K P) :=
  match c with
  | InRead address chunk =>
      let! (r, s) := on_machine (wait_resume ops kernel kfree) s in
      if valid_wait r then continue c w s else Some (Done (- RUM_EIO), s)
  | InSnake => let! (_, s) := on_machine (wait_resume ops kernel kfree) s in continue c w s
  | InRun result id child block =>
      let! (r, s) := on_machine (run_foreground_resume ops kernel kfree switch_esp id child w) s in
      lift (run_finish (caller_space s) result r block (machine s)) s
  | InWait r =>
      let! (c, s) := on_machine (task_wait_child_resume ops kernel kfree switch_esp (w_process_id r) (negb (Z.land (w_flags r) RUM_WAIT_NOHANG =? 0)) w) s in
      lift (wait_finish (caller_space s) r c (machine s)) s
  | InSleep timed => let! (code, s) := on_machine (task_sleep_resume ops kernel kfree timed) s in Some (Done code, s)
  | InYield => let! (ok, s) := on_machine (task_yield_resume ops kernel kfree) s in Some (Done (if (ok : bool) then 0 else - RUM_EBUSY), s)
  end.
Definition syscall_continue (f : exception_frame) (c : continuation) w (s : system K P) := finish f (continue c w s) (later 16 w).
Definition syscall_resume (f : exception_frame) (c : continuation) w (s : system K P) := finish f (resume c w s) (later 16 w).
End Syscall.
