(* ===== verification/SyscallSafe.v ===== *)
(** * What system calls guarantee (kernel/process/syscall.c)

    Every system call, whichever way it ends, is a sequence of registry steps; a packet in
    user memory is checked before anything is done and the answer can then be delivered,
    so that a user program cannot stop the machine through its buffers; and a path is
    copied exactly. *)

From S2P Require Import Prelude Block Path Fs Paging Spaces Session Handles Gdt Keyboard Task Registry Scheduler Exits Elf Steps Process Terminal Snake Syscall.

Section Walk.
Context {K P : Type} (ops : fs_operations K) (kernel : Z) (kmalloc : Z → paging → Z * paging) (kfree : Z → paging → bool * paging) `{!HeapLaw kernel kmalloc kfree}.
Context (start_address halt_address : Z) (switch_esp : kstate K → Z) (inb : Z → P → Z * P) (outb : Z → Z → P → P).
Implicit Types (s t u : kstate K) (w : nat → list irq).
Notation aside := (aside kernel switch_esp ops start_address halt_address kfree).
Notation kstep := (kstep kernel switch_esp ops start_address halt_address kfree).
Notation registry := (registry kernel true).

(** From a well-formed registry, by registry steps. *)
Definition goes s t : Prop := registry s → rtc kstep s t.
#[local] Instance goes_preorder : PreOrder goes.
Proof.
  split; [intros s _; reflexivity|]. intros s t u A B R. etransitivity; [by apply A|]. apply B. eapply steps_keep; [exact _|exact R|by apply A].
Qed.
Lemma goes_aside s t : aside s t → goes s t.
Proof. intros A _. apply A. Qed.
Lemma goes_minor s t : minor s t → goes s t.
Proof. intros M. by apply goes_aside, minor_aside. Qed.
Lemma goes_step s t : kstep s t → goes s t.
Proof. intros S _. by apply rtc_once. Qed.
Lemma goes_interrupts (w : list irq) s : goes s (interrupts w s).
Proof. apply goes_step. by eapply k_interrupts. Qed.

(** Whatever the computation answers, it goes from [s]. *)
Definition leads {A : Type} (m : option (A * kstate K)) s : Prop := ∀ a t, m = Some (a, t) → goes s t.
Lemma leads_ret {A : Type} (a : A) s : leads (Some (a, s)) s.
Proof. intros b t [= _ <-]. reflexivity. Qed.
Lemma leads_at {A : Type} (a : A) s t : goes s t → leads (Some (a, t)) s.
Proof. intros G b u [= _ <-]. exact G. Qed.
Lemma leads_none {A : Type} s : leads (A := A) None s.
Proof. done. Qed.
Lemma leads_from {A : Type} (m : option (A * kstate K)) s t : goes s t → leads m t → leads m s.
Proof. intros G L a u E. etransitivity; [exact G|by eapply L]. Qed.
Lemma leads_bind {A B : Type} (m : option (A * kstate K)) (k : A → kstate K → option (B * kstate K)) s :
  leads m s → (∀ a t, leads (k a t) t) → leads (match m with Some (a, t) => k a t | None => None end) s.
Proof. intros L H b u. destruct m as [[a t]|] eqn:E; [|done]. intros Eu. etransitivity; [by eapply L|by eapply H]. Qed.

Lemma leads_files {A B : Type} (f : vfs K → A * vfs K) (k : A → kstate K → option (B * kstate K)) s :
  (∀ a t, leads (k a t) t) → leads (let '(a, t) := on_files f s in k a t) s.
Proof.
  intros H. destruct (on_files f s) as [a t] eqn:E. apply (leads_from _ s t); [|apply H]. apply goes_aside. by eapply files_aside.
Qed.
Lemma leads_malloc n s : leads (paged (kmalloc n) s) s.
Proof. intros a t E. apply goes_aside. by eapply malloc_aside. Qed.
Lemma leads_free a s : leads (paged (kfree a) s) s.
Proof. intros r t E. apply goes_aside. by eapply free_aside. Qed.
Lemma leads_copy space address data bytes s : leads (copy_out kernel space address data bytes s) s.
Proof. intros r t [_ ->]%paged_memory. apply goes_minor, minor_set_memory. apply spaces_copy_to_user. Qed.
Lemma goes_store_table x s : goes s (store_table x s).
Proof. unfold store_table. destruct x; [|reflexivity]. apply goes_minor, minor_upd_proc. done. Qed.
Lemma goes_store_handle id h s : goes s (store_handle id h s).
Proof. unfold store_handle. destruct h; [|reflexivity]. apply goes_minor, minor_upd_proc. done. Qed.
Lemma leads_cancel w s : leads (task_cancel_current_if_requested ops kernel switch_esp w s) s.
Proof. intros r t E. apply goes_step. by eapply k_cancel_current. Qed.
Lemma leads_exit_shell w s : leads (task_exit_shell_if_requested ops kernel switch_esp w s) s.
Proof. intros r t E. apply goes_step. by eapply k_exit_shell. Qed.
Lemma leads_wait e observed s : leads (task_wait kernel switch_esp e observed s) s.
Proof. unfold task_wait. apply leads_bind; [|intros; apply leads_ret]. intros r t E. apply goes_step. by eapply k_wait. Qed.
Lemma leads_wait_resume s : leads (wait_resume ops kernel kfree s) s.
Proof. intros r t E. apply goes_step. by eapply k_wait_resume. Qed.
Lemma leads_wait_child id nohang w s : leads (task_wait_child kernel switch_esp id nohang true w s) s.
Proof. intros r t E. apply goes_step. by eapply k_wait_child. Qed.
Lemma leads_wait_child_resume id nohang w s : leads (task_wait_child_resume ops kernel kfree switch_esp id nohang w s) s.
Proof. intros r t E. apply goes_step. by eapply k_wait_child_resume. Qed.
Lemma leads_collect id s : leads (task_collect_child ops kernel kfree id s) s.
Proof. intros r t E. apply goes_step. by eapply k_collect_child. Qed.
Lemma leads_sleep ms s : leads (task_sleep kernel switch_esp ms s) s.
Proof. intros r t E. apply goes_step. by eapply k_sleep. Qed.
Lemma leads_sleep_resume b s : leads (task_sleep_resume ops kernel kfree b s) s.
Proof. intros r t E. apply goes_step. by eapply k_sleep_resume. Qed.
Lemma leads_yield s : leads (task_yield kernel switch_esp s) s.
Proof. intros r t E. apply goes_step. by eapply k_yield. Qed.
Lemma leads_yield_resume s : leads (task_yield_resume ops kernel kfree s) s.
Proof. intros r t E. apply goes_step. by eapply k_yield_resume. Qed.
Lemma leads_start program arguments fg sh w s : leads (start_process ops kernel kmalloc kfree start_address halt_address program arguments fg sh w s) s.
Proof.
  intros [code child] t E R. eapply (start_process_launched ops kernel kmalloc kfree start_address halt_address switch_esp) in E; [|exact R]. destruct E as [[_ A]|(_ & _ & St & _)]; [apply A|exact St].
Qed.

(** One constructor of a handler at a time. *)
Ltac walk :=
  cbv zeta; try progress cbv beta iota;
  lazymatch goal with
  | |- leads (Some (_, ?s)) ?s => apply leads_ret
  | |- leads (Some (_, store_table _ _)) _ => apply leads_at, goes_store_table
  | |- leads (Some (_, store_handle _ _ _)) _ => apply leads_at, goes_store_handle
  | |- leads None _ => apply leads_none
  | |- leads (if ?b then _ else _) _ => destruct b
  | |- leads (paged (kmalloc _) _) _ => apply leads_malloc
  | |- leads (paged (kfree _) _) _ => apply leads_free
  | |- leads (copy_out _ _ _ _ _ _) _ => apply leads_copy
  | |- leads (task_collect_child _ _ _ _ _) _ => apply leads_collect
  | |- leads (start_process _ _ _ _ _ _ _ _ _ _ _ _) _ => apply leads_start
  | |- leads (match on_files ?f ?s with _ => _ end) ?s => apply (leads_files f); intros ? ?
  | |- leads (match ?x with _ => _ end) _ => first [apply (leads_bind x); [|intros ? ?] | destruct x]
  end.

Lemma stream_read_leads space address chunk w s : leads (stream_read ops kernel switch_esp space address chunk w s) s.
Proof.
  unfold stream_read. apply leads_bind; [apply leads_cancel|]. intros r t. destruct r as [u|]; [|apply leads_ret]. destruct (negb _); [apply leads_ret|]. cbv zeta.
  set (event := match task_shell_input_event t with Some e => Some e | None => _ end). clearbody event. apply (leads_from _ t (interrupts (w 2%nat) t)); [apply goes_interrupts|].
  generalize (interrupts (w 2%nat) t). intros t1. destruct (task_shell_has_completion t1); [apply leads_ret|]. destruct (read_keys _ _) as [buffer k].
  apply (leads_from _ t1 (set_keys k t1)); [apply goes_minor, minor_keys|]. generalize (set_keys k t1). intros t2. destruct (_ =? 0).
  - apply (leads_from _ t2 (interrupts (w 3%nat) t2)); [apply goes_interrupts|]. apply leads_bind; [apply leads_wait|]. intros. apply leads_ret.
  - repeat walk.
Qed.
Lemma transfer_file_leads space id address bytes chunk h data s : leads (transfer_file ops kernel space id address bytes chunk h data s) s.
Proof.
  unfold transfer_file. walk; [apply leads_ret|]. destruct data as [buffer|]; (destruct (on_files _ s) as [[[result h'] b] t] eqn:E; eapply files_aside in E; apply goes_aside in E; eapply leads_from; [exact E|]).
  - repeat walk.
  - cbv zeta. apply (leads_from _ t (store_handle id h' t)); [apply goes_store_handle|]. repeat walk.
Qed.
Lemma open_file_leads space address s : leads (Some (open_file ops kernel space address s)) s.
Proof.
  unfold open_file. destruct (request_in _ _ _ _ _ _); [|apply leads_ret]. cbv zeta. destruct (_ || _ || _ || _ || _ || _ || _); [apply leads_ret|]. destruct (copy_path _ _ _ _); [apply leads_ret|].
  destruct (on_files _ s) as [[result t'] t] eqn:E. eapply files_aside in E. apply goes_aside in E. eapply leads_from; [exact E|]. walk.
Qed.
Lemma close_file_leads id s : leads (Some (close_file ops id s)) s.
Proof. unfold close_file. destruct (on_files _ s) as [[result t'] t] eqn:E. eapply files_aside in E. apply goes_aside in E. eapply leads_from; [exact E|]. walk. Qed.
Lemma flush_file_leads id s : leads (Some (flush_file ops id s)) s.
Proof. unfold flush_file. destruct (on_files _ s) as [result t] eqn:E. eapply files_aside in E. apply goes_aside in E. eapply leads_from; [exact E|]. walk. Qed.
Lemma seek_file_leads space id address s : leads (seek_file ops kernel space id address s) s.
Proof.
  unfold seek_file. do 3 walk; try apply leads_ret. destruct (on_files _ s) as [[[result h'] b] t] eqn:E. eapply files_aside in E. apply goes_aside in E. eapply leads_from; [exact E|]. cbv zeta.
  apply (leads_from _ t (store_handle id h' t)); [apply goes_store_handle|]. repeat walk.
Qed.
Lemma list_directory_leads space id address s : leads (list_directory ops kernel space id address s) s.
Proof.
  unfold list_directory. do 3 walk; try apply leads_ret. destruct (on_files _ s) as [[[result h'] b] t] eqn:E. eapply files_aside in E. apply goes_aside in E. eapply leads_from; [exact E|]. cbv zeta.
  apply (leads_from _ t (store_handle id h' t)); [apply goes_store_handle|]. repeat walk.
Qed.
Lemma path_operation_leads space address which s : leads (Some (path_operation ops kernel space address which s)) s.
Proof.
  unfold path_operation. destruct (copy_path _ _ _ _); [apply leads_ret|]. destruct (negb _); [apply leads_ret|].
  destruct which; (destruct (on_files _ s) as [x t] eqn:E; eapply files_aside in E; apply goes_aside in E; eapply leads_from; [exact E|]); try apply leads_ret.
  destruct x as [e [f|]]; [|apply leads_ret]. apply leads_at, goes_minor, minor_upd_proc. done.
Qed.
Lemma working_directory_leads space address capacity s : leads (working_directory kernel space address capacity s) s.
Proof. unfold working_directory. repeat walk. Qed.
Lemma replace_file_leads space address s : leads (replace_file ops kernel kmalloc kfree space address s) s.
Proof.
  unfold replace_file. do 6 walk; try apply leads_ret. apply leads_bind; [destruct (_ =? 0); [apply leads_ret|apply leads_malloc]|]. intros block t. walk; [apply leads_ret|]. cbv zeta.
  destruct (_ && _); [repeat walk|]. destruct (on_files _ t) as [e u] eqn:E. eapply files_aside in E. apply goes_aside in E. eapply leads_from; [exact E|]. repeat walk.
Qed.
Lemma run_tail_leads id child r s : leads (run_tail ops kernel kfree id child r s) s.
Proof. unfold run_tail. repeat walk. Qed.
Lemma run_foreground_leads path arguments text w s :
  leads (run_foreground ops kernel kmalloc kfree start_address halt_address switch_esp path arguments text w s) s.
Proof.
  unfold run_foreground. walk; [apply leads_ret|]. apply leads_bind; [apply leads_start|]. intros [code child] t. walk; [apply leads_ret|].
  match goal with |- leads (let '(_, _) := ?m in _) t => assert (goes t (snd m)) as G; [|destruct m as [marked u]] end.
  { destruct text; [|reflexivity]. apply goes_step. by eapply k_mark_command. }
  cbn [snd] in G. eapply leads_from; [exact G|]. walk; [apply leads_none|]. destruct (task_query kernel child u); [|apply leads_none].
  apply leads_bind; [apply leads_wait_child|]. intros. apply run_tail_leads.
Qed.
Lemma run_finish_leads space result r block s : leads (run_finish kernel kfree space result r block s) s.
Proof. unfold run_finish. repeat walk. Qed.
Lemma run_child_leads space address w s : leads (run_child ops kernel kmalloc kfree start_address halt_address switch_esp space address w s) s.
Proof.
  unfold run_child. do 9 (walk; try apply leads_ret). 1: apply leads_malloc. walk; [apply leads_ret|]. walk; [repeat walk|]. apply leads_bind; [|intros; apply run_finish_leads].
  walk; apply run_foreground_leads.
Qed.
Lemma spawn_child_leads space address w s : leads (spawn_child ops kernel kmalloc kfree start_address halt_address space address w s) s.
Proof.
  unfold spawn_child. do 4 (walk; try apply leads_ret). apply leads_bind; [apply leads_malloc|]. intros block t. walk; [apply leads_ret|]. apply leads_bind.
  - destruct (load_arguments _ _ _ _); [apply leads_ret|apply leads_start].
  - intros [code child] u. repeat walk.
Qed.
Lemma wait_finish_leads space r c s : leads (wait_finish ops kernel kfree space r c s) s.
Proof. unfold wait_finish. repeat walk. Qed.
Lemma wait_child_leads space address w s : leads (wait_child ops kernel kfree switch_esp space address w s) s.
Proof.
  unfold wait_child. do 3 (walk; try apply leads_ret). apply leads_bind; [apply leads_wait_child|]. intros. apply wait_finish_leads.
Qed.
Lemma terminate_child_leads space address s : leads (Some (terminate_child kernel space address s)) s.
Proof.
  unfold terminate_child. destruct (request_in _ _ _ _ _ _); [|apply leads_ret]. cbv zeta. destruct (_ || _ || _ || _ || _); [apply leads_ret|].
  match goal with |- leads (Some (let '(_, _) := ?m in _)) s => assert (goes s (snd m)) as G by (apply goes_step; by eapply k_request_termination); destruct m as [code t] end. by apply leads_at.
Qed.
Lemma sleep_process_leads space address s : leads (sleep_process kernel switch_esp space address s) s.
Proof. unfold sleep_process. do 2 (walk; try apply leads_ret). apply leads_bind; [apply leads_sleep|]. intros. apply leads_ret. Qed.
Lemma yield_process_leads s : leads (yield_process kernel switch_esp s) s.
Proof. unfold yield_process. apply leads_bind; [apply leads_yield|]. intros. apply leads_ret. Qed.
Lemma process_list_leads space address s : leads (process_list kernel space address s) s.
Proof.
  unfold process_list. do 4 (walk; try apply leads_ret). destruct (task_process_list _ _ _) as [[count entries] total]. apply leads_bind; [destruct (_ =? 0); [apply leads_ret|apply leads_copy]|]. intros. repeat walk.
Qed.
Lemma command_text_leads space address capacity reserved s : leads (command_text_call kernel space address capacity reserved s) s.
Proof. unfold command_text_call. repeat walk. Qed.
Lemma session_control_leads space action address reserved s : leads (Some (session_control ops kernel space action address reserved s)) s.
Proof.
  unfold session_control. destruct (_ || _ || _ || _); [apply leads_ret|]. match goal with |- context [match ?x with inl _ => _ | inr _ => _ end] => destruct x end; [apply leads_ret|].
  match goal with |- leads (Some (let '(_, _) := ?m in _)) s => assert (goes s (snd m)) as G by (apply goes_step; by eapply k_session_control); destruct m as [code t] end. by apply leads_at.
Qed.

(** *** The whole machine *)

Implicit Types (x y : system K P).
Definition whole {A : Type} (m : option (A * system K P)) x : Prop := ∀ a y, m = Some (a, y) → goes (machine x) (machine y).
Lemma whole_at {A : Type} (a : A) x y : goes (machine x) (machine y) → whole (Some (a, y)) x.
Proof. intros G b z [= _ <-]. exact G. Qed.
Lemma whole_ret {A : Type} (a : A) x y : machine y = machine x → whole (Some (a, y)) x.
Proof. intros E. apply whole_at. rewrite E. reflexivity. Qed.
Lemma whole_lift m x s : leads m s → s = machine x → whole (lift m x) x.
Proof. intros L -> a y. unfold lift. destruct m as [[o k]|] eqn:E; [|done]. intros [= _ <-]. by eapply L. Qed.
Lemma whole_on {A : Type} (f : kstate K → option (A * kstate K)) x : leads (f (machine x)) (machine x) → whole (on_machine f x) x.
Proof. intros L a y. unfold on_machine. destruct (f (machine x)) as [[r k]|] eqn:E; [|done]. intros [= _ <-]. by eapply L. Qed.
Lemma whole_bind {A B : Type} (m : option (A * system K P)) (k : A → system K P → option (B * system K P)) x :
  whole m x → (∀ a y, whole (k a y) y) → whole (match m with Some (a, y) => k a y | None => None end) x.
Proof. intros L H b z. destruct m as [[a y]|] eqn:E; [|done]. intros Ez. etransitivity; [by eapply L|by eapply H]. Qed.
Lemma whole_from {A : Type} (m : option (A * system K P)) x y : goes (machine x) (machine y) → whole m y → whole m x.
Proof. intros G L a z E. etransitivity; [exact G|by eapply L]. Qed.
Lemma goes_hold s : goes s (snd (task_switch_hold s)).
Proof. apply goes_step. by eapply k_hold. Qed.
Lemma goes_release s : goes s (snd (task_switch_release s)).
Proof. apply goes_step. by eapply k_release. Qed.
(** Something shown while switches are held. *)
Lemma held_whole (f : system K P → system K P) (code : Z) x : (∀ y, machine (f y) = machine y) →
  whole (let '(held, k) := task_switch_hold (machine x) in
    if negb held then Some (Done (- RUM_EBUSY), set_machine k x) else
    let y := f (set_machine k x) in
    let '(released, k) := task_switch_release (machine y) in
    if negb released then None else Some (Done code, set_machine k y)) x.
Proof.
  intros Hf. pose proof (goes_hold (machine x)) as G. destruct (task_switch_hold (machine x)) as [held k]. cbn [snd] in G. destruct (negb held); [by apply whole_at|]. cbv zeta.
  pose proof (goes_release (machine (f (set_machine k x)))) as R. rewrite Hf in R |- *. change (machine (set_machine k x)) with k in *. destruct (task_switch_release k) as [released k']. cbn [snd] in R.
  destruct (negb released); [done|]. apply whole_at. etransitivity; [exact G|exact R].
Qed.
Lemma goes_disk {A : Type} (f : vfs K → A * vfs K) x : goes (machine x) (machine (snd (on_disk f x))).
Proof. unfold on_disk. destruct (on_files f (machine x)) as [r k] eqn:E. cbn. apply goes_aside. by eapply files_aside. Qed.
Lemma goes_load x : goes (machine x) (machine (snd (load_best ops x))).
Proof.
  unfold load_best. pose proof (goes_disk (fs_open ops None (Some score_file) FS_READ true) x) as A. destruct (on_disk _ x) as [[e file] x1]. cbn [snd] in A. case_bool_decide; [exact A|].
  pose proof (goes_disk (fs_read ops file 0 (Some (replicate 5 0)) 5) x1) as B. destruct (on_disk _ x1) as [[r data] x2]. cbn [snd] in B.
  pose proof (goes_disk (fs_close ops file) x2) as C. destruct (on_disk _ x2) as [c x3]. cbn [snd] in C. assert (goes (machine x) (machine x3)) as G by (etransitivity; [exact A|]; etransitivity; [exact B|exact C]).
  by destruct (_ || _).
Qed.
Lemma goes_save x : goes (machine x) (machine (snd (save_best ops inb outb x))).
Proof.
  unfold save_best. cbv zeta. destruct (_ <=? _); [reflexivity|].
  match goal with |- context [on_disk ?f x] => pose proof (goes_disk f x) as A; destruct (on_disk f x) as [e x1] end. cbn [snd] in A. by case_bool_decide.
Qed.
Lemma start_whole now x : whole (snake_start ops kmalloc inb outb now x) x.
Proof.
  unfold snake_start. destruct (snake_active x); [by apply whole_ret|]. apply whole_bind; [apply whole_on, leads_malloc|]. intros block y. destruct (block =? 0); [by apply whole_ret|].
  pose proof (goes_load y) as G. destruct (load_best ops y) as [stored z]. cbn [snd] in G. by apply whole_at.
Qed.
Lemma receive_goes c now x y : snake_receive ops kfree inb outb c now x = Some y → goes (machine x) (machine y).
Proof.
  unfold snake_receive. destruct (playing (arcade x)) as [[block g]|]; [|intros [= <-]; reflexivity]. cbv zeta. destruct (_ =? 113).
  - unfold quit. pose proof (goes_save x) as G. destruct (save_best _ _ _ x) as [saved z]. cbn [snd] in G. destruct (on_machine _ z) as [[r u]|] eqn:E; [|done].
    apply (whole_on (paged (kfree block)) z) in E; [|apply leads_free]. intros [= <-]. etransitivity; [exact G|]. etransitivity; [exact E|]. by destruct saved.
  - destruct (_ =? 114).
    + pose proof (goes_save x) as G. destruct (save_best _ _ _ x) as [saved z]. cbn [snd] in G. intros [= <-]. exact G.
    + destruct (_ && _); intros [= <-]; [reflexivity|]. repeat case_match; reflexivity.
Qed.
Lemma tick_goes now x : goes (machine x) (machine (snake_tick ops inb outb now x)).
Proof.
  unfold snake_tick. destruct (negb _); [reflexivity|]. destruct (playing (arcade x)) as [[block g]|]; [|reflexivity]. destruct (SnakeModel.snake_model_step (model g)) as [event m]. cbv zeta.
  set (y := render _). assert (machine y = machine x) as Ey by done. clearbody y. rewrite <- Ey. destruct (_ || _); [|case_bool_decide; reflexivity].
  pose proof (goes_save y) as G. destruct (save_best _ _ _ y) as [saved z]. exact G.
Qed.
Lemma keys_goes n x y : snake_keys ops kfree inb outb n x = Some y → goes (machine x) (machine y).
Proof.
  revert x. induction n as [|n IH]; intros x; cbn [snake_keys]; [intros [= <-]; reflexivity|]. destruct (keyboard_read _) as [[key|] k]; [|intros [= <-]; reflexivity]. cbv zeta.
  set (z := set_machine _ x). assert (goes (machine x) (machine z)) as G by apply goes_minor, minor_keys. clearbody z. destruct (snake_receive _ _ _ _ _ _ z) as [u|] eqn:E; [|done].
  apply receive_goes in E. intros H%IH. etransitivity; [exact G|]. etransitivity; [exact E|exact H].
Qed.
Lemma goes_set_interrupts (l : list irq) x : goes (machine x) (machine (set_machine (interrupts l (machine x)) x)).
Proof. apply goes_interrupts. Qed.
Lemma turn_whole w x : whole (snake_turn ops kernel kfree switch_esp inb outb w x) x.
Proof.
  unfold snake_turn. destruct (negb (snake_active x)); [by apply whole_ret|]. cbv zeta. generalize (task_event_sequence (Some task_work_event) (machine x)). intros observed.
  eapply whole_from; [apply (goes_set_interrupts (w 2%nat))|]. generalize (set_machine (interrupts (w 2%nat) (machine x)) x). clear x. intros x. apply whole_bind.
  - destruct (task_current_cancelled (machine x)); [|by apply whole_ret]. destruct (snake_receive _ _ _ _ _ _ x) as [y|] eqn:E; [|done]. apply receive_goes in E. eapply whole_from; [exact E|]. apply whole_on, leads_cancel.
  - intros r y. destruct r as [u|]; [|by apply whole_ret]. destruct (snake_keys _ _ _ _ _ y) as [z|] eqn:E; [|done]. apply keys_goes in E. eapply whole_from; [exact E|]. cbv zeta.
    eapply whole_from; [apply (tick_goes (timer_ticks (machine z)))|]. generalize (snake_tick ops inb outb (timer_ticks (machine z)) z). intros v. destruct (negb (snake_active v)); [by apply whole_ret|].
    eapply whole_from; [apply (goes_set_interrupts (w 3%nat))|]. apply whole_bind; [apply whole_on, leads_wait|]. intros. by apply whole_ret.
Qed.
Lemma console_whole action r1 r2 w x : whole (console_action ops kernel kmalloc kfree switch_esp inb outb action r1 r2 w x) x.
Proof.
  unfold console_action. do 3 (match goal with |- whole (if ?b then _ else _) _ => destruct b end; [by apply whole_ret|]). destruct (_ =? _).
  - by apply (held_whole (λ y, serial inb outb clear_sequence (upd_display (terminal_clear outb) y)) 0 x).
  - apply whole_bind; [apply start_whole|]. intros [] y; [apply turn_whole|by apply whole_ret].
Qed.
Lemma transfer_whole space id address bytes write w x : whole (transfer ops kernel switch_esp inb outb space id address bytes write w x) x.
Proof.
  unfold transfer. cbv zeta. destruct (process_handle_get _ _) as [h|]; [|by apply whole_ret]. do 5 (match goal with |- whole (if ?b then _ else _) _ => destruct b end; [by apply whole_ret|]).
  match goal with |- whole (if ?b then _ else _) _ => destruct b end; [by eapply whole_lift; [apply stream_read_leads|]|].
  match goal with |- whole (if ?b then _ else _) _ => destruct b end; [by apply whole_ret|]. case_bool_decide.
  - unfold write_output. set (buffer := default [] _). by apply (held_whole (λ y, upd_display (λ d, on_serial (serial_text inb outb buffer) (terminal_write outb buffer d)) y) (len buffer) x).
  - by eapply whole_lift; [apply transfer_file_leads|].
Qed.
Lemma checked_leads ok r s : leads r s → leads (checked ok r s) s.
Proof. intros L. unfold checked. destruct ok; [done|apply leads_ret]. Qed.
Lemma call_whole n space f w x : whole (call ops kernel kmalloc kfree start_address halt_address switch_esp inb outb n space f w x) x.
Proof.
  unfold call. cbv zeta. destruct n as [n|]; [|by apply whole_ret].
  destruct n; try apply transfer_whole; try apply console_whole; try (by apply whole_ret);
    try (eapply whole_lift; [|reflexivity]; try apply checked_leads;
         first [apply open_file_leads | apply close_file_leads | apply seek_file_leads | apply list_directory_leads | apply path_operation_leads | apply working_directory_leads
               | apply flush_file_leads | apply run_child_leads | apply yield_process_leads | apply sleep_process_leads | apply process_list_leads | apply spawn_child_leads
               | apply wait_child_leads | apply terminate_child_leads | apply replace_file_leads | apply command_text_leads | apply session_control_leads]).
  intros a y. destruct (task_exit_with_status _ _ _ _ _ _) as [k|] eqn:E; [|done]. intros [= _ <-]. apply goes_step. by eapply k_exit.
Qed.
Lemma finish_whole f r w x : whole r x → whole (finish ops kernel switch_esp f r w) x.
Proof.
  intros L. unfold finish. apply whole_bind; [exact L|]. intros o y. destruct o; try by apply whole_ret. apply whole_bind; [apply whole_on, leads_exit_shell|]. intros. by apply whole_ret.
Qed.
Lemma dispatch_whole frame w x : whole (syscall_dispatch ops kernel kmalloc kfree start_address halt_address switch_esp inb outb frame w x) x.
Proof.
  unfold syscall_dispatch. destruct frame as [f|]; [|done]. match goal with |- whole (if ?b then _ else _) _ => destruct b end; [by apply whole_ret|]. cbv zeta.
  set (y := set_machine _ x). assert (goes (machine x) (machine y)) as G by (etransitivity; [apply goes_minor, (minor_iflag true)|apply goes_interrupts]). clearbody y. eapply whole_from; [exact G|].
  apply whole_bind; [apply whole_on, leads_cancel|]. intros r z. destruct r; [|by apply whole_ret]. apply finish_whole, call_whole.
Qed.
Lemma continue_whole c w x : whole (continue ops kernel kfree switch_esp inb outb c w x) x.
Proof. unfold continue. destruct c; try done; [by eapply whole_lift; [apply stream_read_leads|]|apply turn_whole]. Qed.
Lemma resume_whole c w x : whole (resume ops kernel kfree switch_esp inb outb c w x) x.
Proof.
  unfold resume. destruct c.
  - apply whole_bind; [apply whole_on, leads_wait_resume|]. intros r y. destruct (valid_wait r); [apply continue_whole|by apply whole_ret].
  - apply whole_bind; [apply whole_on|]. { unfold run_foreground_resume. apply leads_bind; [apply leads_wait_child_resume|]. intros. apply run_tail_leads. }
    intros r y. by eapply whole_lift; [apply run_finish_leads|].
  - apply whole_bind; [apply whole_on, leads_wait_child_resume|]. intros r y. by eapply whole_lift; [apply wait_finish_leads|].
  - apply whole_bind; [apply whole_on, leads_sleep_resume|]. intros. by apply whole_ret.
  - apply whole_bind; [apply whole_on, leads_yield_resume|]. intros. by apply whole_ret.
  - apply whole_bind; [apply whole_on, leads_wait_resume|]. intros. apply continue_whole.
Qed.
End Walk.

(** C29: every system call keeps the task registry. Whatever a user program asks and
    whatever interrupts arrive, a dispatched call, a loop of a call that goes round and a
    call resumed after a wait, up to their return, their wait or the caller's exit, are
    sequences of registry steps, and leave the registry well formed: no call can run two
    tasks, reuse an id, lose a wakeup's registration or leave a task without its address
    space. *)
Theorem syscalls_keep_the_registry (K P : Type) (ops : fs_operations K) (kernel : Z) (kmalloc : Z → paging → Z * paging) (kfree : Z → paging → bool * paging)
    `{!HeapLaw kernel kmalloc kfree} (start_address halt_address : Z) (switch_esp : kstate K → Z) (inb : Z → P → Z * P) (outb : Z → Z → P → P)
    (x y : system K P) (r : dispatched) (w : nat → list irq) :
  let kstep := kstep kernel switch_esp ops start_address halt_address kfree in
  registry kernel true (machine x) →
  (∃ frame, syscall_dispatch ops kernel kmalloc kfree start_address halt_address switch_esp inb outb frame w x = Some (r, y)) ∨
  (∃ frame c, syscall_continue ops kernel kfree switch_esp inb outb frame c w x = Some (r, y)) ∨
  (∃ frame c, syscall_resume ops kernel kfree switch_esp inb outb frame c w x = Some (r, y)) →
  registry kernel true (machine y) ∧ rtc kstep (machine x) (machine y).
Proof.
  intros kstep R H. assert (rtc kstep (machine x) (machine y)) as St; [|split; [eapply steps_keep; [exact _|exact R|exact St]|exact St]].
  destruct H as [[frame H]|[(frame & c & H)|(frame & c & H)]].
  - eapply (dispatch_whole ops kernel kmalloc kfree start_address halt_address switch_esp inb outb frame w x); [exact H|exact R].
  - eapply (finish_whole ops kernel kmalloc kfree start_address halt_address switch_esp frame _ _ x); [apply (continue_whole ops kernel kmalloc kfree)|exact H|exact R].
  - eapply (finish_whole ops kernel kmalloc kfree start_address halt_address switch_esp frame _ _ x); [apply (resume_whole ops kernel kmalloc kfree)|exact H|exact R].
Qed.

(** The boot task of the small machine, which owns no console, in the loop of a read. *)
Definition small_system : system (gmap Z Z) (list Z) := System TaskSample.ready_worker (Terminal ∅ 0 0 7 []) (Game None 0 0).
Lemma syscalls_keep_the_registry_witness :
  ∃ y, syscall_continue SampleBackend.ops 1 TaskSample.kfree TaskSample.esp SnakeSample.inb SnakeSample.outb (core no_frame) (InRead 0x80000000 1) (λ _, []) small_system
       = Some (SysReturned (set_eax (wrap32 (- RUM_EACCES)) (core no_frame)), y) ∧ registry 1 true (machine y).
Proof.
  exists small_system. assert (syscall_continue SampleBackend.ops 1 TaskSample.kfree TaskSample.esp SnakeSample.inb SnakeSample.outb (core no_frame) (InRead 0x80000000 1) (λ _, []) small_system
    = Some (SysReturned (set_eax (wrap32 (- RUM_EACCES)) (core no_frame)), small_system)) as E by by vm_compute.
  split; [exact E|].
  eapply (syscalls_keep_the_registry _ _ SampleBackend.ops 1 LaunchSample.kmalloc TaskSample.kfree 0x200 0x300 TaskSample.esp SnakeSample.inb SnakeSample.outb small_system small_system); [exact ready_worker_registry|].
  right. left. eexists _, _. exact E.
Defined.

(** ** Buffers *)

Section Buffers.
Context {K P : Type} (ops : fs_operations K) (kernel : Z) (switch_esp : kstate K → Z) (inb : Z → P → Z * P) (outb : Z → Z → P → P).
Implicit Types (s t : kstate K).

Lemma halted_store p l m : halted (store_bytes p l m) = halted m.
Proof.
  unfold store_bytes. assert (∀ (q : paging) a, halted q = halted m → halted (fst (foldl (λ '(s, a) x, (put_byte a x s, a + 1)) (q, a) l)) = halted m) as H; [|by apply H].
  induction l as [|x l IH]; intros q a E; [done|]. cbn [foldl]. by apply IH.
Qed.
Lemma halted_copy space d src n m : halted (snd (paging_copy_to_user kernel space d src n m)) = halted m.
Proof.
  unfold paging_copy_to_user. destruct (_ && _); [done|]. destruct (user_bytes _ _ _ _ _ _); [|done]. cbv zeta. cbn [snd].
  generalize (Z.to_nat n), d, (take (Z.to_nat n) (default [] src)). intros k. revert m. induction k as [|k IH]; intros m u l; cbn [copy_out_loop]; [done|]. cbv zeta. destruct (_ =? 0); [done|]. rewrite IH. apply halted_store.
Qed.
Lemma copy_out_total space a data n s : halted (memory s) = false → ∃ ok t, copy_out kernel space a data n s = Some (ok, t) ∧ halted (memory t) = false ∧
  (user_bytes kernel space a n true (memory s) = true → ok = true).
Proof.
  intros H. unfold copy_out, paged. pose proof (halted_copy space a (Some data) n (memory s)) as E. assert (user_bytes kernel space a n true (memory s) = true → fst (paging_copy_to_user kernel space a (Some data) n (memory s)) = true) as G.
  { intros U. unfold paging_copy_to_user. rewrite andb_false_r, U. done. }
  destruct (paging_copy_to_user _ _ _ _ _ _) as [ok m]. cbn [fst snd] in *. rewrite E, H. eexists _, _. split; [done|]. split; [by rewrite <- H|done].
Qed.
Lemma user_bytes_prefix space a n k b m : 0 ≤ k ≤ n → user_bytes kernel space a n b m = true → user_bytes kernel space a k b m = true.
Proof.
  intros Hk. unfold user_bytes. destruct (_ || _); [done|]. destruct (Z.eqb_spec k 0); [done|]. rewrite (proj2 (Z.eqb_neq n 0)) by lia. rewrite Z.geb_leb, !Z.gtb_ltb.
  destruct (Z.ltb_spec a RUM_USER_BASE), (Z.leb_spec RUM_USER_END a), (Z.ltb_spec (RUM_USER_END - a) n), (Z.ltb_spec (RUM_USER_END - a) k); cbn [orb]; try done; try lia.
  rewrite !all_range_true. intros A i Hi. apply A. split; [lia|]. assert ((a + k - 1) / Pmm.PAGE_SIZE ≤ (a + n - 1) / Pmm.PAGE_SIZE) by (apply Z.div_le_mono; [done|lia]). lia.
Qed.
Lemma accessible_bytes space a n b s : n ≠ 0 → accessible kernel space a n b s = true → user_bytes kernel space a n b (memory s) = true.
Proof. intros N. unfold accessible, paging_user_accessible. rewrite (proj2 (Z.eqb_neq n 0) N). cbn [orb]. by intros [_ ?]%andb_true_iff. Qed.
Lemma request_bytes space a n b s l : n ≠ 0 → request_in kernel space a n b s = Some l → user_bytes kernel space a n b (memory s) = true.
Proof. intros N. unfold request_in. destruct (accessible _ _ _ _ _ _) eqn:A; [|done]. intros _. by apply accessible_bytes. Qed.
Lemma files_memory {A : Type} (f : vfs K → A * vfs K) s r t : on_files f s = (r, t) → memory t = memory s.
Proof. unfold on_files. destruct (f (files s)). by intros [= _ <-]. Qed.
Lemma store_handle_memory id h s : memory (store_handle id h s) = memory s.
Proof. unfold store_handle. destruct h; [|done]. unfold upd_proc. by destruct (process _). Qed.

Lemma seek_total space id a s : halted (memory s) = false → seek_file ops kernel space id a s ≠ None.
Proof.
  intros H. unfold seek_file. destruct (process_handle_get _ _); [|done]. destruct (request_in _ _ _ _ _ _) as [l|] eqn:R; [|done]. apply request_bytes in R; [|done]. cbv zeta. destruct (_ || _ || _ || _ || _ || _); [done|].
  destruct (on_files _ s) as [[[result h'] b] t] eqn:E. apply files_memory in E. destruct (negb _); [done|]. set (u := store_handle id h' t). assert (memory u = memory s) as M by (unfold u; by rewrite store_handle_memory). clearbody u.
  match goal with |- context [copy_out kernel space a ?d 32 u] => destruct (copy_out_total space a d 32 u) as (ok & v & -> & _ & O) end; [by rewrite M|]. rewrite O; [done|]. by rewrite M.
Qed.
Lemma readdir_total space id a s : halted (memory s) = false → list_directory ops kernel space id a s ≠ None.
Proof.
  intros H. unfold list_directory. destruct (process_handle_get _ _); [|done]. destruct (request_in _ _ _ _ _ _) as [l|] eqn:R; [|done]. apply request_bytes in R; [|done]. cbv zeta. destruct (_ || _ || _); [done|].
  destruct (on_files _ s) as [[[result h'] b] t] eqn:E. apply files_memory in E. destruct (_ <? 0); [done|]. set (u := store_handle id h' t). assert (memory u = memory s) as M by (unfold u; by rewrite store_handle_memory). clearbody u.
  match goal with |- context [copy_out kernel space a ?d 88 u] => destruct (copy_out_total space a d 88 u) as (ok & v & -> & _ & O) end; [by rewrite M|]. rewrite O; [done|]. by rewrite M.
Qed.
Lemma getcwd_total space a capacity s : halted (memory s) = false → working_directory kernel space a capacity s ≠ None.
Proof.
  intros H. unfold working_directory. destruct (_ =? 0); [done|]. destruct (negb _); [done|]. destruct (current_context s); [|done]. cbv zeta. destruct (_ >? _); [done|].
  match goal with |- context [copy_out kernel space a ?d ?n s] => destruct (copy_out_total space a d n s H) as (ok & v & -> & _) end. done.
Qed.
Lemma command_text_total space a capacity reserved s : halted (memory s) = false → command_text_call kernel space a capacity reserved s ≠ None.
Proof.
  intros H. unfold command_text_call. destruct (negb _); [done|]. destruct (task_current_command_text s); [|done]. destruct (_ =? 0); [done|]. destruct (negb _); [done|]. cbv zeta. destruct (_ >? _); [done|].
  match goal with |- context [copy_out kernel space a ?d ?n s] => destruct (copy_out_total space a d n s H) as (ok & v & -> & _) end. done.
Qed.
Lemma process_list_total space a s : halted (memory s) = false → process_list kernel space a s ≠ None.
Proof.
  intros H. unfold process_list. destruct (request_in _ _ _ _ _ _) as [l|]; [|done]. cbv zeta. do 3 (match goal with |- (if ?b then _ else _) ≠ None => destruct b end; [done|]).
  destruct (task_process_list _ _ _) as [[count entries] total].
  match goal with |- context [if ?c then Some (true, s) else ?m] => assert (∃ ok t, (if c then Some (true, s) else m) = Some (ok, t) ∧ halted (memory t) = false) as (ok & t & -> & Ht) end.
  { destruct (_ =? 0); [by eexists _, _|]. match goal with |- context [copy_out kernel space ?b ?d ?n s] => destruct (copy_out_total space b d n s H) as (ok & v & -> & Hv & _) end. by eexists _, _. }
  destruct (negb ok); [done|]. match goal with |- context [copy_out kernel space a ?d ?n t] => destruct (copy_out_total space a d n t Ht) as (ok' & v & -> & _) end. done.
Qed.
(** What a read answers never exceeds what was asked. *)
Lemma fs_read_bound token offset buffer n (v : vfs K) : let '((r, _), _) := fs_read ops token offset buffer n v in transferred r ≤ n ∨ transferred r = 0.
Proof.
  unfold fs_read, io. destruct (_ && _); [by right|]. destruct (_ >? _); [by right|]. unfold locked. destruct (enter v) as [e v1]. case_bool_decide; [by right|].
  destruct (find_reference token v1); [|by right]. do 3 (match goal with |- context [if ?b then ((io_failure _, _), _) else _] => destruct b end; [by right|]).
  destruct buffer as [data|]; [|by right]. destruct (n =? 0); [by right|]. destruct (op_read ops _ _ _ _ _) as [[r b] k]. rewrite Z.gtb_ltb. destruct (Z.ltb_spec n (transferred r)); [by right|by left].
Qed.
Lemma read_bound i f h buffer n (v : vfs K) : pending_error h ≤ 0 →
  let '((result, _, _), _) := process_handle_read ops i f (Some h) buffer n v in result > 0 → result ≤ n.
Proof.
  intros Hp. unfold process_handle_read, Handles.transfer. do 6 (match goal with |- context [if ?b then ((_, _, _), _) else _] => destruct b end; [intros Hr; by vm_compute in Hr|]).
  destruct (negb (pending_error h =? 0)); [lia|]. pose proof (fs_read_bound (hreference h) (hoffset h) buffer n v) as T. destruct (fs_read ops (hreference h) (hoffset h) buffer n v) as [[r b] v'].
  destruct (Z.eqb_spec (transferred r) 0); [|lia]. intros Hr. exfalso. revert Hr. by destruct (io_error r).
Qed.
Lemma transfer_file_total space id a bytes chunk h data s : halted (memory s) = false → pending_error h ≤ 0 → 0 ≤ chunk ≤ bytes →
  (data = None → user_bytes kernel space a bytes true (memory s) = true) → transfer_file ops kernel space id a bytes chunk h data s ≠ None.
Proof.
  intros H Hp Hc U. unfold transfer_file. destruct (_ >? _); [done|]. destruct data as [d|]; [by destruct (on_files _ s) as [[[? ?] ?] ?]|]. specialize (U eq_refl). unfold on_files.
  pose proof (read_bound (in_irq s) (iflag s) h (Some (replicate (Z.to_nat chunk) 0)) chunk (files s) Hp) as B. destruct (process_handle_read _ _ _ _ _ _ _) as [[[result h'] b] v]. cbv zeta.
  set (u := store_handle id h' (set_files v s)). assert (memory u = memory s) as M by (unfold u; by rewrite store_handle_memory). clearbody u. rewrite Z.gtb_ltb. destruct (Z.ltb_spec 0 result); [|done].
  match goal with |- context [copy_out kernel space a ?d result u] => destruct (copy_out_total space a d result u) as (ok & w & -> & _ & O) end; [by rewrite M|]. rewrite O; [done|].
  rewrite M. eapply user_bytes_prefix; [|exact U]. lia.
Qed.
(** A hold that was granted can be released. *)
Lemma hold_release s k (y : kstate K) : 0 ≤ switch_holds (get_task s (cur s)) → task_switch_hold s = (true, k) → fst (task_switch_release k) = true.
Proof.
  unfold task_switch_hold. intros H. destruct (negb (ready s) || in_irq s) eqn:G; [done|]. destruct (negb (cur s =? IDLE) && _) eqn:G2; [|done]. apply andb_true_iff in G2 as [G2 _]. intros [= <-].
  unfold task_switch_release. change (ready (upd_task _ _ s)) with (ready s). change (in_irq (upd_task _ _ s)) with (in_irq s). rewrite G. change (cur (upd_task _ _ s)) with (cur s). rewrite G2. cbn [andb].
  rewrite get_upd_task, decide_True by done. cbn. destruct (Z.eqb_spec (switch_holds (get_task s (cur s)) + 1) 0); [lia|done].
Qed.
(** Reading keys ends, also for a task that is asked to stop, if that task may end. *)
Lemma stream_total `{!BackendLaw ops} space a chunk w s : registry kernel true s → halted (memory s) = false → (task_current_cancelled s = true → may_end ops kernel s) →
  stream_read ops kernel switch_esp space a chunk w s ≠ None.
Proof.
  intros R H Me. unfold stream_read, task_cancel_current_if_requested. destruct (task_current_cancelled s) eqn:C.
  { destruct (terminate_fate ops kernel switch_esp TASK_TERMINATION_CANCELLED 0 None 0 w s (Me eq_refl)) as (t & -> & _). done. }
  destruct (negb (task_current_owns_console s)); [done|]. cbv zeta. set (e := match task_shell_input_event s with Some e => Some e | None => _ end). clearbody e.
  pose proof (calm_interrupts kernel _ _ _ (w 2%nat) (calm_refl kernel true s R)) as C2. destruct (kept_interrupts (w 2%nat) s) as [M2 _ _ _ _ _ _].
  revert C2 M2. generalize (interrupts (w 2%nat) s). intros t C2 M2. destruct (task_shell_has_completion t); [done|]. destruct (read_keys _ _) as [buffer k].
  assert (calm kernel true s (set_keys k t)) as C3 by (eapply calm_minor; [exact C2|apply minor_keys]). assert (memory (set_keys k t) = memory s) as M3 by done.
  revert C3 M3. generalize (set_keys k t). clear t C2 M2. intros t C3 M3. destruct (len buffer =? 0).
  - pose proof (calm_interrupts kernel _ _ _ (w 3%nat) C3) as C4. destruct (kept_interrupts (w 3%nat) t) as [M4 _ _ _ _ _ _].
    unfold task_wait. pose proof (wait_total kernel switch_esp e (task_event_sequence e s) false 0 (interrupts (w 3%nat) t) (calm_registry _ _ _ _ C4)) as T.
    destruct (wait_common _ _ _ _ _ _ _) as [[r u]|]; [done|]. exfalso. apply T; [by rewrite M4, M3|done].
  - destruct (copy_out_total space a buffer (len buffer) t) as (ok & u & -> & _); [by rewrite M3|done].
Qed.
(** What a transfer on a handle relies on: the error kept for a later call is an error code,
    and keys are read in a well-formed registry, by a task that may end if it is cancelled. *)
Definition handle_sound `{!BackendLaw ops} (h : process_handle) s : Prop :=
  pending_error h ≤ 0 ∧ (hkind h = HANDLE_INPUT → registry kernel true s ∧ (task_current_cancelled s = true → may_end ops kernel s)).
Lemma transfer_total `{!BackendLaw ops} space id a bytes write w (x : system K P) : halted (memory (machine x)) = false → 0 ≤ switch_holds (get_task (machine x) (cur (machine x))) → 0 ≤ bytes →
  (∀ h, process_handle_get (table (machine x)) id = Some h → handle_sound h (machine x)) →
  transfer ops kernel switch_esp inb outb space id a bytes write w x ≠ None.
Proof.
  intros H Hs Hb Hh. unfold transfer. cbv zeta. destruct (process_handle_get _ _) as [h|]; [|done]. destruct (Hh h eq_refl) as [Hp Hi]. do 2 (match goal with |- (if ?b then _ else _) ≠ None => destruct b end; [done|]).
  destruct (Z.eqb_spec bytes 0); [done|]. destruct (accessible _ _ _ _ _ _) eqn:Ac; [|done]. cbn [negb]. apply accessible_bytes in Ac; [|done]. destruct (negb (may_use_files _)); [done|].
  case_bool_decide as Ni. { destruct (Hi Ni) as [R Me]. unfold lift. pose proof (stream_total space a (Z.min bytes CONSOLE_CHUNK) w (machine x) R H Me) as T. by destruct (stream_read _ _ _ _ _ _ _ _) as [[? ?]|]. }
  match goal with |- (if ?b then _ else _) ≠ None => destruct b eqn:Wd end; [done|]. case_bool_decide.
  - unfold write_output. destruct (task_switch_hold (machine x)) as [held k] eqn:Hd. destruct held; [|done]. cbn [negb]. cbv zeta. pose proof (hold_release _ _ k Hs Hd) as R.
    change (machine (upd_display _ (set_machine k x))) with k. destruct (task_switch_release k) as [released k']. cbn in R. by rewrite R.
  - unfold lift. match goal with |- context [transfer_file ?o ?q space id a bytes ?c h ?d ?s] => pose proof (transfer_file_total space id a bytes c h d s H Hp) as T; destruct (transfer_file o q space id a bytes c h d s) as [[? ?]|] end; [done|].
    exfalso. apply T; [unfold FILE_CHUNK; lia| |done]. intros E. rewrite E, andb_true_r in Wd. subst write. exact Ac.
Qed.
End Buffers.

(** C30: a user program cannot stop the machine through its buffers. In a machine that runs
    and counts the holds on switches from zero, for every address, length and handle:
    seeking, listing a directory, asking for the working directory, the command text or the
    process list end with a result, and so does every transfer: to and from a file, to the
    console and from the keyboard. For a transfer the error kept in the handle is an error
    code, and a read of the keyboard, which may block, switch or end a cancelled caller, is
    made in a well-formed registry by a task that may end if it is cancelled. The buffer is
    checked before the operation and is still there when the answer is copied out, and a
    hold on switches that was granted is given back. *)
Theorem user_buffers_cannot_halt (K P : Type) (ops : fs_operations K) `{!BackendLaw ops} (kernel : Z) (switch_esp : kstate K → Z) (inb : Z → P → Z * P) (outb : Z → Z → P → P)
    (x : system K P) (space id a bytes : Z) (write : bool) (w : nat → list irq) :
  let s := machine x in
  halted (memory s) = false → 0 ≤ switch_holds (get_task s (cur s)) → 0 ≤ bytes →
  (∀ h, process_handle_get (table s) id = Some h → handle_sound ops kernel h s) →
  seek_file ops kernel space id a s ≠ None ∧ list_directory ops kernel space id a s ≠ None ∧
  transfer ops kernel switch_esp inb outb space id a bytes write w x ≠ None ∧
  working_directory kernel space a bytes s ≠ None ∧ (∀ reserved, command_text_call kernel space a bytes reserved s ≠ None) ∧ process_list kernel space a s ≠ None.
Proof.
  intros s H Hs Hb Hh. split_and!; [by apply seek_total|by apply readdir_total|exact (transfer_total ops kernel switch_esp inb outb space id a bytes write w x H Hs Hb Hh)|by apply getcwd_total|intros; by apply command_text_total|by apply process_list_total].
Qed.
(** The program of Exits.v in a machine with one page of user memory: it reads four bytes of
    its open file into that page, and then tries the keyboard, which it does not own. *)
Definition reading_machine : kstate (gmap Z Z) := set_iflag true (set_memory PagingSample.state ExitSample.program).
Definition reading_system : system (gmap Z Z) (list Z) := System reading_machine (Terminal ∅ 0 0 7 []) (Game None 0 0).
Lemma reading_registry : registry 1 true reading_machine.
Proof.
  eapply (outside_registry 1 true ExitSample.program); [exact sample_program_registry|]. constructor; try done.
  - intros i a _ _ Kn. change (known_space 1 a TaskSample.memory0 = true) in Kn. change (known_space 1 a PagingSample.state = true). unfold known_space in *. apply andb_true_iff in Kn as [_ Kn].
    apply orb_true_iff in Kn as [E|E]; [cbn in E |- *; by rewrite E|done].
  - intros _ a Kn. change (known_space 1 a PagingSample.state = true) in Kn. unfold known_space in Kn. apply andb_true_iff in Kn as [_ Kn]. apply orb_true_iff in Kn as [E|E].
    + apply Z.eqb_eq in E as <-. vm_compute. reflexivity.
    + change ((7 =? a) || false = true) in E. rewrite orb_false_r in E. apply Z.eqb_eq in E as <-. vm_compute. reflexivity.
Qed.
Lemma user_buffers_cannot_halt_witness :
  let read id n := transfer SampleBackend.ops 1 TaskSample.esp SnakeSample.inb SnakeSample.outb 7 id 0x80000000 n false (λ _, []) reading_system in
  fst <$> read 3 4 = Some (Done 4) ∧ read 3 4 ≠ None ∧ fst <$> read 0 4 = Some (Done (- RUM_EACCES)) ∧ read 0 4 ≠ None ∧ fst <$> read 3 0x2000 = Some (Done (- RUM_EFAULT)).
Proof.
  intros read. split; [vm_compute; reflexivity|]. split; [|split; [vm_compute; reflexivity|split; [|vm_compute; reflexivity]]].
  - refine (proj1 (proj2 (proj2 (user_buffers_cannot_halt _ _ SampleBackend.ops 1 TaskSample.esp SnakeSample.inb SnakeSample.outb reading_system 7 3 0x80000000 4 false (λ _, []) _ _ _ _)))).
    + reflexivity.
    + vm_compute. discriminate.
    + discriminate.
    + intros h E. assert (process_handle_get (table reading_machine) 3 = Some HandlesSample.file_handle) as E' by (vm_compute; reflexivity). change (machine reading_system) with reading_machine in E.
      rewrite E' in E. injection E as <-. split; [discriminate|]. discriminate.
  - refine (proj1 (proj2 (proj2 (user_buffers_cannot_halt _ _ SampleBackend.ops 1 TaskSample.esp SnakeSample.inb SnakeSample.outb reading_system 7 0 0x80000000 4 false (λ _, []) _ _ _ _)))).
    + reflexivity.
    + vm_compute. discriminate.
    + discriminate.
    + intros h E. assert (process_handle_get (table reading_machine) 0 = Some (ProcessHandle 0 0 FS_READ HANDLE_INPUT 0)) as E' by (vm_compute; reflexivity). change (machine reading_system) with reading_machine in E.
      rewrite E' in E. injection E as <-. split; [discriminate|]. intros _. split; [exact reading_registry|]. intros C.
      assert (task_current_cancelled reading_machine = false) as C' by (vm_compute; reflexivity). change (task_current_cancelled reading_machine = true) in C. by rewrite C' in C.
Defined.

(** ** Paths *)

Section Paths.
Context {K : Type} (kernel space : Z) (s : kstate K).
(** The byte a user program can read at an address. *)
Definition user_byte (a : Z) : option Z := if a >? UINT32_MAX then None else (λ l, bytes_of l 0) <$> request_in kernel space a 1 false s.
(** [path] is readable at [address], without a NUL. *)
Definition readable (address : Z) (path : list Z) : Prop := ∀ (j : nat) c, path !! j = Some c → user_byte (address + Z.of_nat j) = Some c ∧ c ≠ 0.
Lemma readable_snoc address path c : readable address path → user_byte (address + len path) = Some c → c ≠ 0 → readable address (path ++ [c]).
Proof.
  intros R U N j d Hj. apply lookup_app_Some in Hj as [Hj|[Hl Hj]]; [by apply R|]. apply list_lookup_singleton_Some in Hj as [Hj <-]. by replace (Z.of_nat j) with (len path) by lia.
Qed.
Lemma copy_path_loop_spec n address path : 0 ≤ address ≤ UINT32_MAX → readable address path → len path + Z.of_nat n = RUM_ABI_PATH_CAPACITY →
  match copy_path_loop kernel n space address (len path) path s with
  | inr p => 0 < len p < RUM_ABI_PATH_CAPACITY ∧ readable address p ∧ user_byte (address + len p) = Some 0
  | inl e => ∃ p, readable address p ∧
      (e = - RUM_EFAULT ∧ len p < RUM_ABI_PATH_CAPACITY ∧ user_byte (address + len p) = None ∨
       e = - RUM_EINVAL ∧ p = [] ∧ user_byte address = Some 0 ∨ e = - RUM_ENAMETOOLONG ∧ len p = RUM_ABI_PATH_CAPACITY)
  end.
Proof.
  intros Ha. revert path. induction n as [|n IH]; intros path R L; cbn [copy_path_loop].
  { exists path. split; [done|]. right. right. split; [done|lia]. }
  rewrite Z.gtb_ltb. assert (user_byte (address + len path) = if UINT32_MAX - address <? len path then None else (λ l, bytes_of l 0) <$> request_in kernel space (address + len path) 1 false s) as U.
  { unfold user_byte. rewrite Z.gtb_ltb. destruct (Z.ltb_spec UINT32_MAX (address + len path)), (Z.ltb_spec (UINT32_MAX - address) (len path)); done || lia. }
  destruct (Z.ltb_spec (UINT32_MAX - address) (len path)). { exists path. split; [done|]. left. split; [done|]. split; [lia|done]. }
  destruct (request_in _ _ _ _ _ _) as [l|]; [|exists path; split; [done|]; left; split; [done|]; split; [lia|done]]. cbv zeta. cbn in U. destruct (Z.eqb_spec (bytes_of l 0) 0) as [E|E].
  - rewrite E in U. destruct (Z.eqb_spec (len path) 0) as [E0|N0]; [|split; [lia|done]]. destruct path; [|cbn in E0; lia]. exists []. split; [done|]. right. left. cbn in U. by rewrite Z.add_0_r in U.
  - specialize (IH (path ++ [bytes_of l 0])). rewrite length_app in IH. cbn [length] in IH. replace (Z.of_nat (length path + 1)) with (len path + 1) in IH by lia. apply IH; [by apply readable_snoc|lia].
Qed.
End Paths.

(** A path is copied from user memory exactly. The result is the string at the
    address, not empty and shorter than 256 bytes, up to its NUL; an error says precisely
    what is wrong: an unreadable byte before any NUL (also past the end of the address
    space), an empty string, or 256 bytes without a NUL. *)
Theorem copy_path_exact (K : Type) (kernel space address : Z) (s : kstate K) : 0 ≤ address ≤ UINT32_MAX →
  match copy_path kernel space address s with
  | inr p => 0 < len p < RUM_ABI_PATH_CAPACITY ∧ readable kernel space s address p ∧ user_byte kernel space s (address + len p) = Some 0
  | inl e => ∃ p, readable kernel space s address p ∧
      (e = - RUM_EFAULT ∧ len p < RUM_ABI_PATH_CAPACITY ∧ user_byte kernel space s (address + len p) = None ∨
       e = - RUM_EINVAL ∧ p = [] ∧ user_byte kernel space s address = Some 0 ∨ e = - RUM_ENAMETOOLONG ∧ len p = RUM_ABI_PATH_CAPACITY)
  end.
Proof.
  intros Ha. apply (copy_path_loop_spec kernel space s (Z.to_nat RUM_ABI_PATH_CAPACITY) address []); [done|by intros j c Hj|done].
Qed.
(** The small machine's boot task has no user memory. *)
Lemma copy_path_exact_witness :
  ∃ p, readable 1 0 TaskSample.ready_worker 0x80000000 p ∧ len p < RUM_ABI_PATH_CAPACITY ∧ user_byte 1 0 TaskSample.ready_worker (0x80000000 + len p) = None.
Proof.
  pose proof (copy_path_exact _ 1 0 0x80000000 TaskSample.ready_worker ltac:(split; discriminate)) as H. assert (copy_path 1 0 0x80000000 TaskSample.ready_worker = inl (- RUM_EFAULT)) as E by by vm_compute.
  rewrite E in H. destruct H as (p & R & [(_ & L & U)|[(F & _)|(F & _)]]); [by exists p|by vm_compute in F|by vm_compute in F].
Defined.
