(* ===== verification/Library.v ===== *)
(** * User library (sdk/lib/syscall.c, sdk/lib/tools.c)

    The wrappers that put a call's registers and packet together, and the helpers the
    commands and the shell are written with. A wrapper's packet lies at an address [at_] of
    the caller's stack; the kernel's handlers of Syscall.v read it from there. The helpers
    run over parameters for the calls they make. *)

From Stdlib Require Import String Ascii.
From S2P Require Import Prelude Block Path Fs Paging Session Handles Task Elf Process Terminal Snake Syscall.

(** ** Traps (syscall.c) *)

(** The registers of the trap and the bytes at the packet's address. *)
Record trap := Trap { trap_eax : Z; trap_ebx : Z; trap_ecx : Z; trap_edx : Z; trap_stack : list Z }.
Definition code (n : number) : Z :=
  match n with
  | SYS_EXIT => 0 | SYS_READ => 1 | SYS_WRITE => 2 | SYS_GETPID => 3 | SYS_OPEN => 4 | SYS_CLOSE => 5 | SYS_SEEK => 6 | SYS_READDIR => 7
  | SYS_CHDIR => 8 | SYS_GETCWD => 9 | SYS_MKDIR => 10 | SYS_REMOVE => 11 | SYS_FLUSH => 12 | SYS_RUN => 13 | SYS_REPLACE => 14 | SYS_CONSOLE => 15
  | SYS_COMMAND_TEXT => 16 | SYS_SESSION => 17 | SYS_SPAWN => 18 | SYS_WAIT => 19 | SYS_TERMINATE => 20 | SYS_YIELD => 21 | SYS_SLEEP => 22
  | SYS_PROCESS_LIST => 23
  end.
Definition rum_syscall3 (n : number) (b c d : Z) (stack : list Z) : trap := Trap (code n) b c d stack.

Definition rum_open (at_ path access flags : Z) : trap := rum_syscall3 SYS_OPEN at_ 0 0 (packet [RUM_FS_ABI_VERSION; 24; path; access; flags; 0]).
Definition rum_close (handle : Z) : trap := rum_syscall3 SYS_CLOSE handle 0 0 [].
Definition rum_seek (at_ handle displacement whence : Z) : trap :=
  let bits := wrap64 displacement in
  rum_syscall3 SYS_SEEK handle at_ 0 (packet [RUM_FS_ABI_VERSION; 32; wrap32 bits; wrap32 (Z.shiftr bits 32); whence; 0; 0; 0]).
(** [*position] of the packet the kernel left. *)
Definition seek_position (stack : list Z) : Z := let r := seek_request stack in Z.lor (Z.shiftl (k_position_hi r) 32) (k_position_lo r).
Definition rum_readdir (handle entry : Z) : trap := rum_syscall3 SYS_READDIR handle entry 0 [].
Definition rum_chdir (path : Z) : trap := rum_syscall3 SYS_CHDIR path 0 0 [].
Definition rum_getcwd (buffer capacity : Z) : trap := rum_syscall3 SYS_GETCWD buffer capacity 0 [].
Definition rum_mkdir (path : Z) : trap := rum_syscall3 SYS_MKDIR path 0 0 [].
Definition rum_remove (path : Z) : trap := rum_syscall3 SYS_REMOVE path 0 0 [].
Definition rum_flush (handle : Z) : trap := rum_syscall3 SYS_FLUSH handle 0 0 [].
Definition rum_run (at_ path arguments result : Z) : trap :=
  rum_syscall3 SYS_RUN at_ 0 0 (packet [RUM_PROCESS_ABI_VERSION; 32; path; arguments; result; 0; 0; 0]).
Definition rum_spawn (at_ path arguments : Z) : trap :=
  rum_syscall3 SYS_SPAWN at_ 0 0 (packet [RUM_LIFECYCLE_ABI_VERSION; 32; path; arguments; 0; 0; 0; 0]).
Definition rum_wait (at_ id flags result : Z) : trap :=
  rum_syscall3 SYS_WAIT at_ 0 0 (packet [RUM_LIFECYCLE_ABI_VERSION; 32; id; result; flags; 0; 0; 0]).
Definition rum_terminate (at_ id flags : Z) : trap := rum_syscall3 SYS_TERMINATE at_ 0 0 (packet [RUM_LIFECYCLE_ABI_VERSION; 24; id; flags; 0; 0]).
Definition rum_yield : trap := rum_syscall3 SYS_YIELD 0 0 0 [].
Definition rum_process_list (at_ entries capacity : Z) : trap :=
  rum_syscall3 SYS_PROCESS_LIST at_ 0 0 (packet [RUM_PROCESS_LIST_VERSION; 32; entries; capacity; 0; 0; 0; 0]).
Definition list_total (stack : list Z) : Z := l_total (list_request stack).
Definition rum_sleep (at_ milliseconds : Z) : trap := rum_syscall3 SYS_SLEEP at_ 0 0 (packet [RUM_SLEEP_ABI_VERSION; 24; milliseconds; 0; 0; 0]).
Definition rum_replace (at_ path data bytes : Z) : trap := rum_syscall3 SYS_REPLACE at_ 0 0 (packet [RUM_FS_ABI_VERSION; 24; path; data; bytes; 0]).
Definition rum_console (action : Z) : trap := rum_syscall3 SYS_CONSOLE action 0 0 [].
Definition rum_run_command (at_ path arguments text result : Z) : trap :=
  rum_syscall3 SYS_RUN at_ 0 0 (packet [RUM_COMMAND_ABI_VERSION; 32; path; arguments; result; RUM_RUN_COMMAND; text; 0]).
Definition rum_command_text (text capacity : Z) : trap := rum_syscall3 SYS_COMMAND_TEXT text capacity 0 [].
Definition rum_session (action path : Z) : trap := rum_syscall3 SYS_SESSION action path 0 [].
Definition rum_read (handle buffer capacity : Z) : trap := rum_syscall3 SYS_READ handle buffer capacity [].
Definition rum_write (handle buffer bytes : Z) : trap := rum_syscall3 SYS_WRITE handle buffer bytes [].
Definition rum_getpid : trap := rum_syscall3 SYS_GETPID 0 0 0 [].
(** It never returns: past the trap is an invalid instruction. *)
Definition rum_exit (status : Z) : trap := rum_syscall3 SYS_EXIT (wrap32 status) 0 0 [].

(** ** Helpers (tools.c) *)

Definition RUM_STDOUT : Z := 1.
Section Tools.
(** [write] and [command_text] are the calls as the program sees them: the result and, for
    the text, the string left in the buffer. *)
Context {U : Type} (write : Z → list Z → U → Z * U) (command_text : U → Z * list Z * U).
Implicit Types (u : U) (s : list Z).

(** [None] is [rum_exit(1)]. Every turn writes a byte at least. *)
Fixpoint tool_output_loop (n : nat) s u : option U :=
  match s with
  | [] => Some u
  | _ =>
      match n with
      | O => None
      | S n =>
          let '(k, u) := write RUM_STDOUT s u in
          if (k <=? 0) || (k >? len s) then None else tool_output_loop n (drop (Z.to_nat k) s) u
      end
  end.
Definition tool_output s u : option U := tool_output_loop (length s) s u.
Definition tool_print s u : option U := tool_output s u.
(** The characters one by one. *)
Fixpoint tool_each s u : option U := match s with [] => Some u | c :: s => match tool_output [c] u with Some u => tool_each s u | None => None end end.
Definition tool_number (value : Z) u : option U :=
  let magnitude := wrap32 value in
  match (if value <? 0 then tool_print (chars "-") u else Some u) with
  | None => None
  | Some u => tool_each (decimal (if value <? 0 then wrap32 (0 - magnitude) else magnitude)) u
  end.
End Tools.

Definition error_message (result : Z) : string :=
  let e := - result in
  if e =? RUM_ENOENT then "file or directory not found" else if e =? RUM_ENODEV then "filesystem is not mounted" else
  if e =? RUM_ENOTDIR then "not a directory" else if e =? RUM_EISDIR then "is a directory" else
  if e =? RUM_EROFS then "read-only filesystem" else if e =? RUM_EACCES then "access denied" else
  if e =? RUM_EEXIST then "already exists" else if e =? RUM_ENOTEMPTY then "directory is not empty" else
  if e =? RUM_EBUSY then "file or directory is in use" else if e =? RUM_ENOMEM then "not enough memory" else
  if e =? RUM_ENOSPC then "filesystem is full" else if e =? RUM_EMFILE then "too many open files" else
  if e =? RUM_ENAMETOOLONG then "path or name is too long" else if e =? RUM_ENOEXEC then "not a supported executable" else
  if e =? RUM_E2BIG then "file or argument list is too large" else if e =? RUM_ETIMEDOUT then "disk did not respond" else
  if e =? RUM_EIO then "I/O failure" else if e =? RUM_EINVAL then "invalid path, name or arguments" else
  if e =? RUM_ECHILD then "no matching child process" else if e =? RUM_ESRCH then "process does not exist" else
  if e =? RUM_EOVERFLOW then "value or process identifier is out of range" else "operation failed".
Definition tool_error {U : Type} (write : Z → list Z → U → Z * U) (command : list Z) (result : Z) (u : U) : option U :=
  match tool_print write command u with
  | Some u => match tool_print write (chars ": ") u with
    | Some u => match tool_print write (chars (error_message result)) u with Some u => tool_print write (chars "." ++ newline) u | None => None end
    | None => None end
  | None => None
  end.

(** The word and the text after the character that ended it; [NULL] is [None]. *)
Definition tool_remainder (text : list Z) : list Z := skip_blanks text.
Definition tool_word (text : list Z) : option (list Z) * list Z :=
  match skip_blanks text with
  | [] => (None, [])
  | text => let '(word, rest) := next_word text in (Some word, drop 1 rest)
  end.

Fixpoint add_strings (argv : list (list Z)) (a : rum_arguments) : Z * rum_arguments :=
  match argv with
  | [] => (0, a)
  | w :: argv =>
      let size := len w + 1 in
      if size >? RUM_PROCESS_ARGUMENT_BYTES - string_bytes a then (- RUM_E2BIG, a) else
      let offset := string_bytes a in
      add_strings argv (Arguments_ (argc a + 1) (offset + size) (aset (offsets a) (argc a) offset)
        (foldl (λ m '(i, c), aset m (offset + i) c) (strings a) (zip (seqZ 0 size) (w ++ [0]))))
  end.
(** [argv] are strings without NULs, [argc] of them. *)
Definition tool_arguments (argv : list (list Z)) : Z * rum_arguments :=
  if (len argv <? 1) || (len argv >? RUM_PROCESS_ARGUMENT_LIMIT) then (- RUM_E2BIG, no_arguments) else add_strings argv no_arguments.
Definition tool_program_path (program : list Z) : Z + list Z :=
  let slash := existsb (λ c, c =? 47) program in
  let prefix := if slash then [] else chars "/rum/" in
  if (len program =? 0) || (len program + len prefix >=? RUM_ABI_PATH_CAPACITY) then inl (- RUM_ENAMETOOLONG) else inr (prefix ++ program).

(** The join of the arguments after the first, with what fits before an error. *)
Fixpoint put_chars (s text : list Z) : Z * list Z :=
  match s with
  | [] => (0, text)
  | c :: s => if len text =? RUM_COMMAND_TEXT_CAPACITY - 1 then (- RUM_E2BIG, text) else put_chars s (text ++ [c])
  end.
Fixpoint join_arguments (first : bool) (argv : list (list Z)) (text : list Z) : Z * list Z :=
  match argv with
  | [] => (0, text)
  | w :: argv =>
      let '(e, text) := put_chars (if first then w else 32 :: w) text in
      if negb (e =? 0) then (e, text) else join_arguments false argv text
  end.
Definition tool_text {U : Type} (command_text : U → Z * list Z * U) (argv : list (list Z)) (u : U) : Z * list Z * U :=
  let '(result, text, u) := command_text u in
  if result >=? 0 then (0, text, u) else
  if negb (result =? - RUM_EACCES) then (result, text, u) else
  let '(e, text) := join_arguments true (drop 1 argv) [] in (e, text, u).
Definition RUM_PROCESS_FAULTED : Z := 2.
Definition RUM_PROCESS_CANCELLED : Z := 3.
Definition tool_child_status {U : Type} (write : Z → list Z → U → Z * U) (termination status : Z) (always : bool) (u : U) : option U :=
  if termination =? RUM_PROCESS_CANCELLED then tool_print write (chars "Program cancelled." ++ newline) u else
  if termination =? RUM_PROCESS_FAULTED then tool_print write (chars "Program stopped after a user fault." ++ newline) u else
  if always || negb (status =? 0) then
    match tool_print write (chars "Program exited with status ") u with
    | Some u => match tool_number write status u with Some u => tool_print write (chars "." ++ newline) u | None => None end
    | None => None
    end
  else Some u.

(** ** Packets read back *)

Lemma word_bytes_value w (p : Z → Z) (i : Z) : 0 ≤ w ≤ UINT32_MAX → (∀ j, 0 ≤ j < 4 → p (i + j) = nth (Z.to_nat j) (word_bytes w) 0) → u32_at p i = w.
Proof.
  intros Hw H. unfold u32_at, u16_at. pose proof (H 0 ltac:(lia)) as H0. pose proof (H 1 ltac:(lia)) as H1. pose proof (H 2 ltac:(lia)) as H2. pose proof (H 3 ltac:(lia)) as H3.
  change (p (i + 0) = wrap8 w) in H0. change (p (i + 1) = wrap8 (Z.shiftr w 8)) in H1. change (p (i + 2) = wrap8 (Z.shiftr w 16)) in H2. change (p (i + 3) = wrap8 (Z.shiftr w 24)) in H3.
  rewrite Z.add_0_r in H0. replace (i + 2 + 1) with (i + 3) by lia. rewrite H0, H1, H2, H3. unfold wrap8. rewrite !Z.mod_mod by lia. rewrite !Z.shiftr_div_pow2 by lia.
  change (2 ^ 8) with 0x100. change (2 ^ 16) with (0x100 * 0x100). change (2 ^ 24) with (0x100 * 0x100 * 0x100). rewrite <- !Z.div_div by lia. unfold UINT32_MAX in *.
  pose proof (Z.div_mod w 0x100 ltac:(lia)). pose proof (Z.div_mod (w / 0x100) 0x100 ltac:(lia)). pose proof (Z.div_mod (w / 0x100 / 0x100) 0x100 ltac:(lia)).
  rewrite (Z.mod_small (w / 0x100 / 0x100 / 0x100)) by (split; [repeat apply Z.div_pos; lia|repeat apply Z.div_lt_upper_bound; lia]). lia.
Qed.
Lemma packet_length l : length (packet l) = (4 * length l)%nat.
Proof. unfold packet. induction l as [|w l IH]; [done|]. cbn [mbind list_bind]. rewrite length_app, IH. cbn. lia. Qed.
Lemma packet_byte l (k : nat) (j : Z) w : l !! k = Some w → 0 ≤ j < 4 → bytes_of (packet l) (4 * Z.of_nat k + j) = nth (Z.to_nat j) (word_bytes w) 0.
Proof.
  unfold bytes_of, packet. revert k. induction l as [|v l IH]; intros k Hk Hj; [done|]. cbn [mbind list_bind]. destruct k as [|k].
  - injection Hk as ->. rewrite Z.mul_0_r, Z.add_0_l. rewrite app_nth1; [done|]. cbn. lia.
  - rewrite app_nth2 by (cbn; lia). change (length (word_bytes v)) with 4%nat. replace (Z.to_nat (4 * Z.of_nat (S k) + j) - 4)%nat with (Z.to_nat (4 * Z.of_nat k + j)) by lia. by apply IH.
Qed.
(** Word [k] of a packet, also with bytes after it. *)
Lemma field_packet l rest (k : nat) w : l !! k = Some w → 0 ≤ w ≤ UINT32_MAX → field (packet l ++ rest) (Z.of_nat k) = w.
Proof.
  intros Hk Hw. unfold field. apply word_bytes_value; [done|]. intros j Hj. rewrite <- (packet_byte l k j w Hk Hj). unfold bytes_of. apply app_nth1. rewrite packet_length.
  apply lookup_lt_Some in Hk. lia.
Qed.
Lemma field_of l (k : nat) w : l !! k = Some w → 0 ≤ w ≤ UINT32_MAX → field (packet l) (Z.of_nat k) = w.
Proof. intros Hk Hw. rewrite <- (app_nil_r (packet l)). by apply field_packet. Qed.

Lemma number_of_code n : number_of (code n) = Some n.
Proof. by destruct n. Qed.

(** Words of a call's packet: every field is a 32-bit value. *)
Ltac read_words := repeat match goal with |- context [field (packet ?l) ?k] =>
  let n := eval vm_compute in (Z.to_nat k) in let v := eval cbn in (nth n l 0) in
  change (field (packet l) k) with (field (packet l) (Z.of_nat n)); rewrite (field_of l n v eq_refl) by first [assumption | by split | apply wrap32_bound | lia]
  end.
Lemma halves x : 0 ≤ x ≤ UINT64_MAX → Z.lor (Z.shiftl (wrap32 (Z.shiftr x 32)) 32) (wrap32 x) = x.
Proof.
  intros Hx. rewrite Z.lor_comm, lor_shiftl by (try lia; apply Z.mod_pos_bound; lia). unfold wrap32. rewrite Z.shiftr_div_pow2 by lia. unfold UINT64_MAX in *.
  rewrite (Z.mod_small (x / 2 ^ 32)) by (split; [apply Z.div_pos; lia|apply Z.div_lt_upper_bound; lia]). pose proof (Z.div_mod x 0x100000000 ltac:(lia)). change (2 ^ 32) with 0x100000000. lia.
Qed.

(** C35: the kernel reads every packet the library writes as the call meant it. For all
    32-bit arguments the number of each wrapper is the number the dispatcher knows, and the
    packets of open, seek, run, command, spawn, wait, terminate, list, sleep and replace
    read back with the version, the size and the zero words their handlers insist on and
    with the caller's arguments; a seek's displacement of 64 bits arrives whole, and the
    position the kernel writes into the packet is the one the caller gets. *)
Theorem library_packets_read_back (at_ a b c d : Z) :
  0 ≤ a ≤ UINT32_MAX → 0 ≤ b ≤ UINT32_MAX → 0 ≤ c ≤ UINT32_MAX → 0 ≤ d ≤ UINT32_MAX →
  (∀ n x y z s, number_of (trap_eax (rum_syscall3 n x y z s)) = Some n) ∧
  open_request (trap_stack (rum_open at_ a b c)) = OpenRequest RUM_FS_ABI_VERSION 24 a b c 0 ∧
  (∀ displacement, let r := seek_request (trap_stack (rum_seek at_ a displacement b)) in
    r = SeekRequest RUM_FS_ABI_VERSION 32 (k_offset_lo r) (k_offset_hi r) b 0 0 0 ∧ Z.lor (Z.shiftl (k_offset_hi r) 32) (k_offset_lo r) = wrap64 displacement ∧
    ∀ position, 0 ≤ position ≤ UINT64_MAX →
      seek_position (seek_packet (SeekRequest (k_version r) (k_size r) (k_offset_lo r) (k_offset_hi r) (k_whence r) (k_reserved r) (wrap32 position) (wrap32 (Z.shiftr position 32)))) = position) ∧
  run_request (trap_stack (rum_run at_ a b c)) = RunRequest RUM_PROCESS_ABI_VERSION 32 a b c 0 0 0 ∧
  run_request (trap_stack (rum_run_command at_ a b d c)) = RunRequest RUM_COMMAND_ABI_VERSION 32 a b c RUM_RUN_COMMAND d 0 ∧
  spawn_request (trap_stack (rum_spawn at_ a b)) = SpawnRequest RUM_LIFECYCLE_ABI_VERSION 32 a b 0 0 0 0 ∧
  wait_request (trap_stack (rum_wait at_ a b c)) = WaitRequest RUM_LIFECYCLE_ABI_VERSION 32 a c b 0 0 0 ∧
  terminate_request (trap_stack (rum_terminate at_ a b)) = TerminateRequest RUM_LIFECYCLE_ABI_VERSION 24 a b 0 0 ∧
  list_request (trap_stack (rum_process_list at_ a b)) = ListRequest RUM_PROCESS_LIST_VERSION 32 a b 0 0 0 0 ∧
  sleep_request (trap_stack (rum_sleep at_ a)) = SleepRequest RUM_SLEEP_ABI_VERSION 24 a 0 0 0 ∧
  replace_request (trap_stack (rum_replace at_ a b c)) = ReplaceRequest RUM_FS_ABI_VERSION 24 a b c 0.
Proof.
  intros Ha Hb Hc Hd. split; [intros; apply number_of_code|].
  split; [unfold open_request; cbn [trap_stack rum_open rum_syscall3]; by read_words|].
  split; [|split_and!; unfold run_request, spawn_request, wait_request, terminate_request, list_request, sleep_request, replace_request; cbn [trap_stack rum_run rum_run_command rum_spawn rum_wait rum_terminate rum_process_list rum_sleep rum_replace rum_syscall3]; by read_words].
  intros displacement r. assert (r = SeekRequest RUM_FS_ABI_VERSION 32 (wrap32 (wrap64 displacement)) (wrap32 (Z.shiftr (wrap64 displacement) 32)) b 0 0 0) as E.
  { subst r. unfold seek_request. cbn [trap_stack rum_seek rum_syscall3]. by read_words. }
  rewrite E. cbn [k_offset_lo k_offset_hi k_version k_size k_whence k_reserved]. split; [done|]. split; [apply halves; unfold wrap64, UINT64_MAX; pose proof (Z.mod_pos_bound displacement 0x10000000000000000 ltac:(lia)); lia|].
  intros position Hp. unfold seek_position, seek_request, seek_packet. cbn [k_position_lo k_position_hi k_offset_lo k_offset_hi k_version k_size k_whence k_reserved]. read_words. by apply halves.
Qed.
Lemma library_packets_read_back_witness : terminate_request (trap_stack (rum_terminate 0xBFFFFF00 7 1)) = TerminateRequest RUM_LIFECYCLE_ABI_VERSION 24 7 1 0 0.
Proof. by apply (library_packets_read_back 0xBFFFFF00 7 1 0 0). Defined.

(** ** Argument vectors *)

(** The bytes of [struct rum_arguments] in the caller's memory. *)
Definition arguments_bytes (a : rum_arguments) : list Z :=
  packet (argc a :: string_bytes a :: ((λ i, aget (offsets a) i) <$> seqZ 0 RUM_PROCESS_ARGUMENT_LIMIT)) ++
  ((λ i, wrap8 (aget (strings a) i)) <$> seqZ 0 RUM_PROCESS_ARGUMENT_BYTES).
Lemma array_of_lookup l (j : nat) c : l !! j = Some c → aget (array_of l) (Z.of_nat j) = c.
Proof.
  intros H. unfold array_of, aget. erewrite elem_of_list_to_map_1; [done|..].
  - rewrite fst_zip by (rewrite length_seqZ; lia). apply NoDup_seqZ.
  - apply list_elem_of_lookup. exists j. apply lookup_zip_with_Some. exists (Z.of_nat j), c. split; [done|]. split; [|done]. apply lookup_seqZ. apply lookup_lt_Some in H. lia.
Qed.
Lemma arguments_read_back a : 0 ≤ argc a ≤ UINT32_MAX → 0 ≤ string_bytes a ≤ UINT32_MAX → (∀ i, 0 ≤ aget (offsets a) i ≤ UINT32_MAX) →
  let b := arguments_of (arguments_bytes a) in
  argc b = argc a ∧ string_bytes b = string_bytes a ∧ (∀ i, 0 ≤ i < RUM_PROCESS_ARGUMENT_LIMIT → aget (offsets b) i = aget (offsets a) i) ∧
  (∀ i, 0 ≤ i < RUM_PROCESS_ARGUMENT_BYTES → aget (strings b) i = wrap8 (aget (strings a) i)).
Proof.
  intros Ha Hs Ho. unfold arguments_of, arguments_bytes. cbn [argc string_bytes offsets strings].
  set (rest := (λ i, wrap8 (aget (strings a) i)) <$> seqZ 0 RUM_PROCESS_ARGUMENT_BYTES). set (table := (λ i, aget (offsets a) i) <$> seqZ 0 RUM_PROCESS_ARGUMENT_LIMIT).
  split; [by apply (field_packet _ rest 0)|]. split; [by apply (field_packet _ rest 1)|]. split; intros i Hi; rewrite <- (Z2Nat.id i) by lia; apply array_of_lookup.
  - rewrite list_lookup_fmap, (proj2 (lookup_seqZ _ _ _ (0 + Z.of_nat (Z.to_nat i)))) by lia. cbn [fmap option_fmap option_map]. f_equal.
    replace (2 + (0 + Z.of_nat (Z.to_nat i))) with (Z.of_nat (2 + Z.to_nat i)) by lia. apply field_packet; [|apply Ho].
    change (table !! Z.to_nat i = Some (aget (offsets a) (Z.of_nat (Z.to_nat i)))). subst table. by rewrite list_lookup_fmap, (proj2 (lookup_seqZ _ _ _ (0 + Z.of_nat (Z.to_nat i)))) by lia.
  - rewrite lookup_drop. rewrite lookup_app_r by (rewrite packet_length; cbn; subst table; rewrite length_fmap, length_seqZ; unfold RUM_PROCESS_ARGUMENT_LIMIT; lia).
    rewrite packet_length. cbn [length]. subst table rest. rewrite length_fmap, length_seqZ. replace (136 + Z.to_nat i - 4 * S (S (Z.to_nat RUM_PROCESS_ARGUMENT_LIMIT)))%nat with (Z.to_nat i) by (unfold RUM_PROCESS_ARGUMENT_LIMIT; lia).
    by rewrite list_lookup_fmap, (proj2 (lookup_seqZ _ _ _ (0 + Z.of_nat (Z.to_nat i)))) by lia.
Qed.

(** A packet that agrees with another where it is read holds the same strings. *)
Lemma holds_agree a b : string_bytes b = string_bytes a → (∀ i, 0 ≤ i < RUM_PROCESS_ARGUMENT_LIMIT → aget (offsets b) i = aget (offsets a) i) →
  (∀ j, 0 ≤ j < string_bytes a → aget (strings b) j = aget (strings a) j) →
  ∀ ws i o, 0 ≤ i → 0 ≤ o → i + len ws ≤ RUM_PROCESS_ARGUMENT_LIMIT → holds a i o ws → holds b i o ws.
Proof.
  intros E O S ws. induction ws as [|w ws IH]; intros i o Hi Ho L H; [cbn in *; congruence|]. destruct H as (E1 & [T B Z0 I] & H). cbn [length] in L. cbn [holds].
  rewrite O by lia. split; [done|]. split; [|apply IH; lia || done]. constructor; [done| |by rewrite S by lia|lia].
  intros j c Hj. rewrite S; [by apply B|]. apply lookup_lt_Some in Hj. lia.
Qed.
(** Offsets and characters in their ranges. *)
Definition in_range (a : rum_arguments) : Prop :=
  (∀ i, 0 ≤ aget (offsets a) i ≤ RUM_PROCESS_ARGUMENT_BYTES) ∧ (∀ j, 0 ≤ aget (strings a) j ≤ UINT8_MAX).
Definition plain (w : list Z) : Prop := Forall (λ c, 0 < c ≤ UINT8_MAX) w.
Lemma stored_range offset (l : list Z) : ∀ k (m : gmap Z Z), (∀ j, 0 ≤ aget m j ≤ UINT8_MAX) → Forall (λ c, 0 ≤ c ≤ UINT8_MAX) l →
  ∀ j, 0 ≤ aget (foldl (λ m '(i, c), aset m (offset + i) c) m (zip (seqZ k (len l)) l)) j ≤ UINT8_MAX.
Proof.
  induction l as [|x l IH]; intros k m Hm F; [done|]. inversion F as [|? ? Hx Hl]; subst. cbn [length]. rewrite Nat2Z.inj_succ, seqZ_cons by lia. replace (Z.pred (Z.succ (len l))) with (len l) by lia.
  cbn [zip zip_with foldl]. apply IH; [|done]. intros j. unfold aget, aset. destruct (decide (j = offset + k)) as [->|]; [by rewrite lookup_insert_eq|rewrite lookup_insert_ne by done; apply Hm].
Qed.
Lemma no_arguments_range : in_range no_arguments.
Proof. split; intros i; unfold aget; cbn [offsets strings no_arguments]; by rewrite lookup_empty. Qed.
Lemma add_string_packs a ws w : packs a ws → in_range a → plain w → packed ws + len w + 1 ≤ RUM_PROCESS_ARGUMENT_BYTES →
  let a' := Arguments_ (argc a + 1) (string_bytes a + (len w + 1)) (aset (offsets a) (argc a) (string_bytes a))
    (foldl (λ m '(i, c), aset m (string_bytes a + i) c) (strings a) (zip (seqZ 0 (len w + 1)) (w ++ [0]))) in
  packs a' (ws ++ [w]) ∧ in_range a'.
Proof.
  intros [C B H] [R1 R2] F L a'. pose proof (packed_nonneg ws) as Np. assert (len w + 1 = len (w ++ [0])) as El by (rewrite length_app; cbn; lia).
  set (m := strings a'). assert (∀ (n : nat) c, (w ++ [0]) !! n = Some c → aget m (string_bytes a + Z.of_nat n) = c) as S2.
  { intros n c Hn. subst m a'. cbn [strings]. rewrite El. destruct (stored_text (string_bytes a) 0 (w ++ [0]) (strings a) 0) as [S _]. specialize (S n c Hn). by rewrite Z.add_0_r in S. }
  assert (∀ j, j < string_bytes a → aget m j = aget (strings a) j) as S1.
  { intros j Hj. subst m a'. cbn [strings]. rewrite El. destruct (stored_text (string_bytes a) 0 (w ++ [0]) (strings a) j) as [_ S]; apply S; lia. }
  assert (∀ j, 0 ≤ aget m j ≤ UINT8_MAX) as S3.
  { subst m a'. cbn [strings]. rewrite El. apply stored_range; [done|]. apply Forall_app. split; [eapply Forall_impl; [|exact F]; cbn; lia|]. by repeat constructor. }
  split; [|split; [|exact S3]].
  - split; subst a'; cbn [argc string_bytes]; [rewrite length_app; cbn; lia|rewrite packed_app; cbn -[Z.add]; change (packed [w]) with (len w + 1 + 0); lia|].
    apply (holds_extend a); cbn [argc string_bytes offsets]; fold m; try done; try lia.
    + eapply Forall_impl; [|exact F]; cbn; lia.
    + intros j Hj. unfold aget, aset. by rewrite lookup_insert_ne by lia.
    + unfold aget, aset. by rewrite lookup_insert_eq.
    + intros n c Hn. apply S2. by apply lookup_app_l_Some.
    + apply S2. by rewrite lookup_app_r, Nat.sub_diag by lia.
  - intros i. subst a'. cbn [offsets]. unfold aget, aset. destruct (decide (i = argc a)) as [->|]; [rewrite lookup_insert_eq; cbn; lia|rewrite lookup_insert_ne by done; apply R1].
Qed.
Lemma add_strings_spec argv : ∀ a ws, packs a ws → in_range a → Forall plain argv → packed ws ≤ RUM_PROCESS_ARGUMENT_BYTES →
  let '(e, a') := add_strings argv a in
  (e = 0 ∧ packs a' (ws ++ argv) ∧ in_range a' ∧ packed (ws ++ argv) ≤ RUM_PROCESS_ARGUMENT_BYTES) ∨ (e = - RUM_E2BIG ∧ packed (ws ++ argv) > RUM_PROCESS_ARGUMENT_BYTES).
Proof.
  induction argv as [|w argv IH]; intros a ws P R F L; cbn [add_strings]; [left; by rewrite app_nil_r|]. inversion F as [|? ? Fw Fr]; subst. cbv zeta. rewrite Z.gtb_ltb.
  pose proof (packs_bytes _ _ P) as B. destruct (Z.ltb_spec (RUM_PROCESS_ARGUMENT_BYTES - string_bytes a) (len w + 1)) as [Lt|Ge].
  - right. split; [done|]. rewrite packed_app. change (packed (w :: argv)) with (len w + 1 + packed argv). pose proof (packed_nonneg argv). lia.
  - destruct (add_string_packs a ws w P R Fw ltac:(lia)) as [P' R']. replace (ws ++ w :: argv) with ((ws ++ [w]) ++ argv) by by rewrite <- app_assoc.
    apply IH; [done|done|done|]. rewrite packed_app. change (packed [w]) with (len w + 1 + 0). lia.
Qed.

Lemma arguments_reach (argv : list (list Z)) : Forall plain argv →
  let '(e, a) := tool_arguments argv in
  (e = 0 ∧ 1 ≤ len argv ≤ RUM_PROCESS_ARGUMENT_LIMIT ∧ packed argv ≤ RUM_PROCESS_ARGUMENT_BYTES ∧
   let b := arguments_of (arguments_bytes a) in elf_arguments_valid (Some b) = true ∧ argc b = len argv ∧ holds b 0 0 argv) ∨
  (e = - RUM_E2BIG ∧ (argv = [] ∨ len argv > RUM_PROCESS_ARGUMENT_LIMIT ∨ packed argv > RUM_PROCESS_ARGUMENT_BYTES)).
Proof.
  intros F. unfold tool_arguments. rewrite Z.gtb_ltb. destruct (Z.ltb_spec (len argv) 1); cbn [orb]; [right; split; [done|]; left; destruct argv; [done|cbn [length] in *; lia]|].
  destruct (Z.ltb_spec RUM_PROCESS_ARGUMENT_LIMIT (len argv)); [right; split; [done|]; right; left; lia|].
  pose proof (add_strings_spec argv no_arguments [] ltac:(by constructor) no_arguments_range F ltac:(done)) as A. cbn [app] in A. destruct (add_strings argv no_arguments) as [e a].
  destruct A as [(-> & [C B H'] & [R1 R2] & L)|[-> L]]; [left|right; split; [done|]; by do 2 right]. split; [done|]. split; [lia|]. split; [done|].
  pose proof (packed_nonneg argv). unfold RUM_PROCESS_ARGUMENT_BYTES, RUM_PROCESS_ARGUMENT_LIMIT, UINT8_MAX in *.
  destruct (arguments_read_back a) as (E1 & E2 & E3 & E4); [unfold UINT32_MAX; lia|unfold UINT32_MAX; lia|intros i; specialize (R1 i); unfold UINT32_MAX; lia|].
  set (b := arguments_of (arguments_bytes a)) in *. assert (holds b 0 0 argv) as Hb.
  { apply (holds_agree a b E2 E3); [|lia|lia|unfold RUM_PROCESS_ARGUMENT_LIMIT; lia|done]. intros j Hj. rewrite E4 by (unfold RUM_PROCESS_ARGUMENT_BYTES; lia). unfold wrap8. apply Z.mod_small. specialize (R2 j). lia. }
  split; [|split; [lia|done]]. apply arguments_valid_spec; [lia|lia|]. unfold RUM_PROCESS_ARGUMENT_BYTES, RUM_PROCESS_ARGUMENT_LIMIT. split; [lia|]. split; [|exists argv; split; [lia|done]].
  destruct argv as [|w argv]; [cbn in *; lia|]. change (packed (w :: argv)) with (len w + 1 + packed argv) in *. pose proof (packed_nonneg argv). lia.
Qed.
(** C34: an argument vector reaches the kernel as it was. For strings of non-zero bytes the
    library builds a packet exactly when there are 1 to 32 of them and they fit into 4096
    bytes with their terminators, and says that the list is too big otherwise; and the
    packet, read from the caller's memory byte by byte by the kernel, is one the loader
    accepts, holding exactly these strings in their order. *)
Theorem arguments_reach_the_kernel (argv : list (list Z)) : Forall plain argv →
  let '(e, a) := tool_arguments argv in
  (e = 0 ∧ 1 ≤ len argv ≤ RUM_PROCESS_ARGUMENT_LIMIT ∧ packed argv ≤ RUM_PROCESS_ARGUMENT_BYTES ∧
   let b := arguments_of (arguments_bytes a) in elf_arguments_valid (Some b) = true ∧ argc b = len argv ∧ holds b 0 0 argv) ∨
  (e = - RUM_E2BIG ∧ (argv = [] ∨ len argv > RUM_PROCESS_ARGUMENT_LIMIT ∨ packed argv > RUM_PROCESS_ARGUMENT_BYTES)).
Proof. intros F. exact (arguments_reach argv F). Qed.
(** The vector [ls -l]. *)
Lemma arguments_reach_the_kernel_witness : let b := arguments_of (arguments_bytes (snd (tool_arguments [[108; 115]; [45; 108]]))) in
  elf_arguments_valid (Some b) = true ∧ holds b 0 0 [[108; 115]; [45; 108]].
Proof.
  pose proof (arguments_reach_the_kernel [[108; 115]; [45; 108]] ltac:(repeat constructor; done)) as H. destruct (tool_arguments _) as [e a] eqn:E. cbn [snd].
  destruct H as [(_ & _ & _ & V & _ & Ho)|[-> _]]; [by split|]. exfalso. by vm_compute in E.
Defined.

(** ** Output *)

Definition value_of (l : list Z) : Z := foldl (λ n c, 10 * n + (c - 48)) 0 l.
Lemma value_of_snoc l c : value_of (l ++ [c]) = 10 * value_of l + (c - 48).
Proof. unfold value_of. by rewrite foldl_app. Qed.
(** The digits of a number are its decimal text. *)
Lemma decimal_exact n v : 0 ≤ v < 10 ^ Z.of_nat n → (0 < n)%nat → value_of (rev (digits n v)) = v ∧ Forall (λ c, 48 ≤ c ≤ 57) (rev (digits n v)).
Proof.
  revert v. induction n as [|n IH]; intros v Hv Hn; [lia|]. cbn [digits rev]. pose proof (Z.mod_pos_bound v 10 ltac:(lia)). pose proof (Z.div_mod v 10 ltac:(lia)). rewrite value_of_snoc.
  destruct (Z.eqb_spec (v / 10) 0) as [E|N].
  - cbn. split; [lia|]. repeat constructor; lia.
  - assert (0 < n)%nat as Hn'. { destruct n; [|lia]. exfalso. apply N. apply Z.div_small. rewrite Nat2Z.inj_succ, Z.pow_succ_r in Hv by lia. cbn in Hv. lia. }
    rewrite Nat2Z.inj_succ, Z.pow_succ_r in Hv by lia. destruct (IH (v / 10)) as [I1 I2]; [split; [apply Z.div_pos; lia|apply Z.div_lt_upper_bound; lia]|done|].
    rewrite I1. split; [lia|]. apply Forall_app. split; [done|]. repeat constructor; lia.
Qed.

Section Output.
Context {U : Type} (write : Z → list Z → U → Z * U) (stream : U → list Z).
(** A write takes a non-empty prefix of what it is given. *)
Definition takes_prefix : Prop := ∀ s u, s ≠ [] → let '(k, u') := write RUM_STDOUT s u in 1 ≤ k ≤ len s ∧ stream u' = stream u ++ take (Z.to_nat k) s.
Lemma output_loop_all : takes_prefix → ∀ n s u, (length s ≤ n)%nat → ∃ u', tool_output_loop write n s u = Some u' ∧ stream u' = stream u ++ s.
Proof.
  intros W. induction n as [|n IH]; intros s u L; (destruct s as [|c s]; [exists u; by rewrite app_nil_r|]); [cbn in L; lia|]. cbn [tool_output_loop].
  pose proof (W (c :: s) u ltac:(done)) as Wr. destruct (write RUM_STDOUT (c :: s) u) as [k u1]. destruct Wr as [K St]. rewrite (proj2 (Z.leb_gt k 0)), Z.gtb_ltb, (proj2 (Z.ltb_ge (len (c :: s)) k)) by lia. cbn [orb].
  destruct (IH (drop (Z.to_nat k) (c :: s)) u1) as (u2 & E & S2); [rewrite length_drop; lia|]. exists u2. split; [done|]. by rewrite S2, St, <- app_assoc, take_drop.
Qed.
Lemma each_all : takes_prefix → ∀ s u, ∃ u', tool_each write s u = Some u' ∧ stream u' = stream u ++ s.
Proof.
  intros W s. induction s as [|c s IH]; intros u; [exists u; by rewrite app_nil_r|]. cbn [tool_each]. destruct (output_loop_all W (length [c]) [c] u ltac:(done)) as (u1 & E & S1).
  unfold tool_output. rewrite E. destruct (IH u1) as (u2 & E2 & S2). exists u2. split; [done|]. by rewrite S2, S1, <- app_assoc.
Qed.
End Output.

(** What a program prints comes out whole. Over calls that write at least one byte and
    at most what they are given, output goes round until every byte is written, in order,
    and never gives up; a number comes out as its decimal digits after a sign, for every
    32-bit value, the most negative one included. *)
Theorem tools_print_whole (U : Type) (write : Z → list Z → U → Z * U) (stream : U → list Z) : takes_prefix write stream →
  (∀ s u, ∃ u', tool_output write s u = Some u' ∧ stream u' = stream u ++ s) ∧
  (∀ v u, - 0x80000000 ≤ v ≤ INT32_MAX → ∃ u' ds, tool_number write v u = Some u' ∧
    stream u' = stream u ++ (if v <? 0 then chars "-" else []) ++ ds ∧ value_of ds = Z.abs v ∧ Forall (λ c, 48 ≤ c ≤ 57) ds).
Proof.
  intros W. split; [intros s u; by apply (output_loop_all write stream W)|]. intros v u Hv. unfold tool_number. set (m := if v <? 0 then wrap32 (0 - wrap32 v) else wrap32 v).
  assert (m = Z.abs v) as Em. { subst m. unfold wrap32, INT32_MAX in *. destruct (Z.ltb_spec v 0); [|rewrite Z.mod_small; lia]. rewrite Zminus_mod_idemp_r, Z.mod_small; lia. }
  destruct (decimal_exact 10 m ltac:(unfold INT32_MAX in *; cbn; lia) ltac:(lia)) as [D1 D2].
  assert (∃ u1, (if v <? 0 then tool_print write (chars "-") u else Some u) = Some u1 ∧ stream u1 = stream u ++ if v <? 0 then chars "-" else []) as (u1 & -> & S1).
  { destruct (v <? 0); [apply (output_loop_all write stream W); done|]. exists u. by rewrite app_nil_r. }
  destruct (each_all write stream W (decimal m) u1) as (u2 & E2 & S2). exists u2, (decimal m). split; [exact E2|]. split; [by rewrite S2, S1, <- app_assoc|]. by rewrite <- Em.
Qed.
(** A stream that takes three bytes at a time. *)
Lemma tools_print_whole_witness : ∃ u' : list Z, tool_output (λ _ s u, (Z.min 3 (len s), u ++ take (Z.to_nat (Z.min 3 (len s))) s)) [104; 101; 108; 108; 111] [] = Some u' ∧ u' = [] ++ [104; 101; 108; 108; 111].
Proof.
  refine (proj1 (tools_print_whole (list Z) (λ _ s u, (Z.min 3 (len s), u ++ take (Z.to_nat (Z.min 3 (len s))) s)) id _) [104; 101; 108; 108; 111] []).
  intros s u N. split; [|done]. assert (0 < len s) by (destruct s; [done|cbn; lia]). lia.
Defined.
