(* ===== verification/UserShell.v ===== *)
(** * The shell (system/shell/main.c)

    The user program that reads command lines and starts programs, over the library of
    Library.v and parameters for the system calls it makes. The shell's own state is the
    line being typed and the table of the processes it started in the background. *)

From Stdlib Require Import String Ascii.
From S2P Require Import Prelude Block Path Fs Paging Session Handles Task Elf Process Terminal Snake Syscall Library.

Definition RUM_SHELL_RECOVERY_STATUS : Z := 75.
Definition COMPLETION_PASSES : nat := 64.

Record child := Child { pid : Z; child_name : list Z }.
Record shell := Shell { children : gmap Z child; line : list Z }.
Definition no_child : child := Child 0 [].
Definition child_at (sh : shell) (i : Z) : child := default no_child (children sh !! i).
Definition set_child (i : Z) (c : child) (sh : shell) : shell := Shell (<[i := c]> (children sh)) (line sh).
Definition set_line (l : list Z) (sh : shell) : shell := Shell (children sh) l.

(** A program goes on with a value, or ends with a status; [Spins] is a loop that has not
    ended after more completions than there can be children. *)
Inductive run (A : Type) := Goes (a : A) | Ends (status : Z) | Spins.
Arguments Goes {A} _.
Arguments Ends {A} _.
Arguments Spins {A}.
#[local] Notation "'let!' p ':=' m 'in' k" := (match m with Goes p => k | Ends e => Ends e | Spins => Spins end)
  (at level 200, p pattern, right associativity).

Definition equal (a b : list Z) : bool := bool_decide (a = b).

Section Shell.
(** The calls as the shell sees them: [read] gives the result and the character, [getcwd] a
    path or an error, [wait_any] the result of a call that does not hang with the process,
    its termination and its status, [run_command] the result with the last two. *)
Context {U : Type} (write : Z → list Z → U → Z * U) (read : U → Z * Z * U) (getcwd : U → (Z + list Z) * U) (wait_any : U → Z * (Z * Z * Z) * U)
  (spawn : list Z → rum_arguments → U → Z * U) (run_command : list Z → rum_arguments → list Z → U → Z * (Z * Z) * U).

(** The helpers end the program with status 1 when output fails. *)
Definition out (r : option U) : run U := match r with Some u => Goes u | None => Ends 1 end.
Definition say (s : string) u : run U := out (tool_print write (chars s) u).
Definition say_line (s : string) u : run U := out (tool_print write (chars s ++ newline) u).
Definition print_text (s : list Z) u : run U := out (tool_print write s u).
Definition print_number (v : Z) u : run U := out (tool_number write v u).

(** The first slot that holds [id]. *)
Definition child_slot (id : Z) sh : option Z := List.find (λ i, pid (child_at sh i) =? id) (seqZ 0 RUM_PROCESS_LIST_LIMIT).
Fixpoint completions_loop (n : nat) (editing shown : bool) sh u : run (shell * U) :=
  match n with
  | O => Spins
  | S n =>
      let '(done, (id, termination, status), u) := wait_any u in
      if negb (done =? 1) then Goes (sh, u) else
      let! u := (if editing && negb shown then print_text newline u else Goes u) in
      let! u := say "[" u in
      let! u := print_number id u in
      let! u := say "] " u in
      let! (sh, u) := (match child_slot id sh with
        | Some i =>
            let! u := print_text (child_name (child_at sh i)) u in
            let! u := say ": " u in Goes (set_child i (Child 0 (child_name (child_at sh i))) sh, u)
        | None => Goes (sh, u)
        end) in
      let! u := (if termination =? RUM_PROCESS_CANCELLED then say "cancelled" u else
                 if termination =? RUM_PROCESS_FAULTED then say "faulted" u else
                 let! u := say "exited with status " u in print_number status u) in
      let! u := say_line "." u in
      completions_loop n editing true sh u
  end.
Definition completions (editing : bool) sh u : run (shell * U) := completions_loop COMPLETION_PASSES editing false sh u.

Definition prompt u : run U :=
  let '(r, u) := getcwd u in
  match r with
  | inl e => let! _ := out (tool_error write (chars "shell") e u) in Ends 1
  | inr path => let! u := print_text path u in say "> " u
  end.

(** The words after the command; more than 31 of them are too many. *)
Fixpoint more_words (n : nat) (tail : list Z) (argv : list (list Z)) : Z + list (list Z) :=
  match n with
  | O => inr argv
  | S n =>
      match tool_word tail with
      | (None, _) => inr argv
      | (Some word, tail) => if len argv =? RUM_PROCESS_ARGUMENT_LIMIT then inl (- RUM_E2BIG) else more_words n tail (argv ++ [word])
      end
  end.
(** The call that starts the program, for a path. *)
Definition start (background : bool) (path : list Z) (arguments : rum_arguments) (text : list Z) u : Z * (Z * Z) * U :=
  if background then let '(r, u) := spawn path arguments u in (r, (0, 0), u) else run_command path arguments text u.
(** A bare name is looked for in [/rum/] and then in the working directory. *)
Definition start_searching (background : bool) (command path : list Z) (arguments : rum_arguments) (text : list Z) u : Z * (Z * Z) * U :=
  let '(result, child, u) := start background path arguments text u in
  if (result =? - RUM_ENOENT) && negb (existsb (λ c, c =? 47) command) then start background command arguments text u else (result, child, u).
(** From the argument packet on. *)
Definition launch (background : bool) (slot : Z) (command : list Z) (argv : list (list Z)) (text : list Z) sh u : run (shell * U) :=
  let '(result, arguments) := tool_arguments argv in
  let path := if result =? 0 then tool_program_path command else inl result in
  let '(result, (termination, status), u) := match path with
    | inl e => (e, (0, 0), u)
    | inr path => start_searching background command path arguments text u
    end in
  if result <? 0 then let! u := out (tool_error write command result u) in Goes (sh, u) else
  if background then
    let sh := set_child slot (Child result (take (Z.to_nat (RUM_PROCESS_NAME_CAPACITY - 1)) command)) sh in
    let! u := say "[" u in
    let! u := print_number result u in
    let! u := say "] started " u in
    let! u := print_text command u in
    let! u := say_line "." u in Goes (sh, u)
  else let! u := out (tool_child_status write termination status false u) in Goes (sh, u).
Definition execute (text : list Z) sh u : run (shell * U) :=
  match tool_word text with
  | (None, _) => Goes (sh, u)
  | (Some command, tail) =>
      if equal command (chars "exit") || equal command (chars "recovery") then
        if negb (len (tool_remainder tail) =? 0) then
          let! u := say "Usage: " u in
          let! u := print_text command u in
          let! u := print_text newline u in Goes (sh, u)
        else Ends (if equal command (chars "recovery") then RUM_SHELL_RECOVERY_STATUS else 0)
      else
        let background := equal command (chars "start") in
        let '(command, tail) := if background then tool_word tail else (Some command, tail) in
        match command with
        | None => let! u := say_line "Usage: start <program> [arguments]" u in Goes (sh, u)
        | Some command =>
            match (if background then child_slot 0 sh else Some 0) with
            | None => let! u := say_line "start: too many owned processes." u in Goes (sh, u)
            | Some slot =>
                let tail := tool_remainder tail in
                match more_words (S (length tail)) tail [command] with
                | inl e => let! u := out (tool_error write (chars "shell") e u) in Goes (sh, u)
                | inr argv => launch background slot command argv tail sh u
                end
            end
        end
  end.

(** The turns of [main] after the greeting. [Ends] includes the status [main] returns. *)
Definition tab_stop (sh : shell) : Z := Z.min 4 (RUM_COMMAND_TEXT_CAPACITY - 1 - len (line sh)).
Definition key (c : Z) sh u : run (shell * U) :=
  if (c =? 10) || (c =? 13) then
    let! u := print_text newline u in
    let! (sh, u) := execute (line sh) sh u in
    let! (sh, u) := completions false (set_line [] sh) u in
    let! u := prompt u in Goes (sh, u)
  else if c =? 3 then
    let! u := say_line "^C" u in
    let! u := prompt u in Goes (set_line [] sh, u)
  else if (c =? 8) || (c =? 127) then
    if negb (len (line sh) =? 0) then
      let! u := print_text [8; 32; 8] u in Goes (set_line (take (length (line sh) - 1) (line sh)) sh, u)
    else Goes (sh, u)
  else if c =? 9 then
    let n := Z.to_nat (tab_stop sh) in
    let! u := out (tool_each write (replicate n 32) u) in Goes (set_line (line sh ++ replicate n 32) sh, u)
  else if (c >=? 32) && (c <=? 126) && (len (line sh) <? RUM_COMMAND_TEXT_CAPACITY - 1) then
    let! u := print_text [c] u in Goes (set_line (line sh ++ [c]) sh, u)
  else Goes (sh, u).
Definition turn sh u : run (shell * U) :=
  let '(result, c, u) := read u in
  if result =? - RUM_EINTR then
    let! (sh, u) := completions true sh u in
    let! u := prompt u in
    let! u := print_text (line sh) u in Goes (sh, u)
  else if negb (result =? 1) then Ends 1 else key c sh u.
Definition main u : run (shell * U) :=
  let! u := say_line "Type 'help' for commands." u in
  let! u := prompt u in Goes (Shell ∅ [], u).
Fixpoint turns (n : nat) (r : run (shell * U)) : run (shell * U) :=
  match n with O => r | S n => let! (sh, u) := r in turns n (turn sh u) end.
End Shell.

(** ** Words *)

Lemma next_word_rest text : match snd (next_word text) with [] => True | c :: _ => blank c = true end.
Proof. induction text as [|c text IH]; cbn; [done|]. destruct (blank c) eqn:B; [done|]. by destruct (next_word text). Qed.
Lemma tool_word_words text : words text = match tool_word text with (None, _) => [] | (Some w, tail) => w :: words tail end.
Proof.
  rewrite words_step. unfold tool_word. destruct (skip_blanks text) as [|c rest]; [done|]. set (l := c :: rest). pose proof (next_word_rest l) as R. destruct (next_word l) as [w r]. cbn [fst snd] in *. f_equal.
  destruct r as [|d r]; [done|]. cbn [drop]. unfold words. cbn. by rewrite R.
Qed.
Lemma tool_word_shorter text w tail : tool_word text = (Some w, tail) → (length tail < length text)%nat.
Proof.
  unfold tool_word. pose proof (skip_shorter text) as L. destruct (skip_blanks text) as [|c rest] eqn:E; [done|]. assert (blank c = false) as B.
  { clear -E. induction text as [|d text IH]; cbn in E; [done|]. destruct (blank d) eqn:D; [by apply IH|]. by injection E as -> ->. }
  pose proof (proj1 (next_shorter c rest B)) as N. destruct (next_word (c :: rest)) as [v r]. cbn [snd] in N. intros [= <- <-]. rewrite length_drop. cbn in L. lia.
Qed.
Lemma words_remainder text : words (tool_remainder text) = words text.
Proof. apply words_skip. Qed.
Lemma more_words_spec n : ∀ tail argv, (length tail < n)%nat → len argv ≤ RUM_PROCESS_ARGUMENT_LIMIT →
  more_words n tail argv = if len argv + len (words tail) >? RUM_PROCESS_ARGUMENT_LIMIT then inl (- RUM_E2BIG) else inr (argv ++ words tail).
Proof.
  induction n as [|n IH]; intros tail argv L A; [lia|]. cbn [more_words]. rewrite (tool_word_words tail). destruct (tool_word tail) as [[w|] rest] eqn:E; rewrite Z.gtb_ltb.
  - apply tool_word_shorter in E. cbn [length]. destruct (Z.eqb_spec (len argv) RUM_PROCESS_ARGUMENT_LIMIT) as [F|F].
    + rewrite (proj2 (Z.ltb_lt _ _)) by lia. done.
    + rewrite IH by (rewrite ?length_app; cbn; lia). rewrite length_app, <- app_assoc, Z.gtb_ltb. cbn [length app]. by replace (Z.of_nat (length argv + 1) + len (words rest)) with (len argv + Z.of_nat (S (length (words rest)))) by lia.
  - cbn. rewrite (proj2 (Z.ltb_ge _ _)), app_nil_r by lia. done.
Qed.
Lemma tokens_packed text : ∀ word, packed (tokens word text) ≤ len word + len text + 1.
Proof.
  induction text as [|c text IH]; intros word; cbn [tokens].
  - destruct (decide (word = [])); cbn; lia.
  - destruct (blank c).
    + specialize (IH []). destruct (decide (word = [])) as [->|]; [cbn [length] in *; lia|]. change (packed (word :: tokens [] text)) with (len word + 1 + packed (tokens [] text)). cbn [length] in *. lia.
    + specialize (IH (word ++ [c])). rewrite length_app in IH. cbn [length] in *. lia.
Qed.
Lemma tokens_plain text : ∀ word, Forall (λ c, 0 < c ≤ UINT8_MAX) word → Forall (λ c, 0 < c ≤ UINT8_MAX) text → Forall plain (tokens word text).
Proof.
  induction text as [|c text IH]; intros word Fw F; cbn [tokens]; [destruct (decide (word = [])); by repeat constructor|]. inversion F as [|? ? Hc Ft]; subst. destruct (blank c).
  - destruct (decide (word = [])); [|constructor; [done|]]; (apply IH; [constructor|done]).
  - apply IH; [|done]. apply Forall_app. split; [done|]. constructor; [done|constructor].
Qed.

(** ** What the shell starts *)

Lemma tool_word_nonempty text w tail : tool_word text = (Some w, tail) → w ≠ [].
Proof.
  unfold tool_word. destruct (skip_blanks text) as [|c rest] eqn:E; [done|]. assert (blank c = false) as B.
  { clear -E. induction text as [|d text IH]; cbn in E; [done|]. destruct (blank d) eqn:D; [by apply IH|]. by injection E as -> ->. }
  pose proof (proj2 (next_shorter c rest B)) as N. destruct (next_word (c :: rest)) as [v r]. by intros [= <- <-].
Qed.
Lemma tool_word_rest (P : Z → Prop) text w tail : Forall P text → tool_word text = (Some w, tail) → Forall P tail.
Proof.
  intros F. unfold tool_word. assert (Forall P (skip_blanks text)) as Fs by (clear -F; induction F as [|c text Hc F IH]; cbn; [done|]; destruct (blank c); [done|by constructor]).
  assert (∀ l, Forall P l → Forall P (snd (next_word l))) as Fn.
  { intros l Fl. induction Fl as [|c l Hc Fl IH]; cbn; [done|]. destruct (blank c); [by constructor|]. by destruct (next_word l). }
  destruct (skip_blanks text) as [|c rest]; [done|]. specialize (Fn _ Fs). destruct (next_word (c :: rest)) as [v r]. intros [= _ <-]. by apply Forall_drop.
Qed.

(** A program the shell asked the kernel to start; only one in the foreground gets the text. *)
Record program_start := ProgramStart { start_background : bool; start_path : list Z; start_arguments : rum_arguments; start_text : list Z }.
(** What a kernel is to the shell: writes take at least a byte and come out in order, each
    call to start a program is one start, and what it answers, an error or a process, is any
    function of the starts before it. *)
Class ShellWorld {U : Type} (write : Z → list Z → U → Z * U) (spawn : list Z → rum_arguments → U → Z * U)
    (run_command : list Z → rum_arguments → list Z → U → Z * (Z * Z) * U) := {
  stream : U → list Z;
  begun : U → list program_start;
  answers : list program_start → program_start → Z * (Z * Z);
  world_write : takes_prefix write stream;
  world_writes f s u : begun (snd (write f s u)) = begun u;
  world_spawn p a u : let b := ProgramStart true p a [] in let '(r, u') := spawn p a u in
    r = fst (answers (begun u) b) ∧ stream u' = stream u ∧ begun u' = begun u ++ [b];
  world_run p a t u : let b := ProgramStart false p a t in let '(r, c, u') := run_command p a t u in
    (r, c) = answers (begun u) b ∧ stream u' = stream u ∧ begun u' = begun u ++ [b]
}.

(** A line that names a program: a bare command, or [start] and a command. *)
Inductive command_line (text : list Z) : bool → list Z → list Z → Prop :=
| foreground_line w tail : tool_word text = (Some w, tail) → w ≠ chars "exit" → w ≠ chars "recovery" → w ≠ chars "start" → command_line text false w tail
| background_line rest w tail : tool_word text = (Some (chars "start"), rest) → tool_word rest = (Some w, tail) → command_line text true w tail.

Definition signed_text (v : Z) : list Z := (if v <? 0 then chars "-" else []) ++ decimal (wrap32 (Z.abs v)).
Definition error_line (command : list Z) (result : Z) : list Z := command ++ chars ": " ++ chars (error_message result) ++ chars "." ++ newline.
Definition ending_line (termination status : Z) : list Z :=
  if termination =? RUM_PROCESS_CANCELLED then chars "Program cancelled." ++ newline else
  if termination =? RUM_PROCESS_FAULTED then chars "Program stopped after a user fault." ++ newline else
  if status =? 0 then [] else chars "Program exited with status " ++ signed_text status ++ chars "." ++ newline.

Section Starts.
Context {U : Type} (write : Z → list Z → U → Z * U) (spawn : list Z → rum_arguments → U → Z * U)
  (run_command : list Z → rum_arguments → list Z → U → Z * (Z * Z) * U) `{!ShellWorld write spawn run_command}.

(** The program named by a path is that path. A bare name is looked for in [/rum/] first and,
    if there is no such file, in the working directory. A path of 256 bytes is too long. *)
Definition attempts (before : list program_start) (background : bool) (command : list Z) (a : rum_arguments) (text : list Z) : list program_start :=
  let at_path p := ProgramStart background p a (if background then [] else text) in
  let bare := bool_decide (47 ∉ command) in
  let first := if bare then chars "/rum/" ++ command else command in
  if bool_decide (RUM_ABI_PATH_CAPACITY ≤ len first) then [] else
  if bare && bool_decide (fst (answers before (at_path first)) = - RUM_ENOENT) then [at_path first; at_path command] else [at_path first].
(** The answer that counts is the last one. *)
Definition verdict (before l : list program_start) : Z * (Z * Z) :=
  match l with
  | [] => (- RUM_ENAMETOOLONG, (0, 0))
  | [b] => answers before b
  | b :: c :: _ => answers (before ++ [b]) c
  end.
Definition reported (background : bool) (command : list Z) (v : Z * (Z * Z)) : list Z :=
  let '(result, (termination, status)) := v in
  if result <? 0 then error_line command result else
  if background then chars "[" ++ signed_text result ++ chars "] started " ++ command ++ chars "." ++ newline else ending_line termination status.
Definition remembered (background : bool) (slot : Z) (command : list Z) (v : Z * (Z * Z)) sh : shell :=
  if background && (0 <=? fst v) then Shell (<[slot := Child (fst v) (take 63 command)]> (children sh)) (line sh) else sh.

(** [s] was written and nothing was started. *)
Definition wrote (s : list Z) u u' : Prop := stream u' = stream u ++ s ∧ begun u' = begun u.
Lemma wrote_nil u : wrote [] u u.
Proof. split; [by rewrite app_nil_r|done]. Qed.
Lemma wrote_app s t u u1 u2 : wrote s u u1 → wrote t u1 u2 → wrote (s ++ t) u u2.
Proof. intros [S1 B1] [S2 B2]. split; [by rewrite S2, S1, app_assoc|congruence]. Qed.
Lemma output_begun n : ∀ s u u', tool_output_loop write n s u = Some u' → begun u' = begun u.
Proof.
  induction n as [|n IH]; intros [|c s] u u'; cbn [tool_output_loop]; [by intros [= <-]|done|by intros [= <-]|].
  pose proof (world_writes RUM_STDOUT (c :: s) u) as W. destruct (write RUM_STDOUT (c :: s) u) as [k u1]. destruct (_ || _); [done|]. intros H. by rewrite (IH _ _ _ H).
Qed.
Lemma print_wrote s u : ∃ u', tool_print write s u = Some u' ∧ wrote s u u'.
Proof. destruct (output_loop_all write stream world_write (length s) s u ltac:(done)) as (u' & E & S). exists u'. split; [exact E|]. split; [done|]. by eapply output_begun. Qed.
Lemma each_wrote s u : ∃ u', tool_each write s u = Some u' ∧ wrote s u u'.
Proof.
  revert u. induction s as [|c s IH]; intros u; [exists u; split; [done|apply wrote_nil]|]. cbn [tool_each]. destruct (print_wrote [c] u) as (u1 & E & W). unfold tool_print in E. rewrite E.
  destruct (IH u1) as (u2 & E2 & W2). exists u2. split; [done|]. exact (wrote_app [c] s u u1 u2 W W2).
Qed.
Lemma number_wrote v u : ∃ u', tool_number write v u = Some u' ∧ wrote (signed_text v) u u'.
Proof.
  unfold tool_number, signed_text. assert ((if v <? 0 then wrap32 (0 - wrap32 v) else wrap32 v) = wrap32 (Z.abs v)) as ->.
  { destruct (Z.ltb_spec v 0); [|by rewrite Z.abs_eq]. rewrite Z.abs_neq by lia. unfold wrap32. rewrite Zminus_mod_idemp_r. done. }
  destruct (v <? 0); [|apply each_wrote]. destruct (print_wrote (chars "-") u) as (u1 & -> & W). destruct (each_wrote (decimal (wrap32 (Z.abs v))) u1) as (u2 & E & W2). exists u2. split; [done|]. by eapply wrote_app.
Qed.
(** One more piece of output. *)
Ltac writes lemma u := let E := fresh "E" in let W := fresh "W" in destruct lemma as (u & E & W); rewrite E; clear E.
Lemma error_wrote command result u : ∃ u', tool_error write command result u = Some u' ∧ wrote (error_line command result) u u'.
Proof.
  unfold tool_error, error_line. writes (print_wrote command u) u1. writes (print_wrote (chars ": ") u1) u2. writes (print_wrote (chars (error_message result)) u2) u3. writes (print_wrote (chars "." ++ newline) u3) u4.
  exists u4. split; [done|]. repeat (eapply wrote_app; [eassumption|]). done.
Qed.
Lemma status_wrote termination status u : ∃ u', tool_child_status write termination status false u = Some u' ∧ wrote (ending_line termination status) u u'.
Proof.
  unfold tool_child_status, ending_line. do 2 (match goal with |- context [if ?b then tool_print _ _ _ else _] => destruct b end; [apply print_wrote|]). cbn [orb]. destruct (status =? 0); cbn [negb]; [exists u; split; [done|apply wrote_nil]|].
  writes (print_wrote (chars "Program exited with status ") u) u1. writes (number_wrote status u1) u2. writes (print_wrote (chars "." ++ newline) u2) u3. exists u3. split; [done|]. repeat (eapply wrote_app; [eassumption|]). done.
Qed.
(** One call is one start, and its answer is the kernel's. *)
Lemma start_begins background p a text u : let b := ProgramStart background p a (if background then [] else text) in
  ∃ c u', start spawn run_command background p a text u = (fst (answers (begun u) b), c, u') ∧ (background = false → c = snd (answers (begun u) b)) ∧
    stream u' = stream u ∧ begun u' = begun u ++ [b].
Proof.
  cbv zeta. unfold start. destruct background.
  - pose proof (world_spawn p a u) as W. cbv zeta in W. destruct (spawn p a u) as [r u']. destruct W as (-> & S & B). by exists (0, 0), u'.
  - pose proof (world_run p a text u) as W. cbv zeta in W. destruct (run_command p a text u) as [[r c] u']. destruct W as (E & S & B). rewrite <- E. by exists c, u'.
Qed.
Lemma slash_in command : existsb (λ c, c =? 47) command = negb (bool_decide (47 ∉ command)).
Proof.
  case_bool_decide as H; cbn [negb].
  - apply not_true_is_false. intros (x & Hx & E)%existsb_exists. apply Z.eqb_eq in E as ->. by apply H, list_elem_of_In.
  - apply existsb_exists. exists 47. split; [by apply list_elem_of_In|done].
Qed.
(** The search makes exactly the attempts and ends with their verdict. *)
Lemma search_attempts background command a text u : command ≠ [] → let l := attempts (begun u) background command a text in
  ∃ c u', match tool_program_path command with inl e => (e, (0, 0), u) | inr path => start_searching spawn run_command background command path a text u end =
      (fst (verdict (begun u) l), c, u') ∧ (background = false → c = snd (verdict (begun u) l)) ∧ stream u' = stream u ∧ begun u' = begun u ++ l.
Proof.
  intros N. cbv zeta. unfold attempts, tool_program_path. cbv zeta. rewrite slash_in. rewrite (proj2 (Z.eqb_neq (len command) 0)) by (destruct command; cbn; [done|lia]). cbn [orb]. rewrite Z.geb_leb.
  set (bare := bool_decide (47 ∉ command)). set (first := if bare then chars "/rum/" ++ command else command).
  assert ((if negb bare then [] else chars "/rum/") ++ command = first) as Ef by (unfold first; by destruct bare). rewrite Ef.
  assert (len command + len (if negb bare then [] else chars "/rum/") = len first) as El by (rewrite <- Ef, length_app; lia). rewrite El. clear Ef El.
  case_bool_decide as Hc. { rewrite (proj2 (Z.leb_le _ _) Hc). exists (0, 0), u. cbn. split_and!; try done. by rewrite app_nil_r. }
  rewrite (proj2 (Z.leb_gt _ _)) by lia. unfold start_searching. destruct (start_begins background first a text u) as (c1 & u1 & -> & C1 & S1 & B1).
  rewrite slash_in, negb_involutive. fold bare.
  set (b := ProgramStart _ first a _) in *. destruct (Z.eqb_spec (fst (answers (begun u) b)) (- RUM_ENOENT)) as [E|E].
  - rewrite (bool_decide_eq_true_2 _ E), andb_true_r. cbn [andb]. destruct bare; [|by exists c1, u1].
    destruct (start_begins background command a text u1) as (c2 & u2 & E2 & C2 & S2 & B2). rewrite E2, B1 in *. exists c2, u2. split; [done|]. split; [exact C2|]. split; [congruence|]. by rewrite B2, <- app_assoc.
  - rewrite (bool_decide_eq_false_2 _ E), andb_false_r. cbn [andb]. by exists c1, u1.
Qed.
Lemma launch_begins background slot command argv a text sh u : tool_arguments argv = (0, a) → command ≠ [] →
  let l := attempts (begun u) background command a text in
  ∃ u', launch write spawn run_command background slot command argv text sh u = Goes (remembered background slot command (verdict (begun u) l) sh, u') ∧
    begun u' = begun u ++ l ∧ stream u' = stream u ++ reported background command (verdict (begun u) l).
Proof.
  intros Ea N. cbv zeta. unfold launch. rewrite Ea. cbn [Z.eqb]. destruct (search_attempts background command a text u N) as (c & u1 & E & C & S1 & B1). cbv zeta in *.
  rewrite E. clear E. revert C. generalize (verdict (begun u) (attempts (begun u) background command a text)). intros [result [termination status]] C. cbn [fst snd] in *. destruct c as [termination' status'].
  rewrite <- B1, <- S1. clear S1 B1. unfold reported, remembered. cbn [fst]. destruct (Z.ltb_spec result 0) as [Hr|Hr].
  { rewrite (proj2 (Z.leb_gt 0 result)) by lia. rewrite andb_false_r. destruct (error_wrote command result u1) as (u2 & -> & W). exists u2. cbn. split; [done|]. split; apply W. }
  rewrite (proj2 (Z.leb_le 0 result)) by lia. destruct background; cbn [andb].
  - unfold say, print_number, print_text, say_line, out. writes (print_wrote (chars "[") u1) u2. writes (number_wrote result u2) u3. writes (print_wrote (chars "] started ") u3) u4. writes (print_wrote command u4) u5.
    writes (print_wrote (chars "." ++ newline) u5) u6. exists u6. split; [done|]. assert (wrote (chars "[" ++ signed_text result ++ chars "] started " ++ command ++ chars "." ++ newline) u1 u6) as [? ?]; [|done].
    repeat (eapply wrote_app; [eassumption|]). done.
  - specialize (C eq_refl). injection C as -> ->. destruct (status_wrote termination status u1) as (u2 & -> & W). exists u2. cbn. split; [done|]. split; apply W.
Qed.
(** The arguments of a command line: its words, within what the packet holds. *)
Lemma line_arguments text background w tail : Forall (λ c, 32 ≤ c ≤ 126) text → len text < RUM_COMMAND_TEXT_CAPACITY → command_line text background w tail → len (w :: words tail) ≤ RUM_PROCESS_ARGUMENT_LIMIT →
  w ≠ [] ∧ ∃ a, tool_arguments (w :: words tail) = (0, a) ∧ holds (arguments_of (arguments_bytes a)) 0 0 (w :: words tail) ∧ elf_arguments_valid (Some (arguments_of (arguments_bytes a))) = true.
Proof.
  intros F L C G. assert (∃ rest, Forall (λ c, 32 ≤ c ≤ 126) rest ∧ len rest < RUM_COMMAND_TEXT_CAPACITY ∧ tool_word rest = (Some w, tail)) as (rest & Fr & Lr & E).
  { destruct C as [w tail E _ _ _|rest w tail E0 E]; [by exists text|]. exists rest. split; [by eapply tool_word_rest|]. split; [apply tool_word_shorter in E0; lia|done]. }
  split; [by eapply tool_word_nonempty|]. pose proof (tool_word_words rest) as W. rewrite E in W. rewrite <- W in *.
  assert (Forall plain (words rest)) as Fp by (apply tokens_plain; [constructor|]; eapply Forall_impl; [|exact Fr]; cbn; unfold UINT8_MAX; lia).
  pose proof (arguments_reach (words rest) Fp) as A. destruct (tool_arguments (words rest)) as [e a]. destruct A as [(-> & _ & _ & V & _ & H)|[_ B]]; [by exists a|]. exfalso.
  pose proof (tokens_packed rest []) as P. cbn [length] in P. change (tokens [] rest) with (words rest) in P. unfold RUM_COMMAND_TEXT_CAPACITY, RUM_PROCESS_ARGUMENT_BYTES in *.
  destruct B as [B|[B|B]]; [by rewrite W in B|lia|lia].
Qed.
(** What [execute] does with such a line. *)
Lemma execute_line text background w tail slot sh u : command_line text background w tail → (background = true → child_slot 0 sh = Some slot) →
  execute write spawn run_command text sh u =
  if len (w :: words tail) >? RUM_PROCESS_ARGUMENT_LIMIT then match out (tool_error write (chars "shell") (- RUM_E2BIG) u) with Goes u => Goes (sh, u) | Ends e => Ends e | Spins => Spins end
  else launch write spawn run_command background (if background then slot else 0) w (w :: words tail) (tool_remainder tail) sh u.
Proof.
  intros C Hs. unfold execute, equal. destruct C as [w tail E N1 N2 N3|rest w tail E0 E].
  - rewrite E. rewrite !bool_decide_eq_false_2 by done. cbn [orb]. rewrite more_words_spec by (cbn [length]; unfold RUM_PROCESS_ARGUMENT_LIMIT; lia). rewrite words_remainder. cbn [length app].
    replace (Z.of_nat 1 + len (words tail)) with (Z.of_nat (S (length (words tail)))) by lia. by destruct (_ >? _).
  - rewrite E0. rewrite (bool_decide_eq_false_2 (chars "start" = chars "exit")), (bool_decide_eq_false_2 (chars "start" = chars "recovery")), (bool_decide_eq_true_2 (chars "start" = chars "start")) by done.
    cbn [orb]. rewrite E, (Hs eq_refl). rewrite more_words_spec by (cbn [length]; unfold RUM_PROCESS_ARGUMENT_LIMIT; lia). rewrite words_remainder. cbn [length app].
    replace (Z.of_nat 1 + len (words tail)) with (Z.of_nat (S (length (words tail)))) by lia. by destruct (_ >? _).
Qed.
End Starts.

(** C36: the shell runs what was typed. For a line of printable characters within the buffer
    that names a program, alone or after [start] (with a free slot in the table), over any
    kernel whose writes take at least one byte: with more than 32 words nothing is started and
    the error is written. Otherwise the programs started are exactly the attempts: none if the
    path is 256 bytes or longer, else one at the path typed or, for a bare name, one in [/rum/]
    and, only if the kernel answers that there is no such file, one in the working directory;
    each with a packet that the kernel reads as exactly the words of the line, and in the
    foreground with the unparsed rest of the line as text. What is written is exactly the
    error, how the program ended, or the number of the process in the background, which is
    remembered in the free slot; nothing else changes. *)
Theorem shell_runs_what_was_typed (U : Type) (write : Z → list Z → U → Z * U) (spawn : list Z → rum_arguments → U → Z * U)
    (run_command : list Z → rum_arguments → list Z → U → Z * (Z * Z) * U) `{!ShellWorld write spawn run_command}
    (text w tail : list Z) (background : bool) (slot : Z) (sh : shell) (u : U) :
  Forall (λ c, 32 ≤ c ≤ 126) text → len text < RUM_COMMAND_TEXT_CAPACITY → command_line text background w tail → (background = true → child_slot 0 sh = Some slot) →
  if len (w :: words tail) >? RUM_PROCESS_ARGUMENT_LIMIT then
    ∃ u', execute write spawn run_command text sh u = Goes (sh, u') ∧ begun u' = begun u ∧ stream u' = stream u ++ error_line (chars "shell") (- RUM_E2BIG)
  else
    ∃ a u', let l := attempts write spawn run_command (begun u) background w a (tool_remainder tail) in let v := verdict write spawn run_command (begun u) l in
      holds (arguments_of (arguments_bytes a)) 0 0 (w :: words tail) ∧ elf_arguments_valid (Some (arguments_of (arguments_bytes a))) = true ∧
      execute write spawn run_command text sh u = Goes (remembered background slot w v sh, u') ∧
      begun u' = begun u ++ l ∧ stream u' = stream u ++ reported background w v.
Proof.
  intros F L C Hs. rewrite (execute_line write spawn run_command text background w tail slot sh u C Hs). destruct (len (w :: words tail) >? RUM_PROCESS_ARGUMENT_LIMIT) eqn:G.
  - destruct (error_wrote write spawn run_command (chars "shell") (- RUM_E2BIG) u) as (u' & -> & S & B). exists u'. cbn. by split_and!.
  - rewrite Z.gtb_ltb in G. apply Z.ltb_ge in G. destruct (line_arguments text background w tail F L C G) as (N & a & Ea & H & V).
    destruct (launch_begins write spawn run_command background (if background then slot else 0) w _ a (tool_remainder tail) sh u Ea N) as (u' & E & B & S). exists a, u'. cbv zeta.
    split_and!; [exact H|exact V| |exact B|exact S]. rewrite E. by destruct background.
Qed.
(** A kernel that finds [ls] in the working directory only, and writes three bytes at a time. *)
Module ShellSample.
Definition world : Type := list Z * list program_start.
Definition write (f : Z) (s : list Z) (u : world) : Z * world := (Z.min 3 (len s), (u.1 ++ take (Z.to_nat (Z.min 3 (len s))) s, u.2)).
Definition answer (b : program_start) : Z * (Z * Z) := if bool_decide (start_path b = chars "ls") then (9, (1, 4)) else (- RUM_ENOENT, (0, 0)).
Definition spawn (p : list Z) (a : rum_arguments) (u : world) : Z * world := let b := ProgramStart true p a [] in (fst (answer b), (u.1, u.2 ++ [b])).
Definition run_command (p : list Z) (a : rum_arguments) (t : list Z) (u : world) : Z * (Z * Z) * world := let b := ProgramStart false p a t in (answer b, (u.1, u.2 ++ [b])).
#[global] Instance shell_world : ShellWorld write spawn run_command.
Proof.
  refine {| stream := fst; begun := snd; answers := λ _, answer |}; [|done..|].
  - intros s u N. split; [|done]. assert (0 < len s) by (destruct s; [done|cbn; lia]). lia.
  - intros p a t u. cbn. by destruct (answer _).
Defined.
End ShellSample.
(** The line [ls -l]: the shell looks in [/rum/], then in the working directory. *)
Lemma shell_runs_what_was_typed_witness :
  ∃ a u', execute ShellSample.write ShellSample.spawn ShellSample.run_command (chars "ls -l") (Shell ∅ []) ([], []) = Goes (Shell ∅ [], u') ∧
    holds (arguments_of (arguments_bytes a)) 0 0 [chars "ls"; chars "-l"] ∧
    snd u' = [ProgramStart false (chars "/rum/ls") a (chars "-l"); ProgramStart false (chars "ls") a (chars "-l")] ∧
    fst u' = chars "Program exited with status 4." ++ newline.
Proof.
  pose proof (shell_runs_what_was_typed ShellSample.world ShellSample.write ShellSample.spawn ShellSample.run_command (chars "ls -l") (chars "ls") (chars "-l") false 0 (Shell ∅ []) ([], [])
    ltac:(apply (bool_decide_unpack _); vm_compute; exact I) ltac:(by vm_compute) ltac:(by constructor) ltac:(done)) as H.
  destruct H as (a & u' & Ho & _ & E & B & S). exists a, u'. split; [exact E|]. split; [exact Ho|]. split; [exact B|exact S].
Defined.

(** ** The line and the table *)

Record shell_ok (sh : shell) : Prop := {
  sh_line : len (line sh) < RUM_COMMAND_TEXT_CAPACITY;
  sh_text : Forall (λ c, 32 ≤ c ≤ 126) (line sh);
  sh_slots : ∀ i c, children sh !! i = Some c → 0 ≤ i < RUM_PROCESS_LIST_LIMIT ∧ len (child_name c) < RUM_PROCESS_NAME_CAPACITY;
}.
Section Keeps.
Context {U : Type} (write : Z → list Z → U → Z * U) (read : U → Z * Z * U) (getcwd : U → (Z + list Z) * U) (wait_any : U → Z * (Z * Z * Z) * U)
  (spawn : list Z → rum_arguments → U → Z * U) (run_command : list Z → rum_arguments → list Z → U → Z * (Z * Z) * U).
(** A run that goes on leaves a state with [Q]. *)
Definition leaves {A : Type} (Q : A → Prop) (r : run A) : Prop := match r with Goes a => Q a | _ => True end.
Lemma leaves_bind {A B : Type} (Q : A → Prop) (R : B → Prop) (r : run A) (k : A → run B) : leaves Q r → (∀ a, Q a → leaves R (k a)) →
  leaves R (match r with Goes a => k a | Ends e => Ends e | Spins => Spins end).
Proof. destruct r; cbn; auto. Qed.
Lemma leaves_any {A B : Type} (R : B → Prop) (r : run A) (k : A → run B) : (∀ a, leaves R (k a)) → leaves R (match r with Goes a => k a | Ends e => Ends e | Spins => Spins end).
Proof. destruct r; cbn; auto. Qed.
Definition ok (x : shell * U) : Prop := shell_ok (fst x).

Lemma child_slot_range id sh i : child_slot id sh = Some i → 0 ≤ i < RUM_PROCESS_LIST_LIMIT.
Proof. unfold child_slot. intros [H _]%List.find_some. apply list_elem_of_In, elem_of_seqZ in H. lia. Qed.
Lemma set_child_ok i c sh : shell_ok sh → 0 ≤ i < RUM_PROCESS_LIST_LIMIT → len (child_name c) < RUM_PROCESS_NAME_CAPACITY → shell_ok (set_child i c sh).
Proof.
  intros [L T S] Hi Hc. constructor; [done..|]. intros j d. cbn. destruct (decide (j = i)) as [->|]; [rewrite lookup_insert_eq; by intros [= <-]|rewrite lookup_insert_ne by done; apply S].
Qed.
Lemma child_at_name sh i : shell_ok sh → len (child_name (child_at sh i)) < RUM_PROCESS_NAME_CAPACITY.
Proof. intros [_ _ S]. unfold child_at. destruct (children sh !! i) eqn:E; [|done]. by apply (S i). Qed.
Lemma set_line_ok l sh : shell_ok sh → len l < RUM_COMMAND_TEXT_CAPACITY → Forall (λ c, 32 ≤ c ≤ 126) l → shell_ok (set_line l sh).
Proof. by intros [_ _ S]. Qed.

Ltac say_on := repeat (apply leaves_any; intros ?).
Lemma completions_ok n editing shown sh u : shell_ok sh → leaves ok (completions_loop write wait_any n editing shown sh u).
Proof.
  revert shown sh u. induction n as [|n IH]; intros shown sh u H; [done|]. cbn [completions_loop]. destruct (wait_any u) as [[done_ [[id termination] status]] u1].
  destruct (negb _); [done|]. do 4 (apply leaves_any; intros ?). apply (leaves_bind ok).
  - destruct (child_slot id sh) as [i|] eqn:E; [|done]. say_on. unfold ok. cbn [leaves fst]. apply child_slot_range in E. apply set_child_ok; [done|done|]. by apply child_at_name.
  - intros [sh' u'] H'. say_on. by apply IH.
Qed.
Lemma launch_ok background slot command argv text sh u : shell_ok sh → 0 ≤ slot < RUM_PROCESS_LIST_LIMIT → leaves ok (launch write spawn run_command background slot command argv text sh u).
Proof.
  intros H Hs. unfold launch. destruct (tool_arguments argv) as [e a]. destruct (match _ with inl _ => _ | inr _ => _ end) as [[result [termination status]] u1].
  case_match; [say_on; done|]. case_match; [|say_on; done]. say_on. unfold ok. cbn [leaves fst]. apply set_child_ok; [done|done|]. cbn [child_name]. rewrite length_take. unfold RUM_PROCESS_NAME_CAPACITY. lia.
Qed.
Lemma execute_ok text sh u : shell_ok sh → leaves ok (execute write spawn run_command text sh u).
Proof.
  intros H. unfold execute. destruct (tool_word text) as [[command|] tail]; [|done]. case_match; [case_match; [say_on; done|done]|].
  destruct (if equal command (chars "start") then _ else _) as [[command'|] tail'] eqn:E; [|say_on; done].
  destruct (if equal command (chars "start") then child_slot 0 sh else Some 0) as [slot|] eqn:Es; [|say_on; done].
  destruct (more_words _ _ _); [say_on; done|]. apply launch_ok; [done|]. destruct (equal command (chars "start")); [by eapply child_slot_range|]. injection Es as <-. unfold RUM_PROCESS_LIST_LIMIT. lia.
Qed.
Lemma key_ok c sh u : shell_ok sh → leaves ok (key write getcwd wait_any spawn run_command c sh u).
Proof.
  intros H. pose proof H as [L T _]. unfold key. case_match.
  { apply leaves_any; intros ?. eapply leaves_bind; [by apply execute_ok|]. intros [sh1 u1] H1. eapply leaves_bind; [apply completions_ok|]; [apply set_line_ok; [done|done|constructor]|].
    intros [sh2 u2] H2. say_on. done. }
  case_match; [say_on; apply set_line_ok; [done|done|constructor]|]. case_match.
  { case_match; [|done]. say_on. apply set_line_ok; [done|rewrite length_take; lia|by apply Forall_take]. }
  case_match.
  { say_on. unfold tab_stop. apply set_line_ok; [done|rewrite length_app, length_replicate; lia|]. apply Forall_app. split; [done|]. apply Forall_replicate. lia. }
  case_match eqn:G; [|done]. say_on. repeat rewrite andb_true_iff in G. destruct G as [[G1 G2] G3]. rewrite Z.geb_leb in G1. apply Z.leb_le in G1, G2. apply Z.ltb_lt in G3.
  apply set_line_ok; [done|rewrite length_app; cbn; lia|]. apply Forall_app. split; [done|]. constructor; [done|constructor].
Qed.
Lemma shell_turn_ok sh u : shell_ok sh → leaves ok (turn write read getcwd wait_any spawn run_command sh u).
Proof.
  intros H. unfold turn. destruct (read u) as [[result c] u1]. case_match.
  - eapply leaves_bind; [by apply completions_ok|]. intros [sh1 u2] H1. say_on. done.
  - case_match; [done|]. by apply key_ok.
Qed.
End Keeps.

(** The shell stays inside its buffers. However long it runs, whatever is typed and
    whatever the kernel answers, the line is shorter than its 256 bytes with room for the
    terminator and holds only printable characters, and the processes it remembers are in
    its 16 slots with names shorter than their 64 bytes. *)
Theorem shell_stays_in_bounds (U : Type) (write : Z → list Z → U → Z * U) (read : U → Z * Z * U) (getcwd : U → (Z + list Z) * U) (wait_any : U → Z * (Z * Z * Z) * U)
    (spawn : list Z → rum_arguments → U → Z * U) (run_command : list Z → rum_arguments → list Z → U → Z * (Z * Z) * U) (n : nat) (u u' : U) (sh : shell) :
  turns write read getcwd wait_any spawn run_command n (main write getcwd u) = Goes (sh, u') → shell_ok sh.
Proof.
  intros H. assert (leaves ok (turns write read getcwd wait_any spawn run_command n (main write getcwd u))) as L; [|by rewrite H in L]. clear H.
  assert (leaves ok (main write getcwd u)) as L0.
  { unfold main. do 2 (apply leaves_any; intros ?). by constructor. }
  revert L0. generalize (main write getcwd u). induction n as [|n IH]; intros r Hr; [done|]. cbn [turns]. destruct r as [[sh1 u1]| |]; [|done..]. by apply IH, shell_turn_ok.
Qed.
Lemma shell_stays_in_bounds_witness :
  shell_ok (Shell ∅ [97; 97]).
Proof.
  apply (shell_stays_in_bounds unit (λ _ s u, (len s, u)) (λ u, (1, 97, u)) (λ u, (inr [47], u)) (λ u, (0, (0, 0, 0), u)) (λ _ _ u, (5, u)) (λ _ _ _ u, (0, (1, 0), u)) 2 () ()). by vm_compute.
Defined.
