(* ===== verification/Commands.v ===== *)
(** * Commands (system/commands, apps/snake)

    The user programs the shell starts, each a [main] from its argument vector to its
    status, over the library of Library.v and a record of the system calls they make. *)

From Stdlib Require Import String Ascii.
From S2P Require Import Prelude Block Path Fs Paging Session Handles Task Elf Process Terminal Snake Syscall Library UserShell.

#[local] Notation "'let!' p ':=' m 'in' k" := (match m with Goes p => k | Ends e => Ends e | Spins => Spins end)
  (at level 200, p pattern, right associativity).

Definition RUM_SESSION_EXIT : Z := 2.
Definition RUM_PROCESS_CANCELLING : Z := 1.
Definition RUM_PROCESS_RUNNABLE : Z := 1.
Definition RUM_PROCESS_RUNNING : Z := 2.
Definition RUM_PROCESS_WAITING : Z := 3.

(** The calls as a program sees them: the result and what is left in its buffers. *)
Record calls (U : Type) := Calls {
  c_write : Z → list Z → U → Z * U; c_open : list Z → Z → Z → U → Z * U; c_close : Z → U → Z * U; c_read : Z → U → Z * list Z * U;
  c_readdir : Z → U → Z * (list Z * Z) * U; c_session : Z → option (list Z) → U → Z * U; c_console : Z → U → Z * U; c_terminate : Z → Z → U → Z * U;
  c_process_list : U → Z * list (Z * Z * Z * Z * list Z) * U; c_getcwd : U → Z * list Z * U; c_mkdir : list Z → U → Z * U; c_remove : list Z → U → Z * U;
  c_run : list Z → rum_arguments → U → Z * (Z * Z) * U; c_sleep : Z → U → Z * U; c_replace : list Z → list Z → U → Z * U; c_command_text : U → Z * list Z * U
}.
Arguments c_write {U} _ _ _ _.
Arguments c_open {U} _ _ _ _ _.
Arguments c_close {U} _ _ _.
Arguments c_read {U} _ _ _.
Arguments c_readdir {U} _ _ _.
Arguments c_session {U} _ _ _ _.
Arguments c_console {U} _ _ _.
Arguments c_terminate {U} _ _ _ _.
Arguments c_process_list {U} _ _.
Arguments c_getcwd {U} _ _.
Arguments c_mkdir {U} _ _ _.
Arguments c_remove {U} _ _ _.
Arguments c_run {U} _ _ _ _.
Arguments c_sleep {U} _ _ _.
Arguments c_replace {U} _ _ _ _.
Arguments c_command_text {U} _ _.

(** The digits of an argument, refused before the value passes [limit]. *)
Fixpoint number_loop (limit : Z) (text : list Z) (value : Z) : option Z :=
  match text with
  | [] => Some value
  | c :: text => if (c <? 48) || (c >? 57) || (value >? (limit - (c - 48)) / 10) then None else number_loop limit text (value * 10 + (c - 48))
  end.
(** A byte of a file as [cat] shows it. *)
Definition upper_digit (d : Z) : Z := if d <? 10 then 48 + d else 55 + d.
Definition escaped (c : Z) : list Z :=
  if ((c >=? 32) && (c <=? 126)) || (c =? 10) || (c =? 9) then [c] else [92; 120; upper_digit (Z.shiftr c 4); upper_digit (Z.land c 15)].
Definition state_text (flags state : Z) : string :=
  if negb (Z.land flags RUM_PROCESS_CANCELLING =? 0) then "cancelling" else
  if state =? RUM_PROCESS_RUNNABLE then "ready" else if state =? RUM_PROCESS_RUNNING then "running" else if state =? RUM_PROCESS_WAITING then "waiting" else "exited".

Section Commands.
Context {U : Type} (k : calls U) (passes : nat).
Implicit Types (argv : list (list Z)) (text : list Z).
Definition says (t : string) (u : U) : run U := out (tool_print (c_write k) (chars t) u).
Definition says_line (t : string) (u : U) : run U := out (tool_print (c_write k) (chars t ++ newline) u).
Definition shows text (u : U) : run U := out (tool_print (c_write k) text u).
Definition counts (v : Z) (u : U) : run U := out (tool_number (c_write k) v u).
(** [tool_error] and status 1; a usage line and status 1; an error if there is one. *)
Definition fails (command : string) (result : Z) (u : U) : run (Z * U) := let! u := out (tool_error (c_write k) (chars command) result u) in Goes (1, u).
Definition usage (t : string) (u : U) : run (Z * U) := let! u := says_line t u in Goes (1, u).
Definition ended (command : string) (r : Z * U) : run (Z * U) := let '(result, u) := r in if result <? 0 then fails command result u else Goes (0, u).
Definition arg argv (i : nat) : list Z := nth i argv [].

Definition about argv (u : U) : run (Z * U) :=
  let! u := shows (chars "rum OS v0.5.0" ++ newline ++ chars "An island of our own." ++ newline ++ chars "A small operating system for 32-bit x86." ++ newline) u in Goes (0, u).
Fixpoint cat_loop (n : nat) (handle last : Z) (u : U) : run (Z * Z * U) :=
  match n with
  | O => Spins
  | S n =>
      let '(result, bytes, u) := c_read k handle u in
      if result <=? 0 then Goes (result, last, u) else
      let bytes := take (Z.to_nat result) bytes in
      let! (last, u) := foldl (λ r c, let! (_, u) := r in let! u := out (tool_output (c_write k) (escaped c) u) in Goes (c, u)) (Goes (last, u)) bytes in
      cat_loop n handle last u
  end.
Definition cat argv (u : U) : run (Z * U) :=
  if negb (len argv =? 2) then usage "Usage: cat <path>" u else
  let '(handle, u) := c_open k (arg argv 1) RUM_OPEN_READ 0 u in
  if handle <? 0 then fails "cat" handle u else
  let! (result, last, u) := cat_loop passes handle 10 u in
  let! u := (if negb (last =? 10) then shows newline u else Goes u) in
  let '(closed, u) := c_close k handle u in
  if (result <? 0) || (closed <? 0) then fails "cat" (if result <? 0 then result else closed) u else Goes (0, u).
Definition cd argv (u : U) : run (Z * U) :=
  if len argv >? 2 then usage "Usage: cd [path]" u else
  ended "cd" (c_session k RUM_SESSION_CHDIR (Some (if len argv =? 2 then arg argv 1 else [47])) u).
Definition clear argv (u : U) : run (Z * U) := ended "clear" (c_console k RUM_CONSOLE_CLEAR u).
Definition echo argv (u : U) : run (Z * U) :=
  let '(result, text, u) := tool_text (c_command_text k) argv u in
  if result <? 0 then fails "echo" result u else
  let! u := shows text u in let! u := shows newline u in Goes (0, u).
Definition exit argv (u : U) : run (Z * U) := ended "exit" (c_session k RUM_SESSION_EXIT None u).
Definition recovery_command argv (u : U) : run (Z * U) := ended "recovery" (c_session k RUM_SESSION_RECOVERY None u).
Definition snake argv (u : U) : run (Z * U) := ended "snake" (c_console k RUM_CONSOLE_SNAKE u).
Definition kill argv (u : U) : run (Z * U) :=
  if negb (len argv =? 2) || (len (arg argv 1) =? 0) then usage "Usage: kill <pid>" u else
  match number_loop RUM_ABI_PID_MAX (arg argv 1) 0 with
  | None => fails "kill" (- RUM_EINVAL) u
  | Some pid =>
      if pid =? 0 then fails "kill" (- RUM_EINVAL) u else
      let '(result, u) := c_terminate k pid RUM_TERMINATE_SESSION u in
      if result <? 0 then fails "kill" result u else
      let! u := says "Cancellation requested for " u in let! u := counts pid u in let! u := says_line "." u in Goes (0, u)
  end.
Fixpoint ls_loop (n : nat) (handle : Z) (u : U) : run (Z * U) :=
  match n with
  | O => Spins
  | S n =>
      let '(result, (name, kind), u) := c_readdir k handle u in
      if result <=? 0 then Goes (result, u) else
      let! u := shows name u in
      let! u := (if kind =? RUM_ENTRY_DIRECTORY then says "/" u else Goes u) in
      let! u := shows newline u in ls_loop n handle u
  end.
Definition ls argv (u : U) : run (Z * U) :=
  if len argv >? 2 then usage "Usage: ls [path]" u else
  let '(handle, u) := c_open k (if len argv =? 2 then arg argv 1 else chars ".") RUM_OPEN_READ RUM_OPEN_DIRECTORY u in
  if handle <? 0 then fails "ls" handle u else
  let! (result, u) := ls_loop passes handle u in
  let '(closed, u) := c_close k handle u in
  if (result <? 0) || (closed <? 0) then fails "ls" (if result <? 0 then result else closed) u else Goes (0, u).
Definition mkdir argv (u : U) : run (Z * U) := if negb (len argv =? 2) then usage "Usage: mkdir <path>" u else ended "mkdir" (c_mkdir k (arg argv 1) u).
Definition rm argv (u : U) : run (Z * U) := if negb (len argv =? 2) then usage "Usage: rm <path>" u else ended "rm" (c_remove k (arg argv 1) u).
Definition ps_row (e : Z * Z * Z * Z * list Z) (u : U) : run U :=
  let '(pid, parent, state, flags, name) := e in
  let! u := counts pid u in let! u := says "  " u in let! u := counts parent u in let! u := says "  " u in
  let! u := says (state_text flags state) u in let! u := says "  " u in let! u := shows name u in shows newline u.
Definition ps argv (u : U) : run (Z * U) :=
  if negb (len argv =? 1) then usage "Usage: ps" u else
  let '(count, entries, u) := c_process_list k u in
  if count <? 0 then fails "ps" count u else
  let! u := says_line "PID  PARENT  STATE  NAME" u in
  let! u := foldl (λ r e, let! u := r in ps_row e u) (Goes u) (take (Z.to_nat count) entries) in Goes (0, u).
Definition pwd argv (u : U) : run (Z * U) :=
  if negb (len argv =? 1) then usage "Usage: pwd" u else
  let '(result, path, u) := c_getcwd k u in
  if result <? 0 then fails "pwd" result u else
  let! u := shows path u in let! u := shows newline u in Goes (0, u).
Definition run_command_main argv (u : U) : run (Z * U) :=
  if len argv <? 2 then usage "Usage: run <program> [arguments]" u else
  match tool_program_path (arg argv 1) with
  | inl e => fails "run" e u
  | inr path =>
      let '(e, a) := tool_arguments (drop 1 argv) in
      if negb (e =? 0) then fails "run" e u else
      let '(result, child, u) := c_run k path a u in
      let '(result, child, u) :=
        if (result =? - RUM_ENOENT) && negb (existsb (λ c, c =? 47) (arg argv 1)) then c_run k (arg argv 1) a u else (result, child, u) in
      if result <? 0 then fails "run" result u else
      let! u := out (tool_child_status (c_write k) (fst child) (snd child) true u) in Goes (0, u)
  end.
Definition sleep argv (u : U) : run (Z * U) :=
  if negb (len argv =? 2) || (len (arg argv 1) =? 0) then usage "Usage: sleep <milliseconds>" u else
  match number_loop RUM_SLEEP_MAX_MS (arg argv 1) 0 with
  | None => fails "sleep" (- RUM_EINVAL) u
  | Some milliseconds => ended "sleep" (c_sleep k milliseconds u)
  end.
Definition write_command argv (u : U) : run (Z * U) :=
  let '(result, text, u) := tool_text (c_command_text k) argv u in
  if result <? 0 then fails "write" result u else
  match tool_word text with
  | (None, _) => usage "Usage: write <path> [text]" u
  | (Some path, tail) => ended "write" (c_replace k path (tool_remainder tail) u)
  end.
End Commands.

(** ** Numbers and bytes *)

Definition digit (c : Z) : Prop := 48 ≤ c ≤ 57.
Definition decimal_value (text : list Z) (value : Z) : Z := foldl (λ v c, v * 10 + (c - 48)) value text.
Lemma decimal_value_mono text v : 0 ≤ v → Forall digit text → v ≤ decimal_value text v.
Proof.
  revert v. induction text as [|c text IH]; intros v Hv F; [done|]. apply Forall_cons_1 in F as [Hc F]. unfold digit in Hc. cbn. etransitivity; [|apply IH; [lia|done]]. lia.
Qed.
Lemma fits_next limit v c : 0 ≤ v → digit c → (v >? (limit - (c - 48)) / 10) = negb (v * 10 + (c - 48) <=? limit).
Proof.
  intros Hv Hc. rewrite Z.gtb_ltb. pose proof (Z.div_mod (limit - (c - 48)) 10 ltac:(lia)). pose proof (Z.mod_pos_bound (limit - (c - 48)) 10 ltac:(lia)).
  destruct (Z.ltb_spec ((limit - (c - 48)) / 10) v), (Z.leb_spec (v * 10 + (c - 48)) limit); cbn; lia.
Qed.
(** The numbers [kill] and [sleep] take: exactly the strings of digits whose value is at
    most the limit, with that value; nothing overflows on the way. *)
Theorem number_argument_exact limit text v value : 0 ≤ v ≤ limit →
  number_loop limit text v = Some value ↔ Forall digit text ∧ decimal_value text v = value ∧ value ≤ limit.
Proof.
  revert v. induction text as [|c text IH]; intros v Hv; cbn [number_loop].
  - split; [intros [= ->]; split_and!; [constructor|done|lia]|intros (_ & E & _); by rewrite <- E].
  - rewrite Z.gtb_ltb. destruct (Z.ltb_spec c 48); cbn [orb]; [split; [done|intros ([Hc _]%Forall_cons_1 & _); unfold digit in Hc; lia]|].
    destruct (Z.ltb_spec 57 c); cbn [orb]; [split; [done|intros ([Hc _]%Forall_cons_1 & _); unfold digit in Hc; lia]|].
    rewrite (fits_next limit v c) by (unfold digit; lia). destruct (Z.leb_spec (v * 10 + (c - 48)) limit); cbn [negb].
    + rewrite IH by lia. split; intros (F & E & L); (split; [|done]); [constructor; [unfold digit; lia|done]|by inversion F].
    + split; [done|]. intros ([_ F]%Forall_cons_1 & <- & L). cbn [decimal_value foldl] in L. pose proof (decimal_value_mono text (v * 10 + (c - 48)) ltac:(lia) F) as M. unfold decimal_value in *. lia.
Qed.
Example kill_limits : number_loop RUM_ABI_PID_MAX (chars "2147483647") 0 = Some 2147483647 ∧ number_loop RUM_ABI_PID_MAX (chars "2147483648") 0 = None.
Proof. by vm_compute. Qed.

(** What [cat] sends is printable, a line end or a tab, whatever the file holds. *)
Definition harmless (c : Z) : bool := ((32 <=? c) && (c <=? 126)) || (c =? 10) || (c =? 9).
Theorem cat_sends_no_controls bytes : Forall (λ c, 0 ≤ c < 256) bytes → Forall (λ c, harmless c = true) (bytes ≫= escaped).
Proof.
  assert (all_range 0 256 (λ c, forallb harmless (escaped c)) = true) as A by by vm_compute. rewrite all_range_true in A.
  induction 1 as [|c l Hc _ IH]; [constructor|]. cbn [mbind list_bind]. apply Forall_app. split; [|exact IH]. specialize (A c Hc). rewrite forallb_forall in A. apply Forall_forall. intros x Hx. apply A. exact Hx.
Qed.
