(* ===== verification/Report.v ===== *)
(** * Diagnostics and exceptions (kernel/debug/diagnostics.c, diagnostics-report.c,
    arch/i386/exceptions.c, arch/i386/interrupt.c)

    The snapshot of the kernel's counters and the reports made from it, the panic report of
    a fault in the kernel, and where each interrupt vector goes. A report is the list of
    strings written, in order. The control registers and the stack pointer are read by
    assembly and are parameters, as are the heap's statistics, whose state is Heap.v's. *)

From Stdlib Require Import String Ascii.
From S2P Require Import Prelude Heap Pmm Block Path Fs Paging Session Gdt Irq Handles Task Registry Scheduler Lifetime Exits Terminal Snake.

Record kernel_diagnostics := Diagnostics {
  d_cr0 : Z; d_cr3 : Z; d_kernel_esp : Z; d_esp0 : Z; d_flags : bool; d_tasks_ready : bool; d_tasks : task_snapshot;
  d_paging : paging_statistics; d_physical : pmm_statistics; d_heap : heap_statistics; d_filesystem : fs_statistics
}.
Definition no_snapshot : task_snapshot := Snapshot 0 (ConsoleStatistics 0 0 0 0 0 0 0) 0 (0, 0, 0, 0) [] (λ _, 0) 0 0 0 (Resources 0 0 0 0).

Definition hex_digit (d : Z) : Z := if d <? 10 then 48 + d else 87 + d.
Definition hex (v : Z) : list Z := chars "0x" ++ ((λ i, hex_digit (Z.land (Z.shiftr v (28 - i * 4)) 15)) <$> seqZ 0 8).
(** [" name=0x..."]. *)
Definition field (name : string) (v : Z) : list (list Z) := [chars " "; chars name; chars "="; hex v].

Definition state_code (st : task_state) : Z := match st with TASK_UNUSED => 0 | TASK_RUNNABLE => 1 | TASK_RUNNING => 2 | TASK_BLOCKED => 3 | TASK_EXITED => 4 end.
Definition state_name (st : task_state) : string :=
  match st with TASK_UNUSED => "unused" | TASK_RUNNABLE => "runnable" | TASK_RUNNING => "running" | TASK_BLOCKED => "blocked" | TASK_EXITED => "exited" end.
Definition kind_code (k : task_kind) : Z := match k with TASK_KERNEL => 0 | TASK_PROCESS => 1 end.
Definition termination_number (t : task_termination) : Z :=
  match t with TASK_TERMINATION_NONE => 0 | TASK_TERMINATION_EXIT => 1 | TASK_TERMINATION_FAULT => 2 | TASK_TERMINATION_CANCELLED => 3 end.
Definition flag (b : bool) : Z := if b then 1 else 0.

(** The record of the current task in the snapshot. *)
Definition current_information (d : kernel_diagnostics) : option task_information :=
  List.find (λ i, tid (info_task i) =? snap_current (d_tasks d)) (snap_tasks (d_tasks d)).

Definition render_task (i : task_information) : list (list Z) :=
  [chars "  #"; decimal (tid (info_task i)); chars " "] ++
  (match info_kind i with
   | TASK_PROCESS => [chars "process pid="; decimal (info_process_id i); chars " parent=#"; decimal (info_parent i); chars " "]
   | TASK_KERNEL => [chars "kernel "]
   end) ++
  [chars (state_name (state (info_task i))); chars " stack="; hex (stack_base (info_task i)); chars ".."; hex (stack_top (info_task i));
   chars (if info_owns_stack i then " owned" else " borrowed")] ++
  (match state (info_task i), info_termination i with
   | TASK_EXITED, TASK_TERMINATION_FAULT =>
       [chars " fault vector="; decimal (fault_vector (info_fault i)); chars " error="; hex (fault_error (info_fault i)); chars " eip="; hex (fault_instruction (info_fault i))]
   | TASK_EXITED, TASK_TERMINATION_EXIT => [chars " status="; hex (wrap32 (info_status i))]
   | TASK_EXITED, TASK_TERMINATION_CANCELLED => [chars " cancelled"]
   | _, _ => if info_cancelled i then [chars " cancelling"] else []
   end) ++
  [newline; chars "     CR3="; hex (info_directory i); (if info_owns_space i then chars " owned" else chars " borrowed") ++ newline].
Definition diagnostics_render (d : kernel_diagnostics) : list (list Z) :=
  let t := d_tasks d in let '(created, exited, reaped, switches) := snap_counts t in
  [chars "Task: "; decimal (snap_current t); chars (if d_tasks_ready d then " | CR3: " else " (scheduler uninitialized) | CR3: ");
   hex (d_cr3 d); chars " | TSS.ESP0: "; hex (d_esp0 d);
   newline ++ chars "Kernel ESP: "; hex (d_kernel_esp d); chars " | CR0: "; hex (d_cr0 d); newline] ++
  (match current_information d with
   | Some i => [chars "Current stack: "; hex (stack_base (info_task i)); chars ".."; hex (stack_top (info_task i));
                chars " | record CR3: "; hex (info_directory i); newline]
   | None => []
   end) ++
  [chars "Paging: "; decimal (stat_directory_pages (d_paging d)); chars " directories, ";
   decimal (stat_shared_table_pages (d_paging d)); chars " shared tables, ";
   decimal (stat_private_table_pages (d_paging d)); chars " private tables" ++ newline;
   chars "User pages: "; decimal (stat_user_pages (d_paging d)); chars " | active: ";
   hex (stat_active_directory (d_paging d)); newline;
   chars "Physical: "; decimal (st_free_pages (d_physical d)); chars " free / ";
   decimal (st_managed_pages (d_physical d)); chars " managed pages" ++ newline;
   chars "Tasks: "; decimal (len (snap_tasks t)); chars " live, ";
   decimal (kernel_stack_pages (snap_pages t)); chars " owned stack pages, ";
   decimal (snap_emergency t); chars " emergency stack pages, ";
   decimal (directory_pages (snap_pages t)); chars " owned directories" ++ newline;
   chars "Processes: "; decimal (snap_processes t); chars " | ";
   decimal (user_table_pages (snap_pages t)); chars " user tables, ";
   decimal (resource_user_pages (snap_pages t)); chars " user pages" ++ newline;
   chars "Lifecycle: "; decimal created; chars " created, ";
   decimal exited; chars " exited, "; decimal reaped;
   chars " reaped, "; decimal switches; chars " switches" ++ newline;
   chars "Sessions: "; decimal (wrap32 (stat_sessions (snap_console t) - stat_closing (snap_console t))); chars " live, ";
   decimal (stat_closing (snap_console t)); chars " closing, ";
   decimal (stat_members (snap_console t)); chars " members | ";
   decimal (stat_session_references (snap_console t)); chars " session refs, ";
   decimal (stat_process_references (snap_console t)); chars " process refs" ++ newline;
   chars "Heap: "; decimal (used_bytes (d_heap d)); chars " / ";
   decimal (mapped_bytes (d_heap d)); chars " bytes, ";
   decimal (allocations (d_heap d)); chars " allocations" ++ newline ++ chars "Filesystem: ";
   decimal (stat_mounts (d_filesystem d)); chars " mounted, ";
   decimal (stat_references (d_filesystem d)); chars " open references" ++ newline] ++
  (snap_tasks t ≫= render_task).

(** The lines [diagnostics_panic] writes to both devices, and to the serial port only. *)
Definition panic_console (d : kernel_diagnostics) : list (list Z) :=
  let base := match current_information d with Some i => stack_base (info_task i) | None => 0 end in
  let top := match current_information d with Some i => stack_top (info_task i) | None => 0 end in
  [newline ++ chars "  Task: "; decimal (snap_current (d_tasks d)); chars "  CR3: "; hex (d_cr3 d); chars "  ESP0: "; hex (d_esp0 d);
   newline ++ chars "  Kernel stack: "; hex base; chars ".."; hex top].
Definition panic_serial (d : kernel_diagnostics) : list (list Z) :=
  let t := d_tasks d in let '(created, exited, reaped, switches) := snap_counts t in
  let of_task (f : task_information → Z) := match current_information d with Some i => f i | None => 0 end in
  [newline ++ chars "rum_diag_cpu"] ++
  field "diag_task" (snap_current t) ++
  field "diag_pid" (of_task info_process_id) ++
  field "diag_parent" (of_task info_parent) ++
  field "diag_kind" (of_task (λ i, kind_code (info_kind i))) ++
  field "diag_state" (of_task (λ i, state_code (state (info_task i)))) ++
  field "diag_termination" (of_task (λ i, termination_number (info_termination i))) ++
  field "diag_cancel" (of_task (λ i, flag (info_cancelled i))) ++
  field "diag_status" (of_task (λ i, wrap32 (info_status i))) ++
  field "diag_cr3" (d_cr3 d) ++
  field "diag_recordcr3" (of_task info_directory) ++
  field "diag_activecr3" (stat_active_directory (d_paging d)) ++
  field "diag_kernelcr3" (stat_kernel_directory (d_paging d)) ++
  field "diag_kesp" (d_kernel_esp d) ++
  field "diag_esp0" (d_esp0 d) ++
  field "diag_base" (of_task (λ i, stack_base (info_task i))) ++
  field "diag_top" (of_task (λ i, stack_top (info_task i))) ++
  field "diag_ownsspace" (of_task (λ i, flag (info_owns_space i))) ++
  field "diag_ownsstack" (of_task (λ i, flag (info_owns_stack i))) ++
  field "diag_ownerstackpages" (of_task (λ i, kernel_stack_pages (info_resources i))) ++
  field "diag_ownerdirectorypages" (of_task (λ i, directory_pages (info_resources i))) ++
  field "diag_ownerusertables" (of_task (λ i, user_table_pages (info_resources i))) ++
  field "diag_owneruserpages" (of_task (λ i, resource_user_pages (info_resources i))) ++
  [newline ++ chars "rum_diag_resources"] ++
  field "diag_live" (len (snap_tasks t)) ++
  field "diag_processes" (snap_processes t) ++
  field "diag_stacks" (kernel_stack_pages (snap_pages t)) ++
  field "diag_emergencystacks" (snap_emergency t) ++
  field "diag_owneddirs" (directory_pages (snap_pages t)) ++
  field "diag_taskusertables" (user_table_pages (snap_pages t)) ++
  field "diag_taskuserpages" (resource_user_pages (snap_pages t)) ++
  field "diag_dirs" (stat_directory_pages (d_paging d)) ++
  field "diag_tables" (stat_shared_table_pages (d_paging d)) ++
  field "diag_usertables" (stat_private_table_pages (d_paging d)) ++
  field "diag_userpages" (stat_user_pages (d_paging d)) ++
  field "diag_free" (st_free_pages (d_physical d)) ++
  field "diag_managed" (st_managed_pages (d_physical d)) ++
  field "diag_created" created ++
  field "diag_exited" exited ++
  field "diag_reaped" reaped ++
  field "diag_switches" switches ++
  field "diag_heapalloc" (allocations (d_heap d)) ++
  field "diag_heapused" (used_bytes (d_heap d)) ++
  field "diag_mounts" (stat_mounts (d_filesystem d)) ++
  field "diag_fsrefs" (stat_references (d_filesystem d)) ++
  [newline].

(** ** Panic (exceptions.c) *)

Definition exception_names : list string :=
  ["Divide error"; "Debug"; "Non-maskable interrupt"; "Breakpoint";
   "Overflow"; "Bound range exceeded"; "Invalid opcode"; "Device unavailable";
   "Double fault"; "Coprocessor segment overrun"; "Invalid TSS"; "Segment not present";
   "Stack-segment fault"; "General protection fault"; "Page fault"; "Reserved";
   "x87 floating-point error"; "Alignment check"; "Machine check"; "SIMD floating-point error";
   "Virtualization exception"; "Control protection"; "Reserved"; "Reserved";
   "Reserved"; "Reserved"; "Reserved"; "Reserved";
   "Hypervisor injection"; "VMM communication"; "Security exception"; "Reserved"]%string.
Definition exception_frame_ss (f : exception_user_frame) : Z := if exception_frame_from_user (core f) then Z.land (ss f) 0xFFFF else KERNEL_DATA_SELECTOR.
Definition value (name : string) (number : Z) : list (list Z) := [chars name; chars "="; hex number].
Definition panic_report (f : exception_user_frame) (fault_address : Z) : list (list Z) :=
  let c := core f in let two := [chars "  "] in let next := [newline ++ chars "  "] in let skip := [newline ++ newline ++ chars "  "] in
  [newline ++ chars "  rum kernel panic" ++ newline ++ newline ++ chars "  "; chars (nth (Z.to_nat (vector c)) exception_names "Unknown exception"%string)] ++ skip ++
  value "vector" (vector c) ++ two ++ value "error" (error c) ++ next ++
  value "eip" (frame_eip c) ++ two ++ value "cs" (Z.land (cs c) 0xFFFF) ++ next ++
  value "eflags" (frame_eflags c) ++ skip ++
  value "eax" (eax c) ++ two ++ value "ebx" (ebx c) ++ next ++
  value "ecx" (ecx c) ++ two ++ value "edx" (edx c) ++ next ++
  value "esi" (esi c) ++ two ++ value "edi" (edi c) ++ next ++
  value "ebp" (ebp c) ++ two ++ value "esp" (exception_frame_esp f) ++
  (if exception_frame_from_user c then two ++ value "ss" (exception_frame_ss f) else []) ++ next ++
  value "ds" (ds c) ++ two ++ value "es" (es c) ++ next ++
  value "fs" (fs c) ++ two ++ value "gs" (gs c) ++
  (if vector c =? 14 then
     skip ++ value "cr2" fault_address ++
     [chars (if Z.land (error c) 1 =? 0 then "  page not present" else "  protection violation");
      chars (if Z.land (error c) 2 =? 0 then ", read" else ", write");
      chars (if Z.land (error c) 4 =? 0 then ", supervisor" else ", user")]
   else []).

Section Report.
Context {K P : Type} (ops : fs_operations K) (kernel : Z) (switch_esp : kstate K → Z) (inb : Z → P → Z * P) (outb : Z → Z → P → P).
(** [cr0], [cr3] and the stack pointer; the heap's statistics. *)
Context (registers : Z * Z * Z) (heap_stats : heap_statistics).

(** The interrupt flag is cleared for the snapshot and restored. *)
Definition diagnostics_capture (k : kstate K) : kernel_diagnostics :=
  let '(cr0_, cr3_, esp_) := registers in
  Diagnostics cr0_ cr3_ esp_ (esp0 (rum_tss (segments k))) (iflag k) (if task_snapshot_read kernel k then true else false) (default no_snapshot (task_snapshot_read kernel k))
    (paging_stats kernel (memory k)) (pmm_stats (frames (memory k))) heap_stats (fs_stats (files k)).
Definition print_all (l : list (list Z)) (s : system K P) : system K P := foldl (λ s t, print inb outb t s) s l.
Definition serial_all (l : list (list Z)) (s : system K P) : system K P := foldl (λ s t, serial inb outb t s) s l.
Definition diagnostics_print (s : system K P) : system K P := print_all (diagnostics_render (diagnostics_capture (machine s))) s.
Definition diagnostics_panic (s : system K P) : system K P :=
  let d := diagnostics_capture (machine s) in serial_all (panic_serial d) (print_all (panic_console d) s).

(** How an exception ends: the process that faulted is gone and another context runs, or
    the processor has halted. *)
Inductive fault_end := FaultExit (s : system K P) | Halted (s : system K P).
(** [panicking] is the static flag, taken and given back: a fault of the kernel sets it
    before it writes the report. *)
Definition exception_dispatch (f : exception_user_frame) (fault_address : Z) (w : nat → list irq) (panicking : bool) (s : system K P) : fault_end * bool :=
  let s := set_machine (set_iflag false (machine s)) s in
  if panicking then (Halted s, panicking) else
  if exception_frame_from_user (core f) && task_current_is_process (machine s) then
    match task_exit_from_user_fault ops kernel switch_esp (Some f) fault_address w (machine s) with
    | Some k => (FaultExit (set_machine k s), panicking)
    | None => (Halted s, panicking)
    end
  else
    let panicking := true in
    let s := upd_display (λ d, terminal_set_color VGA_LIGHT_RED VGA_BLACK (terminal_initialize outb d)) s in
    let s := diagnostics_panic (print_all (panic_report f fault_address) s) in
    let s := print inb outb (newline ++ newline ++ chars "  CPU halted. Close QEMU to return to your host." ++ newline) s in
    (Halted (serial inb outb (chars "rum_panic_halted" ++ newline) s), panicking).

(** The frame made from the task state a double fault saved; the general registers are
    among the fields the processor writes there. *)
Definition double_fault_frame (t : i386_tss) (tss_edi tss_esi tss_ebp tss_ebx tss_edx tss_ecx tss_eax : Z) : exception_user_frame :=
  UserFrame (Frame (tss_gs t) (tss_fs t) (tss_es t) (tss_ds t) tss_edi tss_esi tss_ebp (if esp t >=? 20 then esp t - 20 else 0)
    tss_ebx tss_edx tss_ecx tss_eax 8 0 (eip t) (tss_cs t) (eflags t)) 0 0.
End Report.

(** ** Routing (interrupt.c) *)

Inductive route := ToIrq | ToSyscall | ToException.
Definition interrupt_dispatch (f : exception_frame) : route :=
  if (vector f >=? PIC_VECTOR_BASE) && (vector f <? PIC_VECTOR_BASE + 16) then ToIrq else if vector f =? Irq.RUM_SYSCALL_VECTOR then ToSyscall else ToException.

(** ** Numbers read back *)

Definition unhex_digit (c : Z) : Z := if c <? 58 then c - 48 else c - 87.
Definition unhex (l : list Z) : Z := foldl (λ n c, 16 * n + unhex_digit c) 0 (drop 2 l).
Lemma unhex_hex_digit d : 0 ≤ d < 16 → unhex_digit (hex_digit d) = d.
Proof. intros H. unfold unhex_digit, hex_digit. destruct (Z.ltb_spec d 10); case_match; lia. Qed.
Lemma nibble v i : 0 ≤ i → Z.land (Z.shiftr v i) 15 = (v / 2 ^ i) mod 16.
Proof. intros H. change 15 with (Z.ones 4). by rewrite Z.land_ones, Z.shiftr_div_pow2. Qed.
(** Eight digits show every 32-bit value. *)
Lemma hex_reads_back v : 0 ≤ v ≤ UINT32_MAX → unhex (hex v) = v.
Proof.
  intros Hv. unfold unhex, hex. change (seqZ 0 8) with [0; 1; 2; 3; 4; 5; 6; 7]. cbn [fmap list_fmap chars list_ascii_of_string app drop foldl].
  change (28 - 0 * 4) with 28. change (28 - 1 * 4) with 24. change (28 - 2 * 4) with 20. change (28 - 3 * 4) with 16. change (28 - 4 * 4) with 12. change (28 - 5 * 4) with 8.
  change (28 - 6 * 4) with 4. change (28 - 7 * 4) with 0. rewrite !nibble by lia. rewrite !unhex_hex_digit by (apply Z.mod_pos_bound; lia). unfold UINT32_MAX in *.
  change (2 ^ 0) with 1. rewrite Z.div_1_r. change (2 ^ 4) with 16. change (2 ^ 8) with (16 * 16). change (2 ^ 12) with (16 * 16 * 16). change (2 ^ 16) with (16 * 16 * 16 * 16).
  change (2 ^ 20) with (16 * 16 * 16 * 16 * 16). change (2 ^ 24) with (16 * 16 * 16 * 16 * 16 * 16). change (2 ^ 28) with (16 * 16 * 16 * 16 * 16 * 16 * 16). rewrite <- !Z.div_div by lia.
  pose proof (Z.div_mod v 16 ltac:(lia)). set (a := v / 16) in *. pose proof (Z.div_mod a 16 ltac:(lia)). set (b := a / 16) in *. pose proof (Z.div_mod b 16 ltac:(lia)). set (c := b / 16) in *.
  pose proof (Z.div_mod c 16 ltac:(lia)). set (d := c / 16) in *. pose proof (Z.div_mod d 16 ltac:(lia)). set (e := d / 16) in *. pose proof (Z.div_mod e 16 ltac:(lia)). set (f := e / 16) in *.
  pose proof (Z.div_mod f 16 ltac:(lia)). set (g := f / 16) in *. pose proof (Z.mod_pos_bound v 16). pose proof (Z.mod_pos_bound a 16). pose proof (Z.mod_pos_bound b 16). pose proof (Z.mod_pos_bound c 16).
  pose proof (Z.mod_pos_bound d 16). pose proof (Z.mod_pos_bound e 16). pose proof (Z.mod_pos_bound f 16). rewrite (Z.mod_small g 16) by lia. lia.
Qed.

(** ** Reports only write *)

Section Only.
Context {K P : Type} (inb : Z → P → Z * P) (outb : Z → Z → P → P).
Lemma print_all_only l : ∀ s : system K P, machine (print_all inb outb l s) = machine s ∧ arcade (print_all inb outb l s) = arcade s.
Proof. unfold print_all. induction l as [|t l IH]; intros s; [done|]. cbn [foldl]. destruct (IH (print inb outb t s)) as [A B]. by rewrite A, B. Qed.
Lemma serial_all_only l : ∀ s : system K P, machine (serial_all inb outb l s) = machine s ∧ arcade (serial_all inb outb l s) = arcade s.
Proof. unfold serial_all. induction l as [|t l IH]; intros s; [done|]. cbn [foldl]. destruct (IH (serial inb outb t s)) as [A B]. by rewrite A, B. Qed.
End Only.

(** A process that may end and faults in user mode is ended by [task_exit_from_user_fault]. *)
Lemma user_fault_ends {K : Type} (ops : fs_operations K) `{!BackendLaw ops} (kernel : Z) (switch_esp : kstate K → Z) (f : exception_user_frame) (a : Z)
    (w : nat → list irq) (k : kstate K) :
  exception_frame_from_user (core f) = true → task_current_is_process k = true → may_end ops kernel k →
  ∃ t, task_exit_from_user_fault ops kernel switch_esp (Some f) a w k = Some t ∧ registry kernel true t ∧ ends_alone TASK_TERMINATION_FAULT 0 (Some f) a k t.
Proof.
  intros U Pr Me. destruct (terminate_fate ops kernel switch_esp TASK_TERMINATION_FAULT 0 (Some f) a w k Me) as (t & E & [Rt _] & A). exists t.
  split; [|done]. unfold task_exit_from_user_fault. unfold task_current_is_process in Pr. rewrite !andb_true_iff in Pr. destruct Pr as [[-> C] ->].
  rewrite U, (me_irq _ _ _ Me). destruct (current k); [exact E|done].
Qed.
Lemma may_end_iflag {K : Type} (ops : fs_operations K) `{!BackendLaw ops} (kernel : Z) b (k : kstate K) : may_end ops kernel k → may_end ops kernel (set_iflag b k).
Proof. intros []. constructor; try done. by apply set_iflag_quiet. Qed.

(** C37: a fault in a program ends that program and nothing else. While no panic is under
    way, an exception from user mode in a process that may end (a well-formed registry, not
    one of the two permanent tasks, no interrupt being served, nothing holding the processor,
    its handles known to the filesystem) never panics the kernel: it ends that process by one
    step of the kernel, keeps the registry well formed, runs another context, records the
    fault of the frame, ends no other task and changes no other record, and leaves the console
    and the game alone. Any other exception is the kernel's: it sets the panic flag and halts
    with the tasks, the memory and the files as they were, and from there every further
    exception halts at once and writes nothing. *)
Theorem faults_are_contained (K P : Type) (ops : fs_operations K) `{!BackendLaw ops} (kernel : Z) (kfree : Z → paging → bool * paging) (start_address halt_address : Z)
    (switch_esp : kstate K → Z) (inb : Z → P → Z * P) (outb : Z → Z → P → P) (registers : Z * Z * Z) (h : heap_statistics)
    (f : exception_user_frame) (a : Z) (w : nat → list irq) (s : system K P) :
  let dispatch := exception_dispatch ops kernel switch_esp inb outb registers h in
  let user := exception_frame_from_user (core f) && task_current_is_process (machine s) in
  (user = true → may_end ops kernel (machine s) →
    ∃ t, dispatch f a w false s = (FaultExit t, false) ∧ registry kernel true (machine t) ∧
      kstep kernel switch_esp ops start_address halt_address kfree (set_iflag false (machine s)) (machine t) ∧
      ends_alone TASK_TERMINATION_FAULT 0 (Some f) a (machine s) (machine t) ∧ display t = display s ∧ arcade t = arcade s) ∧
  (user = false →
    ∃ t, dispatch f a w false s = (Halted t, true) ∧ machine t = set_iflag false (machine s) ∧ arcade t = arcade s ∧
      ∀ f' a' w', dispatch f' a' w' true t = (Halted t, true)).
Proof.
  cbv zeta. unfold exception_dispatch. set (k := set_iflag false (machine s)). change (machine (set_machine k s)) with k.
  change (task_current_is_process k) with (task_current_is_process (machine s)). split; intros E.
  - rewrite E. apply andb_true_iff in E as [U Pr]. intros Me. apply (may_end_iflag ops kernel false) in Me.
    destruct (user_fault_ends ops kernel switch_esp f a w k U Pr Me) as (t & E & Rt & A). rewrite E. exists (set_machine t (set_machine k s)).
    split_and!; try done. by eapply k_user_fault.
  - rewrite E. set (t := serial _ _ _ _). assert (machine t = k ∧ arcade t = arcade s) as [Mt At].
    { unfold t, diagnostics_panic. cbn [machine arcade serial print upd_display set_display]. cbv zeta.
      rewrite (proj1 (serial_all_only _ _ _ _)), (proj2 (serial_all_only _ _ _ _)), (proj1 (print_all_only _ _ _ _)), (proj2 (print_all_only _ _ _ _)),
        (proj1 (print_all_only _ _ _ _)), (proj2 (print_all_only _ _ _ _)). done. }
    clearbody t. exists t. split; [reflexivity|]. split_and!; [exact Mt|exact At|]. intros _ _ _. rewrite Mt. destruct t. cbn in Mt. by subst.
Qed.
(** The program of Exits.v divides by zero; the machine of Scheduler.v faults in the kernel. *)
Lemma faults_are_contained_witness :
  let faulting := System ExitSample.program (Terminal ∅ 0 0 7 []) (Game None 0 0) in let booting := System TaskSample.ready_worker (Terminal ∅ 0 0 7 []) (Game None 0 0) in
  let h := HeapStatistics 0 0 0 0 in let divide := UserFrame (Frame 0 0 0 0 0 0 0 0 0 0 0 0 0 0 0x80000042 USER_CODE_SELECTOR 0) 0 0 in
  let dispatch := exception_dispatch SampleBackend.ops 1 TaskSample.esp SnakeSample.inb SnakeSample.outb (0, 0, 0) h in
  (∃ t, dispatch divide 0 (λ _, []) false faulting = (FaultExit t, false) ∧ cur ExitSample.program = 2 ∧ state (get_task (machine t) 2) = TASK_EXITED ∧
    fault (get_process (machine t) 2) = Fault 0 0 0 0x80000042 0) ∧
  ∃ t, dispatch no_frame 0 (λ _, []) false booting = (Halted t, true).
Proof.
  intros faulting booting h divide dispatch. split.
  - destruct (proj1 (faults_are_contained _ _ SampleBackend.ops 1 TaskSample.kfree 0x200 0x300 TaskSample.esp SnakeSample.inb SnakeSample.outb (0, 0, 0) h divide 0 (λ _, []) faulting)
      ltac:(vm_compute; reflexivity) sample_may_end) as (t & E & _ & _ & (_ & X & F) & _).
    exists t. split; [exact E|]. split; [reflexivity|]. split; [apply X; left; reflexivity|]. specialize (F 2). rewrite decide_True in F by reflexivity. by injection F.
  - destruct (proj2 (faults_are_contained _ _ SampleBackend.ops 1 TaskSample.kfree 0x200 0x300 TaskSample.esp SnakeSample.inb SnakeSample.outb (0, 0, 0) h no_frame 0 (λ _, []) booting)
      ltac:(vm_compute; reflexivity)) as (t & E & _). by exists t.
Defined.
