(* ===== verification/Recovery.v ===== *)
(** * Recovery shell (kernel/recovery/shell.c)

    The kernel's own command line, for when the disk has no usable shell: the line editor
    and the commands, over the console, the files, the game and the program launcher. The
    line is the characters typed so far. A command that runs a program may wait for it:
    [Launching] is where it waits, and [shell_resume] goes on. *)

From Stdlib Require Import String Ascii.
From S2P Require Import Prelude Heap Pmm Block Path Fs Paging Session Handles Gdt Task Registry Scheduler Elf Steps Process Terminal Snake Report Syscall SyscallSafe.

#[local] Notation "'let!' p ':=' m 'in' k" := (match m with Some p => k | None => None end)
  (at level 200, p pattern, right associativity).

Definition SHELL_LINE_CAPACITY : Z := 256.
Definition fs_error_name (e : fs_error) : string :=
  match e with
  | FS_OK => "ok" | FS_END => "end of directory" | FS_INVALID => "invalid request" | FS_UNAVAILABLE => "unavailable filesystem" | FS_NOT_FOUND => "not found"
  | FS_NOT_DIRECTORY => "not a directory" | FS_IS_DIRECTORY => "is a directory" | FS_EXISTS => "already exists" | FS_NOT_EMPTY => "directory not empty"
  | FS_PATH_TOO_LONG => "path too long" | FS_NAME_TOO_LONG => "name too long" | FS_TOO_DEEP => "path too deep" | FS_MOUNT_ESCAPE => "mount traversal"
  | FS_RANGE => "offset range" | FS_ACCESS => "access mode" | FS_READ_ONLY => "read only" | FS_BUSY => "busy" | FS_NO_MEMORY => "out of memory" | FS_NO_SPACE => "out of space"
  | FS_UNSUPPORTED => "unsupported operation" | FS_IO_ERROR => "I/O error" | FS_TIMEOUT => "timeout" | FS_DEVICE_FAULT => "device fault"
  end.

(** [line], its [length] being the list's, and whether a launcher is set. *)
Record recovery := Recovery { typed : list Z; launcher : bool }.
Inductive received := Received | Launching (program : list Z) (id child : Z).

Definition equal (a : list Z) (b : string) : bool := bool_decide (a = chars b).
(** [take_word]: a word and the text after the blanks that follow it. *)
Definition take_word (arguments : list Z) : list Z * list Z := let '(word, rest) := next_word arguments in (word, skip_blanks (drop 1 rest)).
Definition empty (l : list Z) : bool := len l =? 0.
(** A byte of a file as [cat] shows it. *)
Definition shown (c : Z) : Z := if (c =? 10) || (c =? 9) || ((32 <=? c) && (c <=? 126)) then c else 46.
Definition help_text : list Z :=
  chars "Commands:" ++ newline ++
  chars "  help         Show this list." ++ newline ++
  chars "  clear        Clear the console." ++ newline ++
  chars "  about        About rum." ++ newline ++
  chars "  echo <text>  Print text." ++ newline ++
  chars "  ls [path]    List a directory." ++ newline ++
  chars "  cat <name>   Read a file." ++ newline ++
  chars "  write <name> [text]  Create or replace a file." ++ newline ++
  chars "  rm <name>    Remove a file." ++ newline ++
  chars "  mem          Show memory usage." ++ newline ++
  chars "  diag         Show task and memory diagnostics." ++ newline ++
  chars "  run <program> [args]  Run an embedded user program." ++ newline ++
  chars "  snake        Play ASCII Snake." ++ newline.
Definition about_text : list Z :=
  chars "rum OS v0.5.0" ++ newline ++ chars "An island of our own." ++ newline ++ chars "A small operating system for 32-bit x86." ++ newline.

Section Recovery.
Context {K P : Type} (ops : fs_operations K) (kernel : Z) (kmalloc : Z → paging → Z * paging) (kfree : Z → paging → bool * paging).
Context (start_address halt_address : Z) (switch_esp : kstate K → Z) (inb : Z → P → Z * P) (outb : Z → Z → P → P).
(** The registers and heap statistics of the reports; how often the loops over a directory
    and a file may go round before the model gives up with [None]. *)
Context (registers : Z * Z * Z) (heap : heap_statistics) (passes : nat).

Definition say (t : string) (s : system K P) : system K P := print inb outb (chars t) s.
Definition say_line (t : string) (s : system K P) : system K P := print inb outb (chars t ++ newline) s.
Definition write_text (t : list Z) (s : system K P) : system K P := print inb outb t s.
Definition number (value : Z) (s : system K P) : system K P := write_text (decimal value) s.
Definition signed_number (value : Z) (s : system K P) : system K P :=
  let s := if value <? 0 then say "-" s else s in
  number (if value <? 0 then wrap32 (0 - wrap32 value) else wrap32 value) s.
Definition show_hex (value : Z) (s : system K P) : system K P := write_text (Report.hex value) s.
Definition file_error (operation : string) (e : fs_error) (s : system K P) : system K P :=
  say_line "." (say (fs_error_name e) (say ": " (say operation s))).

Fixpoint list_loop (n : nat) (directory cursor : Z) (s : system K P) : option (fs_error * system K P) :=
  match n with
  | O => None
  | S n =>
      let '((e, (cursor, entry)), s) := on_disk (fs_readdir ops directory (Some cursor) true) s in
      if bool_decide (e ≠ FS_OK) then Some (e, s) else
      let s := write_text (string_of (entry_name entry)) (say "  " s) in
      let s := if entry_kind entry =? FS_DIRECTORY then say "/" s else say " bytes" (number (wrap32 (entry_size entry)) (say "  " s)) in
      list_loop n directory cursor (write_text newline s)
  end.
Definition list_files (arguments : list Z) (s : system K P) : option (unit * system K P) :=
  let '(path, rest) := take_word arguments in
  if negb (empty rest) then Some ((), say_line "Usage: ls [path]" s) else
  let '((e, directory), s) := on_disk (fs_open ops None (Some (if empty path then [slash] else path)) FS_READ true) s in
  if bool_decide (e ≠ FS_OK) then Some ((), file_error "ls" e s) else
  let! (e, s) := list_loop passes directory 0 s in
  let '(_, s) := on_disk (fs_close ops directory) s in
  Some ((), if bool_decide (e ≠ FS_END) then file_error "ls" e s else s).

Fixpoint cat_loop (n : nat) (file offset : Z) (ended : bool) (s : system K P) : option (fs_error * bool * system K P) :=
  match n with
  | O => None
  | S n =>
      let '((r, data), s) := on_disk (fs_read ops file offset (Some (replicate 256 0)) 256) s in
      let '(ended, s) := foldl (λ '(_, s) c, (c =? 10, write_text [shown c] s)) (ended, s) (take (Z.to_nat (transferred r)) (default [] data)) in
      if bool_decide (io_error r ≠ FS_OK) || (transferred r =? 0) then Some (io_error r, ended, s) else
      cat_loop n file (wrap64 (offset + transferred r)) ended s
  end.
Definition show_file (name : list Z) (s : system K P) : option (unit * system K P) :=
  let '((e, file), s) := on_disk (fs_open ops None (Some name) FS_READ true) s in
  if bool_decide (e ≠ FS_OK) then Some ((), file_error "cat" e s) else
  let! (e, ended, s) := cat_loop passes file 0 false s in
  let '(closed, s) := on_disk (fs_close ops file) s in
  let s := if negb ended then write_text newline s else s in
  Some ((), if bool_decide (e ≠ FS_OK) then file_error "cat" e s else if bool_decide (closed ≠ FS_OK) then file_error "cat" closed s else s).

(** What is said of a launch that ended. *)
Definition report_launch (program : list Z) (e : process_launch_error) (r : process_result) (s : system K P) : system K P :=
  match e with
  | PROCESS_LAUNCH_INVALID_ARGUMENTS => say_line "Cannot launch: too many or oversized arguments." s
  | PROCESS_LAUNCH_EXECUTABLE => say_line ": file is missing or is not a valid executable." (write_text program (say "Cannot launch " s))
  | PROCESS_LAUNCH_RESOURCES => say_line ": process resources unavailable." (write_text program (say "Cannot launch " s))
  | PROCESS_LAUNCH_INTERNAL => say_line "Cannot finish process cleanup." s
  | PROCESS_LAUNCH_OK =>
      let s := number (result_id r) (say "Process " s) in
      match result_termination r with
      | TASK_TERMINATION_EXIT => say_line "." (signed_number (result_status r) (say " exited with status " s))
      | TASK_TERMINATION_CANCELLED => say_line " cancelled by Ctrl+C." s
      | _ =>
          let f := result_fault r in
          let s := number (fault_vector f) (say " faulted: vector " s) in
          let s := show_hex (fault_error f) (say ", error " s) in
          let s := show_hex (fault_instruction f) (say ", eip " s) in
          let s := show_hex (fault_address f) (say ", address " s) in
          say_line "." (show_hex (fault_stack f) (say ", stack " s))
      end
  end.
Definition run_program (launch : bool) (arguments : list Z) w (s : system K P) : option (received * system K P) :=
  let '(program, rest) := take_word arguments in
  if empty program then Some (Received, say_line "Usage: run <program> [args]" s) else
  if negb launch then Some (Received, say_line "User program launcher is unavailable." s) else
  let! (r, s) := on_machine (process_launch_foreground ops kernel kmalloc kfree start_address halt_address switch_esp (Some program) (Some rest) w) s in
  match r with
  | inl (e, result) => Some (Received, report_launch program e result s)
  | inr (RunBlocked id child) => Some (Launching program id child, s)
  | inr (RunReturned code result) => Some (Received, report_launch program (launch_error code) result s) (* the launcher answers [inl] then *)
  end.

(** A command without arguments. *)
Definition alone (arguments : list Z) (usage : string) (f : system K P → option (unit * system K P)) (s : system K P) : option (received * system K P) :=
  if negb (empty arguments) then Some (Received, say_line usage s) else let! (_, s) := f s in Some (Received, s).
Definition done_ (r : option (unit * system K P)) : option (received * system K P) := let! (_, s) := r in Some (Received, s).
Definition execute (launch : bool) (line : list Z) w (s : system K P) : option (received * system K P) :=
  match skip_blanks line with
  | [] => Some (Received, s)
  | line =>
      let '(command, rest) := next_word line in
      let arguments := skip_blanks (drop 1 rest) in
      if equal command "help" then alone arguments "Usage: help" (λ s, Some ((), write_text help_text s)) s else
      if equal command "clear" then alone arguments "Usage: clear" (λ s, Some ((), serial inb outb clear_sequence (upd_display (terminal_clear outb) s))) s else
      if equal command "about" then alone arguments "Usage: about" (λ s, Some ((), write_text about_text s)) s else
      if equal command "echo" then Some (Received, write_text newline (write_text arguments s)) else
      if equal command "ls" then done_ (list_files arguments s) else
      if equal command "cat" || equal command "rm" then
        let '(name, rest) := take_word arguments in
        if empty name || negb (empty rest) then Some (Received, say_line (if equal command "cat" then "Usage: cat <path>" else "Usage: rm <path>") s) else
        if equal command "rm" then
          let '(e, s) := on_disk (fs_remove ops None (Some name)) s in
          Some (Received, if bool_decide (e ≠ FS_OK) then file_error "rm" e s else s)
        else done_ (show_file name s)
      else if equal command "write" then
        let '(name, rest) := take_word arguments in
        if empty name then Some (Received, say_line "Usage: write <path> [text]" s) else
        let '(e, s) := on_disk (fs_replace ops None (Some name) (Some rest) (len rest)) s in
        Some (Received, if bool_decide (e ≠ FS_OK) then file_error "write" e s else s)
      else if equal command "mem" then
        alone arguments "Usage: mem" (λ s,
          let s := say " bytes mapped, " (number (mapped_bytes heap) (say "Heap: " s)) in
          Some ((), say_line " allocations" (number (allocations heap) (say " bytes used, " (number (used_bytes heap) s))))) s
      else if equal command "diag" then alone arguments "Usage: diag" (λ s, Some ((), diagnostics_print kernel inb outb registers heap s)) s
      else if equal command "run" then run_program launch arguments w s
      else if equal command "snake" then
        alone arguments "Usage: snake" (λ s, let! (_, s) := snake_start ops kmalloc inb outb (timer_ticks (machine s)) s in Some ((), s)) s
      else Some (Received, say_line ". Type 'help'." (write_text command (say "Unknown command: " s)))
  end.

Definition shell_set_launcher (launch : bool) (r : recovery) : recovery := Recovery (typed r) launch.
Definition shell_initialize (r : recovery) (s : system K P) : recovery * system K P := (Recovery [] (launcher r), say "> " s).
(** After the command of a line: a new line, and the prompt unless a game has begun. *)
Definition line_done (r : recovery) (s : system K P) : recovery * system K P :=
  let r := Recovery [] (launcher r) in if negb (snake_active s) then shell_initialize r s else (r, s).
Definition finished (e : received) (r : recovery) (s : system K P) : received * recovery * system K P :=
  match e with Received => let '(r, s) := line_done r s in (Received, r, s) | Launching _ _ _ => (e, r, s) end.
(** A character other than a tab. *)
Definition receive_plain (c : Z) (r : recovery) w (s : system K P) : option (received * recovery * system K P) :=
  if snake_active s then
    let! s := snake_receive ops kfree inb outb c (timer_ticks (machine s)) s in
    let '(r, s) := if negb (snake_active s) then shell_initialize r s else (r, s) in Some (Received, r, s)
  else if c =? 10 then
    let! (e, s) := execute (launcher r) (typed r) w (write_text newline s) in Some (finished e r s)
  else if c =? 8 then
    if negb (len (typed r) =? 0) then
      let s := serial inb outb [8; 32; 8] (upd_display (terminal_putchar outb 8) s) in
      Some (Received, Recovery (take (length (typed r) - 1) (typed r)) (launcher r), s)
    else Some (Received, r, s)
  else if (c >=? 32) && (c <=? 126) && (len (typed r) <? SHELL_LINE_CAPACITY - 1) then
    let s := upd_display (on_serial (serial_putchar inb outb c)) (upd_display (terminal_putchar outb c) s) in
    Some (Received, Recovery (typed r ++ [c]) (launcher r), s)
  else Some (Received, r, s).
(** A tab is four spaces, unless the game takes it. *)
Definition shell_receive (c : Z) (r : recovery) w (s : system K P) : option (received * recovery * system K P) :=
  if (c =? 9) && negb (snake_active s) then
    let! (_, r, s) := receive_plain 32 r w s in
    let! (_, r, s) := receive_plain 32 r w s in
    let! (_, r, s) := receive_plain 32 r w s in
    receive_plain 32 r w s
  else receive_plain c r w s.
(** The program's parent runs again. *)
Definition shell_resume (program : list Z) (id child : Z) (r : recovery) w (s : system K P) : option (received * recovery * system K P) :=
  let! (x, s) := on_machine (run_foreground_resume ops kernel kfree switch_esp id child w) s in
  match x with
  | RunReturned code result => Some (finished Received r (report_launch program (launch_error code) result s))
  | RunBlocked id child => Some (Launching program id child, r, s)
  end.
Definition shell_tick_due (now : Z) (s : system K P) : bool := snake_tick_due now s.
Definition shell_tick (now : Z) (s : system K P) : system K P := snake_tick ops inb outb now s.
End Recovery.

(** ** The line *)

(** What a character does to a line when no game runs: the editor without its echo. *)
Definition edit1 (l : list Z) (c : Z) : list Z :=
  if c =? 8 then take (length l - 1) l else if (32 <=? c) && (c <=? 126) && (len l <? SHELL_LINE_CAPACITY - 1) then l ++ [c] else l.
Definition edit (l : list Z) (c : Z) : list Z := if c =? 9 then edit1 (edit1 (edit1 (edit1 l 32) 32) 32) 32 else edit1 l c.
(** The line fits its buffer with its NUL, and is printable. *)
Definition line_ok (l : list Z) : Prop := len l < SHELL_LINE_CAPACITY ∧ Forall (λ c, 32 ≤ c ≤ 126) l.
Lemma edit1_ok l c : line_ok l → line_ok (edit1 l c).
Proof.
  intros [L F]. unfold edit1. destruct (c =? 8); [split; [rewrite length_take; lia|by apply Forall_take]|]. destruct (_ && _ && _) eqn:E; [|done].
  apply andb_true_iff in E as [[A B]%andb_true_iff C]. split; [rewrite length_app; cbn [length]; lia|]. apply Forall_app. split; [done|]. constructor; [lia|constructor].
Qed.
Lemma edit_ok l c : line_ok l → line_ok (edit l c).
Proof. intros H. unfold edit. destruct (c =? 9); auto using edit1_ok. Qed.

Section Editing.
Context {K P : Type} (ops : fs_operations K) (kernel : Z) (kmalloc : Z → paging → Z * paging) (kfree : Z → paging → bool * paging).
Context (start_address halt_address : Z) (switch_esp : kstate K → Z) (inb : Z → P → Z * P) (outb : Z → Z → P → P).
Context (registers : Z * Z * Z) (heap : heap_statistics) (passes : nat).
Implicit Types (s : system K P) (r : recovery).
Notation receive_plain := (receive_plain ops kernel kmalloc kfree start_address halt_address switch_esp inb outb registers heap passes).
Notation shell_receive := (shell_receive ops kernel kmalloc kfree start_address halt_address switch_esp inb outb registers heap passes).

(** A character that ends no line changes the line, the terminal and nothing else. *)
Lemma plain_edits c r w s : snake_active s = false → c ≠ 10 →
  ∃ t, receive_plain c r w s = Some (Received, Recovery (edit1 (typed r) c) (launcher r), t) ∧ machine t = machine s ∧ arcade t = arcade s.
Proof.
  intros A N. unfold receive_plain, Recovery.receive_plain, edit1. rewrite A, (proj2 (Z.eqb_neq _ _) N). destruct (c =? 8).
  - destruct (Z.eqb_spec (len (typed r)) 0) as [E|E]; cbn [negb]; [|by eexists]. destruct r as [[|] l]; [|cbn in E; lia]. by eexists.
  - rewrite Z.geb_leb. destruct (_ && _ && _); [by eexists|]. destruct r. by eexists.
Qed.
Lemma receive_edits c r w s : snake_active s = false → c ≠ 10 →
  ∃ t, shell_receive c r w s = Some (Received, Recovery (edit (typed r) c) (launcher r), t) ∧ machine t = machine s ∧ arcade t = arcade s.
Proof.
  intros A N. unfold shell_receive, Recovery.shell_receive, edit. rewrite A, andb_true_r. destruct (c =? 9); [|by apply plain_edits].
  destruct (plain_edits 32 r w s) as (s1 & -> & M1 & A1); [done|lia|]. destruct (plain_edits 32 (Recovery (edit1 (typed r) 32) (launcher r)) w s1) as (s2 & -> & M2 & A2); [unfold snake_active in *; by rewrite A1|lia|].
  cbn [typed launcher]. set (l2 := edit1 (edit1 _ _) _). destruct (plain_edits 32 (Recovery l2 (launcher r)) w s2) as (s3 & -> & M3 & A3); [unfold snake_active in *; by rewrite A2, A1|lia|].
  cbn [typed launcher]. destruct (plain_edits 32 (Recovery (edit1 l2 32) (launcher r)) w s3) as (s4 & -> & M4 & A4); [unfold snake_active in *; by rewrite A3, A2, A1|lia|].
  exists s4. split; [done|]. split; congruence.
Qed.

(** Keys, one after the other. *)
Fixpoint shell_keys (keys : list Z) r w s : option (received * recovery * system K P) :=
  match keys with
  | [] => Some (Received, r, s)
  | c :: keys => match shell_receive c r w s with Some (_, r, s) => shell_keys keys r w s | None => None end
  end.
Lemma keys_edit keys w : ∀ r s, snake_active s = false → Forall (λ c, c ≠ 10) keys →
  ∃ t, shell_keys keys r w s = Some (Received, Recovery (foldl edit (typed r) keys) (launcher r), t) ∧ machine t = machine s ∧ arcade t = arcade s.
Proof.
  induction keys as [|c keys IH]; intros r s A F; [destruct r; by eexists|]. apply Forall_cons_1 in F as [N F]. cbn [shell_keys foldl]. destruct (receive_edits c r w s A N) as (s1 & -> & M & A1).
  destruct (IH (Recovery (edit (typed r) c) (launcher r)) s1) as (t & -> & M' & A'); [unfold snake_active in *; by rewrite A1|done|]. exists t. split; [done|]. split; congruence.
Qed.
Lemma keys_ok keys l : line_ok l → line_ok (foldl edit l keys).
Proof. revert l. induction keys as [|c keys IH]; intros l H; [done|]. by apply IH, edit_ok. Qed.
End Editing.

(** ** The registry *)

Section Keeps.
Context {K P : Type} (ops : fs_operations K) (kernel : Z) (kmalloc : Z → paging → Z * paging) (kfree : Z → paging → bool * paging) `{!HeapLaw kernel kmalloc kfree}.
Context (start_address halt_address : Z) (switch_esp : kstate K → Z) (inb : Z → P → Z * P) (outb : Z → Z → P → P).
Context (registers : Z * Z * Z) (heap : heap_statistics) (passes : nat).
Implicit Types (x y : system K P) (r : recovery).
Notation goes := (goes ops kernel kfree start_address halt_address switch_esp).
Notation whole := (whole ops kernel kfree start_address halt_address switch_esp).
Notation whole_bind := (whole_bind ops kernel kmalloc kfree start_address halt_address switch_esp).
Notation whole_from := (whole_from ops kernel kmalloc kfree start_address halt_address switch_esp).
Notation whole_ret := (whole_ret ops kernel kmalloc kfree start_address halt_address switch_esp).
Notation leads_ret := (leads_ret ops kernel kmalloc kfree start_address halt_address switch_esp).
Notation leads_bind := (leads_bind ops kernel kmalloc kfree start_address halt_address switch_esp).
Notation execute := (execute ops kernel kmalloc kfree start_address halt_address switch_esp inb outb registers heap passes).
Notation receive_plain := (receive_plain ops kernel kmalloc kfree start_address halt_address switch_esp inb outb registers heap passes).
Notation shell_receive := (shell_receive ops kernel kmalloc kfree start_address halt_address switch_esp inb outb registers heap passes).
#[local] Instance goes_order : PreOrder goes := goes_preorder ops kernel kmalloc kfree start_address halt_address switch_esp.

(** A change of the files, then the rest. *)
Lemma whole_disk {A B : Type} (f : vfs K → A * vfs K) (k : A → system K P → option (B * system K P)) x :
  (∀ a y, whole (k a y) y) → whole (let '(a, y) := on_disk f x in k a y) x.
Proof. intros H. pose proof (goes_disk ops kernel kfree start_address halt_address switch_esp f x) as G. destruct (on_disk f x) as [a y]. eapply whole_from; [exact G|apply H]. Qed.
(** Text is no step of the machine. *)
Lemma whole_text {A : Type} (m : option (A * system K P)) x y : machine y = machine x → whole m y → whole m x.
Proof. intros E. apply whole_from. rewrite E. reflexivity. Qed.
Lemma list_loop_whole n directory : ∀ cursor x, whole (list_loop ops inb outb n directory cursor x) x.
Proof.
  induction n as [|n IH]; intros cursor x; [done|]. cbn [list_loop]. apply (whole_disk (fs_readdir ops directory (Some cursor) true)). intros [e [c entry]] y. case_bool_decide; [by apply whole_ret|]. cbv zeta.
  eapply whole_text; [|apply IH]. by destruct (_ =? _).
Qed.
Lemma list_files_whole arguments x : whole (list_files ops inb outb passes arguments x) x.
Proof.
  unfold list_files. destruct (take_word arguments) as [path rest]. destruct (negb _); [by apply whole_ret|]. apply (whole_disk (fs_open _ _ _ _ _)). intros [e directory] y. case_bool_decide; [by apply whole_ret|].
  apply whole_bind; [apply list_loop_whole|]. intros e' z. apply (whole_disk (fs_close _ _)). intros c u. apply whole_ret. by case_bool_decide.
Qed.
Lemma cat_bytes l : ∀ ended x, machine (foldl (λ '(_, s) c, (c =? 10, write_text inb outb [shown c] s)) (ended, x) l).2 = machine x.
Proof. induction l as [|c l IH]; intros ended x; [done|]. cbn [foldl]. by rewrite IH. Qed.
Lemma cat_loop_whole n file : ∀ offset ended x, whole (cat_loop ops inb outb n file offset ended x) x.
Proof.
  induction n as [|n IH]; intros offset ended x; [done|]. cbn [cat_loop]. apply (whole_disk (fs_read _ _ _ _ _)). intros [q data] y.
  set (l := take _ _). pose proof (cat_bytes l ended y) as M. destruct (foldl _ _ l) as [ended' z]. cbn [snd] in M. destruct (_ || _); [by apply whole_ret|]. eapply whole_text; [exact M|apply IH].
Qed.
Lemma show_file_whole name x : whole (show_file ops inb outb passes name x) x.
Proof.
  unfold show_file. apply (whole_disk (fs_open _ _ _ _ _)). intros [e file] y. case_bool_decide; [by apply whole_ret|]. apply whole_bind; [apply cat_loop_whole|]. intros [e' ended] z.
  apply (whole_disk (fs_close _ _)). intros c u. apply whole_ret. by destruct ended; repeat case_bool_decide.
Qed.
Lemma report_machine program e q x : machine (report_launch inb outb program e q x) = machine x.
Proof. unfold report_launch. destruct e; try done. destruct (result_termination q); try done. unfold signed_number. by destruct (_ <? 0). Qed.
Lemma run_program_whole launch arguments w x : whole (run_program ops kernel kmalloc kfree start_address halt_address switch_esp inb outb launch arguments w x) x.
Proof.
  unfold run_program. destruct (take_word arguments) as [program rest]. destruct (empty program); [by apply whole_ret|]. destruct (negb launch); [by apply whole_ret|]. apply whole_bind.
  - apply whole_on. unfold process_launch_foreground. destruct (build_arguments _ _); [|apply leads_ret]. destruct (program_path _); [|apply leads_ret].
    apply leads_bind; [apply (run_foreground_leads ops kernel kmalloc kfree)|]. intros. apply leads_ret.
  - intros [[e q]|[code q|id child]] y; apply whole_ret; by rewrite ?report_machine.
Qed.
Lemma alone_whole arguments usage f x : (∀ y, whole (f y) y) → whole (alone inb outb arguments usage f x) x.
Proof. intros H. unfold alone. destruct (negb _); [by apply whole_ret|]. apply whole_bind; [apply H|]. intros. by apply whole_ret. Qed.
Lemma done_whole q x : whole q x → whole (done_ q) x.
Proof. intros H. apply whole_bind; [exact H|]. intros. by apply whole_ret. Qed.
(** Every command. *)
Lemma execute_whole launch line w x : whole (execute launch line w x) x.
Proof.
  unfold execute, Recovery.execute. destruct (skip_blanks line) as [|c0 l0]; [by apply whole_ret|]. destruct (next_word _) as [command rest]. cbv zeta.
  destruct (equal command "help"); [apply alone_whole; intros; by apply whole_ret|]. destruct (equal command "clear"); [apply alone_whole; intros; by apply whole_ret|].
  destruct (equal command "about"); [apply alone_whole; intros; by apply whole_ret|]. destruct (equal command "echo"); [by apply whole_ret|]. destruct (equal command "ls"); [apply done_whole, list_files_whole|].
  destruct (_ || _).
  { destruct (take_word _) as [name more]. destruct (_ || _); [by apply whole_ret|]. destruct (equal command "rm"); [|apply done_whole, show_file_whole].
    apply (whole_disk (fs_remove _ _ _)). intros e y. apply whole_ret. by case_bool_decide. }
  destruct (equal command "write").
  { destruct (take_word _) as [name more]. destruct (empty name); [by apply whole_ret|]. apply (whole_disk (fs_replace _ _ _ _ _)). intros e y. apply whole_ret. by case_bool_decide. }
  destruct (equal command "mem"); [apply alone_whole; intros; by apply whole_ret|]. destruct (equal command "diag"); [apply alone_whole; intros; apply whole_ret, print_all_only|].
  destruct (equal command "run"); [apply run_program_whole|]. destruct (equal command "snake"); [|by apply whole_ret].
  apply alone_whole. intros y. apply whole_bind; [apply (start_whole ops kernel kmalloc kfree)|]. intros. by apply whole_ret.
Qed.
Lemma finished_machine e r x : machine (finished inb outb e r x).2 = machine x.
Proof. unfold finished, line_done. destruct e; [|done]. by destruct (snake_active x). Qed.
Lemma plain_whole c r w x : whole (receive_plain c r w x) x.
Proof.
  unfold receive_plain, Recovery.receive_plain. destruct (snake_active x).
  { destruct (snake_receive _ _ _ _ _ _ x) as [y|] eqn:E; [|done]. eapply (receive_goes ops kernel kmalloc kfree start_address halt_address switch_esp) in E. destruct (negb _); by apply whole_at. }
  destruct (c =? 10).
  { eapply (whole_text _ x (write_text inb outb newline x)); [done|]. apply whole_bind; [apply execute_whole|]. intros e y. destruct (finished inb outb e r y) as [er z] eqn:E.
    apply whole_ret. pose proof (finished_machine e r y) as M. by rewrite E in M. }
  destruct (c =? 8); [destruct (negb _); by apply whole_ret|]. destruct (_ && _ && _); by apply whole_ret.
Qed.
Lemma receive_whole c r w x : whole (shell_receive c r w x) x.
Proof.
  unfold shell_receive, Recovery.shell_receive. destruct (_ && _); [|apply plain_whole]. do 3 (apply whole_bind; [apply plain_whole|]; intros [? ?] ?). apply plain_whole.
Qed.
Lemma shell_resume_whole program id child r w x : whole (shell_resume ops kernel kfree switch_esp inb outb program id child r w x) x.
Proof.
  unfold shell_resume. apply whole_bind.
  - apply whole_on. unfold run_foreground_resume. apply leads_bind; [apply leads_wait_child_resume|]. intros. apply (run_tail_leads ops kernel kmalloc kfree).
  - intros [code q|id' child'] y; [|by apply whole_ret]. destruct (finished inb outb Received r _) as [er z] eqn:E. apply whole_ret. pose proof (finished_machine Received r (report_launch inb outb program (launch_error code) q y)) as M.
    rewrite E, report_machine in M. exact M.
Qed.
End Keeps.

Section Lines.
Context {K P : Type} (ops : fs_operations K) (kernel : Z) (kmalloc : Z → paging → Z * paging) (kfree : Z → paging → bool * paging).
Context (start_address halt_address : Z) (switch_esp : kstate K → Z) (inb : Z → P → Z * P) (outb : Z → Z → P → P).
Context (registers : Z * Z * Z) (heap : heap_statistics) (passes : nat).
Implicit Types (s t : system K P) (r : recovery).
Notation receive_plain := (receive_plain ops kernel kmalloc kfree start_address halt_address switch_esp inb outb registers heap passes).
Notation shell_receive := (shell_receive ops kernel kmalloc kfree start_address halt_address switch_esp inb outb registers heap passes).

(** A character gives a line that is the old one, the edited one or empty. *)
Lemma finished_line e r s e' r' t : finished inb outb e r s = (e', r', t) → line_ok (typed r) → line_ok (typed r') ∧ launcher r' = launcher r.
Proof. unfold finished, line_done. destruct e; [|by intros [= <- <- <-]]. destruct (negb _); intros [= <- <- <-] _; split; try done; split; done || constructor. Qed.
Lemma plain_line c r w s e r' t : receive_plain c r w s = Some (e, r', t) → line_ok (typed r) → line_ok (typed r') ∧ launcher r' = launcher r.
Proof.
  intros H L. destruct (snake_active s) eqn:A.
  - unfold receive_plain, Recovery.receive_plain in H. rewrite A in H. destruct (snake_receive _ _ _ _ _ _ s) as [u|]; [|done]. destruct (negb _); injection H as <- <- <-; [|done]. split; [|done]. split; [done|constructor].
  - destruct (Z.eq_dec c 10) as [->|N].
    + unfold receive_plain, Recovery.receive_plain in H. rewrite A in H. cbn [Z.eqb Pos.eqb] in H. destruct (execute _ _ _ _ _ _ _ _ _ _ _ _ _ _ _ _) as [[e' u]|]; [|done]. injection H as H. by eapply finished_line.
    + destruct (plain_edits ops kernel kmalloc kfree start_address halt_address switch_esp inb outb registers heap passes c r w s A N) as (u & E & _). rewrite H in E. injection E as -> -> ->. split; [by apply edit1_ok|done].
Qed.
Lemma receive_line c r w s e r' t : shell_receive c r w s = Some (e, r', t) → line_ok (typed r) → line_ok (typed r') ∧ launcher r' = launcher r.
Proof.
  unfold shell_receive, Recovery.shell_receive. destruct (_ && _); [|apply plain_line]. intros H L.
  destruct (receive_plain 32 r w s) as [[[e1 r1] s1]|] eqn:E1; [|done]. apply plain_line in E1 as [L1 <-]; [|done]. destruct (receive_plain 32 r1 w s1) as [[[e2 r2] s2]|] eqn:E2; [|done]. apply plain_line in E2 as [L2 <-]; [|done].
  destruct (receive_plain 32 r2 w s2) as [[[e3 r3] s3]|] eqn:E3; [|done]. apply plain_line in E3 as [L3 <-]; [|done]. by eapply plain_line.
Qed.

(** Reads that end: a backend counts what it read from zero up, and reads nothing past
    the end of a file. *)
Definition reads_end (size : Z) : Prop := ∀ id offset data bytes k, let q := (op_read ops id offset data bytes k).1.1 in 0 ≤ transferred q ∧ (size ≤ offset → transferred q = 0).
Lemma fs_read_end size file offset data bytes (v : vfs K) : reads_end size → let q := (fs_read ops file offset data bytes v).1.1 in 0 ≤ transferred q ∧ (size ≤ offset → transferred q = 0).
Proof.
  intros B. unfold fs_read, io. assert (∀ e, 0 ≤ transferred (io_failure e) ∧ (size ≤ offset → transferred (io_failure e) = 0)) as F by done.
  destruct (_ && _); [apply F|]. destruct (bytes >? UINT64_MAX - offset); [apply F|]. unfold locked, enter. destruct (Fs.ready v), (Fs.busy v); cbn [negb]; try apply F.
  rewrite (bool_decide_eq_true_2 (FS_OK = FS_OK)), bool_decide_eq_false_2 by (done || by intros E). destruct (find_reference _ _) as [r|]; [|apply F]. destruct (_ =? 0); [apply F|].
  destruct (negb (_ =? FS_FILE)); [apply F|]. cbn [andb]. destruct data as [data|]; [|apply F]. destruct (bytes =? 0); [apply F|].
  specialize (B (object_id (object_at (set_busy true v) (ref_object (reference_at (set_busy true v) r)))) offset data bytes (store (set_busy true v))). cbv zeta in B.
  destruct (op_read ops _ _ _ _ _) as [[q data'] k]. cbn [fst snd] in *. destruct (_ >? bytes); [apply F|exact B].
Qed.
(** [cat] ends: every pass but the last reads something, so that as many passes as the
    file has bytes, and one more, are enough. *)
Lemma cat_loop_ends size file n : reads_end size → size + 256 ≤ UINT64_MAX → ∀ offset ended s, 0 ≤ offset ≤ size + 256 → size - offset < Z.of_nat n →
  (0 < n)%nat → cat_loop ops inb outb n file offset ended s ≠ None.
Proof.
  intros B Hs. induction n as [|n IH]; intros offset ended s Ho Hn N; [lia|]. cbn [cat_loop]. unfold on_disk, on_files.
  pose proof (fs_read_end size file offset (Some (replicate 256 0)) 256 (files (machine s)) B) as [B1 B2]. pose proof (io_bounded ops file offset (Some (replicate 256 0)) 256 false (files (machine s)) ltac:(lia)) as B3.
  unfold fs_read in *. destruct (io _ _ _ _ _ _ _) as [[q data] v]. cbn [fst snd] in *. destruct (foldl _ _ _) as [ended' t]. destruct (bool_decide (io_error q ≠ FS_OK)); [done|]. cbn [orb]. destruct (Z.eqb_spec (transferred q) 0); [done|].
  assert (offset < size) by (destruct (Z.lt_ge_cases offset size); [done|lia]). replace (wrap64 (offset + transferred q)) with (offset + transferred q) by (symmetry; apply Z.mod_small; unfold UINT64_MAX in *; lia).
  apply IH; lia.
Qed.
Theorem cat_ends size name s : reads_end size → 0 ≤ size → size + 256 ≤ UINT64_MAX → size < Z.of_nat passes → show_file ops inb outb passes name s ≠ None.
Proof.
  intros B Hz Hs Hp. unfold show_file. destruct (on_disk (fs_open _ _ _ _ _) s) as [[e file] t]. case_bool_decide; [done|]. pose proof (cat_loop_ends size file passes B Hs 0 false t ltac:(lia) ltac:(lia) ltac:(lia)) as E.
  destruct (cat_loop _ _ _ _ _ _ _ t) as [[[e' ended] u]|]; [|done]. by destruct (on_disk (fs_close _ _) u).
Qed.
End Lines.

(** C38: the recovery shell is safe whatever is typed into it. From a well-formed registry
    and a line that fits its buffer, a key, the end of a program it waited for and a tick
    of the game leave the registry well formed, by steps of the kernel only, and a line
    that is printable and shorter than its buffer; the launcher stays what it was. *)
Theorem recovery_keeps_the_registry (K P : Type) (ops : fs_operations K) (kernel : Z) (kmalloc : Z → paging → Z * paging) (kfree : Z → paging → bool * paging)
    `{!HeapLaw kernel kmalloc kfree} (start_address halt_address : Z) (switch_esp : kstate K → Z) (inb : Z → P → Z * P) (outb : Z → Z → P → P)
    (registers : Z * Z * Z) (heap : heap_statistics) (passes : nat) (x y : system K P) (r r' : recovery) (e : received) (w : nat → list irq) :
  registry kernel true (machine x) → line_ok (typed r) →
  (∃ c, shell_receive ops kernel kmalloc kfree start_address halt_address switch_esp inb outb registers heap passes c r w x = Some (e, r', y)) ∨
  (∃ program id child, shell_resume ops kernel kfree switch_esp inb outb program id child r w x = Some (e, r', y)) ∨
  (∃ now, shell_tick ops inb outb now x = y ∧ r' = r) →
  registry kernel true (machine y) ∧ rtc (kstep kernel switch_esp ops start_address halt_address kfree) (machine x) (machine y) ∧ line_ok (typed r') ∧ launcher r' = launcher r.
Proof.
  intros R L H. assert (rtc (kstep kernel switch_esp ops start_address halt_address kfree) (machine x) (machine y) ∧ line_ok (typed r') ∧ launcher r' = launcher r) as [St Q];
    [|split; [eapply steps_keep; [exact _|exact R|exact St]|by split]].
  destruct H as [[c H]|[(program & id & child & H)|(now & <- & ->)]].
  - split; [eapply (receive_whole ops kernel kmalloc kfree); [exact H|exact R]|by eapply receive_line].
  - split; [eapply (shell_resume_whole ops kernel kmalloc kfree); [exact H|exact R]|]. unfold shell_resume in H. destruct (on_machine _ x) as [[[code q|i j] u]|]; [| |done].
    + apply (inj Some) in H. by eapply finished_line.
    + by injection H as <- <- <-.
  - split; [apply (tick_goes ops kernel kmalloc kfree); exact R|done].
Qed.
(** The small machine, where an unknown command is answered. *)
Lemma recovery_keeps_the_registry_witness :
  ∃ r y, shell_receive SampleBackend.ops 1 LaunchSample.kmalloc TaskSample.kfree 0x200 0x300 TaskSample.esp SnakeSample.inb SnakeSample.outb (0, 0, 0) (HeapStatistics 0 0 0 0) 4
    10 (Recovery (chars "xyzzy") true) (λ _, []) small_system = Some (Received, r, y) ∧ registry 1 true (machine y) ∧ line_ok (typed r).
Proof.
  destruct (shell_receive SampleBackend.ops 1 LaunchSample.kmalloc TaskSample.kfree 0x200 0x300 TaskSample.esp SnakeSample.inb SnakeSample.outb (0, 0, 0) (HeapStatistics 0 0 0 0) 4
    10 (Recovery (chars "xyzzy") true) (λ _, []) small_system) as [[[[|] r] y]|] eqn:E; [|by vm_compute in E..].
  exists r, y. split; [done|].
  destruct (recovery_keeps_the_registry _ _ SampleBackend.ops 1 LaunchSample.kmalloc TaskSample.kfree 0x200 0x300 TaskSample.esp SnakeSample.inb SnakeSample.outb (0, 0, 0) (HeapStatistics 0 0 0 0) 4
    small_system y (Recovery (chars "xyzzy") true) r Received (λ _, []) ready_worker_registry) as (A & _ & B & _).
  - split; [by vm_compute|]. cbn. repeat (constructor; [lia|]). constructor.
  - left. by exists 10.
  - by split.
Defined.

(** The recovery shell runs the line that was edited. With no game on the screen, any
    keys but the end of the line, tabs, rubouts and unprintable ones among them, change
    only the terminal and the line, which becomes what the editing keys mean and fits its
    buffer however many come; the end of the line then runs exactly that text, on the
    machine as it was, and starts an empty line unless the command waits for a program. *)
Theorem recovery_runs_the_edited_line (K P : Type) (ops : fs_operations K) (kernel : Z) (kmalloc : Z → paging → Z * paging) (kfree : Z → paging → bool * paging)
    (start_address halt_address : Z) (switch_esp : kstate K → Z) (inb : Z → P → Z * P) (outb : Z → Z → P → P)
    (registers : Z * Z * Z) (heap : heap_statistics) (passes : nat) (keys : list Z) (r : recovery) (w : nat → list irq) (s : system K P) :
  snake_active s = false → Forall (λ c, c ≠ 10) keys → line_ok (typed r) →
  let line := foldl edit (typed r) keys in
  line_ok line ∧
  ∃ t, machine t = machine s ∧ arcade t = arcade s ∧
    shell_keys ops kernel kmalloc kfree start_address halt_address switch_esp inb outb registers heap passes keys r w s = Some (Received, Recovery line (launcher r), t) ∧
    match shell_receive ops kernel kmalloc kfree start_address halt_address switch_esp inb outb registers heap passes 10 (Recovery line (launcher r)) w t with
    | Some (Received, r', u) => typed r' = [] ∧ ∃ v, execute ops kernel kmalloc kfree start_address halt_address switch_esp inb outb registers heap passes (launcher r) line w (write_text inb outb newline t) = Some (Received, v) ∧
        machine u = machine v
    | Some (e, r', u) => typed r' = line ∧ execute ops kernel kmalloc kfree start_address halt_address switch_esp inb outb registers heap passes (launcher r) line w (write_text inb outb newline t) = Some (e, u)
    | None => execute ops kernel kmalloc kfree start_address halt_address switch_esp inb outb registers heap passes (launcher r) line w (write_text inb outb newline t) = None
    end.
Proof.
  intros A F L line. split; [by apply keys_ok|]. destruct (keys_edit ops kernel kmalloc kfree start_address halt_address switch_esp inb outb registers heap passes keys w r s A F) as (t & E & M & Ar).
  exists t. split_and!; [done..|]. assert (snake_active t = false) as At by (unfold snake_active in *; by rewrite Ar). unfold shell_receive, receive_plain. rewrite At. cbn [Z.eqb Pos.eqb andb typed launcher].
  destruct (execute _ _ _ _ _ _ _ _ _ _ _ _ _ _ _ _) as [[e v]|]; [|done]. unfold finished, line_done. destruct e; [|done]. destruct (snake_active v); cbn [negb]; split; try done; by exists v.
Qed.
(** A tab, a letter too many and its rubout before [x]. *)
Lemma recovery_runs_the_edited_line_witness :
  foldl edit [] [9; 97; 8; 120] = [32; 32; 32; 32; 120] ∧
  ∃ t, machine t = machine small_system ∧
    shell_keys SampleBackend.ops 1 LaunchSample.kmalloc TaskSample.kfree 0x200 0x300 TaskSample.esp SnakeSample.inb SnakeSample.outb (0, 0, 0) (HeapStatistics 0 0 0 0) 4
      [9; 97; 8; 120] (Recovery [] true) (λ _, []) small_system = Some (Received, Recovery [32; 32; 32; 32; 120] true, t).
Proof.
  split; [by vm_compute|].
  destruct (recovery_runs_the_edited_line _ _ SampleBackend.ops 1 LaunchSample.kmalloc TaskSample.kfree 0x200 0x300 TaskSample.esp SnakeSample.inb SnakeSample.outb (0, 0, 0) (HeapStatistics 0 0 0 0) 4
    [9; 97; 8; 120] (Recovery [] true) (λ _, []) small_system eq_refl) as (_ & t & M & _ & E & _).
  - repeat (constructor; [lia|]). constructor.
  - split; [done|constructor].
  - exists t. split; [exact M|exact E].
Defined.
