(* ===== verification/Boot.v ===== *)
(** * Boot options and sessions (kernel/core/init.c)

    The options of the boot loader's command line; the task that shows the uptime; the
    session that starts the shell again when it ends, and the recovery session after it.
    The supervisor runs in the boot task: its loop is a state machine, [supervisor], with a
    state wherever it waits or goes round. *)

From Stdlib Require Import String Ascii.
From S2P Require Import Prelude Library Heap Pmm Block Path Fs Paging Session Handles Gdt Keyboard Task Registry Scheduler Elf Steps Process Terminal Snake Report Syscall SyscallSafe Recovery.

#[local] Notation "'let!' p ':=' m 'in' k" := (match m with Some p => k | None => None end)
  (at level 200, p pattern, right associativity).

(** ** Options *)

(** [recovery], [disk_readonly] and the string in [shell_path]. *)
Record options := Options { wants_recovery : bool; disk_readonly : bool; shell_path : list Z }.
Definition no_options : options := Options false false (chars "/rum/shell.elf").

(** The loops over the characters of the line, from [cursor], at most [n] passes. *)
Fixpoint spaces_end (n : nat) (text : Z → Z) (cursor : Z) : Z :=
  match n with
  | O => cursor
  | S n => if (cursor <? PAGE_SIZE) && (text cursor =? 32) then spaces_end n text (cursor + 1) else cursor
  end.
Fixpoint word_end (n : nat) (text : Z → Z) (cursor : Z) : Z :=
  match n with
  | O => cursor
  | S n => if (cursor <? PAGE_SIZE) && negb (text cursor =? 0) && negb (text cursor =? 32) then word_end n text (cursor + 1) else cursor
  end.
(** What a word of the line asks for. *)
Definition apply_option (o : options) (word : list Z) : options :=
  let bytes := len word in
  let o := if (bytes =? 12) && bool_decide (word = chars "rum.recovery") then Options true (disk_readonly o) (shell_path o) else o in
  let o := if (bytes =? 17) && bool_decide (word = chars "rum.disk-readonly") then Options (wants_recovery o) true (shell_path o) else o in
  if (bytes >=? 10) && bool_decide (take 10 word = chars "rum.shell=") then
    if (bytes =? 10) || (bytes - 10 >=? FS_PATH_CAPACITY) then Options true (disk_readonly o) (shell_path o)
    else Options (wants_recovery o) (disk_readonly o) (drop 10 word)
  else o.
Fixpoint options_loop (n : nat) (text : Z → Z) (cursor : Z) (o : options) : options :=
  match n with
  | O => o
  | S n =>
      if negb ((cursor <? PAGE_SIZE) && negb (text cursor =? 0)) then o else
      let start := spaces_end (Z.to_nat PAGE_SIZE) text cursor in
      let finish := word_end (Z.to_nat PAGE_SIZE) text start in
      options_loop n text finish (apply_option o (text <$> seqZ start (finish - start)))
  end.
Definition boot_options (mem : Pmm.memory) (info : multiboot_info) (o : options) : options :=
  if negb (Pmm.flag info 2) || (cmdline info =? 0) then o else
  options_loop (Z.to_nat PAGE_SIZE) (λ i, mem (cmdline info + i)) 0 o.

(** ** Sessions *)

(** The shell's argument packet: its path. *)
Definition shell_arguments (path : list Z) : rum_arguments := Arguments_ 1 (len path + 1) ∅ (array_of (path ++ [0])).
Definition uptime_event : event := Other 0.
Definition RESTART_WINDOW : Z := TIMER_HZ * 30.
Definition FAILURE_LIMIT : Z := 3.

(** How a session goes on after the shell's end, [elapsed] ticks after its start. *)
Inductive verdict := ToRecovery | GivesUp | Again (failures : Z).
Definition session_verdict (info : task_information) (elapsed failures : Z) : verdict :=
  if match info_termination info with TASK_TERMINATION_EXIT => true | _ => false end && (info_status info =? RUM_SHELL_RECOVERY_STATUS) then ToRecovery else
  let failures := if elapsed >=? RESTART_WINDOW then 0 else failures in
  let failures := failures + 1 in
  if failures =? FAILURE_LIMIT then GivesUp else Again failures.

(** Where the supervisor is: before a shell is started; in the wait for [child], process
    [id]; at the test of the loop that waits for the uptime task; in that loop's yield;
    done. *)
Inductive supervisor := Starting (failures : Z) | Awaiting (child id started failures : Z) | Stopping | Yielding | Over.
(** The recovery session: the seconds shown, and the wait it is in. *)
Inductive recovering := Turn | Asleep | InProgram (program : list Z) (id child : Z).

Section Boot.
Context {K P : Type} (ops : fs_operations K) (kernel : Z) (kmalloc : Z → paging → Z * paging) (kfree : Z → paging → bool * paging).
Context (start_address halt_address : Z) (switch_esp : kstate K → Z) (inb : Z → P → Z * P) (outb : Z → Z → P → P).
Context (registers : Z * Z * Z) (heap : heap_statistics) (passes : nat).

Definition serial_number (number : Z) (s : system K P) : system K P := upd_display (λ d, foldl (λ d c, on_serial (serial_putchar inb outb c) d) d (decimal number)) s.
Definition update_uptime (seconds : Z) (s : system K P) : system K P := upd_display (terminal_status (chars "uptime: " ++ decimal seconds ++ chars "s")) s.

(** A turn of [uptime_worker]'s loop: [stop] and [stop'] are [uptime_stop] as its two
    tests read it, true once the supervisor is [Stopping]. [None] is the loop's end; a turn
    gives the seconds shown and its wait, if there is one. *)
Definition uptime_turn (stop stop' : bool) (displayed : Z) (s : system K P) : option (option (Z * option (progress task_wait_result)) * system K P) :=
  if stop then Some (None, s) else
  let observed := task_event_sequence (Some uptime_event) (machine s) in
  let now := timer_ticks (machine s) in
  let seconds := now / TIMER_HZ in
  let '(displayed, s) := if negb (seconds =? displayed) then (seconds, update_uptime seconds s) else (displayed, s) in
  if stop' then Some (Some (displayed, None), s) else
  let! (r, s) := on_machine (task_wait_for kernel switch_esp (Some uptime_event) observed (TIMER_HZ - now mod TIMER_HZ)) s in
  Some (Some (displayed, Some r), s).

(** The queue is read until it is empty; keys arrive before or after that. *)
Definition drain (s : system K P) : system K P := set_machine (set_keys (snd (read_keys (Z.to_nat QUEUE_SIZE) (keys (machine s)))) (machine s)) s.
(** The session is over: the uptime task, if there is one, is told to stop. *)
Definition session_ends (uptime : Z) (s : system K P) : supervisor * system K P :=
  if uptime =? 0 then (Over, drain s) else (Stopping, set_machine (task_event_signal (Some uptime_event) (machine s)) s).
(** The shell ended, or could not be waited for. *)
Definition session_waited (uptime child id started failures : Z) (r : option child_progress) (s : system K P) : option (supervisor * system K P) :=
  match r with
  | Some ChildBlocked => Some (Awaiting child id started failures, s)
  | Some (ChildResult 1 (Some info)) =>
      let '(ended, k) := task_foreground_end child (machine s) in
      if negb ended then None else
      let! (reaped, k) := task_reap_process ops kernel kfree child k in
      if negb reaped then None else
      let s := set_machine k s in
      match session_verdict info (wrap32 (timer_ticks (machine s) - started)) failures with
      | ToRecovery => Some (session_ends uptime s)
      | GivesUp => Some (session_ends uptime (say_line inb outb "The shell stopped repeatedly." s))
      | Again failures => Some (Starting failures, say_line inb outb "Restarting the shell." s)
      end
  | _ => None (* [cpu_halt] *)
  end.
Definition session_start (path : list Z) (uptime failures : Z) w (s : system K P) : option (supervisor * system K P) :=
  if negb (failures <? FAILURE_LIMIT) then Some (session_ends uptime s) else
  let! (r, s) := on_machine (process_start_shell ops kernel kmalloc kfree start_address halt_address (Some path) (Some (shell_arguments path)) w) s in
  let '(code, child) := r in
  if negb (code =? 0) then Some (session_ends uptime (say_line inb outb "Cannot start the shell." s)) else
  let started := timer_ticks (machine s) in
  let id := match task_query kernel child (machine s) with Some i => info_process_id i | None => 0 end in
  let! (r, s) := on_machine (task_wait_process kernel switch_esp child true (λ n, w (n + 5)%nat)) s in
  session_waited uptime child id started failures r s.
(** [while (task_query(...) && state != TASK_EXITED) task_yield()]. *)
Definition session_stopping (uptime : Z) (s : system K P) : option (supervisor * system K P) :=
  if match task_query kernel uptime (machine s) with Some i => negb (bool_decide (state (info_task i) = TASK_EXITED)) | None => false end then
    let! (r, s) := on_machine (task_yield kernel switch_esp) s in
    Some (match r with Switched => Yielding | Returned _ => Stopping end, s)
  else
    let! (_, s) := on_machine (task_reap ops kernel kfree) s in Some (Over, drain s).
(** [userspace_session] from one of its states to the next. *)
Definition userspace_step (path : list Z) (uptime : Z) (p : supervisor) w (s : system K P) : option (supervisor * system K P) :=
  match p with
  | Starting failures => session_start path uptime failures w s
  | Awaiting child id started failures =>
      let! (r, s) := on_machine (task_wait_child_resume ops kernel kfree switch_esp id false w) s in
      session_waited uptime child id started failures (Some r) s
  | Stopping => session_stopping uptime s
  | Yielding => let! (_, s) := on_machine (task_yield_resume ops kernel kfree) s in Some (Stopping, s)
  | Over => Some (Over, s)
  end.
Definition userspace_session (worker : Z) w (s : system K P) : option ((Z * supervisor) * system K P) :=
  let! (uptime, s) := on_machine (task_create ops kernel start_address halt_address (Some worker) 0 None w) s in Some ((uptime, Starting 0), s).

(** ** Recovery *)

Definition recovery_initialize (r : recovery) (s : system K P) : recovery * system K P :=
  shell_initialize inb outb (shell_set_launcher true r) (say_line inb outb "Kernel recovery shell." s).
(** After a character that was handled. *)
Definition recovery_ticked (displayed : Z) (e : received) (r : recovery) (s : system K P) : recovering * Z * recovery * system K P :=
  match e with
  | Received => (Turn, displayed, r, shell_tick ops inb outb (timer_ticks (machine s)) s)
  | Launching program id child => (InProgram program id child, displayed, r, s)
  end.
(** A turn of the loop: [w 0] arrives before it; the event, the clock and the queue are
    read with interrupts off, [w 1] arrives when they are on again. *)
Definition recovery_turn (displayed : Z) (r : recovery) w (s : system K P) : option (recovering * Z * recovery * system K P) :=
  let s := set_machine (interrupts (w 0%nat) (machine s)) s in
  let observed := task_event_sequence (Some task_work_event) (machine s) in
  let ticks := timer_ticks (machine s) in
  let seconds := ticks / TIMER_HZ in
  let '(c, k) := keyboard_read (keys (machine s)) in
  let s := set_machine (set_keys k (machine s)) s in
  let due := shell_tick_due ticks s in
  let s := set_machine (interrupts (w 1%nat) (machine s)) s in
  if negb (seconds =? displayed) || (if c then true else false) || due then
    let '(displayed, s) := if negb (seconds =? displayed) then (seconds, update_uptime seconds s) else (displayed, s) in
    match c with
    | Some c =>
        let! (e, r, s) := shell_receive ops kernel kmalloc kfree start_address halt_address switch_esp inb outb registers heap passes c r (λ n, w (n + 2)%nat) s in
        Some (recovery_ticked displayed e r s)
    | None => Some (recovery_ticked displayed Received r s)
    end
  else
    let! (p, s) := on_machine (task_wait kernel switch_esp (Some task_work_event) observed) s in
    Some (match p with Switched => Asleep | Returned _ => Turn end, displayed, r, s).
(** [recovery_session] from one of its states to the next. *)
Definition recovery_step (p : recovering) (displayed : Z) (r : recovery) w (s : system K P) : option (recovering * Z * recovery * system K P) :=
  match p with
  | Turn => recovery_turn displayed r w s
  | Asleep => let! (_, s) := on_machine (wait_resume ops kernel kfree) s in Some (Turn, displayed, r, s)
  | InProgram program id child =>
      let! (e, r, s) := shell_resume ops kernel kfree switch_esp inb outb program id child r w s in Some (recovery_ticked displayed e r s)
  end.
End Boot.

(** ** The command line as words *)

(** The text from [cursor] up to its NUL or the end of its page, of which [n] bytes are
    left; its words, separated by spaces. *)
Fixpoint text_from (n : nat) (text : Z → Z) (cursor : Z) : list Z :=
  match n with O => [] | S n => if text cursor =? 0 then [] else text cursor :: text_from n text (cursor + 1) end.
Definition flush (word : list Z) : list (list Z) := match word with [] => [] | _ => [word] end.
Fixpoint split (word l : list Z) : list (list Z) :=
  match l with [] => flush word | c :: l => if c =? 32 then flush word ++ split [] l else split (word ++ [c]) l end.
Definition left_at (text : Z → Z) (cursor : Z) : list Z := text_from (Z.to_nat (PAGE_SIZE - cursor)) text cursor.

Section Words.
Context (text : Z → Z).
Notation left_at := (left_at text).
Lemma left_step c : c < PAGE_SIZE → left_at c = if text c =? 0 then [] else text c :: left_at (c + 1).
Proof. intros H. unfold left_at, Boot.left_at. replace (Z.to_nat (PAGE_SIZE - c)) with (S (Z.to_nat (PAGE_SIZE - (c + 1)))) by lia. done. Qed.
Lemma left_end c : PAGE_SIZE ≤ c → left_at c = [].
Proof. intros H. unfold left_at, Boot.left_at. by replace (Z.to_nat (PAGE_SIZE - c)) with O by lia. Qed.
Lemma spaces_spec n c : c ≤ PAGE_SIZE → PAGE_SIZE - c ≤ Z.of_nat n → let e := spaces_end n text c in
  c ≤ e ≤ PAGE_SIZE ∧ (e < PAGE_SIZE → text e ≠ 32) ∧ (text c = 32 → c < PAGE_SIZE → c < e) ∧ split [] (left_at c) = split [] (left_at e).
Proof.
  revert c. induction n as [|n IH]; intros c Hc Hn; cbn [spaces_end]; [split_and!; lia || done|]. destruct (Z.ltb_spec c PAGE_SIZE) as [L|L]; cbn [andb]; [|split_and!; lia || done].
  destruct (Z.eqb_spec (text c) 32) as [E|E]; [|split_and!; lia || done]. destruct (IH (c + 1)) as (A & B & _ & C); [lia..|]. split_and!; [lia|lia|exact B|lia|]. rewrite <- C, (left_step c L), E. done.
Qed.
Lemma word_spec n c w : c ≤ PAGE_SIZE → PAGE_SIZE - c ≤ Z.of_nat n → let e := word_end n text c in
  c ≤ e ≤ PAGE_SIZE ∧ (c < PAGE_SIZE → text c ≠ 0 → text c ≠ 32 → c < e) ∧ split w (left_at c) = flush (w ++ (text <$> seqZ c (e - c))) ++ split [] (left_at e).
Proof.
  revert c w. induction n as [|n IH]; intros c w Hc Hn; cbn [word_end].
  { split_and!; [lia..|]. rewrite left_end by lia. replace (c - c) with 0 by lia. cbn. by rewrite !app_nil_r. }
  destruct (Z.ltb_spec c PAGE_SIZE) as [L|L]; cbn [andb]; cycle 1.
  { split_and!; [lia..|]. rewrite left_end by lia. replace (c - c) with 0 by lia. cbn. by rewrite !app_nil_r. }
  rewrite (left_step c L). destruct (Z.eqb_spec (text c) 0) as [E|E]; cbn [negb andb].
  { split_and!; [lia..|]. replace (c - c) with 0 by lia. rewrite (left_step c L), E. cbn. by rewrite !app_nil_r. }
  cbn [split]. destruct (Z.eqb_spec (text c) 32) as [F|F]; cbn [negb].
  { split_and!; [lia..|]. replace (c - c) with 0 by lia. rewrite (left_step c L), F. cbn. by rewrite app_nil_r. }
  destruct (IH (c + 1) (w ++ [text c])) as (A & _ & C); [lia..|]. split_and!; [lia..|]. rewrite C. f_equal. f_equal. rewrite <- app_assoc. f_equal.
  rewrite (seqZ_cons c) by lia. cbn. do 2 f_equal. f_equal; lia.
Qed.
Lemma apply_nothing o : apply_option o [] = o.
Proof. by vm_compute. Qed.
Lemma flush_fold w o : foldl apply_option o (flush w) = apply_option o w.
Proof. destruct w; [by rewrite apply_nothing|done]. Qed.
Lemma options_loop_spec n c o : 0 ≤ c ≤ PAGE_SIZE → PAGE_SIZE - c ≤ Z.of_nat n → options_loop n text c o = foldl apply_option o (split [] (left_at c)).
Proof.
  revert c o. induction n as [|n IH]; intros c o Hc Hn; cbn [options_loop]; [rewrite left_end by lia; done|]. destruct (Z.ltb_spec c PAGE_SIZE) as [L|L]; cbn [andb negb]; [|rewrite left_end by lia; done].
  destruct (Z.eqb_spec (text c) 0) as [E|E]; cbn [negb]; [rewrite (left_step c L), E; done|]. destruct (spaces_spec (Z.to_nat PAGE_SIZE) c) as (A & B & S & ->); [lia|lia|].
  set (b := spaces_end _ _ _) in *. destruct (word_spec (Z.to_nat PAGE_SIZE) b []) as (A' & B' & ->); [lia|lia|]. set (e := word_end _ _ _) in *. rewrite foldl_app, flush_fold. cbn [app]. apply IH; [lia|].
  assert (c < e); [|lia]. destruct (Z.eq_dec b c) as [Eb|Nb]; [|lia]. destruct (Z.eq_dec (text c) 32) as [F|F]; [lia|]. specialize (B' ltac:(lia)). rewrite Eb in B'. specialize (B' E F). lia.
Qed.
End Words.

(** The shell's path is a path that fits, without a space or a NUL. *)
Definition path_ok (l : list Z) : Prop := 0 < len l < FS_PATH_CAPACITY ∧ Forall (λ c, c ≠ 0) l.
Lemma apply_option_path o w : path_ok (shell_path o) → Forall (λ c, c ≠ 0) w → path_ok (shell_path (apply_option o w)).
Proof.
  intros H F. unfold apply_option. set (o1 := if _ && _ then Options true _ _ else _). assert (shell_path o1 = shell_path o) as E1 by (unfold o1; by destruct (_ && _)). clearbody o1.
  set (o2 := if _ && bool_decide (w = chars "rum.disk-readonly") then _ else _). assert (shell_path o2 = shell_path o) as E2 by (unfold o2; by destruct (_ && _)). clearbody o2.
  rewrite !Z.geb_leb. destruct (Z.leb_spec 10 (len w)) as [L|L]; cbn [andb]; [|by rewrite E2]. case_bool_decide; [|by rewrite E2].
  destruct (Z.eqb_spec (len w) 10); cbn [orb]; [cbn; by rewrite E2|]. destruct (Z.leb_spec FS_PATH_CAPACITY (len w - 10)); [cbn; by rewrite E2|]. cbn [shell_path].
  split; [rewrite length_drop; lia|by apply Forall_drop].
Qed.
Lemma split_nonzero l : ∀ w, Forall (λ c, c ≠ 0) w → Forall (λ c, c ≠ 0) l → Forall (Forall (λ c, c ≠ 0)) (split w l).
Proof.
  assert (∀ w, Forall (λ c, c ≠ 0) w → Forall (Forall (λ c, c ≠ 0)) (flush w)) as F by (intros [|c w] H; [constructor|by constructor; [|constructor]]).
  induction l as [|c l IH]; intros w Hw Hl; cbn [split]; [by apply F|]. apply Forall_cons_1 in Hl as [Hc Hl]. destruct (c =? 32).
  - apply Forall_app. split; [by apply F|]. by apply IH.
  - apply IH; [|done]. apply Forall_app. split; [done|]. by constructor.
Qed.
Lemma text_nonzero n text : ∀ c, Forall (λ c, c ≠ 0) (text_from n text c).
Proof. induction n as [|n IH]; intros c; cbn [text_from]; [constructor|]. destruct (Z.eqb_spec (text c) 0); constructor; [done|apply IH]. Qed.
Lemma options_path ws : ∀ o, path_ok (shell_path o) → Forall (Forall (λ c, c ≠ 0)) ws → path_ok (shell_path (foldl apply_option o ws)).
Proof. induction ws as [|w ws IH]; intros o H F; [done|]. apply Forall_cons_1 in F as [Fw F]. cbn [foldl]. apply IH; [by apply apply_option_path|done]. Qed.
Lemma no_options_path : path_ok (shell_path no_options).
Proof. split; [by vm_compute|]. vm_compute. repeat (constructor; [discriminate|]). constructor. Qed.
(** The packet for any such path is accepted. *)
Lemma shell_packet path : path_ok path → elf_arguments_valid (Some (shell_arguments path)) = true ∧ holds (shell_arguments path) 0 0 [path].
Proof.
  intros [[L1 L2] F]. unfold FS_PATH_CAPACITY in *. assert (holds (shell_arguments path) 0 0 [path]) as H.
  { cbn [holds]. split_and!; [done| |cbn; lia]. constructor; [done| | |cbn; lia].
    - intros j c Hj. rewrite Z.add_0_l. apply array_of_lookup. by apply lookup_app_l_Some.
    - rewrite Z.add_0_l. apply array_of_lookup. by rewrite lookup_app_r, Nat.sub_diag by lia. }
  split; [|done]. apply arguments_valid_spec; [done|cbn; lia|]. unfold RUM_PROCESS_ARGUMENT_LIMIT, RUM_PROCESS_ARGUMENT_BYTES. cbn [shell_arguments argc string_bytes]. split_and!; [lia..|]. by exists [path].
Qed.

(** C39: the boot options are the words of the command line. The loop over at most a page
    of characters applies every option between spaces exactly once and in order, up to
    the NUL or the end of the page, and nothing else; without a command line nothing
    changes. Whatever the line holds, the shell's path is then not empty and fits its
    buffer, and the argument packet made from it is one the loader accepts, holding that
    path. *)
Theorem boot_options_exact (mem : Pmm.memory) (info : multiboot_info) :
  let o := boot_options mem info no_options in
  o = (if Pmm.flag info 2 && negb (cmdline info =? 0) then foldl apply_option no_options (split [] (left_at (λ i, mem (cmdline info + i)) 0)) else no_options) ∧
  path_ok (shell_path o) ∧ elf_arguments_valid (Some (shell_arguments (shell_path o))) = true ∧ holds (shell_arguments (shell_path o)) 0 0 [shell_path o].
Proof.
  intros o. assert (o = if Pmm.flag info 2 && negb (cmdline info =? 0) then foldl apply_option no_options (split [] (left_at (λ i, mem (cmdline info + i)) 0)) else no_options) as E.
  { unfold o, boot_options. destruct (Pmm.flag info 2), (cmdline info =? 0); cbn [negb orb andb]; try done. apply options_loop_spec; unfold PAGE_SIZE; lia. }
  assert (path_ok (shell_path o)) as H. { rewrite E. destruct (_ && _); [|exact no_options_path]. apply options_path; [exact no_options_path|]. apply split_nonzero; [constructor|apply text_nonzero]. }
  split; [exact E|]. split; [exact H|by apply shell_packet].
Qed.
(** The line asks for recovery and another shell. *)
Example boot_words : split [] (chars " rum.recovery  rum.shell=/bin/sh ") = [chars "rum.recovery"; chars "rum.shell=/bin/sh"] ∧
  foldl apply_option no_options [chars "rum.recovery"; chars "rum.shell=/bin/sh"] = Options true false (chars "/bin/sh").
Proof. by vm_compute. Qed.

(** ** Stale keys *)

Lemma read_keys_all n : ∀ k, ring_ok k → (length (contents k) ≤ n)%nat → (read_keys n k).1 = contents k ∧ contents (read_keys n k).2 = [] ∧ ring_ok (read_keys n k).2.
Proof.
  induction n as [|n IH]; intros k R L; [destruct (contents k) eqn:E; [by rewrite <- E|cbn in L; lia]|]. cbn [read_keys]. destruct (keyboard_read k) as [[c|] k'] eqn:E.
  - destruct (contents_read k c k' R E) as [C R']. rewrite C in L |- *. cbn [length] in L. destruct (IH k' R') as (A & B & D); [lia|]. destruct (read_keys n k') as [l k'']. cbn [fst snd] in *. by rewrite A.
  - unfold keyboard_read in E. destruct (Z.eqb_spec (tail k) (head k)) as [H|]; [|done]. injection E as <-. apply contents_empty in H; [|done]. cbn [fst snd]. by rewrite H.
Qed.
(** What was typed to the shell that ended never becomes a recovery command. *)
Theorem stale_keys_are_dropped {K P : Type} (s : system K P) : ring_ok (keys (machine s)) → contents (keys (machine (drain s))) = [].
Proof.
  intros R. apply read_keys_all; [done|]. pose proof (contents_length _ R). pose proof (Z.mod_pos_bound (head (keys (machine s)) - tail (keys (machine s))) 128 ltac:(lia)). unfold QUEUE_SIZE. lia.
Qed.

(** ** The registry *)

Definition supervisor_ok (p : supervisor) : Prop :=
  match p with Starting failures | Awaiting _ _ _ failures => 0 ≤ failures < FAILURE_LIMIT | _ => True end.

Section Keeps.
Context {K P : Type} (ops : fs_operations K) (kernel : Z) (kmalloc : Z → paging → Z * paging) (kfree : Z → paging → bool * paging) `{!HeapLaw kernel kmalloc kfree}.
Context (start_address halt_address : Z) (switch_esp : kstate K → Z) (inb : Z → P → Z * P) (outb : Z → Z → P → P).
Context (registers : Z * Z * Z) (heap : heap_statistics) (passes : nat).
Implicit Types (x y : system K P) (r : recovery).
Notation goes := (goes ops kernel kfree start_address halt_address switch_esp).
Notation leads := (leads ops kernel kfree start_address halt_address switch_esp).
Notation whole := (whole ops kernel kfree start_address halt_address switch_esp).
Notation whole_at := (whole_at ops kernel kfree start_address halt_address switch_esp).
Notation whole_bind := (whole_bind ops kernel kmalloc kfree start_address halt_address switch_esp).
Notation whole_from := (whole_from ops kernel kmalloc kfree start_address halt_address switch_esp).
Notation whole_ret := (whole_ret ops kernel kmalloc kfree start_address halt_address switch_esp).
Notation goes_step := (goes_step ops kernel kfree start_address halt_address switch_esp).
Notation goes_set_interrupts := (goes_set_interrupts ops kernel kfree start_address halt_address switch_esp).
#[local] Instance goes_ordered : PreOrder goes := goes_preorder ops kernel kmalloc kfree start_address halt_address switch_esp.

Lemma goes_keys k x : goes (machine x) (set_keys k (machine x)).
Proof. apply goes_minor, minor_keys. Qed.
Lemma session_ends_goes uptime x : goes (machine x) (machine (session_ends uptime x).2).
Proof. unfold session_ends. destruct (uptime =? 0); [apply goes_keys|]. apply goes_step. by eapply k_signal. Qed.
Lemma session_ends_whole uptime x y : goes (machine x) (machine y) → whole (Some (session_ends uptime y)) x.
Proof. intros G. pose proof (session_ends_goes uptime y) as E. destruct (session_ends uptime y) as [p z]. apply whole_at. etransitivity; [exact G|exact E]. Qed.
Lemma session_waited_whole uptime child id started failures q x : whole (session_waited ops kernel kfree inb outb uptime child id started failures q x) x.
Proof.
  unfold session_waited. destruct q as [[code info| |]|]; try done; [|by apply whole_ret]. destruct code as [|[| |]|]; try done. destruct info as [info|]; [|done].
  assert (goes (machine x) (snd (task_foreground_end child (machine x)))) as G by (apply goes_step; by eapply k_foreground_end). destruct (task_foreground_end child (machine x)) as [ended k]. cbn [snd] in G.
  destruct (negb ended); [done|]. destruct (task_reap_process _ _ _ _ k) as [[reaped k']|] eqn:E; [|done]. destruct (negb reaped); [done|]. cbv zeta.
  assert (goes (machine x) k') as G' by (etransitivity; [exact G|]; apply goes_step; by eapply k_reap_process). destruct (session_verdict _ _ _); [by apply session_ends_whole..|by apply whole_at].
Qed.
Lemma session_start_whole path uptime failures w x :
  whole (session_start ops kernel kmalloc kfree start_address halt_address switch_esp inb outb path uptime failures w x) x.
Proof.
  unfold session_start. destruct (negb _); [apply session_ends_whole; reflexivity|]. apply whole_bind; [apply whole_on, (leads_start ops kernel kmalloc kfree)|]. intros [code child] y.
  destruct (negb _); [apply session_ends_whole; reflexivity|]. cbv zeta. apply whole_bind; [|intros; apply session_waited_whole]. apply whole_on. intros q t E. apply goes_step. by eapply k_wait_process.
Qed.
Lemma session_stopping_whole uptime x : whole (session_stopping ops kernel kfree switch_esp uptime x) x.
Proof.
  unfold session_stopping. match goal with |- whole (if ?b then _ else _) _ => destruct b end.
  - apply whole_bind; [apply whole_on, leads_yield|]. intros. by apply whole_ret.
  - apply whole_bind; [apply whole_on; intros n t E; apply goes_step; by eapply k_reap|]. intros n y. apply whole_at, goes_keys.
Qed.
Lemma userspace_whole path uptime p w x : whole (userspace_step ops kernel kmalloc kfree start_address halt_address switch_esp inb outb path uptime p w x) x.
Proof.
  unfold userspace_step. destruct p; [apply session_start_whole| |apply session_stopping_whole| |by apply whole_ret].
  - apply whole_bind; [apply whole_on, leads_wait_child_resume|]. intros. apply session_waited_whole.
  - apply whole_bind; [apply whole_on, leads_yield_resume|]. intros. by apply whole_ret.
Qed.

(** *** Restarts *)

Lemma verdict_again info elapsed failures f : 0 ≤ failures < FAILURE_LIMIT → session_verdict info elapsed failures = Again f →
  0 < f < FAILURE_LIMIT ∧ (f = failures + 1 ∨ f = 1 ∧ RESTART_WINDOW ≤ elapsed).
Proof.
  unfold session_verdict. intros Hf. destruct (_ && _); [done|]. rewrite Z.geb_leb. unfold FAILURE_LIMIT in *. destruct (Z.leb_spec RESTART_WINDOW elapsed); cbv zeta; [intros [= <-]; lia|].
  destruct (Z.eqb_spec (failures + 1) 3); [done|]. intros [= <-]; lia.
Qed.
Lemma session_ends_ok uptime x p y : session_ends uptime x = (p, y) → p = Over ∨ p = Stopping.
Proof. unfold session_ends. destruct (uptime =? 0); intros [= <- _]; auto. Qed.
(** A restart counts one more failure, or the first of a new window. *)
Definition restarts (started failures : Z) (p : supervisor) (y : system K P) : Prop :=
  match p with
  | Starting f => 0 < f < FAILURE_LIMIT ∧ (f = failures + 1 ∨ f = 1 ∧ RESTART_WINDOW ≤ wrap32 (timer_ticks (machine y) - started))
  | Awaiting _ _ started' f => started' = started ∧ f = failures
  | _ => True
  end.
Lemma waited_restarts uptime child id started failures q x p y : 0 ≤ failures < FAILURE_LIMIT →
  session_waited ops kernel kfree inb outb uptime child id started failures q x = Some (p, y) → restarts started failures p y.
Proof.
  intros Hf. unfold session_waited. destruct q as [[code info| |]|]; try done; [|by intros [= <- <-]]. destruct code as [|[| |]|]; try done. destruct info as [info|]; [|done].
  destruct (task_foreground_end child (machine x)) as [ended k]. destruct (negb ended); [done|]. destruct (task_reap_process _ _ _ _ k) as [[reaped k']|]; [|done]. destruct (negb reaped); [done|]. cbv zeta.
  destruct (session_verdict _ _ _) eqn:V; intros E; apply (inj Some) in E; [by apply session_ends_ok in E as [-> | ->]..|]. injection E as <- <-. by eapply verdict_again.
Qed.
Lemma userspace_ok path uptime p w x q y : supervisor_ok p →
  userspace_step ops kernel kmalloc kfree start_address halt_address switch_esp inb outb path uptime p w x = Some (q, y) →
  supervisor_ok q ∧ match p with Awaiting _ _ started failures => restarts started failures q y | _ => True end.
Proof.
  intros H. assert (∀ started failures q y, 0 ≤ failures < FAILURE_LIMIT → restarts started failures q y → supervisor_ok q) as R by (intros ? ? [] ?; cbn; lia).
  unfold userspace_step. destruct p as [failures|child id started failures| | |]; cbn in H.
  - unfold session_start. destruct (negb _); [intros E; apply (inj Some) in E; by apply session_ends_ok in E as [-> | ->]|]. destruct (on_machine _ x) as [[[code child] z]|]; [|done].
    destruct (negb _); [intros E; apply (inj Some) in E; by apply session_ends_ok in E as [-> | ->]|]. cbv zeta. destruct (on_machine _ z) as [[o u]|]; [|done]. intros E%waited_restarts; [|done]. split; [by eapply R|done].
  - destruct (on_machine _ x) as [[o u]|]; [|done]. intros E%waited_restarts; [|done]. split; [by eapply R|exact E].
  - unfold session_stopping. match goal with |- (if ?b then _ else _) = _ → _ => destruct b end; (destruct (on_machine _ x) as [[o u]|]; [|done]); intros [= <- <-]; [by destruct o|done].
  - destruct (on_machine _ x) as [[o u]|]; [|done]. by intros [= <- <-].
  - by intros [= <- <-].
Qed.

(** *** Recovery *)

Lemma ticked_goes displayed e r x : goes (machine x) (machine (recovery_ticked ops inb outb displayed e r x).2).
Proof. unfold recovery_ticked. destruct e; [|reflexivity]. apply (tick_goes ops kernel kmalloc kfree). Qed.
Lemma ticked_whole displayed e r x : whole (Some (recovery_ticked ops inb outb displayed e r x)) x.
Proof. pose proof (ticked_goes displayed e r x) as G. destruct (recovery_ticked _ _ _ _ _ _ x) as [q y]. by apply whole_at. Qed.
Lemma recovery_turn_whole displayed r w x :
  whole (recovery_turn ops kernel kmalloc kfree start_address halt_address switch_esp inb outb registers heap passes displayed r w x) x.
Proof.
  unfold recovery_turn. cbv zeta. eapply whole_from; [apply (goes_set_interrupts (w 0%nat))|]. generalize (set_machine (interrupts (w 0%nat) (machine x)) x). clear x. intros x. destruct (keyboard_read _) as [c k].
  eapply (whole_from _ x (set_machine (set_keys k (machine x)) x)); [apply goes_keys|]. set (y := set_machine (set_keys k (machine x)) x). set (due := shell_tick_due _ y). clearbody y due.
  eapply whole_from; [apply (goes_set_interrupts (w 1%nat))|]. generalize (set_machine (interrupts (w 1%nat) (machine y)) y). intros z. destruct (_ || _ || _).
  - set (dz := if negb _ then _ else (displayed, z)). assert (machine dz.2 = machine z) as M by (unfold dz; by destruct (negb _)). destruct dz as [d u]. cbn [snd] in M.
    eapply (whole_from _ z u); [rewrite M; reflexivity|]. destruct c as [c|]; [|apply ticked_whole]. apply whole_bind; [apply (receive_whole ops kernel kmalloc kfree)|]. intros [e r'] v. apply ticked_whole.
  - apply whole_bind; [apply whole_on, (leads_wait ops kernel kmalloc kfree)|]. intros. by apply whole_ret.
Qed.
Lemma recovery_step_whole p displayed r w x :
  whole (recovery_step ops kernel kmalloc kfree start_address halt_address switch_esp inb outb registers heap passes p displayed r w x) x.
Proof.
  unfold recovery_step. destruct p; [apply recovery_turn_whole| |].
  - apply whole_bind; [apply whole_on, leads_wait_resume|]. intros. by apply whole_ret.
  - apply whole_bind; [apply (shell_resume_whole ops kernel kmalloc kfree)|]. intros [e r'] y. apply ticked_whole.
Qed.
End Keeps.


(** The recovery session keeps the registry too. *)
Theorem recovery_session_safe (K P : Type) (ops : fs_operations K) (kernel : Z) (kmalloc : Z → paging → Z * paging) (kfree : Z → paging → bool * paging)
    `{!HeapLaw kernel kmalloc kfree} (start_address halt_address : Z) (switch_esp : kstate K → Z) (inb : Z → P → Z * P) (outb : Z → Z → P → P)
    (registers : Z * Z * Z) (heap : heap_statistics) (passes : nat) (p q : recovering) (displayed displayed' : Z) (r r' : recovery) (w : nat → list irq) (x y : system K P) :
  registry kernel true (machine x) →
  recovery_step ops kernel kmalloc kfree start_address halt_address switch_esp inb outb registers heap passes p displayed r w x = Some (q, displayed', r', y) →
  registry kernel true (machine y) ∧ rtc (kstep kernel switch_esp ops start_address halt_address kfree) (machine x) (machine y).
Proof.
  intros R E. assert (rtc (kstep kernel switch_esp ops start_address halt_address kfree) (machine x) (machine y)) as St by (eapply (recovery_step_whole ops kernel kmalloc kfree); [exact E|exact R]).
  split; [eapply steps_keep; [exact _|exact R|exact St]|exact St].
Qed.
